(* ===== verification/_CoqProject ===== *)
-Q . S2P
Prelude.v
Types.v
StateUtils.v
Cbor.v
CborTypes.v
Instances.v
Persistence.v
Queue.v
StoreManager.v
ChainApi.v
Storage.v
StorageSafety.v
SampleWorld.v
StorageTheorems.v
LruCache.v
MapLock.v
Stage.v
Chain.v
ChainTheorems.v
Broadcast.v
Gateway.v
Streams.v
GatewayTheorems.v
GatewaySample.v
ChainSample.v
Validator.v
ModelManager.v
RemoteCaches.v
ModelTheorems.v
ModelNode.v
StreamTheorems.v
ModelSample.v
NodeApi.v
NodeTheorems.v
Upload.v
UploadTheorems.v
UploadSession.v
Client.v
Indexer.v
Graphql.v
Config.v
Repo.v
ChainInfo.v
ClientInfo.v
NodeCmds.v
Ipfs.v
NodeStart.v
Lifecycle.v
ChainStop.v
HttpFiles.v
ClientTheorems.v
HttpTheorems.v
IndexerTheorems.v
GraphqlTheorems.v
RepoTheorems.v
NodeCmdTheorems.v
NodeSpending.v
NodeStartTheorems.v
ChainNode.v
NodeSample.v
UploadSample.v
StreamSample.v
ClientSample.v
HttpSample.v
IndexerSample.v
RepoSample.v
StartSample.v
