(* ===== verification/Prelude.v ===== *)
(** * SAO node: a verification library

    The SAO node ([src/]) stores models of users.  Clients send requests to a
    gateway; the gateway sends an order to the SAO chain and assigns shards of the
    content to storage nodes; a storage node fetches its shard, stores it in its
    backends and completes the order on the chain; models are read back through
    the gateway or the storage nodes.  This library models these parts as functions
    and transition systems and proves what makes them correct.

    ** The parts, from the bottom up

    - [Prelude]: the monad [GoM] of the model, its reasoning rules ([wp], [steps],
      [safe]) and their automation (databases [go] and [safe]), strings and lists.
    - [Types]: the records and constants of [types/*.go] and the registered errors.
    - [StateUtils], [Persistence]: the records and indexes that the node keeps in its
      datastore ([utils/state_utils.go]), and the abstract database they implement.
    - [Cbor], [CborTypes]: the generated encoders and decoders ([types/cbor_gen.go]).
    - [Queue], [MapLock], [LruCache], [StoreManager]: the work queue
      ([node/queue]), the locks by name ([utils/maplock.go]), the LRU caches
      ([node/cache]) and the manager of the backends ([store/store_manager.go]).
    - [ChainApi]: the interfaces through which the services see the chain, their
      peers, the clock and the libraries.
    - [Storage], [StorageSafety], [StorageTheorems]: the storage service
      ([node/storage/storage_service.go]).
    - [Stage], [Gateway], [GatewayTheorems]: the gateway service and its staging
      area ([node/gateway/gateway_service.go], [stage.go]).
    - [Chain], [ChainTheorems], [Broadcast], [ChainNode]: the chain service, its
      address pool, its accounts and its broadcast loops ([chain/*.go]), and the
      services on top of it.
    - [Validator], [ModelManager], [ModelTheorems], [ModelNode]: the rule engine and
      the validator ([node/model/rule_engine], [node/model/schema/validator]), the
      model manager ([node/model/manager.go], [utils/model.go]), and the manager
      on the LRU cache and the gateway service.
    - [NodeApi], [NodeTheorems]: the API of a node and the fishermen
      ([node/node.go]).
    - [Upload], [UploadTheorems], [UploadSession]: the client that sends a file in
      chunks ([client/transport.go]) and the RPC handler of the transport
      ([node/transport/rpc_handler.go], [libp2p_udp_rpc.go]).
    - [Streams], [StreamTheorems]: the requests between nodes over streams and
      channels ([node/transport/shard.go], [pingpong.go], the protocols of
      [node/gateway] and [node/storage], [types/protocol.go]).
    - [Client], [ClientInfo], [ClientTheorems]: the client and its commands
      ([client/client.go], [cmd/client], [cmd/cliutil.go]); the helper for schemas
      ([node/model/schema/schema_helper.go]).
    - [HttpFiles], [HttpTheorems]: the HTTP file server of a gateway
      ([node/gateway/file_http_service.go]).
    - [Indexer], [IndexerTheorems]: the jobs that copy what the chain has into SQL
      tables, and the service that runs them ([node/indexer/index_service.go],
      [node/indexer/jobs], [types/job.go]).
    - [Graphql], [GraphqlTheorems]: the server that answers queries from the tables of
      the indexer ([node/indexer/gql]).
    - [RemoteCaches]: the caches on Redis and memcached ([node/cache]).
    - [Config], [Repo], [RepoTheorems]: the configuration of a node, how it is written
      and read, and the repository on disk ([node/config], [node/repo], [utils/toml.go]).
    - [ChainInfo]: making the chain service, and its queries for balances, nodes and
      dids ([chain/*.go], [types/info.go]).
    - [Ipfs]: the backend on IPFS and the node in the process ([store/ipfs_*.go]).
    - [NodeCmds], [NodeCmdTheorems], [NodeSpending]: the commands of the node and of accounts
      ([cmd/node], [cmd/account]).
    - [NodeStart], [NodeStartTheorems]: the start of a node, its peers, its tokens and
      its RPC server ([node/node.go], [node/rpc.go], [node/shutdown.go], [api]).
    - [Lifecycle], [ChainStop]: the starts and stops of the services, and of the chain
      service beside its broadcast loops.
    - [Instances], [SampleWorld], [GatewaySample], [ChainSample], [ModelSample],
      [NodeSample], [UploadSample], [StreamSample], [ClientSample], [HttpSample],
      [IndexerSample], [RepoSample], [StartSample]: concrete instances of the interfaces and small worlds, on which the theorems
      are applied.

    ** How Go is modelled

    A function that changes state is a computation [GoM S A], from a state to an
    outcome and a state.  An outcome is [Ret] of a value, [Fail] of an error (a
    non-nil [error] that is returned), [Panic] or [OutOfFuel].  A value beside an error
    is lost with the error; where the code reads it, the function returns both.
    [defer] and [recover] are written out where they are used.  A component that
    works on a part of the state is lifted with [zoom].

    Integers of width 64 are [Z] with [wrap_u64] or [wrap_i64] where the code adds,
    multiplies or converts.  Strings are byte strings and contents are lists of
    bytes.  A map is a [gmap]; where the code ranges over a map, the order is the
    one of the class [GoRange], of which only the laws of a range are known.
    Slices are values: no modelled function depends on two slices that share an
    array.  Pointers that are shared are modelled as such: the nodes of an LRU
    cache, the models behind the pointers of the model cache, the task and the
    order that a worker changes in place.

    Code outside [src/] (the cosmos client and the types of the chain, libp2p, the
    datastore, the cbor run time, the libraries for cids, dids, JSON, patches,
    schemas and rules, the operating system) is a class with its operations, and,
    where a theorem relies on it, a class with its laws.  A call to the outside is a
    function on an unknown world [W] that may fail and change the world in any way
    the laws allow.  [time.Now] and timers are such calls.  Log lines are left out.

    ** Concurrency

    Most handlers are run one at a time, as computations.  Goroutines that
    interleave are modelled where the code's correctness rests on it: the locks by
    name ([MapLock], one step for each atomic operation), the broadcast loops
    ([Broadcast], one step for each operation on a channel or the shared map and for
    each call of the client, which other goroutines may use in between), the
    leases of the address pool ([ChainTheorems], under its mutex), and the work of
    a storage node ([StorageSafety.step], one step for a handler or a turn of a
    loop).  A loop without end is modelled by one of its turns.

    ** What the theorems show

    - Storage: a shard is completed on the chain only after its content was stored
      or found, or at the end of a migration, whose content is stored but not compared
      with its identifier ([StorageSafety.complete_only_stored]); the outcome of each task,
      assignment and migration, and what is retried ([StorageTheorems]); contents
      are served to those who may have them ([load_authorized]).
    - Gateway: the outcome of a commit, of the processing of an order, of a
      completion, of a fetch and of a turn of the timeout loop ([GatewayTheorems]);
      the staging area is a map from (owner, cid, data id) to contents ([Stage]).
    - Persistence: saves and reads implement an abstract database under any failure
      of the datastore ([Persistence]); the codecs are round trips ([CborTypes]).
    - Models: what is loaded, created and updated, after which checks
      ([ModelTheorems]); an updated model can be served again ([ModelNode]).
    - API: nothing is done for a request without the signatures it needs; whatever
      comes of a run, a fisherman reports, and takes back, only what it has checked in
      that run ([NodeTheorems]; the calls are the log of the class [FishLog]).
    - Uploads: what a client is told was taken is staged in full, and when nothing
      fails it is taken ([UploadSession]).
    - Requests between nodes: what a storage node gets from a peer that runs
      the handler of a gateway is what is staged there, over a stream or within a process; which contents fit in a
      message; what is handled or served without a check ([StreamTheorems]).
    - Client: what a command that creates a model sends, in which order, signed and
      taken by the node; a patch makes the content that its update signs; what is
      saved and shown ([ClientTheorems]).
    - HTTP file server: which file answers a request, and who is asked for it; which
      files the cleaner keeps - those with a path of their information file in the
      cache, which are not all that have a path in the cache - and what a restart
      keeps ([HttpTheorems]).
    - Indexer: what a job enters into its table, on which chains it fails, and what a
      worker does with it ([IndexerTheorems]); what the GraphQL server gives of the
      tables, and what it cannot give ([GraphqlTheorems]).  The database runs the
      texts of the statements: its laws are those of [INSERT] and [SELECT].
    - Repository: a configuration that is written, with its comments and without the
      lines of its defaults, is read back; a repository that was initialized has the
      configuration and the key it was given ([RepoTheorems]).
    - Node: what holds of a node that has started, and what the command [update]
      announces ([NodeStartTheorems]); what [init] spends, and for whom ([NodeSpending]); what was
      stored on IPFS is kept until it is removed, and then unpinned, so that it may be
      collected ([Ipfs]).
    - Stops: which handlers are left, what panics after a stop ([Lifecycle]), and that
      the chain service ends one broadcast loop, or waits for ever ([ChainStop]).
    - Chain: leased addresses are given back and leased to one goroutine only
      ([ChainTheorems]); a sender that gets a result gets the one of its own
      calls ([Broadcast]); a gateway keeps the pool of its chain service ([ChainNode]).
    - Infrastructure: mutual exclusion of the locks ([MapLock]), the LRU caches
      implement abstract LRU caches within their bounds ([LruCache]), the manager
      returns what was stored ([StoreManager]), and the caches on servers do not
      ([RemoteCaches]).

    ** Bounds and fuel

    Loops over data are structural.  The others have fuel or a bound as an argument:
    [GetAllShards] (pages of the chain), [scan_heights] of the gateway (heights up
    to the current one), [GetTx] (questions for the height, of which
    there may be any number) and [ListMetaByDid] (pages), [scan] of
    the indexer (pages), [confirm_funds], [confirm_pledge] and [read_secret] (lines of
    the terminal, of which there may be any number), the operations of the LRU caches (the eviction loop; [LruCache] says how much is
    enough).  The theorems about them say which fuel gives the result, or hold for
    every fuel and count running out as an outcome of its own.

    ** What is not modelled

    The code generators ([gen]) and the declarations of the flags of the commands;
    printing, where what is printed is the result of a command; the bodies of the
    functions of the generated API proxy ([api/proxy_gen.go]), which are one
    definition ([proxied]); the goroutines that a start leaves behind (the modelled
    turns are their bodies) and the timers and signals that wake them.  The endless
    loops around the modelled turns only throttle and sleep. *)
From stdpp Require Import base list gmap strings.
From Stdlib Require Import ZArith Lia Ascii.
From Stdlib Require Strings.Byte.

(** ** Scopes *)
Declare Scope go_scope.
Delimit Scope go_scope with go.
#[global] Open Scope Z_scope.

(** ** Machine integers

    A [uint64] (or [int64], [int32]) is a [Z]; arithmetic that the source does on
    a fixed width goes through the wrap of that width. *)
Definition two64 : Z := 2 ^ 64.
Definition two63 : Z := 2 ^ 63.
Definition two32 : Z := 2 ^ 32.
Definition two31 : Z := 2 ^ 31.
Definition wrap_u64 (z : Z) : Z := z mod two64.
Definition wrap_u32 (z : Z) : Z := z mod two32.
Definition wrap_i64 (z : Z) : Z := (z + two63) mod two64 - two63.
Definition wrap_i32 (z : Z) : Z := (z + two31) mod two32 - two31.
Definition is_u64 (z : Z) : Prop := 0 <= z < two64.
Definition is_i64 (z : Z) : Prop := - two63 <= z < two63.

#[global] Instance is_u64_dec z : Decision (is_u64 z).
Proof. unfold is_u64. apply _. Defined.
#[global] Instance is_i64_dec z : Decision (is_i64 z).
Proof. unfold is_i64. apply _. Defined.

Lemma wrap_u64_small z : is_u64 z -> wrap_u64 z = z.
Proof. intros. by apply Z.mod_small. Qed.

Lemma wrap_u64_range z : is_u64 (wrap_u64 z).
Proof. apply Z.mod_pos_bound. reflexivity. Qed.

Lemma wrap_i64_small z : is_i64 z -> wrap_i64 z = z.
Proof.
  unfold is_i64, wrap_i64, two63, two64. intros ?.
  rewrite Z.mod_small; lia.
Qed.

Lemma wrap_i64_range z : is_i64 (wrap_i64 z).
Proof.
  unfold is_i64, wrap_i64. pose proof (Z.mod_pos_bound (z + two63) two64 eq_refl).
  unfold two63, two64 in *. lia.
Qed.

Lemma wrap_i32_small z : - two31 <= z < two31 -> wrap_i32 z = z.
Proof. unfold wrap_i32, two31, two32. intros. rewrite Z.mod_small; lia. Qed.

(** ** Bytes *)
Abbreviation byte := Byte.byte.
Abbreviation bytes := (list Byte.byte).

#[global] Instance byte_eq_dec : EqDecision byte := Byte.byte_eq_dec.

Definition string_bytes (s : string) : bytes := String.list_byte_of_string s.
Definition bytes_string (b : bytes) : string := String.string_of_list_byte b.

Lemma bytes_string_bytes s : bytes_string (string_bytes s) = s.
Proof. apply String.string_of_list_byte_of_string. Qed.

Lemma string_bytes_string b : string_bytes (bytes_string b) = b.
Proof. apply String.list_byte_of_string_of_list_byte. Qed.

Lemma length_string_bytes s : length (string_bytes s) = String.length s.
Proof. induction s as [|c s IH]; [done|]. cbn. by f_equal. Qed.

(** ** Strings: what the source uses of Go's [strings] and [strconv] *)

(** [strings.HasPrefix] *)
Definition HasPrefix (s pre : string) : bool := String.prefix pre s.

(** [strings.Contains] *)
Fixpoint Contains (s sub : string) : bool :=
  String.prefix sub s ||
  match s with
  | EmptyString => false
  | String _ s' => Contains s' sub
  end.

(** [strings.Split] with a separator of one character: the pieces of [s], in
    order, never the empty list. *)
Fixpoint Split (s : string) (sep : ascii) : list string :=
  match s with
  | EmptyString => [""]
  | String c s' =>
      if Ascii.eqb c sep then "" :: Split s' sep
      else match Split s' sep with
           | p :: ps => String c p :: ps
           | [] => [String c ""]
           end
  end.

Definition digit (d : Z) : ascii := ascii_of_N (48 + Z.to_N d).

Definition digit_value (c : ascii) : option Z :=
  let n := Z.of_N (N_of_ascii c) in
  if (48 <=? n) && (n <=? 57) then Some (n - 48) else None.

Fixpoint format_go (fuel : nat) (n : Z) (acc : string) : string :=
  match fuel with
  | O => acc
  | S f =>
      if n <? 10 then String (digit n) acc
      else format_go f (n / 10) (String (digit (n mod 10)) acc)
  end.

(** [fmt.Sprintf("%d", n)]: [1 + log2 |n|] steps are enough, because each one
    divides the number by ten. *)
Definition format_d (n : Z) : string :=
  if n <? 0 then String "-" (format_go (S (Z.to_nat (Z.log2 (- n)))) (- n) "")
  else format_go (S (Z.to_nat (Z.log2 n))) n "".

(** [strconv.ParseUint(s, 10, 64)]: digits only, at least one, and a value that
    fits in 64 bits. *)
Fixpoint parse_digits (s : string) (acc : Z) : option Z :=
  match s with
  | EmptyString => Some acc
  | String c s' =>
      match digit_value c with
      | Some d =>
          let acc' := acc * 10 + d in
          if acc' <? two64 then parse_digits s' acc' else None
      | None => None
      end
  end.

Definition ParseUint (s : string) : option Z :=
  match s with EmptyString => None | _ => parse_digits s 0 end.

Lemma digit_value_digit d : 0 <= d < 10 -> digit_value (digit d) = Some d.
Proof.
  intros Hd.
  assert (d = 0 \/ d = 1 \/ d = 2 \/ d = 3 \/ d = 4 \/ d = 5 \/ d = 6 \/
          d = 7 \/ d = 8 \/ d = 9) as H by lia.
  repeat (destruct H as [->|H]; [reflexivity|]). by subst d.
Qed.

Lemma parse_format_go fuel n acc :
  is_u64 n -> n < 2 ^ Z.of_nat fuel -> (0 < fuel)%nat ->
  parse_digits (format_go fuel n acc) 0 = parse_digits acc n.
Proof.
  revert n acc. induction fuel as [|f IH]; intros n acc Hn Hf Hpos; [lia|].
  cbn [format_go]. destruct (Z.ltb_spec n 10).
  - cbn [parse_digits]. rewrite digit_value_digit by (unfold is_u64 in Hn; lia).
    rewrite Z.mul_0_l, Z.add_0_l. cbn zeta. rewrite (proj2 (Z.ltb_lt _ _) (proj2 Hn)). done.
  - assert (n / 10 <= n) by (apply Z.div_le_upper_bound; lia).
    assert (0 <= n / 10) by (apply Z.div_pos; lia).
    assert (f <> O) by (intros ->; change (2 ^ Z.of_nat 1) with 2 in Hf; lia).
    rewrite Nat2Z.inj_succ, Z.pow_succ_r in Hf by lia.
    rewrite IH; [|unfold is_u64 in *; lia| |lia].
    2: { apply Z.div_lt_upper_bound; lia. }
    cbn [parse_digits].
    rewrite digit_value_digit by (apply Z.mod_pos_bound; lia).
    replace (n / 10 * 10 + n mod 10) with n
      by (rewrite (Z.div_mod n 10) at 1 by lia; lia).
    cbn zeta. rewrite (proj2 (Z.ltb_lt _ _) (proj2 Hn)). done.
Qed.

Lemma log2_fuel n : 0 <= n -> n < 2 ^ Z.of_nat (S (Z.to_nat (Z.log2 n))).
Proof.
  intros Hn. rewrite Nat2Z.inj_succ, Z2Nat.id by apply Z.log2_nonneg.
  destruct (decide (n = 0)) as [->|]; [reflexivity|].
  apply Z.log2_spec. lia.
Qed.

Lemma format_go_nonempty fuel n acc :
  acc <> "" \/ (0 < fuel)%nat -> format_go fuel n acc <> "".
Proof.
  revert n acc. induction fuel as [|f IH]; intros n acc H; cbn.
  - destruct H; [done|lia].
  - destruct (n <? 10); [done|]. apply IH. by left.
Qed.

(** Printing a 64-bit number and parsing it back. *)
Lemma ParseUint_format_d n : is_u64 n -> ParseUint (format_d n) = Some n.
Proof.
  intros Hn. unfold format_d.
  destruct (Z.ltb_spec n 0); [unfold is_u64 in Hn; lia|].
  unfold ParseUint.
  destruct (format_go _ n "") eqn:E; [by eapply format_go_nonempty in E; [|right; lia]|].
  rewrite <-E, parse_format_go; [done|done|apply log2_fuel; lia|lia].
Qed.

(** The characters of a printed number are digits. *)
Fixpoint all_chars (P : ascii -> bool) (s : string) : bool :=
  match s with
  | EmptyString => true
  | String c s' => P c && all_chars P s'
  end.

Lemma all_chars_app P s t : all_chars P (s +:+ t) = all_chars P s && all_chars P t.
Proof. induction s as [|c s IH]; [done|]. cbn. by rewrite <-andb_assoc, <-IH. Qed.

Lemma format_go_digits P fuel n acc :
  0 <= n -> (forall d, 0 <= d < 10 -> P (digit d) = true) ->
  all_chars P acc = true -> all_chars P (format_go fuel n acc) = true.
Proof.
  intros Hn HP. revert n acc Hn. induction fuel as [|f IH]; intros n acc Hn Hacc; [done|].
  cbn. destruct (Z.ltb_spec n 10).
  - cbn. rewrite HP by lia. done.
  - apply IH; [apply Z.div_pos; lia|]. cbn.
    rewrite HP by (apply Z.mod_pos_bound; lia). done.
Qed.

Lemma format_d_digits P n :
  0 <= n -> (forall d, 0 <= d < 10 -> P (digit d) = true) ->
  all_chars P (format_d n) = true.
Proof.
  intros Hn HP. unfold format_d. destruct (Z.ltb_spec n 0); [lia|].
  by apply format_go_digits.
Qed.

(** A printed number is free of every character that is not a digit. *)
Lemma free_of_format_d sep n :
  0 <= n -> digit_value sep = None ->
  all_chars (fun c => negb (Ascii.eqb c sep)) (format_d n) = true.
Proof.
  intros Hn Hsep. apply format_d_digits; [done|]. intros d Hd.
  destruct (Ascii.eqb_spec (digit d) sep) as [<-|]; [|done].
  by rewrite digit_value_digit in Hsep.
Qed.

(** A printed number of either sign is free of every other character. *)
Lemma free_of_format sep n :
  digit_value sep = None -> sep <> "-"%char ->
  all_chars (fun c => negb (Ascii.eqb c sep)) (format_d n) = true.
Proof.
  intros Hd Hs. destruct (Z.ltb_spec n 0) as [Hn|Hn]; [|by apply free_of_format_d].
  unfold format_d. rewrite (proj2 (Z.ltb_lt n 0) Hn). cbn [all_chars].
  apply andb_true_intro. split.
  - apply negb_true_iff, Ascii.eqb_neq. congruence.
  - apply format_go_digits; [lia| |done]. intros d Hr.
    destruct (Ascii.eqb_spec (digit d) sep) as [<-|]; [|done].
    by rewrite digit_value_digit in Hd.
Qed.

Lemma format_d_inj n m : is_u64 n -> is_u64 m -> format_d n = format_d m -> n = m.
Proof.
  intros Hn Hm E. apply (f_equal ParseUint) in E.
  rewrite !ParseUint_format_d in E by done. congruence.
Qed.

Definition free_of (sep : ascii) (s : string) : bool :=
  all_chars (fun c => negb (Ascii.eqb c sep)) s.

(** Append, one character at a time. *)
Lemma str_app_nil s : "" +:+ s = s.
Proof. reflexivity. Qed.
Lemma str_app_cons c s t : String c s +:+ t = String c (s +:+ t).
Proof. reflexivity. Qed.
Lemma str_app_assoc s t u : (s +:+ t) +:+ u = s +:+ (t +:+ u).
Proof. induction s as [|c s IH]; [done|]. by rewrite !str_app_cons, IH. Qed.
Lemma str_app_nil_r s : s +:+ "" = s.
Proof. induction s as [|c s IH]; [done|]. by rewrite str_app_cons, IH. Qed.
Lemma str_length_app s t : String.length (s +:+ t) = (String.length s + String.length t)%nat.
Proof. induction s as [|c s IH]; [done|]. rewrite str_app_cons. cbn. by rewrite IH. Qed.
Create Rewrite HintDb str.
#[export] Hint Rewrite str_app_nil str_app_cons : str.

(** Two texts that share the head [String sep _] after separator-free prefixes. *)
Lemma free_of_app_inj sep s s' t t' :
  free_of sep s = true -> free_of sep s' = true ->
  s +:+ String sep t = s' +:+ String sep t' -> s = s' /\ t = t'.
Proof.
  unfold free_of. revert s'. induction s as [|c s IH]; intros [|c' s'];
    autorewrite with str; cbn [all_chars]; intros Hs Hs' E; simplify_eq.
  - done.
  - by rewrite Ascii.eqb_refl in Hs'.
  - by rewrite Ascii.eqb_refl in Hs.
  - apply andb_prop in Hs as [_ Hs], Hs' as [_ Hs'].
    by destruct (IH s') as [-> ->].
Qed.

Lemma prefix_app s t : String.prefix s (s +:+ t) = true.
Proof.
  induction s as [|c s IH]; [by destruct t|]. autorewrite with str. cbn.
  destruct (ascii_dec c c); [exact IH|done].
Qed.

Lemma Contains_app s sub t : Contains (s +:+ sub +:+ t) sub = true.
Proof.
  induction s as [|c s IH]; autorewrite with str.
  - destruct (sub +:+ t) eqn:E; cbn [Contains]; rewrite <-E, prefix_app; done.
  - cbn [Contains]. rewrite IH. apply orb_true_r.
Qed.

(** A string without the separator is one piece, and it can be split off. *)
Lemma Split_free s sep : free_of sep s = true -> Split s sep = [s].
Proof.
  unfold free_of. induction s as [|c s IH]; [done|]. cbn. intros [Hc Hs]%andb_prop.
  apply negb_true_iff in Hc. rewrite Hc, IH by done. done.
Qed.

Lemma Split_app s t sep :
  free_of sep s = true -> Split (s +:+ String sep t) sep = s :: Split t sep.
Proof.
  unfold free_of. induction s as [|c s IH].
  - intros _. change ("" +:+ String sep t) with (String sep t). cbn.
    by rewrite Ascii.eqb_refl.
  - cbn [all_chars]. intros [Hc Hs]%andb_prop. apply negb_true_iff in Hc.
    change (String c s +:+ String sep t) with (String c (s +:+ String sep t)).
    cbn [Split]. rewrite Hc, IH by done. done.
Qed.

(** ** Lists *)

(** [index.Alls = append(index.Alls[:i], index.Alls[i+1:]...)] for the first
    element that satisfies [f]. *)
Fixpoint remove_first {A} (f : A -> bool) (l : list A) : list A :=
  match l with
  | [] => []
  | x :: l' => if f x then l' else x :: remove_first f l'
  end.

Lemma remove_first_sublist {A} (f : A -> bool) l : remove_first f l `sublist_of` l.
Proof.
  induction l as [|x l IH]; cbn; [done|].
  destruct (f x); [by apply sublist_cons|by apply sublist_skip].
Qed.

Lemma remove_first_length {A} (f : A -> bool) l : (length (remove_first f l) <= length l)%nat.
Proof. apply sublist_length, remove_first_sublist. Qed.

Lemma remove_first_Forall {A} (f : A -> bool) (P : A -> Prop) l :
  Forall P l -> Forall P (remove_first f l).
Proof.
  rewrite !Forall_forall. intros H x Hx. apply H.
  eapply elem_of_sublist; [done|apply remove_first_sublist].
Qed.

Lemma remove_first_NoDup {A} (f : A -> bool) l : NoDup l -> NoDup (remove_first f l).
Proof. intros H. eapply sublist_NoDup; [done|apply remove_first_sublist]. Qed.

Lemma elem_of_remove_first_ne {A} (f : A -> bool) l x :
  f x = false -> x ∈ remove_first f l <-> x ∈ l.
Proof.
  intros Hx. induction l as [|y l IH]; cbn; [done|].
  destruct (f y) eqn:Hy; rewrite !elem_of_cons; [|by rewrite IH].
  split; [by right|]. intros [->|?]; [congruence|done].
Qed.

Lemma not_elem_of_remove_first {A} (f : A -> bool) l x :
  NoDup l -> (forall y, f y = true <-> y = x) -> x ∉ remove_first f l.
Proof.
  intros Hnd Hf. induction Hnd as [|y l Hy Hnd IH]; cbn; [apply not_elem_of_nil|].
  destruct (f y) eqn:E.
  - apply Hf in E. by subst.
  - rewrite elem_of_cons. intros [->|?]; [|done].
    assert (f y = true) by by apply Hf. congruence.
Qed.

(** ** Errors

    The errors the source registers with the cosmos error registry
    ([types/errors.go]) are values of [regerr]; [types.Wrap] and [types.Wrapf]
    attach a cause or a formatted text; [xerrors.Errorf] with a [%w] verb is
    [EWrapText]; everything else is a text. *)
Record regerr := RegErr { re_module : string; re_code : Z; re_desc : string }.

Inductive error :=
| EText (s : string)
| EReg (r : regerr)
| EWrap (r : regerr) (cause : error)
| EWrapNil (r : regerr)
| EWrapf (r : regerr) (info : string)
| EWrapText (s : string) (cause : error).

#[global] Instance regerr_eq_dec : EqDecision regerr.
Proof. solve_decision. Defined.

(** The text [err.Error()] of an error is composed by the error library; the
    code only stores it, prints it and searches in it. *)
Class ErrorText := { Error : error -> string }.

(** ** Effects

    A Go function that reads and writes a state [S] and returns [(A, error)] is
    a state passing computation whose outcome is a value, an error, a run-time
    panic (a nil dereference, an index out of range), or, for a loop that was
    given a bounded number of iterations, running out of that bound. *)
Inductive outcome (A : Type) :=
| Ret (a : A)
| Fail (e : error)
| Panic
| OutOfFuel.
Arguments Ret {A} a.
Arguments Fail {A} e.
Arguments Panic {A}.
Arguments OutOfFuel {A}.

Definition GoM (S A : Type) : Type := S -> outcome A * S.

Definition ret {S A} (a : A) : GoM S A := fun s => (Ret a, s).
Definition bind {S A B} (m : GoM S A) (k : A -> GoM S B) : GoM S B := fun s =>
  match m s with
  | (Ret a, s') => k a s'
  | (Fail e, s') => (Fail e, s')
  | (Panic, s') => (Panic, s')
  | (OutOfFuel, s') => (OutOfFuel, s')
  end.

Notation "x <- m ;; k" := (bind m (fun x => k))
  (at level 100, m at next level, right associativity) : go_scope.
Notation "m ;; k" := (bind m (fun _ => k))
  (at level 100, k at level 200, right associativity) : go_scope.
#[global] Open Scope go_scope.

Section Effects.
Context {S : Type}.

Definition fail {A} (e : error) : GoM S A := fun s => (Fail e, s).
Definition panic {A} : GoM S A := fun s => (Panic, s).
Definition out_of_fuel {A} : GoM S A := fun s => (OutOfFuel, s).
Definition gets {A} (f : S -> A) : GoM S A := fun s => (Ret (f s), s).
Definition modify (f : S -> S) : GoM S unit := fun s => (Ret tt, f s).

(** [v, err := f()] when the error is looked at instead of returned. *)
Definition attempt {A} (m : GoM S A) : GoM S (A + error) := fun s =>
  match m s with
  | (Ret a, s') => (Ret (inl a), s')
  | (Fail e, s') => (Ret (inr e), s')
  | (Panic, s') => (Panic, s')
  | (OutOfFuel, s') => (OutOfFuel, s')
  end.

(** [v, err := f(); if err != nil { handler }; rest]: the handler and the rest
    both end the function. *)
Definition or_else {A B} (m : GoM S A) (h : error -> GoM S B) (k : A -> GoM S B) : GoM S B :=
  r <- attempt m ;; match r with inl a => k a | inr e => h e end.

(** [_ = f()] and [err := f(); if err != nil { log }]: the error is dropped. *)
Definition ignore {A} (m : GoM S A) : GoM S unit := attempt m ;; ret tt.

(** A result computed by pure code, with or without an error. *)
Definition lift {A} (r : A + error) : GoM S A :=
  match r with inl a => ret a | inr e => fail e end.

(** A dereference of a pointer that may be nil. *)
Definition deref {A} (p : option A) : GoM S A :=
  match p with Some a => ret a | None => panic end.

(** [for _, x := range l { body }] *)
Fixpoint for_each {A} (l : list A) (body : A -> GoM S unit) : GoM S unit :=
  match l with
  | [] => ret tt
  | x :: l' => body x ;; for_each l' body
  end.
End Effects.

Notation "'try' x <- m 'catch' e => h ;; k" := (or_else m (fun e => h) (fun x => k))
  (at level 100, x name, m at next level, e name, h at next level, right associativity) : go_scope.

(** Running a computation on a part of the state. *)
Definition zoom {S T A} (get : S -> T) (set : T -> S -> S) (m : GoM T A) : GoM S A :=
  fun s => let '(r, t) := m (get s) in (r, set t s).

Lemma zoom_ret {S T A} (get : S -> T) set (m : GoM T A) s a s' :
  zoom get set m s = (Ret a, s') -> exists t', m (get s) = (Ret a, t').
Proof. unfold zoom. destruct (m (get s)) as [o t]. intros [= -> _]. eauto. Qed.

(** Two continuations that agree on every value. *)
Lemma bind_ext {S A B} (m : GoM S A) (k k' : A -> GoM S B) s :
  (forall a s', k a s' = k' a s') -> bind m k s = bind m k' s.
Proof. intros Hk. unfold bind. destruct (m s) as [[] ?]; auto. Qed.

Lemma filter_true {A} (l : list A) : List.filter (fun _ => true) l = l.
Proof. induction l as [|x l IH]; [done|]. cbn. by rewrite IH. Qed.

Lemma bind_cong {S A B} (m m' : GoM S A) (k k' : A -> GoM S B) s :
  m s = m' s -> (forall a s', k a s' = k' a s') -> bind m k s = bind m' k' s.
Proof. intros Hm Hk. unfold bind. rewrite Hm. destruct (m' s) as [[] ?]; auto. Qed.

Lemma or_else_ext {S A B} (m : GoM S A) h h' (k k' : A -> GoM S B) s :
  (forall e s', h e s' = h' e s') -> (forall a s', k a s' = k' a s') ->
  or_else m h k s = or_else m h' k' s.
Proof. intros Hh Hk. apply bind_ext. intros [] s'; auto. Qed.

(** *** Runs and their inversion *)
Section Runs.
Context {S : Type}.
Implicit Types s : S.

Lemma bind_run {A B} (m : GoM S A) (k : A -> GoM S B) s a s' :
  m s = (Ret a, s') -> (bind m k) s = k a s'.
Proof. intros H. unfold bind. by rewrite H. Qed.

Lemma or_else_run {A B} (m : GoM S A) h (k : A -> GoM S B) s a s' :
  m s = (Ret a, s') -> (or_else m h k) s = k a s'.
Proof. intros H. unfold or_else, bind, attempt. by rewrite H. Qed.

Lemma bind_Ret_inv {A B} (m : GoM S A) (k : A -> GoM S B) s b s' :
  (bind m k) s = (Ret b, s') -> exists a s1, m s = (Ret a, s1) /\ k a s1 = (Ret b, s').
Proof. unfold bind. destruct (m s) as [[] ?]; naive_solver. Qed.

(** [steps R m]: every run of [m], however it ends, moves the state along [R]. *)
Definition steps (R : S -> S -> Prop) {A} (m : GoM S A) : Prop :=
  forall s, R s (m s).2.

Lemma steps_run (R : S -> S -> Prop) {A} (m : GoM S A) s o s' :
  m s = (o, s') -> steps R m -> R s s'.
Proof. intros E Hm. specialize (Hm s). by rewrite E in Hm. Qed.

Section Steps.
Context (R : S -> S -> Prop) `{!PreOrder R}.

Lemma steps_ret {A} (a : A) : steps R (ret a).
Proof. intros s. cbn. reflexivity. Qed.
Lemma steps_fail {A} e : steps R (fail (A:=A) e).
Proof. intros s. cbn. reflexivity. Qed.
Lemma steps_panic {A} : steps R (panic (A:=A)).
Proof. intros s. cbn. reflexivity. Qed.
Lemma steps_out_of_fuel {A} : steps R (out_of_fuel (A:=A)).
Proof. intros s. cbn. reflexivity. Qed.
Lemma steps_gets {A} (f : S -> A) : steps R (gets f).
Proof. intros s. cbn. reflexivity. Qed.
Lemma steps_lift {A} (r : A + error) : steps R (lift r).
Proof. intros s. destruct r; cbn; reflexivity. Qed.
Lemma steps_deref {A} (p : option A) : steps R (deref p).
Proof. intros s. destruct p; cbn; reflexivity. Qed.
Lemma steps_modify f : (forall s, R s (f s)) -> steps R (modify f).
Proof. intros H s. cbn. apply H. Qed.
Lemma steps_bind {A B} (m : GoM S A) (k : A -> GoM S B) :
  steps R m -> (forall a, steps R (k a)) -> steps R (bind m k).
Proof.
  intros Hm Hk s. unfold bind. specialize (Hm s).
  destruct (m s) as [[a|e| |] s1]; cbn in *; [|done..].
  etrans; [done|apply Hk].
Qed.
Lemma steps_bind_lift {A B} (r : A + error) (k : A -> GoM S B) :
  (forall a, r = inl a -> steps R (k a)) -> steps R (bind (lift r) k).
Proof. intros H s. destruct r as [a|e]; cbn; [by apply H|reflexivity]. Qed.
Lemma steps_bind_deref {A B} (r : option A) (k : A -> GoM S B) :
  (forall a, r = Some a -> steps R (k a)) -> steps R (bind (deref r) k).
Proof. intros H s. destruct r as [a|]; cbn; [by apply H|reflexivity]. Qed.
Lemma steps_attempt {A} (m : GoM S A) : steps R m -> steps R (attempt m).
Proof. intros Hm s. specialize (Hm s). unfold attempt. by destruct (m s) as [[] ?]. Qed.
Lemma steps_ignore {A} (m : GoM S A) : steps R m -> steps R (ignore m).
Proof. intros Hm. apply steps_bind; [by apply steps_attempt|]. intros. apply steps_ret. Qed.
Lemma steps_or_else {A B} (m : GoM S A) h (k : A -> GoM S B) :
  steps R m -> (forall e, steps R (h e)) -> (forall a, steps R (k a)) ->
  steps R (or_else m h k).
Proof.
  intros Hm Hh Hk. apply steps_bind; [by apply steps_attempt|]. intros []; auto.
Qed.
Lemma steps_for_each {A} (l : list A) body :
  (forall x, x ∈ l -> steps R (body x)) -> steps R (for_each l body).
Proof.
  induction l as [|x l IH]; intros H; [apply steps_ret|].
  apply steps_bind; [apply H; by left|]. intros _. apply IH. intros y Hy. apply H. by right.
Qed.
End Steps.
End Runs.

Lemma steps_zoom {S T A} (R : S -> S -> Prop) (get : S -> T) set (m : GoM T A) :
  (forall s, R s (set (m (get s)).2 s)) -> steps R (zoom get set m).
Proof. intros H s. specialize (H s). unfold zoom. by destruct (m (get s)). Qed.

(** *** Absence of panics

    [safe m]: [m] returns a value or an error from every state. *)
Definition safe {S A} (m : GoM S A) : Prop :=
  forall s, match (m s).1 with Ret _ | Fail _ => True | _ => False end.

Section Safe.
Context {S : Type}.

Lemma safe_ret {A} (a : A) : safe (S:=S) (ret a).
Proof. by intros s. Qed.
Lemma safe_fail {A} e : safe (S:=S) (fail (A:=A) e).
Proof. by intros s. Qed.
Lemma safe_gets {A} (f : S -> A) : safe (gets f).
Proof. by intros s. Qed.
Lemma safe_modify (f : S -> S) : safe (modify f).
Proof. by intros s. Qed.
Lemma safe_lift {A} (r : A + error) : safe (S:=S) (lift r).
Proof. by destruct r. Qed.
Lemma safe_bind {A B} (m : GoM S A) (k : A -> GoM S B) :
  safe m -> (forall a, safe (k a)) -> safe (bind m k).
Proof.
  intros Hm Hk s. specialize (Hm s). unfold bind. destruct (m s) as [[a|e| |] s1]; try done.
  apply Hk.
Qed.
Lemma safe_attempt {A} (m : GoM S A) : safe m -> safe (attempt m).
Proof. intros Hm s. specialize (Hm s). unfold attempt. by destruct (m s) as [[] ?]. Qed.
Lemma safe_ignore {A} (m : GoM S A) : safe m -> safe (ignore m).
Proof. intros Hm. apply safe_bind; [by apply safe_attempt|]. intros. apply safe_ret. Qed.
Lemma safe_or_else {A B} (m : GoM S A) h (k : A -> GoM S B) :
  safe m -> (forall e, safe (h e)) -> (forall a, safe (k a)) -> safe (or_else m h k).
Proof. intros Hm Hh Hk. apply safe_bind; [by apply safe_attempt|]. intros []; auto. Qed.
Lemma safe_for_each {A} (l : list A) (body : A -> GoM S unit) :
  (forall x, safe (body x)) -> safe (for_each l body).
Proof. intros Hb. induction l; [apply safe_ret|]. apply safe_bind; auto. Qed.
Lemma safe_attempt_ret {A} (m : GoM S A) s :
  safe m -> exists r s', attempt m s = (Ret r, s') /\ s' = (m s).2.
Proof. intros Hm. specialize (Hm s). unfold attempt. destruct (m s) as [[a|e| |] s1]; naive_solver. Qed.
Lemma safe_ignore_ret {A} (m : GoM S A) s : safe m -> ignore m s = (Ret tt, (m s).2).
Proof.
  intros Hm. unfold ignore, bind. destruct (safe_attempt_ret m s Hm) as (r & s' & -> & ->). done.
Qed.
End Safe.

Lemma safe_zoom {S T A} (get : S -> T) set (m : GoM T A) : safe m -> safe (zoom get set m).
Proof. intros Hm s. specialize (Hm (get s)). unfold zoom. by destruct (m (get s)). Qed.

(** *** Weakest preconditions

    [wp m s Q]: the run of [m] from [s] ends in an outcome and a state that
    satisfy [Q].  Computations are total functions, so this is total
    correctness. *)
Definition wp {S A} (m : GoM S A) (s : S) (Q : outcome A -> S -> Prop) : Prop :=
  Q (m s).1 (m s).2.

Section Wp.
Context {S : Type}.

Lemma wp_mono {A} (m : GoM S A) s (Q Q' : outcome A -> S -> Prop) :
  wp m s Q -> (forall o s', Q o s' -> Q' o s') -> wp m s Q'.
Proof. unfold wp. auto. Qed.

Lemma wp_ret {A} (a : A) s (Q : outcome A -> S -> Prop) : Q (Ret a) s -> wp (ret a) s Q.
Proof. done. Qed.

Lemma wp_fail {A} e s (Q : outcome A -> S -> Prop) : Q (Fail e) s -> wp (fail e) s Q.
Proof. done. Qed.

Lemma wp_bind {A B} (m : GoM S A) (k : A -> GoM S B) s (Q : outcome B -> S -> Prop) :
  wp m s (fun o s1 => match o with
                      | Ret a => wp (k a) s1 Q
                      | Fail e => Q (Fail e) s1
                      | Panic => Q Panic s1
                      | OutOfFuel => Q OutOfFuel s1
                      end) -> wp (bind m k) s Q.
Proof. unfold wp, bind. by destruct (m s) as [[] ?]. Qed.

Lemma wp_steps {A} (R : S -> S -> Prop) (m : GoM S A) s (Q : outcome A -> S -> Prop) :
  steps R m -> (forall o s', m s = (o, s') -> R s s' -> Q o s') -> wp m s Q.
Proof.
  intros Hm HQ. specialize (Hm s). unfold wp. destruct (m s) as [o s'] eqn:E. by apply HQ.
Qed.

Lemma wp_or_else {A B} (m : GoM S A) h (k : A -> GoM S B) s (Q : outcome B -> S -> Prop) :
  wp m s (fun o s1 => match o with
                      | Ret a => wp (k a) s1 Q
                      | Fail e => wp (h e) s1 Q
                      | Panic => Q Panic s1
                      | OutOfFuel => Q OutOfFuel s1
                      end) -> wp (or_else m h k) s Q.
Proof. unfold wp, or_else, bind, attempt. by destruct (m s) as [[] ?]. Qed.

Lemma wp_attempt {A} (m : GoM S A) s (Q : outcome (A + error) -> S -> Prop) :
  wp m s (fun o s1 => match o with
                      | Ret a => Q (Ret (inl a)) s1
                      | Fail e => Q (Ret (inr e)) s1
                      | Panic => Q Panic s1
                      | OutOfFuel => Q OutOfFuel s1
                      end) -> wp (attempt m) s Q.
Proof. unfold wp, attempt. by destruct (m s) as [[] ?]. Qed.
End Wp.

Lemma wp_bind_assoc {T A B C} (c : GoM T A) (f : A -> GoM T B) (g : B -> GoM T C) s Q :
  wp (a <- c ;; b <- f a ;; g b) s Q -> wp (b <- (a <- c ;; f a) ;; g b) s Q.
Proof. unfold wp, bind. by destruct (c s) as [[] ?]. Qed.
Lemma wp_both {S A} (m : GoM S A) s (P Q : outcome A -> S -> Prop) :
  wp m s P -> wp m s Q -> wp m s (fun o s' => P o s' /\ Q o s').
Proof. by split. Qed.

Lemma wp_zoom {S T A} (get : S -> T) set (m : GoM T A) s (Q : outcome A -> S -> Prop) :
  wp m (get s) (fun o t => Q o (set t s)) -> wp (zoom get set m) s Q.
Proof. unfold wp, zoom. by destruct (m (get s)). Qed.

(** *** What a value that is returned is like *)
Definition yields {S A} (m : GoM S A) (s : S) (Q : A -> Prop) : Prop := match (m s).1 with Ret a => Q a | _ => True end.

Lemma yields_bind {S A B} (m : GoM S A) (k : A -> GoM S B) s (P : A -> Prop) (Q : B -> Prop) :
  yields m s P -> (forall a s', P a -> yields (k a) s' Q) -> yields (bind m k) s Q.
Proof. unfold yields, bind. intros Hm Hk. destruct (m s) as [[a|e| |] s']; [by apply Hk|done..]. Qed.
Lemma yields_skip {S A B} (m : GoM S A) (k : A -> GoM S B) s (Q : B -> Prop) :
  (forall a s', yields (k a) s' Q) -> yields (bind m k) s Q.
Proof. unfold yields, bind. intros Hk. destruct (m s) as [[a|e| |] s']; [by apply Hk|done..]. Qed.
Lemma yields_ret {S A} (a : A) (s : S) (Q : A -> Prop) : Q a -> yields (ret a) s Q.
Proof. done. Qed.
Lemma yields_zoom {S T A} (get : S -> T) set (m : GoM T A) s (Q : A -> Prop) : yields m (get s) Q -> yields (zoom get set m) s Q.
Proof. unfold yields, zoom. by destruct (m (get s)) as [[] ?]. Qed.
Lemma yields_or_else {S A B} (m : GoM S A) h (k : A -> GoM S B) s (Q : B -> Prop) :
  (forall e s', yields (h e) s' Q) -> (forall a s', yields (k a) s' Q) -> yields (or_else m h k) s Q.
Proof. intros Hh Hk. apply yields_skip. intros [] s'; auto. Qed.
Lemma yields_impl {S A} (m : GoM S A) s (P Q : A -> Prop) : yields m s P -> (forall a, P a -> Q a) -> yields m s Q.
Proof. unfold yields. destruct (m s).1; auto. Qed.
(** The run that returned the value. *)
Lemma yields_run {S A} (m : GoM S A) s : yields m s (fun a => exists s', m s = (Ret a, s')).
Proof. unfold yields. destruct (m s) as [[] s']; [by exists s'|done..]. Qed.
Ltac skip := apply yields_skip; intros ? ?.

(** *** Triples over an invariant

    [triple I P m Q]: from a state with [I] and [P], [m] keeps [I] however it
    ends, and gives [Q] when it returns. *)
Section Triples.
Context {S : Type} (I : S -> Prop).

Definition triple {A} (P : S -> Prop) (m : GoM S A) (Q : A -> S -> Prop) : Prop :=
  forall s, I s -> P s ->
    wp m s (fun o s' => I s' /\ match o with Ret a => Q a s' | _ => True end).

Lemma triple_bind {A B} P (m : GoM S A) Q (k : A -> GoM S B) R :
  triple P m Q -> (forall a, triple (Q a) (k a) R) -> triple P (bind m k) R.
Proof.
  intros Hm Hk s HI HP. apply wp_bind. eapply wp_mono; [by apply Hm|].
  intros [a|e| |] s1 [HI1 HQ]; [by apply Hk|done..].
Qed.

Lemma triple_conseq {A} (P P' : S -> Prop) (m : GoM S A) (Q Q' : A -> S -> Prop) :
  triple P m Q -> (forall s, P' s -> P s) -> (forall a s, Q a s -> Q' a s) -> triple P' m Q'.
Proof.
  intros Hm HP HQ s HI HP'. eapply wp_mono; [apply Hm; auto|].
  intros [a|e| |] s1 [HI1 HQ1]; split; auto.
Qed.

Lemma triple_ret {A} P (a : A) (Q : A -> S -> Prop) : (forall s, P s -> Q a s) -> triple P (ret a) Q.
Proof. intros H s HI HP. apply wp_ret. auto. Qed.

Lemma triple_fail {A} P e (Q : A -> S -> Prop) : triple P (fail e) Q.
Proof. intros s HI HP. by apply wp_fail. Qed.

Lemma triple_panic {A} P (Q : A -> S -> Prop) : triple P panic Q.
Proof. intros s HI HP. done. Qed.

Lemma triple_gets {A} P (f : S -> A) (Q : A -> S -> Prop) :
  (forall s, I s -> P s -> Q (f s) s) -> triple P (gets f) Q.
Proof. intros H s HI HP. split; [done|]. by apply H. Qed.

Lemma triple_modify P f (Q : unit -> S -> Prop) :
  (forall s, I s -> P s -> I (f s) /\ Q tt (f s)) -> triple P (modify f) Q.
Proof. intros H s HI HP. apply H; done. Qed.

Lemma triple_lift {A} P (r : A + error) (Q : A -> S -> Prop) :
  (forall a s, r = inl a -> P s -> Q a s) -> triple P (lift r) Q.
Proof. intros H s HI HP. destruct r; split; cbn; auto. Qed.

Lemma triple_deref {A} P (r : option A) (Q : A -> S -> Prop) :
  (forall a s, r = Some a -> P s -> Q a s) -> triple P (deref r) Q.
Proof. intros H s HI HP. destruct r; split; cbn; auto. Qed.

(** An error handler runs in a state with the invariant. *)
Lemma triple_attempt {A} P (m : GoM S A) Q :
  triple P m Q -> triple P (attempt m) (fun r s => match r with inl a => Q a s | inr _ => True end).
Proof.
  intros Hm s HI HP. apply wp_attempt. eapply wp_mono; [by apply Hm|]. by intros [] ? [].
Qed.

Lemma triple_or_else {A B} P (m : GoM S A) Q h (k : A -> GoM S B) R :
  triple P m Q -> (forall e, triple (fun _ => True) (h e) R) ->
  (forall a, triple (Q a) (k a) R) -> triple P (or_else m h k) R.
Proof.
  intros Hm Hh Hk. eapply triple_bind; [by apply triple_attempt|]. intros [a|e]; [apply Hk|].
  eapply triple_conseq; [apply Hh|done|done].
Qed.

Lemma triple_steps {A} P (m : GoM S A) :
  (forall s, I s -> I (m s).2) -> triple P m (fun _ _ => True).
Proof. intros H s HI _. split; [by apply H|]. by destruct (m s).1. Qed.

Lemma triple_run {A} P (m : GoM S A) (Q : A -> Prop) :
  (forall s, I s -> I (m s).2) -> (forall s a s', m s = (Ret a, s') -> Q a) ->
  triple P m (fun a _ => Q a).
Proof.
  intros Hm HQ s HI _. split; [by apply Hm|]. destruct (m s) as [[a|e| |] s'] eqn:E; [|done..].
  by eapply HQ.
Qed.

Lemma triple_for_each {A} (l : list A) (body : A -> GoM S unit) :
  (forall x, x ∈ l -> triple (fun _ => True) (body x) (fun _ _ => True)) ->
  triple (fun _ => True) (for_each l body) (fun _ _ => True).
Proof.
  induction l as [|x l IH]; intros Hl; [by apply triple_ret|].
  eapply triple_bind; [apply Hl; left|]. intros u. apply IH. intros y Hy. apply Hl. by right.
Qed.

Lemma triple_ignore {A} P (m : GoM S A) :
  (forall s, I s -> I (m s).2) -> triple P (ignore m) (fun _ _ => True).
Proof.
  intros H. eapply triple_bind; [apply triple_attempt, triple_steps, H|]. intros.
  by apply triple_ret.
Qed.

Lemma triple_if {A} P (b : bool) (m1 m2 : GoM S A) Q :
  triple (fun s => P s /\ b = true) m1 Q -> triple (fun s => P s /\ b = false) m2 Q ->
  triple P (if b then m1 else m2) Q.
Proof. intros H1 H2 s HI HP. destruct b; auto. Qed.

Lemma triple_keeps {A} P (m : GoM S A) Q : triple P m Q -> forall s, I s -> P s -> I (m s).2.
Proof. intros H s HI HP. by apply H. Qed.
End Triples.

(** The invariant reading of [steps]. *)
Definition keeps {S} (I : S -> Prop) (s s' : S) : Prop := I s -> I s'.
#[global] Instance keeps_preorder {S} (I : S -> Prop) : PreOrder (keeps I).
Proof. split; unfold keeps; [intros s|intros s1 s2 s3]; auto. Qed.

(** A field of the state that a computation leaves alone. *)
Definition same {S T} (f : S -> T) (s s' : S) : Prop := f s' = f s.
#[global] Instance same_preorder {S T} (f : S -> T) : PreOrder (same f).
Proof. split; unfold same; [intros s|intros s1 s2 s3]; congruence. Qed.

(** ** Automation

    The database [go] composes [steps] facts along the structure of a
    computation: binds, error handling and loops; a component adds the facts of
    its own operations. *)
Create HintDb go discriminated.
#[export] Hint Resolve steps_ret steps_fail steps_panic steps_out_of_fuel steps_gets
  steps_lift steps_deref steps_attempt steps_ignore : go.
#[export] Hint Extern 5 (PreOrder _) => typeclasses eauto : go.

(** Splits a computation along its structure until each leaf is a primitive or a
    known operation. *)
Ltac go_steps :=
  repeat (intros; lazymatch goal with
    | |- steps _ (bind (lift _) _) => apply steps_bind_lift; [typeclasses eauto|intros ? ?]
    | |- steps _ (bind (deref _) _) => apply steps_bind_deref; [typeclasses eauto|intros ? ?]
    | |- steps _ (or_else _ _ _) =>
        apply steps_or_else; [typeclasses eauto| |intros ?|intros ?]
    | |- steps _ (bind _ _) => apply steps_bind; [typeclasses eauto| |intros ?]
    | |- steps _ (for_each _ _) => apply steps_for_each; [typeclasses eauto|intros ? _]
    | |- steps _ (match ?x with _ => _ end) => destruct x eqn:?
    | |- steps _ (let '_ := ?x in _) => destruct x eqn:?
    | |- steps _ (if ?b then _ else _) => destruct b eqn:?
    | |- _ => solve [eauto with go]
    end).

(** Takes a successful run [H : (x <- m ;; k x) s = (Ret b, s')] apart. *)
Ltac go_inv H :=
  let a := fresh "a" in let s1 := fresh "s" in
  let H1 := fresh "Hrun" in
  apply bind_Ret_inv in H as (a & s1 & H1 & H).

Create HintDb safe discriminated.
#[export] Hint Resolve safe_ret safe_fail safe_gets safe_modify safe_lift safe_zoom : safe.

(** Splits a computation that has no panic along its structure. *)
Ltac go_safe :=
  repeat (intros; lazymatch goal with
    | |- safe (or_else _ _ _) => apply safe_or_else; [|intros ?|intros ?]
    | |- safe (bind _ _) => apply safe_bind; [|intros ?]
    | |- safe (ignore _) => apply safe_ignore
    | |- safe (attempt _) => apply safe_attempt
    | |- safe (for_each _ _) => apply safe_for_each; intros ?
    | |- safe (zoom _ _ _) => apply safe_zoom
    | |- safe (match ?x with _ => _ end) => destruct x eqn:?
    | |- safe (let '_ := ?x in _) => destruct x eqn:?
    | |- safe (if ?b then _ else _) => destruct b eqn:?
    | |- _ => solve [eauto with safe]
    end).
