(* ===== verification/Types.v ===== *)
(** * Data of the node

    The records of [types/state.go], [types/protocol.go] and [types/types.go],
    with the fields of the source in the order of the source (a field [F] of the
    struct [OrderInfo] is [oi_F], and so on), the constants of those files, the
    registered errors the modelled code uses, and [ParseMetaCommit].

    A Go map is a [gmap]; its nil value and its empty value are the same, which
    no modelled function can tell apart.  The enumerations are [uint64] or
    [string] in Go, and are decoded from bytes, so they are [Z] and [string]
    here, with the declared constants. *)
From stdpp Require Import base list gmap strings.
From Stdlib Require Import ZArith Lia Ascii.
From S2P Require Import Prelude.

(** ** Registered errors *)
Definition ErrCreateDirFailed := RegErr "common" 10001 "failed to create the directory".
Definition ErrCreateFileFailed := RegErr "common" 10002 "failed to create the file".
Definition ErrOpenFileFailed := RegErr "common" 10003 "failed to open the file".
Definition ErrReadFileFailed := RegErr "common" 10004 "failed to read the file".
Definition ErrWriteFileFailed := RegErr "common" 10005 "failed to write the file".
Definition ErrMarshalFailed := RegErr "common" 10009 "failed to marshal payload".
Definition ErrUnMarshalFailed := RegErr "common" 10010 "failed to unmarshal payload".
Definition ErrCreateChainServiceFailed := RegErr "chain" 11000 "failed to create the chain service".
Definition ErrStopChainServiceFailed := RegErr "chain" 11001 "failed to stop the chain service".
Definition ErrAccountNotFound := RegErr "chain" 11003 "account not found, check the keyring please".
Definition ErrListAccountsFailed := RegErr "chain" 11004 "failed to list the local accounts".
Definition ErrCreateAccountFailed := RegErr "chain" 11005 "failed to create the account".
Definition ErrImportAccountFailed := RegErr "chain" 11006 "failed to import the account".
Definition ErrExportAccountFailed := RegErr "chain" 11007 "failed to export the account".
Definition ErrGetAddressFailed := RegErr "chain" 11008 "failed to get address".
Definition ErrGetBalanceFailed := RegErr "chain" 11009 "failed to get the balance".
Definition ErrSignedFailed := RegErr "chain" 11010 "failed to sign the payload".
Definition ErrTxCreateFailed := RegErr "chain" 11011 "failed to create the tx".
Definition ErrTxProcessFailed := RegErr "chain" 11012 "failed to process the tx".
Definition ErrTxQueryFailed := RegErr "chain" 11013 "failed to query the tx".
Definition ErrGetSidDocumentFailed := RegErr "chain" 11014 "failed to get the sid document".
Definition ErrQueryMetadataFailed := RegErr "chain" 11015 "failed to query the meta data".
Definition ErrQueryNodeFailed := RegErr "chain" 11016 "failed to query the node information".
Definition ErrQueryOrderFailed := RegErr "chain" 11017 "failed to query the order information".
Definition ErrCreateProviderFailed := RegErr "chain" 11020 "failed to create the provider".
Definition ErrAuthenticateFailed := RegErr "chain" 11021 "failed to authenticate".
Definition ErrCreateJwsFailed := RegErr "chain" 11023 "failed to create JWS".
Definition ErrInvalidJwt := RegErr "chain" 11025 "invalid JWT".
Definition ErrQueryHeightFailed := RegErr "chain" 11026 "failed to query the latest height".
Definition ErrInconsistentAddress := RegErr "chain" 11027 "inconsistent address".
Definition ErrGenerateMnemonicFailed := RegErr "chain" 11028 "failed to generate mnemonic".
Definition ErrQueryShardFailed := RegErr "chain" 11029 "failed to query the shard information".
Definition ErrQueryFaultFailed := RegErr "chain" 11030 "failed to query the fault".
Definition ErrQueryFaultsFailed := RegErr "chain" 11031 "failed to query the faults".
Definition ErrQueryPledgeFailed := RegErr "chain" 11032 "failed to query the pledge information".
Definition ErrQueryDidParamFailed := RegErr "chain" 11034 "failed to query the did param".
Definition ErrDecodeConfigFailed := RegErr "client" 12006 "failed to decode the configurations".
Definition ErrInvalidGateway := RegErr "client" 12009 "invalid gateway".
Definition ErrInvalidParameters := RegErr "client" 12014 "invalid parameters".
Definition ErrOpenIpfsBackendFailed := RegErr "store" 13000 "failed to open IPFS backend".
Definition ErrCreateIpfsApiServiceFailed := RegErr "store" 13001 "failed to create IPFS API service backend".
Definition ErrStoreFailed := RegErr "store" 13002 "store data failed".
Definition ErrStatFailed := RegErr "store" 13003 "stat data failed".
Definition ErrGetFailed := RegErr "store" 13004 "get data failed".
Definition ErrInvalidPath := RegErr "store" 13005 "invalid path".
Definition ErrUnSupportProtocol := RegErr "store" 13012 "unsupported ipfs connection protocol".
Definition ErrRemoveFailed := RegErr "store" 13013 "remove data failed".
Definition ErrDataMissing := RegErr "store" 13014 "cannot found the data".
Definition ErrCreatePatchFailed := RegErr "model" 14000 "failed to create the patch".
Definition ErrCalculateCidFailed := RegErr "model" 14003 "failed to calculate cid".
Definition ErrConflictName := RegErr "model" 14004 "conflict name".
Definition ErrNotFound := RegErr "model" 14005 "not found".
Definition ErrInvalidDid := RegErr "model" 14007 "invalid did".
Definition ErrInvalidSignature := RegErr "model" 14008 "invalid signature".
Definition ErrGenerateTokenFaild := RegErr "model" 14009 "failed to genrate the token".
Definition ErrGetHttpUrlFaild := RegErr "model" 14010 "failed to get the HTTP URL".
Definition ErrGetIpfsUrlFaild := RegErr "model" 14011 "failed to get the IPFS URL".
Definition ErrInvalidCommitInfo := RegErr "model" 14012 "invalid commit information".
Definition ErrInvalidCid := RegErr "model" 14013 "invalid cid".
Definition ErrInvalidAlias := RegErr "model" 14014 "invalid alias".
Definition ErrAddResourceFaild := RegErr "model" 14015 "failed to add the resource".
Definition ErrCompileFaild := RegErr "model" 14016 "failed to compile".
Definition ErrAddRuleFaild := RegErr "model" 14017 "failed to add the rule".
Definition ErrAddFactFaild := RegErr "model" 14018 "failed to add the fact".
Definition ErrRuleExcuteFaild := RegErr "model" 14019 "failed to excute the rule".
Definition ErrRuleCheckFaild := RegErr "model" 14020 "failed to pass the rule check".
Definition ErrSchemaCheckFaild := RegErr "model" 14022 "failed to pass the schema check".
Definition ErrInvalidVersion := RegErr "model" 14023 "invalid version".
Definition ErrInvalidDataId := RegErr "model" 14024 "invalid dataId".
Definition ErrConflictId := RegErr "model" 14025 "conflict dataId or alias".
Definition ErrInvalidContent := RegErr "model" 14026 "invalid content".
Definition ErrInvalidSchema := RegErr "model" 14027 "invalid schema".
Definition ErrInvalidPeerInfo := RegErr "model" 14032 "invalid peer info".
Definition ErrInvalidServerAddress := RegErr "network" 15002 "invalid transport server address".
Definition ErrConnectFailed := RegErr "network" 15004 "failed to connect".
Definition ErrCreateStreamFailed := RegErr "network" 15005 "failed to create the stream".
Definition ErrCloseStreamFailed := RegErr "network" 15006 "failed to close the stream".
Definition ErrSendRequestFailed := RegErr "network" 15007 "failed to send the request".
Definition ErrReadResponseFailed := RegErr "network" 15008 "failed to read the response".
Definition ErrFailuresResponsed := RegErr "network" 15009 "received failed response".
Definition ErrInvalidRepoPath := RegErr "common" 10000 "invalid repo path".
Definition ErrCloseFileFailed := RegErr "common" 10006 "failed to close the file".
Definition ErrInitRepoFailed := RegErr "common" 10007 "failed to initialize the repo".
Definition ErrInvalidBinaryName := RegErr "common" 10008 "invalid binary name".
Definition ErrUnSupport := RegErr "common" 10011 "not implemented yet".
Definition ErrCreateAccountRegistryFailed := RegErr "chain" 11002 "failed to create the account registry".
Definition ErrInvalidSecrect := RegErr "chain" 11018 "invalid secrect".
Definition ErrInvalidPassphrase := RegErr "chain" 11019 "invalid passphrase".
Definition ErrInvalidChainAddress := RegErr "chain" 11022 "invalid chain address".
Definition ErrMarshalJwsFailed := RegErr "chain" 11024 "failed to marshal JWS".
Definition ErrInvalidValidator := RegErr "chain" 11033 "invalid validator".
Definition ErrInvalidConfig := RegErr "client" 12004 "invalid configurations".
Definition ErrEncodeConfigFailed := RegErr "client" 12005 "failed to encode the configurations".
Definition ErrWriteConfigFailed := RegErr "client" 12007 "failed to write the configurations into file".
Definition ErrReadConfigFailed := RegErr "client" 12008 "failed to read the configurations into file".
Definition ErrInvalidToken := RegErr "client" 12010 "invalid token".
Definition ErrCreateApiServiceFailed := RegErr "client" 12011 "failed to create API service".
Definition ErrGenerateDocFailed := RegErr "client" 12012 "failed to generate the documents".
Definition ErrOpenDataStoreFailed := RegErr "client" 12013 "failed to open the data store".
Definition ErrCreateClientFailed := RegErr "client" 12015 "failed to create client".
Definition ErrLoadPluginsFailed := RegErr "store" 13006 "failed to load plugins".
Definition ErrInitPluginsFailed := RegErr "store" 13007 "failed to initializ plugins".
Definition ErrInjectPluginsFailed := RegErr "store" 13008 "failed to inject plugins".
Definition ErrInitIpfsDaemonFailed := RegErr "store" 13009 "failed to initializ IPFS daemon".
Definition ErrInitIpfsRepoFailed := RegErr "store" 13010 "failed to initializ IPFS repo".
Definition ErrOpenRepoFailed := RegErr "store" 13011 "failed to open IPFS repo".
Definition ErrDecodePatchFailed := RegErr "model" 14001 "failed to decode the patch".
Definition ErrApplyPatchFailed := RegErr "model" 14002 "failed to apply the patch".
Definition ErrCacheGetFailed := RegErr "model" 14006 "failed to get value from cache".
Definition ErrInvalidRule := RegErr "model" 14021 "invlaid rule".
Definition ErrProcessOrderFailed := RegErr "model" 14028 "failed to process the order".
Definition ErrExpiredOrder := RegErr "model" 14029 "expired order".
Definition ErrRetriesExceed := RegErr "model" 14030 "shard retries too many times".
Definition ErrInvalidProvider := RegErr "model" 14031 "invalid provider".
Definition ErrCreateP2PServiceFaild := RegErr "chain" 15000 "failed to create the P2P service".
Definition ErrStartLibP2PRPCServerFailed := RegErr "network" 15001 "failed to start libp2p RPC server".
Definition ErrStartPRPCServerFailed := RegErr "network" 15003 "failed to start RPC server".

(** [types.Wrap]: a nil cause is allowed. *)
Definition Wrap (err0 : regerr) (err1 : option error) : error :=
  match err1 with Some e => EWrap err0 e | None => EWrapNil err0 end.

(** [types.Wrapf], with the formatted text. *)
Definition Wrapf (err : regerr) (info : string) : error := EWrapf err info.

(** ** Content identifiers

    [cid.Cid] wraps the binary form of an identifier; [cid.Undef] is the empty
    one.  Decoding, printing and hashing belong to the cid library. *)
Record Cid := MkCid { cid_str : string }.
Definition Undef : Cid := MkCid "".

#[global] Instance Cid_eq_dec : EqDecision Cid.
Proof. solve_decision. Defined.

Class CidLib := {
  cid_Decode : string -> Cid + error;
  cid_Parse : string -> Cid + error;
  cid_String : Cid -> string;
  cid_Sum : bytes -> Cid + error
}.

(** [utils.CalculateCid] *)
Definition CalculateCid `{!CidLib} (content : bytes) : Cid + error :=
  match cid_Sum content with
  | inl c => inl c
  | inr err => inr (Wrap ErrCalculateCidFailed (Some err))
  end.

(** ** Order state *)
Definition OrderStateStaged : Z := 0.
Definition OrderStateReady : Z := 1.
Definition OrderStateComplete : Z := 2.
Definition OrderStateTerminate : Z := 3.
Definition OrderStateExpired : Z := 4.

Definition OrderState_String (s : Z) : string :=
  if s =? OrderStateStaged then "Staged"
  else if s =? OrderStateReady then "Ready"
  else if s =? OrderStateComplete then "Complete"
  else "".

Definition ShardStateAssigned : string := "assigned".
Definition ShardStateNotified : string := "notified".
Definition ShardStateCompleted : string := "completed".
Definition ShardStateError : string := "error".

Record OrderShardInfo := MkOrderShardInfo {
  os_ShardId : Z;
  os_Peer : string;
  os_Cid : string;
  os_Provider : string;
  os_State : string;
  os_CompleteHash : string
}.

Definition AssignTxTypeStore : string := "MsgStore".
Definition AssignTxTypeReady : string := "MsgReady".

Record OrderInfo := MkOrderInfo {
  oi_DataId : string;
  oi_Owner : string;
  oi_Cid : Cid;
  oi_StagePath : string;
  oi_OrderId : Z;
  oi_OrderHash : string;
  oi_OrderTxType : string;
  oi_OrderHeight : Z;
  oi_Shards : gmap string OrderShardInfo;
  oi_ExpireHeight : Z;
  oi_State : Z;
  oi_Tries : Z;
  oi_RetryAt : Z;
  oi_LastErr : string
}.

Definition OrderInfo_zero : OrderInfo :=
  MkOrderInfo "" "" Undef "" 0 "" "" 0 ∅ 0 0 0 0 "".

Definition oi_set_State (v : Z) (o : OrderInfo) : OrderInfo :=
  MkOrderInfo (oi_DataId o) (oi_Owner o) (oi_Cid o) (oi_StagePath o) (oi_OrderId o)
    (oi_OrderHash o) (oi_OrderTxType o) (oi_OrderHeight o) (oi_Shards o)
    (oi_ExpireHeight o) v (oi_Tries o) (oi_RetryAt o) (oi_LastErr o).
Definition oi_set_Tries (v : Z) (o : OrderInfo) : OrderInfo :=
  MkOrderInfo (oi_DataId o) (oi_Owner o) (oi_Cid o) (oi_StagePath o) (oi_OrderId o)
    (oi_OrderHash o) (oi_OrderTxType o) (oi_OrderHeight o) (oi_Shards o)
    (oi_ExpireHeight o) (oi_State o) v (oi_RetryAt o) (oi_LastErr o).
Definition oi_set_RetryAt (v : Z) (o : OrderInfo) : OrderInfo :=
  MkOrderInfo (oi_DataId o) (oi_Owner o) (oi_Cid o) (oi_StagePath o) (oi_OrderId o)
    (oi_OrderHash o) (oi_OrderTxType o) (oi_OrderHeight o) (oi_Shards o)
    (oi_ExpireHeight o) (oi_State o) (oi_Tries o) v (oi_LastErr o).
Definition oi_set_LastErr (v : string) (o : OrderInfo) : OrderInfo :=
  MkOrderInfo (oi_DataId o) (oi_Owner o) (oi_Cid o) (oi_StagePath o) (oi_OrderId o)
    (oi_OrderHash o) (oi_OrderTxType o) (oi_OrderHeight o) (oi_Shards o)
    (oi_ExpireHeight o) (oi_State o) (oi_Tries o) (oi_RetryAt o) v.
Definition oi_set_ExpireHeight (v : Z) (o : OrderInfo) : OrderInfo :=
  MkOrderInfo (oi_DataId o) (oi_Owner o) (oi_Cid o) (oi_StagePath o) (oi_OrderId o)
    (oi_OrderHash o) (oi_OrderTxType o) (oi_OrderHeight o) (oi_Shards o)
    v (oi_State o) (oi_Tries o) (oi_RetryAt o) (oi_LastErr o).
Definition oi_set_OrderId (v : Z) (o : OrderInfo) : OrderInfo :=
  MkOrderInfo (oi_DataId o) (oi_Owner o) (oi_Cid o) (oi_StagePath o) v
    (oi_OrderHash o) (oi_OrderTxType o) (oi_OrderHeight o) (oi_Shards o)
    (oi_ExpireHeight o) (oi_State o) (oi_Tries o) (oi_RetryAt o) (oi_LastErr o).
Definition oi_set_Shards (v : gmap string OrderShardInfo) (o : OrderInfo) : OrderInfo :=
  MkOrderInfo (oi_DataId o) (oi_Owner o) (oi_Cid o) (oi_StagePath o) (oi_OrderId o)
    (oi_OrderHash o) (oi_OrderTxType o) (oi_OrderHeight o) v
    (oi_ExpireHeight o) (oi_State o) (oi_Tries o) (oi_RetryAt o) (oi_LastErr o).

Record OrderKey := MkOrderKey { ok_DataId : string }.
Record OrderIndex := MkOrderIndex { ox_Alls : list OrderKey }.

(** ** Shard state *)
Definition ShardStateValidated : Z := 0.
Definition ShardStateStored : Z := 1.
Definition ShardStateTxSent : Z := 2.
Definition ShardStateComplete : Z := 3.
Definition ShardStateTerminate : Z := 4.
Definition ShardStateExpired : Z := 5.

Definition ShardState_String (s : Z) : string :=
  if s =? ShardStateValidated then "validated"
  else if s =? ShardStateStored then "stored"
  else if s =? ShardStateTxSent then "txSent"
  else if s =? ShardStateComplete then "completed"
  else if s =? ShardStateTerminate then "terminated"
  else if s =? ShardStateExpired then "expired"
  else "".

Record ShardInfo := MkShardInfo {
  si_OrderId : Z;
  si_DataId : string;
  si_Cid : Cid;
  si_Owner : string;
  si_Gateway : string;
  si_OrderOperation : string;
  si_ShardOperation : string;
  si_CompleteHash : string;
  si_CompleteHeight : Z;
  si_Size : Z;
  si_Tries : Z;
  si_ExpireHeight : Z;
  si_State : Z;
  si_RetryAt : Z;
  si_LastErr : string
}.

Definition ShardInfo_zero : ShardInfo :=
  MkShardInfo 0 "" Undef "" "" "" "" "" 0 0 0 0 0 0 "".

#[global] Instance ShardInfo_eq_dec : EqDecision ShardInfo.
Proof. solve_decision. Defined.

Definition si_set_State (v : Z) (s : ShardInfo) : ShardInfo :=
  MkShardInfo (si_OrderId s) (si_DataId s) (si_Cid s) (si_Owner s) (si_Gateway s)
    (si_OrderOperation s) (si_ShardOperation s) (si_CompleteHash s) (si_CompleteHeight s)
    (si_Size s) (si_Tries s) (si_ExpireHeight s) v (si_RetryAt s) (si_LastErr s).
Definition si_set_Tries (v : Z) (s : ShardInfo) : ShardInfo :=
  MkShardInfo (si_OrderId s) (si_DataId s) (si_Cid s) (si_Owner s) (si_Gateway s)
    (si_OrderOperation s) (si_ShardOperation s) (si_CompleteHash s) (si_CompleteHeight s)
    (si_Size s) v (si_ExpireHeight s) (si_State s) (si_RetryAt s) (si_LastErr s).
Definition si_set_RetryAt (v : Z) (s : ShardInfo) : ShardInfo :=
  MkShardInfo (si_OrderId s) (si_DataId s) (si_Cid s) (si_Owner s) (si_Gateway s)
    (si_OrderOperation s) (si_ShardOperation s) (si_CompleteHash s) (si_CompleteHeight s)
    (si_Size s) (si_Tries s) (si_ExpireHeight s) (si_State s) v (si_LastErr s).
Definition si_set_LastErr (v : string) (s : ShardInfo) : ShardInfo :=
  MkShardInfo (si_OrderId s) (si_DataId s) (si_Cid s) (si_Owner s) (si_Gateway s)
    (si_OrderOperation s) (si_ShardOperation s) (si_CompleteHash s) (si_CompleteHeight s)
    (si_Size s) (si_Tries s) (si_ExpireHeight s) (si_State s) (si_RetryAt s) v.
Definition si_set_ExpireHeight (v : Z) (s : ShardInfo) : ShardInfo :=
  MkShardInfo (si_OrderId s) (si_DataId s) (si_Cid s) (si_Owner s) (si_Gateway s)
    (si_OrderOperation s) (si_ShardOperation s) (si_CompleteHash s) (si_CompleteHeight s)
    (si_Size s) (si_Tries s) v (si_State s) (si_RetryAt s) (si_LastErr s).
Definition si_set_Size (v : Z) (s : ShardInfo) : ShardInfo :=
  MkShardInfo (si_OrderId s) (si_DataId s) (si_Cid s) (si_Owner s) (si_Gateway s)
    (si_OrderOperation s) (si_ShardOperation s) (si_CompleteHash s) (si_CompleteHeight s)
    v (si_Tries s) (si_ExpireHeight s) (si_State s) (si_RetryAt s) (si_LastErr s).
Definition si_set_Complete (hash : string) (height : Z) (s : ShardInfo) : ShardInfo :=
  MkShardInfo (si_OrderId s) (si_DataId s) (si_Cid s) (si_Owner s) (si_Gateway s)
    (si_OrderOperation s) (si_ShardOperation s) hash height
    (si_Size s) (si_Tries s) (si_ExpireHeight s) (si_State s) (si_RetryAt s) (si_LastErr s).

Record ShardKey := MkShardKey { sk_OrderId : Z; sk_Cid : Cid }.
Record ShardIndex := MkShardIndex { sx_All : list ShardKey }.

#[global] Instance ShardKey_eq_dec : EqDecision ShardKey.
Proof. solve_decision. Defined.
#[global] Instance OrderKey_eq_dec : EqDecision OrderKey.
Proof. solve_decision. Defined.

(** ** Shard expiration state *)
Record ShardExpireKey := MkShardExpireKey { ek_ShardId : Z }.
Record ShardExpireIndex := MkShardExpireIndex { ex_Alls : list ShardExpireKey }.
Record ShardExpireInfo := MkShardExpireInfo {
  se_ShardId : Z;
  se_Cid : string;
  se_OrderId : Z
}.
Definition ShardExpireInfo_zero : ShardExpireInfo := MkShardExpireInfo 0 "" 0.
#[global] Instance ShardExpireKey_eq_dec : EqDecision ShardExpireKey.
Proof. solve_decision. Defined.

(** ** Migration state *)
Definition MigrateStateTxSent : Z := 0.
Definition MigrateStateComplete : Z := 1.

Record MigrateInfo := MkMigrateInfo {
  mi_DataId : string;
  mi_OrderId : Z;
  mi_Cid : string;
  mi_FromProvider : string;
  mi_ToProvider : string;
  mi_MigrateTxHash : string;
  mi_MigrateTxHeight : Z;
  mi_CompleteTxHash : string;
  mi_CompleteTxHeight : Z;
  mi_State : Z
}.
Definition MigrateInfo_zero : MigrateInfo := MkMigrateInfo "" 0 "" "" "" "" 0 "" 0 0.

Record MigrateKey := MkMigrateKey { mk_DataId : string; mk_FromProvider : string }.
Record MigrateIndex := MkMigrateIndex { mx_All : list MigrateKey }.
#[global] Instance MigrateKey_eq_dec : EqDecision MigrateKey.
Proof. solve_decision. Defined.

(** ** Protocol messages ([types/protocol.go], [types/types.go]) *)
Definition ErrorCodeInvalidRequest : Z := 1.
Definition ErrorCodeInvalidTx : Z := 2.
Definition ErrorCodeInternalErr : Z := 3.
Definition ErrorCodeInvalidProvider : Z := 4.
Definition ErrorCodeInvalidShardCid : Z := 5.
Definition ErrorCodeInvalidOrderProvider : Z := 6.
Definition ErrorCodeInvalidShardAssignee : Z := 7.

Record QueryProposal := MkQueryProposal {
  qp_Owner : string;
  qp_Keyword : string;
  qp_GroupId : string;
  qp_KeywordType : Z;
  qp_LastValidHeight : Z;
  qp_Gateway : string;
  qp_CommitId : string;
  qp_Version : string
}.
Record JwsSignature := MkJwsSignature { jws_Protected : string; jws_Signature : string }.
Record MetadataProposalCbor := MkMetadataProposalCbor {
  mp_Proposal : QueryProposal;
  mp_JwsSignature : JwsSignature
}.
Record RelayProposal := MkRelayProposal {
  rp_NodeAddress : string;
  rp_LocalPeerId : string;
  rp_RelayPeerIds : string;
  rp_TargetPeerInfo : string
}.
Record RelayProposalCbor := MkRelayProposalCbor {
  rpc_Proposal : RelayProposal;
  rpc_Signature : bytes
}.
Definition RelayProposal_zero : RelayProposal := MkRelayProposal "" "" "" "".
Definition QueryProposal_zero : QueryProposal := MkQueryProposal "" "" "" 0 0 "" "" "".
Definition MetadataProposalCbor_zero : MetadataProposalCbor :=
  MkMetadataProposalCbor QueryProposal_zero (MkJwsSignature "" "").
Definition RelayProposalCbor_zero : RelayProposalCbor :=
  MkRelayProposalCbor RelayProposal_zero [].

Record ShardLoadReq := MkShardLoadReq {
  slr_Owner : string;
  slr_DataId : string;
  slr_OrderId : Z;
  slr_Cid : Cid;
  slr_Proposal : MetadataProposalCbor;
  slr_RequestId : Z;
  slr_RelayProposal : RelayProposalCbor
}.
Record ShardLoadResp := MkShardLoadResp {
  slp_Code : Z;
  slp_Message : string;
  slp_OrderId : Z;
  slp_Cid : Cid;
  slp_Content : bytes;
  slp_RequestId : Z;
  slp_ResponseId : Z
}.
Record ShardAssignReq := MkShardAssignReq {
  sar_OrderId : Z;
  sar_DataId : string;
  sar_Assignee : string;
  sar_TxHash : string;
  sar_Height : Z;
  sar_AssignTxType : string;
  sar_TimeoutHeight : Z
}.
Record ShardAssignResp := MkShardAssignResp { sap_Code : Z; sap_Message : string }.
Record ShardCompleteReq := MkShardCompleteReq {
  scr_OrderId : Z;
  scr_DataId : string;
  scr_Cids : list Cid;
  scr_TxHash : string;
  scr_Height : Z
}.
Record ShardCompleteResp := MkShardCompleteResp {
  scp_Code : Z;
  scp_Message : string;
  scp_Recoverable : bool
}.
Record ShardMigrateReq := MkShardMigrateReq {
  smr_MigrateFrom : string;
  smr_OrderId : Z;
  smr_DataId : string;
  smr_TxHash : string;
  smr_TxHeight : Z;
  smr_Cid : string;
  smr_Content : bytes
}.
Record ShardMigrateResp := MkShardMigrateResp {
  smp_Code : Z;
  smp_Message : string;
  smp_CompleteHash : string;
  smp_CompleteHeight : Z
}.

Record ShardPingPong := MkShardPingPong { spp_Local : string }.

(** ** Commit information

    A metadata commit is the commit id and the block height, separated by the
    character with code 26 (["\032"]). *)
Definition commit_sep : ascii := "026".

Record MetaCommit := MkMetaCommit { mc_CommitId : string; mc_Height : Z }.

Definition ParseMetaCommit (mc : string) : MetaCommit + error :=
  let s := Split mc commit_sep in
  match s with
  | [s0; s1] =>
      match ParseUint s1 with
      | None => inr (Wrapf ErrInvalidCommitInfo
                       ("can't parse height in metadata commit: " +:+ mc))
      | Some height => inl (MkMetaCommit s0 height)
      end
  | _ => inr (Wrapf ErrInvalidCommitInfo ("invalid metadata commit: " +:+ mc))
  end.

(** The text [ModelManager.Create] and [ModelManager.Update] write for a commit:
    [bytes.NewBufferString(commitId); WriteByte(26); WriteString("%d")]. *)
Definition commit_text (commitId : string) (height : Z) : string :=
  commitId +:+ String commit_sep (format_d height).

Lemma ParseMetaCommit_ok mc c :
  ParseMetaCommit mc = inl c <->
  exists h, Split mc commit_sep = [mc_CommitId c; h] /\ ParseUint h = Some (mc_Height c).
Proof.
  unfold ParseMetaCommit.
  destruct (Split mc commit_sep) as [|s0 [|s1 [|]]]; [naive_solver..| |naive_solver].
  destruct (ParseUint s1) eqn:E; [|naive_solver].
  split; [intros [= <-]; eauto|]. intros (h & [= -> ->] & Hh). destruct c. naive_solver.
Qed.

(** The commit text the model manager writes when it creates or updates a
    model is parsed back by [ParseMetaCommit] into the same commit id and
    height, for every commit id free of the separator and every height that is a
    non-negative 64-bit value. *)
Theorem ParseMetaCommit_commit_text commitId height :
  free_of commit_sep commitId = true -> is_u64 height ->
  ParseMetaCommit (commit_text commitId height) = inl (MkMetaCommit commitId height).
Proof.
  intros Hc Hh. apply ParseMetaCommit_ok. exists (format_d height).
  unfold commit_text. rewrite Split_app, Split_free by
    (done || apply free_of_format_d, eq_refl; apply Hh).
  split; [done|]. by apply ParseUint_format_d.
Qed.

Lemma ParseMetaCommit_commit_text_witness :
  ParseMetaCommit (commit_text "6ba7b811-9dad" 18446744073709551615)
  = inl (MkMetaCommit "6ba7b811-9dad" 18446744073709551615).
Proof. apply ParseMetaCommit_commit_text; [reflexivity|vm_compute; split; congruence]. Defined.
