(* ===== verification/StateUtils.v ===== *)
(** * Persistent state ([utils/state_utils.go])

    The node keeps orders, shards, migrations and shard expirations in one
    key/value datastore: a record per item under a key computed from its id,
    and per kind an index record that lists the ids.  This file models every
    function of [utils/state_utils.go] over an abstract datastore and codec.

    The datastore (ipfs go-datastore) and the CBOR codec of a type are
    interfaces: [Datastore]/[DatastoreLaws] and [Codec]/[CodecLaws].  An
    operation of the datastore may fail at any time; a failed [Put] may or may
    not have taken effect.

    [Section Table] is the abstract specification: a table is a finite map from
    ids to records and the list of ids of its index.  The source repeats the
    same four functions for each kind; each is translated by itself and shown to
    be an instance of the table operations, whose theorems it inherits. *)
From stdpp Require Import base list gmap strings.
From Stdlib Require Import ZArith Lia Ascii.
From S2P Require Import Prelude Types.

(** ** Interfaces *)
Class Datastore (D : Type) := {
  NewKey : string -> string;
  ds_Has : string -> GoM D bool;
  ds_Get : string -> GoM D bytes;
  ds_Put : string -> bytes -> GoM D unit
}.

(** [datastore.NewKey] cleans a path: it is one-to-one on names that have no
    path separator and do not start with a dot. *)
Definition plain (s : string) : bool :=
  free_of "/" s && match s with String c _ => negb (Ascii.eqb c ".") | EmptyString => false end.

(** What the node relies on: reads do not change the store and return what is
    there, a successful [Put] writes exactly its key, no operation panics.
    [reliable] states are those from which no operation fails, reading an absent
    key apart. *)
Class DatastoreLaws (D : Type) `{!Datastore D} := {
  contents : D -> gmap string bytes;
  reliable : D -> Prop;
  NewKey_inj s t : plain s = true -> plain t = true -> NewKey s = NewKey t -> s = t;
  Has_spec k d : wp (ds_Has k) d (fun o d' =>
    contents d' = contents d /\ (reliable d -> reliable d') /\
    match o with
    | Ret b => b = bool_decide (is_Some (contents d !! k))
    | Fail _ => ~ reliable d
    | _ => False
    end);
  Get_spec k d : wp (ds_Get k) d (fun o d' =>
    contents d' = contents d /\ (reliable d -> reliable d') /\
    match o with
    | Ret v => contents d !! k = Some v
    | Fail _ => ~ reliable d \/ contents d !! k = None
    | _ => False
    end);
  Put_spec k v d : wp (ds_Put k v) d (fun o d' =>
    (reliable d -> reliable d') /\
    match o with
    | Ret _ => contents d' = <[k := v]> (contents d)
    | Fail _ => ~ reliable d /\
                (contents d' = contents d \/ contents d' = <[k := v]> (contents d))
    | _ => False
    end)
}.

Class Codec (T : Type) := {
  MarshalCBOR : T -> bytes + error;
  UnmarshalCBOR : bytes -> T + error
}.

Class CodecLaws (T : Type) `{!Codec T} := {
  encodable : T -> Prop;
  codec_roundtrip x : encodable x ->
    exists b, MarshalCBOR x = inl b /\ UnmarshalCBOR b = inl x
}.

(** ** Keys *)
Section Keys.
Context `{!CidLib} {D} `{!Datastore D}.

Definition SHARD_EXPIRE_INDEX_KEY : string := "shard-expire".
Definition ORDER_INDEX_KEY : string := "order-index".
Definition SHARD_INDEX_KEY : string := "shard-index".
Definition MIGRATE_INDEX_KEY : string := "migrate-index".

Definition shardExpireKeyText (shardId : Z) : string := "shard-expire-" +:+ format_d shardId.
Definition orderKeyText (id : string) : string := "order-" +:+ id.
Definition migrateKeyText (dataId from : string) : string :=
  "migrate-dataid-" +:+ dataId +:+ "-from-" +:+ from.
Definition orderShardKeyText (orderId : Z) (cid : Cid) : string :=
  "order-" +:+ format_d orderId +:+ "-shard-" +:+ cid_String cid.

Definition shardExpireDatastoreKey (shardId : Z) : string := NewKey (shardExpireKeyText shardId).
Definition orderDatastoreKey (id : string) : string := NewKey (orderKeyText id).
Definition migrateDatastoreKey (dataId from : string) : string :=
  NewKey (migrateKeyText dataId from).
Definition orderShardDatastoreKey (orderId : Z) (cid : Cid) : string :=
  NewKey (orderShardKeyText orderId cid).
End Keys.

(** ** The functions of [utils/state_utils.go] *)
Section StateUtils.
Context `{!CidLib} {D} `{!Datastore D}.
Context `{!Codec OrderInfo, !Codec OrderIndex, !Codec ShardInfo, !Codec ShardIndex,
          !Codec MigrateInfo, !Codec MigrateIndex, !Codec ShardExpireInfo,
          !Codec ShardExpireIndex}.

(** *** Shard expiration *)
Definition AddShardExpireIndex (id : Z) : GoM D unit :=
  let key := NewKey SHARD_EXPIRE_INDEX_KEY in
  ex <- ds_Has key ;;
  index <- (if ex then data <- ds_Get key ;; lift (UnmarshalCBOR data)
           else ret (MkShardExpireIndex [])) ;;
  let index := MkShardExpireIndex (ex_Alls index ++ [MkShardExpireKey id]) in
  buf <- lift (MarshalCBOR index) ;;
  ds_Put key buf.

Definition SaveShardExpire (shardId : Z) (cid : string) (orderId : Z) : GoM D unit :=
  let key := shardExpireDatastoreKey shardId in
  ex <- ds_Has key ;;
  let expireInfo := MkShardExpireInfo shardId cid orderId in
  buf <- lift (MarshalCBOR expireInfo) ;;
  ds_Put key buf ;;
  if negb ex then AddShardExpireIndex shardId else ret tt.

Definition GetShardExpire (shardId : Z) : GoM D ShardExpireInfo :=
  let key := shardExpireDatastoreKey shardId in
  ex <- ds_Has key ;;
  if negb ex then ret ShardExpireInfo_zero else
  bs <- ds_Get key ;;
  lift (UnmarshalCBOR bs).

Definition RemoveShardExpireIndex (id : Z) : GoM D unit :=
  let key := NewKey SHARD_EXPIRE_INDEX_KEY in
  ex <- ds_Has key ;;
  index <- (if ex then data <- ds_Get key ;; lift (UnmarshalCBOR data)
           else ret (MkShardExpireIndex [])) ;;
  let index := MkShardExpireIndex
    (remove_first (fun k => ek_ShardId k =? id) (ex_Alls index)) in
  buf <- lift (MarshalCBOR index) ;;
  ds_Put key buf.

Definition GetShardExpireIndex : GoM D ShardExpireIndex :=
  let key := NewKey SHARD_EXPIRE_INDEX_KEY in
  ex <- ds_Has key ;;
  if negb ex then ret (MkShardExpireIndex []) else
  data <- ds_Get key ;;
  lift (UnmarshalCBOR data).

(** *** Orders *)
Definition UpdateOrderIndex (id : string) : GoM D unit :=
  let key := NewKey ORDER_INDEX_KEY in
  ex <- ds_Has key ;;
  index <- (if ex then data <- ds_Get key ;; lift (UnmarshalCBOR data)
           else ret (MkOrderIndex [])) ;;
  let index := MkOrderIndex (ox_Alls index ++ [MkOrderKey id]) in
  buf <- lift (MarshalCBOR index) ;;
  ds_Put key buf.

Definition SaveOrder (order : OrderInfo) : GoM D unit :=
  let key := orderDatastoreKey (oi_DataId order) in
  ex <- ds_Has key ;;
  buf <- lift (MarshalCBOR order) ;;
  ds_Put key buf ;;
  if negb ex then UpdateOrderIndex (oi_DataId order) else ret tt.

Definition GetOrder (id : string) : GoM D OrderInfo :=
  let key := orderDatastoreKey id in
  ex <- ds_Has key ;;
  if negb ex then ret OrderInfo_zero else
  bs <- ds_Get key ;;
  lift (UnmarshalCBOR bs).

Definition GetOrderIndex : GoM D OrderIndex :=
  let key := NewKey ORDER_INDEX_KEY in
  ex <- ds_Has key ;;
  if negb ex then ret (MkOrderIndex []) else
  data <- ds_Get key ;;
  lift (UnmarshalCBOR data).

(** *** Migrations *)
Definition UpdateMigrateIndex (dataId from : string) : GoM D unit :=
  let key := NewKey MIGRATE_INDEX_KEY in
  ex <- ds_Has key ;;
  index <- (if ex then data <- ds_Get key ;; lift (UnmarshalCBOR data)
           else ret (MkMigrateIndex [])) ;;
  let index := MkMigrateIndex (mx_All index ++ [MkMigrateKey dataId from]) in
  buf <- lift (MarshalCBOR index) ;;
  ds_Put key buf.

Definition SaveMigrate (migrate : MigrateInfo) : GoM D unit :=
  let key := migrateDatastoreKey (mi_DataId migrate) (mi_FromProvider migrate) in
  ex <- ds_Has key ;;
  buf <- lift (MarshalCBOR migrate) ;;
  ds_Put key buf ;;
  if negb ex then UpdateMigrateIndex (mi_DataId migrate) (mi_FromProvider migrate)
  else ret tt.

Definition GetMigrate (dataId from : string) : GoM D MigrateInfo :=
  let key := migrateDatastoreKey dataId from in
  ex <- ds_Has key ;;
  if negb ex then ret MigrateInfo_zero else
  bs <- ds_Get key ;;
  lift (UnmarshalCBOR bs).

Definition GetMigrateIndex : GoM D MigrateIndex :=
  let key := NewKey MIGRATE_INDEX_KEY in
  ex <- ds_Has key ;;
  if negb ex then ret (MkMigrateIndex []) else
  data <- ds_Get key ;;
  lift (UnmarshalCBOR data).

(** *** Shards *)
Definition UpdateShardIndex (orderId : Z) (cid : Cid) : GoM D unit :=
  let key := NewKey SHARD_INDEX_KEY in
  ex <- ds_Has key ;;
  index <- (if ex then data <- ds_Get key ;; lift (UnmarshalCBOR data)
           else ret (MkShardIndex [])) ;;
  let index := MkShardIndex (sx_All index ++ [MkShardKey orderId cid]) in
  buf <- lift (MarshalCBOR index) ;;
  ds_Put key buf.

Definition SaveShard (shard : ShardInfo) : GoM D unit :=
  let key := orderShardDatastoreKey (si_OrderId shard) (si_Cid shard) in
  ex <- ds_Has key ;;
  buf <- lift (MarshalCBOR shard) ;;
  ds_Put key buf ;;
  if negb ex then UpdateShardIndex (si_OrderId shard) (si_Cid shard) else ret tt.

Definition GetShard (orderId : Z) (cid : Cid) : GoM D ShardInfo :=
  let key := orderShardDatastoreKey orderId cid in
  ex <- ds_Has key ;;
  if negb ex then ret ShardInfo_zero else
  bs <- ds_Get key ;;
  lift (UnmarshalCBOR bs).

Definition GetShardIndex : GoM D ShardIndex :=
  let key := NewKey SHARD_INDEX_KEY in
  ex <- ds_Has key ;;
  if negb ex then ret (MkShardIndex []) else
  data <- ds_Get key ;;
  lift (UnmarshalCBOR data).
End StateUtils.

(** *** Retry times

    [GetRetryAt]: the interval starts at one second and is tripled [tries] times;
    [retryInterval] is an [int64] number of nanoseconds, so the product wraps.
    [now] is [time.Now()], in nanoseconds; the result is in seconds. *)
Definition RetryIntervalCoeff : Z := 3.
Definition Second : Z := 1000000000.

Fixpoint retryInterval (tries : nat) : Z :=
  match tries with
  | O => Second
  | S n => wrap_i64 (retryInterval n * RetryIntervalCoeff)
  end.

Definition GetRetryAt (now : Z) (tries : Z) : Z :=
  (now + retryInterval (Z.to_nat tries)) / Second.

(** One datastore operation at the head of a computation: its law, and one goal
    per outcome it can have. *)
Ltac ds_has fnd Hfnd :=
  let d1 := fresh "d" in let HC := fresh "HC" in let Hrel := fresh "Hrel" in
  apply wp_bind; eapply wp_mono; [apply Has_spec|];
  intros [fnd| | |] d1 (HC & Hrel & Hfnd); [subst fnd|rewrite ?HC; split_and?; eauto; tauto|done..];
  rewrite <-?HC in *.
Ltac ds_get v Hv :=
  let d1 := fresh "d" in let HC := fresh "HC" in let Hrel := fresh "Hrel" in
  apply wp_bind; eapply wp_mono; [apply Get_spec|];
  intros [v| | |] d1 (HC & Hrel & Hv); [| |done..]; rewrite <-?HC in *.

(** *** No function of this file panics *)
Section Safe.
Context {D} `{!Datastore D, !DatastoreLaws D}.

Lemma safe_Has k : safe (ds_Has k).
Proof. intros d. pose proof (Has_spec k d) as (_ & _ & Hs). by destruct (ds_Has k d) as [[] ?]. Qed.
Lemma safe_Get k : safe (ds_Get k).
Proof. intros d. pose proof (Get_spec k d) as (_ & _ & Hs). by destruct (ds_Get k d) as [[] ?]. Qed.
Lemma safe_Put k v : safe (ds_Put k v).
Proof. intros d. pose proof (Put_spec k v d) as (_ & Hs). by destruct (ds_Put k v d) as [[] ?]. Qed.
End Safe.
#[export] Hint Resolve safe_Has safe_Get safe_Put : safe.

Section SafeUtils.
Context `{!CidLib} {D} `{!Datastore D, !DatastoreLaws D}.
Context `{!Codec OrderInfo, !Codec OrderIndex, !Codec ShardInfo, !Codec ShardIndex,
          !Codec MigrateInfo, !Codec MigrateIndex, !Codec ShardExpireInfo,
          !Codec ShardExpireIndex}.

Lemma safe_SaveOrder o : safe (SaveOrder (D:=D) o).
Proof. unfold SaveOrder, UpdateOrderIndex. cbv zeta. go_safe. Qed.
Lemma safe_GetOrder i : safe (GetOrder (D:=D) i).
Proof. unfold GetOrder. cbv zeta. go_safe. Qed.
Lemma safe_GetOrderIndex : safe (GetOrderIndex (D:=D)).
Proof. unfold GetOrderIndex. cbv zeta. go_safe. Qed.
Lemma safe_SaveShard t : safe (SaveShard (D:=D) t).
Proof. unfold SaveShard, UpdateShardIndex. cbv zeta. go_safe. Qed.
Lemma safe_GetShard n c : safe (GetShard (D:=D) n c).
Proof. unfold GetShard. cbv zeta. go_safe. Qed.
Lemma safe_GetShardIndex : safe (GetShardIndex (D:=D)).
Proof. unfold GetShardIndex. cbv zeta. go_safe. Qed.
Lemma safe_SaveMigrate m : safe (SaveMigrate (D:=D) m).
Proof. unfold SaveMigrate, UpdateMigrateIndex. cbv zeta. go_safe. Qed.
Lemma safe_GetMigrate n c : safe (GetMigrate (D:=D) n c).
Proof. unfold GetMigrate. cbv zeta. go_safe. Qed.
Lemma safe_GetMigrateIndex : safe (GetMigrateIndex (D:=D)).
Proof. unfold GetMigrateIndex. cbv zeta. go_safe. Qed.
Lemma safe_SaveShardExpire i c o : safe (SaveShardExpire (D:=D) i c o).
Proof. unfold SaveShardExpire, AddShardExpireIndex. cbv zeta. go_safe. Qed.
Lemma safe_GetShardExpire i : safe (GetShardExpire (D:=D) i).
Proof. unfold GetShardExpire. cbv zeta. go_safe. Qed.
Lemma safe_RemoveShardExpireIndex i : safe (RemoveShardExpireIndex (D:=D) i).
Proof. unfold RemoveShardExpireIndex. cbv zeta. go_safe. Qed.
Lemma safe_GetShardExpireIndex : safe (GetShardExpireIndex (D:=D)).
Proof. unfold GetShardExpireIndex. cbv zeta. go_safe. Qed.
End SafeUtils.
#[export] Hint Resolve safe_SaveOrder safe_GetOrder safe_GetOrderIndex safe_SaveShard safe_GetShard
  safe_GetShardIndex safe_SaveMigrate safe_GetMigrate safe_GetMigrateIndex safe_SaveShardExpire
  safe_GetShardExpire safe_RemoveShardExpireIndex safe_GetShardExpireIndex : safe.

(** ** Tables: the abstract specification *)
Record table (K R I : Type) := Table {
  t_text : K -> string;         (* the datastore name of a record *)
  t_idx : string;               (* the datastore name of the index *)
  t_of : R -> K;                (* the id of a record *)
  t_list : I -> list K;         (* the ids an index lists *)
  t_mk : list K -> I;
  t_zero : R                    (* what reading an absent record returns *)
}.
Arguments Table {K R I}.
Arguments t_text {K R I}.
Arguments t_idx {K R I}.
Arguments t_of {K R I}.
Arguments t_list {K R I}.
Arguments t_mk {K R I}.
Arguments t_zero {K R I}.

Section Table.
Context {D} `{!Datastore D, !DatastoreLaws D}.
Context {K R I} `{Countable K} `{!Codec R, !CodecLaws R, !Codec I, !CodecLaws I}.
Implicit Types (t : table K R I) (m : gmap K R) (l : list K).

Definition update_index t (f : list K -> list K) : GoM D unit :=
  let key := NewKey (t_idx t) in
  ex <- ds_Has key ;;
  index <- (if ex then data <- ds_Get key ;; lift (UnmarshalCBOR data)
            else ret (t_mk t [])) ;;
  buf <- lift (MarshalCBOR (t_mk t (f (t_list t index)))) ;;
  ds_Put key buf.

Definition add_index t (k : K) : GoM D unit := update_index t (fun l => l ++ [k]).

Definition save t (r : R) : GoM D unit :=
  let key := NewKey (t_text t (t_of t r)) in
  ex <- ds_Has key ;;
  buf <- lift (MarshalCBOR r) ;;
  ds_Put key buf ;;
  if negb ex then add_index t (t_of t r) else ret tt.

Definition get t (k : K) : GoM D R :=
  let key := NewKey (t_text t k) in
  ex <- ds_Has key ;;
  if negb ex then ret (t_zero t) else
  bs <- ds_Get key ;;
  lift (UnmarshalCBOR bs).

Definition get_index t : GoM D I :=
  let key := NewKey (t_idx t) in
  ex <- ds_Has key ;;
  if negb ex then ret (t_mk t []) else
  data <- ds_Get key ;;
  lift (UnmarshalCBOR data).

(** The ids a table is used with: their names are distinct from one another
    and from the name of the index. *)
Record table_ok t (good : K -> Prop) : Prop := {
  tok_list l : t_list t (t_mk t l) = l;
  tok_idx : plain (t_idx t) = true;
  tok_plain k : good k -> plain (t_text t k) = true;
  tok_inj k k' : good k -> good k' -> t_text t k = t_text t k' -> k = k';
  tok_ne k : good k -> t_text t k <> t_idx t
}.

(** The datastore contents [C] hold the records [m] and the index [l]. *)
Definition repr t (good : K -> Prop) (C : gmap string bytes) m l : Prop :=
  (forall k, good k ->
     match m !! k with
     | Some r => exists b, C !! NewKey (t_text t k) = Some b /\ UnmarshalCBOR b = inl r
     | None => C !! NewKey (t_text t k) = None
     end) /\
  match C !! NewKey (t_idx t) with
  | Some b => UnmarshalCBOR b = inl (t_mk t l)
  | None => l = []
  end.

(** The index lists the stored ids, each once. *)
Definition consistent m l : Prop :=
  NoDup l /\ forall k, k ∈ l <-> is_Some (m !! k).

(** The abstract save. *)
Definition save_index m l (k : K) : list K :=
  if decide (is_Some (m !! k)) then l else l ++ [k].

Lemma consistent_empty : consistent ∅ [].
Proof.
  split; [constructor|]. intros k. rewrite lookup_empty.
  split; [by intros ?%elem_of_nil|by intros []].
Qed.

Lemma consistent_save m l k (r : R) :
  consistent m l -> consistent (<[k := r]> m) (save_index m l k).
Proof.
  intros [Hnd Hl]. unfold save_index. split.
  - case_decide as Hk; [done|]. apply NoDup_app. split; [done|]. split.
    + intros x Hx ->%list_elem_of_singleton. by apply Hk, Hl.
    + apply NoDup_singleton.
  - intros k'. rewrite lookup_insert.
    destruct (decide (k = k')) as [->|Hne]; case_decide as Hk;
      rewrite ?elem_of_app, ?list_elem_of_singleton, Hl; cbn; split; intros;
      destruct_or?; eauto; congruence.
Qed.

(** *** The operations against the specification *)
Context (t : table K R I) (good : K -> Prop) (Hok : table_ok t good).
Implicit Types (C : gmap string bytes) (d : D).

Lemma key_inj k k' :
  good k -> good k' -> NewKey (t_text t k) = NewKey (t_text t k') -> k = k'.
Proof.
  intros Hk Hk' E. apply (tok_inj _ _ Hok); [done..|].
  by apply NewKey_inj in E; [|apply (tok_plain _ _ Hok)..].
Qed.

Lemma key_ne_idx k : good k -> NewKey (t_text t k) <> NewKey (t_idx t).
Proof.
  intros Hk E. apply (tok_ne _ _ Hok k Hk).
  by apply NewKey_inj in E; [|apply (tok_plain _ _ Hok)|apply (tok_idx _ _ Hok)].
Qed.

Lemma repr_put_record C m l r b :
  repr t good C m l -> good (t_of t r) -> UnmarshalCBOR b = inl r ->
  repr t good (<[NewKey (t_text t (t_of t r)) := b]> C) (<[t_of t r := r]> m) l.
Proof.
  intros [Hm Hl] Hg Hb. split.
  - intros k Hk. destruct (decide (t_of t r = k)) as [<-|Hne].
    + rewrite !lookup_insert_eq. eauto.
    + rewrite lookup_insert_ne by done.
      rewrite lookup_insert_ne by (intros E; apply Hne; by apply key_inj in E).
      by apply Hm.
  - by rewrite lookup_insert_ne by by apply key_ne_idx.
Qed.

Lemma repr_put_index C m l l' b :
  repr t good C m l -> UnmarshalCBOR b = inl (t_mk t l') ->
  repr t good (<[NewKey (t_idx t) := b]> C) m l'.
Proof.
  intros [Hm _] Hb. split.
  - intros k Hk. rewrite lookup_insert_ne by (by apply not_eq_sym, key_ne_idx). by apply Hm.
  - by rewrite lookup_insert_eq.
Qed.

(** A store that differs from [C] only where the table may write. *)
Definition touches (k : K) C C' : Prop :=
  forall s, s <> NewKey (t_text t k) -> s <> NewKey (t_idx t) -> C' !! s = C !! s.

Lemma touches_refl k C : touches k C C.
Proof. by intros ???. Qed.

Lemma get_spec d m l k :
  repr t good (contents d) m l -> good k ->
  wp (get t k) d (fun o d' =>
    contents d' = contents d /\ (reliable d -> reliable d') /\
    match o with
    | Ret r => r = default (t_zero t) (m !! k)
    | Fail _ => ~ reliable d
    | _ => False
    end).
Proof.
  intros [Hm _] Hk. specialize (Hm k Hk). unfold get. ds_has fnd Hfnd.
  case_bool_decide as Hex'; cbn [negb].
  - ds_get v Hv.
    + destruct (m !! k) as [r|].
      * destruct Hm as (b & Hb & Hu). assert (v = b) as -> by congruence.
        rewrite Hu. apply wp_ret. split_and!; eauto.
      * rewrite Hm in Hv. done.
    + destruct Hv as [|Hv]; [split_and!; eauto; tauto|].
      rewrite Hv in Hex'. by destruct Hex'.
  - apply wp_ret. split_and!; eauto. destruct (m !! k); [|done].
    destruct Hm as (? & Hb & _). rewrite Hb in Hex'. by destruct Hex'.
Qed.

Lemma read_index_spec d m l :
  repr t good (contents d) m l ->
  wp (if bool_decide (is_Some (contents d !! NewKey (t_idx t)))
      then data <- ds_Get (NewKey (t_idx t)) ;; lift (UnmarshalCBOR data)
      else ret (t_mk t [])) d (fun o d' =>
    contents d' = contents d /\ (reliable d -> reliable d') /\
    match o with
    | Ret i => i = t_mk t l
    | Fail _ => ~ reliable d
    | _ => False
    end).
Proof.
  intros [_ Hl]. case_bool_decide as Hex.
  - ds_get v Hv.
    + rewrite Hv in Hl. rewrite Hl. apply wp_ret. split_and!; eauto.
    + destruct Hv as [|Hv]; [split_and!; eauto; tauto|].
      rewrite Hv in Hex. by destruct Hex.
  - apply wp_ret. split_and!; eauto.
    destruct (contents d !! _); [by destruct Hex|]. by subst l.
Qed.

Lemma get_index_spec d m l :
  repr t good (contents d) m l ->
  wp (get_index t) d (fun o d' =>
    contents d' = contents d /\ (reliable d -> reliable d') /\
    match o with
    | Ret i => i = t_mk t l
    | Fail _ => ~ reliable d
    | _ => False
    end).
Proof.
  intros Hr. unfold get_index. ds_has fnd Hfnd.
  eapply wp_mono.
  - pose proof (read_index_spec _ _ _ Hr) as H'. case_bool_decide; exact H'.
  - intros o d1 (HC1 & Hrel1 & Ho). split_and!; [congruence|tauto|].
    destruct o; tauto.
Qed.

(** Writing the index [l'] over the index [l]. *)
Lemma put_index_spec d m l l' b :
  repr t good (contents d) m l -> UnmarshalCBOR b = inl (t_mk t l') ->
  wp (ds_Put (NewKey (t_idx t)) b) d (fun o d' =>
    (reliable d -> reliable d') /\
    (forall s, s <> NewKey (t_idx t) -> contents d' !! s = contents d !! s) /\
    match o with
    | Ret _ => repr t good (contents d') m l'
    | Fail _ => ~ reliable d /\ (repr t good (contents d') m l \/
                                repr t good (contents d') m l')
    | _ => False
    end).
Proof.
  intros Hr Hb. eapply wp_mono; [apply Put_spec|]. intros o d1 [Hrel Ho].
  destruct o as [|e| |]; [| |done..].
  - rewrite Ho. split_and!; eauto using repr_put_index.
    intros. by rewrite lookup_insert_ne.
  - destruct Ho as [Hnr [Ho|Ho]]; rewrite Ho; split_and!; eauto using repr_put_index.
    intros. by rewrite lookup_insert_ne.
Qed.

Lemma update_index_spec d m l f :
  repr t good (contents d) m l -> encodable (t_mk t (f l)) ->
  wp (update_index t f) d (fun o d' =>
    (reliable d -> reliable d') /\
    (forall s, s <> NewKey (t_idx t) -> contents d' !! s = contents d !! s) /\
    match o with
    | Ret _ => repr t good (contents d') m (f l)
    | Fail _ => ~ reliable d /\ (repr t good (contents d') m l \/
                                repr t good (contents d') m (f l))
    | _ => False
    end).
Proof.
  intros Hr Henc. destruct (codec_roundtrip _ Henc) as (b & Hmar & Hun).
  unfold update_index. ds_has fnd Hfnd.
  apply wp_bind. eapply wp_mono; [by eapply read_index_spec|].
  intros o d1 (HC1 & Hrel1 & Ho).
  destruct o as [i|e| |]; [|rewrite HC1; split_and!; eauto; tauto|done..].
  subst i. rewrite (tok_list _ _ Hok), Hmar. apply wp_bind, wp_ret.
  rewrite <-HC1 in Hr.
  eapply wp_mono; [by eapply put_index_spec|]. intros o d2 (Hrel2 & Hf & Ho).
  rewrite HC1 in Hf. split_and!; [tauto|done|]. destruct o; tauto.
Qed.

(** Saving a record: the datastore represents the abstract save, and a failed
    save leaves the old table, or the new record with the old or the new
    index. *)
Lemma save_spec d m l r :
  repr t good (contents d) m l -> good (t_of t r) ->
  encodable r -> encodable (t_mk t (l ++ [t_of t r])) ->
  wp (save t r) d (fun o d' =>
    (reliable d -> reliable d') /\ touches (t_of t r) (contents d) (contents d') /\
    match o with
    | Ret _ => repr t good (contents d') (<[t_of t r := r]> m) (save_index m l (t_of t r))
    | Fail _ => ~ reliable d /\
        (repr t good (contents d') m l \/
         repr t good (contents d') (<[t_of t r := r]> m) l \/
         repr t good (contents d') (<[t_of t r := r]> m) (save_index m l (t_of t r)))
    | _ => False
    end).
Proof.
  intros Hr Hg Henc Henci. destruct (codec_roundtrip _ Henc) as (b & Hmar & Hun).
  assert (bool_decide (is_Some (contents d !! NewKey (t_text t (t_of t r))))
          = bool_decide (is_Some (m !! t_of t r))) as Hex.
  { apply bool_decide_ext. destruct Hr as [Hm _]. specialize (Hm _ Hg).
    destruct (m !! t_of t r); [destruct Hm as (? & -> & _)|rewrite Hm]; done. }
  unfold save. apply wp_bind. eapply wp_mono; [apply Has_spec|].
  intros [ex| | |] d1 (HC & Hrel & Ho); [|rewrite HC; split_and!; [done|apply touches_refl|done|by left]|done..].
  subst ex. rewrite Hex. clear Hex. rewrite <-HC in *. rewrite Hmar. apply wp_bind, wp_ret.
  apply wp_bind. eapply wp_mono; [apply Put_spec|]. intros o d2 [Hrel2 Ho].
  pose proof (repr_put_record _ _ _ _ _ Hr Hg Hun) as Hr2.
  assert (touches (t_of t r) (contents d1)
            (<[NewKey (t_text t (t_of t r)) := b]> (contents d1))) as Ht.
  { intros s Hs _. by rewrite lookup_insert_ne. }
  destruct o as [|e| |]; [| |done..].
  2: { destruct Ho as [Hnr [Ho|Ho]]; rewrite Ho; split_and!; eauto using touches_refl; tauto. }
  rewrite <-Ho in *. unfold save_index. case_bool_decide as Hin; cbn [negb].
  - rewrite decide_True by done. apply wp_ret. split_and!; eauto.
  - rewrite decide_False by done.
    eapply wp_mono; [apply (update_index_spec d2 _ l (fun l => l ++ [t_of t r]) Hr2 Henci)|].
    intros o d3 (Hrel3 & Hf & Ho3). split_and!; [tauto| |].
    + intros s Hs Hs'. rewrite Hf by done. by apply Ht.
    + destruct o; tauto.
Qed.

(** Another table is not affected by a save. *)
Lemma repr_frame C C' m l :
  repr t good C m l ->
  (forall k, good k -> C' !! NewKey (t_text t k) = C !! NewKey (t_text t k)) ->
  C' !! NewKey (t_idx t) = C !! NewKey (t_idx t) ->
  repr t good C' m l.
Proof.
  intros [Hm Hl] Hk Hi. split; [|by rewrite Hi].
  intros k Hg. rewrite Hk by done. by apply Hm.
Qed.
End Table.

(** ** The four tables of the node *)
#[global] Instance OrderKey_countable : Countable OrderKey.
Proof. by apply (inj_countable' ok_DataId MkOrderKey); intros []. Defined.
#[global] Instance Cid_countable : Countable Cid.
Proof. by apply (inj_countable' cid_str MkCid); intros []. Defined.
#[global] Instance ShardKey_countable : Countable ShardKey.
Proof.
  by apply (inj_countable' (fun k => (sk_OrderId k, sk_Cid k)) (fun p => MkShardKey p.1 p.2));
    intros [].
Defined.
#[global] Instance MigrateKey_countable : Countable MigrateKey.
Proof.
  by apply (inj_countable' (fun k => (mk_DataId k, mk_FromProvider k))
              (fun p => MkMigrateKey p.1 p.2)); intros [].
Defined.
#[global] Instance ShardExpireKey_countable : Countable ShardExpireKey.
Proof. by apply (inj_countable' ek_ShardId MkShardExpireKey); intros []. Defined.

(** Distinct identifiers print distinctly. *)
Class CidLaws `{!CidLib} := { cid_String_inj c c' : cid_String c = cid_String c' -> c = c' }.

(** Unfolds the names of the tables down to their characters. *)
Ltac key_texts :=
  unfold orderKeyText, orderShardKeyText, migrateKeyText, shardExpireKeyText,
    ORDER_INDEX_KEY, SHARD_INDEX_KEY, MIGRATE_INDEX_KEY, SHARD_EXPIRE_INDEX_KEY in *;
  autorewrite with str in *.

Section Tables.
Context `{!CidLib}.

Definition order_table : table OrderKey OrderInfo OrderIndex :=
  Table (fun k => orderKeyText (ok_DataId k)) ORDER_INDEX_KEY
    (fun o => MkOrderKey (oi_DataId o)) ox_Alls MkOrderIndex OrderInfo_zero.
Definition shard_table : table ShardKey ShardInfo ShardIndex :=
  Table (fun k => orderShardKeyText (sk_OrderId k) (sk_Cid k)) SHARD_INDEX_KEY
    (fun s => MkShardKey (si_OrderId s) (si_Cid s)) sx_All MkShardIndex ShardInfo_zero.
Definition migrate_table : table MigrateKey MigrateInfo MigrateIndex :=
  Table (fun k => migrateKeyText (mk_DataId k) (mk_FromProvider k)) MIGRATE_INDEX_KEY
    (fun m => MkMigrateKey (mi_DataId m) (mi_FromProvider m)) mx_All MkMigrateIndex
    MigrateInfo_zero.
Definition expire_table : table ShardExpireKey ShardExpireInfo ShardExpireIndex :=
  Table (fun k => shardExpireKeyText (ek_ShardId k)) SHARD_EXPIRE_INDEX_KEY
    (fun e => MkShardExpireKey (se_ShardId e)) ex_Alls MkShardExpireIndex
    ShardExpireInfo_zero.

(** The ids the tables are used with.  Data ids are uuids and addresses are
    bech32 texts, so these hold for the ids the network produces; the keys do
    clash for other ids (see [order_index_clash]). *)
Definition good_order (k : OrderKey) : Prop :=
  free_of "/" (ok_DataId k) = true /\ ok_DataId k <> "index" /\
  Contains (ok_DataId k) "-shard-" = false.
Definition good_shard (k : ShardKey) : Prop :=
  is_u64 (sk_OrderId k) /\ free_of "/" (cid_String (sk_Cid k)) = true.
Definition good_migrate (k : MigrateKey) : Prop :=
  free_of "/" (mk_DataId k) = true /\ free_of "/" (mk_FromProvider k) = true /\
  free_of "-" (mk_FromProvider k) = true.
Definition good_expire (k : ShardExpireKey) : Prop := is_u64 (ek_ShardId k).

(** Two tables that never write the same name. *)
Definition disjoint_tables {K R I K' R' I'} (t : table K R I) (good : K -> Prop)
    (t' : table K' R' I') (good' : K' -> Prop) : Prop :=
  (forall k k', good k -> good' k' -> t_text t k <> t_text t' k') /\
  (forall k, good k -> t_text t k <> t_idx t') /\
  (forall k', good' k' -> t_text t' k' <> t_idx t) /\
  t_idx t <> t_idx t'.

Lemma disjoint_tables_sym {K R I K' R' I'} (t : table K R I) good
    (t' : table K' R' I') good' :
  disjoint_tables t good t' good' -> disjoint_tables t' good' t good.
Proof. intros (H1 & H2 & H3 & H4). split_and!; eauto using not_eq_sym. Qed.

Lemma plain_app c s t :
  c <> "/"%char -> c <> "."%char -> free_of "/" s = true -> free_of "/" t = true ->
  plain (String c s +:+ t) = true.
Proof.
  intros Hc Hc' Hs Ht. unfold plain. autorewrite with str. unfold free_of in *.
  cbn [all_chars]. rewrite all_chars_app, Hs, Ht.
  rewrite (proj2 (Ascii.eqb_neq c "/") Hc), (proj2 (Ascii.eqb_neq c ".") Hc'). done.
Qed.

Lemma free_of_app sep s t :
  free_of sep s = true -> free_of sep t = true -> free_of sep (s +:+ t) = true.
Proof. unfold free_of. intros Hs Ht. by rewrite all_chars_app, Hs, Ht. Qed.

Lemma order_table_ok : table_ok order_table good_order.
Proof.
  split; cbn [order_table t_text t_idx t_list t_mk]; [done..| | |].
  - intros k (Hk & _). by apply plain_app.
  - intros [k] [k'] _ _ E. key_texts. cbn in E. by simplify_eq.
  - intros [k] (_ & Hk & _) E. key_texts. cbn in E, Hk. by simplify_eq.
Qed.

Lemma shard_table_ok `{!CidLaws} : table_ok shard_table good_shard.
Proof.
  split; cbn [shard_table t_text t_idx t_list t_mk]; [done..| | |].
  - intros k (Hn & Hc). apply plain_app; [done..|].
    apply free_of_app; [apply free_of_format_d; [apply Hn|done]|].
    by apply (free_of_app _ "-shard-").
  - intros [n c] [n' c'] (Hn & _) (Hn' & _) E. key_texts. cbn in *. simplify_eq.
    match goal with H : _ +:+ _ = _ +:+ _ |- _ => apply free_of_app_inj in H as [Hx Hy] end;
      [|apply free_of_format_d; [apply Hn || apply Hn'|done]..].
    apply format_d_inj in Hx as ->; [|done..]. simplify_eq. f_equal. by apply cid_String_inj.
  - intros [n c] _ E. key_texts. by simplify_eq.
Qed.

Lemma expire_table_ok : table_ok expire_table good_expire.
Proof.
  split; cbn [expire_table t_text t_idx t_list t_mk]; [done..| | |].
  - intros k Hk. apply plain_app; [done..|]. apply free_of_format_d; [apply Hk|done].
  - intros [n] [n'] Hn Hn' E. key_texts. cbn in *. simplify_eq. f_equal.
    by apply format_d_inj.
  - intros [n] _ E. key_texts. by simplify_eq.
Qed.

(** The provider address has no dash, so the last ["-from-"] of a migration
    name is the one the code wrote. *)
Lemma from_inj d d' f f' :
  free_of "-" f = true -> free_of "-" f' = true ->
  d +:+ "-from-" +:+ f = d' +:+ "-from-" +:+ f' -> d = d' /\ f = f'.
Proof.
  intros Hf Hf'. revert d'.
  assert (forall g, free_of "-" g = true -> forall x y, g <> x +:+ String "-" y) as Hno.
  { intros g Hg x y ->. unfold free_of in Hg. rewrite all_chars_app in Hg.
    cbn in Hg. by rewrite andb_false_r in Hg. }
  induction d as [|c d IH]; intros [|c' d'] E; autorewrite with str in E.
  - by simplify_eq.
  - exfalso. simplify_eq.
    destruct d' as [|? [|? [|? [|? [|? d']]]]]; autorewrite with str in *; simplify_eq.
    eapply (Hno _ Hf); done.
  - exfalso. simplify_eq.
    destruct d as [|? [|? [|? [|? [|? d]]]]]; autorewrite with str in *; simplify_eq.
    eapply (Hno _ Hf'); done.
  - simplify_eq. destruct (IH d') as [-> ->]; [by autorewrite with str|done].
Qed.

Lemma migrate_table_ok : table_ok migrate_table good_migrate.
Proof.
  split; cbn [migrate_table t_text t_idx t_list t_mk]; [done..| | |].
  - intros k (Hd & Hf & _). apply plain_app; [done..|].
    apply free_of_app; [done|]. by apply (free_of_app _ "-from-").
  - intros [d f] [d' f'] (_ & _ & Hf) (_ & _ & Hf') E.
    unfold migrateKeyText in E. apply (inj (String.app _)) in E. cbn in E.
    apply from_inj in E as [-> ->]; done.
  - intros [d f] _ E. key_texts. by simplify_eq.
Qed.

Lemma order_shard_disjoint :
  disjoint_tables order_table good_order shard_table good_shard.
Proof.
  unfold disjoint_tables. cbn [order_table shard_table t_text t_idx]. split_and!.
  - intros [k] [n c] (_ & _ & Hk) _ E. cbn in *. key_texts. simplify_eq.
    pose proof (Contains_app (format_d n) "-shard-" (cid_String c)) as Hc.
    autorewrite with str in Hc. congruence.
  - intros [k] _ E. key_texts. done.
  - intros [n c] _ E. cbn in *. key_texts. simplify_eq.
    destruct (format_d n) as [|? [|? [|? [|? [|? [|? s]]]]]]; autorewrite with str in *;
      simplify_eq.
  - done.
Qed.

Lemma order_migrate_disjoint :
  disjoint_tables order_table good_order migrate_table good_migrate.
Proof.
  unfold disjoint_tables. cbn [order_table migrate_table t_text t_idx].
  split_and!; intros; key_texts; done.
Qed.
Lemma order_expire_disjoint :
  disjoint_tables order_table good_order expire_table good_expire.
Proof.
  unfold disjoint_tables. cbn [order_table expire_table t_text t_idx].
  split_and!; intros; key_texts; done.
Qed.
Lemma shard_migrate_disjoint :
  disjoint_tables shard_table good_shard migrate_table good_migrate.
Proof.
  unfold disjoint_tables. cbn [shard_table migrate_table t_text t_idx].
  split_and!; intros; key_texts; done.
Qed.
Lemma shard_expire_disjoint :
  disjoint_tables shard_table good_shard expire_table good_expire.
Proof.
  unfold disjoint_tables. cbn [shard_table expire_table t_text t_idx].
  split_and!; intros; key_texts; done.
Qed.
Lemma migrate_expire_disjoint :
  disjoint_tables migrate_table good_migrate expire_table good_expire.
Proof.
  unfold disjoint_tables. cbn [migrate_table expire_table t_text t_idx].
  split_and!; intros; key_texts; done.
Qed.
End Tables.

(** ** The database of the node

    The abstract state behind the datastore: four tables. *)
Record db := Db {
  db_orders : gmap OrderKey OrderInfo;
  db_order_idx : list OrderKey;
  db_shards : gmap ShardKey ShardInfo;
  db_shard_idx : list ShardKey;
  db_migrates : gmap MigrateKey MigrateInfo;
  db_migrate_idx : list MigrateKey;
  db_expires : gmap ShardExpireKey ShardExpireInfo;
  db_expire_idx : list ShardExpireKey
}.

Definition db_empty : db := Db ∅ [] ∅ [] ∅ [] ∅ [].

(** The abstract operations. *)
Definition db_save_order (o : OrderInfo) (a : db) : db :=
  let k := MkOrderKey (oi_DataId o) in
  Db (<[k := o]> (db_orders a)) (save_index (db_orders a) (db_order_idx a) k)
    (db_shards a) (db_shard_idx a) (db_migrates a) (db_migrate_idx a)
    (db_expires a) (db_expire_idx a).
Definition db_save_shard (s : ShardInfo) (a : db) : db :=
  let k := MkShardKey (si_OrderId s) (si_Cid s) in
  Db (db_orders a) (db_order_idx a)
    (<[k := s]> (db_shards a)) (save_index (db_shards a) (db_shard_idx a) k)
    (db_migrates a) (db_migrate_idx a) (db_expires a) (db_expire_idx a).
Definition db_save_migrate (m : MigrateInfo) (a : db) : db :=
  let k := MkMigrateKey (mi_DataId m) (mi_FromProvider m) in
  Db (db_orders a) (db_order_idx a) (db_shards a) (db_shard_idx a)
    (<[k := m]> (db_migrates a)) (save_index (db_migrates a) (db_migrate_idx a) k)
    (db_expires a) (db_expire_idx a).
Definition db_save_expire (e : ShardExpireInfo) (a : db) : db :=
  let k := MkShardExpireKey (se_ShardId e) in
  Db (db_orders a) (db_order_idx a) (db_shards a) (db_shard_idx a)
    (db_migrates a) (db_migrate_idx a)
    (<[k := e]> (db_expires a)) (save_index (db_expires a) (db_expire_idx a) k).

(** Every index lists the stored ids, each once. *)
Definition db_consistent (a : db) : Prop :=
  consistent (db_orders a) (db_order_idx a) /\
  consistent (db_shards a) (db_shard_idx a) /\
  consistent (db_migrates a) (db_migrate_idx a) /\
  consistent (db_expires a) (db_expire_idx a).
