(* ===== verification/Cbor.v ===== *)
(** * CBOR codecs of the persistent records and messages ([types/cbor_gen.go])

    The file [types/cbor_gen.go] has a [MarshalCBOR] and an [UnmarshalCBOR] per
    type.  They all have one shape: a struct is a CBOR map from field names to
    values; the encoder writes the map header, then each field's name and value
    in the order of the struct; the decoder reads the number of entries and, for
    each, a name that selects the field to read (an unknown name is skipped).
    The shape is modelled once ([marshal_struct], [unmarshal_struct]) over a list
    of field descriptors, and each type's pair of methods is that shape at the
    type's own list and header byte.

    The primitives of the cbor-gen run time (headers, strings, cids) are the
    interface [CborLib], with the round trips of RFC 8949 as its laws; [Module
    Rfc8949] implements it. *)
From stdpp Require Import base list gmap strings sorting.
From Stdlib Require Import ZArith Lia Ascii.
From Stdlib Require Strings.Byte.
From S2P Require Import Prelude Types StateUtils.

(** ** The run time of cbor-gen *)
Definition MajUnsignedInt : Z := 0.
Definition MajNegativeInt : Z := 1.
Definition MajByteString : Z := 2.
Definition MajTextString : Z := 3.
Definition MajArray : Z := 4.
Definition MajMap : Z := 5.
Definition MajOther : Z := 7.

(** A reader is the list of the bytes that are left. *)
Class CborLib := {
  MaxLength : Z;
  ByteArrayMaxLen : Z;
  WriteMajorTypeHeader : Z -> Z -> bytes;
  ReadHeader : bytes -> (Z * Z * bytes) + error;
  ReadString : bytes -> (string * bytes) + error;
  WriteBool : bool -> bytes;
  WriteCid : Cid -> bytes + error;
  ReadCid : bytes -> (Cid * bytes) + error;
  ScanForLinks : bytes -> bytes
}.

Definition byte_of_Z (z : Z) : byte :=
  match Strings.Byte.of_N (Z.to_N z) with Some b => b | None => Byte.x00 end.

Class CborLaws `{!CborLib} := {
  MaxLength_bounds : 64 <= MaxLength < two63;
  ByteArrayMaxLen_bounds : 0 <= ByteArrayMaxLen < two63;
  header_roundtrip maj n rest : 0 <= maj < 8 -> is_u64 n ->
    ReadHeader (WriteMajorTypeHeader maj n ++ rest) = inl (maj, n, rest);
  map_header n rest : 0 <= n < 24 ->
    ReadHeader (byte_of_Z (160 + n) :: rest) = inl (MajMap, n, rest);
  string_roundtrip s rest : Z.of_nat (String.length s) <= MaxLength ->
    ReadString (WriteMajorTypeHeader MajTextString (Z.of_nat (String.length s))
                ++ string_bytes s ++ rest) = inl (s, rest);
  bool_header b rest :
    ReadHeader (WriteBool b ++ rest) = inl (MajOther, if b then 21 else 20, rest);
  ReadHeader_u64 r maj extra rest : ReadHeader r = inl (maj, extra, rest) -> is_u64 extra;
  (* the identifiers the cid library can build, cid.Undef apart *)
  cid_valid : Cid -> Prop;
  cid_roundtrip c : cid_valid c ->
    exists b, WriteCid c = inl b /\ forall rest, ReadCid (b ++ rest) = inl (c, rest);
  ReadCid_valid r c rest : ReadCid r = inl (c, rest) -> cid_valid c;
  WriteCid_Undef : exists e, WriteCid Undef = inr e
}.

(** ** Pure results *)
Definition rbind {A B} (r : A + error) (k : A -> B + error) : B + error :=
  match r with inl a => k a | inr e => inr e end.
(** [if err != nil { return xerrors.Errorf("...: %w", err) }] *)
Definition wrap_err {A} (what : string) (r : A + error) : A + error :=
  match r with inl a => inl a | inr e => inr (EWrapText what e) end.
Notation "x <-r m ;; k" := (rbind m (fun x => k))
  (at level 100, m at next level, right associativity) : go_scope.

(** ** Descriptors of values and of struct fields *)
Record vcodec (V : Type) := VCodec {
  v_write : V -> bytes + error;
  v_read : bytes -> (V * bytes) + error
}.
Arguments VCodec {V}.
Arguments v_write {V}.
Arguments v_read {V}.

Record field (T : Type) := Field {
  f_name : string;
  f_write : T -> bytes + error;
  f_read : T -> bytes -> (T * bytes) + error
}.
Arguments Field {T}.
Arguments f_name {T}.
Arguments f_write {T}.
Arguments f_read {T}.

(** ** The shapes of the generated methods *)
Section Shapes.
Context `{!CborLib}.

Definition write_text (what : string) (s : string) : bytes + error :=
  if MaxLength <? Z.of_nat (String.length s)
  then inr (EText ("Value in field " +:+ what +:+ " was too long"))
  else inl (WriteMajorTypeHeader MajTextString (Z.of_nat (String.length s)) ++ string_bytes s).

Definition string_vc (what : string) : vcodec string := VCodec (write_text what) ReadString.

Definition uint64_vc : vcodec Z := VCodec
  (fun n => inl (WriteMajorTypeHeader MajUnsignedInt n))
  (fun r => h <-r ReadHeader r ;;
     let '(maj, extra, r) := h in
     if negb (maj =? MajUnsignedInt) then inr (EText "wrong type for uint64 field")
     else inl (extra, r)).

Definition int64_vc : vcodec Z := VCodec
  (fun n =>
     if 0 <=? n then inl (WriteMajorTypeHeader MajUnsignedInt n)
     else inl (WriteMajorTypeHeader MajNegativeInt (wrap_u64 (wrap_i64 (- n - 1)))))
  (fun r => h <-r ReadHeader r ;;
     let '(maj, extra, r) := h in
     let extraI := wrap_i64 extra in
     if maj =? MajUnsignedInt then
       if extraI <? 0 then inr (EText "int64 positive overflow") else inl (extraI, r)
     else if maj =? MajNegativeInt then
       if extraI <? 0 then inr (EText "int64 negative oveflow") else inl (-1 - extraI, r)
     else inr (EText ("wrong type for int64 field: " +:+ format_d maj))).

Definition cid_vc (wr rd : string) : vcodec Cid := VCodec
  (fun c => wrap_err wr (WriteCid c)) (fun r => wrap_err rd (ReadCid r)).

Definition bool_vc : vcodec bool := VCodec
  (fun b => inl (WriteBool b))
  (fun r => h <-r ReadHeader r ;;
     let '(maj, extra, r) := h in
     if negb (maj =? MajOther) then inr (EText "booleans must be major type 7") else
     if extra =? 20 then inl (false, r) else
     if extra =? 21 then inl (true, r) else
     inr (EText ("booleans are either major type 7, value 20 or 21 (got "
                 +:+ format_d extra +:+ ")"))).

(** [io.ReadFull] into a slice of length [n]. *)
Definition read_full (n : nat) (r : bytes) : (bytes * bytes) + error :=
  if (length r <? n)%nat
  then inr (EText (match r with [] => "EOF" | _ => "unexpected EOF" end))
  else inl (take n r, drop n r).

Definition bytes_vc (what : string) : vcodec bytes := VCodec
  (fun l =>
     if ByteArrayMaxLen <? Z.of_nat (length l)
     then inr (EText ("Byte array in field " +:+ what +:+ " was too long"))
     else inl (WriteMajorTypeHeader MajByteString (Z.of_nat (length l)) ++ l))
  (fun r => h <-r ReadHeader r ;;
     let '(maj, extra, r) := h in
     if ByteArrayMaxLen <? extra
     then inr (EText (what +:+ ": byte array too large (" +:+ format_d extra +:+ ")")) else
     if negb (maj =? MajByteString) then inr (EText "expected byte array") else
     read_full (Z.to_nat extra) r).

(** A nested struct. *)
Definition struct_vc {V} (what : string) (c : vcodec V) : vcodec V := VCodec
  (v_write c) (fun r => wrap_err ("unmarshaling " +:+ what) (v_read c r)).

(** A slice of structs, and a map from strings to structs with its keys in
    increasing order. *)
Fixpoint write_seq {V} (w : V -> bytes + error) (l : list V) : bytes + error :=
  match l with
  | [] => inl []
  | v :: l' => b <-r w v ;; bs <-r write_seq w l' ;; inl (b ++ bs)
  end.
Fixpoint read_seq {V} (rd : bytes -> (V * bytes) + error) (n : nat) (r : bytes) :
    (list V * bytes) + error :=
  match n with
  | O => inl ([], r)
  | S n' => vr <-r rd r ;; let '(v, r) := vr in
            lr <-r read_seq rd n' r ;; let '(l, r) := lr in inl (v :: l, r)
  end.

Definition slice_vc {V} (what : string) (c : vcodec V) : vcodec (list V) := VCodec
  (fun l =>
     if MaxLength <? Z.of_nat (length l)
     then inr (EText ("Slice value in field " +:+ what +:+ " was too long")) else
     bs <-r write_seq (v_write c) l ;;
     inl (WriteMajorTypeHeader MajArray (Z.of_nat (length l)) ++ bs))
  (fun r => h <-r ReadHeader r ;;
     let '(maj, extra, r) := h in
     if MaxLength <? extra then 
       inr (EText (what +:+ ": array too large (" +:+ format_d extra +:+ ")")) else
     if negb (maj =? MajArray) then inr (EText "expected cbor array") else
     read_seq (v_read c) (Z.to_nat extra) r).

Definition entry_vc {V} (c : vcodec V) : vcodec (string * V) := VCodec
  (fun kv => b <-r write_text "k" kv.1 ;; bs <-r v_write c kv.2 ;; inl (b ++ bs))
  (fun r => kr <-r ReadString r ;; let '(k, r) := kr in
            vr <-r v_read (struct_vc "v" c) r ;; let '(v, r) := vr in inl ((k, v), r)).

(** [sort.Strings] on the keys of a map. *)
Definition sorted_entries {V} (m : gmap string V) : list (string * V) :=
  merge_sort (fun p q => String.le p.1 q.1) (map_to_list m).

Definition map_vc {V} (what : string) (c : vcodec V) : vcodec (gmap string V) := VCodec
  (fun m =>
     if 4096 <? Z.of_nat (size m)
     then inr (EText ("cannot marshal " +:+ what +:+ " map too large")) else
     bs <-r write_seq (v_write (entry_vc c)) (sorted_entries m) ;;
     inl (WriteMajorTypeHeader MajMap (Z.of_nat (size m)) ++ bs))
  (fun r => h <-r ReadHeader r ;;
     let '(maj, extra, r) := h in
     if negb (maj =? MajMap) then inr (EText "expected a map (major type 5)") else
     if 4096 <? extra then inr (EText (what +:+ ": map too large")) else
     lr <-r read_seq (v_read (entry_vc c)) (Z.to_nat extra) r ;;
     let '(l, r) := lr in
     (* t.Shards[k] = v for each entry read: a later one overwrites *)
     inl (foldl (fun m kv => <[kv.1 := kv.2]> m) ∅ l, r)).

(** *** Structs *)
Definition fld {T V} (name : string) (c : vcodec V) (get : T -> V) (set : V -> T -> T) :
    field T :=
  Field name (fun t => v_write c (get t))
    (fun t r => vr <-r v_read c r ;; let '(v, r) := vr in inl (set v t, r)).

Definition quoted (s : string) : string := String "034" (s +:+ String "034" "").

Definition write_field {T} (t : T) (f : field T) : bytes + error :=
  b <-r write_text (quoted (f_name f)) (f_name f) ;; bs <-r f_write f t ;; inl (b ++ bs).

Fixpoint write_fields {T} (t : T) (fs : list (field T)) : bytes + error :=
  match fs with
  | [] => inl []
  | f :: fs' => b <-r write_field t f ;; bs <-r write_fields t fs' ;; inl (b ++ bs)
  end.

(** [head] is the literal byte the method writes first. *)
Definition marshal_struct {T} (head : Z) (fs : list (field T)) (t : T) : bytes + error :=
  bs <-r write_fields t fs ;; inl (byte_of_Z head :: bs).

Definition find_field {T} (name : string) (fs : list (field T)) : option (field T) :=
  List.find (fun f => bool_decide (f_name f = name)) fs.

Fixpoint read_fields {T} (fs : list (field T)) (n : nat) (t : T) (r : bytes) :
    (T * bytes) + error :=
  match n with
  | O => inl (t, r)
  | S n' =>
      nr <-r ReadString r ;; let '(name, r) := nr in
      match find_field name fs with
      | Some f => tr <-r f_read f t r ;; let '(t, r) := tr in read_fields fs n' t r
      | None => read_fields fs n' t (ScanForLinks r)
      end
  end.

(** The deferred function: an [io.EOF] inside a struct is unexpected. *)
Definition eof_unexpected {A} (r : A + error) : A + error :=
  match r with
  | inr (EText e) => inr (EText (if String.eqb e "EOF" then "unexpected EOF" else e))
  | _ => r
  end.

Definition unmarshal_struct {T} (name : string) (zero : T) (fs : list (field T)) (r : bytes) :
    (T * bytes) + error :=
  h <-r ReadHeader r ;;
  let '(maj, extra, r) := h in
  if negb (maj =? MajMap) then inr (EText "cbor input should be of type map") else
  if MaxLength <? extra then inr 
    (EText (name +:+ ": map struct too large (" +:+ format_d extra +:+ ")")) else
  eof_unexpected (read_fields fs (Z.to_nat extra) zero r).
End Shapes.

(** ** Round trips of the shapes *)

(** Bounds of lengths and major types. *)
Ltac cbor_lia :=
  unfold MajUnsignedInt, MajNegativeInt, MajByteString, MajTextString, MajArray, MajMap,
    is_u64, is_i64, two63, two64 in *; lia.

Section ShapeLaws.
Context `{!CborLib, !CborLaws}.

(** Every value in [wf] is written, and read back whatever follows it. *)
Definition vc_ok {V} (c : vcodec V) (wf : V -> Prop) : Prop :=
  forall v, wf v -> exists b, v_write c v = inl b /\
    forall rest, v_read c (b ++ rest) = inl (v, rest).

Definition text_ok (s : string) : Prop := Z.of_nat (String.length s) <= MaxLength.

Lemma len_u64 n : Z.of_nat n <= MaxLength -> is_u64 (Z.of_nat n).
Proof.
  pose proof MaxLength_bounds. unfold is_u64, two63, two64 in *. lia.
Qed.

Lemma write_text_ok what s : text_ok s ->
  exists b, write_text what s = inl b /\ forall rest, ReadString (b ++ rest) = inl (s, rest).
Proof.
  intros Hs. unfold write_text.
  destruct (Z.ltb_spec MaxLength (Z.of_nat (String.length s))); [unfold text_ok in *; lia|].
  eexists. split; [done|]. intros rest. rewrite <-app_assoc. by apply string_roundtrip.
Qed.

Lemma string_vc_ok what : vc_ok (string_vc what) text_ok.
Proof. intros s Hs. by apply write_text_ok. Qed.

Lemma uint64_vc_ok : vc_ok uint64_vc is_u64.
Proof.
  intros n Hn. eexists. split; [done|]. intros rest. cbn.
  by rewrite header_roundtrip by cbor_lia.
Qed.

Lemma int64_vc_ok : vc_ok int64_vc is_i64.
Proof.
  intros n Hn. unfold is_i64 in Hn. cbn. destruct (Z.leb_spec 0 n).
  - eexists. split; [done|]. intros rest. cbn.
    rewrite header_roundtrip by cbor_lia. cbn.
    rewrite wrap_i64_small by cbor_lia.
    by destruct (Z.ltb_spec n 0); [lia|].
  - eexists. split; [done|]. intros rest. cbn.
    rewrite (wrap_i64_small (- n - 1)) by cbor_lia.
    rewrite wrap_u64_small by cbor_lia.
    rewrite header_roundtrip by cbor_lia. cbn.
    rewrite wrap_i64_small by cbor_lia.
    destruct (Z.ltb_spec (- n - 1) 0); [lia|]. do 2 f_equal. lia.
Qed.

Lemma cid_vc_ok wr rd : vc_ok (cid_vc wr rd) cid_valid.
Proof.
  intros c (b & Hb & Hr)%cid_roundtrip. exists b. cbn. rewrite Hb. split; [done|].
  intros rest. by rewrite Hr.
Qed.

Lemma bool_vc_ok : vc_ok bool_vc (fun _ => True).
Proof.
  intros b _. eexists. split; [done|]. intros rest. cbn. rewrite bool_header.
  by destruct b.
Qed.

Definition bytes_ok (l : bytes) : Prop := Z.of_nat (length l) <= ByteArrayMaxLen.

Lemma bytes_vc_ok what : vc_ok (bytes_vc what) bytes_ok.
Proof.
  intros l Hl. unfold bytes_ok in Hl. pose proof ByteArrayMaxLen_bounds. cbn.
  destruct (Z.ltb_spec ByteArrayMaxLen (Z.of_nat (length l))); [lia|].
  eexists. split; [done|]. intros rest. cbn. rewrite <-app_assoc.
  rewrite header_roundtrip by cbor_lia. cbn.
  destruct (Z.ltb_spec ByteArrayMaxLen (Z.of_nat (length l))); [lia|].
  unfold read_full. rewrite Nat2Z.id, length_app.
  destruct (Nat.ltb_spec (length l + length rest) (length l)); [lia|].
  by rewrite take_app_length, drop_app_length.
Qed.

Lemma struct_vc_ok {V} what (c : vcodec V) wf : vc_ok c wf -> vc_ok (struct_vc what c) wf.
Proof.
  intros Hc v Hv. destruct (Hc v Hv) as (b & Hb & Hr). exists b. split; [done|].
  intros rest. cbn. by rewrite Hr.
Qed.

Lemma seq_ok {V} (c : vcodec V) wf l :
  vc_ok c wf -> Forall wf l ->
  exists b, write_seq (v_write c) l = inl b /\
    forall rest, read_seq (v_read c) (length l) (b ++ rest) = inl (l, rest).
Proof.
  intros Hc Hl. induction Hl as [|v l Hv Hl (bs & Hw & Hr)]; [by exists []|].
  destruct (Hc v Hv) as (b & Hb & Hrb). exists (b ++ bs). cbn. rewrite Hb, Hw. split; [done|].
  intros rest. rewrite <-app_assoc, Hrb. cbn. by rewrite Hr.
Qed.

Lemma slice_vc_ok {V} what (c : vcodec V) wf :
  vc_ok c wf ->
  vc_ok (slice_vc what c) (fun l => Z.of_nat (length l) <= MaxLength /\ Forall wf l).
Proof.
  intros Hc l [Hlen Hl]. destruct (seq_ok c wf l Hc Hl) as (bs & Hw & Hr). cbn.
  destruct (Z.ltb_spec MaxLength (Z.of_nat (length l))); [lia|].
  rewrite Hw. eexists. split; [done|]. intros rest. cbn. rewrite <-app_assoc.
  rewrite header_roundtrip by (cbor_lia || by apply len_u64). cbn.
  destruct (Z.ltb_spec MaxLength (Z.of_nat (length l))); [lia|].
  by rewrite Nat2Z.id, Hr.
Qed.

Lemma entry_vc_ok {V} (c : vcodec V) wf :
  vc_ok c wf -> vc_ok (entry_vc c) (fun kv => text_ok kv.1 /\ wf kv.2).
Proof.
  intros Hc [k v] [Hk Hv]. cbn in *.
  destruct (write_text_ok "k" k Hk) as (b & Hb & Hrb).
  destruct (Hc v Hv) as (b' & Hb' & Hrb').
  exists (b ++ b'). rewrite Hb. cbn. rewrite Hb'. split; [done|]. intros rest.
  rewrite <-app_assoc, Hrb. cbn. by rewrite Hrb'.
Qed.

Lemma sorted_entries_perm {V} (m : gmap string V) : sorted_entries m ≡ₚ map_to_list m.
Proof. apply merge_sort_Permutation. Qed.

Lemma foldl_insert_entries {V} (l : list (string * V)) (m : gmap string V) :
  NoDup l.*1 -> (forall k, k ∈ l.*1 -> m !! k = None) ->
  foldl (fun m kv => <[kv.1 := kv.2]> m) m l = list_to_map l ∪ m.
Proof.
  revert m. induction l as [|[k v] l IH]; intros m Hnd Hm; cbn.
  - by rewrite (left_id_L ∅ (∪)).
  - cbn in Hnd. apply NoDup_cons in Hnd as [Hk Hnd].
    rewrite IH; [|done|].
    + rewrite <-insert_union_r, <-insert_union_l; [done|].
      by apply not_elem_of_list_to_map_1.
    + intros k' Hk'. rewrite lookup_insert_ne by (intros ->; done).
      apply Hm. cbn. by right.
Qed.

Lemma map_vc_ok {V} what (c : vcodec V) wf :
  vc_ok c wf ->
  vc_ok (map_vc what c) (fun m => Z.of_nat (size m) <= 4096 /\
                           map_Forall (fun k v => text_ok k /\ wf v) m).
Proof.
  intros Hc m [Hsz Hm].
  assert (length (sorted_entries m) = size m) as Hlen.
  { rewrite sorted_entries_perm. apply length_map_to_list. }
  destruct (seq_ok _ _ (sorted_entries m) (entry_vc_ok c wf Hc)) as (bs & Hw & Hr).
  { rewrite sorted_entries_perm. apply map_Forall_to_list in Hm.
    eapply Forall_impl; [exact Hm|]. by intros [k v]. }
  unfold map_vc. cbn [v_write v_read].
  destruct (Z.ltb_spec 4096 (Z.of_nat (size m))); [lia|].
  rewrite Hw. eexists. split; [done|]. intros rest. rewrite <-app_assoc.
  rewrite header_roundtrip by cbor_lia. cbn [rbind Z.eqb negb MajMap Pos.eqb].
  destruct (Z.ltb_spec 4096 (Z.of_nat (size m))); [lia|].
  rewrite Nat2Z.id, <-Hlen, Hr. cbn [rbind]. do 2 f_equal.
  assert (NoDup (sorted_entries m).*1) as Hnd.
  { rewrite sorted_entries_perm. apply NoDup_fst_map_to_list. }
  rewrite foldl_insert_entries; [|done|intros; apply lookup_empty].
  rewrite (right_id_L ∅ (∪)). etrans; [|apply list_to_map_to_list].
  apply list_to_map_proper; [done|apply sorted_entries_perm].
Qed.

(** *** Structs *)

(** A field whose value is written, and copied into the struct being read. *)
Definition field_ok {T} (wf : T -> Prop) (set : T -> T -> T) (f : field T) : Prop :=
  text_ok (f_name f) /\
  forall t, wf t -> exists b, f_write f t = inl b /\
    forall acc rest, f_read f acc (b ++ rest) = inl (set t acc, rest).

Lemma fld_ok {T V} (wf : T -> Prop) (P : V -> Prop) name c (get : T -> V) set :
  vc_ok c P -> text_ok name -> (forall t, wf t -> P (get t)) ->
  field_ok wf (fun t => set (get t)) (fld name c get set).
Proof.
  intros Hc Hn Hget. split; [done|]. intros t Ht.
  destruct (Hc (get t) (Hget t Ht)) as (b & Hb & Hr).
  exists b. split; [done|]. intros acc rest. cbn. by rewrite Hr.
Qed.

Lemma find_field_in {T} (fs : list (field T)) f :
  NoDup (map f_name fs) -> In f fs -> find_field (f_name f) fs = Some f.
Proof.
  induction fs as [|g fs IH]; cbn; [done|]. intros [Hg Hnd]%NoDup_cons [->|Hin].
  - by rewrite bool_decide_true.
  - case_bool_decide as E.
    + destruct Hg. rewrite E. apply list_elem_of_In. by apply in_map.
    + by apply IH.
Qed.

(** Reading the fields of [t] one after the other, from any accumulator. *)
Lemma read_fields_ok {T} (wf : T -> Prop) (all : list (field T)) fs sets t :
  NoDup (map f_name all) -> incl fs all -> wf t -> Forall2 (field_ok wf) sets fs ->
  exists b, write_fields t fs = inl b /\
    forall acc rest, read_fields all (length fs) acc (b ++ rest)
                     = inl (foldl (fun a set => set t a) acc sets, rest).
Proof.
  intros Hnd Hin Ht HF. revert Hin.
  induction HF as [|set f sets fs [Hn Hf] _ IH]; intros Hin; [by exists []|].
  destruct IH as (bs & Hw & Hr); [by intros g ?; apply Hin; right|].
  destruct (write_text_ok (quoted (f_name f)) (f_name f) Hn) as (bn & Hbn & Hrn).
  destruct (Hf t Ht) as (b & Hb & Hrb).
  exists ((bn ++ b) ++ bs). cbn. unfold write_field. rewrite Hbn. cbn. rewrite Hb. cbn.
  rewrite Hw. split; [done|]. intros acc rest.
  rewrite <-!app_assoc, Hrn. cbn.
  rewrite find_field_in by (done || by apply Hin; left). rewrite Hrb. cbn. by rewrite Hr.
Qed.

(** What is read keeps a property of the zero value that every field keeps. *)
Lemma read_fields_inv {T} (Q : T -> Prop) (fs : list (field T)) :
  Forall (fun f => forall t r t' r', Q t -> f_read f t r = inl (t', r') -> Q t') fs ->
  forall n t r t' r', Q t -> read_fields fs n t r = inl (t', r') -> Q t'.
Proof.
  intros Hfs n. induction n as [|n IH]; intros t r t' r' Ht; cbn; [by intros [= <- <-]|].
  destruct (ReadString r) as [[name r1]|]; cbn; [|done].
  unfold find_field. destruct (List.find _ fs) as [f|] eqn:Ef; [|by apply IH].
  apply List.find_some in Ef as [Hin _]. rewrite List.Forall_forall in Hfs.
  specialize (Hfs f Hin). destruct (f_read f t r1) as [[t2 r2]|] eqn:E; cbn; [|done].
  apply IH. by eapply Hfs.
Qed.

Lemma unmarshal_inv {T} (Q : T -> Prop) name (zero : T) (fs : list (field T)) r t rest :
  Forall (fun f => forall t r t' r', Q t -> f_read f t r = inl (t', r') -> Q t') fs ->
  Q zero -> unmarshal_struct name zero fs r = inl (t, rest) -> Q t.
Proof.
  intros Hfs Hz. unfold unmarshal_struct, rbind.
  destruct (ReadHeader r) as [[[maj extra] r1]|]; [|done].
  destruct (negb (maj =? MajMap)); [done|]. destruct (MaxLength <? extra); [done|].
  unfold eof_unexpected. destruct (read_fields _ _ _ _) as [[t1 r2]|[]] eqn:E; [|done..].
  intros [= <- <-]. by eapply read_fields_inv.
Qed.

(** A field read with a codec whose values all satisfy [P]. *)
Lemma fld_inv {T V} (Q : T -> Prop) (P : V -> Prop) name (c : vcodec V) get set :
  (forall r v r', v_read c r = inl (v, r') -> P v) ->
  (forall v t, P v -> Q t -> Q (set v t)) ->
  forall (t : T) r t' r', Q t -> f_read (fld name c get set) t r = inl (t', r') -> Q t'.
Proof.
  intros Hc Hset t r t' r' Ht. cbn. destruct (v_read c r) as [[v r1]|] eqn:E; cbn; [|done].
  intros [= <- <-]. eauto.
Qed.

Lemma uint64_read r v r' : v_read uint64_vc r = inl (v, r') -> is_u64 v.
Proof.
  cbn. destruct (ReadHeader r) as [[[maj extra] r1]|] eqn:E; cbn; [|done].
  destruct (negb _); [done|]. intros [= <- <-]. by eapply ReadHeader_u64.
Qed.

Lemma int64_read r v r' : v_read int64_vc r = inl (v, r') -> is_i64 v.
Proof.
  cbn. destruct (ReadHeader r) as [[[maj extra] r1]|] eqn:E; cbn; [|done].
  pose proof (wrap_i64_range extra) as Hr. unfold is_i64, two63 in *.
  destruct (maj =? MajUnsignedInt).
  - destruct (wrap_i64 extra <? 0); [done|]. by intros [= <- <-].
  - destruct (maj =? MajNegativeInt); [|done].
    destruct (Z.ltb_spec (wrap_i64 extra) 0); [done|]. intros [= <- <-]. lia.
Qed.

Lemma cid_read wr rd r c r' : v_read (cid_vc wr rd) r = inl (c, r') -> cid_valid c.
Proof.
  cbn. destruct (ReadCid r) as [[c1 r1]|] eqn:E; cbn; [|done]. intros [= <- <-].
  by eapply ReadCid_valid.
Qed.

Lemma slice_read {V} (P : V -> Prop) what (c : vcodec V) :
  (forall r v r', v_read c r = inl (v, r') -> P v) ->
  forall r l r', v_read (slice_vc what c) r = inl (l, r') -> Forall P l.
Proof.
  intros Hc r l r'. cbn. destruct (ReadHeader r) as [[[maj extra] r1]|]; cbn; [|done].
  destruct (MaxLength <? extra); [done|]. destruct (negb _); [done|].
  generalize (Z.to_nat extra) as n. intros n. revert r1 l r'.
  induction n as [|n IH]; intros r1 l r'; cbn; [by intros [= <- <-]|].
  destruct (v_read c r1) as [[v r2]|] eqn:E; cbn; [|done].
  destruct (read_seq _ n r2) as [[l' r3]|] eqn:E'; cbn; [|done]. intros [= <- <-]. eauto.
Qed.

Lemma Undef_invalid : ~ cid_valid Undef.
Proof.
  intros (b & Hb & _)%cid_roundtrip. destruct WriteCid_Undef as [e He]. congruence.
Qed.

(** A struct type: reading back what was written gives the value. *)
Lemma struct_ok {T} (wf : T -> Prop) head name (zero : T) (fs : list (field T)) sets :
  head = 160 + Z.of_nat (length fs) -> (length fs < 24)%nat ->
  NoDup (map f_name fs) -> Forall2 (field_ok wf) sets fs ->
  (forall t, foldl (fun a set => set t a) zero sets = t) ->
  vc_ok (VCodec (marshal_struct head fs) (unmarshal_struct name zero fs)) wf.
Proof.
  intros Hhead Hlen Hnd Hfs Hall t Ht.
  destruct (read_fields_ok wf fs fs sets t Hnd (incl_refl _) Ht Hfs) as (b & Hw & Hr).
  cbn. unfold marshal_struct, unmarshal_struct. rewrite Hw. eexists. split; [done|].
  intros rest. cbn. subst head. rewrite map_header by lia. cbn.
  destruct (Z.ltb_spec MaxLength (Z.of_nat (length fs)));
    [pose proof MaxLength_bounds; lia|].
  rewrite Nat2Z.id, Hr. by rewrite Hall.
Qed.
End ShapeLaws.
