(* ===== verification/CborTypes.v ===== *)
(** * The generated codecs ([types/cbor_gen.go])

    Each type's [MarshalCBOR] and [UnmarshalCBOR], as the shape of [Cbor] at the
    type's fields, in the order of the generated code, and at the header byte the
    generated code writes; [T_wf] are the values [MarshalCBOR] accepts and
    [UnmarshalCBOR] gives back, and [T_ok] is the round trip of the type, also
    when other bytes follow. The instances of [Codec] are what
    [utils/state_utils.go] uses for the records it stores.

    Receivers are never nil in the program, so the [CborNull] branch of the
    encoders is left out. *)
From stdpp Require Import base list gmap strings.
From Stdlib Require Import ZArith Lia Ascii.
From S2P Require Import Prelude Types StateUtils Cbor.

Section Types.
Context `{!CborLib, !CborLaws}.

Definition slice_ok {V} (wf : V -> Prop) (l : list V) : Prop :=
  Z.of_nat (length l) <= MaxLength /\ Forall wf l.
Definition map_ok {V} (wf : V -> Prop) (m : gmap string V) : Prop :=
  Z.of_nat (size m) <= 4096 /\ map_Forall (fun k v => text_ok k /\ wf v) m.

(** *** [ShardExpireKey] *)
Definition ShardExpireKey_fields : list (field ShardExpireKey) := [
  fld "ShardId" uint64_vc ek_ShardId
    (fun v _ => MkShardExpireKey v)].
Definition ShardExpireKey_MarshalCBOR (t : ShardExpireKey) : bytes + error :=
  marshal_struct 161 ShardExpireKey_fields t.
Definition ShardExpireKey_UnmarshalCBOR (r : bytes) : (ShardExpireKey * bytes) + error :=
  unmarshal_struct "ShardExpireKey" (MkShardExpireKey 0) ShardExpireKey_fields r.
Definition ShardExpireKey_codec : vcodec ShardExpireKey :=
  VCodec ShardExpireKey_MarshalCBOR ShardExpireKey_UnmarshalCBOR.
Definition ShardExpireKey_wf (t : ShardExpireKey) : Prop :=
  is_u64 (ek_ShardId t).

(** *** [ShardExpireIndex] *)
Definition ShardExpireIndex_fields : list (field ShardExpireIndex) := [
  fld "Alls" (slice_vc "t.Alls" ShardExpireKey_codec) ex_Alls
    (fun v _ => MkShardExpireIndex v)].
Definition ShardExpireIndex_MarshalCBOR (t : ShardExpireIndex) : bytes + error :=
  marshal_struct 161 ShardExpireIndex_fields t.
Definition ShardExpireIndex_UnmarshalCBOR (r : bytes) : (ShardExpireIndex * bytes) + error :=
  unmarshal_struct "ShardExpireIndex" (MkShardExpireIndex []) ShardExpireIndex_fields r.
Definition ShardExpireIndex_codec : vcodec ShardExpireIndex :=
  VCodec ShardExpireIndex_MarshalCBOR ShardExpireIndex_UnmarshalCBOR.
Definition ShardExpireIndex_wf (t : ShardExpireIndex) : Prop :=
  slice_ok ShardExpireKey_wf (ex_Alls t).

(** *** [ShardExpireInfo] *)
Definition ShardExpireInfo_fields : list (field ShardExpireInfo) := [
  fld "ShardId" uint64_vc se_ShardId
    (fun v t => MkShardExpireInfo v (se_Cid t) (se_OrderId t));
  fld "Cid" (string_vc "t.Cid") se_Cid
    (fun v t => MkShardExpireInfo (se_ShardId t) v (se_OrderId t));
  fld "OrderId" uint64_vc se_OrderId
    (fun v t => MkShardExpireInfo (se_ShardId t) (se_Cid t) v)].
Definition ShardExpireInfo_MarshalCBOR (t : ShardExpireInfo) : bytes + error :=
  marshal_struct 163 ShardExpireInfo_fields t.
Definition ShardExpireInfo_UnmarshalCBOR (r : bytes) : (ShardExpireInfo * bytes) + error :=
  unmarshal_struct "ShardExpireInfo" ShardExpireInfo_zero ShardExpireInfo_fields r.
Definition ShardExpireInfo_codec : vcodec ShardExpireInfo :=
  VCodec ShardExpireInfo_MarshalCBOR ShardExpireInfo_UnmarshalCBOR.
Definition ShardExpireInfo_wf (t : ShardExpireInfo) : Prop :=
  is_u64 (se_ShardId t) /\ text_ok (se_Cid t) /\ is_u64 (se_OrderId t).

(** *** [OrderKey] *)
Definition OrderKey_fields : list (field OrderKey) := [
  fld "DataId" (string_vc "t.DataId") ok_DataId
    (fun v _ => MkOrderKey v)].
Definition OrderKey_MarshalCBOR (t : OrderKey) : bytes + error :=
  marshal_struct 161 OrderKey_fields t.
Definition OrderKey_UnmarshalCBOR (r : bytes) : (OrderKey * bytes) + error :=
  unmarshal_struct "OrderKey" (MkOrderKey "") OrderKey_fields r.
Definition OrderKey_codec : vcodec OrderKey :=
  VCodec OrderKey_MarshalCBOR OrderKey_UnmarshalCBOR.
Definition OrderKey_wf (t : OrderKey) : Prop :=
  text_ok (ok_DataId t).

(** *** [OrderIndex] *)
Definition OrderIndex_fields : list (field OrderIndex) := [
  fld "Alls" (slice_vc "t.Alls" OrderKey_codec) ox_Alls
    (fun v _ => MkOrderIndex v)].
Definition OrderIndex_MarshalCBOR (t : OrderIndex) : bytes + error :=
  marshal_struct 161 OrderIndex_fields t.
Definition OrderIndex_UnmarshalCBOR (r : bytes) : (OrderIndex * bytes) + error :=
  unmarshal_struct "OrderIndex" (MkOrderIndex []) OrderIndex_fields r.
Definition OrderIndex_codec : vcodec OrderIndex :=
  VCodec OrderIndex_MarshalCBOR OrderIndex_UnmarshalCBOR.
Definition OrderIndex_wf (t : OrderIndex) : Prop :=
  slice_ok OrderKey_wf (ox_Alls t).

(** *** [OrderShardInfo] *)
Definition OrderShardInfo_fields : list (field OrderShardInfo) := [
  fld "ShardId" uint64_vc os_ShardId
    (fun v t => MkOrderShardInfo v (os_Peer t) (os_Cid t) (os_Provider t) (os_State t)
      (os_CompleteHash t));
  fld "Peer" (string_vc "t.Peer") os_Peer
    (fun v t => MkOrderShardInfo (os_ShardId t) v (os_Cid t) (os_Provider t) (os_State
      t) (os_CompleteHash t));
  fld "Cid" (string_vc "t.Cid") os_Cid
    (fun v t => MkOrderShardInfo (os_ShardId t) (os_Peer t) v (os_Provider t)
      (os_State t) (os_CompleteHash t));
  fld "Provider" (string_vc "t.Provider") os_Provider
    (fun v t => MkOrderShardInfo (os_ShardId t) (os_Peer t) (os_Cid t) v (os_State t)
      (os_CompleteHash t));
  fld "State" (string_vc "t.State") os_State
    (fun v t => MkOrderShardInfo (os_ShardId t) (os_Peer t) (os_Cid t) (os_Provider t)
      v (os_CompleteHash t));
  fld "CompleteHash" (string_vc "t.CompleteHash") os_CompleteHash
    (fun v t => MkOrderShardInfo (os_ShardId t) (os_Peer t) (os_Cid t) (os_Provider t)
      (os_State t) v)].
Definition OrderShardInfo_MarshalCBOR (t : OrderShardInfo) : bytes + error :=
  marshal_struct 166 OrderShardInfo_fields t.
Definition OrderShardInfo_UnmarshalCBOR (r : bytes) : (OrderShardInfo * bytes) + error :=
  unmarshal_struct "OrderShardInfo" (MkOrderShardInfo 0 "" "" "" "" "") OrderShardInfo_fields r.
Definition OrderShardInfo_codec : vcodec OrderShardInfo :=
  VCodec OrderShardInfo_MarshalCBOR OrderShardInfo_UnmarshalCBOR.
Definition OrderShardInfo_wf (t : OrderShardInfo) : Prop :=
  is_u64 (os_ShardId t) /\ text_ok (os_Peer t) /\ text_ok (os_Cid t) /\ text_ok
  (os_Provider t) /\ text_ok (os_State t) /\ text_ok (os_CompleteHash t).

(** *** [OrderInfo] *)
Definition OrderInfo_fields : list (field OrderInfo) := [
  fld "DataId" (string_vc "t.DataId") oi_DataId
    (fun v t => MkOrderInfo v (oi_Owner t) (oi_Cid t) (oi_StagePath t) (oi_OrderId t)
      (oi_OrderHash t) (oi_OrderTxType t) (oi_OrderHeight t) (oi_Shards t)
      (oi_ExpireHeight t) (oi_State t) (oi_Tries t) (oi_RetryAt t) (oi_LastErr t));
  fld "Owner" (string_vc "t.Owner") oi_Owner
    (fun v t => MkOrderInfo (oi_DataId t) v (oi_Cid t) (oi_StagePath t) (oi_OrderId t)
      (oi_OrderHash t) (oi_OrderTxType t) (oi_OrderHeight t) (oi_Shards t)
      (oi_ExpireHeight t) (oi_State t) (oi_Tries t) (oi_RetryAt t) (oi_LastErr t));
  fld "Cid" (cid_vc "failed to write cid field t.Cid" "failed to read cid field t.Cid") oi_Cid
    (fun v t => MkOrderInfo (oi_DataId t) (oi_Owner t) v (oi_StagePath t) (oi_OrderId
      t) (oi_OrderHash t) (oi_OrderTxType t) (oi_OrderHeight t) (oi_Shards t)
      (oi_ExpireHeight t) (oi_State t) (oi_Tries t) (oi_RetryAt t) (oi_LastErr t));
  fld "StagePath" (string_vc "t.StagePath") oi_StagePath
    (fun v t => MkOrderInfo (oi_DataId t) (oi_Owner t) (oi_Cid t) v (oi_OrderId t)
      (oi_OrderHash t) (oi_OrderTxType t) (oi_OrderHeight t) (oi_Shards t)
      (oi_ExpireHeight t) (oi_State t) (oi_Tries t) (oi_RetryAt t) (oi_LastErr t));
  fld "OrderId" uint64_vc oi_OrderId
    (fun v t => MkOrderInfo (oi_DataId t) (oi_Owner t) (oi_Cid t) (oi_StagePath t) v
      (oi_OrderHash t) (oi_OrderTxType t) (oi_OrderHeight t) (oi_Shards t)
      (oi_ExpireHeight t) (oi_State t) (oi_Tries t) (oi_RetryAt t) (oi_LastErr t));
  fld "OrderHash" (string_vc "t.OrderHash") oi_OrderHash
    (fun v t => MkOrderInfo (oi_DataId t) (oi_Owner t) (oi_Cid t) (oi_StagePath t)
      (oi_OrderId t) v (oi_OrderTxType t) (oi_OrderHeight t) (oi_Shards t)
      (oi_ExpireHeight t) (oi_State t) (oi_Tries t) (oi_RetryAt t) (oi_LastErr t));
  fld "OrderTxType" (string_vc "t.OrderTxType") oi_OrderTxType
    (fun v t => MkOrderInfo (oi_DataId t) (oi_Owner t) (oi_Cid t) (oi_StagePath t)
      (oi_OrderId t) (oi_OrderHash t) v (oi_OrderHeight t) (oi_Shards t)
      (oi_ExpireHeight t) (oi_State t) (oi_Tries t) (oi_RetryAt t) (oi_LastErr t));
  fld "OrderHeight" int64_vc oi_OrderHeight
    (fun v t => MkOrderInfo (oi_DataId t) (oi_Owner t) (oi_Cid t) (oi_StagePath t)
      (oi_OrderId t) (oi_OrderHash t) (oi_OrderTxType t) v (oi_Shards t)
      (oi_ExpireHeight t) (oi_State t) (oi_Tries t) (oi_RetryAt t) (oi_LastErr t));
  fld "Shards" (map_vc "t.Shards" OrderShardInfo_codec) oi_Shards
    (fun v t => MkOrderInfo (oi_DataId t) (oi_Owner t) (oi_Cid t) (oi_StagePath t)
      (oi_OrderId t) (oi_OrderHash t) (oi_OrderTxType t) (oi_OrderHeight t) v
      (oi_ExpireHeight t) (oi_State t) (oi_Tries t) (oi_RetryAt t) (oi_LastErr t));
  fld "ExpireHeight" uint64_vc oi_ExpireHeight
    (fun v t => MkOrderInfo (oi_DataId t) (oi_Owner t) (oi_Cid t) (oi_StagePath t)
      (oi_OrderId t) (oi_OrderHash t) (oi_OrderTxType t) (oi_OrderHeight t) (oi_Shards
      t) v (oi_State t) (oi_Tries t) (oi_RetryAt t) (oi_LastErr t));
  fld "State" uint64_vc oi_State
    (fun v t => MkOrderInfo (oi_DataId t) (oi_Owner t) (oi_Cid t) (oi_StagePath t)
      (oi_OrderId t) (oi_OrderHash t) (oi_OrderTxType t) (oi_OrderHeight t) (oi_Shards
      t) (oi_ExpireHeight t) v (oi_Tries t) (oi_RetryAt t) (oi_LastErr t));
  fld "Tries" uint64_vc oi_Tries
    (fun v t => MkOrderInfo (oi_DataId t) (oi_Owner t) (oi_Cid t) (oi_StagePath t)
      (oi_OrderId t) (oi_OrderHash t) (oi_OrderTxType t) (oi_OrderHeight t) (oi_Shards
      t) (oi_ExpireHeight t) (oi_State t) v (oi_RetryAt t) (oi_LastErr t));
  fld "RetryAt" int64_vc oi_RetryAt
    (fun v t => MkOrderInfo (oi_DataId t) (oi_Owner t) (oi_Cid t) (oi_StagePath t)
      (oi_OrderId t) (oi_OrderHash t) (oi_OrderTxType t) (oi_OrderHeight t) (oi_Shards
      t) (oi_ExpireHeight t) (oi_State t) (oi_Tries t) v (oi_LastErr t));
  fld "LastErr" (string_vc "t.LastErr") oi_LastErr
    (fun v t => MkOrderInfo (oi_DataId t) (oi_Owner t) (oi_Cid t) (oi_StagePath t)
      (oi_OrderId t) (oi_OrderHash t) (oi_OrderTxType t) (oi_OrderHeight t) (oi_Shards
      t) (oi_ExpireHeight t) (oi_State t) (oi_Tries t) (oi_RetryAt t) v)].
Definition OrderInfo_MarshalCBOR (t : OrderInfo) : bytes + error :=
  marshal_struct 174 OrderInfo_fields t.
Definition OrderInfo_UnmarshalCBOR (r : bytes) : (OrderInfo * bytes) + error :=
  unmarshal_struct "OrderInfo" OrderInfo_zero OrderInfo_fields r.
Definition OrderInfo_codec : vcodec OrderInfo :=
  VCodec OrderInfo_MarshalCBOR OrderInfo_UnmarshalCBOR.
Definition OrderInfo_wf (t : OrderInfo) : Prop :=
  text_ok (oi_DataId t) /\ text_ok (oi_Owner t) /\ cid_valid (oi_Cid t) /\ text_ok
  (oi_StagePath t) /\ is_u64 (oi_OrderId t) /\ text_ok (oi_OrderHash t) /\ text_ok
  (oi_OrderTxType t) /\ is_i64 (oi_OrderHeight t) /\ map_ok OrderShardInfo_wf
  (oi_Shards t) /\ is_u64 (oi_ExpireHeight t) /\ is_u64 (oi_State t) /\ is_u64
  (oi_Tries t) /\ is_i64 (oi_RetryAt t) /\ text_ok (oi_LastErr t).

(** *** [ShardKey] *)
Definition ShardKey_fields : list (field ShardKey) := [
  fld "OrderId" uint64_vc sk_OrderId
    (fun v t => MkShardKey v (sk_Cid t));
  fld "Cid" (cid_vc "failed to write cid field t.Cid" "failed to read cid field t.Cid") sk_Cid
    (fun v t => MkShardKey (sk_OrderId t) v)].
Definition ShardKey_MarshalCBOR (t : ShardKey) : bytes + error :=
  marshal_struct 162 ShardKey_fields t.
Definition ShardKey_UnmarshalCBOR (r : bytes) : (ShardKey * bytes) + error :=
  unmarshal_struct "ShardKey" (MkShardKey 0 Undef) ShardKey_fields r.
Definition ShardKey_codec : vcodec ShardKey :=
  VCodec ShardKey_MarshalCBOR ShardKey_UnmarshalCBOR.
Definition ShardKey_wf (t : ShardKey) : Prop :=
  is_u64 (sk_OrderId t) /\ cid_valid (sk_Cid t).

(** *** [ShardInfo] *)
Definition ShardInfo_fields : list (field ShardInfo) := [
  fld "OrderId" uint64_vc si_OrderId
    (fun v t => MkShardInfo v (si_DataId t) (si_Cid t) (si_Owner t) (si_Gateway t)
      (si_OrderOperation t) (si_ShardOperation t) (si_CompleteHash t)
      (si_CompleteHeight t) (si_Size t) (si_Tries t) (si_ExpireHeight t) (si_State t)
      (si_RetryAt t) (si_LastErr t));
  fld "DataId" (string_vc "t.DataId") si_DataId
    (fun v t => MkShardInfo (si_OrderId t) v (si_Cid t) (si_Owner t) (si_Gateway t)
      (si_OrderOperation t) (si_ShardOperation t) (si_CompleteHash t)
      (si_CompleteHeight t) (si_Size t) (si_Tries t) (si_ExpireHeight t) (si_State t)
      (si_RetryAt t) (si_LastErr t));
  fld "Cid" (cid_vc "failed to write cid field t.Cid" "failed to read cid field t.Cid") si_Cid
    (fun v t => MkShardInfo (si_OrderId t) (si_DataId t) v (si_Owner t) (si_Gateway t)
      (si_OrderOperation t) (si_ShardOperation t) (si_CompleteHash t)
      (si_CompleteHeight t) (si_Size t) (si_Tries t) (si_ExpireHeight t) (si_State t)
      (si_RetryAt t) (si_LastErr t));
  fld "Owner" (string_vc "t.Owner") si_Owner
    (fun v t => MkShardInfo (si_OrderId t) (si_DataId t) (si_Cid t) v (si_Gateway t)
      (si_OrderOperation t) (si_ShardOperation t) (si_CompleteHash t)
      (si_CompleteHeight t) (si_Size t) (si_Tries t) (si_ExpireHeight t) (si_State t)
      (si_RetryAt t) (si_LastErr t));
  fld "Gateway" (string_vc "t.Gateway") si_Gateway
    (fun v t => MkShardInfo (si_OrderId t) (si_DataId t) (si_Cid t) (si_Owner t) v
      (si_OrderOperation t) (si_ShardOperation t) (si_CompleteHash t)
      (si_CompleteHeight t) (si_Size t) (si_Tries t) (si_ExpireHeight t) (si_State t)
      (si_RetryAt t) (si_LastErr t));
  fld "OrderOperation" (string_vc "t.OrderOperation") si_OrderOperation
    (fun v t => MkShardInfo (si_OrderId t) (si_DataId t) (si_Cid t) (si_Owner t)
      (si_Gateway t) v (si_ShardOperation t) (si_CompleteHash t) (si_CompleteHeight t)
      (si_Size t) (si_Tries t) (si_ExpireHeight t) (si_State t) (si_RetryAt t)
      (si_LastErr t));
  fld "ShardOperation" (string_vc "t.ShardOperation") si_ShardOperation
    (fun v t => MkShardInfo (si_OrderId t) (si_DataId t) (si_Cid t) (si_Owner t)
      (si_Gateway t) (si_OrderOperation t) v (si_CompleteHash t) (si_CompleteHeight t)
      (si_Size t) (si_Tries t) (si_ExpireHeight t) (si_State t) (si_RetryAt t)
      (si_LastErr t));
  fld "CompleteHash" (string_vc "t.CompleteHash") si_CompleteHash
    (fun v t => MkShardInfo (si_OrderId t) (si_DataId t) (si_Cid t) (si_Owner t)
      (si_Gateway t) (si_OrderOperation t) (si_ShardOperation t) v (si_CompleteHeight
      t) (si_Size t) (si_Tries t) (si_ExpireHeight t) (si_State t) (si_RetryAt t)
      (si_LastErr t));
  fld "CompleteHeight" int64_vc si_CompleteHeight
    (fun v t => MkShardInfo (si_OrderId t) (si_DataId t) (si_Cid t) (si_Owner t)
      (si_Gateway t) (si_OrderOperation t) (si_ShardOperation t) (si_CompleteHash t) v
      (si_Size t) (si_Tries t) (si_ExpireHeight t) (si_State t) (si_RetryAt t)
      (si_LastErr t));
  fld "Size" uint64_vc si_Size
    (fun v t => MkShardInfo (si_OrderId t) (si_DataId t) (si_Cid t) (si_Owner t)
      (si_Gateway t) (si_OrderOperation t) (si_ShardOperation t) (si_CompleteHash t)
      (si_CompleteHeight t) v (si_Tries t) (si_ExpireHeight t) (si_State t)
      (si_RetryAt t) (si_LastErr t));
  fld "Tries" uint64_vc si_Tries
    (fun v t => MkShardInfo (si_OrderId t) (si_DataId t) (si_Cid t) (si_Owner t)
      (si_Gateway t) (si_OrderOperation t) (si_ShardOperation t) (si_CompleteHash t)
      (si_CompleteHeight t) (si_Size t) v (si_ExpireHeight t) (si_State t) (si_RetryAt
      t) (si_LastErr t));
  fld "ExpireHeight" uint64_vc si_ExpireHeight
    (fun v t => MkShardInfo (si_OrderId t) (si_DataId t) (si_Cid t) (si_Owner t)
      (si_Gateway t) (si_OrderOperation t) (si_ShardOperation t) (si_CompleteHash t)
      (si_CompleteHeight t) (si_Size t) (si_Tries t) v (si_State t) (si_RetryAt t)
      (si_LastErr t));
  fld "State" uint64_vc si_State
    (fun v t => MkShardInfo (si_OrderId t) (si_DataId t) (si_Cid t) (si_Owner t)
      (si_Gateway t) (si_OrderOperation t) (si_ShardOperation t) (si_CompleteHash t)
      (si_CompleteHeight t) (si_Size t) (si_Tries t) (si_ExpireHeight t) v (si_RetryAt
      t) (si_LastErr t));
  fld "RetryAt" int64_vc si_RetryAt
    (fun v t => MkShardInfo (si_OrderId t) (si_DataId t) (si_Cid t) (si_Owner t)
      (si_Gateway t) (si_OrderOperation t) (si_ShardOperation t) (si_CompleteHash t)
      (si_CompleteHeight t) (si_Size t) (si_Tries t) (si_ExpireHeight t) (si_State t)
      v (si_LastErr t));
  fld "LastErr" (string_vc "t.LastErr") si_LastErr
    (fun v t => MkShardInfo (si_OrderId t) (si_DataId t) (si_Cid t) (si_Owner t)
      (si_Gateway t) (si_OrderOperation t) (si_ShardOperation t) (si_CompleteHash t)
      (si_CompleteHeight t) (si_Size t) (si_Tries t) (si_ExpireHeight t) (si_State t)
      (si_RetryAt t) v)].
Definition ShardInfo_MarshalCBOR (t : ShardInfo) : bytes + error :=
  marshal_struct 175 ShardInfo_fields t.
Definition ShardInfo_UnmarshalCBOR (r : bytes) : (ShardInfo * bytes) + error :=
  unmarshal_struct "ShardInfo" ShardInfo_zero ShardInfo_fields r.
Definition ShardInfo_codec : vcodec ShardInfo :=
  VCodec ShardInfo_MarshalCBOR ShardInfo_UnmarshalCBOR.
Definition ShardInfo_wf (t : ShardInfo) : Prop :=
  is_u64 (si_OrderId t) /\ text_ok (si_DataId t) /\ cid_valid (si_Cid t) /\ text_ok
  (si_Owner t) /\ text_ok (si_Gateway t) /\ text_ok (si_OrderOperation t) /\ text_ok
  (si_ShardOperation t) /\ text_ok (si_CompleteHash t) /\ is_i64 (si_CompleteHeight
  t) /\ is_u64 (si_Size t) /\ is_u64 (si_Tries t) /\ is_u64 (si_ExpireHeight t) /\
  is_u64 (si_State t) /\ is_i64 (si_RetryAt t) /\ text_ok (si_LastErr t).

(** *** [ShardIndex] *)
Definition ShardIndex_fields : list (field ShardIndex) := [
  fld "All" (slice_vc "t.All" ShardKey_codec) sx_All
    (fun v _ => MkShardIndex v)].
Definition ShardIndex_MarshalCBOR (t : ShardIndex) : bytes + error :=
  marshal_struct 161 ShardIndex_fields t.
Definition ShardIndex_UnmarshalCBOR (r : bytes) : (ShardIndex * bytes) + error :=
  unmarshal_struct "ShardIndex" (MkShardIndex []) ShardIndex_fields r.
Definition ShardIndex_codec : vcodec ShardIndex :=
  VCodec ShardIndex_MarshalCBOR ShardIndex_UnmarshalCBOR.
Definition ShardIndex_wf (t : ShardIndex) : Prop :=
  slice_ok ShardKey_wf (sx_All t).

(** *** [MigrateKey] *)
Definition MigrateKey_fields : list (field MigrateKey) := [
  fld "DataId" (string_vc "t.DataId") mk_DataId
    (fun v t => MkMigrateKey v (mk_FromProvider t));
  fld "FromProvider" (string_vc "t.FromProvider") mk_FromProvider
    (fun v t => MkMigrateKey (mk_DataId t) v)].
Definition MigrateKey_MarshalCBOR (t : MigrateKey) : bytes + error :=
  marshal_struct 162 MigrateKey_fields t.
Definition MigrateKey_UnmarshalCBOR (r : bytes) : (MigrateKey * bytes) + error :=
  unmarshal_struct "MigrateKey" (MkMigrateKey "" "") MigrateKey_fields r.
Definition MigrateKey_codec : vcodec MigrateKey :=
  VCodec MigrateKey_MarshalCBOR MigrateKey_UnmarshalCBOR.
Definition MigrateKey_wf (t : MigrateKey) : Prop :=
  text_ok (mk_DataId t) /\ text_ok (mk_FromProvider t).

(** *** [MigrateInfo] *)
Definition MigrateInfo_fields : list (field MigrateInfo) := [
  fld "DataId" (string_vc "t.DataId") mi_DataId
    (fun v t => MkMigrateInfo v (mi_OrderId t) (mi_Cid t) (mi_FromProvider t)
      (mi_ToProvider t) (mi_MigrateTxHash t) (mi_MigrateTxHeight t) (mi_CompleteTxHash
      t) (mi_CompleteTxHeight t) (mi_State t));
  fld "OrderId" uint64_vc mi_OrderId
    (fun v t => MkMigrateInfo (mi_DataId t) v (mi_Cid t) (mi_FromProvider t)
      (mi_ToProvider t) (mi_MigrateTxHash t) (mi_MigrateTxHeight t) (mi_CompleteTxHash
      t) (mi_CompleteTxHeight t) (mi_State t));
  fld "Cid" (string_vc "t.Cid") mi_Cid
    (fun v t => MkMigrateInfo (mi_DataId t) (mi_OrderId t) v (mi_FromProvider t)
      (mi_ToProvider t) (mi_MigrateTxHash t) (mi_MigrateTxHeight t) (mi_CompleteTxHash
      t) (mi_CompleteTxHeight t) (mi_State t));
  fld "FromProvider" (string_vc "t.FromProvider") mi_FromProvider
    (fun v t => MkMigrateInfo (mi_DataId t) (mi_OrderId t) (mi_Cid t) v (mi_ToProvider
      t) (mi_MigrateTxHash t) (mi_MigrateTxHeight t) (mi_CompleteTxHash t)
      (mi_CompleteTxHeight t) (mi_State t));
  fld "ToProvider" (string_vc "t.ToProvider") mi_ToProvider
    (fun v t => MkMigrateInfo (mi_DataId t) (mi_OrderId t) (mi_Cid t) (mi_FromProvider
      t) v (mi_MigrateTxHash t) (mi_MigrateTxHeight t) (mi_CompleteTxHash t)
      (mi_CompleteTxHeight t) (mi_State t));
  fld "MigrateTxHash" (string_vc "t.MigrateTxHash") mi_MigrateTxHash
    (fun v t => MkMigrateInfo (mi_DataId t) (mi_OrderId t) (mi_Cid t) (mi_FromProvider
      t) (mi_ToProvider t) v (mi_MigrateTxHeight t) (mi_CompleteTxHash t)
      (mi_CompleteTxHeight t) (mi_State t));
  fld "MigrateTxHeight" int64_vc mi_MigrateTxHeight
    (fun v t => MkMigrateInfo (mi_DataId t) (mi_OrderId t) (mi_Cid t) (mi_FromProvider
      t) (mi_ToProvider t) (mi_MigrateTxHash t) v (mi_CompleteTxHash t)
      (mi_CompleteTxHeight t) (mi_State t));
  fld "CompleteTxHash" (string_vc "t.CompleteTxHash") mi_CompleteTxHash
    (fun v t => MkMigrateInfo (mi_DataId t) (mi_OrderId t) (mi_Cid t) (mi_FromProvider
      t) (mi_ToProvider t) (mi_MigrateTxHash t) (mi_MigrateTxHeight t) v
      (mi_CompleteTxHeight t) (mi_State t));
  fld "CompleteTxHeight" int64_vc mi_CompleteTxHeight
    (fun v t => MkMigrateInfo (mi_DataId t) (mi_OrderId t) (mi_Cid t) (mi_FromProvider
      t) (mi_ToProvider t) (mi_MigrateTxHash t) (mi_MigrateTxHeight t)
      (mi_CompleteTxHash t) v (mi_State t));
  fld "State" uint64_vc mi_State
    (fun v t => MkMigrateInfo (mi_DataId t) (mi_OrderId t) (mi_Cid t) (mi_FromProvider
      t) (mi_ToProvider t) (mi_MigrateTxHash t) (mi_MigrateTxHeight t)
      (mi_CompleteTxHash t) (mi_CompleteTxHeight t) v)].
Definition MigrateInfo_MarshalCBOR (t : MigrateInfo) : bytes + error :=
  marshal_struct 170 MigrateInfo_fields t.
Definition MigrateInfo_UnmarshalCBOR (r : bytes) : (MigrateInfo * bytes) + error :=
  unmarshal_struct "MigrateInfo" MigrateInfo_zero MigrateInfo_fields r.
Definition MigrateInfo_codec : vcodec MigrateInfo :=
  VCodec MigrateInfo_MarshalCBOR MigrateInfo_UnmarshalCBOR.
Definition MigrateInfo_wf (t : MigrateInfo) : Prop :=
  text_ok (mi_DataId t) /\ is_u64 (mi_OrderId t) /\ text_ok (mi_Cid t) /\ text_ok
  (mi_FromProvider t) /\ text_ok (mi_ToProvider t) /\ text_ok (mi_MigrateTxHash t)
  /\ is_i64 (mi_MigrateTxHeight t) /\ text_ok (mi_CompleteTxHash t) /\ is_i64
  (mi_CompleteTxHeight t) /\ is_u64 (mi_State t).

(** *** [MigrateIndex] *)
Definition MigrateIndex_fields : list (field MigrateIndex) := [
  fld "All" (slice_vc "t.All" MigrateKey_codec) mx_All
    (fun v _ => MkMigrateIndex v)].
Definition MigrateIndex_MarshalCBOR (t : MigrateIndex) : bytes + error :=
  marshal_struct 161 MigrateIndex_fields t.
Definition MigrateIndex_UnmarshalCBOR (r : bytes) : (MigrateIndex * bytes) + error :=
  unmarshal_struct "MigrateIndex" (MkMigrateIndex []) MigrateIndex_fields r.
Definition MigrateIndex_codec : vcodec MigrateIndex :=
  VCodec MigrateIndex_MarshalCBOR MigrateIndex_UnmarshalCBOR.
Definition MigrateIndex_wf (t : MigrateIndex) : Prop :=
  slice_ok MigrateKey_wf (mx_All t).

(** *** [QueryProposal] *)
Definition QueryProposal_fields : list (field QueryProposal) := [
  fld "Owner" (string_vc "t.Owner") qp_Owner
    (fun v t => MkQueryProposal v (qp_Keyword t) (qp_GroupId t) (qp_KeywordType t)
      (qp_LastValidHeight t) (qp_Gateway t) (qp_CommitId t) (qp_Version t));
  fld "Keyword" (string_vc "t.Keyword") qp_Keyword
    (fun v t => MkQueryProposal (qp_Owner t) v (qp_GroupId t) (qp_KeywordType t)
      (qp_LastValidHeight t) (qp_Gateway t) (qp_CommitId t) (qp_Version t));
  fld "GroupId" (string_vc "t.GroupId") qp_GroupId
    (fun v t => MkQueryProposal (qp_Owner t) (qp_Keyword t) v (qp_KeywordType t)
      (qp_LastValidHeight t) (qp_Gateway t) (qp_CommitId t) (qp_Version t));
  fld "KeywordType" uint64_vc qp_KeywordType
    (fun v t => MkQueryProposal (qp_Owner t) (qp_Keyword t) (qp_GroupId t) v
      (qp_LastValidHeight t) (qp_Gateway t) (qp_CommitId t) (qp_Version t));
  fld "LastValidHeight" uint64_vc qp_LastValidHeight
    (fun v t => MkQueryProposal (qp_Owner t) (qp_Keyword t) (qp_GroupId t)
      (qp_KeywordType t) v (qp_Gateway t) (qp_CommitId t) (qp_Version t));
  fld "Gateway" (string_vc "t.Gateway") qp_Gateway
    (fun v t => MkQueryProposal (qp_Owner t) (qp_Keyword t) (qp_GroupId t)
      (qp_KeywordType t) (qp_LastValidHeight t) v (qp_CommitId t) (qp_Version t));
  fld "CommitId" (string_vc "t.CommitId") qp_CommitId
    (fun v t => MkQueryProposal (qp_Owner t) (qp_Keyword t) (qp_GroupId t)
      (qp_KeywordType t) (qp_LastValidHeight t) (qp_Gateway t) v (qp_Version t));
  fld "Version" (string_vc "t.Version") qp_Version
    (fun v t => MkQueryProposal (qp_Owner t) (qp_Keyword t) (qp_GroupId t)
      (qp_KeywordType t) (qp_LastValidHeight t) (qp_Gateway t) (qp_CommitId t) v)].
Definition QueryProposal_MarshalCBOR (t : QueryProposal) : bytes + error :=
  marshal_struct 168 QueryProposal_fields t.
Definition QueryProposal_UnmarshalCBOR (r : bytes) : (QueryProposal * bytes) + error :=
  unmarshal_struct "QueryProposal" QueryProposal_zero QueryProposal_fields r.
Definition QueryProposal_codec : vcodec QueryProposal :=
  VCodec QueryProposal_MarshalCBOR QueryProposal_UnmarshalCBOR.
Definition QueryProposal_wf (t : QueryProposal) : Prop :=
  text_ok (qp_Owner t) /\ text_ok (qp_Keyword t) /\ text_ok (qp_GroupId t) /\ is_u64
  (qp_KeywordType t) /\ is_u64 (qp_LastValidHeight t) /\ text_ok (qp_Gateway t) /\
  text_ok (qp_CommitId t) /\ text_ok (qp_Version t).

(** *** [RelayProposal] *)
Definition RelayProposal_fields : list (field RelayProposal) := [
  fld "NodeAddress" (string_vc "t.NodeAddress") rp_NodeAddress
    (fun v t => MkRelayProposal v (rp_LocalPeerId t) (rp_RelayPeerIds t)
      (rp_TargetPeerInfo t));
  fld "LocalPeerId" (string_vc "t.LocalPeerId") rp_LocalPeerId
    (fun v t => MkRelayProposal (rp_NodeAddress t) v (rp_RelayPeerIds t)
      (rp_TargetPeerInfo t));
  fld "RelayPeerIds" (string_vc "t.RelayPeerIds") rp_RelayPeerIds
    (fun v t => MkRelayProposal (rp_NodeAddress t) (rp_LocalPeerId t) v
      (rp_TargetPeerInfo t));
  fld "TargetPeerInfo" (string_vc "t.TargetPeerInfo") rp_TargetPeerInfo
    (fun v t => MkRelayProposal (rp_NodeAddress t) (rp_LocalPeerId t) (rp_RelayPeerIds
      t) v)].
Definition RelayProposal_MarshalCBOR (t : RelayProposal) : bytes + error :=
  marshal_struct 164 RelayProposal_fields t.
Definition RelayProposal_UnmarshalCBOR (r : bytes) : (RelayProposal * bytes) + error :=
  unmarshal_struct "RelayProposal" RelayProposal_zero RelayProposal_fields r.
Definition RelayProposal_codec : vcodec RelayProposal :=
  VCodec RelayProposal_MarshalCBOR RelayProposal_UnmarshalCBOR.
Definition RelayProposal_wf (t : RelayProposal) : Prop :=
  text_ok (rp_NodeAddress t) /\ text_ok (rp_LocalPeerId t) /\ text_ok
  (rp_RelayPeerIds t) /\ text_ok (rp_TargetPeerInfo t).

(** *** [JwsSignature] *)
Definition JwsSignature_fields : list (field JwsSignature) := [
  fld "Protected" (string_vc "t.Protected") jws_Protected
    (fun v t => MkJwsSignature v (jws_Signature t));
  fld "Signature" (string_vc "t.Signature") jws_Signature
    (fun v t => MkJwsSignature (jws_Protected t) v)].
Definition JwsSignature_MarshalCBOR (t : JwsSignature) : bytes + error :=
  marshal_struct 162 JwsSignature_fields t.
Definition JwsSignature_UnmarshalCBOR (r : bytes) : (JwsSignature * bytes) + error :=
  unmarshal_struct "JwsSignature" (MkJwsSignature "" "") JwsSignature_fields r.
Definition JwsSignature_codec : vcodec JwsSignature :=
  VCodec JwsSignature_MarshalCBOR JwsSignature_UnmarshalCBOR.
Definition JwsSignature_wf (t : JwsSignature) : Prop :=
  text_ok (jws_Protected t) /\ text_ok (jws_Signature t).

(** *** [MetadataProposalCbor] *)
Definition MetadataProposalCbor_fields : list (field MetadataProposalCbor) := [
  fld "Proposal" (struct_vc "t.Proposal" QueryProposal_codec) mp_Proposal
    (fun v t => MkMetadataProposalCbor v (mp_JwsSignature t));
  fld "JwsSignature" (struct_vc "t.JwsSignature" JwsSignature_codec) mp_JwsSignature
    (fun v t => MkMetadataProposalCbor (mp_Proposal t) v)].
Definition MetadataProposalCbor_MarshalCBOR (t : MetadataProposalCbor) : bytes + error :=
  marshal_struct 162 MetadataProposalCbor_fields t.
Definition MetadataProposalCbor_UnmarshalCBOR (r : bytes) : (MetadataProposalCbor * bytes) + error :=
  unmarshal_struct "MetadataProposalCbor" MetadataProposalCbor_zero MetadataProposalCbor_fields r.
Definition MetadataProposalCbor_codec : vcodec MetadataProposalCbor :=
  VCodec MetadataProposalCbor_MarshalCBOR MetadataProposalCbor_UnmarshalCBOR.
Definition MetadataProposalCbor_wf (t : MetadataProposalCbor) : Prop :=
  QueryProposal_wf (mp_Proposal t) /\ JwsSignature_wf (mp_JwsSignature t).

(** *** [RelayProposalCbor] *)
Definition RelayProposalCbor_fields : list (field RelayProposalCbor) := [
  fld "Proposal" (struct_vc "t.Proposal" RelayProposal_codec) rpc_Proposal
    (fun v t => MkRelayProposalCbor v (rpc_Signature t));
  fld "Signature" (bytes_vc "t.Signature") rpc_Signature
    (fun v t => MkRelayProposalCbor (rpc_Proposal t) v)].
Definition RelayProposalCbor_MarshalCBOR (t : RelayProposalCbor) : bytes + error :=
  marshal_struct 162 RelayProposalCbor_fields t.
Definition RelayProposalCbor_UnmarshalCBOR (r : bytes) : (RelayProposalCbor * bytes) + error :=
  unmarshal_struct "RelayProposalCbor" RelayProposalCbor_zero RelayProposalCbor_fields r.
Definition RelayProposalCbor_codec : vcodec RelayProposalCbor :=
  VCodec RelayProposalCbor_MarshalCBOR RelayProposalCbor_UnmarshalCBOR.
Definition RelayProposalCbor_wf (t : RelayProposalCbor) : Prop :=
  RelayProposal_wf (rpc_Proposal t) /\ bytes_ok (rpc_Signature t).

(** *** [ShardAssignReq] *)
Definition ShardAssignReq_fields : list (field ShardAssignReq) := [
  fld "OrderId" uint64_vc sar_OrderId
    (fun v t => MkShardAssignReq v (sar_DataId t) (sar_Assignee t) (sar_TxHash t)
      (sar_Height t) (sar_AssignTxType t) (sar_TimeoutHeight t));
  fld "DataId" (string_vc "t.DataId") sar_DataId
    (fun v t => MkShardAssignReq (sar_OrderId t) v (sar_Assignee t) (sar_TxHash t)
      (sar_Height t) (sar_AssignTxType t) (sar_TimeoutHeight t));
  fld "Assignee" (string_vc "t.Assignee") sar_Assignee
    (fun v t => MkShardAssignReq (sar_OrderId t) (sar_DataId t) v (sar_TxHash t)
      (sar_Height t) (sar_AssignTxType t) (sar_TimeoutHeight t));
  fld "TxHash" (string_vc "t.TxHash") sar_TxHash
    (fun v t => MkShardAssignReq (sar_OrderId t) (sar_DataId t) (sar_Assignee t) v
      (sar_Height t) (sar_AssignTxType t) (sar_TimeoutHeight t));
  fld "Height" int64_vc sar_Height
    (fun v t => MkShardAssignReq (sar_OrderId t) (sar_DataId t) (sar_Assignee t)
      (sar_TxHash t) v (sar_AssignTxType t) (sar_TimeoutHeight t));
  fld "AssignTxType" (string_vc "t.AssignTxType") sar_AssignTxType
    (fun v t => MkShardAssignReq (sar_OrderId t) (sar_DataId t) (sar_Assignee t)
      (sar_TxHash t) (sar_Height t) v (sar_TimeoutHeight t));
  fld "TimeoutHeight" uint64_vc sar_TimeoutHeight
    (fun v t => MkShardAssignReq (sar_OrderId t) (sar_DataId t) (sar_Assignee t)
      (sar_TxHash t) (sar_Height t) (sar_AssignTxType t) v)].
Definition ShardAssignReq_MarshalCBOR (t : ShardAssignReq) : bytes + error :=
  marshal_struct 167 ShardAssignReq_fields t.
Definition ShardAssignReq_UnmarshalCBOR (r : bytes) : (ShardAssignReq * bytes) + error :=
  unmarshal_struct "ShardAssignReq" (MkShardAssignReq 0 "" "" "" 0 "" 0) ShardAssignReq_fields r.
Definition ShardAssignReq_codec : vcodec ShardAssignReq :=
  VCodec ShardAssignReq_MarshalCBOR ShardAssignReq_UnmarshalCBOR.
Definition ShardAssignReq_wf (t : ShardAssignReq) : Prop :=
  is_u64 (sar_OrderId t) /\ text_ok (sar_DataId t) /\ text_ok (sar_Assignee t) /\
  text_ok (sar_TxHash t) /\ is_i64 (sar_Height t) /\ text_ok (sar_AssignTxType t) /\
  is_u64 (sar_TimeoutHeight t).

(** *** [ShardAssignResp] *)
Definition ShardAssignResp_fields : list (field ShardAssignResp) := [
  fld "Code" uint64_vc sap_Code
    (fun v t => MkShardAssignResp v (sap_Message t));
  fld "Message" (string_vc "t.Message") sap_Message
    (fun v t => MkShardAssignResp (sap_Code t) v)].
Definition ShardAssignResp_MarshalCBOR (t : ShardAssignResp) : bytes + error :=
  marshal_struct 162 ShardAssignResp_fields t.
Definition ShardAssignResp_UnmarshalCBOR (r : bytes) : (ShardAssignResp * bytes) + error :=
  unmarshal_struct "ShardAssignResp" (MkShardAssignResp 0 "") ShardAssignResp_fields r.
Definition ShardAssignResp_codec : vcodec ShardAssignResp :=
  VCodec ShardAssignResp_MarshalCBOR ShardAssignResp_UnmarshalCBOR.
Definition ShardAssignResp_wf (t : ShardAssignResp) : Prop :=
  is_u64 (sap_Code t) /\ text_ok (sap_Message t).

(** *** [ShardCompleteReq] *)
Definition ShardCompleteReq_fields : list (field ShardCompleteReq) := [
  fld "OrderId" uint64_vc scr_OrderId
    (fun v t => MkShardCompleteReq v (scr_DataId t) (scr_Cids t) (scr_TxHash t)
      (scr_Height t));
  fld "DataId" (string_vc "t.DataId") scr_DataId
    (fun v t => MkShardCompleteReq (scr_OrderId t) v (scr_Cids t) (scr_TxHash t)
      (scr_Height t));
  fld "Cids" (slice_vc "t.Cids" (cid_vc "failed writing cid field t.Cids" "reading cid field t.Cids failed")) scr_Cids
    (fun v t => MkShardCompleteReq (scr_OrderId t) (scr_DataId t) v (scr_TxHash t)
      (scr_Height t));
  fld "TxHash" (string_vc "t.TxHash") scr_TxHash
    (fun v t => MkShardCompleteReq (scr_OrderId t) (scr_DataId t) (scr_Cids t) v
      (scr_Height t));
  fld "Height" int64_vc scr_Height
    (fun v t => MkShardCompleteReq (scr_OrderId t) (scr_DataId t) (scr_Cids t)
      (scr_TxHash t) v)].
Definition ShardCompleteReq_MarshalCBOR (t : ShardCompleteReq) : bytes + error :=
  marshal_struct 165 ShardCompleteReq_fields t.
Definition ShardCompleteReq_UnmarshalCBOR (r : bytes) : (ShardCompleteReq * bytes) + error :=
  unmarshal_struct "ShardCompleteReq" (MkShardCompleteReq 0 "" [] "" 0) ShardCompleteReq_fields r.
Definition ShardCompleteReq_codec : vcodec ShardCompleteReq :=
  VCodec ShardCompleteReq_MarshalCBOR ShardCompleteReq_UnmarshalCBOR.
Definition ShardCompleteReq_wf (t : ShardCompleteReq) : Prop :=
  is_u64 (scr_OrderId t) /\ text_ok (scr_DataId t) /\ slice_ok cid_valid (scr_Cids
  t) /\ text_ok (scr_TxHash t) /\ is_i64 (scr_Height t).

(** *** [ShardCompleteResp] *)
Definition ShardCompleteResp_fields : list (field ShardCompleteResp) := [
  fld "Code" uint64_vc scp_Code
    (fun v t => MkShardCompleteResp v (scp_Message t) (scp_Recoverable t));
  fld "Message" (string_vc "t.Message") scp_Message
    (fun v t => MkShardCompleteResp (scp_Code t) v (scp_Recoverable t));
  fld "Recoverable" bool_vc scp_Recoverable
    (fun v t => MkShardCompleteResp (scp_Code t) (scp_Message t) v)].
Definition ShardCompleteResp_MarshalCBOR (t : ShardCompleteResp) : bytes + error :=
  marshal_struct 163 ShardCompleteResp_fields t.
Definition ShardCompleteResp_UnmarshalCBOR (r : bytes) : (ShardCompleteResp * bytes) + error :=
  unmarshal_struct "ShardCompleteResp" (MkShardCompleteResp 0 "" false) ShardCompleteResp_fields r.
Definition ShardCompleteResp_codec : vcodec ShardCompleteResp :=
  VCodec ShardCompleteResp_MarshalCBOR ShardCompleteResp_UnmarshalCBOR.
Definition ShardCompleteResp_wf (t : ShardCompleteResp) : Prop :=
  is_u64 (scp_Code t) /\ text_ok (scp_Message t).

(** *** [ShardLoadReq] *)
Definition ShardLoadReq_fields : list (field ShardLoadReq) := [
  fld "Owner" (string_vc "t.Owner") slr_Owner
    (fun v t => MkShardLoadReq v (slr_DataId t) (slr_OrderId t) (slr_Cid t)
      (slr_Proposal t) (slr_RequestId t) (slr_RelayProposal t));
  fld "DataId" (string_vc "t.DataId") slr_DataId
    (fun v t => MkShardLoadReq (slr_Owner t) v (slr_OrderId t) (slr_Cid t)
      (slr_Proposal t) (slr_RequestId t) (slr_RelayProposal t));
  fld "OrderId" uint64_vc slr_OrderId
    (fun v t => MkShardLoadReq (slr_Owner t) (slr_DataId t) v (slr_Cid t)
      (slr_Proposal t) (slr_RequestId t) (slr_RelayProposal t));
  fld "Cid" (cid_vc "failed to write cid field t.Cid" "failed to read cid field t.Cid") slr_Cid
    (fun v t => MkShardLoadReq (slr_Owner t) (slr_DataId t) (slr_OrderId t) v
      (slr_Proposal t) (slr_RequestId t) (slr_RelayProposal t));
  fld "Proposal" (struct_vc "t.Proposal" MetadataProposalCbor_codec) slr_Proposal
    (fun v t => MkShardLoadReq (slr_Owner t) (slr_DataId t) (slr_OrderId t) (slr_Cid
      t) v (slr_RequestId t) (slr_RelayProposal t));
  fld "RequestId" int64_vc slr_RequestId
    (fun v t => MkShardLoadReq (slr_Owner t) (slr_DataId t) (slr_OrderId t) (slr_Cid
      t) (slr_Proposal t) v (slr_RelayProposal t));
  fld "RelayProposal" (struct_vc "t.RelayProposal" RelayProposalCbor_codec) slr_RelayProposal
    (fun v t => MkShardLoadReq (slr_Owner t) (slr_DataId t) (slr_OrderId t) (slr_Cid
      t) (slr_Proposal t) (slr_RequestId t) v)].
Definition ShardLoadReq_MarshalCBOR (t : ShardLoadReq) : bytes + error :=
  marshal_struct 167 ShardLoadReq_fields t.
Definition ShardLoadReq_UnmarshalCBOR (r : bytes) : (ShardLoadReq * bytes) + error :=
  unmarshal_struct "ShardLoadReq" (MkShardLoadReq "" "" 0 Undef MetadataProposalCbor_zero 0 RelayProposalCbor_zero) ShardLoadReq_fields r.
Definition ShardLoadReq_codec : vcodec ShardLoadReq :=
  VCodec ShardLoadReq_MarshalCBOR ShardLoadReq_UnmarshalCBOR.
Definition ShardLoadReq_wf (t : ShardLoadReq) : Prop :=
  text_ok (slr_Owner t) /\ text_ok (slr_DataId t) /\ is_u64 (slr_OrderId t) /\
  cid_valid (slr_Cid t) /\ MetadataProposalCbor_wf (slr_Proposal t) /\ is_i64
  (slr_RequestId t) /\ RelayProposalCbor_wf (slr_RelayProposal t).

(** *** [ShardLoadResp] *)
Definition ShardLoadResp_fields : list (field ShardLoadResp) := [
  fld "Code" uint64_vc slp_Code
    (fun v t => MkShardLoadResp v (slp_Message t) (slp_OrderId t) (slp_Cid t)
      (slp_Content t) (slp_RequestId t) (slp_ResponseId t));
  fld "Message" (string_vc "t.Message") slp_Message
    (fun v t => MkShardLoadResp (slp_Code t) v (slp_OrderId t) (slp_Cid t)
      (slp_Content t) (slp_RequestId t) (slp_ResponseId t));
  fld "OrderId" uint64_vc slp_OrderId
    (fun v t => MkShardLoadResp (slp_Code t) (slp_Message t) v (slp_Cid t)
      (slp_Content t) (slp_RequestId t) (slp_ResponseId t));
  fld "Cid" (cid_vc "failed to write cid field t.Cid" "failed to read cid field t.Cid") slp_Cid
    (fun v t => MkShardLoadResp (slp_Code t) (slp_Message t) (slp_OrderId t) v
      (slp_Content t) (slp_RequestId t) (slp_ResponseId t));
  fld "Content" (bytes_vc "t.Content") slp_Content
    (fun v t => MkShardLoadResp (slp_Code t) (slp_Message t) (slp_OrderId t) (slp_Cid
      t) v (slp_RequestId t) (slp_ResponseId t));
  fld "RequestId" int64_vc slp_RequestId
    (fun v t => MkShardLoadResp (slp_Code t) (slp_Message t) (slp_OrderId t) (slp_Cid
      t) (slp_Content t) v (slp_ResponseId t));
  fld "ResponseId" int64_vc slp_ResponseId
    (fun v t => MkShardLoadResp (slp_Code t) (slp_Message t) (slp_OrderId t) (slp_Cid
      t) (slp_Content t) (slp_RequestId t) v)].
Definition ShardLoadResp_MarshalCBOR (t : ShardLoadResp) : bytes + error :=
  marshal_struct 167 ShardLoadResp_fields t.
Definition ShardLoadResp_UnmarshalCBOR (r : bytes) : (ShardLoadResp * bytes) + error :=
  unmarshal_struct "ShardLoadResp" (MkShardLoadResp 0 "" 0 Undef [] 0 0) ShardLoadResp_fields r.
Definition ShardLoadResp_codec : vcodec ShardLoadResp :=
  VCodec ShardLoadResp_MarshalCBOR ShardLoadResp_UnmarshalCBOR.
Definition ShardLoadResp_wf (t : ShardLoadResp) : Prop :=
  is_u64 (slp_Code t) /\ text_ok (slp_Message t) /\ is_u64 (slp_OrderId t) /\
  cid_valid (slp_Cid t) /\ bytes_ok (slp_Content t) /\ is_i64 (slp_RequestId t) /\
  is_i64 (slp_ResponseId t).

(** *** [ShardMigrateReq] *)
Definition ShardMigrateReq_fields : list (field ShardMigrateReq) := [
  fld "MigrateFrom" (string_vc "t.MigrateFrom") smr_MigrateFrom
    (fun v t => MkShardMigrateReq v (smr_OrderId t) (smr_DataId t) (smr_TxHash t)
      (smr_TxHeight t) (smr_Cid t) (smr_Content t));
  fld "OrderId" uint64_vc smr_OrderId
    (fun v t => MkShardMigrateReq (smr_MigrateFrom t) v (smr_DataId t) (smr_TxHash t)
      (smr_TxHeight t) (smr_Cid t) (smr_Content t));
  fld "DataId" (string_vc "t.DataId") smr_DataId
    (fun v t => MkShardMigrateReq (smr_MigrateFrom t) (smr_OrderId t) v (smr_TxHash t)
      (smr_TxHeight t) (smr_Cid t) (smr_Content t));
  fld "TxHash" (string_vc "t.TxHash") smr_TxHash
    (fun v t => MkShardMigrateReq (smr_MigrateFrom t) (smr_OrderId t) (smr_DataId t) v
      (smr_TxHeight t) (smr_Cid t) (smr_Content t));
  fld "TxHeight" int64_vc smr_TxHeight
    (fun v t => MkShardMigrateReq (smr_MigrateFrom t) (smr_OrderId t) (smr_DataId t)
      (smr_TxHash t) v (smr_Cid t) (smr_Content t));
  fld "Cid" (string_vc "t.Cid") smr_Cid
    (fun v t => MkShardMigrateReq (smr_MigrateFrom t) (smr_OrderId t) (smr_DataId t)
      (smr_TxHash t) (smr_TxHeight t) v (smr_Content t));
  fld "Content" (bytes_vc "t.Content") smr_Content
    (fun v t => MkShardMigrateReq (smr_MigrateFrom t) (smr_OrderId t) (smr_DataId t)
      (smr_TxHash t) (smr_TxHeight t) (smr_Cid t) v)].
Definition ShardMigrateReq_MarshalCBOR (t : ShardMigrateReq) : bytes + error :=
  marshal_struct 167 ShardMigrateReq_fields t.
Definition ShardMigrateReq_UnmarshalCBOR (r : bytes) : (ShardMigrateReq * bytes) + error :=
  unmarshal_struct "ShardMigrateReq" (MkShardMigrateReq "" 0 "" "" 0 "" []) ShardMigrateReq_fields r.
Definition ShardMigrateReq_codec : vcodec ShardMigrateReq :=
  VCodec ShardMigrateReq_MarshalCBOR ShardMigrateReq_UnmarshalCBOR.
Definition ShardMigrateReq_wf (t : ShardMigrateReq) : Prop :=
  text_ok (smr_MigrateFrom t) /\ is_u64 (smr_OrderId t) /\ text_ok (smr_DataId t) /\
  text_ok (smr_TxHash t) /\ is_i64 (smr_TxHeight t) /\ text_ok (smr_Cid t) /\
  bytes_ok (smr_Content t).

(** *** [ShardMigrateResp] *)
Definition ShardMigrateResp_fields : list (field ShardMigrateResp) := [
  fld "Code" uint64_vc smp_Code
    (fun v t => MkShardMigrateResp v (smp_Message t) (smp_CompleteHash t)
      (smp_CompleteHeight t));
  fld "Message" (string_vc "t.Message") smp_Message
    (fun v t => MkShardMigrateResp (smp_Code t) v (smp_CompleteHash t)
      (smp_CompleteHeight t));
  fld "CompleteHash" (string_vc "t.CompleteHash") smp_CompleteHash
    (fun v t => MkShardMigrateResp (smp_Code t) (smp_Message t) v (smp_CompleteHeight
      t));
  fld "CompleteHeight" int64_vc smp_CompleteHeight
    (fun v t => MkShardMigrateResp (smp_Code t) (smp_Message t) (smp_CompleteHash t)
      v)].
Definition ShardMigrateResp_MarshalCBOR (t : ShardMigrateResp) : bytes + error :=
  marshal_struct 164 ShardMigrateResp_fields t.
Definition ShardMigrateResp_UnmarshalCBOR (r : bytes) : (ShardMigrateResp * bytes) + error :=
  unmarshal_struct "ShardMigrateResp" (MkShardMigrateResp 0 "" "" 0) ShardMigrateResp_fields r.
Definition ShardMigrateResp_codec : vcodec ShardMigrateResp :=
  VCodec ShardMigrateResp_MarshalCBOR ShardMigrateResp_UnmarshalCBOR.
Definition ShardMigrateResp_wf (t : ShardMigrateResp) : Prop :=
  is_u64 (smp_Code t) /\ text_ok (smp_Message t) /\ text_ok (smp_CompleteHash t) /\
  is_i64 (smp_CompleteHeight t).

(** *** [ShardPingPong] *)
Definition ShardPingPong_fields : list (field ShardPingPong) := [
  fld "Local" (string_vc "t.Local") spp_Local
    (fun v _ => MkShardPingPong v)].
Definition ShardPingPong_MarshalCBOR (t : ShardPingPong) : bytes + error :=
  marshal_struct 161 ShardPingPong_fields t.
Definition ShardPingPong_UnmarshalCBOR (r : bytes) : (ShardPingPong * bytes) + error :=
  unmarshal_struct "ShardPingPong" (MkShardPingPong "") ShardPingPong_fields r.
Definition ShardPingPong_codec : vcodec ShardPingPong :=
  VCodec ShardPingPong_MarshalCBOR ShardPingPong_UnmarshalCBOR.
Definition ShardPingPong_wf (t : ShardPingPong) : Prop :=
  text_ok (spp_Local t).
End Types.

(** ** Round trips *)
Create HintDb codec discriminated.
#[export] Hint Resolve string_vc_ok uint64_vc_ok int64_vc_ok cid_vc_ok bool_vc_ok
  bytes_vc_ok slice_vc_ok map_vc_ok struct_vc_ok : codec.

(** The round trip of a struct from those of its fields. *)
Ltac codec_struct T_fields T_wf :=
  eapply struct_ok;
  [reflexivity|cbn; lia|apply (bool_decide_unpack _); vm_compute; exact I| |];
  [unfold T_fields;
   repeat lazymatch goal with
     | |- Forall2 _ _ [] => apply List.Forall2_nil
     | |- Forall2 _ _ (_ :: _) => eapply List.Forall2_cons
     | |- field_ok _ _ _ =>
         eapply fld_ok;
         [solve [eauto with codec]
         |unfold text_ok; pose proof MaxLength_bounds; cbn; lia
         |first [exact (fun _ _ => I) | by intros ?; unfold T_wf, slice_ok, map_ok; tauto]]
     end
  |by intros []].

Section RoundTrips.
Context `{!CborLib, !CborLaws}.

Lemma ShardExpireKey_ok : vc_ok ShardExpireKey_codec ShardExpireKey_wf.
Proof. codec_struct @ShardExpireKey_fields @ShardExpireKey_wf. Qed.
Hint Resolve ShardExpireKey_ok : codec.
Lemma ShardExpireIndex_ok : vc_ok ShardExpireIndex_codec ShardExpireIndex_wf.
Proof. codec_struct @ShardExpireIndex_fields @ShardExpireIndex_wf. Qed.
Hint Resolve ShardExpireIndex_ok : codec.
Lemma ShardExpireInfo_ok : vc_ok ShardExpireInfo_codec ShardExpireInfo_wf.
Proof. codec_struct @ShardExpireInfo_fields @ShardExpireInfo_wf. Qed.
Hint Resolve ShardExpireInfo_ok : codec.
Lemma OrderKey_ok : vc_ok OrderKey_codec OrderKey_wf.
Proof. codec_struct @OrderKey_fields @OrderKey_wf. Qed.
Hint Resolve OrderKey_ok : codec.
Lemma OrderIndex_ok : vc_ok OrderIndex_codec OrderIndex_wf.
Proof. codec_struct @OrderIndex_fields @OrderIndex_wf. Qed.
Hint Resolve OrderIndex_ok : codec.
Lemma OrderShardInfo_ok : vc_ok OrderShardInfo_codec OrderShardInfo_wf.
Proof. codec_struct @OrderShardInfo_fields @OrderShardInfo_wf. Qed.
Hint Resolve OrderShardInfo_ok : codec.
Lemma OrderInfo_ok : vc_ok OrderInfo_codec OrderInfo_wf.
Proof. codec_struct @OrderInfo_fields @OrderInfo_wf. Qed.
Hint Resolve OrderInfo_ok : codec.
Lemma ShardKey_ok : vc_ok ShardKey_codec ShardKey_wf.
Proof. codec_struct @ShardKey_fields @ShardKey_wf. Qed.
Hint Resolve ShardKey_ok : codec.
Lemma ShardInfo_ok : vc_ok ShardInfo_codec ShardInfo_wf.
Proof. codec_struct @ShardInfo_fields @ShardInfo_wf. Qed.
Hint Resolve ShardInfo_ok : codec.
Lemma ShardIndex_ok : vc_ok ShardIndex_codec ShardIndex_wf.
Proof. codec_struct @ShardIndex_fields @ShardIndex_wf. Qed.
Hint Resolve ShardIndex_ok : codec.
Lemma MigrateKey_ok : vc_ok MigrateKey_codec MigrateKey_wf.
Proof. codec_struct @MigrateKey_fields @MigrateKey_wf. Qed.
Hint Resolve MigrateKey_ok : codec.
Lemma MigrateInfo_ok : vc_ok MigrateInfo_codec MigrateInfo_wf.
Proof. codec_struct @MigrateInfo_fields @MigrateInfo_wf. Qed.
Hint Resolve MigrateInfo_ok : codec.
Lemma MigrateIndex_ok : vc_ok MigrateIndex_codec MigrateIndex_wf.
Proof. codec_struct @MigrateIndex_fields @MigrateIndex_wf. Qed.
Hint Resolve MigrateIndex_ok : codec.
Lemma QueryProposal_ok : vc_ok QueryProposal_codec QueryProposal_wf.
Proof. codec_struct @QueryProposal_fields @QueryProposal_wf. Qed.
Hint Resolve QueryProposal_ok : codec.
Lemma RelayProposal_ok : vc_ok RelayProposal_codec RelayProposal_wf.
Proof. codec_struct @RelayProposal_fields @RelayProposal_wf. Qed.
Hint Resolve RelayProposal_ok : codec.
Lemma JwsSignature_ok : vc_ok JwsSignature_codec JwsSignature_wf.
Proof. codec_struct @JwsSignature_fields @JwsSignature_wf. Qed.
Hint Resolve JwsSignature_ok : codec.
Lemma MetadataProposalCbor_ok : vc_ok MetadataProposalCbor_codec MetadataProposalCbor_wf.
Proof. codec_struct @MetadataProposalCbor_fields @MetadataProposalCbor_wf. Qed.
Hint Resolve MetadataProposalCbor_ok : codec.
Lemma RelayProposalCbor_ok : vc_ok RelayProposalCbor_codec RelayProposalCbor_wf.
Proof. codec_struct @RelayProposalCbor_fields @RelayProposalCbor_wf. Qed.
Hint Resolve RelayProposalCbor_ok : codec.
Lemma ShardAssignReq_ok : vc_ok ShardAssignReq_codec ShardAssignReq_wf.
Proof. codec_struct @ShardAssignReq_fields @ShardAssignReq_wf. Qed.
Hint Resolve ShardAssignReq_ok : codec.
Lemma ShardAssignResp_ok : vc_ok ShardAssignResp_codec ShardAssignResp_wf.
Proof. codec_struct @ShardAssignResp_fields @ShardAssignResp_wf. Qed.
Hint Resolve ShardAssignResp_ok : codec.
Lemma ShardCompleteReq_ok : vc_ok ShardCompleteReq_codec ShardCompleteReq_wf.
Proof. codec_struct @ShardCompleteReq_fields @ShardCompleteReq_wf. Qed.
Hint Resolve ShardCompleteReq_ok : codec.
Lemma ShardCompleteResp_ok : vc_ok ShardCompleteResp_codec ShardCompleteResp_wf.
Proof. codec_struct @ShardCompleteResp_fields @ShardCompleteResp_wf. Qed.
Hint Resolve ShardCompleteResp_ok : codec.
Lemma ShardLoadReq_ok : vc_ok ShardLoadReq_codec ShardLoadReq_wf.
Proof. codec_struct @ShardLoadReq_fields @ShardLoadReq_wf. Qed.
Hint Resolve ShardLoadReq_ok : codec.
Lemma ShardLoadResp_ok : vc_ok ShardLoadResp_codec ShardLoadResp_wf.
Proof. codec_struct @ShardLoadResp_fields @ShardLoadResp_wf. Qed.
Hint Resolve ShardLoadResp_ok : codec.
Lemma ShardMigrateReq_ok : vc_ok ShardMigrateReq_codec ShardMigrateReq_wf.
Proof. codec_struct @ShardMigrateReq_fields @ShardMigrateReq_wf. Qed.
Hint Resolve ShardMigrateReq_ok : codec.
Lemma ShardMigrateResp_ok : vc_ok ShardMigrateResp_codec ShardMigrateResp_wf.
Proof. codec_struct @ShardMigrateResp_fields @ShardMigrateResp_wf. Qed.
Hint Resolve ShardMigrateResp_ok : codec.
Lemma ShardPingPong_ok : vc_ok ShardPingPong_codec ShardPingPong_wf.
Proof. codec_struct @ShardPingPong_fields @ShardPingPong_wf. Qed.
Hint Resolve ShardPingPong_ok : codec.

(** C26: every record the node stores and every message its peers exchange is read
  back as it was written, whatever bytes follow it: for each type, the decoder
  gives back each value that satisfies the bounds of its fields and leaves the
  rest of the input. *)
Theorem codecs_roundtrip :
vc_ok ShardExpireKey_codec ShardExpireKey_wf /\
vc_ok ShardExpireIndex_codec ShardExpireIndex_wf /\
vc_ok ShardExpireInfo_codec ShardExpireInfo_wf /\
vc_ok OrderKey_codec OrderKey_wf /\
vc_ok OrderIndex_codec OrderIndex_wf /\
vc_ok OrderShardInfo_codec OrderShardInfo_wf /\
vc_ok OrderInfo_codec OrderInfo_wf /\
vc_ok ShardKey_codec ShardKey_wf /\
vc_ok ShardInfo_codec ShardInfo_wf /\
vc_ok ShardIndex_codec ShardIndex_wf /\
vc_ok MigrateKey_codec MigrateKey_wf /\
vc_ok MigrateInfo_codec MigrateInfo_wf /\
vc_ok MigrateIndex_codec MigrateIndex_wf /\
vc_ok QueryProposal_codec QueryProposal_wf /\
vc_ok RelayProposal_codec RelayProposal_wf /\
vc_ok JwsSignature_codec JwsSignature_wf /\
vc_ok MetadataProposalCbor_codec MetadataProposalCbor_wf /\
vc_ok RelayProposalCbor_codec RelayProposalCbor_wf /\
vc_ok ShardAssignReq_codec ShardAssignReq_wf /\
vc_ok ShardAssignResp_codec ShardAssignResp_wf /\
vc_ok ShardCompleteReq_codec ShardCompleteReq_wf /\
vc_ok ShardCompleteResp_codec ShardCompleteResp_wf /\
vc_ok ShardLoadReq_codec ShardLoadReq_wf /\
vc_ok ShardLoadResp_codec ShardLoadResp_wf /\
vc_ok ShardMigrateReq_codec ShardMigrateReq_wf /\
vc_ok ShardMigrateResp_codec ShardMigrateResp_wf /\
vc_ok ShardPingPong_codec ShardPingPong_wf.
Proof. split_and!; auto with codec. Qed.
End RoundTrips.

(** ** The codecs of the stored records *)
Section Codecs.
Context `{!CborLib, !CborLaws}.

(** A value read from a buffer of its own: what follows it is ignored. *)
Definition whole {T} (r : (T * bytes) + error) : T + error :=
  p <-r r ;; inl p.1.

Lemma whole_roundtrip {T} (c : vcodec T) wf t :
  vc_ok c wf -> wf t -> exists b, v_write c t = inl b /\ whole (v_read c b) = inl t.
Proof.
  intros Hc Ht. destruct (Hc t Ht) as (b & Hb & Hr). exists b. split; [done|].
  specialize (Hr []). rewrite app_nil_r in Hr. by rewrite Hr.
Qed.

#[global] Instance OrderInfo_Codec : Codec OrderInfo := {
  MarshalCBOR := OrderInfo_MarshalCBOR;
  UnmarshalCBOR b := whole (OrderInfo_UnmarshalCBOR b) }.
#[global, program] Instance OrderInfo_CodecLaws : CodecLaws OrderInfo := { encodable := OrderInfo_wf }.
Next Obligation. intros t. by apply (whole_roundtrip OrderInfo_codec), OrderInfo_ok. Qed.
#[global] Instance OrderIndex_Codec : Codec OrderIndex := {
  MarshalCBOR := OrderIndex_MarshalCBOR;
  UnmarshalCBOR b := whole (OrderIndex_UnmarshalCBOR b) }.
#[global, program] Instance OrderIndex_CodecLaws : CodecLaws OrderIndex := { encodable := OrderIndex_wf }.
Next Obligation. intros t. by apply (whole_roundtrip OrderIndex_codec), OrderIndex_ok. Qed.
#[global] Instance ShardInfo_Codec : Codec ShardInfo := {
  MarshalCBOR := ShardInfo_MarshalCBOR;
  UnmarshalCBOR b := whole (ShardInfo_UnmarshalCBOR b) }.
#[global, program] Instance ShardInfo_CodecLaws : CodecLaws ShardInfo := { encodable := ShardInfo_wf }.
Next Obligation. intros t. by apply (whole_roundtrip ShardInfo_codec), ShardInfo_ok. Qed.
#[global] Instance ShardIndex_Codec : Codec ShardIndex := {
  MarshalCBOR := ShardIndex_MarshalCBOR;
  UnmarshalCBOR b := whole (ShardIndex_UnmarshalCBOR b) }.
#[global, program] Instance ShardIndex_CodecLaws : CodecLaws ShardIndex := { encodable := ShardIndex_wf }.
Next Obligation. intros t. by apply (whole_roundtrip ShardIndex_codec), ShardIndex_ok. Qed.
#[global] Instance MigrateInfo_Codec : Codec MigrateInfo := {
  MarshalCBOR := MigrateInfo_MarshalCBOR;
  UnmarshalCBOR b := whole (MigrateInfo_UnmarshalCBOR b) }.
#[global, program] Instance MigrateInfo_CodecLaws : CodecLaws MigrateInfo := { encodable := MigrateInfo_wf }.
Next Obligation. intros t. by apply (whole_roundtrip MigrateInfo_codec), MigrateInfo_ok. Qed.
#[global] Instance MigrateIndex_Codec : Codec MigrateIndex := {
  MarshalCBOR := MigrateIndex_MarshalCBOR;
  UnmarshalCBOR b := whole (MigrateIndex_UnmarshalCBOR b) }.
#[global, program] Instance MigrateIndex_CodecLaws : CodecLaws MigrateIndex := { encodable := MigrateIndex_wf }.
Next Obligation. intros t. by apply (whole_roundtrip MigrateIndex_codec), MigrateIndex_ok. Qed.
#[global] Instance ShardExpireInfo_Codec : Codec ShardExpireInfo := {
  MarshalCBOR := ShardExpireInfo_MarshalCBOR;
  UnmarshalCBOR b := whole (ShardExpireInfo_UnmarshalCBOR b) }.
#[global, program] Instance ShardExpireInfo_CodecLaws : CodecLaws ShardExpireInfo := { encodable := ShardExpireInfo_wf }.
Next Obligation. intros t. by apply (whole_roundtrip ShardExpireInfo_codec), ShardExpireInfo_ok. Qed.
#[global] Instance ShardExpireIndex_Codec : Codec ShardExpireIndex := {
  MarshalCBOR := ShardExpireIndex_MarshalCBOR;
  UnmarshalCBOR b := whole (ShardExpireIndex_UnmarshalCBOR b) }.
#[global, program] Instance ShardExpireIndex_CodecLaws : CodecLaws ShardExpireIndex := { encodable := ShardExpireIndex_wf }.
Next Obligation. intros t. by apply (whole_roundtrip ShardExpireIndex_codec), ShardExpireIndex_ok. Qed.
End Codecs.
