(* ===== verification/Instances.v ===== *)
(** * Concrete instances of the interfaces

    An implementation of each interface the development is parametrised by, with
    its laws: the CBOR run time ([Rfc8949]), an in-memory datastore ([MemDs]), a
    datastore that fails on demand ([FaultyDs]) and a cid library ([TextCid]).
    They show that the laws can be satisfied, and the witnesses evaluate the
    program on them. *)
From stdpp Require Import base list gmap strings.
From Stdlib Require Import ZArith Lia Ascii.
From Stdlib Require Strings.Byte.
From S2P Require Import Prelude Types StateUtils Cbor CborTypes.

(** ** CBOR headers, strings and cids *)
Module Rfc8949.

Definition Z_of_byte (b : byte) : Z := Z.of_N (Strings.Byte.to_N b).

Lemma Z_of_byte_of_Z z : 0 <= z < 256 -> Z_of_byte (byte_of_Z z) = z.
Proof.
  intros Hz. unfold Z_of_byte, byte_of_Z.
  destruct (Strings.Byte.of_N (Z.to_N z)) as [b|] eqn:E.
  - apply Strings.Byte.to_of_N in E. rewrite E. lia.
  - apply Strings.Byte.of_N_None_iff in E. lia.
Qed.

(** Big-endian numbers of [n] bytes. *)
Fixpoint be (n : nat) (z : Z) : bytes :=
  match n with
  | O => []
  | S n' => be n' (z / 256) ++ [byte_of_Z (z mod 256)]
  end.
Definition unbe (l : bytes) : Z := foldl (fun a b => a * 256 + Z_of_byte b) 0 l.

Lemma length_be n z : length (be n z) = n.
Proof. revert z. induction n as [|n IH]; intros z; cbn; [done|]. rewrite length_app, IH. cbn. lia. Qed.

Lemma unbe_be n z : 0 <= z < 256 ^ Z.of_nat n -> unbe (be n z) = z.
Proof.
  revert z. induction n as [|n IH]; intros z Hz; [cbn in *; lia|].
  rewrite Nat2Z.inj_succ, Z.pow_succ_r in Hz by lia.
  cbn [be]. unfold unbe in *. rewrite foldl_app. cbn.
  rewrite IH by (split; [apply Z.div_pos; lia|apply Z.div_lt_upper_bound; lia]).
  rewrite Z_of_byte_of_Z by (apply Z.mod_pos_bound; lia).
  rewrite (Z.div_mod z 256) at 3 by lia. lia.
Qed.

Definition write_header (maj n : Z) : bytes :=
  if n <? 24 then [byte_of_Z (maj * 32 + n)]
  else if n <? 256 then byte_of_Z (maj * 32 + 24) :: be 1 n
  else if n <? 65536 then byte_of_Z (maj * 32 + 25) :: be 2 n
  else if n <? two32 then byte_of_Z (maj * 32 + 26) :: be 4 n
  else byte_of_Z (maj * 32 + 27) :: be 8 n.

Definition read_be (maj : Z) (n : nat) (r : bytes) : (Z * Z * bytes) + error :=
  p <-r read_full n r ;; inl (maj, unbe p.1, p.2).

Definition read_header (r : bytes) : (Z * Z * bytes) + error :=
  match r with
  | [] => inr (EText "EOF")
  | b :: r =>
      let maj := Z_of_byte b / 32 in
      let low := Z_of_byte b mod 32 in
      if low <? 24 then inl (maj, low, r)
      else if low =? 24 then read_be maj 1 r
      else if low =? 25 then read_be maj 2 r
      else if low =? 26 then read_be maj 4 r
      else if low =? 27 then read_be maj 8 r
      else inr (EText "invalid header")
  end.

Lemma read_full_app l rest n : length l = n -> read_full n (l ++ rest) = inl (l, rest).
Proof.
  intros <-. unfold read_full. rewrite length_app.
  destruct (Nat.ltb_spec (length l + length rest) (length l)); [lia|].
  by rewrite take_app_length, drop_app_length.
Qed.

Lemma read_be_be maj n z rest :
  0 <= z < 256 ^ Z.of_nat n -> read_be maj n (be n z ++ rest) = inl (maj, z, rest).
Proof.
  intros Hz. unfold read_be. rewrite read_full_app by apply length_be. cbn.
  by rewrite unbe_be.
Qed.

Lemma first_byte maj low :
  0 <= maj < 8 -> 0 <= low < 32 ->
  Z_of_byte (byte_of_Z (maj * 32 + low)) / 32 = maj /\
  Z_of_byte (byte_of_Z (maj * 32 + low)) mod 32 = low.
Proof.
  intros Hm Hl. rewrite Z_of_byte_of_Z by lia. split.
  - rewrite Z.div_add_l by lia. rewrite Z.div_small by lia. lia.
  - rewrite Z.add_comm, Z.mod_add by lia. apply Z.mod_small. lia.
Qed.

Lemma read_write_header maj n rest :
  0 <= maj < 8 -> is_u64 n -> read_header (write_header maj n ++ rest) = inl (maj, n, rest).
Proof.
  intros Hm [Hn Hn']. unfold write_header, two64 in *.
  assert (forall low l, 0 <= low < 32 ->
    read_header ((byte_of_Z (maj * 32 + low) :: l) ++ rest)
    = if low <? 24 then inl (maj, low, l ++ rest)
      else if low =? 24 then read_be maj 1 (l ++ rest)
      else if low =? 25 then read_be maj 2 (l ++ rest)
      else if low =? 26 then read_be maj 4 (l ++ rest)
      else if low =? 27 then read_be maj 8 (l ++ rest)
      else inr (EText "invalid header")) as H.
  { intros low l Hl. cbn [read_header app].
    by destruct (first_byte maj low Hm Hl) as [-> ->]. }
  destruct (Z.ltb_spec n 24).
  { rewrite H by lia. by destruct (Z.ltb_spec n 24); [|lia]. }
  destruct (Z.ltb_spec n 256); [rewrite H by lia; apply read_be_be; lia|].
  destruct (Z.ltb_spec n 65536); [rewrite H by lia; apply read_be_be; lia|].
  destruct (Z.ltb_spec n two32); rewrite H by lia; apply read_be_be;
    unfold two32 in *; lia.
Qed.

Lemma Z_of_byte_bound b : 0 <= Z_of_byte b < 256.
Proof. unfold Z_of_byte. pose proof (Strings.Byte.to_N_bounded b). lia. Qed.

Lemma unbe_bound l : 0 <= unbe l < 256 ^ Z.of_nat (length l).
Proof.
  induction l as [|b l IH] using rev_ind; [cbn; lia|].
  unfold unbe in *. rewrite foldl_app, length_app. cbn [foldl length].
  pose proof (Z_of_byte_bound b). rewrite Nat2Z.inj_add, Z.pow_add_r by lia.
  change (256 ^ Z.of_nat 1) with 256. lia.
Qed.

Lemma read_be_u64 maj n r maj' extra rest :
  (n <= 8)%nat -> read_be maj n r = inl (maj', extra, rest) -> is_u64 extra.
Proof.
  intros Hn. unfold read_be, read_full, rbind.
  destruct (Nat.ltb_spec (length r) n); [done|]. cbn [fst snd]. intros [= <- <- <-].
  pose proof (unbe_bound (take n r)) as Hb. rewrite length_take, Nat.min_l in Hb by done.
  unfold is_u64, two64. split; [lia|].
  eapply Z.lt_le_trans; [apply Hb|]. change (2 ^ 64) with (256 ^ 8). apply Z.pow_le_mono_r; lia.
Qed.

Lemma read_header_u64 r maj extra rest :
  read_header r = inl (maj, extra, rest) -> is_u64 extra.
Proof.
  destruct r as [|b r]; [done|]. cbn [read_header].
  pose proof (Z.mod_pos_bound (Z_of_byte b) 32 ltac:(lia)).
  destruct (Z.ltb_spec (Z_of_byte b mod 32) 24).
  - intros [= <- <- <-]. unfold is_u64, two64. lia.
  - repeat (destruct (_ =? _); [apply read_be_u64; lia|]). done.
Qed.

Definition read_string (r : bytes) : (string * bytes) + error :=
  h <-r read_header r ;;
  let '(maj, n, r) := h in
  if negb (maj =? MajTextString) then inr (EText "got tag while reading string value") else
  if 8192 <? n then inr (EText "string in input was too long") else
  p <-r read_full (Z.to_nat n) r ;; inl (bytes_string p.1, p.2).

(** A cid is tag 42 on a byte string that starts with a zero byte. *)
Definition valid_text (s : string) : bool :=
  (String.length s <? 512)%nat && free_of "/" s && negb (String.eqb s "").

Definition write_cid (c : Cid) : bytes + error :=
  if decide (c = Undef) then inr (EText "undefined cid") else
  inl (write_header 6 42 ++
       write_header MajByteString (Z.of_nat (S (String.length (cid_str c)))) ++
       byte_of_Z 0 :: string_bytes (cid_str c)).

Definition read_cid (r : bytes) : (Cid * bytes) + error :=
  h <-r read_header r ;;
  let '(maj, n, r) := h in
  if negb ((maj =? 6) && (n =? 42)) then inr (EText "expected cid tag") else
  h <-r read_header r ;;
  let '(maj, n, r) := h in
  if negb (maj =? MajByteString) then inr (EText "expected bytes for cid") else
  if 512 <? n then inr (EText "cid too long") else
  p <-r read_full (Z.to_nat n) r ;;
  match p.1 with
  | _ :: l => if valid_text (bytes_string l) then inl (MkCid (bytes_string l), p.2)
              else inr (EText "invalid cid")
  | [] => inr (EText "cid too short")
  end.

#[export] Instance Lib : CborLib := {
  MaxLength := 8192;
  ByteArrayMaxLen := 2097152;
  WriteMajorTypeHeader := write_header;
  ReadHeader := read_header;
  ReadString := read_string;
  WriteBool b := [byte_of_Z (if b then 245 else 244)];
  WriteCid := write_cid;
  ReadCid := read_cid;
  ScanForLinks r := r
}.

#[export, program] Instance Laws : CborLaws := {
  cid_valid c := valid_text (cid_str c) = true
}.
Next Obligation. unfold two63. cbn. lia. Qed.
Next Obligation. unfold two63. cbn. lia. Qed.
Next Obligation. intros. by apply read_write_header. Qed.
Next Obligation.
  intros n rest Hn. cbn [ReadHeader Lib read_header].
  destruct (first_byte 5 n) as [H1 H2]; [lia..|]. change (5 * 32) with 160 in *.
  rewrite H1, H2. by destruct (Z.ltb_spec n 24); [|lia].
Qed.
Next Obligation.
  intros s rest Hs. cbn [ReadString Lib WriteMajorTypeHeader MaxLength] in *.
  unfold read_string. rewrite read_write_header by (cbor_lia).
  cbn [rbind negb Z.eqb Pos.eqb MajTextString].
  destruct (Z.ltb_spec 8192 (Z.of_nat (String.length s))); [lia|].
  rewrite Nat2Z.id, read_full_app by apply length_string_bytes.
  cbn [rbind fst snd]. by rewrite bytes_string_bytes.
Qed.
Next Obligation. by intros [] rest. Qed.
Next Obligation. intros r maj extra rest. apply read_header_u64. Qed.
Next Obligation.
  intros c Hv. assert (c <> Undef /\ (String.length (cid_str c) < 512)%nat) as [Hc Hlen].
  { unfold valid_text in Hv. apply andb_prop in Hv as [[Hl _]%andb_prop Hn].
    split; [by intros ->|by apply Nat.ltb_lt]. }
  cbn [WriteCid ReadCid Lib]. unfold write_cid.
  rewrite decide_False by done. eexists. split; [done|]. intros rest.
  unfold read_cid. rewrite <-!app_assoc, read_write_header by cbor_lia.
  cbn [rbind negb Z.eqb Pos.eqb andb].
  rewrite read_write_header by cbor_lia. cbn [rbind negb Z.eqb Pos.eqb MajByteString].
  destruct (Z.ltb_spec 512 (Z.of_nat (S (String.length (cid_str c))))); [lia|].
  rewrite Nat2Z.id, read_full_app by (cbn; f_equal; apply length_string_bytes).
  cbn [rbind fst snd]. rewrite bytes_string_bytes, Hv. by destruct c.
Qed.
Next Obligation.
  intros r c rest. cbn [ReadCid Lib]. unfold read_cid, rbind.
  destruct (read_header r) as [[[maj n] r1]|]; [|done]. destruct (negb _); [done|].
  destruct (read_header r1) as [[[maj' n'] r2]|]; [|done]. destruct (negb _); [done|].
  destruct (512 <? n'); [done|]. destruct (read_full _ r2) as [[[|b l] r3]|]; [done| |done].
  cbn [fst snd]. destruct (valid_text (bytes_string l)) eqn:E; [|done]. by intros [= <- <-].
Qed.
Next Obligation. by eexists. Qed.

End Rfc8949.

(** ** Datastores *)
Module MemDs.

(** Every operation succeeds, reading an absent key apart. *)
#[export] Instance Ds : Datastore (gmap string bytes) := {
  NewKey s := String "/" s;
  ds_Has k d := (Ret (bool_decide (is_Some (d !! k))), d);
  ds_Get k d := match d !! k with
                | Some v => (Ret v, d)
                | None => (Fail (EText "datastore: key not found"), d)
                end;
  ds_Put k v d := (Ret tt, <[k := v]> d)
}.

#[export, program] Instance Laws : DatastoreLaws (gmap string bytes) := {
  contents d := d;
  reliable _ := True
}.
Next Obligation. by intros s t _ _ [= ->]. Qed.
Next Obligation. by intros k d. Qed.
Next Obligation. intros k d. cbn. unfold wp. destruct (d !! k); cbn; eauto. Qed.
Next Obligation. by intros k v d. Qed.

End MemDs.

Module FaultyDs.

(** The state has the number of writes that still succeed. *)
Record faulty := Faulty { fd_left : nat; fd_map : gmap string bytes }.

#[export] Instance Ds : Datastore faulty := {
  NewKey s := String "/" s;
  ds_Has k d := (Ret (bool_decide (is_Some (fd_map d !! k))), d);
  ds_Get k d := match fd_map d !! k with
                | Some v => (Ret v, d)
                | None => (Fail (EText "datastore: key not found"), d)
                end;
  ds_Put k v d := match fd_left d with
                  | O => (Fail (EText "datastore: disk full"), d)
                  | S n => (Ret tt, Faulty n (<[k := v]> (fd_map d)))
                  end
}.

#[export, program] Instance Laws : DatastoreLaws faulty := {
  contents := fd_map;
  reliable _ := False
}.
Next Obligation. by intros s t _ _ [= ->]. Qed.
Next Obligation. by intros k d. Qed.
Next Obligation. intros k d. unfold wp. cbn. destruct (fd_map d !! k); cbn; eauto. Qed.
Next Obligation. intros k v d. unfold wp. cbn. destruct (fd_left d); cbn; tauto. Qed.

End FaultyDs.

(** ** Content identifiers *)
Module TextCid.

(** An identifier is its own text; the identifier of a content is its bytes. *)
#[export] Instance Lib : CidLib := {
  cid_Decode s := if Rfc8949.valid_text s then inl (MkCid s) else inr (EText "invalid cid");
  cid_Parse s := if Rfc8949.valid_text s then inl (MkCid s) else inr (EText "invalid cid");
  cid_String := cid_str;
  cid_Sum b := inl (MkCid (String "Q" (bytes_string b)))
}.

#[export, program] Instance Laws : CidLaws.
Next Obligation. by intros [] [] [= ->]. Qed.

End TextCid.

(** ** A message in RFC 8949 *)
Module CodecSample.
Import Rfc8949.

Lemma codecs_roundtrip_witness :
  let req := MkShardMigrateReq "sao1from" 7 "6666fd9e" "AB" (-3) "QmYw" (string_bytes "abc") in
  exists b, ShardMigrateReq_MarshalCBOR req = inl b /\
    ShardMigrateReq_UnmarshalCBOR (b ++ string_bytes "rest") = inl (req, string_bytes "rest").
Proof.
  cbv zeta.
  pose proof codecs_roundtrip as Hall. do 24 apply proj2 in Hall. pose proof (proj1 Hall) as H.
  destruct (H (MkShardMigrateReq "sao1from" 7 "6666fd9e" "AB" (-3) "QmYw" (string_bytes "abc")))
    as (b & Hb & Hr).
  - repeat split; vm_compute; congruence.
  - exists b. split; [exact Hb|apply Hr].
Defined.
End CodecSample.
