(* ===== verification/Persistence.v ===== *)
(** * The database of the node behind its datastore

    The functions of [utils/state_utils.go] with the generated codecs implement
    the abstract database [db]: [db_repr] relates the contents of the datastore
    to a [db], each operation is shown to implement its abstract counterpart on
    every outcome of the datastore, and [saves_refine] composes them over any
    sequence of operations.  The last section has what goes wrong outside those
    conditions: a save that fails between its two writes, an index that is full,
    an expiration saved again after its removal, and ids whose keys clash. *)
From stdpp Require Import base list gmap strings.
From Stdlib Require Import ZArith Lia Ascii.
From S2P Require Import Prelude Types StateUtils Cbor CborTypes Instances.

Section Database.
Context `{!CborLib, !CborLaws, !CidLib, !CidLaws} {D} `{!Datastore D, !DatastoreLaws D}.
Implicit Types (C : gmap string bytes) (a : db) (d : D).

Definition db_repr C a : Prop :=
  repr order_table good_order C (db_orders a) (db_order_idx a) /\
  repr shard_table good_shard C (db_shards a) (db_shard_idx a) /\
  repr migrate_table good_migrate C (db_migrates a) (db_migrate_idx a) /\
  repr expire_table good_expire C (db_expires a) (db_expire_idx a).

(** ** Frames *)

(** A write of one table leaves the other tables alone. *)
Lemma repr_disjoint {K R I K' R' I'} `{Countable K, Countable K'}
    `{!Codec R, !Codec I, !Codec R', !Codec I'}
    (t : table K R I) good (t' : table K' R' I') good' k C C' m l :
  table_ok t good -> table_ok t' good' -> disjoint_tables t good t' good' -> good k ->
  touches t k C C' -> repr t' good' C m l -> repr t' good' C' m l.
Proof.
  intros Hok Hok' (Hkk & Hki & Hik & Hii) Hk Ht Hr.
  assert (forall s s', plain s = true -> plain s' = true -> s <> s' -> NewKey s <> NewKey s')
    as Hne by (intros s s' Hs Hs' Hn E; by apply Hn, NewKey_inj).
  destruct Hok, Hok'. eapply repr_frame; [exact Hr| |].
  - intros k' Hk'. apply Ht; apply Hne; eauto using not_eq_sym.
  - apply Ht; apply Hne; eauto using not_eq_sym.
Qed.

Lemma touches_idx {K R I} `{Countable K} `{!Codec R, !Codec I} (t : table K R I) k C C' :
  (forall s, s <> NewKey (t_idx t) -> C' !! s = C !! s) -> touches t k C C'.
Proof. intros Hs s _ ?. by apply Hs. Qed.

(** ** Operations and their abstract counterparts *)
Inductive op :=
| OpSaveOrder (o : OrderInfo)
| OpSaveShard (s : ShardInfo)
| OpSaveMigrate (m : MigrateInfo)
| OpSaveExpire (shardId : Z) (cid : string) (orderId : Z)
| OpRemoveExpire (shardId : Z).

Definition run_op (o : op) : GoM D unit :=
  match o with
  | OpSaveOrder o => SaveOrder o
  | OpSaveShard s => SaveShard s
  | OpSaveMigrate m => SaveMigrate m
  | OpSaveExpire i c o => SaveShardExpire i c o
  | OpRemoveExpire i => RemoveShardExpireIndex i
  end.

Definition db_remove_expire (i : Z) a : db :=
  Db (db_orders a) (db_order_idx a) (db_shards a) (db_shard_idx a)
    (db_migrates a) (db_migrate_idx a) (db_expires a)
    (remove_first (fun k => ek_ShardId k =? i) (db_expire_idx a)).

Definition db_op (o : op) a : db :=
  match o with
  | OpSaveOrder o => db_save_order o a
  | OpSaveShard s => db_save_shard s a
  | OpSaveMigrate m => db_save_migrate m a
  | OpSaveExpire i c o => db_save_expire (MkShardExpireInfo i c o) a
  | OpRemoveExpire i => db_remove_expire i a
  end.

(** The records the operations are used with, and the room the indexes have. *)
Definition op_ok (o : op) : Prop :=
  match o with
  | OpSaveOrder o => good_order (MkOrderKey (oi_DataId o)) /\ OrderInfo_wf o
  | OpSaveShard s => good_shard (MkShardKey (si_OrderId s) (si_Cid s)) /\ ShardInfo_wf s
  | OpSaveMigrate m =>
      good_migrate (MkMigrateKey (mi_DataId m) (mi_FromProvider m)) /\ MigrateInfo_wf m
  | OpSaveExpire i c o => ShardExpireInfo_wf (MkShardExpireInfo i c o)
  | OpRemoveExpire _ => True
  end.

Definition db_fits (n : nat) a : Prop :=
  (Z.of_nat (length (db_order_idx a) + n) <= MaxLength /\ Forall OrderKey_wf (db_order_idx a)) /\
  (Z.of_nat (length (db_shard_idx a) + n) <= MaxLength /\ Forall ShardKey_wf (db_shard_idx a)) /\
  (Z.of_nat (length (db_migrate_idx a) + n) <= MaxLength /\
   Forall MigrateKey_wf (db_migrate_idx a)) /\
  (Z.of_nat (length (db_expire_idx a) + n) <= MaxLength /\
   Forall ShardExpireKey_wf (db_expire_idx a)).

(** What an operation that fails may leave: nothing, or the record without its
    index entry, or everything. *)
Definition db_torn (o : op) a a' : Prop :=
  a' = a \/ a' = db_op o a \/
  match o with
  | OpSaveOrder o => a' = Db (db_orders (db_save_order o a)) (db_order_idx a)
      (db_shards a) (db_shard_idx a) (db_migrates a) (db_migrate_idx a)
      (db_expires a) (db_expire_idx a)
  | OpSaveShard s => a' = Db (db_orders a) (db_order_idx a)
      (db_shards (db_save_shard s a)) (db_shard_idx a)
      (db_migrates a) (db_migrate_idx a) (db_expires a) (db_expire_idx a)
  | OpSaveMigrate m => a' = Db (db_orders a) (db_order_idx a) (db_shards a) (db_shard_idx a)
      (db_migrates (db_save_migrate m a)) (db_migrate_idx a) (db_expires a) (db_expire_idx a)
  | OpSaveExpire i c o => a' = Db (db_orders a) (db_order_idx a) (db_shards a) (db_shard_idx a)
      (db_migrates a) (db_migrate_idx a)
      (db_expires (db_save_expire (MkShardExpireInfo i c o) a)) (db_expire_idx a)
  | OpRemoveExpire _ => False
  end.

Definition op_spec (o : op) a d : Prop :=
  wp (run_op o) d (fun out d' =>
    (reliable d -> reliable d') /\
    match out with
    | Ret _ => db_repr (contents d') (db_op o a)
    | Fail _ => ~ reliable d /\ exists a', db_torn o a a' /\ db_repr (contents d') a'
    | _ => False
    end).

(** ** Each operation implements its counterpart *)

(** An index with one more entry is encodable when it fits. *)
Lemma slice_ok_snoc {V} (wf : V -> Prop) l k :
  Z.of_nat (length l + 1) <= MaxLength -> Forall wf l -> wf k -> slice_ok wf (l ++ [k]).
Proof.
  intros Hlen Hl Hk. split; [rewrite length_app; cbn; lia|].
  apply Forall_app. split; [done|]. by apply Forall_singleton.
Qed.

(** The tables an operation does not write keep their contents. *)
Create HintDb tables discriminated.
Hint Resolve order_table_ok shard_table_ok migrate_table_ok expire_table_ok : tables.
Hint Resolve order_shard_disjoint order_migrate_disjoint order_expire_disjoint
  shard_migrate_disjoint shard_expire_disjoint migrate_expire_disjoint : tables.
Hint Extern 5 (disjoint_tables _ _ _ _) =>
  apply disjoint_tables_sym; solve [eauto with nocore tables] : tables.

Ltac frame t good :=
  eapply (repr_disjoint t good); [solve [eauto with tables]..|eassumption|eassumption|eassumption].

Lemma db_eta a : Db (db_orders a) (db_order_idx a) (db_shards a) (db_shard_idx a)
  (db_migrates a) (db_migrate_idx a) (db_expires a) (db_expire_idx a) = a.
Proof. by destruct a. Qed.

(** Splits the outcome [out] of an operation on one table into the cases of
    [op_spec], each a representation of the written table. *)
Ltac op_cases t good :=
  let out := fresh "out" in let d' := fresh "d" in
  let Hrel := fresh "Hrel" in let Ht := fresh "Ht" in let Hout := fresh "Hout" in
  intros out d' (Hrel & Ht & Hout); split; [exact Hrel|];
  destruct out as [| | |];
  [unfold db_repr; split_and!; first [exact Hout | frame t good]
  |split; [exact (proj1 Hout)|];
   destruct Hout as [_ Hout]; destruct_or! Hout;
   (eexists (Db _ _ _ _ _ _ _ _); split;
    [|unfold db_repr; cbn [db_orders db_order_idx db_shards db_shard_idx db_migrates
        db_migrate_idx db_expires db_expire_idx];
      split_and!; first [exact Hout | frame t good]]);
   unfold db_torn; cbn; eauto using db_eta
  |done|done].

Lemma SaveOrder_op o a d :
  db_repr (contents d) a -> db_fits 1 a -> op_ok (OpSaveOrder o) -> op_spec (OpSaveOrder o) a d.
Proof.
  intros (Ho & Hs & Hm & He) ((Hlen & Hidx) & _) [Hg Hwf].
  unfold op_spec. cbn [run_op]. change (SaveOrder o) with (save order_table o).
  eapply wp_mono; [apply (save_spec order_table good_order order_table_ok d _ _ o Ho Hg)|].
  { exact Hwf. }
  { apply slice_ok_snoc; [done..|]. apply Hwf. }
  op_cases order_table good_order.
Qed.

Lemma SaveShard_op s a d :
  db_repr (contents d) a -> db_fits 1 a -> op_ok (OpSaveShard s) -> op_spec (OpSaveShard s) a d.
Proof.
  intros (Ho & Hs & Hm & He) (_ & (Hlen & Hidx) & _) [Hg Hwf].
  unfold op_spec. cbn [run_op]. change (SaveShard s) with (save shard_table s).
  eapply wp_mono; [apply (save_spec shard_table good_shard shard_table_ok d _ _ s Hs Hg)|].
  { exact Hwf. }
  { apply slice_ok_snoc; [done..|]. unfold ShardKey_wf, ShardInfo_wf in *. cbn. tauto. }
  op_cases shard_table good_shard.
Qed.

Lemma SaveMigrate_op m a d :
  db_repr (contents d) a -> db_fits 1 a -> op_ok (OpSaveMigrate m) ->
  op_spec (OpSaveMigrate m) a d.
Proof.
  intros (Ho & Hs & Hm & He) (_ & _ & (Hlen & Hidx) & _) [Hg Hwf].
  unfold op_spec. cbn [run_op]. change (SaveMigrate m) with (save migrate_table m).
  eapply wp_mono; [apply (save_spec migrate_table good_migrate migrate_table_ok d _ _ m Hm Hg)|].
  { exact Hwf. }
  { apply slice_ok_snoc; [done..|]. unfold MigrateKey_wf, MigrateInfo_wf in *. cbn. tauto. }
  op_cases migrate_table good_migrate.
Qed.

Lemma SaveShardExpire_op i c o a d :
  db_repr (contents d) a -> db_fits 1 a -> op_ok (OpSaveExpire i c o) ->
  op_spec (OpSaveExpire i c o) a d.
Proof.
  intros (Ho & Hs & Hm & He) (_ & _ & _ & Hlen & Hidx) Hwf.
  assert (good_expire (MkShardExpireKey i)) as Hg by apply Hwf.
  unfold op_spec. cbn [run_op].
  change (SaveShardExpire i c o) with (save expire_table (MkShardExpireInfo i c o)).
  eapply wp_mono; [apply (save_spec expire_table good_expire expire_table_ok d _ _
    (MkShardExpireInfo i c o) He Hg)|].
  { exact Hwf. }
  { by apply slice_ok_snoc. }
  op_cases expire_table good_expire.
Qed.

Lemma RemoveShardExpireIndex_op i a d :
  db_repr (contents d) a -> db_fits 0 a -> op_spec (OpRemoveExpire i) a d.
Proof.
  intros (Ho & Hs & Hm & He) (_ & _ & _ & Hlen & Hidx).
  set (f := remove_first (fun k => ek_ShardId k =? i)).
  assert (good_expire (MkShardExpireKey 0)) as Hg by (unfold good_expire; cbn [ek_ShardId]; cbor_lia).
  unfold op_spec. cbn [run_op].
  change (RemoveShardExpireIndex i) with (update_index expire_table f).
  eapply wp_mono; [eapply wp_mono;
    [apply (update_index_spec expire_table good_expire expire_table_ok d _ _ f He)|]|].
  { split; cbn.
    - pose proof (remove_first_length (fun k => ek_ShardId k =? i) (db_expire_idx a)).
      subst f. lia.
    - by apply remove_first_Forall. }
  { intros out d' (Hrel & Hf & Hout).
    exact (conj Hrel (conj (touches_idx expire_table (MkShardExpireKey 0) _ _ Hf) Hout)). }
  op_cases expire_table good_expire.
Qed.

Lemma op_refines o a d :
  db_repr (contents d) a -> db_fits 1 a -> op_ok o -> op_spec o a d.
Proof.
  destruct o; eauto using SaveOrder_op, SaveShard_op, SaveMigrate_op, SaveShardExpire_op.
  intros Hr Hfit _. apply RemoveShardExpireIndex_op; [done|].
  unfold db_fits in *. destruct_and!. split_and!; (lia || done).
Qed.

(** ** Sequences of operations *)
Fixpoint run_ops (os : list op) : GoM D unit :=
  match os with
  | [] => ret tt
  | o :: os' => run_op o ;; run_ops os'
  end.
Definition db_ops (os : list op) a : db := foldl (fun a o => db_op o a) a os.

(** Orders, shards and migrations: the index lists exactly the stored records.
    Expirations: the index lists stored records, each once (a removal takes the
    entry and leaves the record). *)
Definition db_inv a : Prop :=
  consistent (db_orders a) (db_order_idx a) /\
  consistent (db_shards a) (db_shard_idx a) /\
  consistent (db_migrates a) (db_migrate_idx a) /\
  NoDup (db_expire_idx a) /\ (forall k, k ∈ db_expire_idx a -> is_Some (db_expires a !! k)).

Lemma save_index_fits {K V} `{Countable K} (wf : K -> Prop) (m : gmap K V) l k n :
  Z.of_nat (length l + S n) <= MaxLength -> Forall wf l -> wf k ->
  Z.of_nat (length (save_index m l k) + n) <= MaxLength /\ Forall wf (save_index m l k).
Proof.
  intros Hlen Hl Hk. unfold save_index. case_decide; [split; [lia|done]|].
  rewrite length_app, Forall_app, Forall_singleton. cbn. split; [lia|done].
Qed.

Lemma db_fits_op n o a : db_fits (S n) a -> op_ok o -> db_fits n (db_op o a).
Proof.
  intros ((? & ?) & (? & ?) & (? & ?) & ? & ?) Hok.
  assert (forall i, length (db_expire_idx (db_remove_expire i a)) <= length (db_expire_idx a))%nat
    as Hrem by (intros; apply remove_first_length).
  destruct o as [o|s|m|i c o|i]; cbn in Hok;
    (split; [|split; [|split]]); cbn;
    try (split; [lia|done]); try (apply save_index_fits; [done..|]).
  - apply Hok.
  - unfold ShardKey_wf, ShardInfo_wf in *. cbn. tauto.
  - unfold MigrateKey_wf, MigrateInfo_wf in *. cbn. tauto.
  - apply Hok.
  - specialize (Hrem i). cbn in Hrem. split; [lia|]. by apply remove_first_Forall.
Qed.

Lemma db_inv_op o a : db_inv a -> db_inv (db_op o a).
Proof.
  intros (Ho & Hs & Hm & Hnd & He).
  destruct o as [o|s|m|i c o|i]; unfold db_inv; cbn; split_and!; eauto using consistent_save.
  - unfold save_index. case_decide as Hd; [done|]. apply NoDup_app. split_and!; [done| |].
    + intros k Hk ->%list_elem_of_singleton. by apply Hd, He.
    + apply NoDup_singleton.
  - intros k Hk. rewrite lookup_insert. case_decide as E; [eauto|]. apply He.
    unfold save_index in Hk. case_decide; [done|].
    apply elem_of_app in Hk as [?| ->%list_elem_of_singleton]; done.
  - by apply remove_first_NoDup.
  - intros k Hk. apply He. eapply elem_of_sublist; [done|apply remove_first_sublist].
Qed.

(** The run of a sequence on a reliable datastore, whatever the invariant. *)
Lemma run_ops_repr os a d :
  reliable d -> db_repr (contents d) a -> db_fits (length os) a -> Forall op_ok os ->
  exists d', run_ops os d = (Ret tt, d') /\ reliable d' /\ db_repr (contents d') (db_ops os a).
Proof.
  intros Hrel Hr Hfit Hok. revert a d Hrel Hr Hfit.
  induction Hok as [|o os Ho Hok IH]; intros a d Hrel Hr Hfit; [by exists d|].
  assert (db_fits 1 a) as Hfit1.
  { unfold db_fits in *. cbn in Hfit. destruct_and!. split_and!; (lia || done). }
  pose proof (op_refines o a d Hr Hfit1 Ho) as Hop. unfold op_spec, wp in Hop.
  cbn [run_ops]. unfold bind. destruct (run_op o d) as [[[]|e| |] d1]; cbn in Hop;
    [|tauto..]. destruct Hop as [Hrel1 Hr1].
  apply (IH (db_op o a)); [tauto|done|by apply db_fits_op].
Qed.

Lemma db_ops_ind (P : db -> Prop) os a :
  P a -> (forall o b, P b -> P (db_op o b)) -> P (db_ops os a).
Proof.
  intros Ha Hstep. revert a Ha. unfold db_ops. induction os as [|o os IH]; cbn; eauto.
Qed.

(** Reading a table of a reliable datastore. *)
Lemma get_reads {K R I} `{Countable K} `{!Codec R, !CodecLaws R, !Codec I, !CodecLaws I}
    (t : table K R I) good d m l k :
  reliable d -> repr t good (contents d) m l -> good k ->
  exists d', get t k d = (Ret (default (t_zero t) (m !! k)), d') /\
    contents d' = contents d /\ reliable d'.
Proof.
  intros Hrel Hr Hk. pose proof (get_spec t good d m l k Hr Hk) as Hg. unfold wp in Hg.
  destruct (get t k d) as [[r|e| |] d1]; cbn in Hg; destruct_and!; subst; eauto; tauto.
Qed.

Lemma get_index_reads {K R I} `{Countable K} `{!Codec R, !CodecLaws R, !Codec I, !CodecLaws I}
    (t : table K R I) good d m l :
  reliable d -> repr t good (contents d) m l ->
  exists d', get_index t d = (Ret (t_mk t l), d') /\ contents d' = contents d /\ reliable d'.
Proof.
  intros Hrel Hr. pose proof (get_index_spec t good d m l Hr) as Hg. unfold wp in Hg.
  destruct (get_index t d) as [[r|e| |] d1]; cbn in Hg; destruct_and!; subst; eauto; tauto.
Qed.

(** ** Theorems *)

(** C4: on a reliable datastore that represents a database, any sequence of
    saves of orders, shards, migrations and expirations and of removals from the
    expiration index succeeds, and leaves a datastore that represents the
    database after the abstract operations; the indexes still list exactly the
    stored orders, shards and migrations, each once, and the expiration index
    lists stored expirations, each once. *)
Theorem saves_refine os a d :
  reliable d -> db_repr (contents d) a -> db_inv a -> db_fits (length os) a ->
  Forall op_ok os ->
  exists d', run_ops os d = (Ret tt, d') /\ reliable d' /\
    db_repr (contents d') (db_ops os a) /\ db_inv (db_ops os a).
Proof.
  intros Hrel Hr Hi Hfit Hok. destruct (run_ops_repr os a d) as (d' & Hrun & Hrel' & Hr');
    [done..|]. exists d'. split_and!; [done..|]. apply db_ops_ind; [done|]. intros. by apply db_inv_op.
Qed.

(** One operation on a datastore that may fail at any point never panics; it
    either reports success and the datastore represents the database after the
    operation, or reports an error and the datastore represents the database
    before the operation, after it, or with the new record stored and missing
    from its index; on a reliable datastore it reports success. *)
Theorem save_outcomes o a d :
  db_repr (contents d) a -> db_fits 1 a -> op_ok o ->
  wp (run_op o) d (fun out d' =>
    match out with
    | Ret _ => db_repr (contents d') (db_op o a)
    | Fail _ => ~ reliable d /\ exists a', db_torn o a a' /\ db_repr (contents d') a'
    | _ => False
    end).
Proof.
  intros Hr Hfit Hok. eapply wp_mono; [by apply op_refines|]. by intros out d' [_ Hout].
Qed.

(** Reading back: on a reliable datastore that represents a database, each
    read returns the record of the database, or the zero record when there is
    none, each index read returns the index, and the datastore is unchanged. *)
Theorem reads_return a d :
  reliable d -> db_repr (contents d) a ->
  let returns {A} (m : GoM D A) (x : A) :=
    exists d', m d = (Ret x, d') /\ contents d' = contents d /\ reliable d' in
  (forall id, good_order (MkOrderKey id) ->
     returns (GetOrder id) (default OrderInfo_zero (db_orders a !! MkOrderKey id))) /\
  (forall n c, good_shard (MkShardKey n c) ->
     returns (GetShard n c) (default ShardInfo_zero (db_shards a !! MkShardKey n c))) /\
  (forall id from, good_migrate (MkMigrateKey id from) ->
     returns (GetMigrate id from)
       (default MigrateInfo_zero (db_migrates a !! MkMigrateKey id from))) /\
  (forall i, good_expire (MkShardExpireKey i) ->
     returns (GetShardExpire i)
       (default ShardExpireInfo_zero (db_expires a !! MkShardExpireKey i))) /\
  returns GetOrderIndex (MkOrderIndex (db_order_idx a)) /\
  returns GetShardIndex (MkShardIndex (db_shard_idx a)) /\
  returns GetMigrateIndex (MkMigrateIndex (db_migrate_idx a)) /\
  returns GetShardExpireIndex (MkShardExpireIndex (db_expire_idx a)).
Proof.
  intros Hrel (Ho & Hs & Hm & He). cbv zeta. split_and!.
  - intros id Hg. exact (get_reads order_table good_order d _ _ _ Hrel Ho Hg).
  - intros n c Hg. exact (get_reads shard_table good_shard d _ _ _ Hrel Hs Hg).
  - intros id from Hg. exact (get_reads migrate_table good_migrate d _ _ _ Hrel Hm Hg).
  - intros i Hg. exact (get_reads expire_table good_expire d _ _ _ Hrel He Hg).
  - exact (get_index_reads order_table good_order d _ _ Hrel Ho).
  - exact (get_index_reads shard_table good_shard d _ _ Hrel Hs).
  - exact (get_index_reads migrate_table good_migrate d _ _ Hrel Hm).
  - exact (get_index_reads expire_table good_expire d _ _ Hrel He).
Qed.

(** An order whose record was written and whose index entry was not (the
    save failed in between) is not listed by the order index after any later
    sequence of operations, also when the same order is saved again. *)
Theorem orphan_order_stays os a d k :
  reliable d -> db_repr (contents d) a -> db_fits (length os) a -> Forall op_ok os ->
  is_Some (db_orders a !! k) -> k ∉ db_order_idx a ->
  exists d1 d2 l, run_ops os d = (Ret tt, d1) /\
    GetOrderIndex d1 = (Ret (MkOrderIndex l), d2) /\ k ∉ l.
Proof.
  intros Hrel Hr Hfit Hok Hk Hni.
  destruct (run_ops_repr os a d) as (d1 & Hrun & Hrel1 & Hr1); [done..|].
  assert (is_Some (db_orders (db_ops os a) !! k) /\ k ∉ db_order_idx (db_ops os a)) as [_ Hni'].
  { apply (db_ops_ind (fun b => is_Some (db_orders b !! k) /\ k ∉ db_order_idx b)); [done|].
    intros [o|s|m|i c o|i] b [Hb Hnb]; cbn; try done.
    unfold save_index. rewrite lookup_insert. case_decide as E; [subst|]; (split; [eauto|]).
    - by rewrite decide_True.
    - case_decide; [done|]. rewrite elem_of_app, list_elem_of_singleton. intros []; [done|]. by subst. }
  destruct Hr1 as (Ho & _).
  destruct (get_index_reads order_table good_order d1 _ _ Hrel1 Ho) as (d2 & Hget & _).
  exists d1, d2, (db_order_idx (db_ops os a)). done.
Qed.

(** A shard expiration that is saved, removed from the index and saved again
    is stored and is not listed by the index any more: the second save finds the
    record and leaves the index alone. *)
Theorem expire_lost i c o a d :
  reliable d -> db_repr (contents d) a -> db_inv a -> db_fits 3 a ->
  ShardExpireInfo_wf (MkShardExpireInfo i c o) ->
  exists d1 d2 d3 l, (SaveShardExpire i c o ;; RemoveShardExpireIndex i ;; SaveShardExpire i c o) d
      = (Ret tt, d1) /\
    GetShardExpire i d1 = (Ret (MkShardExpireInfo i c o), d2) /\
    GetShardExpireIndex d1 = (Ret (MkShardExpireIndex l), d3) /\
    MkShardExpireKey i ∉ l.
Proof.
  intros Hrel Hr Hi Hfit Hwf.
  set (os := [OpSaveExpire i c o; OpRemoveExpire i; OpSaveExpire i c o]).
  destruct (run_ops_repr os a d) as (d1 & Hrun & Hrel1 & Hr1); [done..|by unfold os; rewrite !Forall_cons|].
  destruct Hr1 as (_ & _ & _ & He).
  destruct (get_reads expire_table good_expire d1 _ _ (MkShardExpireKey i) Hrel1 He (proj1 Hwf))
    as (d2 & Hget & _).
  destruct (get_index_reads expire_table good_expire d1 _ _ Hrel1 He) as (d3 & Hidx & _).
  exists d1, d2, d3, (db_expire_idx (db_ops os a)). split_and!.
  - revert Hrun. subst os. cbn [run_ops run_op]. unfold bind.
    destruct (SaveShardExpire i c o d) as [[[]| | |] ?]; [|done..].
    destruct (RemoveShardExpireIndex i _) as [[[]| | |] ?]; [|done..].
    by destruct (SaveShardExpire i c o _) as [[[]| | |] ?].
  - etrans; [exact Hget|]. subst os. cbn. by rewrite lookup_insert_eq.
  - exact Hidx.
  - pose proof (db_inv_op (OpSaveExpire i c o) a Hi) as (_ & _ & _ & Hnd & _).
    subst os. unfold db_ops. cbn -[db_save_expire]. cbn [db_save_expire db_expire_idx].
    unfold save_index at 1. rewrite decide_True by (cbn; rewrite lookup_insert_eq; eauto).
    apply not_elem_of_remove_first; [exact Hnd|].
    intros [n]. cbn. rewrite Z.eqb_eq. split; congruence.
Qed.

(** *** A full index *)
Lemma OrderIndex_too_long l :
  MaxLength < Z.of_nat (length l) ->
  MarshalCBOR (MkOrderIndex l) = inr (EText "Slice value in field t.Alls was too long").
Proof.
  intros Hlen. cbn [MarshalCBOR OrderIndex_Codec]. unfold OrderIndex_MarshalCBOR, marshal_struct.
  cbn [OrderIndex_fields write_fields]. unfold write_field.
  destruct (write_text_ok (quoted "Alls") "Alls") as (b & Hb & _).
  { pose proof MaxLength_bounds. unfold text_ok. cbn. lia. }
  cbn [f_name fld]. rewrite Hb. cbn.
  by destruct (Z.ltb_spec MaxLength (Z.of_nat (length l))); [|lia].
Qed.

(** An order that is not stored yet cannot be saved once the order index has
    [MaxLength] entries: on a reliable datastore the save writes the record,
    fails when it encodes the longer index, and leaves the order stored and
    unlisted. *)
Theorem order_index_full o a d :
  reliable d -> db_repr (contents d) a -> op_ok (OpSaveOrder o) ->
  db_orders a !! MkOrderKey (oi_DataId o) = None ->
  Z.of_nat (length (db_order_idx a)) = MaxLength ->
  exists d', SaveOrder o d = (Fail (EText "Slice value in field t.Alls was too long"), d') /\
    repr order_table good_order (contents d')
      (<[MkOrderKey (oi_DataId o) := o]> (db_orders a)) (db_order_idx a).
Proof.
  intros Hrel (Ho & _) [Hg Hwf] Hnone Hfull. set (k := MkOrderKey (oi_DataId o)) in *.
  destruct (OrderInfo_ok o Hwf) as (b & Hmar & Hun). specialize (Hun []).
  rewrite app_nil_r in Hun.
  cut (wp (SaveOrder o) d (fun out d' =>
    out = Fail (EText "Slice value in field t.Alls was too long") /\
    repr order_table good_order (contents d') (<[k := o]> (db_orders a)) (db_order_idx a))).
  { unfold wp. destruct (SaveOrder o d) as [out d'] eqn:E; cbn. intros [-> ?]. eauto. }
  unfold SaveOrder, UpdateOrderIndex.
  apply wp_bind; eapply wp_mono; [apply Has_spec|]. intros [ex|e| |] d1 (HC & Hr1 & Hex); [|tauto..].
  assert (ex = false) as ->.
  { rewrite Hex. apply bool_decide_eq_false. destruct Ho as [Hm _]. specialize (Hm k Hg).
    rewrite Hnone in Hm. change (contents d !! orderDatastoreKey (oi_DataId o) = None) in Hm.
    rewrite Hm. by intros []. }
  rewrite <-HC in Ho. apply wp_bind. change (MarshalCBOR o) with (OrderInfo_MarshalCBOR o).
  cbn in Hmar. rewrite Hmar. apply wp_ret.
  apply wp_bind; eapply wp_mono; [apply Put_spec|]. intros [?|e| |] d2 [Hr2 Hput]; [|tauto..].
  assert (repr order_table good_order (contents d2) (<[k := o]> (db_orders a)) (db_order_idx a))
    as Ho2.
  { rewrite Hput. refine (repr_put_record order_table good_order order_table_ok _ _ _ o b Ho Hg _).
    change (whole (OrderInfo_UnmarshalCBOR b) = inl o). cbn in Hun. by rewrite Hun. }
  apply wp_bind; eapply wp_mono; [apply Has_spec|].
  intros [ex|e| |] d3 (HC3 & Hr3 & Hex3); [|tauto..]. rewrite <-HC3 in Ho2.
  apply wp_bind. subst ex. eapply wp_mono; [rewrite <-HC3; exact (read_index_spec order_table
    good_order d3 _ _ Ho2)|].
  intros [i|e| |] d4 (HC4 & Hr4 & Hi); [|tauto..]. subst i. apply wp_bind.
  rewrite OrderIndex_too_long by (cbn; rewrite length_app; cbn; lia). apply wp_fail.
  split; [done|]. by rewrite HC4.
Qed.
End Database.

(** The name of an order with the data id ["index"] is the name of the index. *)
Lemma order_index_clash : orderKeyText "index" = ORDER_INDEX_KEY.
Proof. reflexivity. Qed.

(** ** Witnesses

    An in-memory datastore, the RFC 8949 encoding and a few records. *)
Module Sample.
Import Rfc8949 MemDs FaultyDs TextCid.

Definition sample_cid : Cid := MkCid "QmYwAPJzv5CZsnA625s3Xf2nemtYgPpHdWEz79ojWKPbdG".
Definition sample_order : OrderInfo :=
  MkOrderInfo "6666fd9e-5e9b" "did:sid:1" sample_cid "/tmp/staging" 7 "A1B2" AssignTxTypeStore 120
    ∅ 900 OrderStateStaged 0 0 "".
Definition sample_shard : ShardInfo :=
  MkShardInfo 7 "6666fd9e-5e9b" sample_cid "did:sid:1" "sao1gateway" "1" "1" "" 0 1024 0 900
    ShardStateValidated 0 "".
Definition sample_migrate : MigrateInfo :=
  MkMigrateInfo "6666fd9e-5e9b" 7 "QmYw" "sao1from" "sao1to" "AB" 130 "" 0 MigrateStateTxSent.
Definition sample_ops : list op :=
  [OpSaveOrder sample_order; OpSaveShard sample_shard; OpSaveMigrate sample_migrate;
   OpSaveExpire 12 "QmYw" 7; OpRemoveExpire 12; OpSaveOrder sample_order].

(** Decides the side conditions of the sample records. *)
Ltac sample :=
  repeat lazymatch goal with
    | |- _ /\ _ => split
    | |- Forall _ [] => apply List.Forall_nil
    | |- Forall _ (_ :: _) => apply List.Forall_cons
    | |- map_Forall _ _ => apply map_Forall_empty
    | |- text_ok _ => unfold text_ok; vm_compute; discriminate
    | |- is_u64 _ => unfold is_u64; vm_compute; split; congruence
    | |- is_i64 _ => unfold is_i64; vm_compute; split; congruence
    | |- (_ <= _)%Z => vm_compute; discriminate
    | |- (_ < _)%nat => apply Nat.ltb_lt; vm_compute; reflexivity
    | |- _ = true => vm_compute; reflexivity
    | |- _ = false => vm_compute; reflexivity
    | |- _ <> _ => vm_compute; congruence
    | |- True => exact I
    | |- _ => progress hnf
    end.

Lemma sample_repr : db_repr ∅ db_empty.
Proof. repeat split; intros; by rewrite ?lookup_empty. Qed.
Lemma sample_inv : db_inv db_empty.
Proof.
  split_and!; [apply consistent_empty..|apply NoDup_nil_2|]. by intros k ?%elem_of_nil.
Qed.
Lemma sample_fits : db_fits 6 db_empty.
Proof. split_and!; try apply Forall_nil_2; vm_compute; congruence. Qed.
Lemma sample_ok : Forall op_ok sample_ops.
Proof. unfold sample_ops. sample. Qed.

Lemma fits_le n a : db_fits 6 a -> (n <= 6)%nat -> db_fits n a.
Proof. unfold db_fits. intros. destruct_and!. split_and!; (lia || done). Qed.

Lemma saves_refine_witness :
  exists d' : gmap string bytes, run_ops sample_ops ∅ = (Ret tt, d') /\ True /\
    db_repr d' (db_ops sample_ops db_empty) /\ db_inv (db_ops sample_ops db_empty).
Proof.
  exact (saves_refine sample_ops db_empty (∅ : gmap string bytes) I sample_repr sample_inv
           sample_fits sample_ok).
Defined.

(** A datastore that accepts one more write: the record is written and the index
    is not. *)
Lemma save_outcomes_witness :
  (run_op (OpSaveOrder sample_order) (Faulty 1 ∅)).1 = Fail (EText "datastore: disk full") /\
  wp (run_op (OpSaveOrder sample_order)) (Faulty 1 ∅) (fun out d' =>
    match out with
    | Ret _ => db_repr (contents d') (db_op (OpSaveOrder sample_order) db_empty)
    | Fail _ => ~ reliable (Faulty 1 ∅) /\ exists a', db_torn (OpSaveOrder sample_order) db_empty a' /\
                                     db_repr (contents d') a'
    | _ => False
    end).
Proof.
  split; [vm_compute; reflexivity|].
  refine (save_outcomes (OpSaveOrder sample_order) db_empty (Faulty 1 ∅) sample_repr _
            (Forall_inv sample_ok)).
  apply fits_le; [exact sample_fits|lia].
Defined.

(** The datastore after the sample operations. *)
Definition sample_ds : gmap string bytes := (run_ops sample_ops ∅).2.

Lemma sample_ds_repr : db_repr sample_ds (db_ops sample_ops db_empty).
Proof.
  destruct (run_ops_repr sample_ops db_empty (∅ : gmap string bytes)) as (d & Hrun & _ & Hr);
    [exact I|exact sample_repr|exact sample_fits|exact sample_ok|].
  unfold sample_ds. by rewrite Hrun.
Qed.

Lemma reads_return_witness :
  exists d' : gmap string bytes, GetShard 7 sample_cid sample_ds = (Ret sample_shard, d') /\
    d' = sample_ds /\ True.
Proof.
  assert (reliable sample_ds) as Hrel by exact I.
  destruct (reads_return (db_ops sample_ops db_empty) sample_ds Hrel sample_ds_repr)
    as (_ & H & _).
  refine (H 7 sample_cid _). sample.
Defined.

(** The order is stored and not listed; saving it again does not list it. *)
Definition torn_db : db :=
  Db {[MkOrderKey (oi_DataId sample_order) := sample_order]} [] ∅ [] ∅ [] ∅ [].
Definition torn_ds : gmap string bytes :=
  <[NewKey (orderKeyText (oi_DataId sample_order)) :=
    match MarshalCBOR sample_order with inl b => b | inr _ => [] end]> ∅.

Lemma torn_ds_run : (run_op (OpSaveOrder sample_order) (Faulty 1 ∅)).2 = Faulty 0 torn_ds.
Proof. vm_compute. reflexivity. Qed.

Lemma torn_repr : db_repr torn_ds torn_db.
Proof.
  destruct sample_repr as (Ho & Hs & Hm & He).
  assert (good_order (MkOrderKey (oi_DataId sample_order))) as Hg by sample.
  assert (forall C, touches order_table (MkOrderKey (oi_DataId sample_order)) ∅
    (<[NewKey (orderKeyText (oi_DataId sample_order)) := C]> ∅)) as Ht.
  { intros C s Hne _. by rewrite lookup_insert_ne. }
  split_and!.
  - refine (repr_put_record order_table good_order order_table_ok ∅ ∅ [] sample_order _ Ho Hg _).
    vm_compute. reflexivity.
  - exact (repr_disjoint order_table good_order shard_table good_shard _ ∅ torn_ds _ _ order_table_ok
             shard_table_ok order_shard_disjoint Hg (Ht _) Hs).
  - exact (repr_disjoint order_table good_order migrate_table good_migrate _ ∅ torn_ds _ _ order_table_ok
             migrate_table_ok order_migrate_disjoint Hg (Ht _) Hm).
  - exact (repr_disjoint order_table good_order expire_table good_expire _ ∅ torn_ds _ _ order_table_ok
             expire_table_ok order_expire_disjoint Hg (Ht _) He).
Qed.

Lemma orphan_order_stays_witness :
  exists (d1 d2 : gmap string bytes) l,
    run_ops [OpSaveOrder sample_order; OpSaveShard sample_shard] torn_ds = (Ret tt, d1) /\
    GetOrderIndex d1 = (Ret (MkOrderIndex l), d2) /\ MkOrderKey (oi_DataId sample_order) ∉ l.
Proof.
  assert (reliable torn_ds) as Hrel by exact I.
  refine (orphan_order_stays [OpSaveOrder sample_order; OpSaveShard sample_shard] torn_db torn_ds
            (MkOrderKey (oi_DataId sample_order)) Hrel torn_repr _ _ _ _).
  - split_and!; try apply Forall_nil_2; vm_compute; congruence.
  - pose proof sample_ok as H. inversion H as [|? ? H1 H2]; subst.
    inversion H2 as [|? ? H3 _]; subst. by repeat constructor.
  - exists sample_order. vm_compute. reflexivity.
  - apply not_elem_of_nil.
Defined.

Lemma expire_lost_witness :
  exists (d1 d2 d3 : gmap string bytes) l,
    (SaveShardExpire 12 "QmYw" 7 ;; RemoveShardExpireIndex 12 ;; SaveShardExpire 12 "QmYw" 7) ∅
      = (Ret tt, d1) /\
    GetShardExpire 12 d1 = (Ret (MkShardExpireInfo 12 "QmYw" 7), d2) /\
    GetShardExpireIndex d1 = (Ret (MkShardExpireIndex l), d3) /\
    MkShardExpireKey 12 ∉ l.
Proof.
  assert (reliable (∅ : gmap string bytes)) as Hrel by exact I.
  refine (expire_lost 12 "QmYw" 7 db_empty (∅ : gmap string bytes) Hrel sample_repr sample_inv _ _);
    [apply fits_le; [exact sample_fits|lia]|sample].
Defined.

(** An index with [MaxLength] entries. *)
Definition full_idx : list OrderKey := replicate (Z.to_nat 8192) (MkOrderKey "6666fd9e-0000").
Definition full_db : db := Db ∅ full_idx ∅ [] ∅ [] ∅ [].

Lemma full_idx_encodes :
  exists b, MarshalCBOR (MkOrderIndex full_idx) = inl b /\
            UnmarshalCBOR b = inl (MkOrderIndex full_idx).
Proof.
  apply (codec_roundtrip (MkOrderIndex full_idx)). split.
  - unfold full_idx. cbn [ox_Alls]. rewrite length_replicate. vm_compute. discriminate.
  - apply Forall_replicate. vm_compute. discriminate.
Qed.

Lemma order_index_full_witness :
  exists d0 d' : gmap string bytes,
    SaveOrder sample_order d0
      = (Fail (EText "Slice value in field t.Alls was too long"), d') /\
    repr order_table good_order (contents d')
      (<[MkOrderKey (oi_DataId sample_order) := sample_order]> (db_orders full_db))
      (db_order_idx full_db).
Proof.
  destruct full_idx_encodes as (b & _ & Hb).
  exists (<[NewKey ORDER_INDEX_KEY := b]> ∅).
  refine (order_index_full sample_order full_db _ _ _ (Forall_inv sample_ok) _ _).
  - exact I.
  - destruct sample_repr as (Ho & Hs & Hm & He).
    assert (forall s, s <> NewKey (t_idx order_table) ->
      (<[NewKey ORDER_INDEX_KEY := b]> ∅ : gmap string bytes) !! s
        = (∅ : gmap string bytes) !! s) as Hf.
    { intros s Hs'. by rewrite lookup_insert_ne. }
    assert (good_order (MkOrderKey "a")) as Hg by sample.
    pose proof (touches_idx order_table (MkOrderKey "a") _ _ Hf) as Ht.
    split_and!.
    + exact (repr_put_index order_table good_order order_table_ok ∅ ∅ [] full_idx b Ho Hb).
    + exact (repr_disjoint order_table good_order shard_table good_shard _ _ _ _ _ order_table_ok
               shard_table_ok order_shard_disjoint Hg Ht Hs).
    + exact (repr_disjoint order_table good_order migrate_table good_migrate _ _ _ _ _
               order_table_ok migrate_table_ok order_migrate_disjoint Hg Ht Hm).
    + exact (repr_disjoint order_table good_order expire_table good_expire _ _ _ _ _
               order_table_ok expire_table_ok order_expire_disjoint Hg Ht He).
  - reflexivity.
  - cbn [full_db db_order_idx]. unfold full_idx. rewrite length_replicate. reflexivity.
Defined.
End Sample.
