(* ===== verification/Queue.v ===== *)
(** * The work queue ([node/queue/request_queue.go])

    [RequestQueue] is a mutex around a slice of pointers to work requests.  Every
    method holds the mutex from its first to its last statement, so a method is
    one atomic step and the state is the slice.  An item is owned by the queue
    while it is in it and by the worker that popped it afterwards, so the
    pointers are modelled by what they point to.  The indexer shares an item between
    several entries: the operations are those of a queue of any items. *)
From stdpp Require Import base list gmap strings.
From Stdlib Require Import ZArith Lia.
From S2P Require Import Prelude Types.

(** The job of a request (used by the indexer) is a pointer: the queue never looks
    at it. *)
Record WorkRequest := MkWorkRequest {
  wr_Order : OrderInfo;
  wr_Shard : ShardInfo;
  wr_Job : option nat
}.

Definition RequestQueue := list WorkRequest.

Definition Len {A} : GoM (list A) Z := gets (fun q => Z.of_nat (length q)).

Definition Push {A} (x : A) : GoM (list A) unit := modify (fun q => q ++ [x]).

Definition PopFront {A} : GoM (list A) (option A) := fun q =>
  match q with
  | [] => (Ret None, [])
  | item :: q' => (Ret (Some item), q')
  end.

Definition Clean {A} : GoM (list A) unit := modify (fun _ => []).

(** ** First in, first out *)
Fixpoint pop_all {A} (n : nat) : GoM (list A) (list A) :=
  match n with
  | O => ret []
  | S n' => x <- PopFront ;; l <- pop_all n' ;;
            ret (match x with Some w => w :: l | None => l end)
  end.

Lemma push_all_run {A} (xs q : list A) : for_each xs Push q = (Ret tt, q ++ xs).
Proof.
  revert q. induction xs as [|x xs IH]; intros q; cbn; [by rewrite app_nil_r|].
  unfold bind. cbn. rewrite IH. by rewrite <-app_assoc.
Qed.

Lemma pop_all_run {A} n (q : list A) : pop_all n q = (Ret (take n q), drop n q).
Proof.
  revert q. induction n as [|n IH]; intros q; cbn; [by rewrite take_0, drop_0|].
  unfold bind. destruct q as [|x q]; cbn; rewrite IH.
  - by rewrite take_nil, drop_nil.
  - done.
Qed.

(** The queue is first in, first out: after any pushes onto a queue, popping
    as many items as the queue has returns the old items and then the pushed
    ones, in order, and empties it; a further pop returns nil. *)
Theorem queue_fifo {A} (q xs : list A) :
  (for_each xs Push ;; l <- pop_all (length q + length xs) ;; x <- PopFront ;; ret (l, x)) q
  = (Ret (q ++ xs, None), []).
Proof.
  unfold bind. rewrite push_all_run, pop_all_run.
  rewrite take_ge, drop_ge by (rewrite length_app; lia). done.
Qed.
