(* ===== verification/StoreManager.v ===== *)
(** * The store manager ([store/store_manager.go])

    A [StoreManager] is a list of backends.  A backend is the Go interface
    [StoreBackend]; its methods act on the world [W] outside the node.  A reader
    is the bytes that are left in it; [Store] hands one and the same reader to
    every backend, so the method of a backend also returns what it left unread. *)
From stdpp Require Import base list gmap strings.
From Stdlib Require Import ZArith Lia Ascii.
From S2P Require Import Prelude Types StateUtils Cbor CborTypes Instances.

(** [back_Get] returns a reader: reading it to the end gives bytes or fails. *)
Class StoreBackend (W B : Type) := {
  back_Id : B -> string;
  back_Open : B -> GoM W unit;
  back_Close : B -> GoM W unit;
  back_Store : B -> bytes -> GoM W (bytes * option error);
  back_Remove : B -> Cid -> GoM W unit;
  back_Get : B -> Cid -> GoM W (bytes + error);
  back_IsExist : B -> Cid -> GoM W bool
}.

Section StoreManager.
Context `{!CidLib} {W B : Type} `{!StoreBackend W B}.

Record StoreManager := MkStoreManager { sm_backends : list B }.

Definition NewStoreManager (initial : list B) : StoreManager := MkStoreManager initial.

Definition AddBackend (ss : StoreManager) (backend : B) : StoreManager :=
  MkStoreManager (sm_backends ss ++ [backend]).

Definition sm_Open (ss : StoreManager) : GoM W unit :=
  for_each (sm_backends ss) back_Open.

Definition sm_Close (ss : StoreManager) : GoM W unit :=
  for_each (sm_backends ss) back_Close.

(** The loop of [Store]: [err] is overwritten by every backend. *)
Fixpoint store_loop (backends : list B) (reader : bytes) (err : option error) :
    GoM W (option error) :=
  match backends with
  | [] => ret err
  | back :: rest =>
      r <- back_Store back reader ;;
      store_loop rest r.1 r.2
  end.

Definition sm_Store (ss : StoreManager) (c : Cid) (reader : bytes) : GoM W unit :=
  err <- store_loop (sm_backends ss) reader None ;;
  match err with None => ret tt | Some e => fail e end.

Fixpoint remove_loop (backends : list B) (c : Cid) (err : option error) : GoM W (option error) :=
  match backends with
  | [] => ret err
  | back :: rest =>
      r <- attempt (back_Remove back c) ;;
      remove_loop rest c (match r with inl _ => None | inr e => Some e end)
  end.

Definition sm_Remove (ss : StoreManager) (c : Cid) : GoM W unit :=
  err <- remove_loop (sm_backends ss) c None ;;
  match err with None => ret tt | Some e => fail e end.

Fixpoint get_loop (backends : list B) (c : Cid) : GoM W (bytes + error) :=
  match backends with
  | [] => fail (Wrapf ErrGetFailed ("failed to get cid " +:+ cid_String c))
  | back :: rest =>
      r <- attempt (back_Get back c) ;;
      match r with inl reader => ret reader | inr _ => get_loop rest c end
  end.

Definition sm_Get (ss : StoreManager) (c : Cid) : GoM W (bytes + error) :=
  get_loop (sm_backends ss) c.

Fixpoint exist_loop (backends : list B) (c : Cid) : GoM W bool :=
  match backends with
  | [] => ret false
  | back :: rest =>
      r <- attempt (back_IsExist back c) ;;
      match r with inl true => ret true | _ => exist_loop rest c end
  end.

Definition sm_IsExist (ss : StoreManager) (c : Cid) : GoM W bool :=
  exist_loop (sm_backends ss) c.

End StoreManager.
Arguments StoreManager B : clear implicits.
Arguments MkStoreManager {B}.
Arguments sm_backends {B}.

(** ** Backends that keep blocks

    [blocks w b] are the blocks backend [b] holds, by identifier.  A successful
    [Store] reads its reader to the end and adds the block it read, a failed one
    may have read a part of it; [Get] returns the block; a successful [Remove]
    removes it, or leaves it to be collected later; everything else leaves the blocks
    alone. *)
Class BackendLaws (W B : Type) `{!StoreBackend W B, !CidLib, !EqDecision B} := {
  blocks : W -> B -> gmap string bytes;
  Store_spec b r w : wp (back_Store b r) w (fun o w' =>
    match o with
    | Ret (rest, None) => rest = [] /\
        (exists c, cid_Sum r = inl c /\ blocks w' b = <[cid_str c := r]> (blocks w b)) /\
        forall b', b' <> b -> blocks w' b' = blocks w b'
    | Ret (rest, Some _) => (exists pre, r = pre ++ rest) /\ forall b', blocks w' b' = blocks w b'
    | _ => False
    end);
  Get_block_spec b c w : wp (back_Get b c) w (fun o w' =>
    (forall b', blocks w' b' = blocks w b') /\
    match o with
    | Ret (inl v) => blocks w b !! cid_str c = Some v
    | Ret (inr _) => True
    | Fail _ => True
    | _ => False
    end);
  Remove_spec b c w : wp (back_Remove b c) w (fun o w' =>
    match o with
    | Ret _ => (blocks w' b = delete (cid_str c) (blocks w b) \/ blocks w' b = blocks w b) /\
               forall b', b' <> b -> blocks w' b' = blocks w b'
    | Fail _ => forall b', blocks w' b' = blocks w b'
    | _ => False
    end);
  IsExist_spec b c w : wp (back_IsExist b c) w (fun o w' =>
    (forall b', blocks w' b' = blocks w b') /\
    match o with Ret _ | Fail _ => True | _ => False end)
}.

Section Safe.
Context `{!CidLib} {W B : Type} `{!StoreBackend W B}.
Implicit Types ss : StoreManager B.

(** The manager panics only when a backend does. *)
Lemma get_loop_safe backends c :
  (forall b, safe (back_Get b c)) -> safe (get_loop backends c).
Proof.
  intros Hb. induction backends as [|b rest IH]; cbn [get_loop]; [apply safe_fail|].
  apply safe_bind; [by apply safe_attempt|]. intros [a|e]; [apply safe_ret|done].
Qed.

Lemma store_loop_safe backends content err :
  (forall b r, safe (back_Store b r)) -> safe (store_loop backends content err).
Proof.
  intros Hb. revert content err. induction backends as [|b rest IH]; intros content err;
    cbn [store_loop]; [apply safe_ret|]. apply safe_bind; [done|]. intros []. apply IH.
Qed.

Lemma sm_Store_safe ss c content :
  (forall b r, safe (back_Store b r)) -> safe (sm_Store ss c content).
Proof.
  intros Hb. apply safe_bind; [by apply store_loop_safe|]. intros []; [apply safe_fail|apply safe_ret].
Qed.
End Safe.

Section Laws.
Context `{!CidLib} {W B : Type} `{!StoreBackend W B, !EqDecision B, !BackendLaws W B}.
Implicit Types (ss : StoreManager B) (w : W).

(** What [Get] returns is a block of one of the backends. *)
Lemma get_loop_spec bs c w :
  wp (get_loop bs c) w (fun o w' =>
    (forall b, blocks w' b = blocks w b) /\
    match o with
    | Ret (inl v) => exists b, b ∈ bs /\ blocks w b !! cid_str c = Some v
    | Ret (inr _) | Fail _ => True
    | _ => False
    end).
Proof.
  revert w. induction bs as [|b bs IH]; intros w; cbn; [by apply wp_fail|].
  apply wp_bind, wp_attempt. eapply wp_mono; [apply Get_block_spec|].
  intros [[v|e]|e| |] w1 [Hw Ho]; [| | |done..].
  - apply wp_ret. split; [done|]. exists b. split; [left|done].
  - by apply wp_ret.
  - eapply wp_mono; [apply IH|]. intros o w2 [Hw2 Ho2].
    split; [intros; by rewrite Hw2|]. destruct o as [[v|]| | |]; try done.
    destruct Ho2 as (b' & Hin & Hb). exists b'. split; [by right|]. by rewrite <-Hw.
Qed.

(** Every block is filed under its own identifier. *)
Definition addressed w : Prop :=
  forall b k v, blocks w b !! k = Some v -> exists c, cid_Sum v = inl c /\ cid_str c = k.

Lemma back_Store_addressed b r : steps (keeps addressed) (back_Store b r).
Proof.
  intros w Hw. pose proof (Store_spec b r w) as Hsp. unfold wp in Hsp.
  destruct (back_Store b r w) as [[[rest [e|]]|e| |] w']; cbn in *; [| |done..].
  - intros b' k v. rewrite (proj2 Hsp). apply Hw.
  - destruct Hsp as (_ & (c & Hc & Hb) & Hne). intros b' k v.
    destruct (decide (b' = b)) as [->|]; [|rewrite Hne by done; apply Hw].
    rewrite Hb, lookup_insert. case_decide as E; [|apply Hw]. intros [= <-]. eauto.
Qed.

Lemma back_Remove_addressed b c : steps (keeps addressed) (back_Remove b c).
Proof.
  intros w Hw. pose proof (Remove_spec b c w) as Hsp. unfold wp in Hsp.
  destruct (back_Remove b c w) as [[u|e| |] w']; cbn in *; [| |done..].
  - destruct Hsp as [Hb Hne]. intros b' k v.
    destruct (decide (b' = b)) as [->|]; [|rewrite Hne by done; apply Hw].
    destruct Hb as [-> | ->]; [|apply Hw]. rewrite lookup_delete_Some. intros [_ ?]. by eapply Hw.
  - intros b' k v. rewrite Hsp. apply Hw.
Qed.

Lemma back_Get_addressed b c : steps (keeps addressed) (back_Get b c).
Proof.
  intros w Hw b' k v. pose proof (Get_block_spec b c w) as Hsp. unfold wp in Hsp.
  rewrite (proj1 Hsp). apply Hw.
Qed.

Lemma back_IsExist_addressed b c : steps (keeps addressed) (back_IsExist b c).
Proof.
  intros w Hw b' k v. pose proof (IsExist_spec b c w) as Hsp. unfold wp in Hsp.
  rewrite (proj1 Hsp). apply Hw.
Qed.
Hint Resolve back_Store_addressed back_Remove_addressed back_Get_addressed
  back_IsExist_addressed : go.

Lemma store_loop_addressed bs r err : steps (keeps addressed) (store_loop bs r err).
Proof. revert r err. induction bs; intros; cbn [store_loop]; go_steps. Qed.
Lemma remove_loop_addressed bs c err : steps (keeps addressed) (remove_loop bs c err).
Proof. revert err. induction bs; intros; cbn [remove_loop]; go_steps. Qed.
Lemma get_loop_addressed bs c : steps (keeps addressed) (get_loop bs c).
Proof. induction bs; cbn [get_loop]; go_steps. Qed.
Lemma exist_loop_addressed bs c : steps (keeps addressed) (exist_loop bs c).
Proof. induction bs; cbn [exist_loop]; go_steps. Qed.
Hint Resolve store_loop_addressed remove_loop_addressed get_loop_addressed
  exist_loop_addressed : go.

(** Content addressing: storing, removing, reading and probing through the
    manager keep every block filed under its own identifier, whatever fails; and
    in such a state a successful read of an identifier returns a block of one of
    the backends whose identifier it is. *)
Theorem get_authentic ss c r w :
  addressed w ->
  addressed (sm_Store ss c r w).2 /\ addressed (sm_Remove ss c w).2 /\
  addressed (sm_Get ss c w).2 /\ addressed (sm_IsExist ss c w).2 /\
  forall v, (sm_Get ss c w).1 = Ret (inl v) -> cid_Sum v = inl c.
Proof.
  intros Hw. split_and!.
  - revert w Hw. change (steps (keeps addressed) (sm_Store ss c r)). unfold sm_Store. go_steps.
  - revert w Hw. change (steps (keeps addressed) (sm_Remove ss c)). unfold sm_Remove. go_steps.
  - revert w Hw. change (steps (keeps addressed) (sm_Get ss c)). unfold sm_Get. go_steps.
  - revert w Hw. change (steps (keeps addressed) (sm_IsExist ss c)). unfold sm_IsExist. go_steps.
  - intros v Hv. pose proof (get_loop_spec (sm_backends ss) c w) as [_ Hg].
    unfold sm_Get in Hv. rewrite Hv in Hg. destruct Hg as (b & _ & Hb).
    apply Hw in Hb as (c' & Hc' & E). destruct c, c'. cbn in E. by subst.
Qed.

(** Once a backend succeeded the reader is empty, so the others store at most the
    empty block. *)
Lemma store_loop_drained bs err w :
  NoDup bs ->
  wp (store_loop bs [] err) w (fun o w' =>
    (forall b, b ∉ bs -> blocks w' b = blocks w b) /\
    (forall b, b ∈ bs -> blocks w' b = blocks w b \/
       exists c, cid_Sum [] = inl c /\ blocks w' b = <[cid_str c := []]> (blocks w b)) /\
    match o with Ret _ => True | _ => False end).
Proof.
  intros Hnd. revert err w. induction Hnd as [|b bs Hb Hnd IH]; intros err w; cbn.
  { apply wp_ret. split_and!; try done. by intros b ?%elem_of_nil. }
  apply wp_bind. eapply wp_mono; [apply Store_spec|].
  intros [[rest e]|e| |] w1 Ho; [|done..]; cbn [fst snd].
  assert (rest = [] /\ (forall b', b' <> b -> blocks w1 b' = blocks w b') /\
    (blocks w1 b = blocks w b \/
     exists c, cid_Sum [] = inl c /\ blocks w1 b = <[cid_str c := []]> (blocks w b)))
    as (-> & Hne & Hsame).
  { destruct e as [e|].
    - destruct Ho as [[pre Hpre] Ho]. symmetry in Hpre. apply app_eq_nil in Hpre as [_ ->]. auto.
    - destruct Ho as (-> & Hst & Hne). auto. }
  eapply wp_mono; [apply IH|]. intros o w2 (Hout & Hin & Ho2). split_and!; [| |done].
  - intros b' Hb'. rewrite Hout by (intros ?; apply Hb'; by right).
    apply Hne. intros ->. apply Hb'. by left.
  - intros b' [->|Hb']%elem_of_cons; [by rewrite Hout|].
    rewrite <-(Hne b') by (intros ->; done). by apply Hin.
Qed.

(** With several backends only the first one that stores a content gets it:
    the backends share one reader, so when the first backend succeeds each later
    backend is left as it was or gets the empty block. *)
Theorem store_first_only b bs c r w :
  NoDup (b :: bs) -> (exists rest, (back_Store b r w).1 = Ret (rest, None)) ->
  let w' := (sm_Store (MkStoreManager (b :: bs)) c r w).2 in
  (exists k, cid_Sum r = inl k /\ blocks w' b = <[cid_str k := r]> (blocks w b)) /\
  forall b', b' ∈ bs -> blocks w' b' = blocks w b' \/
    exists k, cid_Sum [] = inl k /\ blocks w' b' = <[cid_str k := []]> (blocks w b').
Proof.
  intros [Hb Hnd]%NoDup_cons [rest Hok]. cbv zeta.
  cut (wp (sm_Store (MkStoreManager (b :: bs)) c r) w (fun _ w' =>
    (exists k, cid_Sum r = inl k /\ blocks w' b = <[cid_str k := r]> (blocks w b)) /\
    forall b', b' ∈ bs -> blocks w' b' = blocks w b' \/
      exists k, cid_Sum [] = inl k /\ blocks w' b' = <[cid_str k := []]> (blocks w b'))).
  { by unfold wp. }
  unfold sm_Store. cbn [sm_backends store_loop]. apply wp_bind, wp_bind.
  pose proof (Store_spec b r w) as Hs. unfold wp at 1. unfold wp in Hs. rewrite Hok in *.
  destruct Hs as (-> & Hst & Hne). cbn [fst snd].
  eapply wp_mono; [by apply store_loop_drained|]. intros o w' (Hout & Hin & Ho).
  assert ((exists k, cid_Sum r = inl k /\ blocks w' b = <[cid_str k := r]> (blocks w b)) /\
    forall b', b' ∈ bs -> blocks w' b' = blocks w b' \/
      exists k, cid_Sum [] = inl k /\ blocks w' b' = <[cid_str k := []]> (blocks w b')) as HQ.
  { split; [by rewrite Hout|]. intros b' Hb'. rewrite <-(Hne b') by (intros ->; done).
    by apply Hin. }
  destruct o as [[e|]| | |]; done.
Qed.

Lemma remove_loop_app bs bs' c err w :
  remove_loop (bs ++ bs') c err w = (e <- remove_loop bs c err ;; remove_loop bs' c e) w.
Proof.
  revert err w. induction bs as [|b bs IH]; intros err w; [done|].
  cbn [remove_loop app]. unfold bind in *. destruct (attempt (back_Remove b c) w) as [[[u|e]| | |] w1];
    [apply IH|apply IH|done..].
Qed.

(** [Remove] reports the last backend only: its result is that of the last
    backend, whatever the backends before it returned. *)
Theorem remove_reports_last bs b c w e w1 :
  remove_loop bs c None w = (Ret e, w1) ->
  sm_Remove (MkStoreManager (bs ++ [b])) c w = back_Remove b c w1.
Proof.
  intros Hrun. unfold sm_Remove. cbn [sm_backends]. unfold bind at 1.
  rewrite remove_loop_app. unfold bind at 1. rewrite Hrun.
  cbn [remove_loop]. unfold bind, attempt, ret.
  by destruct (back_Remove b c w1) as [[[]|e'| |] w2].
Qed.
End Laws.

(** ** Backends in memory *)
Module MemBackend.
Import TextCid.

(** Backend [n] keeps its blocks in entry [n]; backend [9] always fails. *)
Abbreviation world := (gmap nat (gmap string bytes)).
Definition held (w : world) (b : nat) : gmap string bytes := default ∅ (w !! b).
Definition sum (r : bytes) : string := String "Q"%char (bytes_string r).

#[export] Instance Backend : StoreBackend world nat := {
  back_Id b := format_d (Z.of_nat b);
  back_Open _ := ret tt;
  back_Close _ := ret tt;
  back_Store b r w :=
    if decide (b = 9)%nat then (Ret (r, Some (EText "down")), w)
    else (Ret ([], None), <[b := <[sum r := r]> (held w b)]> w);
  back_Remove b c w :=
    if decide (b = 9)%nat then (Fail (EText "down"), w)
    else (Ret tt, <[b := delete (cid_str c) (held w b)]> w);
  back_Get b c w :=
    match held w b !! cid_str c with
    | Some v => (Ret (inl v), w)
    | None => (Fail (EText "not found"), w)
    end;
  back_IsExist b c w := (Ret (bool_decide (is_Some (held w b !! cid_str c))), w)
}.

Lemma held_insert w b b' m : held (<[b := m]> w) b' = if decide (b = b') then m else held w b'.
Proof. unfold held. rewrite lookup_insert. by case_decide. Qed.

#[export, program] Instance Laws : BackendLaws world nat := { blocks := held }.
Next Obligation.
  intros b r w. unfold wp. cbn. case_decide; cbn; [split; [by exists []|done]|].
  split_and!; [done| |].
  - exists (MkCid (sum r)). split; [done|]. by rewrite held_insert, decide_True.
  - intros b' Hb. by rewrite held_insert, decide_False.
Qed.
Next Obligation. intros b c w. unfold wp. cbn. by destruct (held w b !! cid_str c) eqn:E. Qed.
Next Obligation.
  intros b c w. unfold wp. cbn. case_decide; cbn; [done|]. split.
  - left. by rewrite held_insert, decide_True.
  - intros b' Hb. by rewrite held_insert, decide_False.
Qed.
Next Obligation. done. Qed.

Definition content : bytes := string_bytes "shard".
Definition one_block : world := {[1%nat := {[sum content := content]}]}.

Lemma one_block_addressed : addressed one_block.
Proof.
  intros b k v. cbn. unfold held, one_block. destruct (decide (b = 1)%nat) as [->|Hb].
  - rewrite lookup_singleton_eq. cbn. intros [<- <-]%lookup_singleton_Some. eauto.
  - rewrite lookup_singleton_ne by done. cbn. by rewrite lookup_empty.
Qed.

Lemma get_authentic_witness :
  (sm_Get (MkStoreManager [1%nat]) (MkCid (sum content)) one_block).1 = Ret (inl content) /\
  cid_Sum content = inl (MkCid (sum content)).
Proof.
  split; [vm_compute; reflexivity|].
  refine (proj2 (proj2 (proj2 (proj2 (get_authentic (MkStoreManager [1%nat]) (MkCid (sum content))
    content one_block one_block_addressed)))) content _).
  vm_compute. reflexivity.
Defined.

Lemma store_first_only_witness :
  let w' := (sm_Store (MkStoreManager [1%nat; 2%nat]) (MkCid (sum content)) content ∅).2 in
  held w' 1 = {[sum content := content]} /\
  (held w' 2 = ∅ \/ exists k, cid_Sum [] = inl k /\ held w' 2 = {[cid_str k := []]}).
Proof.
  cbv zeta. destruct (store_first_only 1%nat [2%nat] (MkCid (sum content)) content (∅ : world))
    as [_ H].
  - apply (bool_decide_unpack _). vm_compute. exact I.
  - exists []. reflexivity.
  - split; [vm_compute; reflexivity|]. apply (H 2%nat). left.
Defined.

Lemma remove_reports_last_witness :
  sm_Remove (MkStoreManager [9%nat; 1%nat]) (MkCid (sum content)) one_block
  = back_Remove 1%nat (MkCid (sum content)) one_block.
Proof.
  refine (remove_reports_last [9%nat] 1%nat (MkCid (sum content)) one_block
            (Some (EText "down")) one_block _).
  reflexivity.
Defined.
End MemBackend.
