(* ===== verification/ChainApi.v ===== *)
(** * What the node sees of the chain and of its peers

    The interfaces the storage and gateway services call, over a world [W] that
    stands for everything outside the node: the chain (through [chain/*.go] and
    the cosmos client), the peers, the storage backends and the clock.  A call
    may change the world in any way.

    [ChainSvcApi] has the methods of the Go interface of the same name that the
    modelled code uses; its results are the protobuf types of the chain with the
    fields the code reads.  [TxLib] and [DidLib] are the decoders and signature
    checks of the libraries. *)
From stdpp Require Import base list gmap strings.
From Stdlib Require Import ZArith Lia.
From S2P Require Import Prelude Types.

(** ** Calls

    A call that can fail gives a value or an error; a call that cannot gives a
    value.  Neither panics; a call that blocks for ever has no result and is not
    represented. *)
Definition call (W A : Type) : Type := W -> (A + error) * W.
Definition total_call (W A : Type) : Type := W -> A * W.

Definition invoke {W A} (c : call W A) : GoM W A := fun w =>
  match c w with
  | (inl a, w') => (Ret a, w')
  | (inr e, w') => (Fail e, w')
  end.
Definition invoke_total {W A} (c : total_call W A) : GoM W A := fun w =>
  let '(a, w') := c w in (Ret a, w').

Lemma safe_invoke {W A} (c : call W A) : safe (invoke c).
Proof. intros w. unfold invoke. by destruct (c w) as [[] ?]. Qed.
Lemma safe_invoke_total {W A} (c : total_call W A) : safe (invoke_total c).
Proof. intros w. unfold invoke_total. by destruct (c w). Qed.
#[export] Hint Resolve safe_invoke safe_invoke_total : safe.

Lemma wp_call {W A} (c : call W A) w (Q : outcome A -> W -> Prop) :
  (forall a w', c w = (inl a, w') -> Q (Ret a) w') ->
  (forall e w', c w = (inr e, w') -> Q (Fail e) w') -> wp (invoke c) w Q.
Proof. intros Hr Hf. unfold wp, invoke. destruct (c w) as [[a|e] w'] eqn:E; cbn; auto. Qed.
Lemma wp_call_total {W A} (c : total_call W A) w (Q : outcome A -> W -> Prop) :
  (forall a w', c w = (a, w') -> Q (Ret a) w') -> wp (invoke_total c) w Q.
Proof. intros Hr. unfold wp, invoke_total. destruct (c w) as [a w'] eqn:E; cbn; auto. Qed.

(** ** Data of the chain *)
Record Shard := MkShard {
  sh_Id : Z;
  sh_OrderId : Z;
  sh_Cid : string;
  sh_From : string;
  sh_Status : Z;
  sh_CreatedAt : Z;
  sh_Duration : Z;
  sh_RenewInfos : list Z;    (* the duration of each renewal *)
  sh_Sp : string
}.

Record FullOrder := MkFullOrder {
  fo_Id : Z;
  fo_Owner : string;
  fo_Provider : string;
  fo_Operation : Z;
  fo_Status : Z;
  fo_CreatedAt : Z;
  fo_Timeout : Z;
  fo_Shards : gmap string Shard;
  fo_DataId : string;
  fo_Commit : string
}.

Record Metadata := MkMetadata {
  md_DataId : string;
  md_Owner : string;
  md_Alias : string;
  md_GroupId : string;
  md_OrderId : Z;
  md_Tags : list string;
  md_Cid : string;
  md_Commits : list string;
  md_ExtendInfo : string;
  md_Status : Z;
  md_Orders : list Z;
  md_CreatedAt : Z;
  md_Duration : Z;
  md_Commit : string;
  md_ReadonlyDids : list string;
  md_ReadwriteDids : list string
}.

Record ResultTx := MkResultTx {
  rt_Hash : string;
  rt_Code : Z;              (* TxResult.Code *)
  rt_Data : bytes;          (* TxResult.Data *)
  rt_Tx : bytes
}.

(** The constants of the order module of the chain, and what reading an absent
    entry of [order.Shards] gives: the map has pointers or values, as the chain's
    code generator chose, so a nil pointer ([None]) or a zero shard. *)
Class ChainConsts := {
  ShardCompleted : Z;
  ShardTimeout : Z;
  ShardMigrating : Z;
  MetaComplete : Z;
  absent_shard : option Shard
}.

(** ** The chain service *)
Class ChainSvcApi (W : Type) := {
  Account : Type;
  VerifySignature : Account -> bytes -> bytes -> option bool;  (* None: no public key *)
  chain_GetLastHeight : call W Z;
  chain_GetAccount : string -> call W Account;
  chain_GetFishmen : call W string;
  chain_GetNodePeer : string -> call W string;
  chain_GetTx : string -> Z -> call W ResultTx;
  chain_GetOrder : Z -> call W FullOrder;
  chain_GetMeta : string -> call W Metadata;
  chain_ListShards : Z -> Z -> call W (list Shard * Z);
  chain_CompleteOrder : string -> Z -> Cid -> Z -> call W (string * Z);
  (* hash, results, height: the results also come with an error *)
  chain_MigrateOrder : string -> list string ->
    total_call W (string * gmap string string * Z * option error)
}.

(** ** What a gateway asks of the chain *)

(** A shard as the chain announces it to a gateway. *)
Record ShardMeta := MkShardMeta {
  smt_ShardId : Z;
  smt_Peer : string;
  smt_Cid : string;
  smt_Provider : string;
  smt_Sp : string
}.

(** [types.Model] *)
Record Model := MkModel {
  mo_DataId : string;
  mo_Alias : string;
  mo_GroupId : string;
  mo_OrderId : Z;
  mo_Owner : string;
  mo_Tags : list string;
  mo_Cid : string;
  mo_Shards : gmap string ShardMeta;
  mo_CommitId : string;
  mo_Commits : list string;
  mo_Version : string;
  mo_Content : bytes;
  mo_ExtendInfo : string
}.

(** The files of the network have this prefix in their alias. *)
Definition Type_Prefix_File : string := "file_".

(** [types.MetadataProposal]: the query a client signed. *)
Record MetadataProposal := MkMetadataProposal {
  mtp_Proposal : QueryProposal;
  mtp_JwsSignature : JwsSignature
}.

(** The proposal of an order and its signature. *)
Record Proposal := MkProposal {
  pr_Owner : string;
  pr_DataId : string;
  pr_Cid : string;
  pr_Alias : string;
  pr_GroupId : string;
  pr_CommitId : string;
  pr_Tags : list string;
  pr_Rule : string;
  pr_ExtendInfo : string;
  pr_Size : Z;
  pr_Provider : string;
  pr_Duration : Z;
  pr_Replica : Z;
  pr_Timeout : Z;
  pr_Operation : Z
}.
Record OrderStoreProposal := MkOrderStoreProposal {
  osp_Proposal : Proposal;
  osp_JwsSignature : JwsSignature
}.

(** The responses [MsgStoreResponse] and [MsgReadyResponse]. *)
Record OrderResponse := MkOrderResponse { or_OrderId : Z; or_Shards : list ShardMeta }.

(** The wire format of the proposals. *)
Class ProposalLib := {
  Proposal_Marshal : Proposal -> bytes + error;
  Proposal_Unmarshal : bytes -> Proposal + error;
  JwsSignature_Marshal : JwsSignature -> bytes + error;
  JwsSignature_Unmarshal : bytes -> JwsSignature + error
}.
Class ProposalLaws `{!ProposalLib} := {
  Proposal_roundtrip p b : Proposal_Marshal p = inl b -> Proposal_Unmarshal b = inl p;
  JwsSignature_roundtrip s b : JwsSignature_Marshal s = inl b -> JwsSignature_Unmarshal b = inl s
}.

Class GatewayChain (W : Type) := {
  OrderTerminateProposal : Type;
  OrderRenewProposal : Type;
  PermissionProposal : Type;
  chain_QueryMetadata : MetadataProposal -> Z -> call W (Metadata * gmap string ShardMeta);
  (* response, hash and height of the transaction *)
  chain_StoreOrder : string -> OrderStoreProposal -> call W (OrderResponse * string * Z);
  chain_OrderReady : string -> Z -> call W (OrderResponse * string * Z);
  chain_TerminateOrder : string -> OrderTerminateProposal -> call W string;
  chain_RenewOrder : string -> OrderRenewProposal -> call W (string * gmap string string);
  chain_UpdatePermission : string -> PermissionProposal -> call W string;
  (* keyring home, address, message *)
  SignByAddress : string -> string -> bytes -> call W bytes
}.

(** ** Decoders of transactions *)
Class TxLib := {
  (* tx.Tx: the values of Body.Messages; None when Body is nil *)
  Tx_Unmarshal : bytes -> option (list bytes) + error;
  MsgStore_Unmarshal : bytes -> unit + error;
  MsgReady_Unmarshal : bytes -> unit + error;
  (* sdktypes.TxMsgData: the values of MsgResponses *)
  TxMsgData_Unmarshal : bytes -> list bytes + error;
  MsgMigrateResponse_Unmarshal : bytes -> list (string * string) + error
}.

(** ** Signatures of clients *)
Class DidLib (W : Type) := {
  DidManager : Type;
  NewDidManagerWithDid : string -> call W DidManager;
  (* saotypes.QueryProposal.Marshal *)
  QueryProposal_Marshal : QueryProposal -> bytes + error;
  base64url_Encode : bytes -> string;
  VerifyJWS : DidManager -> string -> JwsSignature -> call W unit
}.

(** ** The protocols between gateway and storage node *)
Inductive proto := Local | Stream.

Class StorageProtocol (W : Type) := {
  RequestShardComplete : proto -> ShardCompleteReq -> string -> total_call W ShardCompleteResp;
  RequestShardStore : proto -> ShardLoadReq -> string -> total_call W ShardLoadResp;
  RequestShardMigrate : proto -> ShardMigrateReq -> string -> total_call W ShardMigrateResp
}.

(** [MsgComplete]: who completed a shard of which order. *)
Record MsgComplete := MkMsgComplete { cm_Provider : string; cm_OrderId : Z }.
Class CompleteTx := { MsgComplete_Unmarshal : bytes -> MsgComplete + error }.

(** The methods of [GatewayProtocol], for the two entries of the protocol map. *)
Class GatewayProtocol (W : Type) := {
  RequestShardAssign : proto -> ShardAssignReq -> string -> total_call W ShardAssignResp;
  RequestShardLoad : proto -> ShardLoadReq -> string -> bool -> total_call W ShardLoadResp;
  GetPeers : proto -> total_call W string
}.

(** The verb [%d] on an error value, which prints the representation of the value. *)
Class FmtLib := { Sprintf_d_error : error -> string }.

(** ** The clock, in nanoseconds *)
Class Clock (W : Type) := { time_Now : total_call W Z }.

Definition Unix (now : Z) : Z := now / 1000000000.
Definition UnixMilli (now : Z) : Z := now / 1000000.

(** [order.Shards[addr]]: the code then reads fields of the result. *)
Definition shard_at `{!ChainConsts} (addr : string) (o : FullOrder) : option Shard :=
  match fo_Shards o !! addr with Some s => Some s | None => absent_shard end.

(** ** Iteration over a map

    Go leaves the order of [range] over a map open; a run has some order. *)
Class GoRange := { range : forall {A}, gmap string A -> list (string * A) }.
Class GoRangeLaws `{!GoRange} := {
  range_perm {A} (m : gmap string A) : range m ≡ₚ map_to_list m
}.

(** The entries of a map with one key: at most one, whatever the order. *)
Lemma filter_key_NoDup {A} (k : string) (l : list (string * A)) v :
  NoDup l.*1 -> (k, v) ∈ l -> List.filter (fun p => String.eqb p.1 k) l = [(k, v)].
Proof.
  induction l as [|[k' v'] l IH]; cbn; [by intros _ ?%elem_of_nil|].
  intros [Hk' Hnd]%NoDup_cons Hin. destruct (String.eqb_spec k' k) as [->|Hne].
  - apply elem_of_cons in Hin as [[= <-]|Hin].
    + f_equal. rewrite <-(List.filter_ext_in (fun _ => false)).
      * by rewrite List.filter_false.
      * intros [k2 v2] Hin2%list_elem_of_In. cbn. symmetry. apply String.eqb_neq. intros ->.
        apply Hk'. by apply (list_elem_of_fmap_2 fst) in Hin2.
    + destruct Hk'. by apply (list_elem_of_fmap_2 fst) in Hin.
  - apply elem_of_cons in Hin as [[= <- _]|Hin]; [done|]. by apply IH.
Qed.

Lemma filter_key_none {A} (k : string) (l : list (string * A)) :
  (forall v, (k, v) ∉ l) -> List.filter (fun p => String.eqb p.1 k) l = [].
Proof.
  intros Hl. rewrite (List.filter_ext_in _ (fun _ => false)); [by rewrite List.filter_false|].
  intros [k' v] Hin%list_elem_of_In. apply String.eqb_neq. cbn. intros ->. by destruct (Hl v).
Qed.

Lemma filter_range `{!GoRange, !GoRangeLaws} {A} (k : string) (m : gmap string A) :
  List.filter (fun p => String.eqb p.1 k) (range m)
  = match m !! k with Some v => [(k, v)] | None => [] end.
Proof.
  destruct (m !! k) as [v|] eqn:E.
  - apply filter_key_NoDup.
    + rewrite range_perm. apply NoDup_fst_map_to_list.
    + rewrite range_perm. by apply elem_of_map_to_list.
  - apply filter_key_none. intros v. rewrite range_perm, elem_of_map_to_list. congruence.
Qed.
