(* ===== verification/Storage.v ===== *)
(** * The storage service ([node/storage/storage_service.go])

    A storage node takes shards from gateways: a gateway assigns a shard
    ([HandleShardAssign]), the service fetches and stores its content and
    completes the order on the chain ([process], driven by the work queue), it
    serves stored shards ([HandleShardLoad]), moves them to another node
    ([Migrate], [processMigrate], [HandleShardMigrate]) and drops those that left
    the chain ([processExpire]).

    The state [svc] has the world outside, the datastore, the work queue, the
    requests sent on the migration channel, and a trace of the calls whose order
    matters.  A handler is a computation on it; [process] runs on [proc], the
    service and the task it works on (the code mutates the task through a
    pointer, and the caller reads it afterwards, also when an error was
    returned).  Log output is left out. *)
From stdpp Require Import base list gmap strings.
From Stdlib Require Import ZArith Lia Ascii.
From S2P Require Import Prelude Types StateUtils Cbor CborTypes Queue StoreManager ChainApi.

Definition MAX_RETRIES : Z := 3.

Record MigrateRequest := MkMigrateRequest {
  mr_FromProvider : string;
  mr_OrderId : Z;
  mr_DataId : string;
  mr_Cid : string;
  mr_ToProvider : string;
  mr_MigrateTxHash : string;
  mr_MigrateHeight : Z
}.

(** Calls whose order the theorems are about, with whether they succeeded. *)
Inductive event :=
| EvStore (c : Cid) (content : bytes) (ok : bool)
| EvExist (c : Cid) (found : bool)
| EvComplete (orderId : Z) (c : Cid) (size : Z) (ok : bool)
| EvNotify (req : ShardCompleteReq)
| EvRemove (c : Cid) (ok : bool).

Section Storage.
Context `{!CborLib, !CborLaws, !CidLib, !ErrorText} {D W B : Type}.
Context `{!Datastore D, !StoreBackend W B, !ChainConsts, !ChainSvcApi W, !TxLib, !DidLib W,
          !StorageProtocol W, !Clock W, !GoRange}.
(** The fields of [StoreSvc] that do not change. *)
Context (nodeAddress : string) (storeManager : StoreManager B).

Record svc := Svc {
  sv_w : W;
  sv_ds : D;
  sv_queue : RequestQueue;
  sv_migrate : list MigrateRequest;
  sv_trace : list event
}.

Definition on_w {A} (m : GoM W A) : GoM svc A :=
  zoom sv_w (fun w s => Svc w (sv_ds s) (sv_queue s) (sv_migrate s) (sv_trace s)) m.
Definition on_ds {A} (m : GoM D A) : GoM svc A :=
  zoom sv_ds (fun d s => Svc (sv_w s) d (sv_queue s) (sv_migrate s) (sv_trace s)) m.
Definition on_queue {A} (m : GoM RequestQueue A) : GoM svc A :=
  zoom sv_queue (fun q s => Svc (sv_w s) (sv_ds s) q (sv_migrate s) (sv_trace s)) m.
Definition emit (e : event) : GoM svc unit :=
  modify (fun s => Svc (sv_w s) (sv_ds s) (sv_queue s) (sv_migrate s) (sv_trace s ++ [e])).
Definition send_migrate (r : MigrateRequest) : GoM svc unit :=
  modify (fun s => Svc (sv_w s) (sv_ds s) (sv_queue s) (sv_migrate s ++ [r]) (sv_trace s)).

Definition is_inl {A E} (r : A + E) : bool := match r with inl _ => true | inr _ => false end.

(** A call that is recorded in the trace. *)
Definition traced {A} (ev : bool -> event) (m : GoM svc A) : GoM svc A :=
  r <- attempt m ;; emit (ev (is_inl r)) ;; lift r.

Definition call_Store (c : Cid) (content : bytes) : GoM svc unit :=
  traced (EvStore c content) (on_w (sm_Store storeManager c content)).
Definition call_CompleteOrder (orderId : Z) (c : Cid) (size : Z) : GoM svc (string * Z) :=
  traced (EvComplete orderId c size)
    (on_w (invoke (chain_CompleteOrder nodeAddress orderId c size))).
Definition call_IsExist (c : Cid) : GoM svc bool :=
  b <- on_w (sm_IsExist storeManager c) ;; emit (EvExist c b) ;; ret b.
Definition call_Remove (c : Cid) : GoM svc unit :=
  traced (EvRemove c) (on_w (sm_Remove storeManager c)).

(** ** Assigning a shard *)
Definition new_shard (req : ShardAssignReq) (order : FullOrder) (c : Cid) : ShardInfo :=
  MkShardInfo (sar_OrderId req) (sar_DataId req) c (fo_Owner order) (fo_Provider order)
    (format_d (fo_Operation order)) (format_d (fo_Operation order)) "" 0 0 0
    (sar_TimeoutHeight req) ShardStateValidated 0 "".

Definition shard_request (s : ShardInfo) : WorkRequest := MkWorkRequest OrderInfo_zero s None.

Fixpoint assign_loop (req : ShardAssignReq) (order : FullOrder) (shardCids : list string) :
    GoM svc ShardAssignResp :=
  match shardCids with
  | [] => ret (MkShardAssignResp 0 "")
  | shardCid :: rest =>
      match cid_Decode shardCid with
      | inr _ => ret (MkShardAssignResp ErrorCodeInvalidShardCid ("invalid cid " +:+ shardCid))
      | inl c =>
          got <- attempt (on_ds (GetShard (sar_OrderId req) c)) ;;
          let shardInfo := match got with inl s => s | inr _ => ShardInfo_zero end in
          shardInfo <-
            (if decide (ShardInfo_zero = shardInfo) then
               let shardInfo := new_shard req order c in
               ignore (on_ds (SaveShard shardInfo)) ;; ret shardInfo
             else ret shardInfo) ;;
          let shardInfo :=
            if si_ExpireHeight shardInfo <? sar_TimeoutHeight req then
              si_set_Tries 0 (si_set_ExpireHeight (sar_TimeoutHeight req)
                (si_set_State ShardStateValidated shardInfo))
            else shardInfo in
          on_queue (Push (shard_request shardInfo)) ;;
          assign_loop req order rest
      end
  end.

Definition HandleShardAssign (req : ShardAssignReq) : GoM svc ShardAssignResp :=
  let respond code msg := ret (MkShardAssignResp code msg) in
  if negb (String.eqb (sar_Assignee req) nodeAddress) then
    respond ErrorCodeInvalidShardAssignee
      ("shard assignee is " +:+ sar_Assignee req +:+ ", but current node is " +:+ nodeAddress)
  else
  try resultTx <- on_w (invoke (chain_GetTx (sar_TxHash req) (sar_Height req)))
    catch err => respond ErrorCodeInternalErr ("internal error: " +:+ Error err) ;;
  let invalid := "tx " +:+ bytes_string (rt_Tx resultTx) +:+ " body is invalid." in
  if rt_Code resultTx =? 0 then
    match Tx_Unmarshal (rt_Tx resultTx) with
    | inr _ => respond ErrorCodeInvalidTx invalid
    | inl body =>
        messages <- deref body ;;
        msg <- deref (head messages) ;;
        match (if String.eqb (sar_AssignTxType req) AssignTxTypeStore
               then MsgStore_Unmarshal msg else MsgReady_Unmarshal msg) with
        | inr _ => respond ErrorCodeInvalidTx invalid
        | inl _ =>
            try order <- on_w (invoke (chain_GetOrder (sar_OrderId req)))
              catch err => respond ErrorCodeInternalErr ("internal error: " +:+ Error err) ;;
            let shardCids :=
              (fun p => sh_Cid p.2) <$>
                List.filter (fun p => String.eqb p.1 nodeAddress) (range (fo_Shards order)) in
            if (Z.of_nat (length shardCids) <=? 0) then
              respond ErrorCodeInvalidProvider
                ("order " +:+ format_d (sar_OrderId req) +:+ " doesn't have shard provider "
                 +:+ nodeAddress)
            else assign_loop req order shardCids
        end
    end
  else respond ErrorCodeInvalidTx invalid.

(** ** Processing a task *)
Record proc := Proc { p_svc : svc; p_task : ShardInfo }.

Definition in_svc {A} (m : GoM svc A) : GoM proc A :=
  zoom p_svc (fun s p => Proc s (p_task p)) m.
Definition get_task : GoM proc ShardInfo := gets p_task.
Definition set_task (f : ShardInfo -> ShardInfo) : GoM proc unit :=
  modify (fun p => Proc (p_svc p) (f (p_task p))).

(** [utils.SaveShard(.., *task)], with the error logged. *)
Definition save_task : GoM proc unit :=
  task <- get_task ;; ignore (in_svc (on_ds (SaveShard task))).

(** A nil [err] has no [Error] method: the call panics. *)
Definition updateShardError (err : option error) : GoM proc unit :=
  e <- deref err ;;
  set_task (si_set_LastErr (Error e)) ;;
  save_task.

Definition getStorageProtocolAndPeer (targetAddress : string) : GoM svc (proto * string) :=
  if String.eqb targetAddress nodeAddress then ret (Local, "")
  else peer <- on_w (invoke (chain_GetNodePeer targetAddress)) ;; ret (Stream, peer).

(** The content of a shard is fetched from its gateway and stored ([err] is the
    nil error left by [getStorageProtocolAndPeer]). *)
Definition fetch_shard (sp : proto) (peerInfo : string) : GoM proc unit :=
  task <- get_task ;;
  resp <- in_svc (on_w (invoke_total (RequestShardStore sp
    (MkShardLoadReq (si_Owner task) (si_DataId task) (si_OrderId task) (si_Cid task)
       MetadataProposalCbor_zero 0 RelayProposalCbor_zero) peerInfo))) ;;
  if negb (slp_Code resp =? 0) then
    updateShardError (Some (Wrapf ErrFailuresResponsed (slp_Message resp))) ;;
    fail (Wrapf ErrFailuresResponsed (slp_Message resp))
  else
  let c := match CalculateCid (slp_Content resp) with inl c => c | inr _ => Undef end in
  if negb (String.eqb (cid_String c) (cid_String (si_Cid task))) then
    updateShardError None ;;
    fail (Wrapf ErrInvalidCid
            ("ipfs cid " +:+ cid_String c +:+ " != task cid " +:+ cid_String (si_Cid task)))
  else
  try _u <- in_svc (call_Store (si_Cid task) (slp_Content resp))
    catch err => (updateShardError (Some err) ;; fail (Wrap ErrStoreFailed (Some err))) ;;
  set_task (si_set_Size (wrap_u64 (Z.of_nat (length (slp_Content resp))))).

Definition check_renewed : GoM proc unit :=
  task <- get_task ;;
  isExist <- in_svc (call_IsExist (si_Cid task)) ;;
  if negb isExist then
    updateShardError None ;;
    fail (Wrapf ErrDataMissing ("shard with cid " +:+ cid_String (si_Cid task) +:+ " not found"))
  else ret tt.

Definition store_phase (sp : proto) (peerInfo : string) : GoM proc unit :=
  task <- get_task ;;
  if si_State task <? ShardStateStored then
    (if negb (String.eqb (si_OrderOperation task) "3") ||
        negb (String.eqb (si_ShardOperation task) "3")
     then fetch_shard sp peerInfo else check_renewed) ;;
    set_task (si_set_State ShardStateStored) ;;
    save_task
  else ret tt.

Definition complete_phase : GoM proc unit :=
  task <- get_task ;;
  if si_State task <? ShardStateTxSent then
    try tx <- in_svc (call_CompleteOrder (si_OrderId task) (si_Cid task) (si_Size task))
      catch err => (updateShardError (Some err) ;; fail err) ;;
    set_task (fun t => si_set_Complete tx.1 tx.2 (si_set_State ShardStateComplete t)) ;;
    save_task ;;
    order <- attempt (in_svc (on_w (invoke (chain_GetOrder (si_OrderId task))))) ;;
    match order with
    | inr _ => ret tt
    | inl order =>
        shard <- deref (shard_at nodeAddress order) ;;
        ignore (in_svc (on_ds (SaveShardExpire (sh_Id shard) (sh_Cid shard) (sh_OrderId shard))))
    end
  else ret tt.

Definition notify_phase (sp : proto) (peerInfo : string) : GoM proc unit :=
  task <- get_task ;;
  let req := MkShardCompleteReq (si_OrderId task) (si_DataId task) [si_Cid task]
               (si_CompleteHash task) (si_CompleteHeight task) in
  resp <- in_svc (emit (EvNotify req) ;; on_w (invoke_total (RequestShardComplete sp req peerInfo))) ;;
  (if negb (scp_Code resp =? 0)
   then updateShardError (Some (Wrapf ErrFailuresResponsed (scp_Message resp))) else ret tt) ;;
  task <- get_task ;;
  if si_State task <? ShardStateComplete then
    set_task (si_set_State ShardStateComplete) ;; save_task
  else ret tt.

(** The guards on the number of tries and on the expiry: [true] when the task
    was given up. *)
Definition guard_retries : GoM proc bool :=
  task <- get_task ;;
  if MAX_RETRIES <=? si_Tries task then
    set_task (si_set_State ShardStateTerminate) ;;
    updateShardError (Some (EText ("order " +:+ format_d (si_OrderId task) +:+ " shard "
      +:+ si_DataId task +:+ " too many retries " +:+ format_d (si_Tries task)))) ;;
    ret true
  else ret false.

Definition guard_expired : GoM proc bool :=
  task <- get_task ;;
  if 0 <? si_ExpireHeight task then
    latestHeight <- in_svc (on_w (invoke chain_GetLastHeight)) ;;
    if wrap_i64 (si_ExpireHeight task) <? latestHeight then
      set_task (si_set_State ShardStateTerminate) ;;
      updateShardError (Some (EText ("order expired: latest=" +:+ format_d latestHeight
        +:+ " expireAt=" +:+ format_d (si_ExpireHeight task)))) ;;
      ret true
    else ret false
  else ret false.

Definition process : GoM proc unit :=
  task <- get_task ;;
  if si_State task =? ShardStateTerminate then ret tt else
  set_task (fun t => si_set_Tries (wrap_u64 (si_Tries t + 1)) t) ;;
  now <- in_svc (on_w (invoke_total time_Now)) ;;
  set_task (fun t => si_set_RetryAt (GetRetryAt now (si_Tries t)) t) ;;
  given_up <- guard_retries ;;
  if given_up then ret tt else
  given_up <- guard_expired ;;
  if given_up then ret tt else
  try sp <- in_svc (getStorageProtocolAndPeer (si_Gateway task))
    catch err => (updateShardError (Some err) ;; fail err) ;;
  store_phase sp.1 sp.2 ;;
  complete_phase ;;
  notify_phase sp.1 sp.2.

(** One iteration of the workers of [Start]: take a task, put it back when its
    retry time has not come or its processing failed. *)
Definition run_process (task : ShardInfo) : GoM svc (option error * ShardInfo) := fun s =>
  match process (Proc s task) with
  | (Ret _, p) => (Ret (None, p_task p), p_svc p)
  | (Fail e, p) => (Ret (Some e, p_task p), p_svc p)
  | (Panic, p) => (Panic, p_svc p)
  | (OutOfFuel, p) => (OutOfFuel, p_svc p)
  end.

Definition start_step : GoM svc unit :=
  item <- on_queue PopFront ;;
  match item with
  | None => ret tt
  | Some task =>
      now <- on_w (invoke_total time_Now) ;;
      if Unix now <? si_RetryAt (wr_Shard task) then on_queue (Push task)
      else
        r <- run_process (wr_Shard task) ;;
        match r.1 with
        | None => ret tt
        | Some _ => on_queue (Push (MkWorkRequest (wr_Order task) r.2 (wr_Job task)))
        end
  end.

(** ** Serving a shard *)
Definition check_relay_signature (account : Account) (prop : RelayProposal) (sig : bytes) :
    GoM svc (option error) :=
  match RelayProposal_MarshalCBOR prop with
  | inr err => ret (Some err)
  | inl buf =>
      match VerifySignature account buf sig with
      | Some _ => ret None     (* the result is not looked at *)
      | None => panic          (* GetPubKey() is nil *)
      end
  end.

(** A check that ends with nil, or with the text of the response to send. *)
Definition check_fishmen (req : ShardLoadReq) (remotePeerId : string) : GoM svc (option string) :=
  let relay := rpc_Proposal (slr_RelayProposal req) in
  try fishmen <- on_w (invoke chain_GetFishmen)
    catch err => ret (Some ("failed to get fishmen info: " +:+ Error err)) ;;
  if (0 <? Z.of_nat (length (rpc_Signature (slr_RelayProposal req)))) &&
     Contains fishmen (rp_NodeAddress relay) && Contains fishmen remotePeerId
  then
    try account <- on_w (invoke (chain_GetAccount (rp_NodeAddress relay)))
      catch err => ret (Some ("failed to get fishmen account info: " +:+ Error err)) ;;
    bad <- check_relay_signature account relay (rpc_Signature (slr_RelayProposal req)) ;;
    ret ((fun err => "failed marshal relay proposal: " +:+ Error err) <$> bad)
  else ret (Some ("invalid query, unexpect gateway:" +:+ remotePeerId +:+ ", should be "
                  +:+ qp_Gateway (mp_Proposal (slr_Proposal req)))).

Definition check_client (req : ShardLoadReq) (remotePeerId : string) : GoM svc (option string) :=
  let prop := mp_Proposal (slr_Proposal req) in
  let relay := rpc_Proposal (slr_RelayProposal req) in
  try didManager <- on_w (invoke (NewDidManagerWithDid (qp_Owner prop)))
    catch err => ret (Some ("invalid did: " +:+ Error err)) ;;
  let p := MkQueryProposal (qp_Owner prop) (qp_Keyword prop) (qp_GroupId prop)
             (wrap_u32 (qp_KeywordType prop)) (qp_LastValidHeight prop) (qp_Gateway prop)
             (qp_CommitId prop) (qp_Version prop) in
  match QueryProposal_Marshal p with
  | inr err => ret (Some ("marshal error: " +:+ Error err))
  | inl proposalBytes =>
      try _u <- on_w (invoke (VerifyJWS didManager (base64url_Encode proposalBytes)
                                (mp_JwsSignature (slr_Proposal req))))
        catch err => ret (Some ("verify client order proposal signature failed: "
                                +:+ Error err)) ;;
      relayed <-
        (if negb (Contains (qp_Gateway prop) remotePeerId) then
           if (0 <? Z.of_nat (length (rpc_Signature (slr_RelayProposal req)))) &&
              Contains (rp_RelayPeerIds relay) remotePeerId
           then
             try account <- on_w (invoke (chain_GetAccount (rp_NodeAddress relay)))
               catch err => ret (Some ("failed to get gateway account info: " +:+ Error err)) ;;
             bad <- check_relay_signature account relay (rpc_Signature (slr_RelayProposal req)) ;;
             ret ((fun err => "failed marshal relay proposal: " +:+ Error err) <$> bad)
           else ret (Some ("invalid query, unexpect gateway:" +:+ remotePeerId
                           +:+ ", should be " +:+ qp_Gateway prop))
         else ret None) ;;
      match relayed with
      | Some msg => ret (Some msg)
      | None =>
          try lastHeight <- on_w (invoke chain_GetLastHeight)
            catch err => ret (Some ("get chain height error: " +:+ Error err)) ;;
          if qp_LastValidHeight prop <? wrap_u64 lastHeight then
            ret (Some ("invalid query, LastValidHeight:" +:+ format_d (qp_LastValidHeight prop)
                       +:+ " > now:" +:+ format_d lastHeight))
          else ret None
      end
  end.

Definition HandleShardLoad (req : ShardLoadReq) (remotePeerId : string) : GoM svc ShardLoadResp :=
  let prop := mp_Proposal (slr_Proposal req) in
  let logAndRespond code errMsg :=
    now <- on_w (invoke_total time_Now) ;;
    ret (MkShardLoadResp code errMsg (slr_OrderId req) (slr_Cid req) [] (slr_RequestId req)
           (UnixMilli now)) in
  refused <-
    (if String.eqb (slr_Owner req) (qp_Gateway prop) && String.eqb (qp_Owner prop) (slr_Owner req)
     then check_fishmen req remotePeerId
     else check_client req remotePeerId) ;;
  match refused with
  | Some msg => logAndRespond ErrorCodeInternalErr msg
  | None =>
      let missing err := logAndRespond ErrorCodeInternalErr
        ("get " +:+ cid_String (slr_Cid req) +:+ " from store error: " +:+ Error err) in
      try reader <- on_w (sm_Get storeManager (slr_Cid req)) catch err => missing err ;;
      match reader with
      | inr err => missing err
      | inl shardContent =>
          now <- on_w (invoke_total time_Now) ;;
          ret (MkShardLoadResp 0 "" (slr_OrderId req) (slr_Cid req) shardContent
                 (slr_RequestId req) (UnixMilli now))
      end
  end.

(** ** Receiving a migrated shard *)

(** The value of the first pair with the key, the empty string when there is none. *)
Fixpoint result_of (k : string) (l : list (string * string)) : string :=
  match l with
  | [] => ""
  | (k', v) :: l' => if String.eqb k' k then v else result_of k l'
  end.

Definition HandleShardMigrate (req : ShardMigrateReq) : GoM svc ShardMigrateResp :=
  let respond code msg := ret (MkShardMigrateResp code msg "" 0) in
  let internal := respond ErrorCodeInternalErr in
  try resultTx <- on_w (invoke (chain_GetTx (smr_TxHash req) (smr_TxHeight req)))
    catch err => internal ("Get tx " +:+ smr_TxHash req +:+ " error: ") ;;
  if negb (rt_Code resultTx =? 0) then
    internal ("Tx " +:+ smr_TxHash req +:+ " failed with code: " +:+ format_d (rt_Code resultTx))
  else
  match TxMsgData_Unmarshal (rt_Data resultTx) with
  | inr err => internal ("unmarshal tx error: " +:+ Error err)
  | inl msgResponses =>
  value <- deref (head msgResponses) ;;
  match MsgMigrateResponse_Unmarshal value with
  | inr err => internal ("unmarshal tx error: " +:+ Error err)
  | inl result =>
  let m := result_of (smr_DataId req) result in
  if String.eqb m "" then
    internal ("invalid data id: given dataId " +:+ smr_DataId req +:+ " not in tx "
              +:+ smr_TxHash req)
  else
  if negb (HasPrefix m "SUCCESS") then internal ("dataId migrate fails: " +:+ m) else
  try order <- on_w (invoke (chain_GetOrder (smr_OrderId req)))
    catch err => panic ;;      (* the message reads order.Id, and order is nil *)
  match fo_Shards order !! nodeAddress with
  | None => internal ("no shard to current provider " +:+ nodeAddress)
  | Some shard =>
  if negb (String.eqb (sh_From shard) (smr_MigrateFrom req)) then
    internal ("unmatched migrate from: expected " +:+ smr_MigrateFrom req +:+ ", actual "
              +:+ sh_From shard)
  else
  if negb (String.eqb (sh_Cid shard) (smr_Cid req)) then
    internal ("unmatched cid: expected " +:+ smr_Cid req +:+ ", actual " +:+ sh_Cid shard)
  else
  if negb (sh_Status shard =? ShardMigrating) then
    internal ("shard status is not invalid, expected ShardWaiting, actual "
              +:+ format_d (sh_Status shard))
  else
  match cid_Decode (sh_Cid shard) with
  | inr err => internal ("invalid cid " +:+ sh_Cid shard +:+ " error: " +:+ Error err)
  | inl c =>
  try _u <- call_Store c (smr_Content req)
    catch err => internal ("store cid " +:+ cid_String c +:+ " error: " +:+ Error err) ;;
  try tx <- call_CompleteOrder (fo_Id order) c (wrap_u64 (Z.of_nat (length (smr_Content req))))
    catch err => respond ErrorCodeInvalidTx ("complete order tx failed: " +:+ Error err) ;;
  ret (MkShardMigrateResp 0 "" tx.1 tx.2)
  end end end end.

(** ** Sending a migrated shard *)
Definition mi_complete (hash : string) (height : Z) (m : MigrateInfo) : MigrateInfo :=
  MkMigrateInfo (mi_DataId m) (mi_OrderId m) (mi_Cid m) (mi_FromProvider m) (mi_ToProvider m)
    (mi_MigrateTxHash m) (mi_MigrateTxHeight m) hash height MigrateStateComplete.

Definition processMigrate (req : MigrateRequest) : GoM svc unit :=
  c <- lift (cid_Decode (mr_Cid req)) ;;
  reader <- on_w (sm_Get storeManager c) ;;
  shardContent <- lift reader ;;
  peer <- on_w (invoke (chain_GetNodePeer (mr_ToProvider req))) ;;
  resp <- on_w (invoke_total (RequestShardMigrate Stream
    (MkShardMigrateReq (mr_FromProvider req) (mr_OrderId req) (mr_DataId req)
       (mr_MigrateTxHash req) 0 (mr_Cid req) shardContent) peer)) ;;
  if negb (smp_Code resp =? 0) then fail (EText (smp_Message resp)) else
  resultTx <- on_w (invoke (chain_GetTx (smp_CompleteHash resp) (smp_CompleteHeight resp))) ;;
  if negb (rt_Code resultTx =? 0) then
    fail (EText ("complete tx " +:+ rt_Hash resultTx +:+ " failed: code="
                 +:+ format_d (rt_Code resultTx)))
  else
  order <- on_w (invoke (chain_GetOrder (mr_OrderId req))) ;;
  match fo_Shards order !! mr_ToProvider req with
  | None => fail (EText ("no shard assigned to new provider " +:+ mr_ToProvider req))
  | Some shard =>
      if negb (String.eqb (sh_From shard) (mr_FromProvider req)) then
        fail (EText ("shard is migrated from old provider " +:+ mr_FromProvider req))
      else
      if negb (sh_Status shard =? ShardCompleted) then
        fail (EText ("shard status should be ShardCompleted, but is "
                     +:+ format_d (sh_Status shard)))
      else
      migrateInfo <- attempt (on_ds (GetMigrate (mr_DataId req) (mr_FromProvider req))) ;;
      match migrateInfo with
      | inr _ => ret tt
      | inl mi => ignore (on_ds (SaveMigrate
                    (mi_complete (smp_CompleteHash resp) (smp_CompleteHeight resp) mi)))
      end
  end.

(** ** The shards of this node on the chain *)
Definition limit : Z := 50.

(** The loop of [GetAllShards]; [offset] is never changed. *)
Fixpoint get_all_shards (fuel : nat) (offset : Z) (myShards : list Shard) : GoM svc (list Shard) :=
  match fuel with
  | O => out_of_fuel
  | S fuel' =>
      r <- on_w (invoke (chain_ListShards offset limit)) ;;
      let myShards := myShards ++ r.1 in
      if r.2 <=? wrap_u64 (offset + limit) then ret myShards
      else get_all_shards fuel' offset myShards
  end.

Definition GetAllShards (fuel : nat) : GoM svc (list Shard) := get_all_shards fuel 0 [].

Definition initShardsExpiration (fuel : nat) : GoM svc unit :=
  index <- on_ds GetShardExpireIndex ;;
  if Z.of_nat (length (ex_Alls index)) <=? 0 then
    try myShards <- GetAllShards fuel catch err => ret tt ;;
    for_each myShards (fun s => on_ds (SaveShardExpire (sh_Id s) (sh_Cid s) (sh_OrderId s)))
  else ret tt.

(** ** Expiration: one tick of the daily timer *)
Definition expire_of (s : Shard) : Z :=
  foldl (fun acc d => wrap_u64 (acc + d)) (wrap_u64 (sh_CreatedAt s + sh_Duration s))
    (sh_RenewInfos s).

Definition cid_list (myShards : list Shard) : gset string := list_to_set (sh_Cid <$> myShards).
(** [expireMap[shard.Id] = expire] for each shard: a later one overwrites. *)
Definition expire_map (myShards : list Shard) : gmap Z Z :=
  foldl (fun m s => <[sh_Id s := expire_of s]> m) ∅ myShards.

Definition expire_shard (myShards : list Shard) (key : ShardExpireKey) : GoM svc unit :=
  if decide (is_Some (expire_map myShards !! ek_ShardId key)) then ret tt else
  try info <- on_ds (GetShardExpire (ek_ShardId key)) catch err => ret tt ;;
  removed <-
    (if decide (se_Cid info ∈ cid_list myShards) then ret true else
     match cid_Parse (se_Cid info) with
     | inr _ => ret false
     | inl c =>
         r <- attempt (call_Remove c) ;;
         match r with
         | inl _ => ret true
         | inr err => ret (Contains (Error err) "not pinned or pinned indirectly")
         end
     end) ;;
  if negb removed then ret tt else
  try _u <- on_ds (RemoveShardExpireIndex (ek_ShardId key)) catch err => ret tt ;;
  match cid_Parse (se_Cid info) with
  | inr _ => ret tt
  | inl c =>
      try sf <- on_ds (GetShard (se_OrderId info) c) catch err => ret tt ;;
      ignore (on_ds (SaveShard (si_set_State ShardStateExpired sf)))
  end.

Definition processExpire (fuel : nat) : GoM svc unit :=
  try myShards <- GetAllShards fuel catch err => ret tt ;;
  try index <- on_ds GetShardExpireIndex catch err => ret tt ;;
  for_each (ex_Alls index) (expire_shard myShards).

(** ** Lists of shards and migrations *)
Definition getShardKeyList : GoM svc (list ShardKey) :=
  index <- on_ds GetShardIndex ;; ret (sx_All index).

Definition pending_state (st : Z) : bool :=
  negb (st =? ShardStateComplete) && negb (st =? ShardStateTerminate) &&
  negb (st =? ShardStateExpired).

Fixpoint collect {K R} (get : K -> GoM svc R) (keep : R -> bool) (keys : list K) :
    GoM svc (list R) :=
  match keys with
  | [] => ret []
  | k :: keys' =>
      r <- get k ;;
      rs <- collect get keep keys' ;;
      ret (if keep r then r :: rs else rs)
  end.

Definition get_by_key (k : ShardKey) : GoM svc ShardInfo :=
  on_ds (GetShard (sk_OrderId k) (sk_Cid k)).

Definition getPendingShardList : GoM svc (list ShardInfo) :=
  shardKeys <- getShardKeyList ;;
  collect get_by_key (fun s => pending_state (si_State s)) shardKeys.

Definition ShardList : GoM svc (list ShardInfo) :=
  shardKeys <- getShardKeyList ;;
  collect get_by_key (fun _ => true) shardKeys.

Definition ShardStatus (orderId : Z) (c : Cid) : GoM svc ShardInfo :=
  on_ds (GetShard orderId c).

Definition ShardFix (orderId : Z) (c : Cid) : GoM svc unit :=
  try shardInfo <- on_ds (GetShard orderId c) catch err => ret tt ;;
  on_queue (Push (shard_request shardInfo)).

Definition processIncompleteShards : GoM svc unit :=
  pendings <- attempt getPendingShardList ;;
  for_each (match pendings with inl l => l | inr _ => [] end)
    (fun p => on_queue (Push (shard_request p))).

Definition getMigrateKeyList : GoM svc (list MigrateKey) :=
  index <- on_ds GetMigrateIndex ;; ret (mx_All index).

Definition MigrateList : GoM svc (list MigrateInfo) :=
  migrateKeys <- getMigrateKeyList ;;
  collect (fun k => on_ds (GetMigrate (mk_DataId k) (mk_FromProvider k))) (fun _ => true)
    migrateKeys.

(** ** Leaving: migrating the data of this node *)

(** [mi] with the order, the new provider and the cid found for it. *)
Definition mi_set_target (orderId : Z) (c node : string) (mi : MigrateInfo) : MigrateInfo :=
  MkMigrateInfo (mi_DataId mi) orderId c (mi_FromProvider mi) node (mi_MigrateTxHash mi)
    (mi_MigrateTxHeight mi) (mi_CompleteTxHash mi) (mi_CompleteTxHeight mi) (mi_State mi).

(** The body of the loop over the orders of a data id; it returns [mi], which the
    next iteration goes on with. *)
Definition migrate_order (mi : MigrateInfo) (orderId : Z) : GoM svc MigrateInfo :=
  r <- attempt (on_w (invoke (chain_GetOrder orderId))) ;;
  order <- deref (match r with inl o => Some o | inr _ => None end) ;;
  match fo_Shards order !! nodeAddress with
  | None => ret mi
  | Some fromShard =>
      let c := sh_Cid fromShard in
      match List.find (fun p => (sh_Status p.2 =? ShardMigrating) && String.eqb (sh_Cid p.2) c &&
               negb (String.eqb p.1 nodeAddress) && String.eqb (sh_From p.2) nodeAddress)
              (range (fo_Shards order)) with
      | None => ret mi
      | Some (node, shard) =>
          let mi := mi_set_target (fo_Id order) (sh_Cid shard) node mi in
          ignore (on_ds (SaveMigrate mi)) ;;
          send_migrate (MkMigrateRequest nodeAddress (fo_Id order) (mi_DataId mi) (sh_Cid shard)
            node (mi_MigrateTxHash mi) (mi_MigrateTxHeight mi)) ;;
          ret mi
      end
  end.

Fixpoint migrate_orders (mi : MigrateInfo) (orders : list Z) : GoM svc unit :=
  match orders with
  | [] => ret tt
  | o :: orders' => mi' <- migrate_order mi o ;; migrate_orders mi' orders'
  end.

Definition migrate_data (hash : string) (height : Z) (kv : string * string) : GoM svc unit :=
  if HasPrefix kv.2 "SUCCESS" then
    let mi := MkMigrateInfo kv.1 0 "" nodeAddress "" hash height "" 0 MigrateStateTxSent in
    ignore (on_ds (SaveMigrate mi)) ;;
    resp <- attempt (on_w (invoke (chain_GetMeta kv.1))) ;;
    orders <- deref (match resp with inl md => Some (md_Orders md) | inr _ => None end) ;;
    migrate_orders mi orders
  else ret tt.

Definition Migrate (dataIds : list string) :
    GoM svc (string * gmap string string * option error) :=
  r <- on_w (invoke_total (chain_MigrateOrder nodeAddress dataIds)) ;;
  let '(hash, results, height, err) := r in
  for_each (range results) (migrate_data hash height) ;;
  ret (hash, results, err).
End Storage.
