(* ===== verification/StorageSafety.v ===== *)
(** * Safety of the storage service

    The node completes a shard on the chain only when it has its content: over
    any sequence of requests, worker iterations, repairs, migrations and expirations,
    with a datastore and a world that may fail at any point, every [CompleteOrder]
    call in the trace is preceded by a successful [Store] of a content with the
    identifier of the shard, or, for a renewal, by a check that the content is
    there, or it ends a migration that the chain has announced, whose content was
    stored but not compared with the identifier ([complete_only_stored]).

    The invariant [inv] ties the queue and the datastore to the trace: a task in
    the state [Stored] has its evidence in the trace, in memory and on disk, so
    the property survives restarts and retries. *)
From stdpp Require Import base list gmap strings.
From Stdlib Require Import ZArith Lia Ascii.
From S2P Require Import Prelude Types StateUtils Cbor CborTypes Instances Persistence Queue.
From S2P Require Import StoreManager ChainApi Storage.

(** ** Identifiers

    What the cid library decodes is valid, and an identifier prints without a
    path separator. *)
Section CidText.
Context `{!CborLib, !CborLaws, !CidLib}.

Definition cid_typed (c : Cid) : Prop := cid_valid c \/ c = Undef.

Class CidTextLaws := {
  cid_Decode_valid s c : cid_Decode s = inl c -> cid_valid c;
  cid_Parse_valid s c : cid_Parse s = inl c -> cid_valid c;
  cid_String_plain c : cid_typed c -> free_of "/" (cid_String c) = true
}.
End CidText.

(** ** Results of the chain and of the clock have the width of their Go types *)
Class TypedWorld (W : Type) `{!ChainSvcApi W, !Clock W} := {
  CompleteOrder_typed a o c n w h ht w' :
    chain_CompleteOrder a o c n w = (inl (h, ht), w') -> is_i64 ht;
  time_Now_typed w now w' : time_Now w = (now, w') -> is_i64 now
}.

(** So do the heights and numbers a migration deals with; data ids are uuids, which
    have no slash. *)
Class MigrationWorld (W : Type) `{!ChainSvcApi W, !StorageProtocol W} := {
  GetOrder_typed i w o w' : chain_GetOrder i w = (inl o, w') -> is_u64 (fo_Id o);
  MigrateOrder_typed a ids w h results ht err w' :
    chain_MigrateOrder a ids w = ((h, results, ht, err), w') ->
    is_i64 ht /\ forall d v, results !! d = Some v -> free_of "/" d = true;
  RequestShardMigrate_typed sp req peer w resp w' :
    RequestShardMigrate sp req peer w = (resp, w') -> is_i64 (smp_CompleteHeight resp)
}.

Lemma retryInterval_typed n : is_i64 (retryInterval n).
Proof.
  destruct n as [|n]; cbn.
  - unfold is_i64, Second, two63. lia.
  - apply wrap_i64_range.
Qed.

Lemma GetRetryAt_typed now tries : is_i64 now -> is_i64 (GetRetryAt now tries).
Proof.
  intros Hn. pose proof (retryInterval_typed (Z.to_nat tries)) as Hr.
  unfold GetRetryAt, is_i64, two63, Second in *.
  split; [apply Z.div_le_lower_bound; lia|apply Z.div_lt_upper_bound; lia].
Qed.

(** ** A successful encoding *)
Section Encoded.
Context `{!CborLib, !CborLaws}.

Lemma write_text_inv what s b : write_text what s = inl b -> text_ok s.
Proof.
  unfold write_text, text_ok. destruct (Z.ltb_spec MaxLength (Z.of_nat (String.length s))); [done|].
  lia.
Qed.

Lemma write_fields_inv {T} (t : T) fs b :
  write_fields t fs = inl b -> Forall (fun f => exists b, f_write f t = inl b) fs.
Proof.
  revert b. induction fs as [|f fs IH]; intros b; cbn; [constructor|].
  unfold write_field. destruct (write_text _ _) as [bn|]; cbn; [|done].
  destruct (f_write f t) as [bf|] eqn:E; cbn; [|done].
  destruct (write_fields t fs) as [bs|]; cbn; [|done]. intros _. constructor; eauto.
Qed.

(** The integers and the identifier of a shard have the width of their types. *)
Definition ShardInfo_typed (s : ShardInfo) : Prop :=
  is_u64 (si_OrderId s) /\ cid_typed (si_Cid s) /\ is_i64 (si_CompleteHeight s) /\
  is_u64 (si_Size s) /\ is_u64 (si_Tries s) /\ is_u64 (si_ExpireHeight s) /\
  is_u64 (si_State s) /\ is_i64 (si_RetryAt s).

Lemma ShardInfo_encoded s b :
  ShardInfo_typed s -> MarshalCBOR s = inl b -> UnmarshalCBOR b = inl s.
Proof.
  intros Ht Hm. assert (ShardInfo_wf s) as Hwf.
  { change (ShardInfo_MarshalCBOR s = inl b) in Hm.
    unfold ShardInfo_MarshalCBOR, marshal_struct in Hm.
    destruct (write_fields s ShardInfo_fields) as [bs|] eqn:E; [|done].
    apply write_fields_inv in E. unfold ShardInfo_fields in E.
    repeat match goal with H : Forall _ (_ :: _) |- _ => apply Forall_cons in H as [[? ?] ?] end.
    cbn [f_write fld v_write string_vc] in *.
    assert (cid_valid (si_Cid s)) as Hc.
    { destruct Ht as (_ & [?|Hu] & _); [done|]. rewrite Hu in *.
      destruct WriteCid_Undef as [e He]. cbn in *. rewrite He in *. done. }
    unfold ShardInfo_wf, ShardInfo_typed in *. destruct_and!. split_and!; eauto using write_text_inv. }
  destruct (codec_roundtrip s) as (b' & Hm' & Hu); [exact Hwf|]. congruence.
Qed.

Definition MigrateInfo_typed (m : MigrateInfo) : Prop :=
  is_u64 (mi_OrderId m) /\ is_i64 (mi_MigrateTxHeight m) /\ is_i64 (mi_CompleteTxHeight m) /\ is_u64 (mi_State m).

Lemma MigrateInfo_encoded m b :
  MigrateInfo_typed m -> MarshalCBOR m = inl b -> UnmarshalCBOR b = inl m.
Proof.
  intros Ht Hm. assert (MigrateInfo_wf m) as Hwf.
  { change (MigrateInfo_MarshalCBOR m = inl b) in Hm.
    unfold MigrateInfo_MarshalCBOR, marshal_struct in Hm.
    destruct (write_fields m MigrateInfo_fields) as [bs|] eqn:E; [|done].
    apply write_fields_inv in E. unfold MigrateInfo_fields in E.
    repeat match goal with H : Forall _ (_ :: _) |- _ => apply Forall_cons in H as [[? ?] ?] end.
    cbn [f_write fld v_write string_vc] in *.
    unfold MigrateInfo_wf, MigrateInfo_typed in *. destruct_and!. split_and!; eauto using write_text_inv. }
  destruct (codec_roundtrip m) as (b' & Hm' & Hu); [exact Hwf|]. congruence.
Qed.

(** What a decoder returns has the width of its type. *)
Ltac read_typed T_fields T_typed :=
  eapply unmarshal_inv;
  [unfold T_fields;
   repeat lazymatch goal with
     | |- Forall _ [] => apply List.Forall_nil
     | |- Forall _ (_ :: _) => apply List.Forall_cons;
         [eapply fld_inv; [first [exact uint64_read|exact int64_read|exact (cid_read _ _)
                                 |exact (fun _ _ _ _ => I)]
                          |unfold T_typed; cbn; intros; destruct_and?; split_and?; try done; by left]|]
     end
  |unfold T_typed; cbn; unfold is_u64, is_i64, two63, two64; split_and?; try lia; by right].

Lemma ShardInfo_read_typed r s rest :
  ShardInfo_UnmarshalCBOR r = inl (s, rest) -> ShardInfo_typed s.
Proof. read_typed @ShardInfo_fields @ShardInfo_typed. Qed.

Lemma MigrateInfo_read_typed r m rest :
  MigrateInfo_UnmarshalCBOR r = inl (m, rest) -> MigrateInfo_typed m.
Proof. read_typed @MigrateInfo_fields @MigrateInfo_typed. Qed.

Definition ShardKey_typed (k : ShardKey) : Prop := is_u64 (sk_OrderId k) /\ cid_typed (sk_Cid k).
Lemma ShardKey_read_typed r k rest : ShardKey_UnmarshalCBOR r = inl (k, rest) -> ShardKey_typed k.
Proof. read_typed @ShardKey_fields @ShardKey_typed. Qed.

Definition ShardExpireInfo_typed (e : ShardExpireInfo) : Prop :=
  is_u64 (se_ShardId e) /\ is_u64 (se_OrderId e).
Lemma ShardExpireInfo_read_typed r e rest :
  ShardExpireInfo_UnmarshalCBOR r = inl (e, rest) -> ShardExpireInfo_typed e.
Proof. read_typed @ShardExpireInfo_fields @ShardExpireInfo_typed. Qed.
End Encoded.

(** ** The shard records and the migrations of the datastore *)
Section ShardRecords.
Context `{!CborLib, !CborLaws, !CidLib, !CidLaws} {D} `{!Datastore D, !DatastoreLaws D}.
Implicit Types (P : ShardInfo -> Prop) (d : D).

Definition shard_key (k : ShardKey) : string := NewKey (t_text shard_table k).
Definition migrate_key (k : MigrateKey) : string := NewKey (t_text migrate_table k).
Definition plain_migrate (k : MigrateKey) : Prop :=
  free_of "/" (mk_DataId k) = true /\ free_of "/" (mk_FromProvider k) = true.
Abbreviation key_of_migrate := (t_of migrate_table).

(** Every shard record that can be read satisfies [P]; a migration that can be read has
    a plain key. *)
Definition ds_ok P d : Prop :=
  (forall k b s, good_shard k -> contents d !! shard_key k = Some b -> UnmarshalCBOR b = inl s -> P s) /\
  (forall k b m, plain_migrate k -> contents d !! migrate_key k = Some b -> UnmarshalCBOR b = inl m ->
     plain_migrate (key_of_migrate m)).

Lemma ds_ok_mono P P' d : (forall s, P s -> P' s) -> ds_ok P d -> ds_ok P' d.
Proof. intros HP [Hd Hm]. split; [|done]. intros k b s Hk Hb Hs. eapply HP, Hd; eauto. Qed.

Lemma Has_ds_ok P k : steps (keeps (ds_ok P)) (ds_Has k).
Proof.
  intros d Hd. pose proof (Has_spec k d) as [Hc _]. unfold ds_ok. rewrite Hc. exact Hd.
Qed.
Lemma Get_ds_ok P k : steps (keeps (ds_ok P)) (ds_Get k).
Proof.
  intros d Hd. pose proof (Get_spec k d) as [Hc _]. unfold ds_ok. rewrite Hc. exact Hd.
Qed.
Lemma Put_ds_ok P k v :
  (forall k' s, good_shard k' -> shard_key k' = k -> UnmarshalCBOR v = inl s -> P s) ->
  (forall k' m, plain_migrate k' -> migrate_key k' = k -> UnmarshalCBOR v = inl m -> plain_migrate (key_of_migrate m)) ->
  steps (keeps (ds_ok P)) (ds_Put k v).
Proof.
  intros Hp Hq d Hd. pose proof (Put_spec k v d) as Hspec. unfold wp in Hspec.
  destruct (ds_Put k v d) as [o d'] eqn:Erun. cbn in *.
  assert (contents d' = contents d \/ contents d' = <[k := v]> (contents d)) as [HC|HC] by (destruct o; tauto);
    unfold ds_ok; rewrite HC; [exact Hd|]. destruct Hd as [Hd Hm].
  split; intros k' b s Hk' Hb Hs; rewrite lookup_insert in Hb; 
    (case_decide as E; [injection Hb as <-|]).
  - by eapply Hp.
  - by eapply Hd.
  - by eapply Hq.
  - by eapply Hm.
Qed.

Lemma plain_migrate_text k : plain_migrate k -> plain (t_text migrate_table k) = true.
Proof.
  intros [Hd Hf]. apply plain_app; [done..|]. apply free_of_app; [done|]. by apply (free_of_app _ "-from-").
Qed.
Lemma shard_migrate_names k k' : t_text shard_table k <> t_text migrate_table k'.
Proof. destruct k, k'. cbn. intros E. key_texts. done. Qed.

(** A key of another table. *)
Lemma Put_other_ds_ok P name v :
  plain name = true -> (forall k, good_shard k -> t_text shard_table k <> name) ->
  (forall k, t_text migrate_table k <> name) ->
  steps (keeps (ds_ok P)) (ds_Put (NewKey name) v).
Proof.
  intros Hpl Hne Hnm. apply Put_ds_ok.
  - intros k s Hk E. exfalso. apply (Hne k Hk).
    apply NewKey_inj in E; [done|by apply (tok_plain _ _ shard_table_ok)|done].
  - intros k m Hk E. exfalso. apply (Hnm k). apply NewKey_inj in E; [done|by apply plain_migrate_text|done].
Qed.

Ltac other_table := intros [??] **; cbn in *; key_texts; (congruence || done).

Lemma expire_put_ds_ok P i v : steps (keeps (ds_ok P)) (ds_Put (shardExpireDatastoreKey i) v).
Proof.
  apply Put_other_ds_ok; [|other_table..]. apply plain_app; [done..|]. by apply free_of_format.
Qed.
Lemma expire_index_put_ds_ok P v :
  steps (keeps (ds_ok P)) (ds_Put (NewKey SHARD_EXPIRE_INDEX_KEY) v).
Proof. apply Put_other_ds_ok; [done|other_table..]. Qed.
Lemma shard_index_put_ds_ok P v : steps (keeps (ds_ok P)) (ds_Put (NewKey SHARD_INDEX_KEY) v).
Proof. apply Put_other_ds_ok; [done| |other_table]. intros k Hk. by apply (tok_ne _ _ shard_table_ok). Qed.
Lemma migrate_index_put_ds_ok P v : steps (keeps (ds_ok P)) (ds_Put (NewKey MIGRATE_INDEX_KEY) v).
Proof. apply Put_other_ds_ok; [done|other_table..]. Qed.
Hint Resolve Has_ds_ok Get_ds_ok expire_put_ds_ok expire_index_put_ds_ok shard_index_put_ds_ok migrate_index_put_ds_ok : go.

Lemma SaveShardExpire_ds_ok P i c o : steps (keeps (ds_ok P)) (SaveShardExpire i c o).
Proof. unfold SaveShardExpire, AddShardExpireIndex. cbv zeta. go_steps. Qed.
Lemma RemoveShardExpireIndex_ds_ok P i : steps (keeps (ds_ok P)) (RemoveShardExpireIndex i).
Proof. unfold RemoveShardExpireIndex. cbv zeta. go_steps. Qed.
Lemma GetShardExpire_ds_ok P i : steps (keeps (ds_ok P)) (GetShardExpire i).
Proof. unfold GetShardExpire. cbv zeta. go_steps. Qed.
Lemma GetShardExpireIndex_ds_ok P : steps (keeps (ds_ok P)) GetShardExpireIndex.
Proof. unfold GetShardExpireIndex. cbv zeta. go_steps. Qed.
Lemma GetShardIndex_ds_ok P : steps (keeps (ds_ok P)) GetShardIndex.
Proof. unfold GetShardIndex. cbv zeta. go_steps. Qed.
Lemma GetShard_ds_ok P n c : steps (keeps (ds_ok P)) (GetShard n c).
Proof. unfold GetShard. cbv zeta. go_steps. Qed.

Lemma GetMigrate_ds_ok P n f : steps (keeps (ds_ok P)) (GetMigrate n f).
Proof. unfold GetMigrate. cbv zeta. go_steps. Qed.
Lemma GetMigrateIndex_ds_ok P : steps (keeps (ds_ok P)) GetMigrateIndex.
Proof. unfold GetMigrateIndex. cbv zeta. go_steps. Qed.

Lemma SaveShard_ds_ok P s :
  ShardInfo_typed s -> good_shard (t_of shard_table s) -> P s -> steps (keeps (ds_ok P)) (SaveShard s).
Proof.
  intros Ht Hg Hp. unfold SaveShard, UpdateShardIndex. cbv zeta. go_steps. apply Put_ds_ok.
  - intros k s' _ _ Hu.
    match goal with H : MarshalCBOR s = inl _ |- _ => apply ShardInfo_encoded in H; [|done] end. congruence.
  - intros k m Hk E. apply NewKey_inj in E; [|by apply plain_migrate_text|by apply (tok_plain _ _ shard_table_ok _ Hg)].
    by destruct (shard_migrate_names (t_of shard_table s) k).
Qed.

Lemma SaveMigrate_ds_ok P m :
  MigrateInfo_typed m -> plain_migrate (key_of_migrate m) -> steps (keeps (ds_ok P)) (SaveMigrate m).
Proof.
  intros Ht Hp. unfold SaveMigrate, UpdateMigrateIndex. cbv zeta. go_steps. apply Put_ds_ok.
  - intros k s Hk E. apply NewKey_inj in E; [|by apply (tok_plain _ _ shard_table_ok)|by apply (plain_migrate_text (key_of_migrate m))].
    by destruct (shard_migrate_names k (key_of_migrate m)).
  - intros k m' _ _ Hu.
    match goal with H : MarshalCBOR m = inl _ |- _ => apply MigrateInfo_encoded in H; [|done] end. congruence.
Qed.
End ShardRecords.

(** ** Calls of the service *)
Section Running.
Context `{!CidLib} {D W : Type} `{!ChainConsts, !ChainSvcApi W, !TxLib}.
Context (nodeAddress : string).
Abbreviation svc := (@svc D W).
Implicit Types (s : svc).

(** What a call of the outside world leaves of the service. *)
Definition with_w s (w : W) : svc := Svc w (sv_ds s) (sv_queue s) (sv_migrate s) (sv_trace s).
Definition reply {A} (r : A + error) : outcome A := match r with inl a => Ret a | inr e => Fail e end.

Lemma wp_invoke {A} (c : call W A) s Q :
  (forall r w', c (sv_w s) = (r, w') -> Q (reply r) (with_w s w')) -> wp (on_w (invoke c)) s Q.
Proof.
  intros Hq. unfold wp, on_w, zoom, invoke.
  destruct (c (sv_w s)) as [[a|e] w'] eqn:Ec; exact (Hq _ _ eq_refl).
Qed.
Lemma wp_invoke_total {A} (c : total_call W A) s (Q : outcome A -> svc -> Prop) :
  (forall a w', c (sv_w s) = (a, w') -> Q (Ret a) (with_w s w')) -> wp (on_w (invoke_total c)) s Q.
Proof.
  intros Hq. unfold wp, on_w, zoom, invoke_total.
  destruct (c (sv_w s)) as [a w'] eqn:Ec; exact (Hq _ _ eq_refl).
Qed.

Lemma wp_traced {A} (ev : bool -> event) (m : GoM W A) s Q :
  safe m ->
  (forall r w', Q (reply r) (Svc w' (sv_ds s) (sv_queue s) (sv_migrate s)
     (sv_trace s ++ [ev (is_inl r)]))) ->
  wp (traced ev (on_w m)) s Q.
Proof.
  intros Hm HQ. specialize (Hm (sv_w s)). unfold wp, traced, bind, attempt, on_w, zoom.
  destruct (m (sv_w s)) as [[a|e| |] w']; [exact (HQ (inl a) w')|exact (HQ (inr e) w')|done|done].
Qed.

(** ** Migrations *)

(** What the chain says of the shard a migration brings. *)
Definition migrating (req : ShardMigrateReq) (order : FullOrder) (c : Cid) : Prop :=
  exists shard, fo_Shards order !! nodeAddress = Some shard /\
    sh_From shard = smr_MigrateFrom req /\ sh_Cid shard = smr_Cid req /\
    sh_Status shard = ShardMigrating /\ cid_Decode (smr_Cid req) = inl c.

Definition migrate_size (req : ShardMigrateReq) : Z := wrap_u64 (Z.of_nat (length (smr_Content req))).

(** A migration that passes the checks of the receiver: the transaction it names
    succeeded for the data id, and the order has the shard. *)
Definition checked_migration s (req : ShardMigrateReq) (order : FullOrder) (c : Cid) : Prop :=
  exists tx w value values results,
    chain_GetTx (smr_TxHash req) (smr_TxHeight req) (sv_w s) = (inl tx, w) /\ rt_Code tx = 0 /\
    TxMsgData_Unmarshal (rt_Data tx) = inl (value :: values) /\
    MsgMigrateResponse_Unmarshal value = inl results /\
    HasPrefix (result_of (smr_DataId req) results) "SUCCESS" = true /\
    (chain_GetOrder (smr_OrderId req) w).1 = inl order /\ migrating req order c.
End Running.

(** ** The invariant *)
Section Safety.
Context `{!CborLib, !CborLaws, !CidLib, !CidLaws, !CidTextLaws, !ErrorText} {D W B : Type}.
Context `{!Datastore D, !DatastoreLaws D, !StoreBackend W B, !ChainConsts, !ChainSvcApi W,
          !TxLib, !DidLib W, !StorageProtocol W, !Clock W, !TypedWorld W, !MigrationWorld W, !GoRange, !GoRangeLaws}.
Context (nodeAddress : string) (storeManager : StoreManager B).
Abbreviation svc := (@svc D W).
Abbreviation proc := (@proc D W).
Implicit Types (tr : list event) (s : svc) (p : proc).

(** The identifier the node computes for a content. *)
Definition computed (content : bytes) : Cid :=
  match CalculateCid content with inl c => c | inr _ => Undef end.

(** The node has the content of [c]: it stored a content with this identifier, or
    found it in its backends. *)
Definition evidence tr (c : Cid) : Prop :=
  (exists content, EvStore c content true ∈ tr /\ computed content = c) \/ EvExist c true ∈ tr.

Section Invariant.
(** What is known of the completions that end a migration: what was done before, the
    order, the identifier and the size. *)
Context (accepted : list event -> Z -> Cid -> Z -> Prop).

(** Every other completion comes after its evidence. *)
Definition tr_ok tr : Prop :=
  forall pre post o c n ok, tr = pre ++ EvComplete o c n ok :: post -> evidence pre c \/ accepted pre o c n.

Definition stored_ok tr (t : ShardInfo) : Prop :=
  si_State t = ShardStateStored -> evidence tr (si_Cid t).
Definition task_ok tr (t : ShardInfo) : Prop := ShardInfo_typed t /\ stored_ok tr t.

Definition inv s : Prop :=
  tr_ok (sv_trace s) /\
  Forall (fun w => task_ok (sv_trace s) (wr_Shard w)) (sv_queue s) /\
  ds_ok (stored_ok (sv_trace s)) (sv_ds s) /\
  Forall (fun r => plain_migrate (MkMigrateKey (mr_DataId r) (mr_FromProvider r))) (sv_migrate s).

Lemma good_typed n c : is_u64 n -> cid_typed c -> good_shard (MkShardKey n c).
Proof. intros Hn Hc. split; [done|]. by apply cid_String_plain. Qed.

Definition pinv p : Prop := inv (p_svc p) /\ task_ok (sv_trace (p_svc p)) (p_task p).

Lemma evidence_app tr l c : evidence tr c -> evidence (tr ++ l) c.
Proof.
  intros [(content & Hin & Hc)|Hin]; [left; exists content|right]; rewrite elem_of_app; auto.
Qed.
Lemma stored_ok_app tr l t : stored_ok tr t -> stored_ok (tr ++ l) t.
Proof. intros Hst E. by apply evidence_app, Hst. Qed.
Lemma task_ok_app tr l t : task_ok tr t -> task_ok (tr ++ l) t.
Proof. intros [? ?]. split; [done|by apply stored_ok_app]. Qed.

Definition harmless (tr : list event) (e : event) : Prop :=
  match e with EvComplete o c n _ => evidence tr c \/ accepted tr o c n | _ => True end.

Lemma tr_ok_snoc tr e : tr_ok tr -> harmless tr e -> tr_ok (tr ++ [e]).
Proof.
  intros Htr He pre post o c n ok E.
  destruct post as [|e' post _] using rev_ind.
  - apply app_inj_tail in E as [-> ->]. exact He.
  - rewrite app_comm_cons, app_assoc in E. apply app_inj_tail in E as [-> ->]. by eapply Htr.
Qed.

Lemma inv_emit e s : inv s -> harmless (sv_trace s) e -> inv (emit e s).2.
Proof.
  intros (Htr & Hq & Hd & Hm) He. split_and!; cbn; [| | |done].
  - by apply tr_ok_snoc.
  - eapply Forall_impl; [exact Hq|]. intros w. apply task_ok_app.
  - eapply ds_ok_mono; [|exact Hd]. intros t. apply stored_ok_app.
Qed.

(** *** Operations on the parts *)
Lemma on_w_inv {A} (m : GoM W A) : steps (keeps inv) (on_w m).
Proof. apply steps_zoom. intros s Hs. exact Hs. Qed.
Lemma on_ds_inv {A} (m : GoM D A) :
  (forall P, steps (keeps (ds_ok P)) m) -> steps (keeps inv) (on_ds m).
Proof. intros Hm. apply steps_zoom. intros s (Htr & Hq & Hd & Hmr). split_and!; [done..| |done]. by apply Hm. Qed.
Lemma push_inv w s : inv s -> task_ok (sv_trace s) (wr_Shard w) -> inv (on_queue (Push w) s).2.
Proof.
  intros (Htr & Hq & Hd & Hmr) Hw. split_and!; [done| |done..]. cbn. apply Forall_app.
  split; [done|]. by apply Forall_singleton.
Qed.
Hint Resolve on_w_inv : go.
Hint Extern 4 (steps (keeps inv) (on_ds _)) => apply on_ds_inv; intros : go.
Hint Resolve SaveShardExpire_ds_ok RemoveShardExpireIndex_ds_ok GetShardExpire_ds_ok
  GetShardExpireIndex_ds_ok GetShardIndex_ds_ok GetShard_ds_ok GetMigrate_ds_ok GetMigrateIndex_ds_ok : go.

Lemma save_shard_inv t s :
  inv s -> task_ok (sv_trace s) t -> inv (on_ds (SaveShard t) s).2.
Proof.
  intros (Htr & Hq & Hd & Hmr) [Ht Hs]. unfold on_ds, zoom.
  assert (good_shard (t_of shard_table t)) as Hg by (apply good_typed; apply Ht).
  pose proof (SaveShard_ds_ok (stored_ok (sv_trace s)) t Ht Hg Hs (sv_ds s) Hd) as Hd'.
  by destruct (SaveShard t (sv_ds s)).
Qed.

(** A shard that is read from the datastore. *)
Lemma GetShard_task n c s :
  inv s -> good_shard (MkShardKey n c) ->
  wp (on_ds (GetShard n c)) s (fun o s' =>
    (inv s' /\ sv_trace s' = sv_trace s) /\
    match o with Ret t => task_ok (sv_trace s') t | _ => True end).
Proof.
  intros Hinv Hg. unfold wp, on_ds, zoom.
  destruct (GetShard n c (sv_ds s)) as [o d'] eqn:E. cbn.
  pose proof (GetShard_ds_ok (stored_ok (sv_trace s)) n c (sv_ds s)) as Hd. rewrite E in Hd.
  destruct Hinv as (Htr & Hq & Hds & Hmr). split; [split; [by split_and!; [..|apply Hd|]|done]|].
  destruct o as [t|e| |]; [|done..].
  revert E. unfold GetShard. cbv zeta. unfold bind.
  pose proof (Has_spec (orderShardDatastoreKey n c) (sv_ds s)) as [HC _].
  destruct (ds_Has _ _) as [[ex|e| |] d1]; [|done..]. cbn in HC.
  destruct (negb ex).
  { intros [= <- <-]. split; [|by unfold stored_ok].
    unfold ShardInfo_typed, is_u64, is_i64, two63, two64, cid_typed. cbn. split_and!; try lia. by right. }
  pose proof (Get_spec (orderShardDatastoreKey n c) d1) as [_ [_ Hget]].
  destruct (ds_Get _ _) as [[b|e| |] d2]; [|done..]. cbn in Hget. rewrite HC in Hget.
  destruct (UnmarshalCBOR b) as [t'|] eqn:Eu; cbn; [|done]. intros [= <- <-].
  split; [|by eapply (proj1 Hds (MkShardKey n c))].
  change (whole (ShardInfo_UnmarshalCBOR b) = inl t') in Eu. unfold whole, rbind in Eu.
  destruct (ShardInfo_UnmarshalCBOR b) as [[t0 r0]|] eqn:E0; [|done].
  injection Eu as <-. by eapply ShardInfo_read_typed.
Qed.

(** *** Processing a task *)
Lemma inv_traced {A} (ev : bool -> event) (m : GoM svc A) s :
  inv s -> steps (keeps inv) m -> steps (same sv_trace) m ->
  (forall b, harmless (sv_trace s) (ev b)) -> inv (traced ev m s).2.
Proof.
  intros Hs Hm Hsame Hev. unfold traced, bind, attempt.
  specialize (Hm s Hs). specialize (Hsame s). unfold same in Hsame.
  destruct (m s) as [[a|e| |] s1]; cbn in *; [| |done..]; apply (inv_emit _ s1 Hm);
    rewrite Hsame; apply Hev.
Qed.

Lemma on_w_trace {A} (m : GoM W A) : steps (same (sv_trace : svc -> _)) (on_w m).
Proof. apply steps_zoom. done. Qed.

(** A computation of the service, run with a task beside it. *)
Lemma in_svc_triple {A} P (m : GoM svc A) (Q : A -> proc -> Prop) :
  (forall p, pinv p -> P p -> wp m (p_svc p) (fun o s' =>
     inv s' /\ (exists l, sv_trace s' = sv_trace (p_svc p) ++ l) /\
     match o with Ret a => Q a (Proc s' (p_task p)) | _ => True end)) ->
  triple pinv P (in_svc m) Q.
Proof.
  intros Hm p Hp HP. specialize (Hm p Hp HP). unfold wp, in_svc, zoom in *.
  destruct (m (p_svc p)) as [o s'] eqn:E. cbn in *. destruct Hm as (Hi & [l Hl] & HQ).
  split; [|done]. split; [done|]. cbn. rewrite Hl. apply task_ok_app, Hp.
Qed.

(** The world is asked and the task is left alone. *)
Lemma in_svc_on_w {A} P (m : GoM W A) (Q : A -> Prop) :
  (forall w a w', m w = (Ret a, w') -> Q a) ->
  (forall p w, P p -> P (Proc (Svc w (sv_ds (p_svc p)) (sv_queue (p_svc p)) (sv_migrate (p_svc p))
                              (sv_trace (p_svc p))) (p_task p))) ->
  triple pinv P (in_svc (on_w m)) (fun a p => P p /\ Q a).
Proof.
  intros HQ HP. apply in_svc_triple. intros p Hp HPp. unfold wp, on_w, zoom.
  destruct (m (sv_w (p_svc p))) as [o w'] eqn:E. cbn. split_and!.
  - exact (proj1 Hp).
  - exists []. by rewrite app_nil_r.
  - destruct o; [|done..]. split; [by apply HP|by eapply HQ].
Qed.

Definition evi p : Prop := evidence (sv_trace (p_svc p)) (si_Cid (p_task p)).

Lemma triple_get_task P : triple pinv P get_task (fun t p => p_task p = t /\ P p).
Proof. by apply triple_gets. Qed.

Lemma triple_set_task P f (Q : unit -> proc -> Prop) :
  (forall p, pinv p -> P p ->
     task_ok (sv_trace (p_svc p)) (f (p_task p)) /\ Q tt (Proc (p_svc p) (f (p_task p)))) ->
  triple pinv P (set_task f) Q.
Proof.
  intros Hf. apply triple_modify. intros p Hp HP. destruct (Hf p Hp HP) as [Ht HQ].
  split; [|done]. split; [apply Hp|done].
Qed.

(** Saving the task: facts about the trace and the task survive. *)
Lemma triple_save_task (P : list event -> ShardInfo -> Prop) :
  triple pinv (fun p => P (sv_trace (p_svc p)) (p_task p)) save_task
    (fun _ p => P (sv_trace (p_svc p)) (p_task p)).
Proof.
  eapply triple_bind; [apply triple_get_task|]. intros t.
  intros p [Hi Ht] [<- HP]. unfold ignore. apply wp_bind, wp_attempt.
  unfold wp, in_svc, on_ds, zoom.
  pose proof (save_shard_inv (p_task p) (p_svc p) Hi Ht) as Hi'. unfold on_ds, zoom in Hi'.
  destruct (SaveShard (p_task p) (sv_ds (p_svc p))) as [[|e| |] d']; cbn in *;
    (split; [split; [exact Hi'|exact Ht]|done]).
Qed.

Lemma triple_updateShardError (P : list event -> ShardInfo -> Prop) err :
  (forall tr t e, P tr t -> P tr (si_set_LastErr e t)) ->
  triple pinv (fun p => P (sv_trace (p_svc p)) (p_task p)) (updateShardError err)
    (fun _ p => P (sv_trace (p_svc p)) (p_task p)).
Proof.
  intros HP. eapply (triple_bind _ _ _ (fun _ p => P (sv_trace (p_svc p)) (p_task p)));
    [by apply triple_deref|]. intros e.
  eapply triple_bind; [|intros; apply triple_save_task].
  apply triple_set_task. intros p [_ [Ht Hs]] HPp. split; [by split|]. by apply HP.
Qed.

(** An error that is recorded and returned. *)
Lemma triple_error {A} P err e (Q : A -> proc -> Prop) :
  triple pinv P (updateShardError err ;; fail e) Q.
Proof.
  eapply triple_bind; [|intros; apply triple_fail].
  eapply triple_conseq; [apply (triple_updateShardError (fun _ _ => True)); done|done|].
  intros. exact I.
Qed.

Lemma triple_call_Store P c content :
  triple pinv (fun p => P (p_task p)) (in_svc (call_Store storeManager c content))
    (fun _ p => P (p_task p) /\ EvStore c content true ∈ sv_trace (p_svc p)).
Proof.
  apply in_svc_triple. intros p Hp HP. unfold wp, call_Store.
  pose proof (inv_traced (EvStore c content) (on_w (sm_Store storeManager c content)) (p_svc p)
    (proj1 Hp) (on_w_inv _) (on_w_trace _) (fun _ => I)) as Hi.
  pose proof (on_w_trace (sm_Store storeManager c content) (p_svc p)) as Htr. unfold same in Htr.
  revert Hi. unfold traced, bind, attempt.
  destruct (on_w _ (p_svc p)) as [[a|e| |] s1]; cbn in *; intros Hi; rewrite <-?Htr;
    split_and!; eauto; try (exists []; by rewrite app_nil_r).
  rewrite elem_of_app, list_elem_of_singleton. auto.
Qed.

Lemma fetch_shard_ok sp peer :
  triple pinv (fun _ => True) (fetch_shard storeManager sp peer) (fun _ => evi).
Proof.
  unfold fetch_shard. eapply triple_bind; [apply triple_get_task|]. intros task. cbv beta.
  eapply triple_bind.
  { apply (in_svc_on_w (fun p => p_task p = task /\ True) _ (fun _ => True)); done. }
  intros resp. cbv beta zeta. apply triple_if; [apply triple_error|].
  apply triple_if; [apply triple_error|].
  eapply triple_or_else.
  - eapply triple_conseq; [apply (triple_call_Store (fun t => t = task /\
      computed (slp_Content resp) = si_Cid task))| |intros ? ? Hq; exact Hq].
    intros p ((((Ht & _) & _) & _) & Heq). split; [done|]. apply negb_false_iff in Heq.
    apply String.eqb_eq in Heq. by apply cid_String_inj.
  - intros e. apply triple_error.
  - intros u. apply triple_set_task. intros p [_ [Ht Hs]] [[Hp Hc] Hin]. rewrite Hp in *.
    split; [split; [|done]|].
    + unfold ShardInfo_typed in *. cbn. destruct_and!. split_and!; try done. apply wrap_u64_range.
    + left. exists (slp_Content resp). done.
Qed.

Lemma check_renewed_ok :
  triple pinv (fun _ => True) (check_renewed storeManager) (fun _ => evi).
Proof.
  unfold check_renewed. eapply triple_bind; [apply triple_get_task|]. intros task.
  eapply (triple_bind _ _ _ (fun b p => b = true -> evi p)).
  - apply in_svc_triple. intros p Hp [Ht _]. unfold call_IsExist.
    apply wp_bind. pose proof (on_w_inv (sm_IsExist storeManager (si_Cid task)) (p_svc p)
      (proj1 Hp)) as Hi.
    pose proof (on_w_trace (sm_IsExist storeManager (si_Cid task)) (p_svc p)) as Htr.
    unfold same in Htr. unfold wp, bind.
    destruct (on_w _ (p_svc p)) as [[b|e| |] s1]; cbn in *; rewrite <-?Htr;
      try (split_and!; [done|exists []; by rewrite app_nil_r|done]).
    split_and!; [by apply (inv_emit (EvExist (si_Cid task) b) s1)|eauto|].
    intros ->. right. cbn. rewrite elem_of_app, list_elem_of_singleton, Ht. auto.
  - intros b. cbv beta. destruct b; cbn [negb]; [|apply triple_error].
    apply triple_ret. auto.
Qed.

(** After the first phase a task that is not completed yet has its evidence. *)
Definition ready p : Prop := si_State (p_task p) < ShardStateTxSent -> evi p.

Lemma task_state_nonneg p : pinv p -> 0 <= si_State (p_task p).
Proof. intros [_ [Ht _]]. unfold ShardInfo_typed, is_u64 in Ht. destruct_and!. lia. Qed.

Lemma store_phase_ok sp peer :
  triple pinv (fun _ => True) (store_phase storeManager sp peer) (fun _ => ready).
Proof.
  unfold store_phase. eapply triple_bind; [apply triple_get_task|]. intros task.
  apply triple_if.
  - eapply (triple_bind _ _ _ (fun _ => evi)).
    { apply (triple_conseq _ (fun _ => True) _ _ (fun _ => evi)); [|done|done].
      destruct (_ || _); [apply fetch_shard_ok|apply check_renewed_ok]. }
    intros _. eapply (triple_bind _ _ _ (fun _ => evi)).
    { apply triple_set_task. intros p [_ [Ht _]] He. split; [|done]. split; [|by intros _].
      unfold ShardInfo_typed in *. cbn. destruct_and!. by split_and!. }
    intros _. eapply triple_conseq.
    + apply (triple_save_task (fun tr t => evidence tr (si_Cid t))).
    + done.
    + intros u p He Hlt. exact He.
  - intros p Hp [[Ht _] Hge]. apply wp_ret. split; [done|]. intros Hlt.
    pose proof (task_state_nonneg p Hp). destruct Hp as [_ [_ Hst]]. apply Hst.
    apply Z.ltb_ge in Hge. rewrite <-Ht in Hge. unfold ShardStateStored, ShardStateTxSent in *. lia.
Qed.

Lemma complete_phase_ok :
  triple pinv ready (complete_phase nodeAddress) (fun _ _ => True).
Proof.
  unfold complete_phase. eapply triple_bind; [apply triple_get_task|]. intros task.
  apply triple_if; [|by apply triple_ret].
  eapply (triple_or_else _ _ _ (fun tx p => is_i64 tx.2)); [|intros; apply triple_error|].
  - apply in_svc_triple. intros p Hp [[Ht Hready] Hlt]. unfold wp, call_CompleteOrder.
    set (m := on_w _).
    assert (inv (traced (EvComplete (si_OrderId task) (si_Cid task) (si_Size task)) m (p_svc p)).2)
      as Hi.
    { apply inv_traced; [apply Hp|apply on_w_inv|apply on_w_trace|]. intros b. cbn. left.
      rewrite <-Ht. apply Hready. apply Z.ltb_lt in Hlt. by rewrite Ht. }
    pose proof (on_w_trace (invoke (chain_CompleteOrder nodeAddress (si_OrderId task)
      (si_Cid task) (si_Size task))) (p_svc p)) as Htr. unfold same in Htr.
    revert Hi. unfold traced, bind, attempt, m, on_w, zoom, invoke in *.
    destruct (chain_CompleteOrder _ _ _ _ _) as [[[h ht]|e] w'] eqn:E; cbn in *; intros Hi;
      split_and!; eauto.
    by eapply CompleteOrder_typed.
  - intros tx. eapply (triple_bind _ _ _ (fun _ _ => True)).
    { apply triple_set_task. intros p [_ [Ht _]] Hh. split; [|done]. split; [|by unfold stored_ok].
      unfold ShardInfo_typed in *. cbn. destruct_and!. by split_and!. }
    intros _. eapply triple_bind; [apply (triple_save_task (fun _ _ => True))|]. intros u.
    eapply (triple_bind _ _ _ (fun _ _ => True)).
    { eapply triple_conseq; [apply triple_attempt,
        (in_svc_on_w (fun _ => True) _ (fun _ => True)); done|done|done]. }
    intros [order|e]; [|by apply triple_ret].
    eapply (triple_bind _ _ _ (fun _ _ => True)); [by apply triple_deref|]. intros shard.
    apply triple_ignore. intros p [Hi Ht]. split.
    + unfold in_svc, zoom.
      pose proof (on_ds_inv _ (fun P => SaveShardExpire_ds_ok P (sh_Id shard) (sh_Cid shard)
        (sh_OrderId shard)) (p_svc p) Hi) as Hi'. by destruct (on_ds _ (p_svc p)).
    + unfold in_svc, zoom, on_ds. unfold zoom. by destruct (SaveShardExpire _ _ _ _).
Qed.

Lemma notify_phase_ok sp peer :
  triple pinv (fun _ => True) (notify_phase sp peer) (fun _ _ => True).
Proof.
  unfold notify_phase. eapply triple_bind; [apply triple_get_task|]. intros task. cbv zeta.
  eapply (triple_bind _ _ _ (fun _ _ => True)).
  { apply in_svc_triple. intros p Hp _. unfold wp, bind.
    pose proof (inv_emit (EvNotify (MkShardCompleteReq (si_OrderId task) (si_DataId task)
      [si_Cid task] (si_CompleteHash task) (si_CompleteHeight task))) (p_svc p) (proj1 Hp) I) as Hi.
    cbn in *. unfold on_w, zoom, invoke_total. cbn.
    destruct (RequestShardComplete _ _ _ _) as [resp w']. cbn. split_and!; eauto. }
  intros resp. eapply (triple_bind _ _ _ (fun _ _ => True)).
  { apply triple_if; [|by apply triple_ret].
    eapply triple_conseq; [by apply (triple_updateShardError (fun _ _ => True))|done|done]. }
  intros _. eapply triple_bind; [apply triple_get_task|]. intros task'.
  apply triple_if; [|by apply triple_ret].
  eapply (triple_bind _ _ _ (fun _ _ => True)).
  - apply triple_set_task. intros p [_ [Ht _]] _. split; [|done]. split; [|by unfold stored_ok].
    unfold ShardInfo_typed in *. cbn. destruct_and!. by split_and!.
  - intros _. apply (triple_save_task (fun _ _ => True)).
Qed.

Lemma terminate_task_ok p :
  pinv p -> task_ok (sv_trace (p_svc p)) (si_set_State ShardStateTerminate (p_task p)).
Proof.
  intros [_ [Ht _]]. split; [|by unfold stored_ok]. unfold ShardInfo_typed in *. cbn.
  destruct_and!. by split_and!.
Qed.

Lemma guard_retries_ok : triple pinv (fun _ => True) guard_retries (fun _ _ => True).
Proof.
  unfold guard_retries. eapply triple_bind; [apply triple_get_task|]. intros task.
  apply triple_if; [|by apply triple_ret].
  eapply (triple_bind _ _ _ (fun _ _ => True)).
  { apply triple_set_task. intros p Hp _. split; [by apply terminate_task_ok|done]. }
  intros _. eapply triple_bind; [by apply (triple_updateShardError (fun _ _ => True))|].
  intros u. by apply triple_ret.
Qed.

Lemma guard_expired_ok : triple pinv (fun _ => True) guard_expired (fun _ _ => True).
Proof.
  unfold guard_expired. eapply triple_bind; [apply triple_get_task|]. intros task.
  apply triple_if; [|by apply triple_ret].
  eapply (triple_bind _ _ _ (fun _ _ => True)).
  { eapply triple_conseq; [by apply (in_svc_on_w (fun _ => True) _ (fun _ => True))|done|done]. }
  intros h. apply triple_if; [|by apply triple_ret].
  eapply (triple_bind _ _ _ (fun _ _ => True)).
  { apply triple_set_task. intros p Hp _. split; [by apply terminate_task_ok|done]. }
  intros _. eapply triple_bind; [by apply (triple_updateShardError (fun _ _ => True))|].
  intros u. by apply triple_ret.
Qed.

Lemma process_ok :
  triple pinv (fun _ => True) (process nodeAddress storeManager) (fun _ _ => True).
Proof.
  unfold process. eapply triple_bind; [apply triple_get_task|]. intros task.
  apply triple_if; [by apply triple_ret|].
  eapply (triple_bind _ _ _ (fun _ _ => True)).
  { apply triple_set_task. intros p [_ [Ht Hs]] _. split; [|done]. split; [|exact Hs].
    unfold ShardInfo_typed in *. cbn. destruct_and!. split_and!; try done. apply wrap_u64_range. }
  intros _. eapply (triple_bind _ _ _ (fun now _ => is_i64 now)).
  { eapply triple_conseq; [apply (in_svc_on_w (fun _ => True) _ is_i64); [|done]|done|by intros ? ? [_ ?]].
    intros w now w'. unfold invoke_total. destruct (time_Now w) as [n w1] eqn:E.
    intros [= <- <-]. by eapply time_Now_typed. }
  intros now. eapply (triple_bind _ _ _ (fun _ _ => True)).
  { apply triple_set_task. intros p [_ [Ht Hs]] Hnow. split; [|done]. split; [|exact Hs].
    unfold ShardInfo_typed in *. cbn. destruct_and!. split_and!; try done.
    by apply GetRetryAt_typed. }
  intros _. eapply triple_bind; [apply guard_retries_ok|]. intros b1.
  apply triple_if; [by apply triple_ret|].
  eapply (triple_bind _ _ _ (fun _ _ => True)).
  { eapply triple_conseq; [apply guard_expired_ok|done|done]. }
  intros b2. apply triple_if; [by apply triple_ret|].
  eapply (triple_or_else _ _ _ (fun _ _ => True)); [|intros; apply triple_error|].
  - unfold getStorageProtocolAndPeer. apply in_svc_triple. intros p Hp _. unfold wp.
    destruct (String.eqb _ _); cbn.
    + split_and!; [apply Hp|exists []; by rewrite app_nil_r|done].
    + unfold bind, on_w, zoom, invoke. destruct (chain_GetNodePeer _ _) as [[a|e] w']; cbn;
        (split_and!; [apply Hp|exists []; by rewrite app_nil_r|done]).
  - intros sp. eapply triple_bind; [apply store_phase_ok|]. intros u.
    eapply triple_bind; [apply complete_phase_ok|]. intros u'. apply notify_phase_ok.
Qed.

(** *** The worker *)
Lemma run_process_ok task s :
  inv s -> task_ok (sv_trace s) task ->
  wp (run_process nodeAddress storeManager task) s (fun o s' =>
    inv s' /\ match o with Ret r => task_ok (sv_trace s') r.2 | _ => True end).
Proof.
  intros Hi Ht. pose proof (process_ok (Proc s task) (conj Hi Ht) I) as [Hp _].
  unfold wp, run_process.
  destruct (process nodeAddress storeManager (Proc s task)) as [[u|e| |] p]; cbn in *;
    by destruct Hp.
Qed.

Lemma start_step_inv : steps (keeps inv) (start_step nodeAddress storeManager).
Proof.
  intros s Hi. unfold start_step. unfold bind at 1. unfold on_queue at 1, zoom.
  destruct (sv_queue s) as [|w q] eqn:Eq; cbn.
  { destruct Hi as (? & ? & ? & ?). by split_and!. }
  set (s1 := Svc (sv_w s) (sv_ds s) q (sv_migrate s) (sv_trace s)).
  assert (inv s1 /\ task_ok (sv_trace s1) (wr_Shard w)) as [Hi1 Hw].
  { destruct Hi as (? & Hq & ? & ?). rewrite Eq in Hq. apply Forall_cons in Hq as [? ?]. by split_and!. }
  unfold bind at 1. unfold on_w, zoom, invoke_total. cbn.
  destruct (time_Now (sv_w s)) as [now w'] eqn:Et. cbn.
  set (s2 := Svc w' (sv_ds s) q (sv_migrate s) (sv_trace s)).
  assert (inv s2) as Hi2 by exact Hi1.
  destruct (Unix now <? si_RetryAt (wr_Shard w)); [by apply push_inv|].
  unfold bind. pose proof (run_process_ok (wr_Shard w) s2 Hi2 Hw) as [Hi3 Ht3].
  destruct (run_process nodeAddress storeManager (wr_Shard w) s2) as [[[[e|] t]|e| |] s3];
    cbn in *; try done. by apply push_inv.
Qed.

(** *** The handlers *)

(** Reading a shard and going on with it, or with the zero shard. *)
Lemma triple_GetShard n c :
  good_shard (MkShardKey n c) ->
  triple inv (fun _ => True) (on_ds (GetShard n c)) (fun t s => task_ok (sv_trace s) t).
Proof.
  intros Hg s Hi _. eapply wp_mono; [by apply GetShard_task|]. by intros o s' [[Hi' _] Ho].
Qed.

Lemma zero_task_ok tr : task_ok tr ShardInfo_zero.
Proof.
  split; [|by unfold stored_ok]. unfold ShardInfo_typed, is_u64, is_i64, two63, two64. cbn.
  split_and!; try lia. by right.
Qed.

Lemma new_shard_ok tr req order c :
  is_u64 (sar_OrderId req) -> is_u64 (sar_TimeoutHeight req) -> cid_valid c ->
  task_ok tr (new_shard req order c).
Proof.
  intros Ho Ht Hc. split; [|by unfold stored_ok].
  unfold ShardInfo_typed, cid_typed, is_i64, is_u64, two63, two64, new_shard, ShardStateValidated in *. cbn. split_and!; auto; lia.
Qed.

Definition assign_typed (req : ShardAssignReq) : Prop :=
  is_u64 (sar_OrderId req) /\ is_u64 (sar_TimeoutHeight req).

Lemma assign_loop_inv req order cids :
  assign_typed req -> triple inv (fun _ => True) (assign_loop req order cids) (fun _ _ => True).
Proof.
  intros [Ho Hth]. induction cids as [|sc cids IH]; [by apply triple_ret|].
  cbn [assign_loop]. destruct (cid_Decode sc) as [c|] eqn:Ec; [|by apply triple_ret].
  apply cid_Decode_valid in Ec.
  eapply (triple_bind _ _ _ (fun r s => task_ok (sv_trace s)
    (match r with inl t => t | inr _ => ShardInfo_zero end))).
  { eapply triple_conseq; [apply triple_attempt, triple_GetShard, good_typed; [done|by left]|done|].
    intros [t|e] s; [done|]. intros _. apply zero_task_ok. }
  intros got. cbv zeta.
  set (t := match got with inl t => t | inr _ => ShardInfo_zero end).
  eapply (triple_bind _ _ _ (fun t s => task_ok (sv_trace s) t)).
  { case_decide; [|by apply triple_ret].
    eapply (triple_bind _ _ _ (fun _ _ => True)).
    - apply triple_ignore. intros s Hi. apply save_shard_inv; [done|by apply new_shard_ok].
    - intros _. apply triple_ret. intros s _. by apply new_shard_ok. }
  intros t'. cbv zeta. eapply (triple_bind _ _ _ (fun _ _ => True)); [|intros _; exact IH].
  intros s Hi Ht'. split; [|by cbn]. apply push_inv; [done|]. cbn.
  destruct (si_ExpireHeight t' <? sar_TimeoutHeight req); [|done].
  destruct Ht' as [Hty _]. split; [|by unfold stored_ok].
  unfold ShardInfo_typed in *. cbn. destruct_and!. by split_and!.
Qed.

Lemma HandleShardAssign_inv req :
  assign_typed req -> steps (keeps inv) (HandleShardAssign nodeAddress req).
Proof.
  intros Hreq. unfold HandleShardAssign. cbv zeta. go_steps.
  all: try (intros s Hi; by apply (assign_loop_inv req a2 _ Hreq s Hi)).
Qed.

Lemma ShardFix_inv n c :
  good_shard (MkShardKey n c) -> steps (keeps inv) (ShardFix n c).
Proof.
  intros Hg s Hi. unfold ShardFix.
  apply (triple_keeps inv (fun _ => True) _ (fun _ _ => True)); [|done|done].
  eapply triple_or_else; [by apply triple_GetShard|intros; by apply triple_ret|].
  intros t s' Hi' Ht. split; [by apply push_inv|done].
Qed.

Lemma GetShardExpire_typed i (d : D) e d' :
  GetShardExpire i d = (Ret e, d') -> ShardExpireInfo_typed e.
Proof.
  unfold GetShardExpire. cbv zeta. unfold bind.
  destruct (ds_Has _ d) as [[ex|er| |] d1]; [|done..]. destruct (negb ex).
  { intros [= <- _]. unfold ShardExpireInfo_typed, is_u64, two64. cbn. lia. }
  destruct (ds_Get _ d1) as [[b|er| |] d2]; [|done..].
  change (UnmarshalCBOR b) with (whole (ShardExpireInfo_UnmarshalCBOR b)). unfold whole, rbind.
  destruct (ShardExpireInfo_UnmarshalCBOR b) as [[e' r]|] eqn:E; [|done].
  intros [= <- _]. by eapply ShardExpireInfo_read_typed.
Qed.

Lemma GetShardIndex_typed (d : D) ix d' :
  GetShardIndex d = (Ret ix, d') -> Forall ShardKey_typed (sx_All ix).
Proof.
  unfold GetShardIndex. cbv zeta. unfold bind.
  destruct (ds_Has _ d) as [[ex|er| |] d1]; [|done..]. destruct (negb ex); [by intros [= <- _]|].
  destruct (ds_Get _ d1) as [[b|er| |] d2]; [|done..].
  change (UnmarshalCBOR b) with (whole (ShardIndex_UnmarshalCBOR b)). unfold whole, rbind.
  destruct (ShardIndex_UnmarshalCBOR b) as [[ix' r]|] eqn:E; [|done]. intros [= <- _].
  revert E. apply (unmarshal_inv (fun i => Forall ShardKey_typed (sx_All i))); [|by cbn].
  apply List.Forall_cons; [|apply List.Forall_nil].
  eapply (fld_inv _ (Forall ShardKey_typed)); [|by cbn].
  apply slice_read. intros r0 v r'. apply ShardKey_read_typed.
Qed.

(** *** Restart: the pending shards go back into the queue *)
Lemma collect_ok tr keep keys :
  Forall ShardKey_typed keys ->
  triple inv (fun s => sv_trace s = tr) (collect get_by_key keep keys)
    (fun l s => sv_trace s = tr /\ Forall (task_ok tr) l).
Proof.
  intros Hk. induction Hk as [|[n c] keys [Hn Hc] Hk IH]; cbn [collect].
  { by apply triple_ret. }
  eapply (triple_bind _ _ _ (fun t s => sv_trace s = tr /\ task_ok tr t)).
  { intros s Hi Htr. eapply wp_mono; [apply GetShard_task; [done|by apply good_typed]|].
    intros o s' [[Hi' Htr'] Ho]. split; [done|]. destruct o; [|done..].
    rewrite Htr', Htr in Ho. rewrite Htr'. done. }
  intros t. eapply (triple_bind _ _ _ (fun l s => sv_trace s = tr /\ Forall (task_ok tr) l /\ task_ok tr t)).
  { intros s Hi [Htr Ht]. eapply wp_mono; [by apply IH|]. intros o s' [Hi' Ho].
    split; [done|]. destruct o; [|done..]. destruct Ho. by split_and!. }
  intros l. apply triple_ret. intros s (Htr & Hl & Ht). split; [done|].
  destruct (keep t); [by constructor|done].
Qed.

Lemma getPendingShardList_ok tr :
  triple inv (fun s => sv_trace s = tr) getPendingShardList
    (fun l s => sv_trace s = tr /\ Forall (task_ok tr) l).
Proof.
  unfold getPendingShardList, getShardKeyList.
  eapply (triple_bind _ _ _ (fun ks s => sv_trace s = tr /\ Forall ShardKey_typed ks)).
  - eapply (triple_bind _ _ _ (fun ix s => sv_trace s = tr /\ Forall ShardKey_typed (sx_All ix))).
    + intros s Hi Htr. pose proof (on_ds_inv GetShardIndex ltac:(auto with go) s Hi) as Hi'.
      split; [done|]. destruct (on_ds GetShardIndex s) as [[ix|e| |] s'] eqn:E; cbn; [|done..].
      split.
      * unfold on_ds, zoom in E. destruct (GetShardIndex (sv_ds s)). by injection E as _ <-.
      * apply zoom_ret in E as [d' E]. by eapply GetShardIndex_typed.
    + intros ix. by apply triple_ret.
  - intros ks s Hi [Htr Hks]. by apply collect_ok.
Qed.

Lemma processIncompleteShards_inv : steps (keeps inv) processIncompleteShards.
Proof.
  intros s Hi. unfold processIncompleteShards, bind, attempt.
  pose proof (getPendingShardList_ok (sv_trace s) s Hi eq_refl) as [Hi' Hl].
  destruct (getPendingShardList s) as [[l|e| |] s']; cbn in *; try done.
  destruct Hl as [Htr Hl]. clear Hi. rename Hi' into Hi. revert s' Htr Hi.
  induction Hl as [|t l Ht Hl IH]; intros s' Htr Hi; cbn; [done|].
  unfold bind. cbn. apply IH; [done|]. apply (push_inv (shard_request t) s' Hi). cbn. by rewrite Htr.
Qed.

(** *** Expiration *)
Lemma expire_shard_inv shards k : steps (keeps inv) (expire_shard storeManager shards k).
Proof.
  intros s Hi. apply (triple_keeps inv (fun _ => True) _ (fun _ _ => True)); [|done|done].
  clear s Hi. unfold expire_shard. case_decide; [by apply triple_ret|].
  eapply (triple_or_else _ _ _ (fun e _ => ShardExpireInfo_typed e)); [|intros; by apply triple_ret|].
  { apply triple_run; [apply on_ds_inv; auto with go|]. intros s e s' [d' E]%zoom_ret.
    by eapply GetShardExpire_typed. }
  intros info. eapply (triple_bind _ _ _ (fun _ _ => ShardExpireInfo_typed info)).
  { intros s Hi Ht. case_decide; [done|]. destruct (cid_Parse (se_Cid info)) as [c|]; [|done].
    pose proof (inv_traced (EvRemove c) (on_w (sm_Remove storeManager c)) s Hi (on_w_inv _)
      (on_w_trace _) (fun _ => I)) as Hi'. fold (call_Remove (D := D) storeManager c) in Hi'.
    unfold wp, bind, attempt.
    destruct (call_Remove storeManager c s) as [[u|e| |] s']; done. }
  intros removed. destruct (negb removed); [by apply triple_ret|].
  eapply (triple_or_else _ _ _ (fun _ _ => ShardExpireInfo_typed info));
    [|intros; by apply triple_ret|].
  { intros s Hi Ht. split; [by apply on_ds_inv; auto with go|]. by destruct (on_ds _ s).1. }
  intros u. destruct (cid_Parse (se_Cid info)) as [c|] eqn:Ec; [|by apply triple_ret].
  apply cid_Parse_valid in Ec.
  eapply (triple_or_else _ _ _ (fun t s => task_ok (sv_trace s) t)); [|intros; by apply triple_ret|].
  { intros s Hi [_ Ho]. apply triple_GetShard; [|done|done]. apply good_typed; [done|by left]. }
  intros sf s Hi Ht. unfold ignore, bind, attempt, wp.
  assert (task_ok (sv_trace s) (si_set_State ShardStateExpired sf)) as Ht'.
  { destruct Ht as [Hty _]. split; [|by unfold stored_ok].
    unfold ShardInfo_typed in *. cbn. destruct_and!. by split_and!. }
  pose proof (save_shard_inv _ _ Hi Ht') as Hi'.
  by destruct (on_ds (SaveShard _) s) as [[] ?].
Qed.

Lemma get_all_shards_inv fuel off l : steps (keeps inv) (get_all_shards fuel off l).
Proof. revert l. induction fuel; intros l; cbn [get_all_shards]; go_steps. Qed.

Lemma processExpire_inv fuel : steps (keeps inv) (processExpire storeManager fuel).
Proof.
  unfold processExpire, GetAllShards. go_steps; eauto using get_all_shards_inv, expire_shard_inv.
Qed.

Lemma initShardsExpiration_inv fuel : steps (keeps inv) (initShardsExpiration fuel).
Proof. unfold initShardsExpiration, GetAllShards. go_steps; eauto using get_all_shards_inv. Qed.

Lemma HandleShardLoad_inv req peer : steps (keeps inv) (HandleShardLoad storeManager req peer).
Proof.
  unfold HandleShardLoad, check_fishmen, check_client, check_relay_signature. cbv zeta. go_steps.
Qed.

(** *** Migrations *)

(** A migrated shard is stored and completed; nothing else is. *)
Lemma HandleShardMigrate_inv req s :
  inv s ->
  (forall order c, checked_migration nodeAddress s req order c ->
     accepted (sv_trace s ++ [EvStore c (smr_Content req) true]) (fo_Id order) c (migrate_size req)) ->
  inv (HandleShardMigrate nodeAddress storeManager req s).2.
Proof.
  intros Hi Hacc. unfold HandleShardMigrate. cbv zeta.
  change (wp (HandleShardMigrate nodeAddress storeManager req) s (fun _ s' => inv s')). unfold HandleShardMigrate. cbv zeta.
  apply wp_or_else, wp_invoke. intros [tx|e] w1 Et; cbn [reply]; [|exact Hi].
  destruct (Z.eqb_spec (rt_Code tx) 0) as [Hcode|]; cbn [negb]; [|exact Hi].
  destruct (TxMsgData_Unmarshal (rt_Data tx)) as [[|value l]|e] eqn:Ed; [exact Hi| |exact Hi].
  apply wp_bind, wp_ret. destruct (MsgMigrateResponse_Unmarshal value) as [result|e] eqn:Er; [|exact Hi].
  destruct (String.eqb _ ""); [exact Hi|].
  destruct (HasPrefix _ _) eqn:Hpre; cbn [negb]; [|exact Hi].
  apply wp_or_else, wp_invoke. intros [order|e] w2 Eo; cbn [reply]; [|exact Hi].
  destruct (fo_Shards order !! nodeAddress) as [shard|] eqn:Es; [|exact Hi].
  destruct (String.eqb_spec (sh_From shard) (smr_MigrateFrom req)) as [Hfrom|]; cbn [negb]; [|exact Hi].
  destruct (String.eqb_spec (sh_Cid shard) (smr_Cid req)) as [Hcid|]; cbn [negb]; [|exact Hi].
  destruct (Z.eqb_spec (sh_Status shard) ShardMigrating) as [Hst|]; cbn [negb]; [|exact Hi].
  destruct (cid_Decode (sh_Cid shard)) as [c|e] eqn:Ec; [|exact Hi].
  assert (checked_migration nodeAddress s req order c) as Hchecked.
  { exists tx, w1, value, l, result. split_and!; [done..|by cbn in Eo; rewrite Eo|]. exists shard. by rewrite <-Hcid. }
  apply Hacc in Hchecked. cbn [with_w sv_w] in *. set (s2 := with_w (with_w s w1) w2).
  assert (inv s2) as Hi2 by exact Hi. assert (sv_trace s2 = sv_trace s) as Htr by done.
  apply wp_or_else. unfold call_Store. unfold wp at 1.
  pose proof (inv_traced (EvStore c (smr_Content req)) (on_w (sm_Store storeManager c (smr_Content req))) s2 Hi2
    (on_w_inv _) (on_w_trace _) (fun _ => I)) as Hi3.
  pose proof (on_w_trace (sm_Store storeManager c (smr_Content req)) s2) as Htr3. unfold same in Htr3.
  revert Hi3. unfold traced, bind, attempt.
  destruct (on_w (sm_Store storeManager c (smr_Content req)) s2) as [[a|e| |] s3]; cbn; intros Hi3; try exact Hi3.
  cbn in Htr3. set (s4 := Svc _ _ _ _ _). assert (inv s4) as Hi4 by exact Hi3.
  apply wp_or_else. unfold call_CompleteOrder, wp at 1.
  pose proof (inv_traced (EvComplete (fo_Id order) c (migrate_size req))
    (on_w (invoke (chain_CompleteOrder nodeAddress (fo_Id order) c (migrate_size req)))) s4 Hi4
    (on_w_inv _) (on_w_trace _)) as Hi5.
  assert (forall b, harmless (sv_trace s4) (EvComplete (fo_Id order) c (migrate_size req) b)) as Hh.
  { intros b. right. subst s4. cbn. by rewrite Htr3. }
  specialize (Hi5 Hh). fold (migrate_size req). destruct (traced _ _ s4) as [[[]|e| |] s5]; exact Hi5.
Qed.

Definition mi_ok (m : MigrateInfo) : Prop := MigrateInfo_typed m /\ plain_migrate (t_of migrate_table m).

Lemma SaveMigrate_inv m : mi_ok m -> steps (keeps inv) (on_ds (SaveMigrate m)).
Proof. intros [Ht Hp]. apply on_ds_inv. intros P. by apply SaveMigrate_ds_ok. Qed.

Lemma GetMigrate_ok n f s :
  inv s -> plain_migrate (MkMigrateKey n f) ->
  wp (on_ds (GetMigrate n f)) s (fun o s' => inv s' /\ match o with Ret m => mi_ok m | _ => True end).
Proof.
  intros Hi Hk. split; [apply on_ds_inv; auto with go|]. destruct Hi as (_ & _ & [_ Hd] & _).
  unfold on_ds, zoom. destruct (GetMigrate n f (sv_ds s)) as [o d'] eqn:E. cbn. destruct o as [m|e| |]; [|done..].
  revert E. unfold GetMigrate. cbv zeta. unfold bind.
  pose proof (Has_spec (migrateDatastoreKey n f) (sv_ds s)) as [HC _].
  destruct (ds_Has _ _) as [[ex|e| |] d1]; [|done..]. cbn in HC. destruct (negb ex).
  { intros [= <- <-]. split; [|done]. unfold MigrateInfo_typed, is_u64, is_i64, two63, two64. cbn. lia. }
  pose proof (Get_spec (migrateDatastoreKey n f) d1) as [_ [_ Hget]].
  destruct (ds_Get _ _) as [[b|e| |] d2]; [|done..]. cbn in Hget. rewrite HC in Hget.
  destruct (UnmarshalCBOR b) as [m'|] eqn:Eu; cbn; [|done]. intros [= <- <-].
  split; [|by eapply (Hd (MkMigrateKey n f))].
  change (whole (MigrateInfo_UnmarshalCBOR b) = inl m') in Eu. unfold whole, rbind in Eu.
  destruct (MigrateInfo_UnmarshalCBOR b) as [[t0 r0]|] eqn:E0; [|done].
  injection Eu as <-. by eapply MigrateInfo_read_typed.
Qed.

(** Results of calls of which a fact is known, whatever the state. *)
Lemma triple_know {A A2} P (m : GoM svc A) (Q : A -> Prop) (k : A -> GoM svc A2) R :
  triple inv P m (fun a _ => Q a) -> (forall a, Q a -> triple inv (fun _ => True) (k a) R) ->
  triple inv P (bind m k) R.
Proof. intros Hm Hk. eapply triple_bind; [exact Hm|]. intros a s Hi Ha. by apply Hk. Qed.

Lemma triple_on_w {A} P (m : GoM W A) : triple inv P (on_w m) (fun _ _ => True).
Proof. apply triple_steps, on_w_inv. Qed.
Lemma triple_ask {A} P (c : call W A) (Q : A -> Prop) :
  (forall w a w', c w = (inl a, w') -> Q a) -> triple inv P (on_w (invoke c)) (fun a _ => Q a).
Proof.
  intros Hc. apply triple_run; [apply on_w_inv|]. intros s a s' [w' E]%zoom_ret. unfold invoke in E.
  destruct (c _) as [[a'|e] w''] eqn:E'; [|done]. injection E as <- _. by eapply Hc.
Qed.
Lemma triple_ask_total {A} P (c : total_call W A) (Q : A -> Prop) :
  (forall w a w', c w = (a, w') -> Q a) -> triple inv P (on_w (invoke_total c)) (fun a _ => Q a).
Proof.
  intros Hc. apply triple_run; [apply on_w_inv|]. intros s a s' [w' E]%zoom_ret. unfold invoke_total in E.
  destruct (c _) as [a' w''] eqn:E'. injection E as <- _. by eapply Hc.
Qed.
Lemma triple_SaveMigrate P m : mi_ok m -> triple inv P (ignore (on_ds (SaveMigrate m))) (fun _ _ => True).
Proof. intros Hm. apply triple_ignore, SaveMigrate_inv, Hm. Qed.

(** The sender of a migration. *)
Definition request_ok (r : MigrateRequest) : Prop := plain_migrate (MkMigrateKey (mr_DataId r) (mr_FromProvider r)).

Lemma processMigrate_inv r : request_ok r -> steps (keeps inv) (processMigrate storeManager r).
Proof.
  intros Hr s Hi. apply (triple_keeps inv (fun _ => True) _ (fun _ _ => True)); [|done|done]. clear s Hi.
  unfold processMigrate.
  apply (triple_know _ _ (fun _ => True)); [by apply triple_lift|]. intros c _.
  apply (triple_know _ _ (fun _ => True)); [apply triple_on_w|]. intros reader _.
  apply (triple_know _ _ (fun _ => True)); [by apply triple_lift|]. intros content _.
  apply (triple_know _ _ (fun _ => True)); [apply triple_on_w|]. intros peer _.
  apply (triple_know _ _ (fun resp => is_i64 (smp_CompleteHeight resp))).
  { apply triple_ask_total. intros. by eapply RequestShardMigrate_typed. }
  intros resp Hresp. destruct (negb _); [apply triple_fail|].
  apply (triple_know _ _ (fun _ => True)); [apply triple_on_w|]. intros tx _. destruct (negb _); [apply triple_fail|].
  apply (triple_know _ _ (fun _ => True)); [apply triple_on_w|]. intros order _.
  destruct (_ !! _) as [shard|]; [|apply triple_fail]. destruct (negb _); [apply triple_fail|].
  destruct (negb _); [apply triple_fail|].
  apply (triple_know _ _ (fun r => match r with inl m => mi_ok m | inr _ => True end)).
  { eapply triple_conseq; [apply (triple_attempt _ (fun _ => True) _ (fun m _ => mi_ok m))|done|by intros [] ?].
    intros s Hi _. by apply GetMigrate_ok. }
  intros [m|e] Hm; [|by apply triple_ret]. apply triple_SaveMigrate. destruct Hm as [Ht Hp]. split; [|exact Hp].
  unfold MigrateInfo_typed in *. cbn. destruct_and!. split_and!; [done..|]. unfold is_u64, MigrateStateComplete, two64. lia.
Qed.

Lemma migrate_order_ok mi orderId :
  mi_ok mi -> mi_FromProvider mi = nodeAddress ->
  triple inv (fun _ => True) (migrate_order nodeAddress mi orderId)
    (fun mi' _ => mi_ok mi' /\ mi_FromProvider mi' = nodeAddress).
Proof.
  intros Hm Hf. unfold migrate_order.
  apply (triple_know _ _ (fun r => match r with inl o => is_u64 (fo_Id o) | inr _ => True end)).
  { eapply triple_conseq; [apply (triple_attempt _ (fun _ => True) _ (fun o _ => is_u64 (fo_Id o)))|done|by intros [] ?].
    apply triple_ask. intros. by eapply GetOrder_typed. }
  intros [order|e] Ho; [|apply triple_panic].
  apply (triple_know _ _ (fun o => o = order)); [apply triple_deref; by intros ? ? [= ->]|]. intros ? ->.
  destruct (_ !! _) as [shard|]; [|by apply triple_ret]. destruct (List.find _ _) as [[node sh]|]; [|by apply triple_ret].
  cbv zeta. set (mi2 := mi_set_target _ _ _ _).
  assert (mi_ok mi2) as Hm2.
  { destruct Hm as [Ht Hp]. split; [|exact Hp]. unfold MigrateInfo_typed in *. cbn. destruct_and!. by split_and!. }
  apply (triple_know _ _ (fun _ => True)); [by apply triple_SaveMigrate|]. intros _ _.
  apply (triple_know _ _ (fun _ => True)); [|intros _ _; by apply triple_ret].
  apply triple_modify. intros s (? & ? & ? & Hmr) _. split; [|done]. split_and!; [done..|]. cbn.
  apply Forall_app. split; [done|]. apply Forall_singleton. cbn. rewrite <-Hf. apply Hm.
Qed.

Lemma migrate_orders_ok orders mi :
  mi_ok mi -> mi_FromProvider mi = nodeAddress ->
  triple inv (fun _ => True) (migrate_orders nodeAddress mi orders) (fun _ _ => True).
Proof.
  revert mi. induction orders as [|o orders IH]; intros mi Hm Hf; cbn [migrate_orders]; [by apply triple_ret|].
  eapply triple_know; [by apply migrate_order_ok|]. intros mi' [Hm' Hf']. by apply IH.
Qed.

Lemma migrate_data_ok hash height kv :
  is_i64 height -> plain_migrate (MkMigrateKey kv.1 nodeAddress) ->
  triple inv (fun _ => True) (migrate_data nodeAddress hash height kv) (fun _ _ => True).
Proof.
  intros Hh Hk. unfold migrate_data. destruct (HasPrefix _ _); [|by apply triple_ret]. cbv zeta.
  assert (mi_ok (MkMigrateInfo kv.1 0 "" nodeAddress "" hash height "" 0 MigrateStateTxSent)) as Hm.
  { split; [|exact Hk]. unfold MigrateInfo_typed. cbn. split_and!; [|done| |];
      unfold is_u64, is_i64, MigrateStateTxSent, two63, two64; lia. }
  apply (triple_know _ _ (fun _ => True)); [by apply triple_SaveMigrate|]. intros _ _.
  apply (triple_know _ _ (fun _ => True)); [eapply triple_conseq; [apply (triple_attempt _ (fun _ => True)), triple_on_w|done|done]|]. intros resp _.
  apply (triple_know _ _ (fun _ => True)); [by apply triple_deref|]. intros orders _. by apply migrate_orders_ok.
Qed.

Lemma Migrate_inv dataIds : free_of "/" nodeAddress = true -> steps (keeps inv) (Migrate nodeAddress dataIds).
Proof.
  intros Hn s Hi. apply (triple_keeps inv (fun _ => True) _ (fun _ _ => True)); [|done|done]. clear s Hi.
  unfold Migrate. apply (triple_know _ _ (fun r => is_i64 r.1.2 /\ forall d v, r.1.1.2 !! d = Some v -> free_of "/" d = true)).
  { apply triple_ask_total. intros w [[[h results] ht] err] w' E. exact (MigrateOrder_typed _ _ _ _ _ _ _ _ E). }
  intros [[[hash results] height] err] [Hh Hp].
  apply (triple_know _ _ (fun _ => True)); [|intros _ _; by apply triple_ret].
  apply triple_for_each. intros [d v] Hin. apply migrate_data_ok; [done|]. split; [|done]. cbn.
  rewrite range_perm in Hin. apply elem_of_map_to_list in Hin. by eapply Hp.
Qed.

(** *** Lists *)
Lemma collect_inv {K R} (get : K -> GoM svc R) keep keys :
  (forall k, steps (keeps inv) (get k)) -> steps (keeps inv) (collect get keep keys).
Proof. intros Hget. induction keys; cbn [collect]; go_steps. Qed.
Lemma ShardList_inv : steps (keeps inv) ShardList.
Proof. unfold ShardList, getShardKeyList. go_steps. apply collect_inv. intros k. unfold get_by_key. go_steps. Qed.
Lemma MigrateList_inv : steps (keeps inv) MigrateList.
Proof. unfold MigrateList, getMigrateKeyList. go_steps. apply collect_inv. intros k. go_steps. Qed.
End Invariant.

(** What is known of completions, of which more is known. *)
Lemma inv_weaken (accepted accepted' : list event -> Z -> Cid -> Z -> Prop) s :
  (forall pre o c n, accepted pre o c n -> accepted' pre o c n) -> inv accepted s -> inv accepted' s.
Proof.
  intros Hacc (Htr & Hrest). split; [|exact Hrest]. intros pre post o c n ok E.
  destruct (Htr _ _ _ _ _ _ E); eauto.
Qed.

(** ** Reachable states *)

(** One step: a request of a gateway, of a storage node or of the operator, an iteration
    of a worker, a turn of the migration loop, a tick of the expiration timer, a restart
    (the queue and the channel are lost, and the queue is filled with the pending
    shards), or a change of the world. *)
Inductive step : svc -> svc -> Prop :=
| step_assign s req : assign_typed req -> step s (HandleShardAssign nodeAddress req s).2
| step_load s req peer : step s (HandleShardLoad storeManager req peer s).2
| step_receive s req : step s (HandleShardMigrate nodeAddress storeManager req s).2
| step_work s : step s (start_step nodeAddress storeManager s).2
| step_fix s n c : good_shard (MkShardKey n c) -> step s (ShardFix n c s).2
| step_status s n c : step s (ShardStatus n c s).2
| step_list s : step s (ShardList s).2
| step_migrate s dataIds :
    free_of "/" nodeAddress = true -> step s (Migrate nodeAddress dataIds s).2
| step_migrations s : step s (MigrateList s).2
| step_send s r rest :
    sv_migrate s = r :: rest ->
    step s (processMigrate storeManager r (Svc (sv_w s) (sv_ds s) (sv_queue s) rest (sv_trace s))).2
| step_expire s fuel : step s (processExpire storeManager fuel s).2
| step_init s fuel : step s (initShardsExpiration fuel s).2
| step_restart s :
    step s (processIncompleteShards (Svc (sv_w s) (sv_ds s) [] [] (sv_trace s))).2
| step_world s w : step s (Svc w (sv_ds s) (sv_queue s) (sv_migrate s) (sv_trace s)).

(** A completion that ended a migration on the way from [s0] to [s]: the node had
    checked the request and stored what it carries. *)
Definition received s0 s (pre : list event) (orderId : Z) (c : Cid) (size : Z) : Prop :=
  exists s1 req order,
    rtc step s0 s1 /\ rtc step (HandleShardMigrate nodeAddress storeManager req s1).2 s /\
    checked_migration nodeAddress s1 req order c /\ orderId = fo_Id order /\ size = migrate_size req /\
    pre = sv_trace s1 ++ [EvStore c (smr_Content req) true].

Lemma step_inv s0 s s' : rtc step s0 s -> step s s' -> inv (received s0 s) s -> inv (received s0 s') s'.
Proof.
  intros Hr Hstep Hi.
  assert (inv (received s0 s') s) as Hi'.
  { eapply inv_weaken; [|exact Hi]. intros pre o c n (s1 & req & order & Hto & Hfrom & Hrest).
    exists s1, req, order. split; [done|]. split; [|done]. by eapply rtc_r. }
  clear Hi. revert Hi' Hr. remember (received s0 s') as acc eqn:Eacc.
  destruct Hstep as [| | | | | | | | |s r rest Em| | | |]; intros Hi Hr.
  - by apply HandleShardAssign_inv.
  - by apply HandleShardLoad_inv.
  - apply HandleShardMigrate_inv; [done|]. intros order c Hc. subst acc. exists s, req, order. by split_and!.
  - by apply start_step_inv.
  - by apply ShardFix_inv.
  - revert Hi. unfold ShardStatus. apply on_ds_inv. intros P. apply GetShard_ds_ok.
  - by apply ShardList_inv.
  - by apply Migrate_inv.
  - by apply MigrateList_inv.
  - destruct Hi as (? & ? & ? & Hm). rewrite Em in Hm. apply Forall_cons in Hm as [Hr0 Hm].
    apply processMigrate_inv; [exact Hr0|]. by split_and!.
  - by apply processExpire_inv.
  - by apply initShardsExpiration_inv.
  - apply processIncompleteShards_inv. destruct Hi as (? & ? & ? & ?). by split_and!.
  - exact Hi.
Qed.

(** A node that starts with an empty datastore. *)
Definition initial s : Prop :=
  sv_queue s = [] /\ sv_migrate s = [] /\ sv_trace s = [] /\ contents (sv_ds s) = ∅.

Lemma initial_inv accepted s : initial s -> inv accepted s.
Proof.
  intros (Hq & Hm & Htr & Hc). split_and!.
  - rewrite Htr. intros pre post o c n ok E. by apply app_cons_not_nil in E.
  - by rewrite Hq.
  - split; intros k b t _; by rewrite Hc, lookup_empty.
  - by rewrite Hm.
Qed.

Lemma reachable_inv s0 s : initial s0 -> rtc step s0 s -> inv (received s0 s) s.
Proof.
  intros Hinit. revert s. apply (rtc_ind_r (fun s => inv (received s0 s) s)); [by apply initial_inv|].
  intros s s' Hr Hstep IH. by eapply step_inv.
Qed.

(** C1: in every state a storage node can reach from an empty datastore, through
    assignments, worker iterations with their retries, repairs, migrations in and
    out, expirations, restarts and any behaviour of the chain, the peers, the backends
    and the datastore, each completion of a shard on the chain was preceded by a
    successful store of a content with the identifier of that shard, or by a check that
    found the shard in the backends; or it ended a migration to this node: then the
    transaction and the order of the chain had announced the shard, and the node had
    just stored what the request carries, which nothing compares with the identifier. *)
Theorem complete_only_stored s0 s pre post orderId c size ok :
  initial s0 -> rtc step s0 s ->
  sv_trace s = pre ++ EvComplete orderId c size ok :: post ->
  (exists content, EvStore c content true ∈ pre /\ computed content = c) \/ EvExist c true ∈ pre \/
  received s0 s pre orderId c size.
Proof.
  intros Hinit Hr E. destruct (reachable_inv s0 s Hinit Hr) as [Htr _].
  destruct (Htr _ _ _ _ _ _ E) as [[?|?]|?]; auto.
Qed.
End Safety.
