(* ===== verification/SampleWorld.v ===== *)
(** * A world to run the services in

    Instances of the interfaces of [ChainApi] over a small world: a chain with a
    few orders, a gateway that serves a content, backends in memory and a clock.
    The witnesses run the services on it. *)
From stdpp Require Import base list gmap strings.
From Stdlib Require Import ZArith Lia Ascii.
From S2P Require Import Prelude Types StateUtils Cbor CborTypes Instances Persistence Queue.
From S2P Require Import StoreManager ChainApi Storage StorageSafety.

Record world := World {
  w_now : Z;
  w_height : Z;
  w_orders : gmap Z FullOrder;
  w_shards : list Shard;              (* what ListShards returns *)
  w_total : Z;                        (* and the total it reports *)
  w_blocks : gmap nat (gmap string bytes);
  w_served : bytes;                   (* the content the gateway serves *)
  w_code : Z                          (* and the code of its response *)
}.

Definition set_blocks (m : gmap nat (gmap string bytes)) (w : world) : world :=
  World (w_now w) (w_height w) (w_orders w) (w_shards w) (w_total w) m (w_served w) (w_code w).

#[export] Instance SampleErrors : ErrorText := {
  Error e := match e with
             | EText s => s
             | EReg r => re_desc r
             | EWrap r _ => re_desc r
             | EWrapNil r => re_desc r
             | EWrapf r info => info
             | EWrapText s _ => s
             end
}.

(** The backends of [MemBackend], in the world. *)
#[export] Instance SampleBackend : StoreBackend world nat :=
  let mem := MemBackend.Backend in {|
  back_Id := @back_Id _ _ mem;
  back_Open b := ret tt;
  back_Close b := ret tt;
  back_Store b r := zoom w_blocks set_blocks (@back_Store _ _ mem b r);
  back_Remove b c := zoom w_blocks set_blocks (@back_Remove _ _ mem b c);
  back_Get b c := zoom w_blocks set_blocks (@back_Get _ _ mem b c);
  back_IsExist b c := zoom w_blocks set_blocks (@back_IsExist _ _ mem b c)
|}.

#[export] Instance SampleConsts : ChainConsts := {
  ShardCompleted := 2; ShardTimeout := 3; ShardMigrating := 5; MetaComplete := 0; absent_shard := None
}.

#[export] Instance SampleRange : GoRange := { range A m := map_to_list m }.
#[export] Instance SampleRangeLaws : GoRangeLaws.
Proof. split. done. Defined.

(** A transaction is found by its hash ["tx"]; its body is one message; the
    message of a migration reports success for the data id ["data"]. *)
#[export] Instance SampleTx : TxLib := {
  Tx_Unmarshal b := inl (Some [b]);
  MsgStore_Unmarshal _ := inl tt;
  MsgReady_Unmarshal _ := inl tt;
  TxMsgData_Unmarshal b := inl [b];
  MsgMigrateResponse_Unmarshal _ := inl [("data", "SUCCESS")]
}.

#[export] Instance SampleChain : ChainSvcApi world := {
  Account := string;
  VerifySignature _ _ sig := Some (bool_decide (sig = string_bytes "good"));
  chain_GetLastHeight w := (inl (w_height w), w);
  chain_GetAccount a w := (inl a, w);
  chain_GetFishmen w := (inl "sao1fish,12D3fish", w);
  chain_GetNodePeer a w := (inl ("peer of " +:+ a), w);
  chain_GetTx h _ w := if String.eqb h "tx" then (inl (MkResultTx h 0 [] []), w)
                       else (inr (EText "tx not found"), w);
  chain_GetOrder i w := match w_orders w !! i with
                        | Some o => if decide (is_u64 (fo_Id o)) then (inl o, w)
                                    else (inr (EText "bad order"), w)
                        | None => (inr (EText "order not found"), w)
                        end;
  chain_GetMeta d w := (inl (MkMetadata d "did:sid:1" "" "" 7 [] "" [] "" 0 [7] 0 0 "c0" [] []), w);
  chain_ListShards _ _ w := (inl (w_shards w, w_total w), w);
  chain_CompleteOrder _ _ _ _ w := (inl ("hash", 101), w);
  chain_MigrateOrder _ ids w := (("hash", list_to_map ((., "SUCCESS") <$> List.filter (free_of "/") ids), 101, None), w)
}.

#[export] Instance SampleDid : DidLib world := {
  DidManager := string;
  NewDidManagerWithDid d w := (inl d, w);
  QueryProposal_Marshal p := inl (string_bytes (qp_Keyword p));
  base64url_Encode b := bytes_string b;
  VerifyJWS _ _ s w := if String.eqb (jws_Signature s) "signed" then (inl tt, w)
                       else (inr (EText "bad signature"), w)
}.

#[export] Instance SampleProtocol : StorageProtocol world := {
  RequestShardComplete _ _ _ w := (MkShardCompleteResp 0 "" false, w);
  RequestShardStore _ req _ w :=
    (MkShardLoadResp (w_code w) "" (slr_OrderId req) (slr_Cid req) (w_served w) 0 0, w);
  RequestShardMigrate _ _ _ w := (MkShardMigrateResp 0 "" "tx" 101, w)
}.

#[export] Instance SampleClock : Clock world := {
  time_Now w := (wrap_i64 (w_now w), w)
}.

#[export] Instance SampleTyped : TypedWorld world.
Proof.
  split.
  - intros a o c n w h ht w' [= <- <- <-]. unfold is_i64, two63. lia.
  - intros w now w' [= <- <-]. apply wrap_i64_range.
Defined.

(** Numbers of orders have 64 bits. *)
#[export] Instance SampleMigration : MigrationWorld world.
Proof.
  split.
  - intros i w o w'. cbn. destruct (w_orders w !! i) as [o'|]; [|done]. case_decide; [|done]. by intros [= <- _].
  - intros a ids w h results ht err w' [= _ <- <- _ _]. split; [unfold is_i64, two63; lia|].
    intros d v Hd%elem_of_list_to_map_2. apply list_elem_of_fmap in Hd as (d' & [= -> ->] & Hd).
    by apply list_elem_of_In, List.filter_In in Hd as [_ Hd].
  - intros sp req peer w resp w' [= <- _]. cbn. unfold is_i64, two63. lia.
Qed.

(** ** A node with one order to serve *)
Module SampleNode.
Import Rfc8949 MemDs TextCid.

#[export] Instance SampleCidText : CidTextLaws.
Proof.
  split.
  - intros s c. cbn. destruct (valid_text s) eqn:E; [|done]. by intros [= <-].
  - intros s c. cbn. destruct (valid_text s) eqn:E; [|done]. by intros [= <-].
  - intros c [Hc| ->]; [|done]. cbn in *. unfold valid_text in Hc.
    by apply andb_prop in Hc as [[_ Hc]%andb_prop _].
Defined.

Definition shard_content : bytes := string_bytes "shard".
Definition shard_cid : string := "Qshard".
Definition node : string := "sao1node".
Definition manager : StoreManager nat := MkStoreManager [1%nat].

Definition chain_shard : Shard := MkShard 12 7 shard_cid "" ShardCompleted 90 1000 [] "sao1sp".
Definition chain_order : FullOrder :=
  MkFullOrder 7 "did:sid:1" "sao1gateway" 1 0 90 100 {[node := chain_shard]} "data" "".
Definition assign_req : ShardAssignReq :=
  MkShardAssignReq 7 "data" node "tx" 95 AssignTxTypeStore 900.

Definition serving (content : bytes) : world :=
  World 1700000000000000000 100 {[7 := chain_order]} [chain_shard] 1 ∅ content 0.

Definition fresh (w : world) : @svc (gmap string bytes) world := Svc w ∅ [] [] [].

Definition assigned : svc := (HandleShardAssign node assign_req (fresh (serving shard_content))).2.
Definition worked : svc := (start_step node manager assigned).2.
End SampleNode.
