(* ===== verification/StorageTheorems.v ===== *)
(** * Behaviour of the storage service

    Retries and outcomes of a task, the assignment, the access check of a load,
    migrations, the pending list, and the places where the service panics or
    never returns. *)
From stdpp Require Import base list gmap strings.
From Stdlib Require Import ZArith Lia Ascii.
From S2P Require Import Prelude Types StateUtils Cbor CborTypes Instances Persistence Queue.
From S2P Require Import StoreManager ChainApi Storage StorageSafety SampleWorld.

Section Tasks.
Context `{!CborLib, !CborLaws, !CidLib, !ErrorText} {D W B : Type}.
Context `{!Datastore D, !DatastoreLaws D, !StoreBackend W B, !ChainConsts, !ChainSvcApi W,
          !TxLib, !DidLib W, !StorageProtocol W, !Clock W, !GoRange}.
Context (nodeAddress : string) (storeManager : StoreManager B).
Abbreviation svc := (@svc D W).
Abbreviation proc := (@proc D W).
Implicit Types (s : svc) (p : proc) (t : ShardInfo).

(** ** What processing leaves alone *)
Definition ident t : Z * string * Cid * string * string * string * string :=
  (si_OrderId t, si_DataId t, si_Cid t, si_Owner t, si_Gateway t, si_OrderOperation t,
   si_ShardOperation t).
Definition ident_tries t := (ident t, si_Tries t).
Definition of_task {X} (f : ShardInfo -> X) p : X := f (p_task p).

Lemma in_svc_same {A X} (f : ShardInfo -> X) (m : GoM svc A) :
  steps (same (of_task f)) (in_svc m).
Proof. by apply steps_zoom. Qed.
Lemma set_task_same {X} (f : ShardInfo -> X) g :
  (forall t, f (g t) = f t) -> steps (same (of_task f)) (set_task (D:=D) (W:=W) g).
Proof. intros Hg. apply steps_modify. intros p. apply Hg. Qed.
Lemma get_task_same {X} (f : ShardInfo -> X) :
  steps (same (of_task f)) (get_task (D:=D) (W:=W)).
Proof. apply steps_gets. typeclasses eauto. Qed.
Hint Resolve in_svc_same get_task_same : go.
Hint Extern 3 (steps _ (set_task _)) => apply set_task_same; reflexivity : go.

Lemma save_task_same {X} (f : ShardInfo -> X) : steps (same (of_task f)) (save_task (D:=D) (W:=W)).
Proof. unfold save_task. go_steps. Qed.
Hint Resolve save_task_same : go.
Lemma updateShardError_same err : steps (same (of_task ident_tries)) (updateShardError (D:=D) (W:=W) err).
Proof. unfold updateShardError. go_steps. Qed.
Hint Resolve updateShardError_same : go.
Lemma store_phase_same sp peer :
  steps (same (of_task ident_tries)) (store_phase storeManager sp peer).
Proof. unfold store_phase, fetch_shard, check_renewed. cbv zeta. go_steps. Qed.
Lemma complete_phase_same : steps (same (of_task ident_tries)) (complete_phase nodeAddress).
Proof. unfold complete_phase. go_steps. Qed.
Lemma notify_phase_same sp peer : steps (same (of_task ident_tries)) (notify_phase sp peer).
Proof. unfold notify_phase. cbv zeta. go_steps. Qed.
Lemma guard_expired_same : steps (same (of_task ident_tries)) (guard_expired (D:=D) (W:=W)).
Proof. unfold guard_expired. go_steps. Qed.
Lemma guard_retries_same : steps (same (of_task ident_tries)) (guard_retries (D:=D) (W:=W)).
Proof. unfold guard_retries. go_steps. Qed.
Hint Resolve store_phase_same complete_phase_same notify_phase_same guard_expired_same
  guard_retries_same : go.

(** ** Outcomes *)
Definition settled t : Prop :=
  si_State t = ShardStateTerminate \/ ShardStateComplete <= si_State t.

(** What a run of [process] may end with, from a task with [tries] tries. *)
Definition outcome_ok (task : ShardInfo) (o : outcome unit) p : Prop :=
  match o with
  | Ret _ => ident (p_task p) = ident task /\ settled (p_task p)
  | Fail _ => ident (p_task p) = ident task /\
              si_Tries (p_task p) = si_Tries task + 1 /\ si_Tries (p_task p) < MAX_RETRIES
  | _ => True
  end.

Lemma ident_tries_inv t task n :
  ident_tries t = (ident task, n) -> ident t = ident task /\ si_Tries t = n.
Proof. intros E. exact (conj (f_equal fst E) (f_equal snd E)). Qed.

Lemma wp_get_task {A} (k : ShardInfo -> GoM proc A) p Q :
  wp (k (p_task p)) p Q -> wp (bind get_task k) p Q.
Proof. done. Qed.
Lemma wp_set_task {A} f (k : unit -> GoM proc A) p Q :
  wp (k tt) (Proc (p_svc p) (f (p_task p))) Q -> wp (bind (set_task f) k) p Q.
Proof. done. Qed.

(** A part of [process] after the guard on the retries: an error leaves the
    number of tries as the guard found it. *)
Lemma wp_after_guard {A} task (m : GoM proc A) (k : A -> GoM proc unit) p :
  ident_tries (p_task p) = (ident task, si_Tries task + 1) -> si_Tries task + 1 < MAX_RETRIES ->
  steps (same (of_task ident_tries)) m ->
  (forall a p', ident_tries (p_task p') = (ident task, si_Tries task + 1) ->
     wp (k a) p' (outcome_ok task)) ->
  wp (bind m k) p (outcome_ok task).
Proof.
  intros Hp Ht Hm Hk. apply wp_bind. apply (wp_steps _ _ _ _ Hm). intros o p' _ Hs.
  unfold same, of_task in Hs. rewrite Hp in Hs. pose proof (ident_tries_inv _ _ _ Hs) as [Hid Htr].
  destruct o as [a|e| |]; [by apply Hk|split_and!; [done|lia..]|done..].
Qed.

Lemma notify_phase_settles task sp peer p :
  ident_tries (p_task p) = (ident task, si_Tries task + 1) -> si_Tries task + 1 < MAX_RETRIES ->
  wp (notify_phase sp peer) p (outcome_ok task).
Proof.
  intros Hp Ht. unfold notify_phase. apply wp_get_task. cbv zeta.
  apply wp_after_guard; [done..|auto with go|]. intros resp p2 Hp2.
  apply wp_after_guard; [done..|go_steps|]. intros u p3 Hp3.
  apply wp_get_task. pose proof (ident_tries_inv _ _ _ Hp3) as [Hid Htr].
  destruct (Z.ltb_spec (si_State (p_task p3)) ShardStateComplete).
  - apply wp_set_task. eapply wp_steps; [apply (save_task_same (fun t => t))|]. intros o p4 _ Hs.
    unfold same, of_task in Hs. cbn in Hs. unfold outcome_ok. rewrite Hs.
    destruct o; [split; [done|right; cbn; lia]|split_and!; [done|cbn; lia..]|done..].
  - apply wp_ret. split; [done|]. by right.
Qed.

Lemma tail_outcome task sp p :
  ident_tries (p_task p) = (ident task, si_Tries task + 1) -> si_Tries task + 1 < MAX_RETRIES ->
  wp (store_phase storeManager sp.1 sp.2 ;; complete_phase nodeAddress ;; notify_phase sp.1 sp.2) p
    (outcome_ok task).
Proof.
  intros Hp Ht. apply wp_after_guard; [done..|auto with go|]. intros u p1 Hp1.
  apply wp_after_guard; [done..|auto with go|]. intros u' p2 Hp2. by apply notify_phase_settles.
Qed.

(** Saving the task only changes the datastore, and never fails. *)
Lemma save_task_run p :
  exists d', save_task p = (Ret tt, Proc (Svc (sv_w (p_svc p)) d' (sv_queue (p_svc p))
    (sv_migrate (p_svc p)) (sv_trace (p_svc p))) (p_task p)).
Proof.
  unfold save_task. unfold bind at 1, get_task, gets.
  rewrite safe_ignore_ret by (unfold in_svc, on_ds; auto with safe).
  unfold in_svc, on_ds, zoom. destruct (SaveShard (p_task p) (sv_ds (p_svc p))). cbn. eauto.
Qed.

Lemma updateShardError_run e p :
  exists d', updateShardError (Some e) p = (Ret tt, Proc (Svc (sv_w (p_svc p)) d'
    (sv_queue (p_svc p)) (sv_migrate (p_svc p)) (sv_trace (p_svc p)))
    (si_set_LastErr (Error e) (p_task p))).
Proof.
  unfold updateShardError. unfold bind at 1. cbn [deref ret]. unfold bind at 1.
  unfold set_task, modify. apply (save_task_run (Proc (p_svc p) (si_set_LastErr (Error e) (p_task p)))).
Qed.

(** The task after the counters of a new attempt were set. *)
Definition attempted (now : Z) (task : ShardInfo) : ShardInfo :=
  si_set_RetryAt (GetRetryAt now (si_Tries task + 1))
    (si_set_Tries (si_Tries task + 1) task).

(** The rest of [process], after the counters of the new attempt were set. *)
Definition process_rest (gateway : string) : GoM proc unit :=
  given_up <- guard_retries ;;
  if given_up then ret tt else
  given_up <- guard_expired ;;
  if given_up then ret tt else
  try sp <- in_svc (getStorageProtocolAndPeer nodeAddress gateway)
    catch err => (updateShardError (Some err) ;; fail err) ;;
  store_phase storeManager sp.1 sp.2 ;;
  complete_phase nodeAddress ;;
  notify_phase sp.1 sp.2.

Lemma process_unfold task s :
  si_State task <> ShardStateTerminate -> 0 <= si_Tries task < two64 - 1 ->
  process nodeAddress storeManager (Proc s task) =
    let '(now, w) := time_Now (sv_w s) in
    process_rest (si_Gateway task)
      (Proc (Svc w (sv_ds s) (sv_queue s) (sv_migrate s) (sv_trace s)) (attempted now task)).
Proof.
  intros Hst Htr. unfold process. unfold bind at 1, get_task, gets. cbn [p_task].
  rewrite (proj2 (Z.eqb_neq _ _) Hst). unfold bind at 1, set_task, modify. cbn [p_svc p_task].
  unfold bind at 1, in_svc at 1, on_w, zoom, invoke_total. cbn [p_svc p_task].
  destruct (time_Now (sv_w s)) as [now w]. unfold bind at 1. cbn [p_svc p_task].
  cbn [si_Tries si_set_Tries].
  rewrite wrap_u64_small by (unfold is_u64; unfold two64 in *; lia). reflexivity.
Qed.

Lemma guard_retries_run p :
  (MAX_RETRIES <= si_Tries (p_task p) /\
   exists d' e, guard_retries p = (Ret true, Proc (Svc (sv_w (p_svc p)) d' (sv_queue (p_svc p))
     (sv_migrate (p_svc p)) (sv_trace (p_svc p)))
     (si_set_LastErr e (si_set_State ShardStateTerminate (p_task p))))) \/
  (si_Tries (p_task p) < MAX_RETRIES /\ guard_retries p = (Ret false, p)).
Proof.
  destruct (Z.le_gt_cases MAX_RETRIES (si_Tries (p_task p))) as [Hge|Hlt]; [left|right];
    (split; [done|]); unfold guard_retries; unfold bind at 1, get_task, gets.
  - rewrite (proj2 (Z.leb_le _ _) Hge). unfold bind at 1, set_task, modify. unfold bind.
    edestruct updateShardError_run as [d' ->]. cbn. eauto.
  - by rewrite (proj2 (Z.leb_gt _ _) Hlt).
Qed.

Lemma guard_expired_outcome task p :
  ident_tries (p_task p) = (ident task, si_Tries task + 1) -> si_Tries task + 1 < MAX_RETRIES ->
  wp guard_expired p (fun o p' =>
    match o with
    | Ret true => ident (p_task p') = ident task /\ settled (p_task p')
    | Ret false => ident_tries (p_task p') = (ident task, si_Tries task + 1)
    | Fail e => outcome_ok task (Fail e) p'
    | _ => True
    end).
Proof.
  intros Hp Ht. pose proof (ident_tries_inv _ _ _ Hp) as [Hid Htr].
  unfold guard_expired. apply wp_get_task.
  destruct (0 <? si_ExpireHeight (p_task p)); [|by apply wp_ret].
  apply wp_bind. apply (wp_steps _ _ _ _ (in_svc_same ident_tries _)). intros o p' _ Hs.
  unfold same, of_task in Hs. rewrite Hp in Hs. pose proof (ident_tries_inv _ _ _ Hs) as [Hid' Htr'].
  destruct o as [h|e| |]; [|split_and!; [done|lia..]|done..].
  destruct (_ <? h); [|by apply wp_ret].
  apply wp_set_task. unfold wp, bind. edestruct updateShardError_run as [d' ->]. cbn.
  split; [done|by left].
Qed.

Lemma process_rest_outcome task now s :
  wp (process_rest (si_Gateway task)) (Proc s (attempted now task)) (outcome_ok task).
Proof.
  unfold process_rest. apply wp_bind. unfold wp at 1.
  destruct (guard_retries_run (Proc s (attempted now task))) as [(_ & d' & e & ->)|[Hlt ->]].
  { split; [done|by left]. }
  cbn [fst snd]. apply wp_bind. cbn in Hlt.
  eapply wp_mono; [by apply (guard_expired_outcome task)|].
  intros [[]|e| |] p' Ho; [by apply wp_ret| |done..].
  apply wp_or_else. apply (wp_steps _ _ _ _ (in_svc_same ident_tries _)). intros o p1 _ Hs.
  unfold same, of_task in Hs. rewrite Ho in Hs. destruct o as [sp|e| |]; [by apply tail_outcome| |done..].
  unfold wp, bind. edestruct updateShardError_run as [d' ->]. cbn.
  pose proof (ident_tries_inv _ _ _ Hs) as [Hid Htr]. split_and!; [done|lia..].
Qed.

(** C14: a task the worker takes from the queue keeps its order, data id, cid,
    owner and gateway; when it is not put back it is complete or given up; when
    it is put back its number of tries has grown by one and is below the limit of
    three, so a task is processed at most three times. *)
Theorem task_outcome task s r task' s' :
  0 <= si_Tries task < two64 - 1 ->
  run_process nodeAddress storeManager task s = (Ret (r, task'), s') ->
  ident task' = ident task /\
  match r with
  | None => settled task'
  | Some _ => si_Tries task' = si_Tries task + 1 /\ si_Tries task' < MAX_RETRIES
  end.
Proof.
  intros Htr. unfold run_process.
  assert (wp (process nodeAddress storeManager) (Proc s task) (outcome_ok task)) as Ho.
  { destruct (Z.eq_dec (si_State task) ShardStateTerminate) as [Et|Hne].
    - unfold wp, process, bind, get_task, gets. cbn [p_task]. rewrite Et. cbn. split; [done|by left].
    - unfold wp. rewrite process_unfold by done. destruct (time_Now (sv_w s)) as [now w].
      apply process_rest_outcome. }
  unfold wp in Ho. destruct (process nodeAddress storeManager (Proc s task)) as [[u|e| |] p];
    cbn in Ho; [| |done..]; intros [= <- <- <-]; done.
Qed.

(** At the third try the task is given up without asking anybody: the state
    of the task becomes Terminate, nothing is stored, completed or sent, the
    queue is unchanged and the worker does not put the task back. *)
Theorem task_given_up task s :
  si_State task <> ShardStateTerminate -> MAX_RETRIES <= si_Tries task + 1 < two64 ->
  exists task' s', run_process nodeAddress storeManager task s = (Ret (None, task'), s') /\
    si_State task' = ShardStateTerminate /\ sv_trace s' = sv_trace s /\
    sv_queue s' = sv_queue s /\ sv_w s' = (time_Now (sv_w s)).2.
Proof.
  intros Hst Htr. unfold run_process.
  rewrite process_unfold; [|done|unfold MAX_RETRIES, two64 in *; lia].
  destruct (time_Now (sv_w s)) as [now w]. unfold process_rest. unfold bind at 1.
  edestruct guard_retries_run as [(_ & d' & e & ->)|[Hlt _]]; [cbn; eauto 8|].
  cbn in Hlt. unfold MAX_RETRIES in *. lia.
Qed.

(** ** Contents that do not match *)

(** The request for the content of a task. *)
Definition load_request (t : ShardInfo) : ShardLoadReq :=
  MkShardLoadReq (si_Owner t) (si_DataId t) (si_OrderId t) (si_Cid t)
    MetadataProposalCbor_zero 0 RelayProposalCbor_zero.

(** [si_set_Tries] and [si_set_RetryAt] leave everything else alone. *)
Lemma guard_expired_false p p' :
  guard_expired p = (Ret false, p') -> p_task p' = p_task p.
Proof.
  unfold guard_expired. unfold bind at 1, get_task, gets.
  destruct (0 <? si_ExpireHeight (p_task p)); [|by intros [= <-]].
  unfold bind at 1. pose proof (in_svc_same (fun t => t)
    (on_w (invoke chain_GetLastHeight)) p) as Hs. unfold same, of_task in Hs.
  destruct (in_svc _ p) as [[h|e| |] p1]; cbn in Hs; [|done..].
  destruct (_ <? h); [|by intros [= <-]].
  unfold bind, set_task, modify. edestruct updateShardError_run as [d' ->]. done.
Qed.

(** When the gateway answers the request for a shard with a content whose
    identifier is not the one of the shard, the service calls the Error method of
    a nil error: the worker panics, and with it the node, whatever the gateway
    sent and before anything is recorded. *)
Theorem cid_mismatch_panics task s now w p1 sp p2 resp w2 :
  0 <= si_Tries task < MAX_RETRIES - 1 -> si_State task = ShardStateValidated ->
  (si_OrderOperation task <> "3" \/ si_ShardOperation task <> "3") ->
  time_Now (sv_w s) = (now, w) ->
  guard_expired (Proc (Svc w (sv_ds s) (sv_queue s) (sv_migrate s) (sv_trace s))
                   (attempted now task)) = (Ret false, p1) ->
  in_svc (getStorageProtocolAndPeer nodeAddress (si_Gateway task)) p1 = (Ret sp, p2) ->
  RequestShardStore sp.1 (load_request task) sp.2 (sv_w (p_svc p2)) = (resp, w2) ->
  slp_Code resp = 0 ->
  cid_String (computed (slp_Content resp)) <> cid_String (si_Cid task) ->
  (run_process nodeAddress storeManager task s).1 = Panic.
Proof.
  intros Htr Hst Hop Hnow Hexp Hsp Hresp Hcode Hne.
  assert (p_task p2 = attempted now task) as Hp2.
  { apply guard_expired_false in Hexp. cbn in Hexp. rewrite <-Hexp.
    pose proof (in_svc_same (fun t => t) (getStorageProtocolAndPeer nodeAddress (si_Gateway task)) p1)
      as Hs. rewrite Hsp in Hs. exact Hs. }
  unfold run_process. rewrite process_unfold;
    [|rewrite Hst; done|unfold MAX_RETRIES, two64 in *; lia].
  rewrite Hnow. unfold process_rest. unfold bind at 1.
  edestruct guard_retries_run as [[Hge _]|[_ ->]]; [cbn in Hge; unfold MAX_RETRIES in *; lia|].
  unfold bind at 1. rewrite Hexp. unfold or_else, bind at 1, attempt. rewrite Hsp.
  unfold bind at 1, store_phase. unfold bind at 1, get_task, gets.
  rewrite Hp2. cbn [si_State attempted si_set_RetryAt si_set_Tries]. rewrite Hst.
  change (ShardStateValidated <? ShardStateStored) with true. cbv iota.
  assert (negb (String.eqb (si_OrderOperation (attempted now task)) "3") ||
    negb (String.eqb (si_ShardOperation (attempted now task)) "3") = true) as ->.
  { apply orb_true_iff. destruct Hop as [Hop|Hop]; [left|right];
      by apply negb_true_iff, String.eqb_neq. }
  unfold bind at 1, fetch_shard. unfold bind at 1, get_task, gets. rewrite Hp2.
  change (MkShardLoadReq _ _ _ _ _ _ _) with (load_request task).
  unfold bind at 1, in_svc at 1, on_w, zoom, invoke_total. rewrite Hresp. cbn [p_svc p_task].
  rewrite Hcode. cbn [Z.eqb negb].
  change (match CalculateCid (slp_Content resp) with inl c => c | inr _ => Undef end)
    with (computed (slp_Content resp)).
  change (si_Cid (attempted now task)) with (si_Cid task).
  rewrite (proj2 (String.eqb_neq _ _) Hne). reflexivity.
Qed.

(** ** Listing the shards of the chain *)

(** The list of the shards on the chain is complete when it fits in one page
    of 50; when the chain reports more, the loop asks for the first page again
    and again and never returns. *)
Theorem GetAllShards_pages (I : W -> Prop) s :
  (forall l total w', chain_ListShards 0 limit (sv_w s) = (inl (l, total), w') -> 0 <= total <= limit ->
     forall fuel, (GetAllShards (S fuel) s).1 = Ret l) /\
  ((forall w, I w -> exists l total w', chain_ListShards 0 limit w = (inl (l, total), w') /\
      limit < total /\ I w') ->
   I (sv_w s) -> forall fuel, (GetAllShards fuel s).1 = OutOfFuel).
Proof.
  split.
  - intros l total w' Hl Ht fuel. unfold GetAllShards. cbn [get_all_shards].
    unfold bind, on_w, zoom, invoke. rewrite Hl. cbn [fst snd].
    change (wrap_u64 (0 + limit)) with limit. by rewrite (proj2 (Z.leb_le total limit)) by lia.
  - intros HI Hs fuel. unfold GetAllShards. generalize ([] : list Shard) as acc.
    revert s Hs. induction fuel as [|fuel IH]; intros s Hs acc; [done|].
    cbn [get_all_shards]. unfold bind, on_w, zoom, invoke.
    destruct (HI _ Hs) as (l & total & w' & -> & Ht & Hw'). cbn [fst snd].
    change (wrap_u64 (0 + limit)) with limit. rewrite (proj2 (Z.leb_gt total limit)) by lia.
    by apply IH.
Qed.

(** ** Assignments *)

(** What an accepted assignment puts into the queue: a shard of the order, whose
    expiry is at least the one of the request, new or found in the datastore. *)
Definition assigned_task (d : D) (req : ShardAssignReq) (order : FullOrder) t : Prop :=
  exists shard c, fo_Shards order !! nodeAddress = Some shard /\ cid_Decode (sh_Cid shard) = inl c /\
    sar_TimeoutHeight req <= si_ExpireHeight t /\
    (t = new_shard req order c \/
     exists t0, (GetShard (sar_OrderId req) c d).1 = Ret t0 /\ t0 <> ShardInfo_zero /\
       ident t = ident t0).

Lemma assign_one req order shard s :
  fo_Shards order !! nodeAddress = Some shard ->
  wp (assign_loop req order [sh_Cid shard]) s (fun o s' =>
    sv_trace s' = sv_trace s /\ sv_w s' = sv_w s /\
    match o with
    | Ret resp =>
        if decide (sap_Code resp = 0)
        then exists t, sv_queue s' = sv_queue s ++ [shard_request t] /\ assigned_task (sv_ds s) req order t
        else s' = s
    | _ => False
    end).
Proof.
  intros Hsh. cbn [assign_loop]. destruct (cid_Decode (sh_Cid shard)) as [c|] eqn:Ec.
  2: { apply wp_ret. split_and!; [done..|]. by rewrite decide_False. }
  apply wp_bind. pose proof (safe_GetShard (sar_OrderId req) c (sv_ds s)) as Hsafe.
  destruct (GetShard (sar_OrderId req) c (sv_ds s)) as [o d1] eqn:Eg.
  set (got := match o with Ret t0 => t0 | _ => ShardInfo_zero end).
  set (s1 := Svc (sv_w s) d1 (sv_queue s) (sv_migrate s) (sv_trace s)).
  cut (wp (shardInfo <- (if decide (ShardInfo_zero = got) then
             ignore (on_ds (SaveShard (new_shard req order c))) ;; ret (new_shard req order c)
           else ret got) ;;
         let shardInfo := if si_ExpireHeight shardInfo <? sar_TimeoutHeight req then
              si_set_Tries 0 (si_set_ExpireHeight (sar_TimeoutHeight req)
                (si_set_State ShardStateValidated shardInfo)) else shardInfo in
         on_queue (Push (shard_request shardInfo)) ;; assign_loop req order []) s1 (fun o' s' =>
    sv_trace s' = sv_trace s /\ sv_w s' = sv_w s /\
    match o' with
    | Ret resp =>
        if decide (sap_Code resp = 0)
        then exists t, sv_queue s' = sv_queue s ++ [shard_request t] /\ assigned_task (sv_ds s) req order t
        else s' = s
    | _ => False
    end)).
  { intros Hk. assert (exists r, attempt (on_ds (GetShard (sar_OrderId req) c)) s = (Ret r, s1) /\
      got = match r with inl t0 => t0 | inr _ => ShardInfo_zero end) as (r & Hr & Hgot).
    { unfold attempt, on_ds, zoom. rewrite Eg. destruct o; [by eexists..|destruct Hsafe|destruct Hsafe]. }
    unfold wp at 1. rewrite Hr. cbn [fst snd]. rewrite <- Hgot. exact Hk. }
  apply wp_bind. case_decide as Hz.
  - apply wp_bind. unfold wp at 1.
    rewrite safe_ignore_ret by (unfold on_ds; auto with safe).
    unfold on_ds, zoom. destruct (SaveShard _ _) as [o' d']. cbn.
    split_and!; [done..|]. eexists. split; [done|].
    exists shard, c. split_and!; [done..| |].
    + destruct (Z.ltb_spec (sar_TimeoutHeight req) (sar_TimeoutHeight req)); [lia|]. cbn. lia.
    + left. by rewrite Z.ltb_irrefl.
  - apply wp_ret. cbn. split_and!; [done..|].
    eexists. split; [done|]. exists shard, c. split_and!; [done..| |].
    + destruct (Z.ltb_spec (si_ExpireHeight got) (sar_TimeoutHeight req)); cbn; lia.
    + right. exists got. split_and!.
      * rewrite Eg. subst got. destruct o; done.
      * done.
      * by destruct (_ <? _).
Qed.

(** An assignment is accepted (code 0) only for this node and an order on
    the chain that has a shard for it; it then puts exactly one task into the
    queue, for that shard, with an expiry not before the one of the request. A
    refused assignment changes neither the queue nor the datastore. Nothing is
    stored, completed or sent. *)
Theorem assign_outcome `{!GoRangeLaws} req s :
  wp (HandleShardAssign nodeAddress req) s (fun o s' =>
    sv_trace s' = sv_trace s /\
    match o with
    | Ret resp =>
        if decide (sap_Code resp = 0)
        then sar_Assignee req = nodeAddress /\
             exists t order, (chain_GetOrder (sar_OrderId req)
                 (chain_GetTx (sar_TxHash req) (sar_Height req) (sv_w s)).2).1 = inl order /\
               sv_queue s' = sv_queue s ++ [shard_request t] /\ assigned_task (sv_ds s) req order t
        else sv_queue s' = sv_queue s /\ sv_ds s' = sv_ds s
    | Fail _ => False
    | Panic => exists tx w, chain_GetTx (sar_TxHash req) (sar_Height req) (sv_w s) = (inl tx, w) /\
        (Tx_Unmarshal (rt_Tx tx) = inl None \/ Tx_Unmarshal (rt_Tx tx) = inl (Some []))
    | OutOfFuel => False
    end).
Proof.
  unfold HandleShardAssign. cbv zeta.
  destruct (String.eqb_spec (sar_Assignee req) nodeAddress) as [Ha|Ha]; cbn [negb].
  2: { apply wp_ret. by rewrite decide_False. }
  apply wp_or_else. apply wp_invoke. intros [tx|e] w1 Et; cbn [reply].
  2: { apply wp_ret. by rewrite decide_False. }
  destruct (rt_Code tx =? 0); [|by apply wp_ret; rewrite decide_False].
  destruct (Tx_Unmarshal (rt_Tx tx)) as [[[|msg msgs]|]|] eqn:Eb; cbn [deref head].
  - unfold wp, bind. cbn. eauto 6.
  - apply wp_bind, wp_ret, wp_bind, wp_ret.
    destruct (if String.eqb _ _ then _ else _); [|by apply wp_ret; rewrite decide_False].
    apply wp_or_else. apply wp_invoke. intros [order|e] w2 Eo; cbn [reply].
    2: { apply wp_ret. by rewrite decide_False. }
    rewrite filter_range. destruct (fo_Shards order !! nodeAddress) as [shard|] eqn:Es; cbn.
    2: { apply wp_ret. by rewrite decide_False. }
    eapply wp_mono; [by apply assign_one|]. intros o s' (Htr & Hw & Ho).
    split; [done|]. destruct o as [resp|e| |]; [|done..].
    case_decide; [|by subst s']. destruct Ho as (t & Hq & Ht). split; [done|].
    exists t, order. rewrite Et. cbn [snd]. by cbn in Eo; rewrite Eo.
  - unfold wp, bind. cbn. eauto 6.
  - apply wp_ret. by rewrite decide_False.
Qed.

(** ** Serving a shard *)
Definition unchanged s s' : Prop :=
  sv_ds s' = sv_ds s /\ sv_queue s' = sv_queue s /\ sv_migrate s' = sv_migrate s /\
  sv_trace s' = sv_trace s.

(** The outcomes of a handler that only reads: a result with [P], or the panic of
    a signature check for an account without a public key. *)
Definition served {A} (P : A -> W -> Prop) s (o : outcome A) s' : Prop :=
  unchanged s s' /\
  match o with
  | Ret a => P a (sv_w s')
  | Panic => exists account buf sig, VerifySignature account buf sig = None
  | _ => False
  end.

Lemma served_invoke {A R} (c : call W A) (k : A -> GoM svc R) h s0 s (P : R -> W -> Prop) :
  unchanged s0 s ->
  (forall a w', c (sv_w s) = (inl a, w') -> wp (k a) (with_w s w') (served P s0)) ->
  (forall e w', wp (h e) (with_w s w') (served P s0)) ->
  wp (or_else (on_w (invoke c)) h k) s (served P s0).
Proof. intros Hs Hk Hh. apply wp_or_else, wp_invoke. intros [a|e] w' Hc; cbn [reply]; auto. Qed.

Lemma served_ret {A} (P : A -> W -> Prop) a s0 s :
  unchanged s0 s -> P a (sv_w s) -> wp (ret a) s (served P s0).
Proof. intros Hs Ha. by apply wp_ret. Qed.

Lemma check_relay_served account prop sig (k : option error -> GoM svc (option string)) s0 s P :
  unchanged s0 s -> (forall r, wp (k r) s (served P s0)) ->
  wp (bind (check_relay_signature account prop sig) k) s (served P s0).
Proof.
  intros Hs Hk. apply wp_bind. unfold check_relay_signature.
  destruct (RelayProposal_MarshalCBOR prop); [|by apply wp_ret, Hk].
  destruct (VerifySignature account _ sig) as [|] eqn:Ev; [by apply wp_ret, Hk|].
  split; [done|]. eauto.
Qed.

(** Who may read a shard through a relay: the node of the proposal and the peer
    are both among the fishmen the chain lists in the world [w] of the request.
    [w'] is the world once the check is over. *)
Definition fishmen_allowed (req : ShardLoadReq) (peer : string) (w w' : W) : Prop :=
  let relay := rpc_Proposal (slr_RelayProposal req) in
  rpc_Signature (slr_RelayProposal req) <> [] /\
  exists fishmen w1 account, chain_GetFishmen w = (inl fishmen, w1) /\
    Contains fishmen (rp_NodeAddress relay) = true /\ Contains fishmen peer = true /\
    chain_GetAccount (rp_NodeAddress relay) w1 = (inl account, w').

(** A query of a client: signed by the owner it names, ... *)
Definition owner_signed (req : ShardLoadReq) (w w' : W) : Prop :=
  let prop := mp_Proposal (slr_Proposal req) in
  exists did w1 payload,
    NewDidManagerWithDid (qp_Owner prop) w = (inl did, w1) /\
    QueryProposal_Marshal (MkQueryProposal (qp_Owner prop) (qp_Keyword prop) (qp_GroupId prop)
      (wrap_u32 (qp_KeywordType prop)) (qp_LastValidHeight prop) (qp_Gateway prop)
      (qp_CommitId prop) (qp_Version prop)) = inl payload /\
    VerifyJWS did (base64url_Encode payload) (mp_JwsSignature (slr_Proposal req)) w1
      = (inl tt, w').

(** ... sent by the gateway it names or by one of its relays, ... *)
Definition named_sender (req : ShardLoadReq) (peer : string) (w w' : W) : Prop :=
  let relay := rpc_Proposal (slr_RelayProposal req) in
  (Contains (qp_Gateway (mp_Proposal (slr_Proposal req))) peer = true /\ w' = w) \/
  (rpc_Signature (slr_RelayProposal req) <> [] /\ Contains (rp_RelayPeerIds relay) peer = true /\
   exists account, chain_GetAccount (rp_NodeAddress relay) w = (inl account, w')).

(** ... and not outdated at the height of the chain. *)
Definition client_allowed (req : ShardLoadReq) (peer : string) (w w' : W) : Prop :=
  exists w1 w2 height, owner_signed req w w1 /\ named_sender req peer w1 w2 /\
    chain_GetLastHeight w2 = (inl height, w') /\
    wrap_u64 height <= qp_LastValidHeight (mp_Proposal (slr_Proposal req)).

Lemma signed_nonempty (sig : bytes) : (0 <? Z.of_nat (length sig)) = true -> sig <> [].
Proof. by intros Hl ->. Qed.

Lemma check_fishmen_served req peer s :
  wp (check_fishmen req peer) s
    (served (fun r w => r = None -> fishmen_allowed req peer (sv_w s) w) s).
Proof.
  unfold check_fishmen. cbv zeta. apply served_invoke; [done| |by intros; apply served_ret].
  intros fishmen w1 Hf.
  destruct (0 <? _) eqn:El; cbn [andb]; [|by apply served_ret].
  destruct (Contains fishmen (rp_NodeAddress _)) eqn:E1; cbn [andb]; [|by apply served_ret].
  destruct (Contains fishmen peer) eqn:E2; [|by apply served_ret].
  apply served_invoke; [done| |by intros; apply served_ret].
  intros account w2 Ha. apply check_relay_served; [done|]. intros r. apply served_ret; [done|].
  intros _. split; [by apply signed_nonempty|]. by exists fishmen, w1, account.
Qed.

Lemma check_client_served req peer s :
  wp (check_client req peer) s
    (served (fun r w => r = None -> client_allowed req peer (sv_w s) w) s).
Proof.
  unfold check_client. cbv zeta. apply served_invoke; [done| |by intros; apply served_ret].
  intros did w1 Hdid. destruct (QueryProposal_Marshal _) as [payload|e] eqn:Ep;
    [|by apply served_ret].
  apply served_invoke; [done| |by intros; apply served_ret].
  intros [] w2 Hjws. assert (owner_signed req (sv_w s) w2) as Hsigned by by exists did, w1, payload.
  apply wp_bind.
  match goal with |- wp ?m ?st _ =>
    eapply (wp_mono m st (served (fun r w => r = None -> named_sender req peer w2 w) s)) end.
  - destruct (Contains (qp_Gateway _) peer) eqn:Eg; cbn [negb]; [apply served_ret; [done|]; intros _; by left|].
    destruct (0 <? _) eqn:El; cbn [andb]; [|by apply served_ret].
    destruct (Contains (rp_RelayPeerIds _) peer) eqn:Er; [|by apply served_ret].
    apply served_invoke; [done| |by intros; apply served_ret].
    intros account w3 Ha. apply check_relay_served; [done|]. intros r. apply served_ret; [done|].
    intros _. right. split_and!; [by apply signed_nonempty|done|by exists account].
  - intros [[msg|]|e| |] s' [Hs' Ho]; [by apply served_ret| |done..].
    apply served_invoke; [done| |by intros; apply served_ret]. intros height w3 Hh.
    destruct (Z.ltb_spec (qp_LastValidHeight (mp_Proposal (slr_Proposal req))) (wrap_u64 height));
      apply served_ret; [done..|]. intros _. exists w2, (sv_w s'), height. split_and!; auto.
Qed.

Lemma respond_served {A R} (c : total_call W A) (f : A -> R) s0 s (P : R -> W -> Prop) :
  unchanged s0 s -> (forall a w, P (f a) w) ->
  wp (now <- on_w (invoke_total c) ;; ret (f now)) s (served P s0).
Proof. intros Hs Hf. apply wp_bind, wp_invoke_total. intros a w' _. by apply served_ret. Qed.

(** The two kinds of reader. *)
Definition reader_allowed (req : ShardLoadReq) (peer : string) (w w' : W) : Prop :=
  (slr_Owner req = qp_Gateway (mp_Proposal (slr_Proposal req)) /\ fishmen_allowed req peer w w') \/
  client_allowed req peer w w'.

(** C15: a request for a shard always gets a response, when the backends and the
    accounts' keys are there, and the service is unchanged. Content is only given
    out, with code 0, as the backends hold it under the cid of the request when the
    check is over, and only to a client query that its owner signed, that is not
    outdated at the height the chain reports and that comes from the gateway it names
    or one of its relays, or to a query among the fishmen the chain lists. *)
Theorem load_authorized (Hsafe : forall b c, safe (back_Get (W:=W) b c)) req peer s :
  wp (HandleShardLoad storeManager req peer) s
    (served (fun resp _ => slp_Code resp = 0 ->
       exists w, reader_allowed req peer (sv_w s) w /\
         (sm_Get storeManager (slr_Cid req) w).1 = Ret (inl (slp_Content resp))) s).
Proof.
  unfold HandleShardLoad. cbv zeta. apply wp_bind.
  match goal with |- wp ?m ?st _ => eapply (wp_mono m st (served (fun r w => r = None ->
    reader_allowed req peer (sv_w s) w) s)) end.
  - unfold reader_allowed.
    destruct (String.eqb_spec (slr_Owner req) (qp_Gateway (mp_Proposal (slr_Proposal req))));
      cbn [andb]; [destruct (String.eqb _ _)|].
    1: eapply wp_mono; [apply check_fishmen_served|].
    2, 3: eapply wp_mono; [apply check_client_served|].
    all: intros [[]| | |] s' [Hs' Ho]; split; auto.
  - intros [[msg|]|e| |] s' [Hs' Ho]; [by apply respond_served| |done..].
    apply wp_or_else. unfold wp at 1, on_w, zoom.
    pose proof (get_loop_safe (sm_backends storeManager) (slr_Cid req) (fun b => Hsafe b _) (sv_w s'))
      as Hg.
    unfold sm_Get in *. destruct (get_loop _ _ (sv_w s')) as [o w'] eqn:Eg.
    destruct o as [[content|e]|e| |]; cbn [fst snd]; [..|destruct Hg|destruct Hg].
    2, 3: by apply (respond_served time_Now).
    apply (respond_served time_Now); [done|]. intros now w _. exists (sv_w s').
    split; [by apply Ho|]. by rewrite Eg.
Qed.

(** The request with another signature of the relay. *)
Definition resign (req : ShardLoadReq) (sig : bytes) : ShardLoadReq :=
  MkShardLoadReq (slr_Owner req) (slr_DataId req) (slr_OrderId req) (slr_Cid req)
    (slr_Proposal req) (slr_RequestId req)
    (MkRelayProposalCbor (rpc_Proposal (slr_RelayProposal req)) sig).

Lemma signed_resign req sig :
  sig <> [] -> (0 <? Z.of_nat (length (rpc_Signature (slr_RelayProposal (resign req sig))))) = true.
Proof. destruct sig; [done|]. intros _. apply Z.ltb_lt. cbn. lia. Qed.

Section Unchecked.
Context (Hkeys : forall account buf sig, is_Some (VerifySignature account buf sig)).
Context (req : ShardLoadReq) (sig1 sig2 : bytes) (Hsig1 : sig1 <> []) (Hsig2 : sig2 <> []).

Lemma relay_resign account prop (k : option error -> GoM svc (option string)) s :
  bind (check_relay_signature account prop sig1) k s =
  bind (check_relay_signature account prop sig2) k s.
Proof.
  unfold check_relay_signature, bind. destruct (RelayProposal_MarshalCBOR prop) as [buf|]; [|done].
  by destruct (Hkeys account buf sig1) as [? ->], (Hkeys account buf sig2) as [? ->].
Qed.

Lemma check_fishmen_resign peer s :
  check_fishmen (resign req sig1) peer s = check_fishmen (resign req sig2) peer s.
Proof.
  unfold check_fishmen. rewrite !signed_resign by done. cbn [andb].
  apply or_else_ext; [done|]. intros fishmen s1. cbn [slr_RelayProposal resign rpc_Proposal].
  destruct (_ && _); [|done]. apply or_else_ext; [done|]. intros account s2. apply relay_resign.
Qed.

Lemma check_client_resign peer s :
  check_client (resign req sig1) peer s = check_client (resign req sig2) peer s.
Proof.
  unfold check_client. rewrite !signed_resign by done. cbn [andb].
  apply or_else_ext; [done|]. intros did s1.
  cbn [slr_RelayProposal slr_Proposal resign rpc_Proposal].
  destruct (QueryProposal_Marshal _) as [payload|]; [|done].
  apply or_else_ext; [done|]. intros _u s2.
  destruct (Contains (qp_Gateway _) peer); cbn [negb]; [done|].
  destruct (Contains (rp_RelayPeerIds _) peer); [|done].
  apply bind_cong; [|done]. apply or_else_ext; [done|]. intros account s3. apply relay_resign.
Qed.
End Unchecked.

(** The relay signature of a request is not checked: any two non-empty
    signatures give the same response, for an account with a public key. *)
Theorem relay_signature_unchecked
    (Hkeys : forall account buf sig, is_Some (VerifySignature account buf sig))
    req sig1 sig2 peer s :
  sig1 <> [] -> sig2 <> [] ->
  HandleShardLoad storeManager (resign req sig1) peer s =
  HandleShardLoad storeManager (resign req sig2) peer s.
Proof.
  intros Hsig1 Hsig2. unfold HandleShardLoad. cbv zeta. apply bind_cong; [|done].
  cbn [slr_Owner slr_Proposal resign]. destruct (_ && _).
  - by apply check_fishmen_resign.
  - by apply check_client_resign.
Qed.

(** ** Receiving a migrated shard *)
(** A refusal before anything was done. *)
Ltac refused := by apply wp_ret; rewrite decide_False; [split_and!; auto|].

(** A migrated shard is accepted (code 0) only when the order on the chain
    has it for this node, from the sender, with the cid and in the state of a
    migration; it is then stored and completed, in this order. The content is
    whatever the request carries: nothing compares it with the cid. A refused
    migration changes nothing, or has stored the content and failed to complete.
    A failing look-up of the order is a panic. *)
Theorem migrate_outcome (Hsafe : forall b r, safe (back_Store (W:=W) b r)) req s :
  wp (HandleShardMigrate nodeAddress storeManager req) s (fun o s' =>
    sv_queue s' = sv_queue s /\ sv_ds s' = sv_ds s /\
    match o with
    | Ret resp =>
        if decide (smp_Code resp = 0)
        then exists order c, (chain_GetOrder (smr_OrderId req)
            (chain_GetTx (smr_TxHash req) (smr_TxHeight req) (sv_w s)).2).1 = inl order /\
          migrating nodeAddress req order c /\
          sv_trace s' = sv_trace s ++ [EvStore c (smr_Content req) true;
                                       EvComplete (fo_Id order) c (migrate_size req) true]
        else sv_trace s' = sv_trace s \/
          (exists c, sv_trace s' = sv_trace s ++ [EvStore c (smr_Content req) false]) \/
          (exists n c, sv_trace s' = sv_trace s ++ [EvStore c (smr_Content req) true;
                                                   EvComplete n c (migrate_size req) false])
    | Panic => (exists tx w, chain_GetTx (smr_TxHash req) (smr_TxHeight req) (sv_w s) = (inl tx, w) /\
                  TxMsgData_Unmarshal (rt_Data tx) = inl []) \/
               exists e, (chain_GetOrder (smr_OrderId req)
                 (chain_GetTx (smr_TxHash req) (smr_TxHeight req) (sv_w s)).2).1 = inr e
    | _ => False
    end).
Proof.
  unfold HandleShardMigrate. cbv zeta.
  apply wp_or_else, wp_invoke. intros [tx|e] w1 Et; cbn [reply]; [|refused].
  destruct (rt_Code tx =? 0); cbn [negb]; [|refused].
  destruct (TxMsgData_Unmarshal (rt_Data tx)) as [[|value l]|e] eqn:Ed; cbn [head]; [|..|refused].
  { unfold wp, bind. cbn. eauto 8. }
  apply wp_bind, wp_ret. destruct (MsgMigrateResponse_Unmarshal value) as [result|e]; [|refused].
  destruct (String.eqb _ ""); [refused|].
  destruct (HasPrefix _ _); cbn [negb]; [|refused].
  apply wp_or_else, wp_invoke. intros [order|e] w2 Eo; cbn [reply].
  2: { unfold wp. cbn. rewrite Et. cbn [snd]. cbn in Eo. rewrite Eo. eauto 9. }
  destruct (fo_Shards order !! nodeAddress) as [shard|] eqn:Es; [|refused].
  destruct (String.eqb_spec (sh_From shard) (smr_MigrateFrom req)) as [Hfrom|]; cbn [negb]; [|refused].
  destruct (String.eqb_spec (sh_Cid shard) (smr_Cid req)) as [Hcid|]; cbn [negb]; [|refused].
  destruct (Z.eqb_spec (sh_Status shard) ShardMigrating) as [Hst|]; cbn [negb]; [|refused].
  destruct (cid_Decode (sh_Cid shard)) as [c|e] eqn:Ec; [|refused].
  apply wp_or_else, wp_traced.
  { apply safe_bind; [by apply store_loop_safe|]. intros []; [apply safe_fail|apply safe_ret]. }
  intros [[]|e] w3; cbn [reply is_inl].
  2: { apply wp_ret. rewrite decide_False by done. split_and!; [done..|]. right. left. by exists c. }
  apply wp_or_else, wp_traced; [apply safe_invoke|].
  intros [[hash height]|e] w4; cbn [reply is_inl sv_ds sv_queue sv_migrate sv_trace with_w];
    apply wp_ret; rewrite <- !app_assoc.
  - rewrite decide_True by done. split_and!; [done..|]. exists order, c. rewrite Et. cbn in Eo |- *.
    rewrite Eo. split_and!; [done| |done]. exists shard. by rewrite <- Hcid.
  - rewrite decide_False by done. split_and!; [done..|]. right. right. by exists (fo_Id order), c.
Qed.

(** ** The tasks of a restarted node *)
Section Restart.
Context `{!CidLaws}.
Implicit Types a : db.

Definition with_ds s (d : D) : svc := Svc (sv_w s) d (sv_queue s) (sv_migrate s) (sv_trace s).
(** The shards in the order of the index. *)
Definition records a (keys : list ShardKey) : list ShardInfo :=
  (fun k => default ShardInfo_zero (db_shards a !! k)) <$> keys.

Lemma collect_records a keep keys s :
  reliable (sv_ds s) -> db_repr (contents (sv_ds s)) a -> Forall good_shard keys ->
  exists d', collect get_by_key keep keys s =
      (Ret (List.filter keep (records a keys)), with_ds s d') /\
    contents d' = contents (sv_ds s) /\ reliable d'.
Proof.
  intros Hrel Hrepr Hgood. revert s Hrel Hrepr.
  induction Hgood as [|[n c] keys Hk _ IH]; intros s Hrel Hrepr; cbn [collect].
  { exists (sv_ds s). by destruct s. }
  destruct Hrepr as (Ho & Hs & Hm & He).
  destruct (get_reads shard_table good_shard (sv_ds s) _ _ _ Hrel Hs Hk) as (d1 & Hget & Hc1 & Hr1).
  destruct (IH (with_ds s d1) Hr1) as (d2 & Hcol & Hc2 & Hr2).
  { cbn. rewrite Hc1. by split_and!. }
  exists d2. split_and!; [|by rewrite Hc2, <- Hc1|done].
  assert (get_by_key (MkShardKey n c) s =
    (Ret (default ShardInfo_zero (db_shards a !! MkShardKey n c)), with_ds s d1)) as Hby.
  { unfold get_by_key, on_ds, zoom. cbn [sk_OrderId sk_Cid].
    by rewrite (Hget : GetShard n c (sv_ds s) = _). }
  unfold bind. rewrite Hby, Hcol. cbn [records fmap list_fmap List.filter].
  by destruct (keep _).
Qed.

Lemma getShardKeyList_records a s :
  reliable (sv_ds s) -> db_repr (contents (sv_ds s)) a ->
  exists d', getShardKeyList s = (Ret (db_shard_idx a), with_ds s d') /\
    contents d' = contents (sv_ds s) /\ reliable d'.
Proof.
  intros Hrel (_ & Hs & _).
  destruct (get_index_reads shard_table good_shard (sv_ds s) _ _ Hrel Hs) as (d1 & Hget & Hc1 & Hr1).
  exists d1. split_and!; [|done..]. unfold getShardKeyList, bind, on_ds, zoom.
  by rewrite (Hget : GetShardIndex (sv_ds s) = _).
Qed.

Lemma listed_records a keep s :
  reliable (sv_ds s) -> db_repr (contents (sv_ds s)) a -> Forall good_shard (db_shard_idx a) ->
  exists d', bind getShardKeyList (collect get_by_key keep) s =
      (Ret (List.filter keep (records a (db_shard_idx a))), with_ds s d') /\
    contents d' = contents (sv_ds s) /\ reliable d'.
Proof.
  intros Hrel Hrepr Hgood.
  destruct (getShardKeyList_records a s Hrel Hrepr) as (d1 & Hkeys & Hc1 & Hr1).
  destruct (collect_records a keep (db_shard_idx a) (with_ds s d1) Hr1) as (d2 & Hcol & Hc2 & Hr2).
  { cbn. by rewrite Hc1. } { done. }
  exists d2. split_and!; [|by rewrite Hc2|done]. unfold bind. by rewrite Hkeys, Hcol.
Qed.

Lemma push_all (l : list ShardInfo) s :
  for_each l (fun x => on_queue (Push (shard_request x))) s =
    (Ret tt, Svc (sv_w s) (sv_ds s) (sv_queue s ++ (shard_request <$> l)) (sv_migrate s) (sv_trace s)).
Proof.
  revert s. induction l as [|t l IH]; intros s.
  - cbn. rewrite app_nil_r. by destruct s.
  - cbn [for_each]. unfold bind at 1. cbn. rewrite IH. cbn. by rewrite <- app_assoc.
Qed.

Definition pending t : bool := pending_state (si_State t).

(** A restarted node queues again, in the order of the shard index and
    behind what the queue has, exactly the stored shards that are neither
    complete nor terminated nor expired; the list shown to the user has all the
    stored shards. Nothing in the datastore changes. *)
Theorem restart_recovers a s :
  reliable (sv_ds s) -> db_repr (contents (sv_ds s)) a -> db_inv a ->
  Forall good_shard (db_shard_idx a) ->
  (exists d', processIncompleteShards s =
      (Ret tt, Svc (sv_w s) d'
        (sv_queue s ++ (shard_request <$> List.filter pending (records a (db_shard_idx a))))
        (sv_migrate s) (sv_trace s)) /\ contents d' = contents (sv_ds s)) /\
  (exists d', ShardList s = (Ret (records a (db_shard_idx a)), with_ds s d') /\
     contents d' = contents (sv_ds s)) /\
  (forall t, t ∈ records a (db_shard_idx a) <-> exists k, db_shards a !! k = Some t).
Proof.
  intros Hrel Hrepr Hinv Hgood. split_and!.
  - destruct (listed_records a pending s Hrel Hrepr Hgood) as (d1 & Hl & Hc1 & _).
    exists d1. split; [|done]. unfold processIncompleteShards, bind at 1, attempt.
    change (getPendingShardList s) with (bind getShardKeyList (collect get_by_key pending) s).
    rewrite Hl. apply push_all.
  - destruct (listed_records a (fun _ => true) s Hrel Hrepr Hgood) as (d1 & Hl & Hc1 & _).
    exists d1. split; [|done]. change (ShardList s) with (bind getShardKeyList (collect get_by_key (fun _ => true)) s).
    rewrite Hl. by rewrite filter_true.
  - intros t. destruct Hinv as (_ & Hcons & _). unfold records.
    rewrite list_elem_of_fmap. split.
    + intros (k & -> & [r Hk]%Hcons). exists k. by rewrite Hk.
    + intros [k Hk]. exists k. rewrite Hk. split; [done|]. apply Hcons. eauto.
Qed.
End Restart.

(** ** Expiration *)
Section Expiration.
Context (myShards : list Shard).

(** A removal of the content of a shard that the chain does not list. *)
Definition unlisted_removal (e : event) : Prop :=
  exists text c ok, e = EvRemove c ok /\ cid_Parse text = inl c /\ text ∉ sh_Cid <$> myShards.

Definition drops s s' : Prop :=
  sv_queue s' = sv_queue s /\
  exists evs, sv_trace s' = sv_trace s ++ evs /\ Forall unlisted_removal evs.

#[global] Instance drops_preorder : PreOrder drops.
Proof.
  split.
  - intros s. split; [done|]. exists []. by rewrite app_nil_r.
  - intros s1 s2 s3 [Hq1 (l1 & Ht1 & Hl1)] [Hq2 (l2 & Ht2 & Hl2)]. split; [congruence|].
    exists (l1 ++ l2). rewrite Ht2, Ht1, app_assoc. split; [done|]. by apply Forall_app.
Qed.

Lemma drops_same {A} (m : GoM svc A) :
  steps (same (sv_trace : svc -> _)) m -> steps (same (sv_queue : svc -> _)) m -> steps drops m.
Proof.
  intros Ht Hq s. specialize (Ht s). specialize (Hq s). unfold same in *.
  split; [done|]. exists []. by rewrite app_nil_r.
Qed.
Lemma on_ds_drops {A} (m : GoM D A) : steps drops (on_ds m).
Proof. apply drops_same; by apply steps_zoom. Qed.
Lemma on_w_drops {A} (m : GoM W A) : steps drops (on_w m).
Proof. apply drops_same; by apply steps_zoom. Qed.
Hint Resolve on_ds_drops on_w_drops : go.

Lemma call_Remove_drops text c :
  cid_Parse text = inl c -> text ∉ sh_Cid <$> myShards ->
  steps drops (call_Remove (D:=D) storeManager c).
Proof.
  intros Hp Hn s. unfold call_Remove, traced. unfold bind at 1, attempt, on_w, zoom.
  destruct (sm_Remove storeManager c (sv_w s)) as [[a|e| |] w']; cbn;
    try (split; [done|]; exists []; by rewrite app_nil_r).
  all: split; [done|]; eexists; split; [done|]; constructor; [|done]; exists text, c; by eexists.
Qed.

Lemma expire_shard_drops k : steps drops (expire_shard storeManager myShards k).
Proof.
  unfold expire_shard. case_decide; [go_steps|]. apply steps_or_else; [typeclasses eauto|go_steps..|].
  intros info. apply steps_bind; [typeclasses eauto| |intros removed; go_steps].
  case_decide as Hin; [go_steps|]. destruct (cid_Parse (se_Cid info)) as [c|] eqn:Ec; [|go_steps].
  apply steps_bind; [typeclasses eauto| |go_steps]. apply steps_attempt.
  eapply call_Remove_drops; [done|]. unfold cid_list in Hin. by rewrite elem_of_list_to_set in Hin.
Qed.
End Expiration.

(** A tick of the expiration timer, on a chain whose list of shards fits in a
    page, deletes contents of the backends only under cids that no listed shard
    of this node has, whatever the expiration records say. *)
Theorem expire_removes_unlisted l total w' fuel s :
  chain_ListShards 0 limit (sv_w s) = (inl (l, total), w') -> 0 <= total <= limit ->
  drops l s (processExpire storeManager (S fuel) s).2.
Proof.
  intros Hl Ht. unfold processExpire. erewrite (or_else_run _ _ _ s l (with_w s w')).
  2: { unfold GetAllShards. cbn [get_all_shards]. unfold bind, on_w, zoom, invoke. rewrite Hl.
    cbn [fst snd]. change (wrap_u64 (0 + limit)) with limit.
    by rewrite (proj2 (Z.leb_le total limit)) by lia. }
  transitivity (with_w s w'); [split; [done|]; exists []; by rewrite app_nil_r|].
  apply steps_or_else; [typeclasses eauto|apply on_ds_drops|intros e; go_steps|].
  intros index. apply steps_for_each; [typeclasses eauto|]. intros k _. apply expire_shard_drops.
Qed.
End Tasks.

(** ** The theorems on a small world *)
Module StorageSample.
Import Rfc8949 MemDs TextCid SampleNode.

Definition the_task : ShardInfo := new_shard assign_req chain_order (MkCid shard_cid).
Definition idle : svc := fresh (serving shard_content).

Lemma task_outcome_witness :
  exists task', (run_process node manager the_task idle).1 = Ret (None, task') /\
    ident task' = ident the_task /\ settled task'.
Proof.
  assert (exists task', (run_process node manager the_task idle).1 = Ret (None, task'))
    as [task' E] by (eexists; vm_compute; reflexivity).
  exists task'. split; [exact E|].
  refine (task_outcome node manager the_task idle None task'
    (run_process node manager the_task idle).2 _ _); [cbn; unfold two64; lia|].
  rewrite <- E. apply surjective_pairing.
Defined.

Lemma task_given_up_witness :
  exists task' s', run_process node manager (si_set_Tries 2 the_task) idle = (Ret (None, task'), s') /\
    si_State task' = ShardStateTerminate /\ sv_trace s' = [] /\ sv_queue s' = [] /\
    sv_w s' = serving shard_content.
Proof.
  refine (task_given_up node manager (si_set_Tries 2 the_task) idle _ _);
    cbn; unfold MAX_RETRIES, two64; [done|lia].
Defined.

(** The gateway serves another content. *)
Lemma cid_mismatch_panics_witness :
  (run_process node manager the_task (fresh (serving (string_bytes "other")))).1 = Panic.
Proof.
  eapply (cid_mismatch_panics node manager the_task (fresh (serving (string_bytes "other"))));
    try (vm_compute; reflexivity).
  - cbn. unfold MAX_RETRIES. lia.
  - left. by vm_compute.
  - by vm_compute.
Defined.

Definition crowded (w : world) : Prop := w_total w = 51.
Definition crowded_world : world :=
  World 0 100 ∅ [chain_shard] 51 ∅ [] 0.

Lemma GetAllShards_pages_witness :
  (forall fuel, (GetAllShards (S fuel) idle).1 = Ret [chain_shard]) /\
  (forall fuel, (GetAllShards fuel (fresh crowded_world)).1 = OutOfFuel).
Proof.
  split.
  - apply (proj1 (GetAllShards_pages crowded idle) [chain_shard] 1 (serving shard_content));
      [reflexivity|unfold limit; lia].
  - apply (proj2 (GetAllShards_pages crowded (fresh crowded_world))); [|done].
    intros w Hw. exists (w_shards w), 51, w. cbn. rewrite Hw. by split_and!.
Defined.

Lemma assign_outcome_witness :
  exists t order, (chain_GetOrder 7 (chain_GetTx "tx" 90 (sv_w idle)).2).1 = inl order /\
    sv_queue assigned = [shard_request t] /\ assigned_task node (sv_ds idle) assign_req order t.
Proof.
  pose proof (assign_outcome node assign_req idle) as Ho.
  assert ((HandleShardAssign node assign_req idle).1 = Ret (MkShardAssignResp 0 "")) as E
    by (vm_compute; reflexivity).
  unfold wp in Ho. rewrite E in Ho. exact (proj2 (proj2 Ho)).
Defined.

(** A client reads the stored shard through its gateway. *)
Definition stored_world : world := sv_w worked.
Definition query : QueryProposal := MkQueryProposal "did:sid:1" "data" "" 0 200 "peer1" "" "".
Definition load_req (sig : bytes) : ShardLoadReq :=
  MkShardLoadReq "did:sid:1" "data" 7 (MkCid shard_cid)
    (MkMetadataProposalCbor query (MkJwsSignature "" "signed")) 1
    (MkRelayProposalCbor (MkRelayProposal "sao1relay" "" "" "peer2") sig).

Lemma get_safe b c : safe (back_Get (W:=world) b c).
Proof. intros w. cbn. unfold zoom. cbn. by destruct (MemBackend.held _ _ !! _). Qed.

Lemma load_authorized_witness :
  exists w, reader_allowed (load_req []) "peer1" stored_world w /\
    (sm_Get manager (MkCid shard_cid) w).1 = Ret (inl shard_content).
Proof.
  pose proof (load_authorized manager get_safe (load_req []) "peer1" (fresh stored_world)) as Ho.
  assert (exists now s', HandleShardLoad manager (load_req []) "peer1" (fresh stored_world) =
    (Ret (MkShardLoadResp 0 "" 7 (MkCid shard_cid) shard_content 1 now), s')) as (now & s' & E)
    by (eexists _, _; vm_compute; reflexivity).
  unfold wp in Ho. rewrite E in Ho. exact (proj2 Ho eq_refl).
Defined.

(** A request through a relay, with two different signatures. *)
Lemma relay_signature_unchecked_witness :
  HandleShardLoad manager (load_req (string_bytes "good")) "peer2" (fresh stored_world) =
  HandleShardLoad manager (load_req (string_bytes "forged")) "peer2" (fresh stored_world).
Proof.
  refine (relay_signature_unchecked manager _ (load_req []) (string_bytes "good")
    (string_bytes "forged") "peer2" (fresh stored_world) _ _); [|by vm_compute..].
  intros account buf sig. cbn. eauto.
Defined.

(** A migration whose content is not the one of the cid. *)
Definition migrate_world : world :=
  World 0 100 {[7 := MkFullOrder 7 "did:sid:1" "sao1gateway" 1 0 90 100
    {[node := MkShard 12 7 shard_cid "sao1old" ShardMigrating 90 1000 [] "sao1old"]} "data" ""]} [] 0 ∅ [] 0.
Definition migrate_req : ShardMigrateReq :=
  MkShardMigrateReq "sao1old" 7 "data" "tx" 99 shard_cid (string_bytes "other").

(** A task that was worked on, and a migration whose content is another one. *)
Lemma complete_only_stored_witness :
  ((exists content, EvStore (MkCid shard_cid) content true ∈
     [EvStore (MkCid shard_cid) shard_content true] /\ computed content = MkCid shard_cid) \/
   EvExist (MkCid shard_cid) true ∈ [EvStore (MkCid shard_cid) shard_content true] \/
   received node manager idle worked [EvStore (MkCid shard_cid) shard_content true] 7 (MkCid shard_cid) 5) /\
  (computed (string_bytes "other") <> MkCid shard_cid /\
   ((exists content, EvStore (MkCid shard_cid) content true ∈
      [EvStore (MkCid shard_cid) (string_bytes "other") true] /\ computed content = MkCid shard_cid) \/
    EvExist (MkCid shard_cid) true ∈ [EvStore (MkCid shard_cid) (string_bytes "other") true] \/
    received node manager (fresh migrate_world) (HandleShardMigrate node manager migrate_req (fresh migrate_world)).2
      [EvStore (MkCid shard_cid) (string_bytes "other") true] 7 (MkCid shard_cid) 5)).
Proof.
  split; [|split; [vm_compute; discriminate|]].
  - eapply (complete_only_stored node manager idle worked _ [_] 7 (MkCid shard_cid) 5 true).
    + by split_and!.
    + eapply rtc_l; [apply (step_assign _ _ idle assign_req); split; cbn; unfold is_u64, is_i64, two64, two63; lia|].
      apply rtc_once. apply (step_work _ _ assigned).
    + vm_compute. reflexivity.
  - eapply (complete_only_stored node manager (fresh migrate_world) _ _ [] 7 (MkCid shard_cid) 5 true).
    + by split_and!.
    + apply rtc_once. apply (step_receive _ _ (fresh migrate_world) migrate_req).
    + vm_compute. reflexivity.
Defined.

Lemma store_safe b r : safe (back_Store (W:=world) b r).
Proof. intros w. cbn. unfold zoom. cbn. by case_decide. Qed.

Lemma migrate_outcome_witness :
  exists s', HandleShardMigrate node manager migrate_req (fresh migrate_world) =
      (Ret (MkShardMigrateResp 0 "" "hash" 101), s') /\
    exists order c, (chain_GetOrder 7 (chain_GetTx "tx" 99 migrate_world).2).1 = inl order /\
      migrating node migrate_req order c /\
      sv_trace s' = [EvStore c (string_bytes "other") true; EvComplete (fo_Id order) c 5 true].
Proof.
  pose proof (migrate_outcome node manager store_safe migrate_req (fresh migrate_world)) as Ho.
  assert (exists s', HandleShardMigrate node manager migrate_req (fresh migrate_world) =
    (Ret (MkShardMigrateResp 0 "" "hash" 101), s')) as [s' E] by (eexists; vm_compute; reflexivity).
  exists s'. split; [exact E|]. unfold wp in Ho. rewrite E in Ho. exact (proj2 (proj2 Ho)).
Defined.

Lemma restart_recovers_witness :
  exists d', processIncompleteShards (Svc stored_world Sample.sample_ds [] [] []) =
    (Ret tt, Svc stored_world d' [shard_request Sample.sample_shard] [] []).
Proof.
  destruct (restart_recovers (db_ops Sample.sample_ops db_empty)
    (Svc stored_world Sample.sample_ds [] [] [])) as [(d' & E & _) _].
  - exact I.
  - exact Sample.sample_ds_repr.
  - apply db_ops_ind; [exact Sample.sample_inv|exact db_inv_op].
  - assert (db_shard_idx (db_ops Sample.sample_ops db_empty) = [MkShardKey 7 Sample.sample_cid]) as ->
      by (vm_compute; reflexivity).
    Sample.sample.
  - exists d'. rewrite E. vm_compute. reflexivity.
Defined.

Lemma expire_removes_unlisted_witness :
  drops [chain_shard] idle (processExpire manager 3 idle).2.
Proof.
  refine (expire_removes_unlisted manager [chain_shard] 1 (serving shard_content) 2 idle _ _);
    [reflexivity|unfold limit; lia].
Defined.
End StorageSample.
