(* ===== verification/LruCache.v ===== *)
(** * The LRU cache ([node/cache/lru_cache.go], [node/cache/lru_cache_service.go])

    A cache is a hash map from keys to nodes and a doubly linked list of the
    nodes, from the least to the most recently used.  The nodes are in a heap,
    with the pointers of the code: unlinking the first or the last node leaves
    stale pointers in its neighbour, so the invariant only fixes the pointers
    between consecutive nodes.  The map is the one of the package
    [github.com/raviqqe/hamt], an interface here.

    [lru_refines]: from an empty cache, any sequence of operations that does not
    unlink the only node of the list gives the results of the abstract LRU cache.
    The other theorems are about that excluded case. *)
From stdpp Require Import base list gmap strings.
From Stdlib Require Import ZArith Lia.
From S2P Require Import Prelude Types.

(** ** The hash map *)
Abbreviation addr := nat.

Class HamtMap := {
  hamt_Map : Type;
  hamt_NewMap : hamt_Map;
  hamt_Find : hamt_Map -> string -> option addr;
  hamt_Insert : hamt_Map -> string -> addr -> hamt_Map;
  hamt_Delete : hamt_Map -> string -> hamt_Map;
  hamt_Size : hamt_Map -> Z
}.

Class HamtLaws `{!HamtMap} := {
  hamt_map : hamt_Map -> gmap string addr;
  hamt_map_New : hamt_map hamt_NewMap = ∅;
  hamt_map_Find m k : hamt_Find m k = hamt_map m !! k;
  hamt_map_Insert m k a : hamt_map (hamt_Insert m k a) = <[k := a]> (hamt_map m);
  hamt_map_Delete m k : hamt_map (hamt_Delete m k) = delete k (hamt_map m);
  hamt_map_Size m : hamt_Size m = Z.of_nat (size (hamt_map m))
}.

(** *** The hash of a key *)
Definition primeRK : Z := 16777619.
Definition wrap32 (z : Z) : Z := z mod 2 ^ 32.

Definition GetHash32 (data : list Z) : Z :=
  foldl (fun hash b => wrap32 (wrap32 (hash * primeRK) + b)) 0 data.

Section Lru.
Context `{!HamtMap} {V : Type}.

(** A value is an [interface{}]: [None] is nil. *)
Abbreviation value := (option V).

Record Node := MkNode {
  n_Key : string;
  n_Value : value;
  n_pre : option addr;
  n_next : option addr
}.

Record LruCache := MkLruCache {
  l_Capacity : Z;
  l_Size : Z;
  l_head : option addr;
  l_end : option addr;
  l_Map : hamt_Map
}.

(** The nodes, the next free address, and the cache a method works on. *)
Record mem := Mem { m_heap : gmap addr Node; m_fresh : addr; m_lru : LruCache }.

Definition set_heap (f : gmap addr Node -> gmap addr Node) : GoM mem unit :=
  modify (fun s => Mem (f (m_heap s)) (m_fresh s) (m_lru s)).
Definition set_lru (f : LruCache -> LruCache) : GoM mem unit :=
  modify (fun s => Mem (m_heap s) (m_fresh s) (f (m_lru s))).
Definition set_head (p : option addr) (l : LruCache) : LruCache :=
  MkLruCache (l_Capacity l) (l_Size l) p (l_end l) (l_Map l).
Definition set_end (p : option addr) (l : LruCache) : LruCache :=
  MkLruCache (l_Capacity l) (l_Size l) (l_head l) p (l_Map l).
Definition set_map (m : hamt_Map) (l : LruCache) : LruCache :=
  MkLruCache (l_Capacity l) (l_Size l) (l_head l) (l_end l) m.
(** [l.Size = l.Map.Size()] *)
Definition update_size (l : LruCache) : LruCache :=
  MkLruCache (l_Capacity l) (hamt_Size (l_Map l)) (l_head l) (l_end l) (l_Map l).

Definition with_next (q : option addr) (n : Node) : Node := MkNode (n_Key n) (n_Value n) (n_pre n) q.
Definition with_pre (q : option addr) (n : Node) : Node := MkNode (n_Key n) (n_Value n) q (n_next n).
Definition with_value (v : value) (n : Node) : Node := MkNode (n_Key n) v (n_pre n) (n_next n).

(** Reading and writing through a pointer: nil panics. *)
Definition load (p : option addr) : GoM mem Node :=
  a <- deref p ;; h <- gets m_heap ;; deref (h !! a).
Definition store (p : option addr) (f : Node -> Node) : GoM mem unit :=
  a <- deref p ;; h <- gets m_heap ;; _u <- deref (h !! a) ;; set_heap (alter f a).
Definition new (n : Node) : GoM mem addr := fun s =>
  (Ret (m_fresh s), Mem (<[m_fresh s := n]> (m_heap s)) (S (m_fresh s)) (m_lru s)).

Definition addNode (node : addr) : GoM mem unit :=
  l <- gets m_lru ;;
  (if decide (l_end l = None) then ret tt else
     store (l_end l) (with_next (Some node)) ;;
     store (Some node) (with_pre (l_end l)) ;;
     store (Some node) (with_next None)) ;;
  set_lru (set_end (Some node)) ;;
  l <- gets m_lru ;;
  if decide (l_head l = None) then set_lru (set_head (Some node)) else ret tt.

Definition removeNode (node : option addr) : GoM mem string :=
  l <- gets m_lru ;;
  (if decide (node = l_end l) then
     n <- load (l_end l) ;; set_lru (set_end (n_pre n))
   else if decide (node = l_head l) then
     n <- load (l_head l) ;; set_lru (set_head (n_next n))
   else
     n <- load node ;;
     store (n_pre n) (with_next (n_next n)) ;;
     n <- load node ;;
     store (n_next n) (with_pre (n_pre n))) ;;
  n <- load node ;;
  ret (n_Key n).

Definition refreshNode (node : addr) : GoM mem unit :=
  l <- gets m_lru ;;
  if decide (Some node = l_end l) then ret tt else
  removeNode (Some node) ;;
  addNode node.

Definition get (key : string) : GoM mem value :=
  l <- gets m_lru ;;
  match hamt_Find (l_Map l) key with
  | Some node => refreshNode node ;; n <- load (Some node) ;; ret (n_Value n)
  | None => ret None
  end.

Definition put (key : string) (v : value) : GoM mem unit :=
  l <- gets m_lru ;;
  match hamt_Find (l_Map l) key with
  | None =>
      node <- new (MkNode key v None None) ;;
      l <- gets m_lru ;;
      (if (0 <? l_Capacity l) && (l_Capacity l <=? hamt_Size (l_Map l)) then
         oldKey <- removeNode (l_head l) ;;
         set_lru (fun l => set_map (hamt_Insert (hamt_Delete (l_Map l) oldKey) key node) l)
       else set_lru (fun l => set_map (hamt_Insert (l_Map l) key node) l)) ;;
      addNode node ;;
      set_lru update_size
  | Some node =>
      store (Some node) (with_value v) ;;
      refreshNode node ;;
      set_lru (fun l => set_map (hamt_Insert (l_Map l) key node) l) ;;
      set_lru update_size
  end.

Definition evict (key : string) : GoM mem unit :=
  l <- gets m_lru ;;
  match hamt_Find (l_Map l) key with
  | Some node =>
      oldKey <- removeNode (Some node) ;;
      set_lru (fun l => set_map (hamt_Delete (l_Map l) oldKey) l) ;;
      set_lru update_size
  | None => ret tt
  end.

Definition CreateLruCache (capacity : Z) : LruCache :=
  update_size (MkLruCache capacity 0 None None hamt_NewMap).

(** ** The linked list *)
Implicit Types (h : gmap addr Node) (A : list addr).

Definition nxt h (a : addr) : option addr := h !! a ≫= n_next.
Definition prv h (a : addr) : option addr := h !! a ≫= n_pre.
Definition data h (a : addr) : option (string * value) := (fun n => (n_Key n, n_Value n)) <$> h !! a.

(** Consecutive nodes point at each other. *)
Fixpoint seg h A : Prop :=
  match A with
  | a :: (b :: _) as A' => nxt h a = Some b /\ prv h b = Some a /\ seg h A'
  | _ => True
  end.

Definition linked h (hd en : option addr) A : Prop :=
  seg h A /\ NoDup A /\ hd = head A /\ en = last A /\ (forall a, a ∈ A -> is_Some (h !! a)).

Lemma seg_app h l1 p q l2 :
  seg h (l1 ++ p :: q :: l2) <->
  seg h (l1 ++ [p]) /\ nxt h p = Some q /\ prv h q = Some p /\ seg h (q :: l2).
Proof.
  induction l1 as [|a l1 IH]; [cbn; tauto|].
  destruct l1 as [|b l1]; [cbn in *; tauto|]. cbn in IH |- *. rewrite IH. tauto.
Qed.

Lemma seg_ext h h' A :
  (forall l x, A = l ++ [x] -> forall a, a ∈ l -> nxt h' a = nxt h a) ->
  (forall a, a ∈ tail A -> prv h' a = prv h a) -> seg h A -> seg h' A.
Proof.
  induction A as [|a [|b A] IH]; [done..|]. intros Hn Hp (H1 & H2 & H3). split_and!.
  - rewrite <- H1. destruct (exists_last (l:=b :: A) ltac:(done)) as (l & x & E).
    apply (Hn (a :: l) x); [by rewrite E|by left].
  - rewrite <- H2. apply Hp. by left.
  - apply IH; [|intros c Hc; apply Hp; by right|done].
    intros l x E c Hc. apply (Hn (a :: l) x); [by rewrite E|by right].
Qed.

(** The same for a list that ends in [x]. *)
Lemma seg_snoc_ext h h' l x :
  (forall a, a ∈ l -> nxt h' a = nxt h a) -> (forall a, a ∈ l ++ [x] -> prv h' a = prv h a) ->
  seg h (l ++ [x]) -> seg h' (l ++ [x]).
Proof.
  intros Hn Hp. apply seg_ext.
  - intros l' x' E. apply app_inj_tail in E as [-> ->]. done.
  - intros a Ha. apply Hp. destruct (l ++ [x]); [done|by right].
Qed.

Lemma alter_ne h f a b : a <> b -> alter f a h !! b = h !! b.
Proof. apply lookup_alter_ne. Qed.
Lemma alter_eq h f a : alter f a h !! a = f <$> h !! a.
Proof. apply lookup_alter_eq. Qed.

Lemma nxt_alter_next h q a b :
  nxt (alter (with_next q) a h) b = if decide (a = b) then h !! a ≫= fun _ => q else nxt h b.
Proof.
  unfold nxt. case_decide as E; [subst b; rewrite alter_eq; by destruct (h !! a)|].
  by rewrite alter_ne.
Qed.
Lemma nxt_alter_pre h q a b : nxt (alter (with_pre q) a h) b = nxt h b.
Proof.
  unfold nxt. destruct (decide (a = b)) as [->|E]; [|by rewrite alter_ne].
  rewrite alter_eq. by destruct (h !! b).
Qed.
Lemma prv_alter_pre h q a b :
  prv (alter (with_pre q) a h) b = if decide (a = b) then h !! a ≫= fun _ => q else prv h b.
Proof.
  unfold prv. case_decide as E; [subst b; rewrite alter_eq; by destruct (h !! a)|].
  by rewrite alter_ne.
Qed.
Lemma prv_alter_next h q a b : prv (alter (with_next q) a h) b = prv h b.
Proof.
  unfold prv. destruct (decide (a = b)) as [->|E]; [|by rewrite alter_ne].
  rewrite alter_eq. by destruct (h !! b).
Qed.
Lemma is_Some_alter h f a b : is_Some (alter f a h !! b) <-> is_Some (h !! b).
Proof.
  destruct (decide (a = b)) as [->|E]; [|by rewrite alter_ne]. rewrite alter_eq. apply fmap_is_Some.
Qed.
Lemma data_alter h f a b :
  (forall n, (n_Key (f n), n_Value (f n)) = (n_Key n, n_Value n)) -> data (alter f a h) b = data h b.
Proof.
  intros Hf. unfold data. destruct (decide (a = b)) as [->|E]; [|by rewrite alter_ne].
  rewrite alter_eq. destruct (h !! b); [|done]. cbn. by rewrite Hf.
Qed.

(** What an operation on the list does to the heap: only nodes of [A] change, and
    no node changes its key or its value. *)
Definition relinks A h h' : Prop :=
  (forall a, a ∉ A -> h' !! a = h !! a) /\ (forall a, data h' a = data h a).

Lemma relinks_refl A h : relinks A h h.
Proof. done. Qed.

(** The state with another list. *)
Definition relist (s : mem) h hd en : mem :=
  Mem h (m_fresh s) (MkLruCache (l_Capacity (m_lru s)) (l_Size (m_lru s)) hd en (l_Map (m_lru s))).

Lemma relist_id s : relist s (m_heap s) (l_head (m_lru s)) (l_end (m_lru s)) = s.
Proof. by destruct s as [h f []]. Qed.

Lemma load_run (s : mem) a n : m_heap s !! a = Some n -> load (Some a) s = (Ret n, s).
Proof. intros Ha. unfold load, bind. cbn. by rewrite Ha. Qed.
Lemma store_run (s : mem) a f :
  is_Some (m_heap s !! a) -> store (Some a) f s = (Ret tt, Mem (alter f a (m_heap s)) (m_fresh s) (m_lru s)).
Proof. intros [n Ha]. unfold store, bind. cbn. by rewrite Ha. Qed.

(** *** Unlinking *)
Lemma linked_remove_last h hd en l p x :
  linked h hd en (l ++ [p; x]) -> prv h x = Some p /\ linked h hd (Some p) (l ++ [p]).
Proof.
  intros (Hseg & Hnd & -> & -> & Hin). apply (seg_app h l p x []) in Hseg as (Hseg & Hn & Hp & _).
  assert (l ++ [p; x] = (l ++ [p]) ++ [x]) as E by by rewrite <- app_assoc. rewrite E in Hnd, Hin.
  split; [done|]. split_and!; [done| | | |].
  - by apply NoDup_app in Hnd as [Hnd _].
  - by destruct l.
  - by rewrite last_snoc.
  - intros a Ha. apply Hin, elem_of_app. by left.
Qed.

Lemma linked_remove_head h hd en x q l :
  linked h hd en (x :: q :: l) -> nxt h x = Some q /\ linked h (Some q) en (q :: l).
Proof.
  intros ((Hn & Hp & Hseg) & Hnd & -> & -> & Hin). split; [done|]. split_and!; [done| |done|done|].
  - by apply NoDup_cons in Hnd as [_ Hnd].
  - intros a Ha. apply Hin. by right.
Qed.

Lemma linked_remove_mid h hd en l1 p x q l2 :
  linked h hd en (l1 ++ p :: x :: q :: l2) ->
  prv h x = Some p /\ nxt h x = Some q /\
  linked (alter (with_pre (Some p)) q (alter (with_next (Some q)) p h)) hd en (l1 ++ p :: q :: l2).
Proof.
  intros (Hseg & Hnd & -> & -> & Hin).
  apply seg_app in Hseg as (Hs1 & Hn1 & Hp1 & (Hn2 & Hp2 & Hs2)). split_and!; [done..|].
  assert (NoDup (l1 ++ p :: q :: l2)) as Hnd'.
  { eapply sublist_NoDup; [exact Hnd|]. apply sublist_app; [done|]. apply sublist_skip, sublist_cons. done. }
  pose proof Hnd' as (Hd1 & Hd2 & Hd3)%NoDup_app. apply NoDup_cons in Hd3 as [Hpq Hd3].
  apply NoDup_cons in Hd3 as [Hq Hd3].
  assert (p <> q) as Hne by (intros ->; apply Hpq; by left).
  split_and!.
  - apply seg_app. split_and!.
    + apply (seg_snoc_ext h); [| |done].
      * intros a Ha. rewrite nxt_alter_pre, nxt_alter_next, decide_False; [done|].
        intros ->. apply (Hd2 _ Ha). by left.
      * intros a Ha. rewrite prv_alter_pre, decide_False, prv_alter_next; [done|].
        intros ->. apply elem_of_app in Ha as [Ha| ->%list_elem_of_singleton]; [|done].
        apply (Hd2 _ Ha). right. by left.
    + rewrite nxt_alter_pre, nxt_alter_next, decide_True by done.
      destruct (Hin p) as [n ->]; [|done]. apply elem_of_app. right. by left.
    + rewrite prv_alter_pre, decide_True by done. rewrite alter_ne by done.
      destruct (Hin q) as [n ->]; [|done]. apply elem_of_app. right. right. right. by left.
    + apply (seg_ext h); [| |done].
      * intros l x' E a Ha. rewrite nxt_alter_pre, nxt_alter_next, decide_False; [done|].
        intros ->. apply Hpq. rewrite E. apply elem_of_app. by left.
      * intros a Ha. cbn in Ha. rewrite prv_alter_pre, decide_False, prv_alter_next; [done|].
        by intros ->.
  - done.
  - by destruct l1.
  - rewrite !last_app. done.
  - intros a Ha. rewrite !is_Some_alter. apply Hin.
    apply elem_of_app in Ha as [Ha|Ha]; apply elem_of_app; [by left|right].
    apply elem_of_cons in Ha as [->|Ha]; [by left|right; by right].
Qed.

(** *** Linking at the end *)
Definition link h (e x : addr) : gmap addr Node :=
  alter (with_next None) x (alter (with_pre (Some e)) x (alter (with_next (Some x)) e h)).

Lemma linked_add h hd en l e x :
  linked h hd en (l ++ [e]) -> x ∉ l ++ [e] -> is_Some (h !! x) ->
  linked (link h e x) hd (Some x) ((l ++ [e]) ++ [x]).
Proof.
  intros (Hseg & Hnd & -> & -> & Hin) Hx Hsome. unfold link.
  assert (e <> x) as Hex by (intros ->; apply Hx, elem_of_app; right; by left).
  pose proof Hnd as (_ & Hle & _)%NoDup_app.
  split_and!.
  - rewrite <- app_assoc. apply (seg_app _ l e x []). split_and!.
    + apply (seg_snoc_ext h); [| |done].
      * intros a Ha. assert (a <> e) by (intros ->; apply (Hle _ Ha); by left).
        assert (a <> x) by (intros ->; apply Hx, elem_of_app; by left).
        by rewrite nxt_alter_next, decide_False, nxt_alter_pre, nxt_alter_next, decide_False.
      * intros a Ha. assert (x <> a) by by intros ->.
        by rewrite prv_alter_next, prv_alter_pre, decide_False, prv_alter_next.
    + rewrite nxt_alter_next, decide_False by done.
      rewrite nxt_alter_pre, nxt_alter_next, decide_True by done.
      destruct (Hin e) as [n ->]; [|done]. apply elem_of_app. right. by left.
    + rewrite prv_alter_next, prv_alter_pre, decide_True by done.
      rewrite alter_ne by done. by destruct Hsome as [n ->].
    + done.
  - apply NoDup_app. split_and!; [done| |apply NoDup_singleton].
    intros a Ha ->%list_elem_of_singleton. done.
  - by destruct l.
  - by rewrite last_snoc.
  - intros a [Ha| ->%list_elem_of_singleton]%elem_of_app; rewrite !is_Some_alter; [by apply Hin|done].
Qed.

Lemma linked_first h x : is_Some (h !! x) -> linked h (Some x) (Some x) [x].
Proof.
  intros Hx. split_and!; [done|apply NoDup_singleton|done|done|]. by intros a ->%list_elem_of_singleton.
Qed.

Lemma linked_nil h hd en A : linked h hd en A -> hd = None -> A = [].
Proof. intros (_ & _ & Hhd & _) E. destruct A; [done|]. cbn in Hhd. congruence. Qed.

Lemma relinks_alter A h h' f a :
  relinks A h h' -> a ∈ A -> (forall n, (n_Key (f n), n_Value (f n)) = (n_Key n, n_Value n)) ->
  relinks A h (alter f a h').
Proof.
  intros [H1 H2] Ha Hf. split.
  - intros b Hb. rewrite alter_ne; [by apply H1|]. by intros ->.
  - intros b. rewrite data_alter; [apply H2|done].
Qed.

(** ** The methods on a linked list *)
Abbreviation list_of s A := (linked (m_heap s) (l_head (m_lru s)) (l_end (m_lru s)) A).

Lemma addNode_spec (s : mem) A x :
  list_of s A -> x ∉ A -> is_Some (m_heap s !! x) ->
  exists h' hd', addNode x s = (Ret tt, relist s h' hd' (Some x)) /\
    linked h' hd' (Some x) (A ++ [x]) /\ relinks (A ++ [x]) (m_heap s) h'.
Proof.
  intros HA Hx Hs. destruct A as [|y A'] using rev_ind.
  - pose proof HA as (_ & _ & Hhd & Hen & _). cbn in Hhd, Hen.
    exists (m_heap s), (Some x). split_and!; [|by apply linked_first|by apply relinks_refl].
    unfold addNode, bind. cbn. rewrite Hen, decide_True by done. cbn.
    by rewrite Hhd, decide_True.
  - clear IHA'. pose proof HA as (_ & _ & Hhd & Hen & Hin). rewrite last_snoc in Hen.
    exists (link (m_heap s) y x), (l_head (m_lru s)). split_and!.
    + unfold addNode, bind at 1. cbn [gets fst snd]. rewrite Hen, decide_False by done.
      unfold bind at 1 2. rewrite store_run.
      2: { apply Hin, elem_of_app. right. by left. }
      unfold bind at 1. rewrite store_run by (cbn; by rewrite is_Some_alter).
      rewrite store_run by (cbn; by rewrite !is_Some_alter).
      unfold bind. cbn. rewrite decide_False; [done|]. rewrite Hhd. by destruct A'.
    + by eapply linked_add.
    + unfold link. do 3 (apply relinks_alter; [|rewrite ?elem_of_app; set_solver|done]).
      apply relinks_refl.
Qed.

Lemma NoDup_middle_last {T} (l1 l2 : list T) x y : NoDup (l1 ++ x :: l2 ++ [y]) -> x <> y.
Proof.
  intros (_ & _ & [Hx _]%NoDup_cons)%NoDup_app. intros ->. apply Hx, elem_of_app. right. by left.
Qed.

(** A node can be unlinked when it is not the only one. *)
Lemma removeNode_spec (s : mem) l1 x l2 n :
  list_of s (l1 ++ x :: l2) -> l1 ++ l2 <> [] -> m_heap s !! x = Some n ->
  exists h' hd' en', removeNode (Some x) s = (Ret (n_Key n), relist s h' hd' en') /\
    linked h' hd' en' (l1 ++ l2) /\ relinks (l1 ++ x :: l2) (m_heap s) h'.
Proof.
  intros HA Hne Hx. pose proof HA as (_ & Hnd & Hhd & Hen & Hin).
  unfold removeNode, bind at 1. cbn [gets fst snd].
  destruct l2 as [|y l2 _] using rev_ind.
  { destruct l1 as [|p l1 _] using rev_ind; [done|].
    rewrite <- app_assoc in *. cbn [app] in *.
    assert (l1 ++ [p; x] = (l1 ++ [p]) ++ [x]) as E by by rewrite <- app_assoc.
    rewrite E, last_snoc in Hen. rewrite Hen, decide_True by done.
    destruct (linked_remove_last _ _ _ _ _ _ HA) as [Hp Hl].
    exists (m_heap s), (l_head (m_lru s)), (Some p). split_and!; [|done|apply relinks_refl].
    unfold prv in Hp. rewrite Hx in Hp. cbn in Hp.
    unfold bind. rewrite (load_run s x n Hx). cbn. rewrite Hx, Hp. done. }
  assert (l_end (m_lru s) = Some y) as Hen'
    by (rewrite Hen, app_comm_cons, app_assoc; apply last_snoc).
  pose proof (NoDup_middle_last _ _ _ _ Hnd) as Hxy.
  rewrite Hen', decide_False by congruence.
  destruct l1 as [|p l1 _] using rev_ind.
  - cbn in Hhd. rewrite Hhd, decide_True by done. cbn [app] in *.
    assert (exists q l, l2 ++ [y] = q :: l) as (q & l & E) by (destruct l2; eauto). rewrite E in *.
    destruct (linked_remove_head _ _ _ _ _ _ HA) as [Hq Hl].
    exists (m_heap s), (Some q), (l_end (m_lru s)). split_and!; [|done|apply relinks_refl].
    unfold nxt in Hq. rewrite Hx in Hq. cbn in Hq.
    unfold bind. rewrite (load_run s x n Hx). cbn. rewrite Hx, Hq. done.
  - rewrite Hhd. rewrite decide_False.
    2: { destruct l1 as [|a l1]; cbn in Hnd |- *; apply NoDup_cons in Hnd as [Hn _];
         intros [= ->]; apply Hn; rewrite ?elem_of_app; set_solver. }
    assert (exists q l, l2 ++ [y] = q :: l) as (q & l & E) by (destruct l2; eauto). rewrite E in *.
    rewrite <- app_assoc in *. cbn [app] in *.
    destruct (linked_remove_mid _ _ _ _ _ _ _ _ HA) as (Hp & Hq & Hl).
    exists (alter (with_pre (Some p)) q (alter (with_next (Some q)) p (m_heap s))),
      (l_head (m_lru s)), (l_end (m_lru s)).
    assert (p <> x /\ q <> x) as [Hpx Hqx].
    { apply NoDup_app in Hnd as (_ & _ & [H1 [H2 _]%NoDup_cons]%NoDup_cons).
      split; intros ->; [apply H1; by left|apply H2; by left]. }
    split_and!; [|done|].
    + unfold prv, nxt in Hp, Hq. rewrite Hx in Hp, Hq. cbn in Hp, Hq.
      unfold bind at 1 2. rewrite (load_run s x n Hx). rewrite Hp, Hq.
      unfold bind at 1. rewrite store_run by (apply Hin, elem_of_app; right; by left).
      unfold bind at 1. rewrite (load_run _ x n) by (cbn; by rewrite alter_ne). rewrite Hp, Hq.
      rewrite store_run.
      2: { cbn. rewrite is_Some_alter. apply Hin, elem_of_app. right. right. right. by left. }
      unfold bind. rewrite (load_run _ x n) by (cbn; by rewrite !alter_ne).
      cbn. unfold relist. by destruct (m_lru s).
    + do 2 (apply relinks_alter; [|rewrite ?elem_of_app; set_solver|done]). apply relinks_refl.
Qed.

(** The node becomes the last one. *)
Lemma refreshNode_spec (s : mem) l1 x l2 :
  list_of s (l1 ++ x :: l2) ->
  exists h' hd' en', refreshNode x s = (Ret tt, relist s h' hd' en') /\
    linked h' hd' en' ((l1 ++ l2) ++ [x]) /\ relinks (l1 ++ x :: l2) (m_heap s) h'.
Proof.
  intros HA. pose proof HA as (_ & Hnd & Hhd & Hen & Hin).
  unfold refreshNode, bind at 1. cbn [gets fst snd]. case_decide as Hx.
  - assert (l2 = []) as ->.
    { destruct l2 as [|y l2 _] using rev_ind; [done|].
      rewrite <- Hx, app_comm_cons, app_assoc, last_snoc in Hen. injection Hen as ->.
      by apply NoDup_middle_last in Hnd. }
    exists (m_heap s), (l_head (m_lru s)), (l_end (m_lru s)).
    rewrite relist_id, app_nil_r. split_and!; [done|exact HA|apply relinks_refl].
  - destruct (Hin x) as [n Hn]; [apply elem_of_app; right; by left|].
    destruct (removeNode_spec s l1 x l2 n HA) as (h1 & hd1 & en1 & Hrun & HA1 & [Hf1 Hd1]); [|done|].
    { intros [-> ->]%app_eq_nil. by apply Hx. }
    destruct (addNode_spec (relist s h1 hd1 en1) (l1 ++ l2) x) as (h2 & hd2 & Hrun2 & HA2 & [Hf2 Hd2]).
    + done.
    + intros Hx'. apply NoDup_app in Hnd as (_ & Hd & [Hn2 _]%NoDup_cons).
      apply elem_of_app in Hx' as [Hx'|Hx']; [|done]. apply (Hd _ Hx'). by left.
    + cbn. specialize (Hd1 x). unfold data in Hd1. rewrite Hn in Hd1. destruct (h1 !! x); [eauto|done].
    + exists h2, hd2, (Some x). split_and!; [|done|].
      * unfold bind. rewrite Hrun. exact Hrun2.
      * split; [|intros a; cbn in Hd2; by rewrite Hd2].
        intros a Ha. cbn in Hf2. rewrite Hf2, Hf1; [done|done|].
        rewrite !elem_of_app, list_elem_of_singleton. rewrite elem_of_app, elem_of_cons in Ha. tauto.
Qed.

(** ** The abstract cache: the entries from the least to the most recently used *)
Abbreviation entries := (list (string * value)).

Fixpoint assoc (k : string) (l : entries) : option value :=
  match l with
  | [] => None
  | (k', v) :: l' => if String.eqb k' k then Some v else assoc k l'
  end.
Definition drop_key (k : string) (l : entries) : entries :=
  List.filter (fun p => negb (String.eqb p.1 k)) l.

Definition lru_get (k : string) (l : entries) : value * entries :=
  match assoc k l with
  | Some v => (v, drop_key k l ++ [(k, v)])
  | None => (None, l)
  end.
Definition lru_put (capacity : Z) (k : string) (v : value) (l : entries) : entries :=
  match assoc k l with
  | Some _ => drop_key k l ++ [(k, v)]
  | None => (if (0 <? capacity) && (capacity <=? Z.of_nat (length l)) then tail l else l) ++ [(k, v)]
  end.

(** *** Representation *)
(** A cell: a node of the list with its key and its value. *)
Abbreviation cell := (addr * (string * value))%type.
Implicit Types C : list cell.
Definition keys C : list string := (fun c : cell => c.2.1) <$> C.
Definition index C : gmap string addr := list_to_map ((fun c : cell => (c.2.1, c.1)) <$> C).

Context `{!HamtLaws}.

Record repr (s : mem) C : Prop := {
  repr_list : list_of s C.*1;
  repr_data : Forall (fun c : cell => data (m_heap s) c.1 = Some c.2) C;
  repr_keys : NoDup (keys C);
  repr_map : hamt_map (l_Map (m_lru s)) = index C;
  repr_size : l_Size (m_lru s) = Z.of_nat (length C);
  repr_fresh : forall a, (m_fresh s <= a)%nat -> m_heap s !! a = None
}.

Lemma index_fst C : ((fun c : cell => (c.2.1, c.1)) <$> C).*1 = keys C.
Proof. unfold keys. rewrite <- list_fmap_compose. done. Qed.

Lemma index_perm C C' : NoDup (keys C) -> C ≡ₚ C' -> index C = index C'.
Proof. intros Hnd HC. apply list_to_map_proper; [by rewrite index_fst|by rewrite HC]. Qed.

Lemma size_index C : NoDup (keys C) -> size (index C) = length C.
Proof.
  intros Hnd. unfold index. rewrite map_size_list_to_map by by rewrite index_fst. by rewrite length_fmap.
Qed.

Lemma index_lookup C k a : index C !! k = Some a -> exists C1 v C2, C = C1 ++ (a, (k, v)) :: C2.
Proof.
  intros Hk%elem_of_list_to_map_2. apply list_elem_of_fmap in Hk as ([a' [k' v]] & [= -> ->] & Hc).
  apply list_elem_of_split in Hc as (C1 & C2 & ->). eauto.
Qed.

Lemma index_None C k : index C !! k = None <-> k ∉ keys C.
Proof. rewrite <- index_fst. symmetry. apply not_elem_of_list_to_map. Qed.

Lemma keys_app C1 C2 : keys (C1 ++ C2) = keys C1 ++ keys C2.
Proof. apply fmap_app. Qed.

Lemma keys_split C1 (c : cell) C2 :
  NoDup (keys (C1 ++ c :: C2)) ->
  (c.2.1 ∉ keys C1) /\ (c.2.1 ∉ keys C2) /\ NoDup (keys (C1 ++ C2)).
Proof.
  rewrite !keys_app. cbn. intros (H1 & H2 & [H3 H4]%NoDup_cons)%NoDup_app. split_and!; [|done|].
  - intros Hc. apply (H2 _ Hc). by left.
  - apply NoDup_app. split_and!; [done| |done]. intros k Hk Hk'. apply (H2 _ Hk). by right.
Qed.

Lemma assoc_absent C k : k ∉ keys C -> assoc k C.*2 = None.
Proof.
  induction C as [|[a [k' v]] C IH]; [done|]. cbn. intros [Hk HC]%not_elem_of_cons.
  rewrite (proj2 (String.eqb_neq _ _)) by done. by apply IH.
Qed.

Lemma drop_absent C k : k ∉ keys C -> drop_key k C.*2 = C.*2.
Proof.
  induction C as [|[a [k' v]] C IH]; [done|]. cbn. intros [Hk HC]%not_elem_of_cons.
  rewrite (proj2 (String.eqb_neq _ _)) by done. cbn. f_equal. by apply IH.
Qed.

Lemma assoc_present C1 a k v C2 :
  NoDup (keys (C1 ++ (a, (k, v)) :: C2)) ->
  assoc k (C1 ++ (a, (k, v)) :: C2).*2 = Some v /\
  drop_key k (C1 ++ (a, (k, v)) :: C2).*2 = (C1 ++ C2).*2.
Proof.
  intros (H1 & H2 & _)%keys_split. cbn in H1, H2. split.
  - induction C1 as [|[a' [k' v']] C1 IH]; cbn; [by rewrite String.eqb_refl|].
    cbn in H1. apply not_elem_of_cons in H1 as [Hk H1].
    rewrite (proj2 (String.eqb_neq _ _)) by done. by apply IH.
  - rewrite fmap_app. unfold drop_key. rewrite List.filter_app. cbn. rewrite String.eqb_refl. cbn.
    fold (drop_key k C1.*2) (drop_key k C2.*2). by rewrite !drop_absent, fmap_app.
Qed.

(** Another order of the same cells. *)
Lemma repr_relist s C C' h' hd' en' :
  repr s C -> C' ≡ₚ C -> linked h' hd' en' C'.*1 -> relinks C.*1 (m_heap s) h' ->
  repr (relist s h' hd' en') C'.
Proof.
  intros [_ Hd Hk Hm Hs Hf] HC HA [Hfr Hdat]. split; cbn.
  - done.
  - rewrite HC. eapply Forall_impl; [exact Hd|]. cbn. intros c Hc. by rewrite Hdat.
  - unfold keys. by rewrite HC.
  - rewrite Hm. apply index_perm; [done|]. by rewrite HC.
  - by rewrite Hs, HC.
  - intros a Ha. specialize (Hdat a). unfold data in Hdat. rewrite Hf in Hdat by done.
    by apply fmap_None in Hdat.
Qed.

(** The heap outside the cache, and what becomes of its cells. *)
Definition frame s C s' C' : Prop :=
  (m_fresh s <= m_fresh s')%nat /\ l_Capacity (m_lru s') = l_Capacity (m_lru s) /\
  (forall a, a ∉ C.*1 -> (a < m_fresh s)%nat -> m_heap s' !! a = m_heap s !! a) /\
  (forall a, a ∈ C'.*1 -> a ∈ C.*1 \/ (m_fresh s <= a)%nat).

Lemma frame_refl s C : frame s C s C.
Proof. split_and!; auto. Qed.

Lemma frame_relist s C C' h' hd' en' :
  C' ⊆+ C -> relinks C.*1 (m_heap s) h' -> frame s C (relist s h' hd' en') C'.
Proof.
  intros HC [Hfr _]. split_and!; cbn; [done|done|auto|]. intros a Ha. left.
  apply list_elem_of_fmap in Ha as (c & -> & Hc). apply list_elem_of_fmap_2.
  by eapply elem_of_submseteq.
Qed.

Lemma refresh_repr s C1 x kv C2 :
  repr s (C1 ++ (x, kv) :: C2) ->
  exists s', refreshNode x s = (Ret tt, s') /\ repr s' ((C1 ++ C2) ++ [(x, kv)]) /\
    frame s (C1 ++ (x, kv) :: C2) s' ((C1 ++ C2) ++ [(x, kv)]) /\
    l_Map (m_lru s') = l_Map (m_lru s) /\ data (m_heap s') x = Some kv.
Proof.
  intros Hr. assert ((C1 ++ C2) ++ [(x, kv)] ≡ₚ C1 ++ (x, kv) :: C2) as HC by solve_Permutation.
  pose proof (repr_list _ _ Hr) as HA. rewrite fmap_app in HA. cbn in HA.
  destruct (refreshNode_spec s C1.*1 x C2.*1 HA) as (h' & hd' & en' & Hrun & HA' & Hre).
  assert (relinks (C1 ++ (x, kv) :: C2).*1 (m_heap s) h') as Hre' by by rewrite fmap_app.
  eexists. split_and!; [exact Hrun| | |done|].
  - eapply repr_relist; [done|done| |done]. by rewrite !fmap_app.
  - apply frame_relist; [by rewrite HC|done].
  - cbn. destruct Hre as [_ ->]. pose proof (repr_data _ _ Hr) as Hd.
    apply Forall_app in Hd as [_ [Hd _]%Forall_cons]. done.
Qed.

(** ** The operations *)
Lemma linked_same h h' hd en A :
  (forall a, a ∈ A -> h' !! a = h !! a) -> linked h hd en A -> linked h' hd en A.
Proof.
  intros Hs (Hseg & Hnd & Hhd & Hen & Hin). split_and!; [|done..|].
  - apply (seg_ext h); [| |done].
    + intros l x -> a Ha. unfold nxt. rewrite Hs; [done|]. apply elem_of_app. by left.
    + intros a Ha. unfold prv. rewrite Hs; [done|]. destruct A; [done|by right].
  - intros a Ha. rewrite Hs by done. by apply Hin.
Qed.

Lemma repr_alloc s C a : repr s C -> a ∈ C.*1 -> (a < m_fresh s)%nat.
Proof.
  intros Hr Ha. destruct (repr_list _ _ Hr) as (_ & _ & _ & _ & Hin). destruct (Hin a Ha) as [n Hn].
  destruct (Nat.lt_ge_cases a (m_fresh s)) as [|Hle]; [done|].
  by rewrite (repr_fresh _ _ Hr a Hle) in Hn.
Qed.

(** A representation only depends on the nodes of the cache. *)
Lemma repr_same s C h' f' :
  repr s C -> (m_fresh s <= f')%nat -> (forall a, a ∈ C.*1 -> h' !! a = m_heap s !! a) ->
  (forall a, (f' <= a)%nat -> h' !! a = None) -> repr (Mem h' f' (m_lru s)) C.
Proof.
  intros [HA Hd Hk Hm Hs Hf] Hf' Hh Hn. split; cbn; [|..|exact Hn]; [|  |done|done|done].
  - by eapply linked_same.
  - apply Forall_forall. intros c Hc. rewrite Forall_forall in Hd. rewrite <- (Hd c Hc).
    unfold data. rewrite Hh; [done|]. by apply list_elem_of_fmap_2.
Qed.

Lemma repr_find s C k :
  repr s C ->
  match hamt_Find (l_Map (m_lru s)) k with
  | Some a => exists C1 v C2, C = C1 ++ (a, (k, v)) :: C2
  | None => k ∉ keys C
  end.
Proof.
  intros Hr. rewrite hamt_map_Find, (repr_map _ _ Hr).
  destruct (index C !! k) as [a|] eqn:E; [by apply index_lookup|by apply index_None].
Qed.

Lemma lru_get_spec s C k :
  repr s C -> exists s' C', get k s = (Ret (lru_get k C.*2).1, s') /\ repr s' C' /\
    frame s C s' C' /\ C'.*2 = (lru_get k C.*2).2.
Proof.
  intros Hr. pose proof (repr_find s C k Hr) as Hk. unfold get, bind at 1. cbn [gets fst snd].
  destruct (hamt_Find _ k) as [x|].
  - destruct Hk as (C1 & v & C2 & ->). destruct (assoc_present C1 x k v C2 (repr_keys _ _ Hr)) as [E1 E2].
    destruct (refresh_repr s C1 x (k, v) C2 Hr) as (s' & Hrun & Hr' & Hfr & _ & Hd).
    exists s', ((C1 ++ C2) ++ [(x, (k, v))]). unfold lru_get. rewrite E1, E2. cbn [fst snd].
    split_and!; [|done|done|by rewrite fmap_app].
    unfold bind. rewrite Hrun. unfold data in Hd. apply fmap_Some in Hd as (n & Hn & [= -> ->]).
    by rewrite (load_run s' x n Hn).
  - exists s, C. unfold lru_get. rewrite assoc_absent by done. split_and!; [done..|apply frame_refl|done].
Qed.

(** The entry goes into the map and to the end of the list. *)
Lemma insert_spec (s : mem) C x k v m :
  list_of s C.*1 -> Forall (fun c : cell => data (m_heap s) c.1 = Some c.2) C -> NoDup (keys C) ->
  k ∉ keys C -> x ∉ C.*1 -> data (m_heap s) x = Some (k, v) -> hamt_map m = <[k := x]> (index C) ->
  (forall a, (m_fresh s <= a)%nat -> m_heap s !! a = None) ->
  exists s', (set_lru (set_map m) ;; addNode x ;; set_lru update_size) s = (Ret tt, s') /\
    repr s' (C ++ [(x, (k, v))]) /\ m_fresh s' = m_fresh s /\
    l_Capacity (m_lru s') = l_Capacity (m_lru s) /\
    (forall a, a ∉ (C.*1 ++ [x]) -> m_heap s' !! a = m_heap s !! a).
Proof.
  intros HA Hd Hnd Hk Hx Hdx Hm Hf. unfold bind at 1. cbn [set_lru modify fst snd].
  destruct (addNode_spec (Mem (m_heap s) (m_fresh s) (set_map m (m_lru s))) C.*1 x)
    as (h' & hd' & Hrun & HA' & Hfr & Hdat); [done|done| |].
  { cbn. unfold data in Hdx. apply fmap_Some in Hdx as (n & -> & _). eauto. }
  eexists. split; [unfold bind; rewrite Hrun; reflexivity|]. cbn in *. split_and!; [|done..].
  assert (NoDup (keys (C ++ [(x, (k, v))]))) as Hnd'.
  { rewrite keys_app. apply NoDup_app. split_and!; [done| |apply NoDup_singleton].
    cbn. intros k' Hk' ->%list_elem_of_singleton. done. }
  assert (hamt_map m = index (C ++ [(x, (k, v))])) as Hm'.
  { rewrite Hm. unfold index. rewrite fmap_app. cbn. by rewrite list_to_map_snoc by by rewrite index_fst. }
  split; cbn; [| |done|done| |].
  - by rewrite fmap_app.
  - apply Forall_app. split; [|by rewrite Forall_singleton; cbn; rewrite Hdat].
    eapply Forall_impl; [exact Hd|]. cbn. intros c Hc. by rewrite Hdat.
  - by rewrite hamt_map_Size, Hm', size_index.
  - intros a Ha. specialize (Hdat a). unfold data in Hdat. rewrite Hf in Hdat by done.
    by apply fmap_None in Hdat.
Qed.

Lemma repr_length s C : repr s C -> hamt_Size (l_Map (m_lru s)) = Z.of_nat (length C).
Proof. intros Hr. rewrite hamt_map_Size, (repr_map _ _ Hr). by rewrite size_index by apply (repr_keys _ _ Hr). Qed.

Lemma index_delete C1 (c : cell) C2 :
  NoDup (keys (C1 ++ c :: C2)) -> delete c.2.1 (index (C1 ++ c :: C2)) = index (C1 ++ C2).
Proof.
  intros Hnd. rewrite (index_perm _ (c :: C1 ++ C2)) by (done || solve_Permutation).
  cbn. apply delete_insert_id. apply index_None. apply keys_split in Hnd as (H1 & H2 & _).
  rewrite keys_app, elem_of_app. tauto.
Qed.

(** The state after [new] represents the same cache. *)
Lemma repr_new s C n :
  repr s C -> repr (Mem (<[m_fresh s := n]> (m_heap s)) (S (m_fresh s)) (m_lru s)) C.
Proof.
  intros Hr. apply repr_same; [done|lia| |].
  - intros a Ha. pose proof (repr_alloc _ _ _ Hr Ha). rewrite lookup_insert_ne; [done|lia].
  - intros a Ha. rewrite lookup_insert_ne by lia. apply (repr_fresh _ _ Hr). lia.
Qed.

(** The cache after the node of a new entry was allocated. *)
Definition with_node (s : mem) k (v : value) : mem :=
  Mem (<[m_fresh s := MkNode k v None None]> (m_heap s)) (S (m_fresh s)) (m_lru s).

Lemma put_absent_unfold (s : mem) k v :
  hamt_Find (l_Map (m_lru s)) k = None ->
  put k v s =
  ((if (0 <? l_Capacity (m_lru s)) && (l_Capacity (m_lru s) <=? hamt_Size (l_Map (m_lru s))) then
      oldKey <- removeNode (l_head (m_lru s)) ;;
      set_lru (fun l => set_map (hamt_Insert (hamt_Delete (l_Map l) oldKey) k (m_fresh s)) l)
    else set_lru (fun l => set_map (hamt_Insert (l_Map l) k (m_fresh s)) l)) ;;
   addNode (m_fresh s) ;;
   set_lru update_size) (with_node s k v).
Proof. intros Hf. unfold put. unfold bind at 1. cbn [gets]. by rewrite Hf. Qed.

Section PutAbsent.
Context (s : mem) (C : list cell) (k : string) (v : value) (Hr : repr s C) (Hk : k ∉ keys C).

Lemma absent_find : hamt_Find (l_Map (m_lru s)) k = None.
Proof. by rewrite hamt_map_Find, (repr_map _ _ Hr), index_None. Qed.

Lemma absent_new : repr (with_node s k v) C /\ (m_fresh s ∉ C.*1) /\
  data (m_heap (with_node s k v)) (m_fresh s) = Some (k, v).
Proof.
  split_and!.
  - apply (repr_new _ _ _ Hr).
  - intros Hx%(repr_alloc _ _ _ Hr). lia.
  - unfold data. cbn. by rewrite lookup_insert_eq.
Qed.

(** The frame of an insertion, for the cells [C'] that were kept. *)
Lemma absent_frame C' s' :
  C' ⊆+ C -> m_fresh s' = S (m_fresh s) -> l_Capacity (m_lru s') = l_Capacity (m_lru s) ->
  (forall a, a ∉ C.*1 ++ [m_fresh s] -> m_heap s' !! a = m_heap (with_node s k v) !! a) ->
  frame s C s' (C' ++ [(m_fresh s, (k, v))]).
Proof.
  intros HC Hf Hc Hh. split_and!; [lia|done| |].
  - intros a Ha Hlt. rewrite Hh; cbn; [by rewrite lookup_insert_ne by lia|].
    rewrite elem_of_app, list_elem_of_singleton. intros [|]; [done|lia].
  - intros a. rewrite fmap_app, elem_of_app. cbn. rewrite list_elem_of_singleton.
    intros [Ha| ->]; [left|by right].
    apply list_elem_of_fmap in Ha as (c & -> & Hcin). apply list_elem_of_fmap_2.
    by eapply elem_of_submseteq.
Qed.

Lemma put_grow_spec :
  (0 <? l_Capacity (m_lru s)) && (l_Capacity (m_lru s) <=? Z.of_nat (length C)) = false ->
  exists s' C', put k v s = (Ret tt, s') /\ repr s' C' /\ frame s C s' C' /\ C'.*2 = C.*2 ++ [(k, v)].
Proof.
  intros Ecap. destruct absent_new as (Hr1 & Hx & Hdx).
  rewrite put_absent_unfold, (repr_length _ _ Hr), Ecap by apply absent_find.
  destruct (insert_spec (with_node s k v) C (m_fresh s) k v
    (hamt_Insert (l_Map (m_lru s)) k (m_fresh s))) as (s' & Hrun & Hr' & Hf & Hc & Hh);
    [apply Hr1|apply Hr1|apply Hr1|done|done|done| |apply Hr1|].
  { by rewrite hamt_map_Insert, (repr_map _ _ Hr). }
  exists s', (C ++ [(m_fresh s, (k, v))]).
  split_and!; [exact Hrun|done|by apply absent_frame|by rewrite fmap_app].
Qed.

Lemma put_replace_spec c C0 :
  (0 <? l_Capacity (m_lru s)) && (l_Capacity (m_lru s) <=? Z.of_nat (length C)) = true ->
  C = c :: C0 -> C0 <> [] ->
  exists s' C', put k v s = (Ret tt, s') /\ repr s' C' /\ frame s C s' C' /\ C'.*2 = C0.*2 ++ [(k, v)].
Proof.
  intros Ecap HC HC0. destruct absent_new as (Hr1 & Hx & Hdx).
  rewrite put_absent_unfold, (repr_length _ _ Hr), Ecap by apply absent_find.
  pose proof (repr_data _ _ Hr1) as Hd. rewrite HC in Hd. apply Forall_cons in Hd as [Hc Hd].
  unfold data in Hc. apply fmap_Some in Hc as (n & Hn & Hc).
  pose proof (repr_list _ _ Hr1) as HA. rewrite HC in HA. cbn [fmap list_fmap] in HA.
  destruct (removeNode_spec (with_node s k v) [] c.1 C0.*1 n HA) as (h' & hd' & en' & Hrun & HA' & Hre & Hdat);
    [by destruct C0|done|].
  pose proof HA as (_ & _ & Hhd & _). cbn in Hhd.
  pose proof (repr_keys _ _ Hr) as Hnd. pose proof (repr_map _ _ Hr) as Hm. rewrite HC in Hnd, Hm.
  pose proof (keys_split [] c C0 Hnd) as (_ & _ & Hnd0). cbn in Hnd0.
  assert (k ∉ keys C0) as Hk0 by (intros Hk'; apply Hk; rewrite HC; by right).
  destruct (insert_spec (relist (with_node s k v) h' hd' en') C0 (m_fresh s) k v
    (hamt_Insert (hamt_Delete (l_Map (m_lru s)) (n_Key n)) k (m_fresh s)))
    as (s' & Hrun' & Hr' & Hf & Hcap & Hh); [exact HA'| |done|done| | | | |].
  - eapply Forall_impl; [exact Hd|]. intros c' Hc'. cbn. by rewrite Hdat.
  - intros Hx'. apply Hx. rewrite HC. by right.
  - cbn. by rewrite Hdat.
  - assert (n_Key n = c.2.1) as -> by by rewrite Hc.
    rewrite hamt_map_Insert, hamt_map_Delete, Hm. f_equal. exact (index_delete [] c C0 Hnd).
  - intros a Ha. specialize (Hdat a). unfold data in Hdat.
    rewrite (repr_fresh _ _ Hr1 a Ha) in Hdat. by apply fmap_None in Hdat.
  - exists s', (C0 ++ [(m_fresh s, (k, v))]). split_and!; [|done| |by rewrite fmap_app].
    + unfold bind at 1 2. rewrite Hhd, Hrun. exact Hrun'.
    + apply absent_frame; [rewrite HC; by apply submseteq_cons|done|done|].
      intros a Ha. cbn in Hh. rewrite Hh.
      * apply Hre. intros Ha'. apply Ha. rewrite HC. apply elem_of_app. by left.
      * intros [Ha'|Ha']%elem_of_app; apply Ha; rewrite HC; apply elem_of_app; [left; by right|by right].
Qed.
End PutAbsent.

Lemma linked_set_value h hd en A v x :
  linked h hd en A -> linked (alter (with_value v) x h) hd en A.
Proof.
  assert (forall a, nxt (alter (with_value v) x h) a = nxt h a /\ prv (alter (with_value v) x h) a = prv h a)
    as Hsame.
  { intros a. unfold nxt, prv. destruct (decide (x = a)) as [->|Hne]; [|by rewrite !alter_ne].
    rewrite alter_eq. by destruct (h !! a). }
  intros (Hseg & Hnd & Hhd & Hen & Hin). split_and!; [|done..|].
  - apply (seg_ext h); [| |done]; intros; apply Hsame.
  - intros a Ha. rewrite is_Some_alter. by apply Hin.
Qed.

Section PutPresent.
Context (s : mem) (C1 C2 : list cell) (x : addr) (k : string) (v0 v : value).
Context (Hr : repr s (C1 ++ (x, (k, v0)) :: C2)).

Definition revalued : mem := Mem (alter (with_value v) x (m_heap s)) (m_fresh s) (m_lru s).

Lemma present_in c : (C1 ++ (x, c) :: C2).*1 = C1.*1 ++ x :: C2.*1.
Proof. by rewrite fmap_app. Qed.

Lemma present_find : hamt_Find (l_Map (m_lru s)) k = Some x.
Proof.
  rewrite hamt_map_Find, (repr_map _ _ Hr). apply elem_of_list_to_map_1; [rewrite index_fst; apply Hr|].
  rewrite fmap_app. apply elem_of_app. right. by left.
Qed.

Lemma present_data c : c ∈ C1 ++ C2 -> c.1 <> x.
Proof.
  intros Hc E. pose proof (repr_list _ _ Hr) as (_ & Hnd & _). rewrite present_in in Hnd.
  apply NoDup_app in Hnd as (_ & Hd & [Hx _]%NoDup_cons).
  apply elem_of_app in Hc as [Hc|Hc].
  - apply (Hd x); [|by left]. rewrite <- E. by apply list_elem_of_fmap_2.
  - apply Hx. rewrite <- E. by apply list_elem_of_fmap_2.
Qed.

Lemma revalued_repr : repr revalued (C1 ++ (x, (k, v)) :: C2).
Proof.
  destruct Hr as [HA Hd Hk Hm Hs Hf]. rewrite present_in in HA. split; cbn.
  - rewrite present_in. by apply linked_set_value.
  - apply Forall_app in Hd as [Hd1 [Hx Hd2]%Forall_cons].
    assert (forall c, c ∈ C1 ++ C2 -> data (alter (with_value v) x (m_heap s)) c.1 = data (m_heap s) c.1)
      as Hsame by (intros c Hc%present_data; unfold data; by rewrite alter_ne).
    apply Forall_app; split; [|apply Forall_cons; split].
    + apply Forall_forall. intros c Hc. rewrite Hsame by (apply elem_of_app; by left).
      by eapply Forall_forall in Hd1.
    + unfold data in *. cbn in *. rewrite alter_eq. apply fmap_Some in Hx as (n & -> & [= -> ->]). done.
    + apply Forall_forall. intros c Hc. rewrite Hsame by (apply elem_of_app; by right).
      by eapply Forall_forall in Hd2.
  - by rewrite keys_app in *.
  - rewrite Hm. unfold index. by rewrite !fmap_app.
  - rewrite Hs. by rewrite !length_app.
  - intros a Ha. apply eq_None_not_Some. rewrite is_Some_alter. rewrite Hf by done. by intros [].
Qed.

Lemma put_present_spec :
  exists s', put k v s = (Ret tt, s') /\ repr s' ((C1 ++ C2) ++ [(x, (k, v))]) /\
    frame s (C1 ++ (x, (k, v0)) :: C2) s' ((C1 ++ C2) ++ [(x, (k, v))]).
Proof.
  destruct (refresh_repr revalued C1 x (k, v) C2 revalued_repr)
    as (s1 & Hrun & Hr1 & (Hf1 & Hc1 & Hh1 & Ha1) & HM & _).
  exists (Mem (m_heap s1) (m_fresh s1)
    (update_size (set_map (hamt_Insert (l_Map (m_lru s1)) k x) (m_lru s1)))).
  assert (is_Some (m_heap s !! x)) as Hsx.
  { apply (repr_list _ _ Hr). rewrite present_in. apply elem_of_app. right. by left. }
  assert (<[k := x]> (index ((C1 ++ C2) ++ [(x, (k, v))])) = index ((C1 ++ C2) ++ [(x, (k, v))])) as Hins.
  { apply insert_id. apply elem_of_list_to_map_1; [rewrite index_fst; apply Hr1|].
    rewrite fmap_app. apply elem_of_app. right. by left. }
  split_and!.
  - unfold put, bind at 1. cbn [gets]. rewrite present_find.
    unfold bind at 1. rewrite store_run by done. fold revalued.
    unfold bind at 1. rewrite Hrun. done.
  - destruct Hr1 as [HA Hd Hk Hm Hs Hf]. split; cbn; [done|done|done| | |done].
    + by rewrite hamt_map_Insert, Hm.
    + by rewrite hamt_map_Size, hamt_map_Insert, Hm, Hins, size_index.
  - unfold frame. rewrite (present_in (k, v0)). rewrite (present_in (k, v)) in Hh1, Ha1.
    split_and!; [done|done| |exact Ha1].
    intros a Ha Hlt. cbn. rewrite Hh1 by done. cbn. apply alter_ne. intros ->.
    apply Ha, elem_of_app. right. by left.
Qed.
End PutPresent.

Lemma evict_present_spec s C1 x k v C2 :
  repr s (C1 ++ (x, (k, v)) :: C2) -> C1 ++ C2 <> [] ->
  exists s', evict k s = (Ret tt, s') /\ repr s' (C1 ++ C2) /\
    frame s (C1 ++ (x, (k, v)) :: C2) s' (C1 ++ C2).
Proof.
  intros Hr Hne. pose proof (repr_keys _ _ Hr) as Hnd.
  pose proof (repr_data _ _ Hr) as [Hd1 [Hx Hd2]%Forall_cons]%Forall_app.
  unfold data in Hx. apply fmap_Some in Hx as (n & Hn & Hkv). cbn in Hkv.
  pose proof (repr_list _ _ Hr) as HA. rewrite present_in in HA.
  destruct (removeNode_spec s C1.*1 x C2.*1 n HA) as (h' & hd' & en' & Hrun & HA' & Hre);
    [rewrite <- fmap_app; by intros ?%fmap_nil_inv|done|].
  pose proof (proj2 Hre) as Hdat.
  eexists. split_and!.
  - unfold evict. unfold bind at 1. cbn [gets]. rewrite (present_find s C1 C2 x k v Hr).
    unfold bind at 1. rewrite Hrun. reflexivity.
  - assert (hamt_map (hamt_Delete (l_Map (m_lru s)) (n_Key n)) = index (C1 ++ C2)) as Hm.
    { assert (n_Key n = k) as -> by congruence. rewrite hamt_map_Delete, (repr_map _ _ Hr).
      exact (index_delete C1 (x, (k, v)) C2 Hnd). }
    apply keys_split in Hnd as (_ & _ & Hnd). split; cbn; [by rewrite fmap_app| |done|done| |].
    + apply Forall_app. split; (eapply Forall_impl; [eassumption|]); intros c Hc; cbn; by rewrite Hdat.
    + by rewrite hamt_map_Size, Hm, size_index.
    + intros a Ha. specialize (Hdat a). unfold data in Hdat.
      rewrite (repr_fresh _ _ Hr a Ha) in Hdat. by apply fmap_None in Hdat.
  - rewrite <- (present_in C1 C2 x (k, v)) in Hre.
    destruct (frame_relist s (C1 ++ (x, (k, v)) :: C2) (C1 ++ C2) h' hd' en') as (F1 & F2 & F3 & F4);
      [solve_submseteq|done|]. by split_and!.
Qed.

(** ** Operations in sequence *)
Inductive op := OGet (k : string) | OPut (k : string) (v : value) | OEvict (k : string).

Definition run_op (o : op) : GoM mem value :=
  match o with
  | OGet k => get k
  | OPut k v => put k v ;; ret None
  | OEvict k => evict k ;; ret None
  end.
Definition lru_op (capacity : Z) (o : op) (l : entries) : value * entries :=
  match o with
  | OGet k => lru_get k l
  | OPut k v => (None, lru_put capacity k v l)
  | OEvict k => (None, drop_key k l)
  end.

(** The operation does not unlink the only node of the list. *)
Definition op_ok (capacity : Z) (o : op) (l : entries) : bool :=
  match o with
  | OGet k => true
  | OPut k _ => match assoc k l with
                | Some _ => true
                | None => negb ((capacity =? 1) && (Z.of_nat (length l) =? 1))
                end
  | OEvict k => match assoc k l with
                | Some _ => negb (Z.of_nat (length l) =? 1)
                | None => true
                end
  end.

Lemma op_spec s C o :
  repr s C -> op_ok (l_Capacity (m_lru s)) o C.*2 = true ->
  exists s' C', run_op o s = (Ret (lru_op (l_Capacity (m_lru s)) o C.*2).1, s') /\ repr s' C' /\
    frame s C s' C' /\ C'.*2 = (lru_op (l_Capacity (m_lru s)) o C.*2).2.
Proof.
  intros Hr Hok. pose proof (repr_find s C (match o with OGet k | OPut k _ | OEvict k => k end) Hr) as Hf.
  destruct o as [k|k v|k]; cbn [run_op lru_op op_ok] in *; [by apply lru_get_spec|..].
  - unfold lru_put, bind. destruct (hamt_Find _ k) as [x|].
    + destruct Hf as (C1 & v0 & C2 & ->). destruct (assoc_present C1 x k v0 C2 (repr_keys _ _ Hr)) as [E1 E2].
      destruct (put_present_spec s C1 C2 x k v0 v Hr) as (s' & -> & Hr' & Hfr).
      rewrite E1, E2. eexists _, _. split_and!; [done..|]. by rewrite fmap_app.
    + rewrite (assoc_absent C k Hf) in *. rewrite length_fmap in *.
      destruct ((0 <? _) && _) eqn:Ecap.
      * destruct C as [|c [|c' C0]].
        { cbn in Ecap. apply andb_prop in Ecap as [?%Z.ltb_lt ?%Z.leb_le]. lia. }
        { apply andb_prop in Ecap as [?%Z.ltb_lt ?%Z.leb_le]. cbn in *.
          rewrite (proj2 (Z.eqb_eq _ 1)) in Hok by lia. done. }
        destruct (put_replace_spec s _ k v Hr Hf c (c' :: C0) Ecap eq_refl) as (s' & C' & -> & Hr' & Hfr & HC);
          [done|]. by exists s', C'.
      * destruct (put_grow_spec s C k v Hr Hf Ecap) as (s' & C' & -> & Hr' & Hfr & HC). by exists s', C'.
  - unfold bind. destruct (hamt_Find _ k) as [x|] eqn:Ef.
    + destruct Hf as (C1 & v0 & C2 & ->). destruct (assoc_present C1 x k v0 C2 (repr_keys _ _ Hr)) as [E1 E2].
      rewrite E1 in Hok. destruct (evict_present_spec s C1 x k v0 C2 Hr) as (s' & -> & Hr' & Hfr).
      { intros [-> ->]%app_eq_nil. done. }
      rewrite E2. by eexists _, _.
    + unfold evict, bind at 1. cbn [gets]. rewrite Ef. cbn.
      rewrite (drop_absent C k Hf). exists s, C. split_and!; [done..|apply frame_refl|done].
Qed.

(** ** The cache service: caches by name, over one heap *)
Record LruCacheSvc := MkLruCacheSvc {
  cs_heap : gmap addr Node;
  cs_fresh : addr;
  cs_Caches : gmap string LruCache
}.

(** A method of the cache [name]; a method of nil panics. *)
Definition in_cache {R} (name : string) (m : GoM mem R) : GoM LruCacheSvc R := fun s =>
  match cs_Caches s !! name with
  | None => (Panic, s)
  | Some l =>
      let '(o, s') := m (Mem (cs_heap s) (cs_fresh s) l) in
      (o, MkLruCacheSvc (m_heap s') (m_fresh s') (<[name := m_lru s']> (cs_Caches s)))
  end.

Definition NewLruCacheSvc : LruCacheSvc := MkLruCacheSvc ∅ 0 ∅.

Definition not_found (name : string) : error :=
  Wrapf ErrNotFound ("the cache [" +:+ name +:+ "] not found").

Definition svc_CreateCache (name : string) (capacity : Z) : GoM LruCacheSvc unit :=
  caches <- gets cs_Caches ;;
  match caches !! name with
  | Some _ => fail (Wrapf ErrConflictName ("the cache [" +:+ name +:+ "] is existing already"))
  | None => modify (fun s => MkLruCacheSvc (cs_heap s) (cs_fresh s)
                               (<[name := CreateLruCache capacity]> (cs_Caches s)))
  end.

Definition svc_Get (name key : string) : GoM LruCacheSvc value :=
  caches <- gets cs_Caches ;;
  match caches !! name with
  | None => fail (not_found name)
  | Some _ => in_cache name (get key)
  end.

Definition svc_Put (name key : string) (v : value) : GoM LruCacheSvc unit := in_cache name (put key v).
Definition svc_Evict (name key : string) : GoM LruCacheSvc unit := in_cache name (evict key).

Definition svc_GetCapacity (name : string) : GoM LruCacheSvc Z :=
  gets (fun s => match cs_Caches s !! name with Some l => l_Capacity l | None => 0 end).
Definition svc_GetSize (name : string) : GoM LruCacheSvc Z :=
  gets (fun s => match cs_Caches s !! name with Some l => l_Size l | None => 0 end).

Definition set_capacity (capacity : Z) (l : LruCache) : LruCache :=
  MkLruCache capacity (l_Size l) (l_head l) (l_end l) (l_Map l).

(** The loop of [ReSize]: the map without the key is not assigned. *)
Fixpoint shrink (fuel : nat) : GoM mem unit :=
  match fuel with
  | O => out_of_fuel
  | S fuel' =>
      l <- gets m_lru ;;
      if hamt_Size (l_Map l) <=? l_Capacity l then ret tt else
      removeNode (l_head l) ;;
      shrink fuel'
  end.

Definition svc_ReSize (fuel : nat) (name : string) (capacity : Z) : GoM LruCacheSvc unit :=
  caches <- gets cs_Caches ;;
  match caches !! name with
  | None => fail (not_found name)
  | Some l =>
      if (capacity =? -1) || (l_Capacity l <=? capacity) then
        in_cache name (set_lru (set_capacity capacity))
      else in_cache name (shrink fuel)
  end.

(** *** The abstract service *)
Abbreviation acaches := (gmap string (Z * entries)).
Implicit Types ac : acaches.

Inductive sop :=
| SCreate (name : string) (capacity : Z)
| SGet (name key : string)
| SPut (name key : string) (v : value)
| SEvict (name key : string)
| SReSize (name : string) (capacity : Z).

Definition run_sop (fuel : nat) (o : sop) : GoM LruCacheSvc value :=
  match o with
  | SCreate name capacity => svc_CreateCache name capacity ;; ret None
  | SGet name key => svc_Get name key
  | SPut name key v => svc_Put name key v ;; ret None
  | SEvict name key => svc_Evict name key ;; ret None
  | SReSize name capacity => svc_ReSize fuel name capacity ;; ret None
  end.

Definition sop_name (o : sop) : string :=
  match o with SCreate n _ | SGet n _ | SPut n _ _ | SEvict n _ | SReSize n _ => n end.

(** The operation of a cache that an operation of the service is. *)
Definition cache_op (o : sop) : option op :=
  match o with
  | SGet _ k => Some (OGet k)
  | SPut _ k v => Some (OPut k v)
  | SEvict _ k => Some (OEvict k)
  | _ => None
  end.

(** Growing sets the capacity; shrinking does nothing. *)
Definition aresize (capacity cap : Z) : Z :=
  if (capacity =? -1) || (cap <=? capacity) then capacity else cap.

Definition lru_sop (o : sop) ac : (value + error) * acaches :=
  match ac !! sop_name o, cache_op o with
  | Some (cap, l), Some o' => let r := lru_op cap o' l in (inl r.1, <[sop_name o := (cap, r.2)]> ac)
  | None, Some _ => (inr (not_found (sop_name o)), ac)
  | Some (cap, l), None =>
      match o with
      | SCreate name _ => (inr (Wrapf ErrConflictName ("the cache [" +:+ name +:+ "] is existing already")), ac)
      | SReSize name capacity => (inl None, <[name := (aresize capacity cap, l)]> ac)
      | _ => (inl None, ac)
      end
  | None, None =>
      match o with
      | SCreate name capacity => (inl None, <[name := (capacity, [])]> ac)
      | _ => (inr (not_found (sop_name o)), ac)
      end
  end.

(** Put and Evict need the cache; a cache that is made smaller is not over its
    capacity; no operation unlinks the only node of a list. *)
Definition sop_ok (o : sop) ac : bool :=
  match o, ac !! sop_name o with
  | SPut _ _ _, None | SEvict _ _, None => false
  | SReSize _ capacity, Some (cap, l) =>
      (capacity =? -1) || (cap <=? capacity) || (Z.of_nat (length l) <=? cap)
  | _, Some (cap, l) => match cache_op o with Some o' => op_ok cap o' l | None => true end
  | _, None => true
  end.

(** *** Refinement of the service *)
Definition at_cache (s : LruCacheSvc) (l : LruCache) : mem := Mem (cs_heap s) (cs_fresh s) l.

(** The cells of each cache: the caches share no node. *)
Record svc_repr (s : LruCacheSvc) (Cs : gmap string (list cell)) ac : Prop := {
  sr_cache name :
    match cs_Caches s !! name, Cs !! name, ac !! name with
    | Some l, Some C, Some (cap, es) => repr (at_cache s l) C /\ l_Capacity l = cap /\ C.*2 = es
    | None, None, None => True
    | _, _, _ => False
    end;
  sr_disjoint n1 n2 C1 C2 :
    n1 <> n2 -> Cs !! n1 = Some C1 -> Cs !! n2 = Some C2 -> forall a, a ∈ C1.*1 -> a ∉ C2.*1;
  sr_fresh a : (cs_fresh s <= a)%nat -> cs_heap s !! a = None
}.

Lemma sr_some s Cs ac name l :
  svc_repr s Cs ac -> cs_Caches s !! name = Some l ->
  exists C, Cs !! name = Some C /\ ac !! name = Some (l_Capacity l, C.*2) /\ repr (at_cache s l) C.
Proof.
  intros Hr E. pose proof (sr_cache _ _ _ Hr name) as Hn. rewrite E in Hn.
  destruct (Cs !! name) as [C|], (ac !! name) as [[cap es]|]; [|done..].
  destruct Hn as (Hn & <- & <-). eauto.
Qed.

Lemma sr_none s Cs ac name : svc_repr s Cs ac -> cs_Caches s !! name = None -> ac !! name = None.
Proof.
  intros Hr E. pose proof (sr_cache _ _ _ Hr name) as Hn. rewrite E in Hn.
  by destruct (Cs !! name), (ac !! name) as [[]|].
Qed.

(** One cache changes, within its own nodes and new ones. *)
Lemma sr_update s Cs ac name l C m' C' cap es :
  svc_repr s Cs ac -> cs_Caches s !! name = Some l -> Cs !! name = Some C ->
  repr m' C' -> l_Capacity (m_lru m') = cap -> C'.*2 = es ->
  (cs_fresh s <= m_fresh m')%nat ->
  (forall a, a ∉ C.*1 -> (a < cs_fresh s)%nat -> m_heap m' !! a = cs_heap s !! a) ->
  (forall a, a ∈ C'.*1 -> a ∈ C.*1 \/ (cs_fresh s <= a)%nat) ->
  svc_repr (MkLruCacheSvc (m_heap m') (m_fresh m') (<[name := m_lru m']> (cs_Caches s)))
    (<[name := C']> Cs) (<[name := (cap, es)]> ac).
Proof.
  intros Hr El EC Hr' Hcap Hes Hf Hh Ha.
  assert (forall n2 C2 l2, n2 <> name -> Cs !! n2 = Some C2 -> repr (at_cache s l2) C2 ->
    forall a, a ∈ C2.*1 -> a ∉ C'.*1) as Hdis.
  { intros n2 C2 l2 Hne E2 Hr2 a Ha2 [Ha'|Ha']%Ha.
    - by eapply (sr_disjoint _ _ _ Hr n2 name).
    - apply (repr_alloc _ _ _ Hr2) in Ha2. cbn in Ha2. lia. }
  split; cbn.
  - intros n2. destruct (decide (name = n2)) as [<-|Hne].
    { rewrite !lookup_insert_eq. split; [by destruct m'|by split]. }
    rewrite !lookup_insert_ne by done. generalize (sr_cache _ _ _ Hr n2).
    destruct (cs_Caches s !! n2) as [l2|] eqn:E2, (Cs !! n2) as [C2|] eqn:EC2,
      (ac !! n2) as [[cap2 es2]|]; try done.
    intros (Hr2 & Hc2 & He2). split; [|done].
    apply (repr_same (at_cache s l2) C2 (m_heap m') (m_fresh m') Hr2); [done| |apply Hr'].
    intros a Ha2. apply Hh; [|by apply (repr_alloc _ _ _ Hr2)].
    by eapply (sr_disjoint _ _ _ Hr n2 name).
  - intros n1 n2 C1 C2 Hne E1 E2 a Ha1 Ha2. destruct (decide (name = n1)) as [<-|Hn1].
    + rewrite lookup_insert_eq in E1. injection E1 as <-. rewrite lookup_insert_ne in E2 by done.
      pose proof (sr_cache _ _ _ Hr n2) as Hn2. rewrite E2 in Hn2.
      destruct (cs_Caches s !! n2) as [l2|], (ac !! n2) as [[]|]; try done.
      eapply (Hdis n2); [done|done|apply Hn2|exact Ha2|exact Ha1].
    + rewrite lookup_insert_ne in E1 by done. destruct (decide (name = n2)) as [<-|Hn2].
      * rewrite lookup_insert_eq in E2. injection E2 as <-.
        pose proof (sr_cache _ _ _ Hr n1) as Hn1'. rewrite E1 in Hn1'.
        destruct (cs_Caches s !! n1) as [l1|], (ac !! n1) as [[]|]; try done.
        eapply (Hdis n1); [done|done|apply Hn1'|exact Ha1|exact Ha2].
      * rewrite lookup_insert_ne in E2 by done. by eapply (sr_disjoint _ _ _ Hr n1 n2).
  - apply Hr'.
Qed.

Lemma in_cache_run {R} (s : LruCacheSvc) name l (m : GoM mem R) o m' :
  cs_Caches s !! name = Some l -> m (at_cache s l) = (o, m') ->
  in_cache name m s = (o, MkLruCacheSvc (m_heap m') (m_fresh m') (<[name := m_lru m']> (cs_Caches s))).
Proof. intros E Hm. unfold in_cache. rewrite E. fold (at_cache s l). by rewrite Hm. Qed.

(** An operation of a cache, in the service. *)
Lemma cache_op_spec s Cs ac name l o :
  svc_repr s Cs ac -> cs_Caches s !! name = Some l ->
  (forall cap es, ac !! name = Some (cap, es) -> op_ok cap o es = true) ->
  exists cap es s' Cs', ac !! name = Some (cap, es) /\
    in_cache name (run_op o) s = (Ret (lru_op cap o es).1, s') /\
    svc_repr s' Cs' (<[name := (cap, (lru_op cap o es).2)]> ac).
Proof.
  intros Hr El Hok. destruct (sr_some _ _ _ _ _ Hr El) as (C & EC & Ea & Hrep).
  destruct (op_spec (at_cache s l) C o Hrep (Hok _ _ Ea)) as (m' & C' & Hrun & Hr' & (F1 & F2 & F3 & F4) & HC').
  eexists _, _, _, _. split_and!; [done|by apply (in_cache_run _ _ l)|].
  eapply sr_update; [done|done|exact EC|done|done|done|done|exact F3|exact F4].
Qed.

Lemma create_spec s Cs ac name capacity :
  svc_repr s Cs ac -> cs_Caches s !! name = None ->
  svc_repr (MkLruCacheSvc (cs_heap s) (cs_fresh s) (<[name := CreateLruCache capacity]> (cs_Caches s)))
    (<[name := []]> Cs) (<[name := (capacity, [])]> ac).
Proof.
  intros Hr E. split; cbn; [| |apply Hr].
  - intros n. destruct (decide (name = n)) as [<-|Hne].
    + rewrite !lookup_insert_eq. split; [|done]. split; cbn; [| |apply NoDup_nil_2| | |apply Hr].
      * split_and!; [done|apply NoDup_nil_2|done|done|]. by intros a ?%elem_of_nil.
      * done.
      * apply hamt_map_New.
      * rewrite hamt_map_Size, hamt_map_New. done.
    + rewrite !lookup_insert_ne by done. exact (sr_cache _ _ _ Hr n).
  - intros n1 n2 C1 C2 Hne E1 E2 a Ha1 Ha2.
    apply lookup_insert_Some in E1 as [[_ <-]|[_ E1]]; [by apply elem_of_nil in Ha1|].
    apply lookup_insert_Some in E2 as [[_ <-]|[_ E2]]; [by apply elem_of_nil in Ha2|].
    by eapply (sr_disjoint _ _ _ Hr n1 n2).
Qed.

(** A resize changes at most the capacity. *)
Lemma resize_spec s Cs ac name l C capacity :
  svc_repr s Cs ac -> cs_Caches s !! name = Some l -> Cs !! name = Some C ->
  repr (at_cache s l) C ->
  svc_repr (MkLruCacheSvc (cs_heap s) (cs_fresh s) (<[name := set_capacity capacity l]> (cs_Caches s)))
    (<[name := C]> Cs) (<[name := (capacity, C.*2)]> ac).
Proof.
  intros Hr El EC Hrep. apply (sr_update s Cs ac name l C (at_cache s (set_capacity capacity l)) C);
    [done|done|done| |done|done|done|done|auto].
  destruct Hrep. by split.
Qed.

Lemma shrink_fits (m : mem) C fuel : repr m C -> Z.of_nat (length C) <= l_Capacity (m_lru m) ->
  shrink (S fuel) m = (Ret tt, m).
Proof.
  intros Hr Hle. cbn [shrink]. unfold bind at 1. cbn [gets].
  by rewrite (repr_length _ _ Hr), (proj2 (Z.leb_le _ _)).
Qed.

Lemma in_cache_then name (m : GoM mem unit) s :
  in_cache name (m ;; ret (None : value)) s = (in_cache name m ;; ret None) s.
Proof.
  unfold in_cache, bind. destruct (cs_Caches s !! name); [|done]. by destruct (m _) as [[] ?].
Qed.

(** One operation of the service. *)
Lemma sop_spec s Cs ac o fuel :
  svc_repr s Cs ac -> sop_ok o ac = true ->
  exists s' Cs', attempt (run_sop (S fuel) o) s = (Ret (lru_sop o ac).1, s') /\
    svc_repr s' Cs' (lru_sop o ac).2.
Proof.
  intros Hr Hok. destruct (cs_Caches s !! sop_name o) as [l|] eqn:El.
  - destruct (sr_some _ _ _ _ _ Hr El) as (C & EC & Ea & Hrep).
    unfold lru_sop. rewrite Ea. destruct o as [name cap|name k|name k v|name k|name cap];
      cbn [sop_name cache_op run_sop] in *.
    + exists s, Cs. unfold attempt, svc_CreateCache, bind. cbn. by rewrite El.
    + destruct (cache_op_spec s Cs ac name l (OGet k) Hr El) as (cap & es & s' & Cs' & Ea' & Hrun & Hr'); [done|].
      exists s', Cs'. unfold attempt, svc_Get, bind. cbn. rewrite El. cbn in Hrun. rewrite Hrun.
      rewrite Ea in Ea'. by injection Ea' as <- <-.
    + destruct (cache_op_spec s Cs ac name l (OPut k v) Hr El) as (cap & es & s' & Cs' & Ea' & Hrun & Hr').
      { unfold sop_ok in Hok. cbn in Hok. rewrite Ea in Hok. intros cap es. rewrite Ea. by intros [= <- <-]. }
      exists s', Cs'. rewrite Ea in Ea'. injection Ea' as <- <-. split; [|done].
      cbn [run_op] in Hrun. rewrite in_cache_then in Hrun. unfold attempt, svc_Put. by rewrite Hrun.
    + destruct (cache_op_spec s Cs ac name l (OEvict k) Hr El) as (cap & es & s' & Cs' & Ea' & Hrun & Hr').
      { unfold sop_ok in Hok. cbn in Hok. rewrite Ea in Hok. intros cap es. rewrite Ea. by intros [= <- <-]. }
      exists s', Cs'. rewrite Ea in Ea'. injection Ea' as <- <-. split; [|done].
      cbn [run_op] in Hrun. rewrite in_cache_then in Hrun. unfold attempt, svc_Evict. by rewrite Hrun.
    + unfold aresize. unfold sop_ok in Hok. cbn in Hok. rewrite Ea, length_fmap in Hok.
      unfold attempt, svc_ReSize, bind. cbn [gets fst snd]. rewrite El.
      destruct ((cap =? -1) || (l_Capacity l <=? cap)) eqn:Eg; cbn [orb] in Hok.
      * eexists _, _. split; [by rewrite (in_cache_run s name l _ (Ret tt) (at_cache s (set_capacity cap l)))|].
        by apply (resize_spec s Cs ac name l C cap).
      * rewrite (in_cache_run s name l _ (Ret tt) (at_cache s l)); [|done|].
        2: { apply (shrink_fits _ C); [done|]. by apply Z.leb_le. }
        eexists _, _. split; [done|]. cbn [snd].
        pose proof (resize_spec s Cs ac name l C (l_Capacity l) Hr El EC Hrep) as Hrs.
        unfold set_capacity in Hrs. by destruct l.
  - pose proof (sr_none _ _ _ _ Hr El) as Ea. unfold lru_sop. rewrite Ea. unfold sop_ok in Hok.
    destruct o as [name cap|name k|name k v|name k|name cap]; cbn [sop_name cache_op run_sop] in *;
      rewrite Ea in Hok; try done.
    + exists (MkLruCacheSvc (cs_heap s) (cs_fresh s) (<[name := CreateLruCache cap]> (cs_Caches s))),
        (<[name := []]> Cs).
      split; [|by apply create_spec]. unfold attempt, svc_CreateCache, bind. cbn. by rewrite El.
    + exists s, Cs. unfold attempt, svc_Get, bind. cbn. by rewrite El.
    + exists s, Cs. unfold attempt, svc_ReSize, bind. cbn. by rewrite El.
Qed.

(** ** Theorems *)
Fixpoint run_sops (fuel : nat) (os : list sop) : GoM LruCacheSvc (list (value + error)) :=
  match os with
  | [] => ret []
  | o :: os' => r <- attempt (run_sop fuel o) ;; rs <- run_sops fuel os' ;; ret (r :: rs)
  end.
Fixpoint lru_sops (os : list sop) ac : list (value + error) * acaches :=
  match os with
  | [] => ([], ac)
  | o :: os' => let r := lru_sop o ac in let rs := lru_sops os' r.2 in (r.1 :: rs.1, rs.2)
  end.
Fixpoint sops_ok (os : list sop) ac : bool :=
  match os with
  | [] => true
  | o :: os' => sop_ok o ac && sops_ok os' (lru_sop o ac).2
  end.

Lemma sops_spec os s Cs ac fuel :
  svc_repr s Cs ac -> sops_ok os ac = true ->
  exists s' Cs', run_sops (S fuel) os s = (Ret (lru_sops os ac).1, s') /\
    svc_repr s' Cs' (lru_sops os ac).2.
Proof.
  revert s Cs ac. induction os as [|o os IH]; intros s Cs ac Hr Hok; [by exists s, Cs|].
  cbn in Hok. apply andb_prop in Hok as [Ho Hok].
  destruct (sop_spec s Cs ac o fuel Hr Ho) as (s1 & Cs1 & Hrun & Hr1).
  destruct (IH s1 Cs1 _ Hr1 Hok) as (s2 & Cs2 & Hrun2 & Hr2).
  exists s2, Cs2. split; [|done]. cbn. unfold bind. by rewrite Hrun, Hrun2.
Qed.

Lemma svc_repr_new : svc_repr NewLruCacheSvc ∅ ∅.
Proof.
  split; cbn; [|by intros ? ? ? ? _ [=]|done]. intros name. by rewrite !lookup_empty.
Qed.

(** C5: any sequence of operations on a new cache service, creations, reads,
    writes, evictions and resizes of several caches, returns what the abstract
    LRU caches return, errors included, and ends with caches of their size and
    capacity, provided that no operation takes away the only entry of a cache,
    Put and Evict name a cache that was created, and a cache that is made smaller
    is not over its capacity. *)
Theorem caches_refine os fuel :
  sops_ok os ∅ = true ->
  exists s', run_sops (S fuel) os NewLruCacheSvc = (Ret (lru_sops os ∅).1, s') /\
    forall name,
      svc_GetSize name s' = (Ret (match (lru_sops os ∅).2 !! name with
                                  | Some (_, es) => Z.of_nat (length es) | None => 0 end), s') /\
      svc_GetCapacity name s' = (Ret (match (lru_sops os ∅).2 !! name with
                                      | Some (cap, _) => cap | None => 0 end), s').
Proof.
  intros Hok. destruct (sops_spec os _ _ _ fuel svc_repr_new Hok) as (s' & Cs' & Hrun & Hr).
  exists s'. split; [done|]. intros name. unfold svc_GetSize, svc_GetCapacity, gets.
  generalize (sr_cache _ _ _ Hr name).
  destruct (cs_Caches s' !! name) as [l|], (Cs' !! name) as [C|], (_ !! name) as [[cap es]|]; try done.
  intros (Hrep & <- & <-). rewrite (repr_size _ _ Hrep : l_Size l = _), length_fmap. done.
Qed.

(** *** The bound *)
Definition no_resize (o : sop) : bool := match o with SReSize _ _ => false | _ => true end.

Definition bounded ac : Prop :=
  forall name cap es, ac !! name = Some (cap, es) -> 1 <= cap -> Z.of_nat (length es) <= cap.

Lemma length_drop_key k es : (length (drop_key k es) <= length es)%nat.
Proof.
  unfold drop_key. induction es as [|p es IH]; [done|]. cbn. destruct (negb _); cbn; lia.
Qed.

Lemma length_drop_present k v es : assoc k es = Some v -> (length (drop_key k es) < length es)%nat.
Proof.
  induction es as [|[k' v'] es IH]; [done|]. cbn. destruct (String.eqb k' k) eqn:E; cbn.
  - intros _. pose proof (length_drop_key k es). unfold drop_key in *. lia.
  - intros Hv%IH. unfold drop_key in *. lia.
Qed.

Lemma lru_op_bounded cap o es :
  1 <= cap -> Z.of_nat (length es) <= cap -> Z.of_nat (length (lru_op cap o es).2) <= cap.
Proof.
  intros Hc Hl. destruct o as [k|k v|k]; cbn.
  - unfold lru_get. destruct (assoc k es) eqn:E; [|done]. apply length_drop_present in E. cbn.
    rewrite length_app. cbn. lia.
  - unfold lru_put. destruct (assoc k es) eqn:E.
    + apply length_drop_present in E. rewrite length_app. cbn. lia.
    + rewrite (proj2 (Z.ltb_lt _ _)) by lia. cbn. rewrite length_app.
      destruct (Z.leb_spec cap (Z.of_nat (length es))); cbn; [|lia].
      destruct es; cbn in *; lia.
  - pose proof (length_drop_key k es). lia.
Qed.

Lemma lru_sop_bounded o ac : no_resize o = true -> bounded ac -> bounded (lru_sop o ac).2.
Proof.
  intros Hn Hb. unfold lru_sop. destruct (ac !! sop_name o) as [[cap es]|] eqn:E, (cache_op o) as [o'|].
  - intros name cap' es'. cbn. intros [[_ [= <- <-]]|[_ Hl]]%lookup_insert_Some; [|by eapply Hb].
    intros Hc. apply lru_op_bounded; [done|by eapply Hb].
  - by destruct o.
  - done.
  - destruct o as [n c| | | |]; try done. intros name cap' es'. cbn.
    intros [[_ [= <- <-]]|[_ Hl]]%lookup_insert_Some; [cbn; lia|by eapply Hb].
Qed.

(** A cache of capacity at least one never holds more entries than its
    capacity, after any sequence of operations without resizes as above. *)
Theorem caches_bounded os fuel :
  sops_ok os ∅ = true -> forallb no_resize os = true ->
  exists rs s', run_sops (S fuel) os NewLruCacheSvc = (Ret rs, s') /\
    forall name, exists n cap, svc_GetSize name s' = (Ret n, s') /\
      svc_GetCapacity name s' = (Ret cap, s') /\ (1 <= cap -> n <= cap).
Proof.
  intros Hok Hn. destruct (sops_spec os _ _ _ fuel svc_repr_new Hok) as (s' & Cs' & Hrun & Hr).
  assert (bounded (lru_sops os ∅).2) as Hb.
  { clear -Hn. assert (bounded ∅) as Hb by done. revert Hb Hn. generalize (∅ : acaches).
    induction os as [|o os IH]; intros ac Hb Hn; [done|]. cbn in *. apply andb_prop in Hn as [Ho Hn].
    apply IH; [by apply lru_sop_bounded|done]. }
  eexists _, s'. split; [done|]. intros name. eexists _, _. split; [done|]. split; [done|]. cbn.
  generalize (sr_cache _ _ _ Hr name).
  destruct (cs_Caches s' !! name) as [l|], (Cs' !! name) as [C|],
    ((lru_sops os ∅).2 !! name) as [[cap es]|] eqn:E; try done.
  intros (Hrep & <- & <-) Hc. rewrite (repr_size _ _ Hrep : l_Size l = _).
  specialize (Hb _ _ _ E Hc). by rewrite length_fmap in Hb.
Qed.

(** *** Taking away the only entry *)

Definition new_cache (capacity : Z) : mem := Mem ∅ 0 (CreateLruCache capacity).

Fixpoint run_ops (os : list op) : GoM mem unit :=
  match os with
  | [] => ret tt
  | o :: os' => run_op o ;; run_ops os'
  end.

(** The state of a cache with map [m], whose size is up to date. *)
Definition lru_state h f cap hd en m : mem := Mem h f (MkLruCache cap (hamt_Size m) hd en m).

Definition roomy (cap : Z) (m : hamt_Map) : Prop :=
  (0 <? cap) && (cap <=? hamt_Size m) = false.

Lemma put_no_end h f cap hd m k v :
  hamt_map m !! k = None -> roomy cap m ->
  put k v (lru_state h f cap hd None m) =
    (Ret tt, lru_state (<[f := MkNode k v None None]> h) (S f) cap
               (match hd with Some _ => hd | None => Some f end) (Some f) (hamt_Insert m k f)).
Proof.
  intros Hk Hroom. rewrite put_absent_unfold by by rewrite hamt_map_Find.
  cbn [lru_state m_lru l_Capacity l_Map]. rewrite Hroom. by destruct hd.
Qed.

Lemma put_after_end h f cap hd e m k v :
  hamt_map m !! k = None -> roomy cap m -> is_Some (h !! e) -> e <> f ->
  put k v (lru_state h f cap (Some hd) (Some e) m) =
    (Ret tt, lru_state (link (<[f := MkNode k v None None]> h) e f) (S f) cap (Some hd) (Some f)
               (hamt_Insert m k f)).
Proof.
  intros Hk Hroom He Hne. rewrite put_absent_unfold by by rewrite hamt_map_Find.
  cbn [lru_state m_lru l_Capacity l_Map]. rewrite Hroom.
  unfold bind at 1. cbn [set_lru modify]. unfold bind at 1, addNode at 1, bind at 1. cbn [gets].
  cbn [m_lru l_end with_node lru_state set_map]. rewrite decide_False by done.
  unfold bind at 1 2. rewrite store_run by (cbn; by rewrite lookup_insert_ne).
  unfold bind at 1. rewrite store_run by (cbn; rewrite is_Some_alter, lookup_insert_eq; eauto).
  rewrite store_run by (cbn; rewrite !is_Some_alter, lookup_insert_eq; eauto).
  done.
Qed.

Lemma evict_end h f cap hd x n m k :
  hamt_map m !! k = Some x -> h !! x = Some n ->
  evict k (lru_state h f cap hd (Some x) m) =
    (Ret tt, lru_state h f cap hd (n_pre n) (hamt_Delete m (n_Key n))).
Proof.
  intros Hk Hx. unfold evict. unfold bind at 1. cbn [gets lru_state m_lru l_Map].
  rewrite hamt_map_Find, Hk. unfold bind at 1, removeNode at 1, bind at 1. cbn [gets m_lru l_end].
  rewrite decide_True by done. unfold bind at 1 2. rewrite (load_run _ x n) by done.
  cbn [set_lru modify]. unfold bind at 1. by rewrite (load_run _ x n).
Qed.

(** A cache that lost its only entry to an eviction is broken: with two
    entries put into it afterwards, reading the older one dereferences a nil
    pointer. Capacities other than one. *)
Theorem evict_only_panics capacity a va b vb c vc :
  capacity <= 0 \/ 2 <= capacity -> a <> b -> a <> c -> b <> c ->
  (run_ops [OPut a va; OEvict a; OPut b vb; OPut c vc; OGet b] (new_cache capacity)).1 = Panic.
Proof.
  intros Hcap Hab Hac Hbc.
  assert (forall m, Z.of_nat (size (hamt_map m)) <= 1 -> roomy capacity m) as Hroom.
  { intros m Hm. unfold roomy. rewrite hamt_map_Size.
    destruct (Z.ltb_spec 0 capacity); [|done]. apply Z.leb_gt. lia. }
  change (new_cache capacity) with (lru_state ∅ 0 capacity None None hamt_NewMap).
  cbn [run_ops run_op]. unfold bind at 1 2.
  rewrite put_no_end; [|by rewrite hamt_map_New|apply Hroom; by rewrite hamt_map_New].
  unfold bind at 1 2. cbn [ret fst snd].
  erewrite evict_end; [|by rewrite hamt_map_Insert, lookup_insert_eq|by apply lookup_insert_eq].
  cbn [n_pre n_Key]. set (m2 := hamt_Delete _ a).
  assert (hamt_map m2 = ∅) as Hm2.
  { unfold m2. rewrite hamt_map_Delete, hamt_map_Insert, hamt_map_New. by rewrite delete_insert_id. }
  unfold bind at 1 2. cbn [ret fst snd].
  rewrite put_no_end; [|by rewrite Hm2|apply Hroom; by rewrite Hm2].
  assert (hamt_map (hamt_Insert m2 b 1%nat) = {[b := 1%nat]}) as Hm3 by by rewrite hamt_map_Insert, Hm2.
  unfold bind at 1 2. cbn [ret fst snd].
  rewrite put_after_end; [|rewrite Hm3; by apply lookup_singleton_ne|
    apply Hroom; rewrite Hm3, map_size_singleton; lia|by rewrite lookup_insert_eq|done].
  unfold get, bind. cbn [ret gets lru_state m_lru l_Map]. rewrite hamt_map_Find, hamt_map_Insert, Hm3.
  rewrite lookup_insert_ne, lookup_singleton_eq by done.
  vm_compute. reflexivity.
Qed.

(** A put that takes the first node, which is also the last one, away. *)
Lemma put_only h f x n m k v cap :
  hamt_map m !! k = None -> (0 <? cap) && (cap <=? hamt_Size m) = true ->
  h !! x = Some n -> n_pre n = None -> x <> f ->
  put k v (lru_state h f cap (Some x) (Some x) m) =
    (Ret tt, lru_state (<[f := MkNode k v None None]> h) (S f) cap (Some x) (Some f)
               (hamt_Insert (hamt_Delete m (n_Key n)) k f)).
Proof.
  intros Hk Hfull Hx Hpre Hne. rewrite put_absent_unfold by by rewrite hamt_map_Find.
  cbn [lru_state m_lru l_Capacity l_Map l_head]. rewrite Hfull.
  unfold bind at 1 2, removeNode at 1, bind at 1. cbn [gets with_node lru_state m_lru l_end].
  rewrite decide_True by done. unfold bind at 1 2.
  rewrite (load_run _ x n) by (cbn; by rewrite lookup_insert_ne). cbn [set_lru modify].
  unfold bind at 1. rewrite (load_run _ x n) by (cbn; by rewrite lookup_insert_ne).
  unfold set_end, set_map. cbn. rewrite Hpre. done.
Qed.

(** A cache of capacity one holds two entries after three different puts: the
    second put leaves the head of the list at the node it took away. *)
Theorem capacity_one_exceeded a va b vb c vc :
  a <> b -> a <> c -> b <> c ->
  exists s', run_ops [OPut a va; OPut b vb; OPut c vc] (new_cache 1) = (Ret tt, s') /\
    l_Size (m_lru s') = 2.
Proof.
  intros Hab Hac Hbc.
  change (new_cache 1) with (lru_state ∅ 0 1 None None hamt_NewMap).
  cbn [run_ops run_op]. unfold bind at 1 2.
  rewrite put_no_end; [|by rewrite hamt_map_New|unfold roomy; by rewrite hamt_map_Size, hamt_map_New].
  assert (hamt_map (hamt_Insert hamt_NewMap a 0%nat) = {[a := 0%nat]}) as Hm1
    by by rewrite hamt_map_Insert, hamt_map_New.
  unfold bind at 1 2. cbn [ret fst snd].
  erewrite put_only; [|rewrite Hm1; by apply lookup_singleton_ne|by rewrite hamt_map_Size, Hm1, map_size_singleton|
    by apply lookup_insert_eq|done|done].
  cbn [n_Key]. set (m2 := hamt_Insert (hamt_Delete _ a) b 1%nat).
  assert (hamt_map m2 = {[b := 1%nat]}) as Hm2.
  { unfold m2. rewrite hamt_map_Insert, hamt_map_Delete, Hm1. by rewrite delete_singleton_eq. }
  unfold bind at 1 2. cbn [ret fst snd].
  rewrite put_absent_unfold
    by (cbn [lru_state m_lru l_Map]; rewrite hamt_map_Find, Hm2; by apply lookup_singleton_ne).
  cbn [lru_state m_lru l_Capacity l_Map l_head].
  assert ((0 <? 1) && (1 <=? hamt_Size m2) = true) as -> by by rewrite hamt_map_Size, Hm2, map_size_singleton.
  eexists. split; [vm_compute; reflexivity|].
  change (hamt_Size (hamt_Insert (hamt_Delete m2 a) c 2%nat) = 2).
  rewrite hamt_map_Size, hamt_map_Insert, hamt_map_Delete, Hm2.
  rewrite delete_id by by apply lookup_singleton_ne.
  rewrite map_size_insert, map_size_singleton, lookup_singleton_ne by done. done.
Qed.

(** A cache that holds more entries than its capacity, and is asked for a
    smaller one, never answers: the loop takes nodes off the list until a nil
    pointer, since the map it measures does not change. *)
Theorem shrink_never_returns name l capacity s fuel :
  cs_Caches s !! name = Some l -> l_Capacity l < hamt_Size (l_Map l) ->
  capacity < l_Capacity l -> capacity <> -1 ->
  forall r, (svc_ReSize fuel name capacity s).1 <> Ret r.
Proof.
  intros El Hover Hcap Hne r. unfold svc_ReSize, bind at 1. cbn [gets]. rewrite El.
  rewrite (proj2 (Z.eqb_neq _ _)), (proj2 (Z.leb_gt _ _)) by done. cbn [orb].
  unfold in_cache. rewrite El.
  assert (forall m, l_Capacity (m_lru m) < hamt_Size (l_Map (m_lru m)) -> (shrink fuel m).1 <> Ret r) as Hs.
  { induction fuel as [|fuel IH]; intros m Hm; [done|]. cbn [shrink]. unfold bind at 1. cbn [gets].
    rewrite (proj2 (Z.leb_gt _ _)) by done. unfold bind.
    assert (steps (same (fun m : mem => (l_Capacity (m_lru m), l_Map (m_lru m)))) (removeNode (l_head (m_lru m))))
      as Hsame by (unfold removeNode, load, store, set_lru, set_heap; go_steps; apply steps_modify; done).
    specialize (Hsame m). destruct (removeNode _ m) as [[k|e| |] m']; try done.
    injection Hsame as E1 E2. apply IH. cbn in E1, E2. by rewrite E1, E2. }
  specialize (Hs (Mem (cs_heap s) (cs_fresh s) l) Hover).
  by destruct (shrink fuel _) as [o m'].
Qed.

(** Put and Evict on a cache that was not created panic; Get and ReSize return
    an error, and the size and the capacity of such a cache are zero. *)
Theorem missing_cache name key v capacity fuel s :
  cs_Caches s !! name = None ->
  svc_Put name key v s = (Panic, s) /\ svc_Evict name key s = (Panic, s) /\
  svc_Get name key s = (Fail (not_found name), s) /\
  svc_ReSize fuel name capacity s = (Fail (not_found name), s) /\
  svc_GetSize name s = (Ret 0, s) /\ svc_GetCapacity name s = (Ret 0, s).
Proof.
  intros E. unfold svc_Put, svc_Evict, svc_Get, svc_ReSize, svc_GetSize, svc_GetCapacity, in_cache, bind, gets.
  by rewrite E.
Qed.
End Lru.

(** ** The hash of a key *)
Fixpoint horner (acc : Z) (data : list Z) : Z :=
  match data with [] => acc | b :: data' => horner (acc * primeRK + b) data' end.

(** The hash is the value of the polynomial of the bytes at the prime, modulo 2^32. *)
Lemma GetHash32_horner data : GetHash32 data = horner 0 data mod 2 ^ 32.
Proof.
  unfold GetHash32.
  assert (forall acc acc', acc = acc' mod 2 ^ 32 ->
    foldl (fun hash b => wrap32 (wrap32 (hash * primeRK) + b)) acc data = horner acc' data mod 2 ^ 32) as Hgen.
  { induction data as [|b data IH]; intros acc acc' E; [done|]. cbn [foldl horner]. apply IH.
    unfold wrap32. rewrite E. by rewrite Zplus_mod_idemp_l, <- Zplus_mod_idemp_l, Zmult_mod_idemp_l, Zplus_mod_idemp_l. }
  by apply Hgen.
Qed.

(** ** The theorems on a hash map that is a finite map *)
Module LruSample.

#[export] Instance Hamt : HamtMap := {
  hamt_Map := gmap string nat;
  hamt_NewMap := ∅;
  hamt_Find m k := m !! k;
  hamt_Insert m k a := <[k := a]> m;
  hamt_Delete m k := delete k m;
  hamt_Size m := Z.of_nat (size m)
}.
#[export, program] Instance Laws : HamtLaws := { hamt_map m := m }.
Solve All Obligations with done.

(** The run of the unit test of the package. *)
Definition test_ops : list (sop (V := nat)) :=
  [SCreate "test1" 3; SCreate "test2" 2; SCreate "test1" 4;
   SPut "test1" "aaa" (Some 100%nat); SPut "test1" "bbb" (Some 200%nat);
   SPut "test1" "ccc" (Some 300%nat); SGet "test1" "aaa"; SGet "test1" "ccc";
   SPut "test1" "ddd" (Some 400%nat); SGet "test1" "ddd"; SGet "test1" "bbb";
   SPut "test2" "eee" (Some 1%nat); SPut "test2" "fff" (Some 2%nat); SPut "test2" "ggg" (Some 3%nat);
   SPut "test2" "hhh" (Some 4%nat); SEvict "test2" "hhh"; SGet "test2" "eee"; SGet "test2" "ggg";
   SGet "test3" "aaa"].

Lemma caches_refine_witness :
  exists s', run_sops 1 test_ops NewLruCacheSvc = (Ret (lru_sops test_ops ∅).1, s') /\
    svc_GetSize "test1" s' = (Ret 3, s') /\ svc_GetSize "test2" s' = (Ret 1, s') /\
    svc_GetCapacity "test2" s' = (Ret 2, s').
Proof.
  destruct (caches_refine test_ops 0) as (s' & Hrun & Hs); [vm_compute; reflexivity|].
  exists s'. split; [exact Hrun|].
  split; [exact (proj1 (Hs "test1"))|split; [exact (proj1 (Hs "test2"))|exact (proj2 (Hs "test2"))]].
Defined.

Lemma caches_bounded_witness :
  exists rs s', run_sops 1 test_ops NewLruCacheSvc = (Ret rs, s') /\
    exists n cap, svc_GetSize "test1" s' = (Ret n, s') /\ svc_GetCapacity "test1" s' = (Ret cap, s') /\
      (1 <= cap -> n <= cap).
Proof.
  destruct (caches_bounded test_ops 0) as (rs & s' & Hrun & Hs); [vm_compute; reflexivity..|].
  exists rs, s'. split; [exact Hrun|exact (Hs "test1")].
Defined.

Lemma evict_only_panics_witness :
  (run_ops (V := nat) [OPut "a" None; OEvict "a"; OPut "b" None; OPut "c" None; OGet "b"] (new_cache 3)).1
    = Panic.
Proof. apply (evict_only_panics 3 "a" None "b" None "c" None); [right; lia|done..]. Defined.

Lemma capacity_one_exceeded_witness :
  exists s', run_ops (V := nat) [OPut "a" None; OPut "b" None; OPut "c" None] (new_cache 1) = (Ret tt, s') /\
    l_Size (m_lru s') = 2.
Proof. by apply (capacity_one_exceeded "a" None "b" None "c" None). Defined.

(** A cache without a bound, filled, and then bounded. *)
Definition overfull : LruCacheSvc (V := nat) :=
  (run_sops 1 [SCreate "c" (-1); SPut "c" "a" None; SPut "c" "b" None; SPut "c" "d" None; SReSize "c" 2]
     NewLruCacheSvc).2.

Lemma shrink_never_returns_witness : (svc_ReSize 100 "c" 1 overfull).1 <> Ret tt.
Proof.
  eapply (shrink_never_returns "c" _ 1 overfull); [vm_compute; reflexivity|by vm_compute..|done].
Defined.

Lemma missing_cache_witness :
  svc_Put (V := nat) "c" "a" None NewLruCacheSvc = (Panic, NewLruCacheSvc).
Proof. exact (proj1 (missing_cache "c" "a" None 1 0 NewLruCacheSvc eq_refl)). Defined.
End LruSample.
