(* ===== verification/MapLock.v ===== *)
(** * Locks by name ([utils/maplock.go])

    A [Maplock] has a mutex and a map from names to reference-counted mutexes:
    [Lock] makes the counter of a name when there is none, [Unlock] drops it when
    nobody waits.  The gateway and the indexer serialise work per name with it.

    Threads run concurrently, one atomic step at a time: a step is one operation
    on the main mutex, one look-up or change of the map, one atomic operation on a
    counter, or one operation on its mutex.  Clients unlock only names they hold.
    Theorems over the reachable states: two threads never hold a name together,
    [Unlock] of a holder finds the counter and unlocks a locked mutex, and the map
    has an entry only for a name that is held or waited for. *)
From stdpp Require Import base list gmap strings relations.
From Stdlib Require Import ZArith Lia.
From S2P Require Import Prelude.

Abbreviation tid := nat.
Abbreviation ctr_id := nat.

(** [lockCtr]: its mutex, with the thread and the name it was locked for, and
    the number of waiters. *)
Record lockCtr := MkLockCtr { lc_mu : option (tid * string); lc_waiters : Z }.

Definition inc (l : lockCtr) : lockCtr := MkLockCtr (lc_mu l) (wrap_i32 (lc_waiters l + 1)).
Definition dec (l : lockCtr) : lockCtr := MkLockCtr (lc_mu l) (wrap_i32 (lc_waiters l - 1)).
Definition count (l : lockCtr) : Z := lc_waiters l.

(** Where a thread is in [Lock] and [Unlock]. *)
Inductive pc :=
| Idle
| LEnter (n : string)                  (* l.mu.Lock() of Lock *)
| LFind (n : string)                   (* the look-up, or a new counter *)
| LInc (n : string) (c : ctr_id)       (* nameLock.inc() *)
| LLeave (n : string) (c : ctr_id)     (* l.mu.Unlock() *)
| LWait (n : string) (c : ctr_id)      (* nameLock.Lock() *)
| LDec (n : string) (c : ctr_id)       (* nameLock.dec() *)
| UEnter (n : string)                  (* l.mu.Lock() of Unlock *)
| UFind (n : string)                   (* the look-up *)
| UCount (n : string) (c : ctr_id)     (* nameLock.count() *)
| UDelete (n : string) (c : ctr_id)    (* delete(l.locks, name) *)
| URelease (n : string) (c : ctr_id)   (* nameLock.Unlock() *)
| ULeave                               (* l.mu.Unlock(), return nil *)
| UMissing                             (* l.mu.Unlock(), return ErrNoSuchLock *)
| Crashed.                             (* unlock of an unlocked mutex *)

#[export] Instance pc_eq_dec : EqDecision pc.
Proof. solve_decision. Defined.

Record Maplock := MkMaplock {
  ml_mu : option tid;
  ml_locks : gmap string ctr_id;
  ml_ctrs : gmap ctr_id lockCtr;       (* the counters that were made *)
  ml_fresh : ctr_id;
  ml_pcs : gmap tid pc;
  ml_held : gmap (tid * string) ctr_id (* between the return of Lock and nameLock.Unlock() *)
}.
Implicit Types (s : Maplock) (t : tid) (n : string) (c : ctr_id).

Definition at_pc s t (p : pc) : Maplock :=
  MkMaplock (ml_mu s) (ml_locks s) (ml_ctrs s) (ml_fresh s) (<[t := p]> (ml_pcs s)) (ml_held s).
Definition set_mu s (m : option tid) : Maplock :=
  MkMaplock m (ml_locks s) (ml_ctrs s) (ml_fresh s) (ml_pcs s) (ml_held s).
Definition set_ctr s c (l : lockCtr) : Maplock :=
  MkMaplock (ml_mu s) (ml_locks s) (<[c := l]> (ml_ctrs s)) (ml_fresh s) (ml_pcs s) (ml_held s).
Definition set_locks s (m : gmap string ctr_id) : Maplock :=
  MkMaplock (ml_mu s) m (ml_ctrs s) (ml_fresh s) (ml_pcs s) (ml_held s).
Definition set_held s (m : gmap (tid * string) ctr_id) : Maplock :=
  MkMaplock (ml_mu s) (ml_locks s) (ml_ctrs s) (ml_fresh s) (ml_pcs s) m.

(** [&lockCtr{}], put into the map under the name. *)
Definition make_ctr s n : Maplock :=
  let c := ml_fresh s in
  MkMaplock (ml_mu s) (<[n := c]> (ml_locks s)) (<[c := MkLockCtr None 0]> (ml_ctrs s)) (S c)
    (ml_pcs s) (ml_held s).

(** The next step of thread [t]; none when it is idle or blocked. *)
Definition go t s : option Maplock :=
  match ml_pcs s !! t with
  | Some (LEnter n) =>
      match ml_mu s with None => Some (at_pc (set_mu s (Some t)) t (LFind n)) | Some _ => None end
  | Some (LFind n) =>
      match ml_locks s !! n with
      | Some c => Some (at_pc s t (LInc n c))
      | None => Some (at_pc (make_ctr s n) t (LInc n (ml_fresh s)))
      end
  | Some (LInc n c) => l ← ml_ctrs s !! c; Some (at_pc (set_ctr s c (inc l)) t (LLeave n c))
  | Some (LLeave n c) => Some (at_pc (set_mu s None) t (LWait n c))
  | Some (LWait n c) =>
      match ml_ctrs s !! c with
      | Some (MkLockCtr None w) => Some (at_pc (set_ctr s c (MkLockCtr (Some (t, n)) w)) t (LDec n c))
      | _ => None
      end
  | Some (LDec n c) =>
      l ← ml_ctrs s !! c;
      Some (set_held (at_pc (set_ctr s c (dec l)) t Idle) (<[(t, n) := c]> (ml_held s)))
  | Some (UEnter n) =>
      match ml_mu s with None => Some (at_pc (set_mu s (Some t)) t (UFind n)) | Some _ => None end
  | Some (UFind n) =>
      match ml_locks s !! n with
      | Some c => Some (at_pc s t (UCount n c))
      | None => Some (at_pc s t UMissing)
      end
  | Some (UCount n c) =>
      l ← ml_ctrs s !! c;
      Some (at_pc s t (if count l =? 0 then UDelete n c else URelease n c))
  | Some (UDelete n c) => Some (at_pc (set_locks s (delete n (ml_locks s))) t (URelease n c))
  | Some (URelease n c) =>
      match ml_ctrs s !! c with
      | Some (MkLockCtr (Some _) w) =>
          Some (set_held (at_pc (set_ctr s c (MkLockCtr None w)) t ULeave) (delete (t, n) (ml_held s)))
      | _ => Some (at_pc s t Crashed)
      end
  | Some ULeave | Some UMissing => Some (at_pc (set_mu s None) t Idle)
  | Some Idle | Some Crashed | None => None
  end.

Inductive step : Maplock -> Maplock -> Prop :=
| step_lock s t n : ml_pcs s !! t = Some Idle -> step s (at_pc s t (LEnter n))
| step_unlock s t n c :
    ml_pcs s !! t = Some Idle -> ml_held s !! (t, n) = Some c -> step s (at_pc s t (UEnter n))
| step_go s s' t : go t s = Some s' -> step s s'.

Definition NewMapLock (threads : gset tid) : Maplock :=
  MkMaplock None ∅ ∅ 0 (gset_to_gmap Idle threads) ∅.

(** ** The invariant *)

(** The thread holds the main mutex. *)
Definition in_mu (p : pc) : bool :=
  match p with
  | LFind _ | LInc _ _ | LLeave _ _ | UFind _ | UCount _ _ | UDelete _ _ | URelease _ _ | ULeave
  | UMissing => true
  | _ => false
  end.
(** It works on the counter it found in [Lock]. *)
Definition uses (p : pc) : option (string * ctr_id) :=
  match p with LInc n c | LLeave n c | LWait n c | LDec n c => Some (n, c) | _ => None end.
(** It is counted as a waiter. *)
Definition waits (p : pc) : option ctr_id :=
  match p with LLeave _ c | LWait _ c | LDec _ c => Some c | _ => None end.
(** It is in [Unlock]. *)
Definition unlocks (p : pc) : option (string * option ctr_id) :=
  match p with
  | UEnter n | UFind n => Some (n, None)
  | UCount n c | UDelete n c | URelease n c => Some (n, Some c)
  | _ => None
  end.

Definition runs s t (p : pc) : Prop := ml_pcs s !! t = Some p.
Definition waiting s c t : Prop := exists p, runs s t p /\ waits p = Some c.
Definition owned s c t n : Prop := exists w, ml_ctrs s !! c = Some (MkLockCtr (Some (t, n)) w).

Record inv (threads : gset tid) s : Prop := {
  i_dom : dom (ml_pcs s) = threads;
  i_mu1 t : ml_mu s = Some t -> exists p, runs s t p /\ in_mu p = true;
  i_mu2 t p : runs s t p -> in_mu p = true -> ml_mu s = Some t;
  i_use t p n c : runs s t p -> uses p = Some (n, c) -> ml_locks s !! n = Some c;
  i_unl t p n oc : runs s t p -> unlocks p = Some (n, oc) ->
    exists c, ml_held s !! (t, n) = Some c /\ (forall c', oc = Some c' -> c' = c);
  i_held t n c : ml_held s !! (t, n) = Some c ->
    ml_locks s !! n = Some c \/ runs s t (URelease n c) /\ ml_locks s !! n = None;
  i_own1 t n c : ml_held s !! (t, n) = Some c -> owned s c t n;
  i_own2 t n c : runs s t (LDec n c) -> owned s c t n;
  i_own3 t n c : owned s c t n -> runs s t (LDec n c) \/ ml_held s !! (t, n) = Some c;
  i_cnt c l : ml_ctrs s !! c = Some l ->
    exists X : gset tid, lc_waiters l = Z.of_nat (size X) /\ forall t, t ∈ X <-> waiting s c t;
  i_ctr n c : ml_locks s !! n = Some c -> is_Some (ml_ctrs s !! c);
  i_fresh c : is_Some (ml_ctrs s !! c) -> (c < ml_fresh s)%nat;
  i_inj n1 n2 c : ml_locks s !! n1 = Some c -> ml_locks s !! n2 = Some c -> n1 = n2;
  i_del t n c : runs s t (UDelete n c) -> forall t', ~ waiting s c t';
  i_rel t n c : runs s t (URelease n c) -> (ml_locks s !! n = Some c <-> exists t', waiting s c t');
  i_live n c : ml_locks s !! n = Some c ->
    exists t, (exists p, runs s t p /\ uses p = Some (n, c)) \/ ml_held s !! (t, n) = Some c;
  i_ok t p : runs s t p -> p <> UMissing /\ p <> Crashed
}.

Lemma runs_at s t p t' p' :
  runs (at_pc s t p) t' p' <-> t' = t /\ p' = p \/ t' <> t /\ runs s t' p'.
Proof.
  unfold runs, at_pc. cbn. rewrite lookup_insert_Some. naive_solver.
Qed.
Lemma runs_det s t p p' : runs s t p -> runs s t p' -> p = p'.
Proof. unfold runs. congruence. Qed.
Lemma owned_det s c t n t' n' : owned s c t n -> owned s c t' n' -> t = t' /\ n = n'.
Proof. intros [w E] [w' E']. rewrite E in E'. by injection E' as -> -> _. Qed.

Lemma waiting_at s t p c t' :
  waiting (at_pc s t p) c t' <-> t' = t /\ waits p = Some c \/ t' <> t /\ waiting s c t'.
Proof. unfold waiting. setoid_rewrite runs_at. naive_solver. Qed.

(** Takes the invariant apart. *)
Ltac inv_open Hi :=
  destruct Hi as [Hdom Hmu1 Hmu2 Huse Hunl Hheld Hown1 Hown2 Hown3 Hcnt Hctr Hfresh Hinj Hdel Hrel
    Hlive Hok].
(** Cases on which thread a fact about the program counters is about. *)
Ltac which_thread H := apply runs_at in H as [[? ?]|[? H]]; [subst; cbn in *|].

(** What becomes of the main mutex when a thread goes from [p] to [p']. *)
Definition moves_mu (m : option tid) t (p p' : pc) (m' : option tid) : Prop :=
  match in_mu p, in_mu p' with
  | false, true => m = None /\ m' = Some t
  | true, false => m' = None
  | _, _ => m' = m
  end.

Lemma dom_at s t p p' : runs s t p -> dom (<[t := p']> (ml_pcs s)) = dom (ml_pcs s).
Proof. intros H. apply dom_insert_lookup_L. by exists p. Qed.

(** A step of a thread that leaves the map and the counters alone. *)
Lemma inv_move T s t p p' m' :
  inv T s -> runs s t p -> moves_mu (ml_mu s) t p p' m' ->
  waits p' = waits p -> (forall n c, p' = LDec n c -> p = LDec n c) -> (forall n c, p <> LDec n c) ->
  (forall n c, p <> URelease n c) ->
  (forall n c, uses p' = Some (n, c) -> ml_locks s !! n = Some c) ->
  (forall x, uses p = Some x -> uses p' = Some x) ->
  (forall n oc, unlocks p' = Some (n, oc) ->
     exists c, ml_held s !! (t, n) = Some c /\ (forall c', oc = Some c' -> c' = c)) ->
  (forall n c, p' = UDelete n c -> forall t', ~ waiting s c t') ->
  (forall n c, p' = URelease n c -> (ml_locks s !! n = Some c <-> exists t', waiting s c t')) ->
  p' <> UMissing -> p' <> Crashed ->
  inv T (at_pc (set_mu s m') t p').
Proof.
  intros Hi Hrun Hmu Hw Hd1 Hd2 Hr Hu1 Hu2 Hu3 Hde Hre Hm Hc. inv_open Hi.
  assert (forall c t', waiting (at_pc (set_mu s m') t p') c t' <-> waiting s c t') as Hwait.
  { intros c t'. rewrite waiting_at. unfold waiting at 1. split.
    - intros [[-> E]|[_ E]]; [|exact E]. exists p. split; [done|congruence].
    - intros (q & Hq & E). destruct (decide (t' = t)) as [->|Hne]; [left|right; eauto].
      split; [done|]. rewrite (runs_det _ _ _ _ Hq Hrun) in E. congruence. }
  split; cbn; setoid_rewrite Hwait || idtac; cbn; try done.
  - by rewrite (dom_at _ _ _ _ Hrun).
  - intros t' E. setoid_rewrite runs_at. unfold moves_mu in Hmu.
    destruct (in_mu p) eqn:E1, (in_mu p') eqn:E2; destruct_and?; subst; simplify_eq.
    + pose proof (Hmu2 _ _ Hrun E1) as E'. rewrite E' in E. injection E as <-. eauto.
    + eauto.
    + destruct (Hmu1 _ E) as (q & Hq & E3). exists q. split; [|done]. right. split; [|done].
      intros ->. rewrite (runs_det _ _ _ _ Hq Hrun) in E3. congruence.
  - intros t' q Hq E. unfold moves_mu in Hmu. which_thread Hq.
    + rewrite E in Hmu. destruct (in_mu p) eqn:E1; [|naive_solver]. subst. by eapply Hmu2.
    + pose proof (Hmu2 _ _ Hq E) as E'. destruct (in_mu p) eqn:E1.
      * rewrite (Hmu2 _ _ Hrun E1) in E'. congruence.
      * destruct (in_mu p'); [|congruence]. destruct Hmu. congruence.
  - intros t' q n c Hq E. which_thread Hq; [by apply Hu1|by eapply Huse].
  - intros t' q n oc Hq E. which_thread Hq; [by apply Hu3|by eapply Hunl].
  - intros t' n c E. destruct (Hheld _ _ _ E) as [?|[Hq ?]]; [by left|right]. split; [|done].
    apply runs_at. right. split; [|done]. intros ->. apply (Hr n c). by eapply runs_det.
  - intros t' n c Hq. which_thread Hq; [destruct (Hd2 n c); by apply Hd1|by apply Hown2].
  - intros t' n c Ho. destruct (Hown3 _ _ _ Ho) as [Hq|?]; [left|by right].
    apply runs_at. right. split; [|done]. intros ->. apply (Hd2 n c). by eapply runs_det.
  - intros t' n c Hq. which_thread Hq; [by eapply Hde|by eapply Hdel].
  - intros t' n c Hq. which_thread Hq; [by eapply Hre|by eapply Hrel].
  - intros n c E. destruct (Hlive _ _ E) as (t' & [(q & Hq & Eq)|Hh]); exists t'; [left|by right].
    setoid_rewrite runs_at. destruct (decide (t' = t)) as [->|Hne]; [|eauto 6].
    exists p'. split; [by left|]. apply Hu2. by rewrite (runs_det _ _ _ _ Hrun Hq).
  - intros t' q Hq. which_thread Hq; [done|by eapply Hok].
Qed.

(** A thread of the invariant that holds the main mutex is the only one. *)
Lemma mu_unique T s t p t' p' :
  inv T s -> runs s t p -> in_mu p = true -> runs s t' p' -> in_mu p' = true -> t' = t.
Proof.
  intros Hi H1 E1 H2 E2. pose proof (i_mu2 _ _ Hi _ _ H1 E1). pose proof (i_mu2 _ _ Hi _ _ H2 E2). congruence.
Qed.

Lemma inv_make T s t n :
  inv T s -> runs s t (LFind n) -> ml_locks s !! n = None ->
  inv T (at_pc (make_ctr s n) t (LInc n (ml_fresh s))).
Proof.
  intros Hi Hrun En. pose proof Hi as Hi'. inv_open Hi.
  assert (ml_ctrs s !! ml_fresh s = None) as Ef.
  { apply eq_None_not_Some. intros ?%Hfresh. lia. }
  assert (forall c t', waiting (at_pc (make_ctr s n) t (LInc n (ml_fresh s))) c t' <-> waiting s c t') as Hwait.
  { intros c t'. rewrite waiting_at. cbn. split; [naive_solver|]. intros Hw. right. split; [|done].
    intros ->. destruct Hw as (q & Hq & E). by rewrite (runs_det _ _ _ _ Hq Hrun) in E. }
  assert (forall c t', ml_ctrs s !! c = None -> ~ waiting s c t') as Hnw.
  { intros c t' Ec (q & Hq & E). destruct q; try done; cbn in E; injection E as ->;
      destruct (Hctr _ _ (Huse _ _ _ _ Hq eq_refl)) as [? ?]; congruence. }
  assert (forall c t' n', owned (at_pc (make_ctr s n) t (LInc n (ml_fresh s))) c t' n' <-> owned s c t' n')
    as Hown.
  { intros c t' n'. unfold owned. cbn. split; intros [w E].
    - apply lookup_insert_Some in E as [[_ [=]]|[_ E]]. eauto.
    - exists w. rewrite lookup_insert_ne; [done|]. intros <-. congruence. }
  split; cbn.
  - by rewrite (dom_at _ _ _ _ Hrun).
  - intros t' E. setoid_rewrite runs_at. rewrite (Hmu2 _ _ Hrun eq_refl) in E. injection E as <-. eauto.
  - intros t' q Hq E. which_thread Hq; by eapply Hmu2.
  - intros t' q n' c Hq E. which_thread Hq; [injection E as -> ->; apply lookup_insert_eq|].
    pose proof (Huse _ _ _ _ Hq E). rewrite lookup_insert_ne; [done|]. intros <-. congruence.
  - intros t' q n' oc Hq E. which_thread Hq; [done|by eapply Hunl].
  - intros t' n' c E. destruct (Hheld _ _ _ E) as [El|[Hq _]].
    + left. rewrite lookup_insert_ne; [done|]. intros <-. congruence.
    + by rewrite (mu_unique _ _ _ _ _ _ Hi' Hrun eq_refl Hq eq_refl) in Hq; pose proof (runs_det _ _ _ _ Hq Hrun).
  - intros t' n' c E. apply Hown. by apply Hown1.
  - intros t' n' c Hq. which_thread Hq; [done|]. apply Hown. by apply Hown2.
  - intros t' n' c Ho%Hown%Hown3. setoid_rewrite runs_at. destruct Ho as [Hq|?]; [left|by right].
    right. split; [|done]. intros ->. by pose proof (runs_det _ _ _ _ Hq Hrun).
  - intros c l E. setoid_rewrite Hwait. apply lookup_insert_Some in E as [[<- <-]|[_ E]]; [|by apply Hcnt].
    exists ∅. split; [done|]. intros t'. split; [by intros ?%not_elem_of_empty|]. by intros ?%Hnw.
  - intros n' c E. apply lookup_insert_Some in E as [[_ <-]|[_ E]]; [rewrite lookup_insert_eq; eauto|].
    destruct (Hctr _ _ E) as [l El]. rewrite lookup_insert_ne; [eauto|]. intros <-. congruence.
  - intros c E. destruct (decide (c = ml_fresh s)) as [->|Hne]; [lia|].
    rewrite lookup_insert_ne in E by done. apply Hfresh in E. lia.
  - intros n1 n2 c E1 E2. apply lookup_insert_Some in E1 as [[<- <-]|[_ E1]], E2 as [[<- E2]|[_ E2]]; [done| | |by eapply Hinj].
    + destruct (Hctr _ _ E2). congruence.
    + subst c. destruct (Hctr _ _ E1). congruence.
  - intros t' n' c Hq t''. rewrite Hwait. which_thread Hq; [done|by eapply Hdel].
  - intros t' n' c Hq. which_thread Hq; [done|].
    by pose proof (mu_unique _ _ _ _ _ _ Hi' Hrun eq_refl Hq eq_refl).
  - intros n' c E. setoid_rewrite runs_at.
    apply lookup_insert_Some in E as [[<- <-]|[_ E]]; [exists t; left; eauto|].
    destruct (Hlive _ _ E) as (t' & [(q & Hq & Eq)|Hh]); exists t'; [left|by right].
    exists q. split; [|done]. right. split; [|done]. intros ->. by rewrite (runs_det _ _ _ _ Hq Hrun) in Eq.
  - intros t' q Hq. which_thread Hq; [done|by eapply Hok].
Qed.

(** The number of threads fits the counters. *)
Definition few (T : gset tid) : Prop := Z.of_nat (size T) < 2 ^ 31.

Lemma waiting_in T s c t : inv T s -> waiting s c t -> t ∈ T.
Proof.
  intros Hi (p & Hp & _). rewrite <- (i_dom _ _ Hi). apply elem_of_dom. by exists p.
Qed.

Lemma inv_inc T s t n c l :
  few T -> inv T s -> runs s t (LInc n c) -> ml_ctrs s !! c = Some l ->
  inv T (at_pc (set_ctr s c (inc l)) t (LLeave n c)).
Proof.
  intros Hfew Hi Hrun El. pose proof Hi as Hi'. inv_open Hi.
  assert (forall c' t', waiting (at_pc (set_ctr s c (inc l)) t (LLeave n c)) c' t' <->
    t' = t /\ c' = c \/ waiting s c' t') as Hwait.
  { intros c' t'. rewrite waiting_at. cbn. split; [naive_solver|]. intros [[-> ->]|Hw]; [by left|right].
    split; [|done]. intros ->. destruct Hw as (q & Hq & E). by rewrite (runs_det _ _ _ _ Hq Hrun) in E. }
  assert (forall c' t' n', owned (at_pc (set_ctr s c (inc l)) t (LLeave n c)) c' t' n' <-> owned s c' t' n') as Hown.
  { intros c' t' n'. unfold owned. cbn. destruct (decide (c' = c)) as [->|Hne].
    - rewrite lookup_insert_eq, El. destruct l as [m w]. cbn. split; intros [w' [= -> _]]; eauto.
    - by rewrite lookup_insert_ne by done. }
  split; cbn.
  - by rewrite (dom_at _ _ _ _ Hrun).
  - intros t' E. setoid_rewrite runs_at. rewrite (Hmu2 _ _ Hrun eq_refl) in E. injection E as <-. eauto.
  - intros t' q Hq E. which_thread Hq; by eapply Hmu2.
  - intros t' q n' c' Hq E. which_thread Hq; [injection E as -> ->; by eapply Huse|by eapply Huse].
  - intros t' q n' oc Hq E. which_thread Hq; [done|by eapply Hunl].
  - intros t' n' c' E. destruct (Hheld _ _ _ E) as [E1|[Hq _]]; [by left|].
    by rewrite (mu_unique _ _ _ _ _ _ Hi' Hrun eq_refl Hq eq_refl) in Hq; pose proof (runs_det _ _ _ _ Hq Hrun).
  - intros t' n' c' E. apply Hown. by apply Hown1.
  - intros t' n' c' Hq. which_thread Hq; [done|]. apply Hown. by apply Hown2.
  - intros t' n' c' Ho%Hown%Hown3. setoid_rewrite runs_at. destruct Ho as [Hq|?]; [left|by right].
    right. split; [|done]. intros ->. by pose proof (runs_det _ _ _ _ Hq Hrun).
  - intros c' l' E. setoid_rewrite Hwait. apply lookup_insert_Some in E as [[<- <-]|[Hne E]].
    + destruct (Hcnt _ _ El) as (X & HX & HXt). exists ({[t]} ∪ X).
      assert (t ∉ X) as Ht.
      { rewrite HXt. intros (q & Hq & E). by rewrite (runs_det _ _ _ _ Hq Hrun) in E. }
      assert (size ({[t]} ∪ X) = S (size X)) as Hsize by (rewrite size_union, size_singleton; set_solver).
      assert (size ({[t]} ∪ X) <= size T)%nat as Hle.
      { apply subseteq_size. intros t'. rewrite elem_of_union, elem_of_singleton, HXt.
        intros [->|Hw]; [rewrite <- Hdom; apply elem_of_dom; by eexists|by eapply waiting_in]. }
      split.
      * cbn. rewrite HX, Hsize. unfold few in Hfew. rewrite wrap_i32_small by (unfold two31; lia). lia.
      * intros t'. rewrite elem_of_union, elem_of_singleton, HXt. naive_solver.
    + destruct (Hcnt _ _ E) as (X & HX & HXt). exists X. split; [done|]. intros t'. rewrite HXt. naive_solver.
  - intros n' c' E. destruct (decide (c' = c)) as [->|Hne]; [rewrite lookup_insert_eq; eauto|].
    rewrite lookup_insert_ne by done. by eapply Hctr.
  - intros c' E. destruct (decide (c' = c)) as [->|Hne]; [apply Hfresh; eauto|].
    rewrite lookup_insert_ne in E by done. by apply Hfresh.
  - done.
  - intros t' n' c' Hq t''. which_thread Hq; [done|].
    by pose proof (mu_unique _ _ _ _ _ _ Hi' Hrun eq_refl Hq eq_refl).
  - intros t' n' c' Hq. which_thread Hq; [done|].
    by pose proof (mu_unique _ _ _ _ _ _ Hi' Hrun eq_refl Hq eq_refl).
  - intros n' c' E. setoid_rewrite runs_at.
    destruct (Hlive _ _ E) as (t' & [(q & Hq & Eq)|Hh]); exists t'; [left|by right].
    destruct (decide (t' = t)) as [->|Hne]; [|eauto 6].
    rewrite (runs_det _ _ _ _ Hq Hrun) in Eq. cbn in Eq. injection Eq as -> ->. eauto.
  - intros t' q Hq. which_thread Hq; [done|by eapply Hok].
Qed.

(** A thread locks the mutex of its counter. *)
Lemma inv_acquire T s t n c w :
  inv T s -> runs s t (LWait n c) -> ml_ctrs s !! c = Some (MkLockCtr None w) ->
  inv T (at_pc (set_ctr s c (MkLockCtr (Some (t, n)) w)) t (LDec n c)).
Proof.
  intros Hi Hrun El. pose proof Hi as Hi'. inv_open Hi.
  set (s' := at_pc _ t _).
  assert (forall c' t', waiting s' c' t' <-> waiting s c' t') as Hwait.
  { intros c' t'. unfold s'. rewrite waiting_at. cbn. split.
    - intros [[-> [= ->]]|[_ Hw]]; [|exact Hw]. by exists (LWait n c').
    - intros (q & Hq & E). destruct (decide (t' = t)) as [->|Hne]; [left|right; split; [done|by exists q]].
      by rewrite (runs_det _ _ _ _ Hq Hrun) in E. }
  assert (forall c' t' n', owned s' c' t' n' <-> c' = c /\ t' = t /\ n' = n \/ c' <> c /\ owned s c' t' n') as Hown.
  { intros c' t' n'. unfold owned, s'. cbn. destruct (decide (c' = c)) as [->|Hne].
    - rewrite lookup_insert_eq. split; [intros [w' [= -> -> ->]]; by left|].
      intros [(_ & -> & ->)|[? _]]; [eauto|done].
    - rewrite lookup_insert_ne by done. naive_solver. }
  assert (forall t' n', ~ owned s c t' n') as Hfree by (intros t' n' [w' E]; congruence).
  split; cbn.
  - by rewrite (dom_at _ _ _ _ Hrun).
  - intros t' E. unfold s'. setoid_rewrite runs_at. destruct (Hmu1 _ E) as (q & Hq & Eq). exists q.
    split; [|done]. right. split; [|done]. intros ->. by rewrite (runs_det _ _ _ _ Hq Hrun) in Eq.
  - intros t' q Hq E. which_thread Hq; [done|by eapply Hmu2].
  - intros t' q n' c' Hq E. which_thread Hq; [injection E as -> ->|]; by eapply Huse.
  - intros t' q n' oc Hq E. which_thread Hq; [done|by eapply Hunl].
  - intros t' n' c' E. destruct (Hheld _ _ _ E) as [E1|[Hq ?]]; [by left|right]. split; [|done].
    apply runs_at. right. split; [|done]. intros ->. by pose proof (runs_det _ _ _ _ Hq Hrun).
  - intros t' n' c' E. apply Hown. right. pose proof (Hown1 _ _ _ E) as Ho. split; [|done].
    intros ->. by eapply Hfree.
  - intros t' n' c' Hq. apply Hown. which_thread Hq; [simplify_eq; by left|]. right.
    pose proof (Hown2 _ _ _ Hq) as Ho. split; [|done]. intros ->. by eapply Hfree.
  - intros t' n' c' [(-> & -> & ->)|[Hne Ho]]%Hown; unfold s'; setoid_rewrite runs_at; [left; by left|].
    destruct (Hown3 _ _ _ Ho) as [Hq|?]; [left|by right].
    right. split; [|done]. intros ->. by pose proof (runs_det _ _ _ _ Hq Hrun).
  - intros c' l' E. setoid_rewrite Hwait. apply lookup_insert_Some in E as [[<- <-]|[Hne E]].
    + exact (Hcnt _ _ El).
    + by apply Hcnt.
  - intros n' c' E. destruct (decide (c' = c)) as [->|Hne]; [rewrite lookup_insert_eq; eauto|].
    rewrite lookup_insert_ne by done. by eapply Hctr.
  - intros c' E. destruct (decide (c' = c)) as [->|Hne]; [apply Hfresh; eauto|].
    rewrite lookup_insert_ne in E by done. by apply Hfresh.
  - done.
  - intros t' n' c' Hq t''. rewrite Hwait. which_thread Hq; [done|by eapply Hdel].
  - intros t' n' c' Hq. setoid_rewrite Hwait. which_thread Hq; [done|by eapply Hrel].
  - intros n' c' E. unfold s'. setoid_rewrite runs_at.
    destruct (Hlive _ _ E) as (t' & [(q & Hq & Eq)|Hh]); exists t'; [left|by right].
    destruct (decide (t' = t)) as [->|Hne]; [|eauto 6].
    rewrite (runs_det _ _ _ _ Hq Hrun) in Eq. cbn in Eq. injection Eq as -> ->. eauto.
  - intros t' q Hq. which_thread Hq; [done|by eapply Hok].
Qed.

(** [Lock] returns: the thread waits no more and holds the name. *)
Lemma inv_dec T s t n c l :
  few T -> inv T s -> runs s t (LDec n c) -> ml_ctrs s !! c = Some l ->
  inv T (set_held (at_pc (set_ctr s c (dec l)) t Idle) (<[(t, n) := c]> (ml_held s))).
Proof.
  intros Hfew Hi Hrun El. pose proof Hi as Hi'. inv_open Hi.
  set (s' := set_held _ _). pose proof (Hown2 _ _ _ Hrun) as Hot.
  pose proof (Huse _ _ _ _ Hrun eq_refl) as Hlock.
  assert (forall t' q, runs s' t' q <-> t' = t /\ q = Idle \/ t' <> t /\ runs s t' q) as Hruns
    by (intros t' q; exact (runs_at s t Idle t' q)).
  assert (forall c' t', waiting s' c' t' <-> t' <> t /\ waiting s c' t') as Hwait.
  { intros c' t'. unfold waiting. setoid_rewrite Hruns. naive_solver. }
  assert (forall c' t' n', owned s' c' t' n' <-> owned s c' t' n') as Hown.
  { intros c' t' n'. unfold owned, s'. cbn. destruct (decide (c' = c)) as [->|Hne].
    - rewrite lookup_insert_eq, El. destruct l as [m w]. cbn. split; intros [w' [= -> _]]; eauto.
    - by rewrite lookup_insert_ne by done. }
  assert (forall t' n' c', ml_held s' !! (t', n') = Some c' ->
    t' = t /\ n' = n /\ c' = c \/ (t', n') <> (t, n) /\ ml_held s !! (t', n') = Some c') as Hheld'.
  { intros t' n' c' E. unfold s' in E. cbn in E.
    apply lookup_insert_Some in E as [[[= <- <-] <-]|[Hne E]]; [by left|right].
    split; [congruence|done]. }
  split; cbn.
  - by rewrite (dom_at _ _ _ _ Hrun).
  - intros t' E. setoid_rewrite Hruns. destruct (Hmu1 _ E) as (q & Hq & Eq). exists q.
    split; [|done]. right. split; [|done]. intros ->. by rewrite (runs_det _ _ _ _ Hq Hrun) in Eq.
  - intros t' q Hq E. apply Hruns in Hq as [[-> ->]|[_ Hq]]; [done|by eapply Hmu2].
  - intros t' q n' c' Hq E. apply Hruns in Hq as [[-> ->]|[_ Hq]]; [done|by eapply Huse].
  - intros t' q n' oc Hq E. apply Hruns in Hq as [[-> ->]|[Hne Hq]]; [done|].
    destruct (Hunl _ _ _ _ Hq E) as (c' & Ec & Hc). exists c'. split; [|done].
    rewrite lookup_insert_ne; [done|]. congruence.
  - intros t' n' c' [(-> & -> & ->)|[_ E]]%Hheld'; [by left|].
    destruct (Hheld _ _ _ E) as [E1|[Hq ?]]; [by left|right]. split; [|done].
    apply Hruns. right. split; [|done]. intros ->. by pose proof (runs_det _ _ _ _ Hq Hrun).
  - intros t' n' c' [(-> & -> & ->)|[_ E]]%Hheld'; apply Hown; [done|by apply Hown1].
  - intros t' n' c' [[_ [=]]|[_ Hq]]%Hruns. apply Hown. by apply Hown2.
  - intros t' n' c' Ho%Hown. pose proof Ho as [Hq|E]%Hown3.
    + destruct (decide (t' = t)) as [->|Hne]; [right|left; apply Hruns; by right].
      pose proof (runs_det _ _ _ _ Hq Hrun) as [= -> ->]. apply lookup_insert_eq.
    + right. destruct (decide ((t', n') = (t, n))) as [[= -> ->]|Hne]; [|by rewrite lookup_insert_ne].
      rewrite lookup_insert_eq. destruct (Hheld _ _ _ E) as [E1|[Hq _]]; [congruence|].
      by pose proof (runs_det _ _ _ _ Hq Hrun).
  - intros c' l' E. setoid_rewrite Hwait. apply lookup_insert_Some in E as [[<- <-]|[Hne E]].
    + destruct (Hcnt _ _ El) as (X & HX & HXt). exists (X ∖ {[t]}).
      assert (t ∈ X) as Ht by (apply HXt; by exists (LDec n c)).
      assert (size X = S (size (X ∖ {[t]}))) as Hsize.
      { rewrite (union_difference_L {[t]} X) at 1 by set_solver.
        rewrite size_union, size_singleton; set_solver. }
      assert (size X <= size T)%nat as Hle.
      { apply subseteq_size. intros t'. rewrite HXt. by apply waiting_in. }
      split.
      * cbn. rewrite HX, Hsize. unfold few in Hfew. rewrite wrap_i32_small by (unfold two31; lia). lia.
      * intros t'. rewrite elem_of_difference, elem_of_singleton, HXt. naive_solver.
    + destruct (Hcnt _ _ E) as (X & HX & HXt). exists X. split; [done|]. intros t'. rewrite HXt.
      split; [|naive_solver]. intros Hw. split; [|done]. intros ->. destruct Hw as (q & Hq & Eq).
      rewrite (runs_det _ _ _ _ Hq Hrun) in Eq. cbn in Eq. congruence.
  - intros n' c' E. destruct (decide (c' = c)) as [->|Hne]; [rewrite lookup_insert_eq; eauto|].
    rewrite lookup_insert_ne by done. by eapply Hctr.
  - intros c' E. destruct (decide (c' = c)) as [->|Hne]; [apply Hfresh; eauto|].
    rewrite lookup_insert_ne in E by done. by apply Hfresh.
  - done.
  - intros t' n' c' [[_ [=]]|[_ Hq]]%Hruns t'' [_ Hw]%Hwait. by eapply Hdel.
  - intros t' n' c' [[_ [=]]|[Hne Hq]]%Hruns. setoid_rewrite Hwait. rewrite (Hrel _ _ _ Hq).
    split; [|naive_solver]. intros [t'' Hw]. exists t''. split; [|done]. intros ->. destruct Hw as (q & Hq2 & Eq).
    rewrite (runs_det _ _ _ _ Hq2 Hrun) in Eq. cbn in Eq. injection Eq as ->.
    destruct (Hunl _ _ _ _ Hq eq_refl) as (c2 & Eh & Hc2). rewrite <- (Hc2 _ eq_refl) in Eh.
    apply Hne. by destruct (owned_det _ _ _ _ _ _ (Hown1 _ _ _ Eh) Hot).
  - intros n' c' E. setoid_rewrite Hruns.
    destruct (Hlive _ _ E) as (t' & [(q & Hq & Eq)|Hh]).
    + destruct (decide (t' = t)) as [->|Hne]; [|exists t'; left; eauto 6].
      rewrite (runs_det _ _ _ _ Hq Hrun) in Eq. cbn in Eq. injection Eq as -> ->.
      exists t. right. apply lookup_insert_eq.
    + exists t'. right. destruct (decide ((t', n') = (t, n))) as [[= -> ->]|Hne]; [|by rewrite lookup_insert_ne].
      rewrite lookup_insert_eq. congruence.
  - intros t' q [[-> ->]|[_ Hq]]%Hruns; [done|by eapply Hok].
Qed.

(** [Unlock] drops the counter nobody waits for. *)
Lemma inv_delete T s t n c :
  inv T s -> runs s t (UDelete n c) ->
  inv T (at_pc (set_locks s (delete n (ml_locks s))) t (URelease n c)).
Proof.
  intros Hi Hrun. pose proof Hi as Hi'. inv_open Hi. set (s' := at_pc _ t _).
  destruct (Hunl _ _ _ _ Hrun eq_refl) as (c0 & Eh & Hc0). pose proof (Hc0 _ eq_refl) as <-. clear Hc0.
  assert (ml_locks s !! n = Some c) as Hlock.
  { destruct (Hheld _ _ _ Eh) as [?|[Hq _]]; [done|]. by pose proof (runs_det _ _ _ _ Hq Hrun). }
  assert (forall c' t', waiting s' c' t' <-> waiting s c' t') as Hwait.
  { intros c' t'. unfold s'. rewrite waiting_at. cbn. split; [naive_solver|]. intros Hw. right.
    split; [|done]. intros ->. destruct Hw as (q & Hq & E). by rewrite (runs_det _ _ _ _ Hq Hrun) in E. }
  assert (forall n' c', n' <> n -> ml_locks s !! n' = Some c' -> delete n (ml_locks s) !! n' = Some c') as Hother
    by (intros n' c' Hne E; by rewrite lookup_delete_ne).
  split; cbn.
  - by rewrite (dom_at _ _ _ _ Hrun).
  - intros t' E. unfold s'. setoid_rewrite runs_at. rewrite (Hmu2 _ _ Hrun eq_refl) in E. injection E as <-. eauto.
  - intros t' q Hq E. which_thread Hq; by eapply Hmu2.
  - intros t' q n' c' Hq E. which_thread Hq; [done|]. pose proof (Huse _ _ _ _ Hq E) as El.
    apply Hother; [|done]. intros ->. assert (c' = c) as -> by congruence.
    destruct q; try done; cbn in E; injection E as -> ->.
    + by pose proof (mu_unique _ _ _ _ _ _ Hi' Hrun eq_refl Hq eq_refl).
    + by apply (Hdel _ _ _ Hrun t'); exists (LLeave n c).
    + by apply (Hdel _ _ _ Hrun t'); exists (LWait n c).
    + by apply (Hdel _ _ _ Hrun t'); exists (LDec n c).
  - intros t' q n' oc Hq E. which_thread Hq; [injection E as -> <-; exists c; split; [done|congruence]|].
    by eapply Hunl.
  - intros t' n' c' E. destruct (decide (n' = n)) as [->|Hne].
    + right. rewrite lookup_delete_eq. split; [|done]. apply runs_at.
      destruct (Hheld _ _ _ E) as [El|[_ El]]; [|congruence]. assert (c' = c) as -> by congruence.
      destruct (owned_det _ _ _ _ _ _ (Hown1 _ _ _ E) (Hown1 _ _ _ Eh)) as [-> _]. by left.
    + destruct (Hheld _ _ _ E) as [El|[Hq El]]; [left; by apply Hother|right].
      split; [|by rewrite lookup_delete_ne]. apply runs_at. right. split; [|done]. intros ->.
      by pose proof (runs_det _ _ _ _ Hq Hrun).
  - exact Hown1.
  - intros t' n' c' Hq. which_thread Hq; [done|by apply Hown2].
  - intros t' n' c' Ho. unfold s'. setoid_rewrite runs_at. destruct (Hown3 _ _ _ Ho) as [Hq|?]; [left|by right].
    right. split; [|done]. intros ->. by pose proof (runs_det _ _ _ _ Hq Hrun).
  - intros c' l E. setoid_rewrite Hwait. by apply Hcnt.
  - intros n' c' E. apply lookup_delete_Some in E as [_ E]. by eapply Hctr.
  - exact Hfresh.
  - intros n1 n2 c' E1 E2. apply lookup_delete_Some in E1 as [_ E1], E2 as [_ E2]. by eapply Hinj.
  - intros t' n' c' Hq t''. rewrite Hwait. which_thread Hq; [done|by eapply Hdel].
  - intros t' n' c' Hq. setoid_rewrite Hwait. which_thread Hq.
    + simplify_eq. rewrite lookup_delete_eq. split; [done|]. intros [t'' Hw]. by destruct (Hdel _ _ _ Hrun t'').
    + by pose proof (mu_unique _ _ _ _ _ _ Hi' Hrun eq_refl Hq eq_refl).
  - intros n' c' E. apply lookup_delete_Some in E as [_ E]. unfold s'. setoid_rewrite runs_at.
    destruct (Hlive _ _ E) as (t' & [(q & Hq & Eq)|Hh]); exists t'; [left|by right].
    exists q. split; [|done]. right. split; [|done]. intros ->. by rewrite (runs_det _ _ _ _ Hq Hrun) in Eq.
  - intros t' q Hq. which_thread Hq; [done|by eapply Hok].
Qed.

(** [Unlock] unlocks the mutex of the counter; the name is no longer held. *)
Lemma inv_release T s t n c w x :
  inv T s -> runs s t (URelease n c) -> ml_ctrs s !! c = Some (MkLockCtr (Some x) w) ->
  inv T (set_held (at_pc (set_ctr s c (MkLockCtr None w)) t ULeave) (delete (t, n) (ml_held s))).
Proof.
  intros Hi Hrun El. pose proof Hi as Hi'. inv_open Hi. set (s' := set_held _ _).
  destruct (Hunl _ _ _ _ Hrun eq_refl) as (c0 & Eh & Hc0). pose proof (Hc0 _ eq_refl) as <-. clear Hc0.
  pose proof (Hown1 _ _ _ Eh) as Hot.
  assert (forall t' q, runs s' t' q <-> t' = t /\ q = ULeave \/ t' <> t /\ runs s t' q) as Hruns
    by (intros t' q; exact (runs_at s t ULeave t' q)).
  assert (forall c' t', waiting s' c' t' <-> waiting s c' t') as Hwait.
  { intros c' t'. unfold waiting. setoid_rewrite Hruns. split; [naive_solver|]. intros (q & Hq & E).
    exists q. split; [|done]. right. split; [|done]. intros ->. by rewrite (runs_det _ _ _ _ Hq Hrun) in E. }
  assert (forall c' t' n', owned s' c' t' n' <-> c' <> c /\ owned s c' t' n') as Hown.
  { intros c' t' n'. unfold owned, s'. cbn. destruct (decide (c' = c)) as [->|Hne].
    - rewrite lookup_insert_eq. naive_solver.
    - rewrite lookup_insert_ne by done. naive_solver. }
  assert (forall t' n' c', delete (t, n) (ml_held s) !! (t', n') = Some c' ->
    ml_held s !! (t', n') = Some c' /\ c' <> c) as Hheld'.
  { intros t' n' c' [Hne E]%lookup_delete_Some. split; [done|]. intros ->. apply Hne.
    by destruct (owned_det _ _ _ _ _ _ (Hown1 _ _ _ E) Hot) as [-> ->]. }
  split; cbn.
  - by rewrite (dom_at _ _ _ _ Hrun).
  - intros t' E. setoid_rewrite Hruns. rewrite (Hmu2 _ _ Hrun eq_refl) in E. injection E as <-. eauto.
  - intros t' q [[-> ->]|[_ Hq]]%Hruns E; by eapply Hmu2.
  - intros t' q n' c' [[-> ->]|[_ Hq]]%Hruns E; [done|by eapply Huse].
  - intros t' q n' oc [[-> ->]|[Hne Hq]]%Hruns E; [done|].
    destruct (Hunl _ _ _ _ Hq E) as (c' & Ec & Hc). exists c'. split; [|done].
    rewrite lookup_delete_ne; [done|]. congruence.
  - intros t' n' c' [E Hne]%Hheld'. destruct (Hheld _ _ _ E) as [E1|[Hq ?]]; [by left|].
    pose proof (mu_unique _ _ _ _ _ _ Hi' Hrun eq_refl Hq eq_refl) as ->.
    pose proof (runs_det _ _ _ _ Hq Hrun) as [= -> ->]. done.
  - intros t' n' c' [E Hne]%Hheld'. apply Hown. split; [done|by apply Hown1].
  - intros t' n' c' [[_ [=]]|[_ Hq]]%Hruns. apply Hown. pose proof (Hown2 _ _ _ Hq) as Ho. split; [|done].
    intros ->. destruct (owned_det _ _ _ _ _ _ Ho Hot) as [-> ->]. by pose proof (runs_det _ _ _ _ Hq Hrun).
  - intros t' n' c' [Hne Ho]%Hown. destruct (Hown3 _ _ _ Ho) as [Hq|E].
    + left. apply Hruns. right. split; [|done]. intros ->. by pose proof (runs_det _ _ _ _ Hq Hrun).
    + right. rewrite lookup_delete_ne; [done|]. intros [= <- <-]. congruence.
  - intros c' l E. setoid_rewrite Hwait. apply lookup_insert_Some in E as [[<- <-]|[_ E]]; [|by apply Hcnt].
    exact (Hcnt _ _ El).
  - intros n' c' E. destruct (decide (c' = c)) as [->|Hne]; [rewrite lookup_insert_eq; eauto|].
    rewrite lookup_insert_ne by done. by eapply Hctr.
  - intros c' E. destruct (decide (c' = c)) as [->|Hne]; [apply Hfresh; eauto|].
    rewrite lookup_insert_ne in E by done. by apply Hfresh.
  - exact Hinj.
  - intros t' n' c' [[_ [=]]|[_ Hq]]%Hruns t''. rewrite Hwait. by eapply Hdel.
  - intros t' n' c' [[_ [=]]|[Hne Hq]]%Hruns. setoid_rewrite Hwait. by eapply Hrel.
  - intros n' c' E. setoid_rewrite Hruns. destruct (decide (n' = n)) as [->|Hne].
    + destruct (Hheld _ _ _ Eh) as [E1|[_ E1]]; [|congruence]. assert (c' = c) as -> by congruence.
      destruct (proj1 (Hrel _ _ _ Hrun) E) as [t' (q & Hq & Eq)].
      exists t'. left. exists q. split.
      * right. split; [|done]. intros ->. by rewrite (runs_det _ _ _ _ Hq Hrun) in Eq.
      * assert (exists n'', uses q = Some (n'', c)) as [n'' Eu]
          by (destruct q; cbn in Eq |- *; simplify_eq; eauto).
        rewrite Eu. pose proof (Huse _ _ _ _ Hq Eu). do 2 f_equal. by eapply Hinj.
    + destruct (Hlive _ _ E) as (t' & [(q & Hq & Eq)|Hh]); exists t'; [left|right].
      * exists q. split; [|done]. right. split; [|done]. intros ->. by rewrite (runs_det _ _ _ _ Hq Hrun) in Eq.
      * rewrite lookup_delete_ne; [done|]. congruence.
  - intros t' q [[-> ->]|[_ Hq]]%Hruns; [done|by eapply Hok].
Qed.

(** ** Reachable states *)
Lemma go_inv T s s' t : few T -> inv T s -> go t s = Some s' -> inv T s'.
Proof.
  intros Hfew Hi E. unfold go in E. destruct (ml_pcs s !! t) as [p|] eqn:Hrun; [|done].
  change (runs s t p) in Hrun.
  destruct p as [|n|n|n c|n c|n c|n c|n|n|n c|n c|n c| | |]; try done.
  - destruct (ml_mu s) eqn:Em; [done|]. injection E as <-.
    apply (inv_move T s t _ _ _ Hi Hrun); done.
  - destruct (ml_locks s !! n) as [c|] eqn:En; injection E as <-; [|by apply inv_make].
    apply (inv_move T s t _ (LInc n c) (ml_mu s) Hi Hrun); try done. by intros n' c' [= <- <-].
  - destruct (ml_ctrs s !! c) as [l|] eqn:El; [|done]. injection E as <-. by apply inv_inc.
  - injection E as <-. apply (inv_move T s t _ _ _ Hi Hrun); try done.
    intros n' c' [= <- <-]. by apply (i_use _ _ Hi _ _ _ _ Hrun).
  - destruct (ml_ctrs s !! c) as [[[?|] w]|] eqn:El; [done| |done]. injection E as <-. by apply inv_acquire.
  - destruct (ml_ctrs s !! c) as [l|] eqn:El; [|done]. injection E as <-. by apply inv_dec.
  - destruct (ml_mu s) eqn:Em; [done|]. injection E as <-.
    apply (inv_move T s t _ _ _ Hi Hrun); try done.
    intros n' oc [= <- <-]. destruct (i_unl _ _ Hi _ _ _ _ Hrun eq_refl) as (c & Hc & _). by exists c.
  - destruct (i_unl _ _ Hi _ _ _ _ Hrun eq_refl) as (c & Hc & _).
    destruct (i_held _ _ Hi _ _ _ Hc) as [El|[Hq _]]; [|by pose proof (runs_det _ _ _ _ Hq Hrun)].
    rewrite El in E. injection E as <-.
    apply (inv_move T s t _ (UCount n c) (ml_mu s) Hi Hrun); try done.
    intros n' oc [= <- <-]. exists c. split; [done|]. by intros c' [= ->].
  - destruct (ml_ctrs s !! c) as [l|] eqn:El; [|done]. injection E as <-.
    destruct (i_cnt _ _ Hi _ _ El) as (X & HX & HXt). unfold count. rewrite HX.
    destruct (Z.eqb_spec (Z.of_nat (size X)) 0) as [E0|E0];
      apply (inv_move T s t _ _ (ml_mu s) Hi Hrun); try done.
    + intros n' oc [= <- <-]. exact (i_unl _ _ Hi _ _ _ _ Hrun eq_refl).
    + intros n' c' [= <- <-] t' Hw%HXt. assert (X ≡ ∅) by (apply size_empty_inv; lia). set_solver.
    + intros n' oc [= <- <-]. exact (i_unl _ _ Hi _ _ _ _ Hrun eq_refl).
    + intros n' c' [= <- <-]. destruct (i_unl _ _ Hi _ _ _ _ Hrun eq_refl) as (c0 & Eh & Hc0).
      rewrite <- (Hc0 _ eq_refl) in Eh.
      destruct (i_held _ _ Hi _ _ _ Eh) as [?|[Hq _]]; [|by pose proof (runs_det _ _ _ _ Hq Hrun)].
      split; [|done]. intros _. destruct (set_choose_L X) as [t' Ht']; [|exists t'; by apply HXt].
      intros ->. by rewrite size_empty in E0.
  - injection E as <-. by apply inv_delete.
  - destruct (i_unl _ _ Hi _ _ _ _ Hrun eq_refl) as (c0 & Eh & Hc0).
    rewrite <- (Hc0 _ eq_refl) in Eh. destruct (i_own1 _ _ Hi _ _ _ Eh) as [w El]. rewrite El in E.
    injection E as <-. by eapply inv_release.
  - injection E as <-. by apply (inv_move T s t _ _ _ Hi Hrun).
  - by destruct (i_ok _ _ Hi _ _ Hrun).
Qed.

Lemma lock_step_inv T s s' : few T -> step s s' -> inv T s -> inv T s'.
Proof.
  intros Hfew Hs Hi. destruct Hs as [s t n Hrun|s t n c Hrun Eh|s s' t E]; [..|by eapply go_inv].
  - by apply (inv_move T s t Idle (LEnter n) (ml_mu s) Hi Hrun).
  - apply (inv_move T s t Idle (UEnter n) (ml_mu s) Hi Hrun); try done.
    intros n' oc [= <- <-]. by exists c.
Qed.

Lemma new_inv T : inv T (NewMapLock T).
Proof.
  assert (forall t p, runs (NewMapLock T) t p -> p = Idle) as Hidle
    by (intros t p [_ ?]%lookup_gset_to_gmap_Some; done).
  split; unfold owned; cbn; [apply dom_gset_to_gmap|..]; intros;
    repeat match goal with H : runs _ _ _ |- _ => apply Hidle in H; simplify_eq/= end;
    repeat match goal with H : exists _, _ |- _ => destruct H | H : is_Some _ |- _ => destruct H end;
    by simplify_map_eq.
Qed.

Lemma lock_reachable_inv T s : few T -> rtc step (NewMapLock T) s -> inv T s.
Proof.
  intros Hfew Hr. pose proof (new_inv T) as Hi. induction Hr; eauto using lock_step_inv.
Qed.

(** ** Theorems *)

(** C6: two threads never hold the lock of a name at the same time, whatever the
    interleaving of their steps, for up to 2^31 threads. *)
Theorem mutual_exclusion T s t1 t2 n c1 c2 :
  few T -> rtc step (NewMapLock T) s ->
  ml_held s !! (t1, n) = Some c1 -> ml_held s !! (t2, n) = Some c2 -> t1 = t2.
Proof.
  intros Hfew Hr H1 H2. pose proof (lock_reachable_inv T s Hfew Hr) as Hi.
  destruct (i_held _ _ Hi _ _ _ H1) as [E1|[Q1 E1]], (i_held _ _ Hi _ _ _ H2) as [E2|[Q2 E2]]; try congruence.
  - assert (c1 = c2) as -> by congruence.
    by destruct (owned_det _ _ _ _ _ _ (i_own1 _ _ Hi _ _ _ H1) (i_own1 _ _ Hi _ _ _ H2)).
  - by pose proof (mu_unique _ _ _ _ _ _ Hi Q2 eq_refl Q1 eq_refl).
Qed.

(** Unlock of a held name never returns ErrNoSuchLock and never unlocks a
    mutex that is not locked. *)
Theorem unlock_succeeds T s t p :
  few T -> rtc step (NewMapLock T) s -> ml_pcs s !! t = Some p -> p <> UMissing /\ p <> Crashed.
Proof. intros Hfew Hr. by apply (i_ok _ _ (lock_reachable_inv T s Hfew Hr)). Qed.

(** The map has an entry only for a name that a thread holds or is about to
    lock: with all threads idle and no name held it is empty. *)
Theorem no_stale_locks T s :
  few T -> rtc step (NewMapLock T) s ->
  (forall t p, ml_pcs s !! t = Some p -> p = Idle) -> ml_held s = ∅ -> ml_locks s = ∅.
Proof.
  intros Hfew Hr Hidle Hh. pose proof (lock_reachable_inv T s Hfew Hr) as Hi.
  apply map_eq. intros n. rewrite lookup_empty. destruct (ml_locks s !! n) as [c|] eqn:E; [|done].
  destruct (i_live _ _ Hi _ _ E) as (t & [(p & Hp & Eu)|Hheld]).
  - by rewrite (Hidle _ _ Hp) in Eu.
  - by rewrite Hh, lookup_empty in Hheld.
Qed.

(** A thread is blocked in Lock only by a thread that holds the name or by
    the thread in the main mutex, and a thread in the main mutex is never
    blocked. *)
Theorem blocked_by_holder T s t p :
  few T -> rtc step (NewMapLock T) s -> ml_pcs s !! t = Some p -> p <> Idle -> go t s = None ->
  (exists t' p', t' <> t /\ ml_mu s = Some t' /\ ml_pcs s !! t' = Some p' /\ is_Some (go t' s)) \/
  (exists n c t', p = LWait n c /\
     (ml_held s !! (t', n) = Some c \/ ml_pcs s !! t' = Some (LDec n c) /\ is_Some (go t' s))).
Proof.
  intros Hfew Hr Hrun Hne E. pose proof (lock_reachable_inv T s Hfew Hr) as Hi.
  assert (forall t' q n c, runs s t' q -> uses q = Some (n, c) -> is_Some (ml_ctrs s !! c)) as Hctr.
  { intros t' q n c Hq Eq. eapply i_ctr; [exact Hi|]. by eapply i_use. }
  assert (forall t' q, runs s t' q -> in_mu q = true -> is_Some (go t' s)) as Hgo.
  { intros t' q Hq Eq. unfold go. rewrite Hq. destruct q; try done; eauto.
    - destruct (ml_locks s !! n); eauto.
    - destruct (Hctr _ _ _ _ Hq eq_refl) as [l ->]. cbn. eauto.
    - destruct (ml_locks s !! n); eauto.
    - destruct (i_unl _ _ Hi _ _ _ _ Hq eq_refl) as (c0 & Eh & Hc0). rewrite <- (Hc0 _ eq_refl) in Eh.
      destruct (i_own1 _ _ Hi _ _ _ Eh) as [w ->]. cbn. eauto.
    - destruct (ml_ctrs s !! c) as [[[] ?]|]; eauto. }
  assert (forall t', ml_mu s = Some t' -> in_mu p = false -> exists t' p', t' <> t /\ ml_mu s = Some t' /\
    ml_pcs s !! t' = Some p' /\ is_Some (go t' s)) as Hmu.
  { intros t' Em Ep. destruct (i_mu1 _ _ Hi _ Em) as (q & Hq & Eq). exists t', q. split_and!; eauto.
    intros ->. rewrite (runs_det _ _ _ _ Hq Hrun) in Eq. congruence. }
  destruct (in_mu p) eqn:Ep; [destruct (Hgo _ _ Hrun Ep); congruence|].
  unfold go in E. rewrite Hrun in E. destruct p; try done.
  - destruct (ml_mu s) eqn:Em; [|done]. left. by eapply Hmu.
  - destruct (Hctr _ _ _ _ Hrun eq_refl) as [[[[t' n']|] w] El]; rewrite El in E; [|done].
    right. exists n, c, t'. split; [done|].
    assert (owned s c t' n') as Ho by by exists w.
    assert (n' = n) as ->.
    { eapply (i_inj _ _ Hi n' n c); [|by eapply i_use].
      destruct (i_own3 _ _ Hi _ _ _ Ho) as [Hq|Eh]; [by eapply i_use|].
      destruct (i_held _ _ Hi _ _ _ Eh) as [?|[Hq En]]; [done|].
      apply (i_rel _ _ Hi _ _ _ Hq). exists t. by exists (LWait n c). }
    destruct (i_own3 _ _ Hi _ _ _ Ho) as [Hq|Eh]; [right|by left]. split; [done|].
    unfold go. rewrite Hq, El. cbn. eauto.
  - destruct (Hctr _ _ _ _ Hrun eq_refl) as [l El]. by rewrite El in E.
  - destruct (ml_mu s) eqn:Em; [|done]. left. by eapply Hmu.
  - by destruct (i_ok _ _ Hi _ _ Hrun).
Qed.

(** ** Two threads and one name *)
Module LockSample.

(** A schedule: calls of Lock and Unlock, and steps of threads. *)
Inductive move := MLock (t : tid) (n : string) | MUnlock (t : tid) (n : string) | MGo (t : tid).

Definition play1 (m : move) s : option Maplock :=
  match m with
  | MLock t n => if decide (ml_pcs s !! t = Some Idle) then Some (at_pc s t (LEnter n)) else None
  | MUnlock t n =>
      if decide (ml_pcs s !! t = Some Idle /\ is_Some (ml_held s !! (t, n)))
      then Some (at_pc s t (UEnter n)) else None
  | MGo t => go t s
  end.
Fixpoint play (ms : list move) s : option Maplock :=
  match ms with [] => Some s | m :: ms' => s' ← play1 m s; play ms' s' end.

Lemma play_steps ms s s' : play ms s = Some s' -> rtc step s s'.
Proof.
  revert s. induction ms as [|m ms IH]; intros s E; cbn in E; [injection E as ->; apply rtc_refl|].
  destruct (play1 m s) as [s1|] eqn:E1; [|done]. eapply rtc_l; [|by apply IH]. unfold play1 in E1. destruct m.
  - case_decide; [|done]. injection E1 as <-. by apply step_lock.
  - case_decide as Hd; [|done]. injection E1 as <-. destruct Hd as [Hd [c Hc]]. by eapply step_unlock.
  - by eapply step_go.
Qed.

Definition two : gset tid := {[1%nat; 2%nat]}.
Definition lock_schedule : list move :=
  MLock 1 "order" :: replicate 6 (MGo 1) ++ MLock 2 "order" :: replicate 4 (MGo 2).
Definition unlock_schedule : list move :=
  MLock 1 "order" :: replicate 6 (MGo 1) ++ MUnlock 1 "order" :: replicate 6 (MGo 1).
Definition contended : Maplock := default (NewMapLock two) (play lock_schedule (NewMapLock two)).
Definition released : Maplock := default (NewMapLock two) (play unlock_schedule (NewMapLock two)).

Lemma few_two : few two.
Proof. by vm_compute. Qed.
Lemma contended_reachable : rtc step (NewMapLock two) contended.
Proof. apply (play_steps lock_schedule). vm_compute. reflexivity. Qed.
Lemma released_reachable : rtc step (NewMapLock two) released.
Proof. apply (play_steps unlock_schedule). vm_compute. reflexivity. Qed.

Lemma mutual_exclusion_witness : 1%nat = 1%nat.
Proof.
  apply (mutual_exclusion two contended 1 1 "order" 0 0 few_two contended_reachable);
    vm_compute; reflexivity.
Defined.
Lemma unlock_succeeds_witness : LWait "order" 0 <> UMissing /\ LWait "order" 0 <> Crashed.
Proof.
  apply (unlock_succeeds two contended 2 (LWait "order" 0) few_two contended_reachable).
  vm_compute. reflexivity.
Defined.
Lemma no_stale_locks_witness : ml_locks released = ∅.
Proof.
  apply (no_stale_locks two released few_two released_reachable).
  - assert (ml_pcs released = {[1%nat := Idle; 2%nat := Idle]}) as -> by (vm_compute; reflexivity).
    intros t p [[_ <-]|[_ [_ <-]%lookup_singleton_Some]]%lookup_insert_Some; done.
  - vm_compute. reflexivity.
Defined.
Lemma blocked_by_holder_witness :
  (exists t' p', t' <> 2%nat /\ ml_mu contended = Some t' /\ ml_pcs contended !! t' = Some p' /\
     is_Some (go t' contended)) \/
  (exists n c t', LWait "order" 0 = LWait n c /\
     (ml_held contended !! (t', n) = Some c \/
      ml_pcs contended !! t' = Some (LDec n c) /\ is_Some (go t' contended))).
Proof.
  apply (blocked_by_holder two contended 2 (LWait "order" 0) few_two contended_reachable);
    [vm_compute; reflexivity|done|vm_compute; reflexivity].
Defined.
End LockSample.
