(* ===== verification/Stage.v ===== *)
(** * The staging area of a gateway ([node/gateway/stage.go])

    The content of an order waits in a file of the staging directory until the
    storage nodes have fetched it: [StageShard] writes it, [GetStagedShard] reads
    it and [UnstageShard] removes it.  The file is named after the owner, the
    identifier of the content and the data id; [filepath.Join] and
    [filepath.Clean] are modelled as they are on Unix.

    The files of the machine are the interface [FileSys], with the laws
    [FileLaws].  [staging_refines] shows that the three functions implement a
    finite map from (owner, cid, data id) to contents. *)
From stdpp Require Import base list gmap strings.
From Stdlib Require Import ZArith Lia Ascii.
From S2P Require Import Prelude Types StateUtils Cbor CborTypes Instances ChainApi.

(** ** Paths: [filepath.Clean] and [filepath.Join] *)

(** [strings.Join(elems, "/")] *)
Fixpoint join_slash (elems : list string) : string :=
  match elems with
  | [] => ""
  | [e] => e
  | e :: rest => e +:+ String "/" (join_slash rest)
  end.

Definition rooted (path : string) : bool := HasPrefix path "/".

(** The elements of a path are read from the left; [out] has those that are left,
    the last one first.  Empty elements and dots are dropped; a double dot drops
    the element before it, or is kept when there is none and the path is
    relative. *)
Definition clean_step (root : bool) (out : list string) (e : string) : list string :=
  if String.eqb e "" || String.eqb e "." then out
  else if String.eqb e ".." then
    match out with
    | [] => if root then [] else [".."]
    | top :: out' => if String.eqb top ".." then ".." :: out else out'
    end
  else e :: out.

Definition clean_elems (path : string) : list string :=
  foldl (clean_step (rooted path)) [] (Split path "/").

Definition render (root : bool) (elems : list string) : string :=
  let s := (if root then "/" else "") +:+ join_slash elems in
  if String.eqb s "" then "." else s.

Definition path_Clean (path : string) : string := render (rooted path) (rev (clean_elems path)).

(** The leading empty arguments are left out. *)
Fixpoint path_Join (elems : list string) : string :=
  match elems with
  | [] => ""
  | e :: rest => if String.eqb e "" then path_Join rest else path_Clean (join_slash elems)
  end.

(** ** The file system *)
Class FileSys (W : Type) := {
  File : Type;
  homedir_Expand : string -> string + error;
  os_IsExist : error -> bool;
  os_MkdirAll : string -> call W unit;
  os_Create : string -> call W File;
  file_Write : File -> bytes -> call W unit;
  file_Close : File -> call W unit;
  os_ReadFile : string -> call W bytes;
  os_Remove : string -> call W unit
}.

(** What the staging area relies on.  [files w] has the content of every regular
    file, by clean path; [offset] is the position of an open file.  A machine is
    [healthy] when nothing fails but the reading or removing of an absent file;
    directories are then created where needed ([healthy] speaks of the paths the
    node uses). *)
Class FileLaws (W : Type) `{!FileSys W} := {
  files : W -> gmap string bytes;
  healthy : W -> Prop;
  file_name : File -> string;
  offset : W -> File -> nat;
  MkdirAll_spec p w r w' : os_MkdirAll p w = (r, w') ->
    files w' = files w /\ (healthy w -> healthy w') /\
    match r with inl _ => True | inr e => healthy w -> os_IsExist e = true end;
  Create_spec p w r w' : os_Create p w = (r, w') ->
    (healthy w -> healthy w') /\
    match r with
    | inl f => files w' = <[p := []]> (files w) /\ file_name f = p /\ offset w' f = 0%nat
    | inr _ => ~ healthy w /\ files w' = files w
    end;
  Write_spec f b w old r w' : file_Write f b w = (r, w') ->
    files w !! file_name f = Some old -> offset w f = length old ->
    (healthy w -> healthy w') /\
    match r with
    | inl _ => files w' = <[file_name f := old ++ b]> (files w)
    | inr _ => ~ healthy w /\
        exists pre, pre `prefix_of` b /\ files w' = <[file_name f := old ++ pre]> (files w)
    end;
  Close_spec f w r w' : file_Close f w = (r, w') ->
    files w' = files w /\ (healthy w -> healthy w');
  ReadFile_spec p w r w' : os_ReadFile p w = (r, w') ->
    files w' = files w /\ (healthy w -> healthy w') /\
    match r with
    | inl b => files w !! p = Some b
    | inr _ => healthy w -> files w !! p = None
    end;
  os_Remove_spec p w r w' : os_Remove p w = (r, w') ->
    (healthy w -> healthy w') /\
    match r with
    | inl _ => is_Some (files w !! p) /\ files w' = delete p (files w)
    | inr _ => files w' = files w /\ (healthy w -> files w !! p = None)
    end
}.

(** ** The functions of [stage.go] *)
Section Stage.
Context `{!CidLib} {W : Type} `{!FileSys W}.

(** [homedir.Expand], with the error of the functions below. *)
Definition expand (basedir : string) : string + error :=
  match homedir_Expand basedir with
  | inl path => inl path
  | inr _ => inr (Wrapf ErrInvalidPath basedir)
  end.

Definition StageShard (basedir : string) (orderProposal : Proposal) (content : bytes) :
    GoM W string :=
  path <- lift (expand basedir) ;;
  made <- attempt (invoke (os_MkdirAll (path_Join [path; pr_Owner orderProposal]))) ;;
  _u <- match made with
        | inr err => if negb (os_IsExist err) then fail (Wrap ErrCreateDirFailed (Some err)) else ret tt
        | inl _ => ret tt
        end ;;
  let filename := pr_Cid orderProposal +:+ "-" +:+ pr_DataId orderProposal in
  let filepath := path_Join [path; pr_Owner orderProposal; filename] in
  try file <- invoke (os_Create filepath)
    catch err => fail (Wrap ErrCreateFileFailed (Some err)) ;;
  written <- attempt (invoke (file_Write file content)) ;;
  ignore (invoke (file_Close file)) ;;
  match written with
  | inr err => fail (Wrap ErrWriteFileFailed (Some err))
  | inl _ => ret filepath
  end.

Definition GetStagedShard (basedir creator : string) (c : Cid) (dataId : string) : GoM W bytes :=
  path <- lift (expand basedir) ;;
  let filename := cid_String c +:+ "-" +:+ dataId in
  try content <- invoke (os_ReadFile (path_Join [path; creator; filename]))
    catch err => fail (Wrap ErrReadFileFailed (Some err)) ;;
  ret content.

Definition UnstageShard (basedir creator cid dataId : string) : GoM W unit :=
  path <- lift (expand basedir) ;;
  invoke (os_Remove (path_Join [path; creator; cid +:+ "-" +:+ dataId])).
End Stage.

(** ** Paths of staged files *)
Lemma Split_cons s sep : exists p ps, Split s sep = p :: ps.
Proof.
  induction s as [|c s (p & ps & IH)]; cbn; [eauto|].
  destruct (Ascii.eqb c sep); [eauto|]. rewrite IH. eauto.
Qed.

Lemma Split_app_sep s t sep : Split (s +:+ String sep t) sep = Split s sep ++ Split t sep.
Proof.
  induction s as [|c s IH]; autorewrite with str; cbn [Split].
  - by rewrite Ascii.eqb_refl.
  - rewrite IH. destruct (Ascii.eqb c sep); [done|].
    destruct (Split_cons s sep) as (p & ps & ->). done.
Qed.

(** An element that [Clean] keeps as it is. *)
Definition good_elem (e : string) : Prop :=
  e <> "" /\ e <> "." /\ e <> ".." /\ free_of "/" e = true.

Lemma clean_step_good r out e : good_elem e -> clean_step r out e = e :: out.
Proof.
  intros (He & Hd & Hdd & _). unfold clean_step.
  by rewrite (proj2 (String.eqb_neq _ _) He), (proj2 (String.eqb_neq _ _) Hd),
    (proj2 (String.eqb_neq _ _) Hdd).
Qed.

Lemma rooted_app s t : s <> "" -> rooted (s +:+ t) = rooted s.
Proof.
  destruct s as [|c s]; [by intros []|]. intros _. autorewrite with str. unfold rooted, HasPrefix. cbn [String.prefix].
  destruct (ascii_dec "/" c); [|reflexivity]. by destruct s, t.
Qed.

Lemma rooted_good e : good_elem e -> rooted e = false.
Proof.
  intros (_ & _ & _ & Hf). destruct e as [|c e]; [done|]. unfold rooted, HasPrefix. cbn [String.prefix].
  unfold free_of in Hf. cbn in Hf. apply andb_prop in Hf as [Hf _].
  destruct (ascii_dec "/" c) as [<-|]; [|reflexivity]. by rewrite Ascii.eqb_refl in Hf.
Qed.

Lemma path_Join_good path o f :
  good_elem o -> good_elem f ->
  path_Join [path; o; f] = render (rooted path) (rev (clean_elems path) ++ [o; f]).
Proof.
  intros Ho Hf. pose proof Ho as (Hne & _ & _ & Hos). pose proof Hf as (_ & _ & _ & Hfs).
  cbn [path_Join]. rewrite (proj2 (String.eqb_neq o "") Hne).
  destruct (String.eqb_spec path "") as [->|Hp]; unfold path_Clean, clean_elems; cbn [join_slash].
  - rewrite rooted_app, rooted_good by done.
    rewrite Split_app_sep, !Split_free by done. cbn [app foldl].
    by rewrite !clean_step_good by done.
  - rewrite rooted_app by done. rewrite !Split_app_sep, (Split_free o), (Split_free f) by done.
    rewrite !foldl_app. cbn [foldl]. rewrite !clean_step_good by done. cbn [rev].
    by rewrite <-!app_assoc.
Qed.

Lemma join_slash_inj l o f o' f' :
  free_of "/" o = true -> free_of "/" o' = true ->
  join_slash (l ++ [o; f]) = join_slash (l ++ [o'; f']) -> o = o' /\ f = f'.
Proof.
  intros Ho Ho'. induction l as [|x l IH].
  - cbn. intros E. by apply free_of_app_inj in E.
  - assert (forall a b, join_slash ((x :: l) ++ [a; b]) = x +:+ String "/" (join_slash (l ++ [a; b])))
      as Hj by (intros a b; by destruct l).
    rewrite !Hj. intros E. apply (inj (String.app x)) in E. injection E as E. by apply IH.
Qed.

Lemma join_slash_nonempty l o f : join_slash (l ++ [o; f]) <> "".
Proof.
  destruct l as [|x [|y l]]; cbn; intros E.
  - by destruct o.
  - by destruct x.
  - by destruct x.
Qed.

Lemma render_inj r l o f o' f' :
  free_of "/" o = true -> free_of "/" o' = true ->
  render r (l ++ [o; f]) = render r (l ++ [o'; f']) -> o = o' /\ f = f'.
Proof.
  intros Ho Ho'. unfold render.
  assert (forall a b, (if r then "/" else "") +:+ join_slash (l ++ [a; b]) <> "") as Hne.
  { intros a b. destruct r; [done|]. apply join_slash_nonempty. }
  rewrite !(proj2 (String.eqb_neq _ _) (Hne _ _)).
  intros E%(inj (String.app _)). by eapply join_slash_inj.
Qed.

(** ** The staging area as a finite map *)
(** Owner, cid and data id. *)
Abbreviation stage_name := (string * string * string)%type.
Definition good_name (k : stage_name) : Prop :=
  let '(o, c, d) := k in
  good_elem o /\ free_of "/" c = true /\ free_of "-" c = true /\ free_of "/" d = true.

Definition stage_path (path : string) (k : stage_name) : string :=
  let '(o, c, d) := k in path_Join [path; o; c +:+ "-" +:+ d].

Lemma good_filename c d :
  free_of "/" c = true -> free_of "/" d = true -> good_elem (c +:+ "-" +:+ d).
Proof.
  intros Hc Hd. split_and!.
  - by destruct c.
  - destruct c as [|a c]; cbn; [done|]. intros [= _ E]. by destruct c.
  - destruct c as [|a [|b c]]; cbn; [done|done|]. intros [= _ _ E]. by destruct c.
  - apply free_of_app; [done|]. by apply (free_of_app _ "-").
Qed.

(** Different shards are staged in different files. *)
Lemma stage_path_inj path k k' :
  good_name k -> good_name k' -> stage_path path k = stage_path path k' -> k = k'.
Proof.
  destruct k as [[o c] d], k' as [[o' c'] d'].
  intros (Ho & Hcs & Hcd & Hd) (Ho' & Hcs' & Hcd' & Hd'). unfold stage_path.
  rewrite !path_Join_good by auto using good_filename.
  intros E%render_inj; [|apply Ho|apply Ho']. destruct E as [-> E].
  by apply free_of_app_inj in E as [-> ->].
Qed.

Definition name_of (p : Proposal) : stage_name := (pr_Owner p, pr_Cid p, pr_DataId p).

(** The path [StageShard] returns. *)
Lemma StageShard_path {W} `{!FileSys W} basedir p content (w : W) fp w' :
  StageShard basedir p content w = (Ret fp, w') ->
  exists path, homedir_Expand basedir = inl path /\ fp = stage_path path (name_of p).
Proof.
  unfold StageShard, expand. intros Hrun. cbv zeta in Hrun.
  destruct (homedir_Expand basedir) as [path|]; [|done]. exists path. split; [done|].
  rewrite (bind_run (lift (inl path)) _ w path w eq_refl) in Hrun.
  do 2 go_inv Hrun. unfold or_else in Hrun. go_inv Hrun.
  match type of Hrun with context [match ?r with _ => _ end] => destruct r as [f|e] end; [|done].
  do 2 go_inv Hrun.
  match type of Hrun with context [match ?r with _ => _ end] => destruct r as [u|e] end; [|done].
  by injection Hrun as <- _.
Qed.

Section StageSpecs.
Context `{!CidLib} {W : Type} `{!FileSys W, !FileLaws W}.
Implicit Types (w : W) (k : stage_name).

(** Takes the call at the head of a computation and its law. *)
Ltac fs_call H :=
  let r := fresh "r" in let w := fresh "w" in let E := fresh "E" in
  match goal with
  | |- context [match ?c ?w0 with pair _ _ => _ end] =>
      lazymatch type of (c w0) with
      | prod (sum _ error) _ => destruct (c w0) as [r w] eqn:E; pose proof E as H
      end
  end.

(** A shard that was staged is in its file, on any machine; a failure leaves at
    most a part of the content there, and happens on a machine that fails. *)
Lemma StageShard_spec basedir path p content w :
  homedir_Expand basedir = inl path ->
  wp (StageShard basedir p content) w (fun o w' =>
    (healthy w -> healthy w') /\
    match o with
    | Ret fp => fp = stage_path path (name_of p) /\
                files w' = <[stage_path path (name_of p) := content]> (files w)
    | Fail _ => ~ healthy w /\ (files w' = files w \/
        exists pre, files w' = <[stage_path path (name_of p) := pre]> (files w))
    | _ => False
    end).
Proof.
  intros Hx. unfold StageShard, expand, wp, or_else, ignore, bind, attempt, invoke.
  rewrite Hx. cbn [lift ret].
  change (path_Join [path; pr_Owner p; pr_Cid p +:+ "-" +:+ pr_DataId p])
    with (stage_path path (name_of p)).
  generalize (stage_path path (name_of p)). intros fp.
  fs_call Hm. apply MkdirAll_spec in Hm as (Hf & Hh & Hm).
  destruct r as [u|e]; [|destruct (os_IsExist e) eqn:Ee]; cbn [negb ret fail fst snd];
    [..|split; [done|split; [naive_solver|by left]]].
  all: fs_call Hc; apply Create_spec in Hc as (Hh1 & Hc);
    destruct r as [f|e1]; [|rewrite <-Hf; cbn; split_and!; [tauto|tauto|left; tauto]];
    destruct Hc as (Hf1 & <- & Ho);
    fs_call Hw; eapply Write_spec in Hw as (Hh2 & Hw);
      [|rewrite Hf1; apply lookup_insert_eq|exact Ho];
    rewrite Hf1, Hf in Hw;
    destruct r as [?|?]; fs_call Hl; apply Close_spec in Hl as (Hf3 & Hh3);
      destruct r as [?|?]; cbn; rewrite Hf3;
      first [destruct Hw as (Hnh & pre & _ & Hw)|idtac]; rewrite Hw, insert_insert_eq;
      (split; [tauto|]); solve [done|split; [tauto|right; eauto]].
Qed.

Lemma GetStagedShard_spec basedir path o c d w :
  homedir_Expand basedir = inl path ->
  wp (GetStagedShard basedir o c d) w (fun out w' =>
    files w' = files w /\ (healthy w -> healthy w') /\
    match out with
    | Ret b => files w !! stage_path path (o, cid_String c, d) = Some b
    | Fail e => (exists err, e = Wrap ErrReadFileFailed (Some err)) /\
                (healthy w -> files w !! stage_path path (o, cid_String c, d) = None)
    | _ => False
    end).
Proof.
  intros Hx. unfold GetStagedShard, expand, wp, or_else, bind, attempt, invoke.
  rewrite Hx. cbn [lift ret]. fs_call Hr. apply ReadFile_spec in Hr as (Hf & Hh & Hr).
  destruct r; cbn; eauto.
Qed.

Lemma UnstageShard_spec basedir path o c d w :
  homedir_Expand basedir = inl path ->
  wp (UnstageShard basedir o c d) w (fun out w' =>
    (healthy w -> healthy w') /\
    match out with
    | Ret _ => files w' = delete (stage_path path (o, c, d)) (files w)
    | Fail _ => files w' = files w /\
                (healthy w -> files w !! stage_path path (o, c, d) = None)
    | _ => False
    end).
Proof.
  intros Hx. unfold UnstageShard, expand, wp, bind, invoke. rewrite Hx. cbn [lift ret].
  fs_call Hr. apply os_Remove_spec in Hr as (Hh & Hr). destruct r; cbn; tauto.
Qed.

(** *** Sequences of operations *)
Inductive stage_op :=
| OpStage (p : Proposal) (content : bytes)
| OpUnstage (creator cid dataId : string).

Definition run_stage (basedir : string) (o : stage_op) : GoM W unit :=
  match o with
  | OpStage p content => _path <- StageShard basedir p content ;; ret tt
  | OpUnstage o c d => ignore (UnstageShard basedir o c d)
  end.

Definition stage_op_name (o : stage_op) : stage_name :=
  match o with OpStage p _ => name_of p | OpUnstage o c d => (o, c, d) end.

Definition stage_apply (A : gmap stage_name bytes) (o : stage_op) : gmap stage_name bytes :=
  match o with
  | OpStage p content => <[name_of p := content]> A
  | OpUnstage o c d => delete (o, c, d) A
  end.

(** The files of the staging directory are those of the map. *)
Definition staged_repr (path : string) w (A : gmap stage_name bytes) : Prop :=
  forall k, good_name k -> files w !! stage_path path k = A !! k.

Lemma run_stage_spec basedir path o w A :
  homedir_Expand basedir = inl path -> healthy w -> good_name (stage_op_name o) ->
  staged_repr path w A ->
  wp (run_stage basedir o) w (fun out w' =>
    out = Ret tt /\ healthy w' /\ staged_repr path w' (stage_apply A o)).
Proof.
  intros Hx Hh Hg Hr. destruct o as [p content|o c d]; cbn [run_stage stage_apply stage_op_name] in *.
  - apply wp_bind. eapply wp_mono; [by apply StageShard_spec|].
    intros [fp|e| |] w' (Hh' & Ho); [|tauto|done..]. destruct Ho as [-> Hf]. apply wp_ret.
    split_and!; [done|by apply Hh'|]. intros k Hk. rewrite Hf.
    destruct (decide (k = name_of p)) as [->|Hne]; [by rewrite !lookup_insert_eq|].
    rewrite !lookup_insert_ne; [by apply Hr|done|]. intros E%stage_path_inj; [done..|]. exact Hk.
  - unfold ignore. apply wp_bind, wp_attempt. eapply wp_mono; [by apply UnstageShard_spec|].
    intros [u|e| |] w' (Hh' & Ho); [| |done..]; apply wp_ret; (split_and!; [done|by apply Hh'|]);
      intros k Hk; destruct (decide (k = (o, c, d))) as [->|Hne].
    + by rewrite Ho, !lookup_delete_eq.
    + rewrite Ho, !lookup_delete_ne; [by apply Hr|done|]. intros E%stage_path_inj; [done..|]. exact Hk.
    + destruct Ho as [-> Ho]. by rewrite lookup_delete_eq, Ho.
    + destruct Ho as [-> Ho]. rewrite lookup_delete_ne by done. by apply Hr.
Qed.

(** C27: the staging area is a finite map: on a machine that does not fail, any
    sequence of [StageShard] and [UnstageShard] calls on well-formed names
    succeeds and leaves exactly the contents of the corresponding inserts and
    deletes, and [GetStagedShard] then returns the last content staged under an
    owner, an identifier that prints as the staged text, and a data id, or its
    read error when there is none. *)
Theorem staging_refines basedir path ops w A :
  homedir_Expand basedir = inl path -> healthy w -> staged_repr path w A ->
  Forall (fun o => good_name (stage_op_name o)) ops ->
  exists w', for_each ops (run_stage basedir) w = (Ret tt, w') /\
    staged_repr path w' (foldl stage_apply A ops) /\
    forall o c d, good_name (o, cid_String c, d) ->
      match foldl stage_apply A ops !! (o, cid_String c, d) with
      | Some content => (GetStagedShard basedir o c d w').1 = Ret content
      | None => exists err, (GetStagedShard basedir o c d w').1
                            = Fail (Wrap ErrReadFileFailed (Some err))
      end.
Proof.
  intros Hx Hh Hr Hops. revert w A Hh Hr. induction Hops as [|op ops Hop Hops IH]; intros w A Hh Hr.
  - exists w. split_and!; [done..|]. cbn [foldl]. intros o c d Hk.
    pose proof (GetStagedShard_spec basedir path o c d w Hx) as (_ & _ & Hg).
    rewrite (Hr _ Hk) in Hg. destruct (A !! _) as [b|]; destruct (GetStagedShard _ _ _ _ _) as [out w'];
      cbn in *; destruct out; naive_solver.
  - pose proof (run_stage_spec basedir path op w A Hx Hh Hop Hr) as (Ho & Hh' & Hr').
    destruct (IH _ _ Hh' Hr') as (w' & Hrun & Hrest). exists w'. split; [|exact Hrest].
    cbn [for_each]. unfold bind. destruct (run_stage basedir op w) as [out w1]. cbn in *. by subst out.
Qed.
End StageSpecs.

(** ** Files in memory *)
Module MemFs.
#[export] Instance Fs : FileSys (gmap string bytes) := {
  File := string;
  homedir_Expand p := inl p;
  os_IsExist _ := false;
  os_MkdirAll _ w := (inl tt, w);
  os_Create p w := (inl p, <[p := []]> w);
  file_Write f b w := match w !! f with
                      | Some old => (inl tt, <[f := old ++ b]> w)
                      | None => (inr (EText "no such file"), w)
                      end;
  file_Close _ w := (inl tt, w);
  os_ReadFile p w := match w !! p with
                     | Some b => (inl b, w)
                     | None => (inr (EText "no such file"), w)
                     end;
  os_Remove p w := match w !! p with
                   | Some _ => (inl tt, delete p w)
                   | None => (inr (EText "no such file"), w)
                   end
}.

#[export] Instance FsLaws : FileLaws (gmap string bytes).
Proof.
  refine {| files w := w; healthy _ := True; file_name f := f;
            offset w f := match w !! f with Some b => length b | None => O end |}; cbn.
  - by intros p w r w' [= <- <-].
  - intros p w r w' [= <- <-]. by rewrite lookup_insert_eq.
  - intros f b w old r w' E Hf _. rewrite Hf in E. by injection E as <- <-.
  - by intros f w r w' [= <- <-].
  - intros p w r w' E. destruct (w !! p) eqn:Ep; by injection E as <- <-.
  - intros p w r w' E. destruct (w !! p) eqn:Ep; injection E as <- <-; eauto.
Defined.

Import TextCid.
Definition sample_proposal : Proposal :=
  MkProposal "did:sid:1" "data" "Qshard" "" "" "c0|c1" [] "" "" 5 "" 0 0 0 0.

Lemma staging_refines_witness :
  exists w', for_each [OpStage sample_proposal (string_bytes "shard")]
               (run_stage "/home/sao/staging") ∅ = (Ret tt, w') /\
    (GetStagedShard "/home/sao/staging" "did:sid:1" (MkCid "Qshard") "data" w').1
    = Ret (string_bytes "shard").
Proof.
  destruct (staging_refines "/home/sao/staging" "/home/sao/staging"
              [OpStage sample_proposal (string_bytes "shard")] ∅ ∅) as (w' & Hrun & _ & Hget).
  - reflexivity.
  - exact I.
  - intros k _. reflexivity.
  - constructor; [|constructor]. cbn. repeat split; discriminate.
  - exists w'. split; [exact Hrun|].
    apply (Hget "did:sid:1" (MkCid "Qshard") "data"). cbn. repeat split; discriminate.
Defined.
End MemFs.
