(* ===== verification/Chain.v ===== *)
(** * The chain service ([chain/*.go])

    [ChainSvc] sends transactions and asks queries through the cosmos client.  A
    transaction is signed by the account of the node, or, when the node has an
    address pool, by an address of the pool that is leased for the time of the
    transaction ([chain/tx_addr_pool.go]).  Transactions of a signer go through
    the channel and the goroutine of that signer ([broadcastMsg] and
    [broadcastLoop]); the caller waits for the result, so that for one caller a
    broadcast is a call, [broadcast].  Module [Broadcast.v] has the goroutines.

    The state [ch] has the world of the client (chain, keyring, random numbers),
    the pool and the signers that have a channel.  The cosmos client, the keyring
    and the message types of the chain are parameters. *)
From stdpp Require Import base list list_numbers gmap strings.
From Stdlib Require Import ZArith Lia Ascii.
From S2P Require Import Prelude Types StateUtils ChainApi Stage.

Definition ADDRESS_PREFIX : string := "sao".
Definition DENOM : string := "usct".

(** ** The types of the chain

    Proposals of the chain are opaque: the service copies them into messages. *)
Class SaoTypes := {
  TerminateProposal : Type;
  RenewProposal : Type;
  SaoPermissionProposal : Type;
  Description : Type
}.

(** [types.OrderTerminateProposal] and its like: a proposal and its signature. *)
Record Signed (P : Type) := MkSigned { sg_Proposal : P; sg_JwsSignature : JwsSignature }.
Arguments MkSigned {P}.
Arguments sg_Proposal {P}.
Arguments sg_JwsSignature {P}.

(** [saotypes.Fault] *)
Record Fault := MkFault {
  ft_DataId : string;
  ft_OrderId : Z;
  ft_ShardId : Z;
  ft_CommitId : string;
  ft_Provider : string;
  ft_Reporter : string
}.

(** [nodetypes.Node], with the fields that are read. *)
Record ChainNode := MkChainNode { nd_Creator : string; nd_Peer : string; nd_Status : Z }.

(** The messages the service sends. *)
Inductive Msg `{!SaoTypes} :=
| MsgReady (OrderId : Z) (Creator Provider : string)
| MsgStore (Creator : string) (p : Proposal) (s : JwsSignature) (Provider : string)
| MsgCompleteTx (Creator : string) (OrderId : Z) (Cid : string) (Size : Z) (Provider : string)
| MsgRenew (Creator : string) (p : RenewProposal) (s : JwsSignature) (Provider : string)
| MsgMigrate (Creator : string) (Data : list string) (Provider : string)
| MsgTerminate (Creator : string) (p : TerminateProposal) (s : JwsSignature) (Provider : string)
| MsgUpdataPermission (Creator : string) (p : SaoPermissionProposal) (s : JwsSignature)
    (Provider : string)
| MsgCreate (Creator : string)
| MsgReset (Creator Peer : string) (Status : Z) (TxAddresses : list string)
    (d : option Description)
| MsgClaimReward (Creator : string)
| MsgReportFaults (Creator Provider : string) (Faults : list Fault)
| MsgRecoverFaults (Creator Provider : string) (Faults : list Fault)
| MsgAddVstorage (Creator : string) (Size : Z)
| MsgRemoveVstorage (Creator : string) (Size : Z)
| MsgUpdatePaymentAddress (Creator Did AccountId : string).

(** The response of the client, with its [TxResponse]. *)
Record Response := MkResponse {
  tx_Code : Z;
  tx_TxHash : string;
  tx_Height : Z;
  tx_Data : bytes
}.

(** [sid.SidDocument] *)
Record SidDocument := MkSidDocument { sd_VersionId : string; sd_Keys : list (string * string) }.

(** ** The cosmos client: accounts, broadcasts and the query clients *)
Class CosmosLib (C : Type) `{!SaoTypes} := {
  CosmosAccount : Type;
  AuthAccount : Type;
  Auth_VerifySignature : AuthAccount -> bytes -> bytes -> option bool;
  cosmos_Account : string -> call C CosmosAccount;
  BroadcastTx : CosmosAccount -> Msg -> call C Response;
  BankSendTx : CosmosAccount -> string -> string -> Z -> call C bytes;
  tx_Broadcast : bytes -> call C Response;
  LatestBlockHeight : call C Z;
  rpc_Tx : bytes -> call C ResultTx;
  AccAddress : Type;
  AccAddressFromBech32 : string -> AccAddress + error;
  retriever_GetAccount : AccAddress -> call C AuthAccount;
  (* the responses in a transaction *)
  Decode_OrderResponse : Response -> OrderResponse + error;
  Decode_Results : Response -> list (string * string) + error;
  Decode_FaultIds : Response -> list string + error;
  (* the query clients *)
  q_Fishmen : call C string;
  q_Order : Z -> call C FullOrder;
  q_Shard : Z -> call C Shard;
  q_ShardAll : Z -> Z -> call C (list Shard * Z);
  q_MetadataAll : Z -> Z -> call C (list Metadata * Z);
  q_Metadata : string -> call C (Metadata * gmap string ShardMeta);
  q_SaoMetadata : option Z -> QueryProposal -> JwsSignature ->
    call C (Metadata * gmap string ShardMeta);
  q_Node : string -> call C ChainNode;
  q_NodeAll : call C (list ChainNode);
  q_Fault : string -> call C Fault;
  q_AllFaults : string -> call C (list string);
  q_Pledge : string -> call C Z;
  q_DidParams : call C string;
  q_SidDocument : string -> call C SidDocument;
  q_PaymentAddress : string -> call C string;
  (* encoding/hex *)
  hex_DecodeString : string -> bytes + error;
  time_Sleep : Z -> total_call C unit
}.

(** ** The keyring of the node *)
Class KeyringLib (C : Type) `{!SaoTypes, !CosmosLib C} := {
  Registry : Type;
  KeyRecord : Type;
  KeyAccount : Type;
  SigningAlgo : Type;
  registry_New : string -> call C Registry;
  GetByName : Registry -> string -> call C KeyAccount;
  registry_Create : Registry -> string -> call C (KeyAccount * string);
  registry_Import : Registry -> string -> string -> string -> call C KeyAccount;
  registry_Export : Registry -> string -> string -> call C string;
  account_Name : KeyAccount -> string;
  account_Address : KeyAccount -> string -> string + error;
  mk_KeyAccount : string -> KeyRecord -> KeyAccount;
  keyring_Sign : Registry -> string -> bytes -> call C bytes;
  keyring_SignByAddress : Registry -> AccAddress -> bytes -> call C bytes;
  hdPath : string;
  SigningAlgoFromString : Registry -> SigningAlgo + error;
  NewAccount : Registry -> string -> string -> string -> SigningAlgo -> call C KeyRecord;
  NewEntropy : Z -> call C bytes;
  NewMnemonic : bytes -> string + error
}.

(** [rand.Intn] *)
Class RandLib (C : Type) := { rand_Intn : Z -> total_call C Z }.

Section Chain.
Context `{!ErrorText, !CidLib} {C : Type} `{!SaoTypes, !CosmosLib C, !KeyringLib C, !RandLib C,
          !FileSys C, !GoRange}.

(** ** Accounts ([account.go]) *)
Definition newAccountRegistry (repo : string) : GoM C Registry :=
  repoPath <- lift (homedir_Expand repo) ;; invoke (registry_New repoPath).

(** [if err != nil { return types.Wrap(e, err) }] *)
Definition wrapping {S A} (e : regerr) (m : GoM S A) : GoM S A :=
  try a <- m catch err => fail (Wrap e (Some err)) ;; ret a.

Definition GetAddress (repo name : string) : GoM C string :=
  accountRegistry <- wrapping ErrGetAddressFailed (newAccountRegistry repo) ;;
  account <- wrapping ErrGetAddressFailed (invoke (GetByName accountRegistry name)) ;;
  wrapping ErrGetAddressFailed (lift (account_Address account ADDRESS_PREFIX)).

Definition SignByAccount (repo name : string) (payload : bytes) : GoM C bytes :=
  accountRegistry <- wrapping ErrSignedFailed (newAccountRegistry repo) ;;
  wrapping ErrSignedFailed (invoke (keyring_Sign accountRegistry name payload)).

Definition SignByAddress_ (repo address : string) (payload : bytes) : GoM C bytes :=
  accountRegistry <- wrapping ErrSignedFailed (newAccountRegistry repo) ;;
  addr <- wrapping ErrSignedFailed (lift (AccAddressFromBech32 address)) ;;
  wrapping ErrSignedFailed (invoke (keyring_SignByAddress accountRegistry addr payload)).

Definition GenerateMnemonic : GoM C string :=
  entropySeed <- wrapping ErrGenerateMnemonicFailed (invoke (NewEntropy 256)) ;;
  wrapping ErrGenerateMnemonicFailed (lift (NewMnemonic entropySeed)).

Definition GenerateAccount (repo name mnemonic : string) : GoM C string :=
  accountRegistry <- wrapping ErrCreateAccountFailed (newAccountRegistry repo) ;;
  algo <- wrapping ErrCreateAccountFailed (lift (SigningAlgoFromString accountRegistry)) ;;
  record <- wrapping ErrCreateAccountFailed
              (invoke (NewAccount accountRegistry name mnemonic hdPath algo)) ;;
  wrapping ErrCreateAccountFailed
    (lift (account_Address (mk_KeyAccount name record) ADDRESS_PREFIX)).

Definition account_Create (repo name : string) : GoM C (string * string * string) :=
  accountRegistry <- wrapping ErrCreateAccountFailed (newAccountRegistry repo) ;;
  created <- wrapping ErrCreateAccountFailed (invoke (registry_Create accountRegistry name)) ;;
  address <- wrapping ErrCreateAccountFailed (lift (account_Address created.1 ADDRESS_PREFIX)) ;;
  ret (account_Name created.1, address, created.2).

Definition account_Import (repo name secret passphrase : string) : GoM C unit :=
  accountRegistry <- wrapping ErrImportAccountFailed (newAccountRegistry repo) ;;
  account <- wrapping ErrImportAccountFailed
               (invoke (registry_Import accountRegistry name secret passphrase)) ;;
  wrapping ErrImportAccountFailed (lift (account_Address account ADDRESS_PREFIX)) ;; ret tt.

(** Prints the exported key. *)
Definition account_Export (repo name passphrase : string) : GoM C string :=
  accountRegistry <- wrapping ErrExportAccountFailed (newAccountRegistry repo) ;;
  account <- wrapping ErrExportAccountFailed (invoke (GetByName accountRegistry name)) ;;
  wrapping ErrExportAccountFailed (lift (account_Address account ADDRESS_PREFIX)) ;;
  wrapping ErrExportAccountFailed (invoke (registry_Export accountRegistry name passphrase)).

(** ** The address pool ([tx_addr_pool.go]) *)
Record AddressPool := MkAddressPool {
  ap_Addresses : gmap string string;
  ap_RootAddress : string;
  ap_keyringHome : string
}.
Definition ap_set (address status : string) (p : AddressPool) : AddressPool :=
  MkAddressPool (<[address := status]> (ap_Addresses p)) (ap_RootAddress p) (ap_keyringHome p).

Definition Available : string := "Available".
Definition InUse : string := "InUse".

Definition tx_addr (i : Z) : string := "tx_addr_" +:+ format_d i.

Definition generateAddressFromMnemonic (keyringHome mnemonic : string) (index : Z) : GoM C string :=
  GenerateAccount keyringHome (tx_addr index) mnemonic.

(** The address of a name, made when the keyring has none. *)
Definition ensure_address (keyringHome : string) (i : Z) : GoM C unit :=
  address <- attempt (GetAddress keyringHome (tx_addr i)) ;;
  match address with
  | inl _ => ret tt
  | inr _ =>
      mnemonic <- GenerateMnemonic ;;
      generateAddressFromMnemonic keyringHome mnemonic i ;; ret tt
  end.

(** [for i := uint(1); i < size; i++] *)
Definition pool_indices (size : Z) : list Z := seqZ 1 (size - 1).

Definition CreateAddressPool (keyringHome : string) (size : Z) : GoM C unit :=
  ensure_address keyringHome 0 ;;
  for_each (pool_indices size) (ensure_address keyringHome).

(** The loop that adds the other addresses. *)
Fixpoint load_addresses (keyringHome : string) (l : list Z) (pool : AddressPool) :
    GoM C AddressPool :=
  match l with
  | [] => ret pool
  | i :: l =>
      address <- attempt (GetAddress keyringHome (tx_addr i)) ;;
      match address with
      | inl address => load_addresses keyringHome l (ap_set address Available pool)
      | inr _ => load_addresses keyringHome l pool
      end
  end.

(** A nil pool is [None]. *)
Definition LoadAddressPool (keyringHome : string) (size : Z) : GoM C (option AddressPool) :=
  if size =? 0 then ret None else
  rootAddress <- GetAddress keyringHome (tx_addr 0) ;;
  pool <- load_addresses keyringHome (pool_indices size)
    (ap_set rootAddress Available (MkAddressPool ∅ rootAddress keyringHome)) ;;
  ret (Some pool).

Definition SetRootAddress (address : string) (p : AddressPool) : AddressPool :=
  MkAddressPool (<[address := "root"]> (ap_Addresses p)) address (ap_keyringHome p).

Definition availableAddresses (p : AddressPool) : list string :=
  (List.filter (fun e => String.eqb e.2 Available) (range (ap_Addresses p))).*1.

(** On the pool and the world; an index out of range panics. *)
Definition GetRandomAddress : GoM (AddressPool * C) string :=
  p <- gets fst ;;
  if decide (ap_Addresses p = ∅) then fail (EText "address pool is empty") else
  if Z.of_nat (length (availableAddresses p)) =? 0 then fail (EText "no available addresses") else
  randomIndex <- zoom snd (fun c s => (s.1, c))
    (invoke_total (rand_Intn (Z.of_nat (length (availableAddresses p))))) ;;
  randomAddress <- deref (if 0 <=? randomIndex
                          then availableAddresses p !! Z.to_nat randomIndex else None) ;;
  modify (fun s => (ap_set randomAddress InUse s.1, s.2)) ;;
  ret randomAddress.

Definition SetAddressAvailable (address : string) : GoM AddressPool unit :=
  p <- gets id ;;
  match ap_Addresses p !! address with
  | None => fail (EText "address not found in pool")
  | Some status =>
      if negb (String.eqb status InUse) then fail (EText "address is not in use") else
      modify (ap_set address Available)
  end.

(** ** Broadcasting ([chain.go]) *)
Record ch := Ch {
  ch_c : C;
  ch_ap : option AddressPool;
  ch_chans : gset string      (* the keys of broadcastChanMap *)
}.

Definition on_c {A} (m : GoM C A) : GoM ch A := zoom ch_c (fun c s => Ch c (ch_ap s) (ch_chans s)) m.

Definition SetAddressPool (ap : option AddressPool) : GoM ch unit :=
  modify (fun s => Ch (ch_c s) ap (ch_chans s)).

(** What the loop of a signer does with a job, and the result it sends back: two calls
    of the client, between which others may come ([Broadcast]). *)
Definition find_account (signer : string) : GoM C CosmosAccount :=
  wrapping ErrAccountNotFound (invoke (cosmos_Account signer)).
Definition send_tx (signerAcc : CosmosAccount) (msg : Msg) : GoM C Response :=
  wrapping ErrTxProcessFailed (invoke (BroadcastTx signerAcc msg)).
Definition run_job (signer : string) (msg : Msg) : GoM C Response :=
  signerAcc <- find_account signer ;; send_tx signerAcc msg.

(** [c.broadcastMsg(signer, msg, resultChan); result := <-resultChan] *)
Definition broadcast (signer : string) (msg : Msg) : GoM ch Response :=
  modify (fun s => Ch (ch_c s) (ch_ap s) ({[signer]} ∪ ch_chans s)) ;;
  on_c (run_job signer msg).

(** The checks of the result that every transaction makes. *)
Definition checked (name : string) (m : GoM ch Response) : GoM ch Response :=
  result <- wrapping ErrTxProcessFailed m ;;
  if negb (tx_Code result =? 0) then
    fail (Wrapf ErrTxProcessFailed (name +:+ " tx hash=" +:+ tx_TxHash result +:+ ", code="
      +:+ format_d (tx_Code result)))
  else ret result.

(** *** Leases

    The deferred function of a transaction: the address goes back to the pool
    unless it is the address of the node; the error is dropped. *)
Definition release (provider txAddress : string) (s : ch) : ch :=
  match ch_ap s with
  | Some p =>
      if String.eqb txAddress provider then s
      else Ch (ch_c s) (Some (SetAddressAvailable txAddress p).2) (ch_chans s)
  | None => s
  end.

(** [defer]: the function runs however the body ends. *)
Definition deferring {A} (f : ch -> ch) (m : GoM ch A) : GoM ch A := fun s =>
  let '(r, s') := m s in (r, f s').

Definition lease : GoM ch string := fun s =>
  match ch_ap s with
  | Some p =>
      let '(r, (p', c')) := GetRandomAddress (p, ch_c s) in (r, Ch c' (Some p') (ch_chans s))
  | None => (Panic, s)
  end.

Definition account_exists (address : string) : GoM ch unit :=
  wrapping ErrAccountNotFound (on_c (invoke (cosmos_Account address))) ;; ret tt.

(** A transaction: with a pool, [send] gets a leased address, whose account has to
    exist; without one it gets the address of the node, whose account is only
    looked up when [always].  [GetRandomAddress] gives the empty address with an
    error, and the deferred function then releases that one. *)
Definition pooled {A} (always : bool) (provider : string) (send : string -> GoM ch A) : GoM ch A :=
  ap <- gets ch_ap ;;
  match ap with
  | None => (if always then account_exists provider else ret tt) ;; send provider
  | Some _ =>
      txAddress <- attempt lease ;;
      match txAddress with
      | inr err => deferring (release provider "") (fail (Wrap ErrAccountNotFound (Some err)))
      | inl txAddress =>
          deferring (release provider txAddress) (account_exists txAddress ;; send txAddress)
      end
  end.

(** *** Transactions of orders ([order.go], [model.go]) *)
Definition decoded {A} (name : string) (r : A + error) : GoM ch A :=
  match r with
  | inl a => ret a
  | inr err => fail (Wrapf ErrTxProcessFailed ("failed to decode " +:+ name +:+ ", due to "
                       +:+ Error err))
  end.

Definition OrderReady (provider : string) (orderId : Z) : GoM ch (OrderResponse * string * Z) :=
  pooled true provider (fun txAddress =>
    result <- checked "MsgReady" (broadcast txAddress (MsgReady orderId txAddress provider)) ;;
    readyResp <- decoded "MsgReadyResponse" (Decode_OrderResponse result) ;;
    ret (readyResp, tx_TxHash result, tx_Height result)).

Definition StoreOrder (signer : string) (clientProposal : OrderStoreProposal) :
    GoM ch (OrderResponse * string * Z) :=
  pooled false signer (fun txAddress =>
    result <- checked "MsgStore" (broadcast txAddress
      (MsgStore txAddress (osp_Proposal clientProposal) (osp_JwsSignature clientProposal) signer)) ;;
    storeResp <- decoded "MsgStoreResponse" (Decode_OrderResponse result) ;;
    ret (storeResp, tx_TxHash result, tx_Height result)).

Definition CompleteOrder (creator : string) (orderId : Z) (cid : Cid) (size : Z) :
    GoM ch (string * Z) :=
  pooled true creator (fun txAddress =>
    result <- checked "MsgComplete" (broadcast txAddress
      (MsgCompleteTx txAddress orderId (cid_String cid) size creator)) ;;
    ret (tx_TxHash result, tx_Height result)).

(** [resultMap[r.K] = r.V] in a loop *)
Definition result_map (l : list (string * string)) : gmap string string :=
  foldl (fun m r => <[r.1 := r.2]> m) ∅ l.

Definition RenewOrder (creator : string) (p : Signed RenewProposal) :
    GoM ch (string * gmap string string) :=
  pooled false creator (fun txAddress =>
    result <- checked "MsgRenew" (broadcast txAddress
      (MsgRenew txAddress (sg_Proposal p) (sg_JwsSignature p) creator)) ;;
    renewResp <- lift (Decode_Results result) ;;
    ret (tx_TxHash result, result_map renewResp)).

Definition MigrateOrder (creator : string) (dataIds : list string) :
    GoM ch (string * gmap string string * Z) :=
  pooled false creator (fun txAddress =>
    result <- checked "MsgMigrate" (broadcast txAddress (MsgMigrate txAddress dataIds creator)) ;;
    migrateResp <- lift (Decode_Results result) ;;
    ret (tx_TxHash result, result_map migrateResp, tx_Height result)).

Definition TerminateOrder (creator : string) (p : Signed TerminateProposal) : GoM ch string :=
  pooled false creator (fun txAddress =>
    result <- checked "MsgTerminate" (broadcast txAddress
      (MsgTerminate txAddress (sg_Proposal p) (sg_JwsSignature p) creator)) ;;
    ret (tx_TxHash result)).

Definition UpdatePermission (signer : string) (p : Signed SaoPermissionProposal) : GoM ch string :=
  pooled false signer (fun txAddress =>
    result <- checked "MsgUpdataPermission" (broadcast txAddress
      (MsgUpdataPermission txAddress (sg_Proposal p) (sg_JwsSignature p) signer)) ;;
    ret (tx_TxHash result)).

(** *** Transactions of nodes ([node.go], [did.go], [account.go]) *)
Definition tx_hash (m : GoM ch Response) : GoM ch string := r <- m ;; ret (tx_TxHash r).

Definition Create (creator : string) : GoM ch string :=
  tx_hash (checked "MsgCreate" (broadcast creator (MsgCreate creator))).

Definition Reset (creator peerInfo : string) (status : Z) (txAddresses : list string)
    (description : option Description) : GoM ch string :=
  account_exists creator ;;
  tx_hash (checked "MsgReset" (broadcast creator
    (MsgReset creator peerInfo status txAddresses description))).

(** The claimed reward is only printed. *)
Definition ClaimReward (creator : string) : GoM ch string :=
  tx_hash (checked "MsgClaimReward" (broadcast creator (MsgClaimReward creator))).

Definition ReportFaults (creator provider : string) (faults : list Fault) : GoM ch (list string) :=
  result <- checked "MsgReportFaults" (broadcast creator (MsgReportFaults creator provider faults)) ;;
  decoded "MsgReportFaultsResponse" (Decode_FaultIds result).

Definition RecoverFaults (creator provider : string) (faults : list Fault) : GoM ch (list string) :=
  checked "MsgRecoverFaults" (broadcast creator (MsgRecoverFaults creator provider faults)) ;;
  ret [].

Definition AddVstorage (creator : string) (size : Z) : GoM ch string :=
  account_exists creator ;;
  tx_hash (checked "MsgAddVstorage" (broadcast creator (MsgAddVstorage creator size))).

Definition RemoveVstorage (creator : string) (size : Z) : GoM ch string :=
  account_exists creator ;;
  tx_hash (checked "MsgRemoveVstorage" (broadcast creator (MsgRemoveVstorage creator size))).

Definition UpdateDidBinding (creator did accountId : string) : GoM ch string :=
  tx_hash (checked "MsgUpdatePaymentAddress"
    (broadcast creator (MsgUpdatePaymentAddress creator did accountId))).

(** A transfer is not sent through the channel of the signer. *)
Definition Send (from to : string) (amount : Z) : GoM ch string :=
  signerAcc <- wrapping ErrAccountNotFound (on_c (invoke (cosmos_Account from))) ;;
  tx <- wrapping ErrTxCreateFailed (on_c (invoke (BankSendTx signerAcc to DENOM amount))) ;;
  tx_hash (checked "MsgStore" (on_c (invoke (tx_Broadcast tx)))).

(** ** Queries *)
Definition GetLastHeight : GoM ch Z := on_c (invoke LatestBlockHeight).

Definition GetAccount (address : string) : GoM ch AuthAccount :=
  accAddress <- wrapping ErrSignedFailed (lift (AccAddressFromBech32 address)) ;;
  on_c (invoke (retriever_GetAccount accAddress)).

(** Waits for a block after [height]; [polls] bounds the number of queries. *)
Fixpoint wait_height (polls : nat) (height : Z) : GoM ch unit :=
  match polls with
  | O => out_of_fuel
  | S polls =>
      curHeight <- wrapping ErrTxQueryFailed GetLastHeight ;;
      if height <? curHeight then ret tt else
      on_c (invoke_total (time_Sleep 1000000000)) ;;
      wait_height polls height
  end.

Definition GetTx (polls : nat) (hash : string) (height : Z) : GoM ch ResultTx :=
  wait_height polls height ;;
  hashBytes <- wrapping ErrTxQueryFailed (lift (hex_DecodeString hash)) ;;
  on_c (invoke (rpc_Tx hashBytes)).

Definition GetFishmen : GoM ch string :=
  wrapping ErrCreateChainServiceFailed (on_c (invoke q_Fishmen)).
Definition GetOrder (orderId : Z) : GoM ch FullOrder :=
  wrapping ErrQueryOrderFailed (on_c (invoke (q_Order orderId))).
Definition GetShard (shardId : Z) : GoM ch Shard :=
  wrapping ErrQueryShardFailed (on_c (invoke (q_Shard shardId))).
Definition ListShards (offset limit : Z) : GoM ch (list Shard * Z) :=
  wrapping ErrQueryOrderFailed (on_c (invoke (q_ShardAll offset limit))).
Definition ListMeta (offset limit : Z) : GoM ch (list Metadata * Z) :=
  wrapping ErrQueryNodeFailed (on_c (invoke (q_MetadataAll offset limit))).
Definition GetMeta (dataId : string) : GoM ch (Metadata * gmap string ShardMeta) :=
  on_c (invoke (q_Metadata dataId)).
Definition GetFault (faultId : string) : GoM ch Fault :=
  wrapping ErrQueryFaultFailed (on_c (invoke (q_Fault faultId))).
Definition GetMyFaults (provider : string) : GoM ch (list string) :=
  wrapping ErrQueryFaultsFailed (on_c (invoke (q_AllFaults provider))).
Definition GetNodePeer (creator : string) : GoM ch string :=
  node <- wrapping ErrQueryNodeFailed (on_c (invoke (q_Node creator))) ;; ret (nd_Peer node).
Definition GetNodeStatus (creator : string) : GoM ch Z :=
  node <- wrapping ErrQueryNodeFailed (on_c (invoke (q_Node creator))) ;; ret (nd_Status node).
Definition ListNodes : GoM ch (list ChainNode) :=
  wrapping ErrQueryNodeFailed (on_c (invoke q_NodeAll)).
Definition GetPledgeInfo (creator : string) : GoM ch Z :=
  wrapping ErrQueryPledgeFailed (on_c (invoke (q_Pledge creator))).
Definition QueryDidParams : GoM ch string :=
  wrapping ErrQueryDidParamFailed (on_c (invoke q_DidParams)).
Definition QueryPaymentAddress (did : string) : GoM ch string :=
  on_c (invoke (q_PaymentAddress did)).

(** A document without a version is reported as nil. *)
Definition GetSidDocument (versionId : string) : GoM ch (option SidDocument) :=
  doc <- wrapping ErrGetSidDocumentFailed (on_c (invoke (q_SidDocument versionId))) ;;
  if String.eqb (sd_VersionId doc) "" then ret None else ret (Some doc).

(** The query is copied field by field; the type of the keyword keeps 32 bits. *)
Definition copied_query (p : QueryProposal) : QueryProposal :=
  MkQueryProposal (qp_Owner p) (qp_Keyword p) (qp_GroupId p) (wrap_u32 (qp_KeywordType p))
    (qp_LastValidHeight p) (qp_Gateway p) (qp_CommitId p) (qp_Version p).

Definition QueryMetadata (req : MetadataProposal) (height : Z) :
    GoM ch (Metadata * gmap string ShardMeta) :=
  let at_height := if 0 <? height then Some height else None in
  wrapping ErrQueryMetadataFailed
    (on_c (invoke (q_SaoMetadata at_height (copied_query (mtp_Proposal req))
                     (mtp_JwsSignature req)))).

(** The loop over the pages, from [offset] on; [pages] bounds their number. *)
Fixpoint list_by_did (pages : nat) (did : string) (offset limit : Z) (all : list Metadata) :
    GoM ch (list Metadata) :=
  match pages with
  | O => out_of_fuel
  | S pages =>
      page <- ListMeta offset limit ;;
      let all := all ++ List.filter (fun m => String.eqb (md_Owner m) did) page.1 in
      if wrap_u64 (offset + limit) <=? page.2 then
        list_by_did pages did (wrap_u64 (offset + limit)) limit all
      else ret all
  end.

Definition ListMetaByDid (pages : nat) (did : string) : GoM ch (list Metadata) :=
  list_by_did pages did 0 100 [].

(** One report of [StartStatusReporter]: errors are logged. *)
Definition report_status (creator : string) (status : Z) : GoM ch unit :=
  ignore (Reset creator "" status [] None) ;;
  ignore (GetMyFaults creator).
End Chain.
