(* ===== verification/ChainTheorems.v ===== *)
(** * Properties of the chain service

    Addresses of the pool are leased and given back ([transactions_balance],
    [leases_exclusive]), a transaction that succeeds was broadcast by the account
    of the leased address ([transactions_sent]), a created pool is loaded
    ([created_pool_loads]), a transaction is asked for exactly after the first height above the
    given one ([GetTx_returns]), and the list of models is complete
    ([ListMetaByDid_complete]). *)
From stdpp Require Import base list list_numbers gmap strings.
From Stdlib Require Import ZArith Lia Ascii.
From S2P Require Import Prelude Types StateUtils ChainApi Stage Chain.

(** Addresses are not empty: [GetRandomAddress] gives the empty one with an error. *)
Definition proper_pool (p : AddressPool) : Prop := ap_Addresses p !! "" = None.

Lemma ap_set_twice a st st' p :
  ap_Addresses p !! a = Some st' -> ap_set a st' (ap_set a st p) = p.
Proof.
  destruct p as [m r k]. unfold ap_set. cbn. intros E. f_equal.
  by rewrite insert_insert_eq, insert_id.
Qed.

Section Leases.
Context `{!ErrorText, !CidLib} {C : Type} `{!SaoTypes, !CosmosLib C, !KeyringLib C, !RandLib C,
          !FileSys C, !GoRange, !GoRangeLaws}.
Implicit Types (s : ch (C := C)) (c : C) (p : AddressPool).

Lemma elem_of_available p a : a ∈ availableAddresses p <-> ap_Addresses p !! a = Some Available.
Proof.
  unfold availableAddresses. rewrite list_elem_of_fmap. split.
  - intros ([a' st] & -> & [Hin E]%list_elem_of_In%List.filter_In). apply String.eqb_eq in E.
    cbn in *. subst. apply list_elem_of_In in Hin. rewrite range_perm in Hin.
    by apply elem_of_map_to_list in Hin.
  - intros E. exists (a, Available). split; [done|]. apply list_elem_of_In, List.filter_In.
    split; [|done]. apply list_elem_of_In. rewrite range_perm. by apply elem_of_map_to_list.
Qed.

(** A lease takes an available address and marks it; without one nothing changes. *)
Lemma GetRandomAddress_spec p c :
  wp (GetRandomAddress (C := C)) (p, c) (fun r q => match r with
    | Ret a => ap_Addresses p !! a = Some Available /\ q.1 = ap_set a InUse p
    | _ => q.1 = p
    end).
Proof.
  unfold GetRandomAddress. apply wp_bind. unfold wp at 1. cbn.
  destruct (decide _); [done|]. destruct (_ =? 0); [done|].
  apply wp_bind, wp_zoom, wp_call_total. intros i c' _. cbn [fst snd].
  apply wp_bind. destruct (0 <=? i); [|done].
  destruct (availableAddresses p !! Z.to_nat i) as [a|] eqn:E; [|done].
  unfold deref. apply wp_ret, wp_bind. unfold wp, modify, ret. cbn. split; [|done].
  by eapply elem_of_available, list_elem_of_lookup_2.
Qed.

(** An address that is in use goes back; otherwise nothing changes. *)
Lemma SetAddressAvailable_spec a p :
  (SetAddressAvailable a p).2
  = if decide (ap_Addresses p !! a = Some InUse) then ap_set a Available p else p.
Proof.
  unfold SetAddressAvailable, bind, gets. cbn.
  destruct (ap_Addresses p !! a) as [st|]; cbn; [|by destruct (decide _)].
  destruct (String.eqb_spec st InUse) as [->|Hne]; cbn; [by destruct (decide _)|].
  destruct (decide _) as [[= ?]|]; done.
Qed.

(** ** A transaction gives its address back

    The pool is as it was, unless the address of the node itself was in the pool
    and was picked: that one is not given back. *)
Definition balanced (provider : string) (s s' : ch (C := C)) : Prop :=
  match ch_ap s with
  | None => ch_ap s' = None
  | Some p => proper_pool p ->
      ch_ap s' = Some p \/
      (ap_Addresses p !! provider = Some Available /\
       ch_ap s' = Some (ap_set provider InUse p))
  end.

Lemma release_leased provider a p s :
  ap_Addresses p !! a = Some Available -> ch_ap s = Some (ap_set a InUse p) ->
  ch_ap (release provider a s) = if decide (a = provider) then ch_ap s else Some p.
Proof.
  intros Ha Hs. unfold release. rewrite Hs.
  destruct (String.eqb_spec a provider) as [->|Hne]; [by rewrite decide_True|].
  rewrite decide_False by done. cbn [ch_ap]. f_equal. rewrite SetAddressAvailable_spec.
  cbn [ap_Addresses ap_set]. rewrite lookup_insert_eq, decide_True by done. by apply ap_set_twice.
Qed.

Lemma release_empty provider p s :
  proper_pool p -> ch_ap s = Some p -> ch_ap (release provider "" s) = Some p.
Proof.
  intros Hp Hs. unfold release. rewrite Hs. destruct (String.eqb "" provider); [done|]. cbn [ch_ap]. f_equal.
  rewrite SetAddressAvailable_spec, Hp. by destruct (decide _).
Qed.

(** How a transaction runs: with the address of the node, or with a leased one. *)
Lemma pooled_run {A} (always : bool) provider (send : string -> GoM ch A) s (Q : outcome A -> ch -> Prop) :
  (ch_ap s = None ->
   wp ((if always then account_exists provider else ret tt) ;; send provider) s Q) ->
  (forall p e c', ch_ap s = Some p ->
     Q (Fail e) (release provider "" (Ch c' (Some p) (ch_chans s)))) ->
  (forall p a c', ch_ap s = Some p -> ap_Addresses p !! a = Some Available ->
     wp (account_exists a ;; send a) (Ch c' (Some (ap_set a InUse p)) (ch_chans s))
       (fun r s' => Q r (release provider a s'))) ->
  (forall p c' (o : outcome A), ch_ap s = Some p -> (o = Panic \/ o = OutOfFuel) ->
     Q o (Ch c' (Some p) (ch_chans s))) ->
  wp (pooled always provider send) s Q.
Proof.
  intros Hnone Hfail Hsome Hpanic. unfold pooled. apply wp_bind. unfold wp at 1. cbn.
  destruct (ch_ap s) as [p|] eqn:Hap; [|by apply Hnone].
  apply wp_bind, wp_attempt. unfold wp at 1, lease. rewrite Hap.
  pose proof (GetRandomAddress_spec p (ch_c s)) as Hg. unfold wp in Hg.
  destruct (GetRandomAddress (p, ch_c s)) as [[a|e| |] [p' c']]; cbn in *; [|subst p'..].
  - destruct Hg as [Ha ->]. specialize (Hsome p a c' eq_refl Ha). unfold wp, deferring in *.
    by destruct ((account_exists a ;; send a) _).
  - unfold wp, deferring, fail. cbn. by apply Hfail.
  - apply Hpanic; auto.
  - apply Hpanic; auto.
Qed.

Lemma pooled_balanced {A} (always : bool) provider (send : string -> GoM ch A) :
  (forall a, steps (same ch_ap) (send a)) -> steps (balanced provider) (pooled always provider send).
Proof.
  intros Hsend s.
  assert (forall a, steps (same ch_ap) (account_exists a ;; send a)) as Hrun.
  { intros a. apply steps_bind; [apply _| |intros ?; apply Hsend].
    unfold account_exists, wrapping. go_steps. intros s'. unfold on_c, zoom.
    by destruct (invoke _ _). }
  change (wp (pooled always provider send) s (fun _ => balanced provider s)). unfold balanced.
  apply pooled_run.
  - intros E. unfold wp. rewrite E. destruct always;
      [exact (eq_trans (Hrun provider s) E)|exact (eq_trans (Hsend provider s) E)].
  - intros p e c' -> Hp. left. by eapply release_empty.
  - intros p a c' -> Ha. eapply wp_steps; [apply Hrun|]. cbn. unfold same. intros o s' _ Es Hp.
    cbn in Es. rewrite (release_leased _ a p) by done.
    destruct (decide (a = provider)) as [->|]; auto.
  - intros p c' o -> _ _. by left.
Qed.

Lemma broadcast_same signer m : steps (same ch_ap) (broadcast signer m).
Proof.
  unfold broadcast, on_c. intros s. unfold bind, zoom, modify. cbn. by destruct (run_job _ _ _).
Qed.
Lemma checked_same name m : steps (same ch_ap) m -> steps (same (ch_ap (C := C))) (checked name m).
Proof. intros Hm. unfold checked, wrapping. go_steps. Qed.
Lemma decoded_same {A} name (r : A + error) : steps (same (ch_ap (C := C))) (decoded name r).
Proof. unfold decoded. go_steps. Qed.
Hint Resolve broadcast_same checked_same decoded_same : go.

(** The transactions that take an address of the pool. *)
Inductive transaction :=
| TxReady (provider : string) (orderId : Z)
| TxStore (provider : string) (p : OrderStoreProposal)
| TxComplete (provider : string) (orderId : Z) (cid : Cid) (size : Z)
| TxRenew (provider : string) (p : Signed RenewProposal)
| TxMigrate (provider : string) (dataIds : list string)
| TxTerminate (provider : string) (p : Signed TerminateProposal)
| TxPermission (provider : string) (p : Signed SaoPermissionProposal).

Definition discard {S A} (m : GoM S A) : GoM S unit := m ;; ret tt.

Definition transact (t : transaction) : GoM (ch (C := C)) unit :=
  match t with
  | TxReady provider orderId => discard (OrderReady provider orderId)
  | TxStore provider p => discard (StoreOrder provider p)
  | TxComplete provider orderId cid size => discard (CompleteOrder provider orderId cid size)
  | TxRenew provider p => discard (RenewOrder provider p)
  | TxMigrate provider dataIds => discard (MigrateOrder provider dataIds)
  | TxTerminate provider p => discard (TerminateOrder provider p)
  | TxPermission provider p => discard (UpdatePermission provider p)
  end.

Definition tx_provider (t : transaction) : string :=
  match t with
  | TxReady p _ | TxStore p _ | TxComplete p _ _ _ | TxRenew p _ | TxMigrate p _
  | TxTerminate p _ | TxPermission p _ => p
  end.

(** The message of a transaction that is signed by [a]. *)
Definition tx_msg (t : transaction) (a : string) : Msg :=
  match t with
  | TxReady p o => MsgReady o a p
  | TxStore p sp => MsgStore a (osp_Proposal sp) (osp_JwsSignature sp) p
  | TxComplete p o cid size => MsgCompleteTx a o (cid_String cid) size p
  | TxRenew p rp => MsgRenew a (sg_Proposal rp) (sg_JwsSignature rp) p
  | TxMigrate p dataIds => MsgMigrate a dataIds p
  | TxTerminate p tp => MsgTerminate a (sg_Proposal tp) (sg_JwsSignature tp) p
  | TxPermission p pp => MsgUpdataPermission a (sg_Proposal pp) (sg_JwsSignature pp) p
  end.

Lemma discard_steps {S A} (R : S -> S -> Prop) (m : GoM S A) : steps R m -> steps R (discard m).
Proof. intros Hm s. specialize (Hm s). unfold discard, bind. by destruct (m s) as [[] ?]. Qed.

(** C25: every transaction, however it ends, leaves the address pool as it was,
    except that the address of the node itself, when the pool has it and it is
    picked, stays in use. *)
Theorem transactions_balance (t : transaction) s :
  balanced (tx_provider t) s (transact t s).2.
Proof.
  destruct t; cbn [transact tx_provider]; apply discard_steps, pooled_balanced; intros; go_steps.
Qed.

(** ** What a transaction that succeeds has sent *)

(** [a] may sign for a node: the node without a pool, or an available address. *)
Definition may_sign (s : ch (C := C)) (provider a : string) : Prop :=
  match ch_ap s with
  | None => a = provider
  | Some p => ap_Addresses p !! a = Some Available
  end.

(** The world is the one the broadcast of [m] by [a] left, which was executed. *)
Definition signed (a : string) (m : Msg) (s' : ch (C := C)) : Prop :=
  exists acc c1 c2 r, cosmos_Account a c1 = (inl acc, c2) /\
    BroadcastTx acc m c2 = (inl r, ch_c s') /\ tx_Code r = 0.

Definition sent (t : transaction) (s s' : ch (C := C)) : Prop :=
  exists a, may_sign s (tx_provider t) a /\ signed a (tx_msg t a) s'.

Lemma broadcast_outcome signer m name s :
  wp (checked name (broadcast signer m)) s (fun o s' => match o with
    | Ret r => signed signer m s'
    | Fail _ => True
    | _ => False
    end).
Proof.
  unfold wp, checked, broadcast, run_job, find_account, send_tx, wrapping, on_c, or_else, attempt, bind, zoom, modify, invoke.
  cbn. destruct (cosmos_Account signer (ch_c s)) as [[acc|e] c] eqn:Ea; cbn; [|done].
  destruct (BroadcastTx acc m c) as [[r|e] c'] eqn:Eb; cbn; [|done].
  destruct (Z.eqb_spec (tx_Code r) 0); cbn; [|done]. by exists acc, (ch_c s), c, r.
Qed.

Lemma release_world provider a s : ch_c (release provider a s) = ch_c s.
Proof. unfold release. destruct (ch_ap s); [|done]. by destruct (String.eqb _ _). Qed.

(** What follows the broadcast only decodes what it got. *)
Definition decodes {A} (k : Response -> GoM (ch (C := C)) A) : Prop :=
  forall r s, match (k r s).1 with Ret _ | Fail _ => (k r s).2 = s | _ => False end.

Lemma send_signed {A} a m name (k : Response -> GoM ch A) s :
  decodes k ->
  wp (r <- checked name (broadcast a m) ;; k r) s
    (fun o s' => match o with Ret _ => signed a m s' | _ => True end).
Proof.
  intros Hk. apply wp_bind. eapply wp_mono; [apply broadcast_outcome|]. cbn.
  intros [r|e| |] s1; [|done..]. specialize (Hk r s1). unfold wp.
  destruct (k r s1) as [[x|e| |] s2]; cbn in *; [|done..]. by subst.
Qed.

Lemma checked_send_signed {A} a m name (k : Response -> GoM ch A) s :
  decodes k ->
  wp (account_exists a ;; r <- checked name (broadcast a m) ;; k r) s
    (fun o s' => match o with Ret _ => signed a m s' | _ => True end).
Proof.
  intros Hk. apply wp_bind. unfold wp at 1.
  destruct (account_exists a s) as [[[]|e| |] s1]; cbn [fst snd]; [|done..]. by apply send_signed.
Qed.

Lemma pooled_sent {A} (always : bool) provider mk name (k : Response -> GoM ch A) s :
  decodes k ->
  wp (pooled always provider (fun a => r <- checked name (broadcast a (mk a)) ;; k r)) s
    (fun o s' => match o with
      | Ret _ => exists a, may_sign s provider a /\ signed a (mk a) s'
      | _ => True
      end).
Proof.
  intros Hk. unfold may_sign. apply pooled_run; [intros Hap|done|intros p a c' Hap Ha|by intros ??? _ [-> | ->]].
  - rewrite Hap. destruct always; cbn beta iota.
    + eapply wp_mono; [by eapply checked_send_signed|]. intros [] s'; eauto.
    + apply wp_bind, wp_ret. eapply wp_mono; [by eapply send_signed|]. intros [] s'; eauto.
  - rewrite Hap. eapply wp_mono; [by apply checked_send_signed|].
    intros [] s'; [|done..]. unfold signed. rewrite release_world. eauto.
Qed.

(** A transaction that succeeds was broadcast, as the last thing it did, by the
    account of the node or of an address of the pool that was available, with that
    address as its creator and the node as its provider, and was executed without
    an error code. *)
Theorem transactions_sent (t : transaction) s s' : transact t s = (Ret tt, s') -> sent t s s'.
Proof.
  intros E. enough (wp (transact t) s (fun o s1 => match o with Ret _ => sent t s s1 | _ => True end))
    as Hw by (unfold wp in Hw; by rewrite E in Hw).
  unfold sent. destruct t; cbn [transact tx_provider tx_msg]; unfold discard; apply wp_bind;
    (eapply wp_mono; [apply (pooled_sent _ _ (fun a => _))|intros [] ? Hq; exact Hq || exact I]);
    intros r s1; unfold decoded, lift, ret, fail, bind; cbn;
    first [done|by destruct (Decode_OrderResponse r)|by destruct (Decode_Results r)].
Qed.
End Leases.

(** ** Transactions of several goroutines

    The two operations on the pool are atomic, under its mutex; between them the
    goroutines interleave.  [ls_held] has the address each goroutine leased. *)
Section Concurrent.
Context {C : Type} `{!SaoTypes, !CosmosLib C, !RandLib C, !GoRange, !GoRangeLaws}.
Context (provider : string) (Hprovider : provider <> "").

Record leases := Leases { ls_pool : AddressPool; ls_held : gmap nat string }.

Inductive lease_step : leases -> leases -> Prop :=
| step_lease t a p p' c c' held :
    held !! t = None -> GetRandomAddress (C := C) (p, c) = (Ret a, (p', c')) ->
    lease_step (Leases p held) (Leases p' (<[t := a]> held))
| step_no_lease e p p' c c' held :
    GetRandomAddress (C := C) (p, c) = (Fail e, (p', c')) ->
    lease_step (Leases p held) (Leases (SetAddressAvailable "" p').2 held)
| step_return t a p held :
    held !! t = Some a -> a <> provider ->
    lease_step (Leases p held) (Leases (SetAddressAvailable a p).2 (delete t held))
| step_keep t p held :
    held !! t = Some provider -> lease_step (Leases p held) (Leases p (delete t held)).

(** [m0] are the addresses at the start.  Every one is as it was, or is in use: by
    one goroutine, or, the address of the node, by none. *)
Record lease_inv (m0 : gmap string string) (s : leases) : Prop := {
  held_in_use t a : ls_held s !! t = Some a -> ap_Addresses (ls_pool s) !! a = Some InUse;
  held_once t u a : ls_held s !! t = Some a -> ls_held s !! u = Some a -> t = u;
  held_or_same a : (exists t, ls_held s !! t = Some a) \/
    ap_Addresses (ls_pool s) !! a = m0 !! a \/
    (a = provider /\ ap_Addresses (ls_pool s) !! a = Some InUse);
  held_initially t a : ls_held s !! t = Some a -> m0 !! a = Some Available
}.

Lemma GetRandomAddress_Fail p c e s :
  GetRandomAddress (C := C) (p, c) = (Fail e, s) -> s.1 = p.
Proof.
  intros E. pose proof (GetRandomAddress_spec p c) as Hg. unfold wp in Hg. by rewrite E in Hg.
Qed.

Lemma GetRandomAddress_Ret p c a s :
  GetRandomAddress (C := C) (p, c) = (Ret a, s) ->
  ap_Addresses p !! a = Some Available /\ s.1 = ap_set a InUse p.
Proof.
  intros E. pose proof (GetRandomAddress_spec p c) as Hg. unfold wp in Hg. by rewrite E in Hg.
Qed.

Lemma lease_inv_lease m0 p held t a :
  held !! t = None ->
  ap_Addresses p !! a = Some Available ->
  lease_inv m0 (Leases p held) -> lease_inv m0 (Leases (ap_set a InUse p) (<[t := a]> held)).
Proof.
  intros Ht Ha [Hu Ho Hs Hi]. cbn in *.
  assert (forall u, held !! u <> Some a) as Hfree by (intros u Hua%Hu; rewrite Ha in Hua; discriminate Hua).
  split; cbn.
  - intros u b [[<- <-]|[Hne Hub]]%lookup_insert_Some; [by rewrite lookup_insert_eq|].
    rewrite lookup_insert_ne; [by eapply Hu|]. intros ->. by destruct (Hfree u).
  - intros u v b [[<- <-]|[Hne Hub]]%lookup_insert_Some [[<- E]|[Hne' Hvb]]%lookup_insert_Some;
      try done; try (by subst; destruct (Hfree v)); try (by subst; destruct (Hfree u)).
    by eapply Ho.
  - intros b. destruct (decide (b = a)) as [->|Hb].
    + left. exists t. by rewrite lookup_insert_eq.
    + rewrite lookup_insert_ne by done. destruct (Hs b) as [[u Hub]|[E|E]]; auto.
      left. exists u. rewrite lookup_insert_ne; [done|]. congruence.
  - intros u b [[<- <-]|[Hne Hub]]%lookup_insert_Some; [|by eapply Hi].
    destruct (Hs a) as [[v Hv]|[E|[_ E]]]; [by destruct (Hfree v)|congruence|].
    rewrite Ha in E. discriminate E.
Qed.

Lemma lease_inv_return m0 p held t a :
  held !! t = Some a -> a <> provider ->
  lease_inv m0 (Leases p held) -> lease_inv m0 (Leases (ap_set a Available p) (delete t held)).
Proof.
  intros Ht Ha [Hu Ho Hs Hi]. cbn in *. split; cbn.
  - intros u b [Hne Hub]%lookup_delete_Some. rewrite lookup_insert_ne; [by eapply Hu|].
    intros ->. by destruct Hne, (Ho t u b).
  - intros u v b [_ Hub]%lookup_delete_Some [_ Hvb]%lookup_delete_Some. by eapply Ho.
  - intros b. destruct (decide (b = a)) as [->|Hb].
    + right. left. rewrite lookup_insert_eq. symmetry. by eapply Hi.
    + rewrite lookup_insert_ne by done. destruct (Hs b) as [[u Hub]|[E|E]]; auto.
      left. exists u. rewrite lookup_delete_ne; [done|]. congruence.
  - intros u b [_ Hub]%lookup_delete_Some. by eapply Hi.
Qed.

Lemma lease_inv_keep m0 p held t :
  held !! t = Some provider ->
  lease_inv m0 (Leases p held) -> lease_inv m0 (Leases p (delete t held)).
Proof.
  intros Ht [Hu Ho Hs Hi]. cbn in *. split; cbn.
  - intros u b [Hne Hub]%lookup_delete_Some. by eapply Hu.
  - intros u v b [_ Hub]%lookup_delete_Some [_ Hvb]%lookup_delete_Some. by eapply Ho.
  - intros b. destruct (Hs b) as [[u Hub]|[E|E]]; auto.
    destruct (decide (u = t)) as [->|Hne].
    + right. right. assert (b = provider) as -> by congruence. split; [done|]. by eapply Hu.
    + left. exists u. by rewrite lookup_delete_ne.
  - intros u b [_ Hub]%lookup_delete_Some. by eapply Hi.
Qed.

Lemma lease_inv_step m0 s s' :
  m0 !! "" = None -> lease_step s s' -> lease_inv m0 s -> lease_inv m0 s'.
Proof.
  intros He Hstep HI. destruct Hstep as [t a p p' c c' held Ht E|e p p' c c' held E|t a p held Ht Ha|].
  - apply GetRandomAddress_Ret in E as [Ha Hp]. cbn in Hp. subst p'. by apply lease_inv_lease.
  - apply GetRandomAddress_Fail in E. cbn in E. subst p'. rewrite SetAddressAvailable_spec.
    destruct (decide _) as [Hin|]; [|done]. exfalso.
    destruct (held_or_same _ _ HI "") as [[t Ht%(held_initially _ _ HI)]|[Hsame|[Hp _]]]; cbn in *;
      congruence.
  - rewrite SetAddressAvailable_spec, decide_True by by eapply (held_in_use _ _ HI).
    by apply lease_inv_return.
  - by apply lease_inv_keep.
Qed.

(** When the transactions of several goroutines interleave, an address of the
    pool is leased to one of them at most, and is marked; every other address has
    the mark it had at the start, except the address of the node, which may stay
    in use. *)
Theorem leases_exclusive (p0 : AddressPool) (s : leases) :
  proper_pool p0 -> rtc lease_step (Leases p0 ∅) s -> lease_inv (ap_Addresses p0) s.
Proof.
  intros Hp Hsteps. remember (Leases p0 ∅) as s0 eqn:Hs0.
  assert (lease_inv (ap_Addresses p0) s0) as Hinv.
  { subst s0. split; cbn; [done|done| |done]. intros a. by right; left. }
  clear Hs0. induction Hsteps as [|s0 s1 s2 Hstep _ IH]; [done|]. eauto using lease_inv_step.
Qed.
End Concurrent.

(** ** The loops over the chain *)

(** Pages of the metadata: the part of one list that the query asks for, with its
    length, or an error. *)
Class PageLaws (C : Type) `{!SaoTypes, !CosmosLib C} := {
  all_metadata : C -> list Metadata;
  MetadataAll_law offset limit c : all_metadata (q_MetadataAll offset limit c).2 = all_metadata c /\
    match (q_MetadataAll offset limit c).1 with
    | inl page => page = (take (Z.to_nat limit) (drop (Z.to_nat offset) (all_metadata c)),
                          Z.of_nat (length (all_metadata c)))
    | inr _ => True
    end
}.

Section Loops.
Context `{!ErrorText, !CidLib} {C : Type} `{!SaoTypes, !CosmosLib C}.
Implicit Types (s : ch (C := C)).

(** The world at the [n]-th question for the height, a second of sleep after each of
    those before it. *)
Definition polled (c : C) (n : nat) : C :=
  Nat.iter n (fun c => (time_Sleep 1000000000 (LatestBlockHeight c).2).2) c.
(** The answer leaves [GetTx] waiting. *)
Definition undecided (height : Z) (r : Z + error) : Prop := match r with inl h => h <= height | inr _ => False end.
Definition waits (height : Z) (c : C) (n : nat) : Prop :=
  forall i, (i < n)%nat -> undecided height (LatestBlockHeight (polled c i)).1.

Lemma polled_S c n : polled c (S n) = polled (time_Sleep 1000000000 (LatestBlockHeight c).2).2 n.
Proof. unfold polled. by rewrite Nat.iter_succ_r. Qed.
Lemma waits_S height c n :
  waits height c (S n) <->
  undecided height (LatestBlockHeight c).1 /\ waits height (time_Sleep 1000000000 (LatestBlockHeight c).2).2 n.
Proof.
  unfold waits. split.
  - intros Hw. split; [by apply (Hw 0%nat); lia|]. intros i Hi. rewrite <-polled_S. apply Hw. lia.
  - intros [Hu Hw] [|i] Hi; [done|]. rewrite polled_S. apply Hw. lia.
Qed.

Definition set_c (c : C) s : ch (C := C) := Ch c (ch_ap s) (ch_chans s).

Lemma wait_height_spec polls height s :
  (waits height (ch_c s) polls -> (wait_height polls height s).1 = OutOfFuel) /\
  forall n, (n < polls)%nat -> waits height (ch_c s) n -> ~ undecided height (LatestBlockHeight (polled (ch_c s) n)).1 ->
    wait_height polls height s =
      (match (LatestBlockHeight (polled (ch_c s) n)).1 with
       | inl _ => Ret tt
       | inr e => Fail (Wrap ErrTxQueryFailed (Some e))
       end, set_c (LatestBlockHeight (polled (ch_c s) n)).2 s).
Proof.
  revert s. induction polls as [|polls IH]; intros s; [split; [done|lia]|].
  assert (wait_height (S polls) height s = match (LatestBlockHeight (ch_c s)).1 with
    | inl h => if height <? h then (Ret tt, set_c (LatestBlockHeight (ch_c s)).2 s)
               else wait_height polls height (set_c (time_Sleep 1000000000 (LatestBlockHeight (ch_c s)).2).2 s)
    | inr e => (Fail (Wrap ErrTxQueryFailed (Some e)), set_c (LatestBlockHeight (ch_c s)).2 s)
    end) as Hstep.
  { cbn [wait_height]. unfold GetLastHeight, wrapping, or_else, attempt, bind, on_c, zoom, invoke.
    destruct (LatestBlockHeight (ch_c s)) as [[h|e] c]; cbn; [|done]. destruct (height <? h); [done|].
    unfold invoke_total, set_c. cbn. by destruct (time_Sleep 1000000000 c). }
  rewrite Hstep. clear Hstep. specialize (IH (set_c (time_Sleep 1000000000 (LatestBlockHeight (ch_c s)).2).2 s)) as [IHw IHd].
  cbn [ch_c set_c] in IHw, IHd. split.
  - intros [Hu Hw]%waits_S. destruct (LatestBlockHeight (ch_c s)).1 as [h|e] eqn:E; cbn in Hu; [|done].
    destruct (Z.ltb_spec height h); [lia|]. by apply IHw.
  - intros [|n] Hn Hw Hdec.
    + change (polled (ch_c s) 0) with (ch_c s) in *. destruct (LatestBlockHeight (ch_c s)).1 as [h|e]; [|done].
      cbn in Hdec. destruct (Z.ltb_spec height h); [done|lia].
    + apply waits_S in Hw as [Hu Hw]. rewrite polled_S in *. destruct (LatestBlockHeight (ch_c s)).1 as [h|e]; cbn in Hu; [|done].
      destruct (Z.ltb_spec height h); [lia|]. apply IHd; [lia|done..].
Qed.

(** Asking for a transaction, whatever the chain does: as long as every answer is a
    height that is not above the given one the service sleeps and asks again, for ever
    if need be; the first answer that is not ends it.  An error is the result, and
    nothing else is asked; after a height above the given one the transaction is
    asked for, once, in the world that this answer has left. *)
Theorem GetTx_returns polls hash height s :
  (waits height (ch_c s) polls -> (GetTx polls hash height s).1 = OutOfFuel) /\
  forall n, (n < polls)%nat -> waits height (ch_c s) n -> ~ undecided height (LatestBlockHeight (polled (ch_c s) n)).1 ->
    let last := LatestBlockHeight (polled (ch_c s) n) in
    GetTx polls hash height s = match last.1, hex_DecodeString hash with
      | inr e, _ => (Fail (Wrap ErrTxQueryFailed (Some e)), set_c last.2 s)
      | inl _, inr e => (Fail (Wrap ErrTxQueryFailed (Some e)), set_c last.2 s)
      | inl _, inl b => (match (rpc_Tx b last.2).1 with inl tx => Ret tx | inr e => Fail e end, set_c (rpc_Tx b last.2).2 s)
      end.
Proof.
  pose proof (wait_height_spec polls height s) as [Hw Hd]. split.
  - intros Hall. specialize (Hw Hall). unfold GetTx, bind. destruct (wait_height polls height s) as [o s']. cbn in Hw. by subst o.
  - intros n Hn Hwait Hdec last. unfold GetTx, bind at 1. rewrite (Hd n Hn Hwait Hdec). subst last.
    destruct (LatestBlockHeight (polled (ch_c s) n)) as [[h|e] c]; cbn; [|done].
    unfold wrapping, or_else, attempt, bind, lift. destruct (hex_DecodeString hash) as [b|e]; [|done].
    unfold on_c, zoom, invoke. cbn. by destruct (rpc_Tx b c) as [[tx|e] c'].
Qed.

Lemma list_by_did_spec `{!PageLaws C} pages did limit i acc s :
  let all := all_metadata (ch_c s) in
  let mine := List.filter (fun m => String.eqb (md_Owner m) did) in
  0 < limit -> 0 <= i -> Z.of_nat (length all) + limit < two64 ->
  limit * i <= Z.of_nat (length all) ->
  Z.of_nat (length all) < limit * (i + Z.of_nat pages) ->
  acc = mine (take (Z.to_nat (limit * i)) all) ->
  wp (list_by_did pages did (limit * i) limit acc) s (fun o _ => match o with
    | Ret l => l = mine all
    | Fail _ => True
    | _ => False
    end).
Proof.
  cbv zeta. revert i acc s. induction pages as [|pages IH]; intros i acc s Hl Hi Hb Hle Hlt ->; [lia|].
  cbn [list_by_did]. unfold ListMeta, wrapping, on_c. set (all := all_metadata (ch_c s)) in *.
  pose proof (MetadataAll_law (limit * i) limit (ch_c s)) as [Hall Hpage].
  apply wp_bind. unfold wp at 1, or_else, attempt, bind, zoom, invoke.
  destruct (q_MetadataAll (limit * i) limit (ch_c s)) as [[page|e] c]; cbn in *; [|done].
  subst page. cbn [fst snd]. rewrite wrap_u64_small by (unfold is_u64; nia).
  rewrite <-List.filter_app, take_take_drop.
  replace (Z.to_nat (limit * i) + Z.to_nat limit)%nat with (Z.to_nat (limit * (i + 1))) by nia.
  replace (limit * i + limit) with (limit * (i + 1)) by lia. fold all.
  destruct (Z.leb_spec (limit * (i + 1)) (Z.of_nat (length all))) as [Hle'|Hgt].
  - cbn beta iota. replace (List.filter _ all) with
      (List.filter (fun m => String.eqb (md_Owner m) did) (all_metadata (ch_c (Ch c (ch_ap s) (ch_chans s)))))
      by (cbn; by rewrite Hall).
    apply IH; cbn; rewrite ?Hall; fold all; try done; try lia. 
  - apply wp_ret. f_equal. apply take_ge. lia.
Qed.

(** The metadata of an owner are collected from all the pages, every one once
    and in order, when the chain gives the pages of one list; the last query is
    for an empty page when the length of the list is a multiple of the limit. *)
Theorem ListMetaByDid_complete `{!PageLaws C} did s :
  let all := all_metadata (ch_c s) in
  Z.of_nat (length all) + 100 < two64 ->
  wp (ListMetaByDid (S (length all / 100)) did) s (fun o _ => match o with
    | Ret l => l = List.filter (fun m => String.eqb (md_Owner m) did) all
    | Fail _ => True
    | _ => False
    end).
Proof.
  intros all Hb. unfold ListMetaByDid. change 0 with (100 * 0).
  apply list_by_did_spec; try done; try lia.
  pose proof (Nat.div_mod_eq (length all) 100). pose proof (Nat.mod_upper_bound (length all) 100).
  fold all. lia.
Qed.
End Loops.

(** ** The pool on disk *)

(** A keyring that can be opened: it has an address for a name, or not; a new
    account adds one name.  [keys_of c home name] is the address of [name]. *)
Class KeyringLaws (C : Type) `{!SaoTypes, !CosmosLib C, !KeyringLib C} := {
  keys_of : C -> string -> string -> option string;
  reg_home : Registry -> string;
  registry_New_law home c : exists r c',
    registry_New home c = (inl r, c') /\ reg_home r = home /\ keys_of c' = keys_of c;
  GetByName_law r name c : exists c', keys_of c' = keys_of c /\
    match keys_of c (reg_home r) name with
    | Some a => exists acc, GetByName r name c = (inl acc, c') /\
                  account_Address acc ADDRESS_PREFIX = inl a
    | None => exists e, GetByName r name c = (inr e, c')
    end;
  NewEntropy_law n c : keys_of (NewEntropy n c).2 = keys_of c;
  NewAccount_law r name mnemonic path algo c :
    let '(res, c') := NewAccount r name mnemonic path algo c in
    match res with
    | inl record => exists a, account_Address (mk_KeyAccount name record) ADDRESS_PREFIX = inl a /\
        forall h n, keys_of c' h n
          = if decide (h = reg_home r /\ n = name) then Some a else keys_of c h n
    | inr _ => keys_of c' = keys_of c
    end
}.

Section Pools.
Context {C : Type} `{!SaoTypes, !CosmosLib C, !KeyringLib C, !FileSys C, !KeyringLaws C}.
Context (keyringHome home : string) (Hhome : homedir_Expand keyringHome = inl home).
Implicit Types c : C.

Definition has_key c (i : Z) : Prop := is_Some (keys_of c home (tx_addr i)).
(** No name is lost, and none changes its address. *)
Definition keys_kept c c' : Prop :=
  forall n a, keys_of c home n = Some a -> keys_of c' home n = Some a.

#[local] Instance keys_kept_preorder : PreOrder keys_kept.
Proof. split; unfold keys_kept; [intros c|intros c1 c2 c3]; auto. Qed.

Lemma open_registry c : exists r c', newAccountRegistry keyringHome c = (Ret r, c') /\
  reg_home r = home /\ keys_of c' = keys_of c.
Proof.
  unfold newAccountRegistry. rewrite Hhome. cbn. unfold bind, invoke. cbn.
  destruct (registry_New_law home c) as (r & c' & E & Hr & Hc). rewrite E. eauto.
Qed.

Lemma GetAddress_spec name c : exists c', keys_of c' = keys_of c /\
  match keys_of c home name with
  | Some a => GetAddress keyringHome name c = (Ret a, c')
  | None => exists e, GetAddress keyringHome name c = (Fail e, c')
  end.
Proof.
  destruct (open_registry c) as (r & c1 & E & Hr & Hc).
  destruct (GetByName_law r name c1) as (c2 & Hc2 & Hget). exists c2. split; [congruence|].
  rewrite Hr, Hc in Hget. unfold GetAddress, wrapping, or_else, attempt, bind. rewrite E. cbn.
  unfold invoke. destruct (keys_of c home name) as [a|].
  - destruct Hget as (acc & -> & Ha). cbn. by rewrite Ha.
  - destruct Hget as (e & ->). eauto.
Qed.

Lemma GenerateMnemonic_keys c : keys_of (GenerateMnemonic c).2 = keys_of c.
Proof.
  unfold GenerateMnemonic, wrapping, or_else, attempt, bind, invoke.
  pose proof (NewEntropy_law 256 c) as Hent. destruct (NewEntropy 256 c) as [[b|e] c1]; cbn in *; [|done].
  by destruct (NewMnemonic b).
Qed.

Lemma GenerateAccount_spec name mnemonic c :
  keys_of c home name = None ->
  wp (GenerateAccount keyringHome name mnemonic) c (fun o c' => keys_kept c c' /\
    match o with Ret a => keys_of c' home name = Some a | _ => True end).
Proof.
  intros Hnone. destruct (open_registry c) as (r & c1 & E & Hr & Hc).
  unfold wp, GenerateAccount, wrapping, or_else, attempt, bind. rewrite E. cbn.
  destruct (SigningAlgoFromString r) as [algo|e]; cbn; [|split; [intros n a; by rewrite Hc|done]].
  unfold invoke. pose proof (NewAccount_law r name mnemonic hdPath algo c1) as Hacc.
  destruct (NewAccount r name mnemonic hdPath algo c1) as [[record|e] c2]; cbn in *.
  - destruct Hacc as (a & Ha & Hkeys). rewrite Ha. cbn. rewrite Hr in Hkeys. split.
    + intros n b Hn. rewrite Hkeys, Hc. destruct (decide _) as [[_ ->]|]; congruence.
    + rewrite Hkeys. by rewrite decide_True.
  - split; [intros n a; by rewrite Hacc, Hc|done].
Qed.

Lemma ensure_address_spec i c :
  wp (ensure_address keyringHome i) c (fun o c' => keys_kept c c' /\
    match o with Ret _ => has_key c' i | _ => True end).
Proof.
  unfold ensure_address, has_key. apply wp_bind, wp_attempt.
  destruct (GetAddress_spec (tx_addr i) c) as (c1 & Hc1 & Hget). unfold wp at 1.
  destruct (keys_of c home (tx_addr i)) as [a|] eqn:Hk.
  - rewrite Hget. cbn. apply wp_ret. split; [intros n b; by rewrite Hc1|]. rewrite Hc1, Hk. eauto.
  - destruct Hget as [e ->]. cbn. apply wp_bind. unfold wp at 1.
    pose proof (GenerateMnemonic_keys c1) as Hm. destruct (GenerateMnemonic c1) as [o c2]. cbn in *.
    assert (keys_kept c c2) as Hkept by (intros n b; by rewrite Hm, Hc1).
    destruct o as [mnemonic|e'| |]; [|done..].
    unfold generateAddressFromMnemonic. apply wp_bind.
    eapply wp_mono; [apply GenerateAccount_spec; by rewrite Hm, Hc1|]. cbn.
    intros [a|e'| |] c3 [Hkept3 Ha]; (split; [by etrans|]); [|done..]. cbn. rewrite Ha. eauto.
Qed.

Lemma ensure_addresses_spec l c :
  wp (for_each l (ensure_address keyringHome)) c (fun o c' => keys_kept c c' /\
    match o with Ret _ => Forall (has_key c') l | _ => True end).
Proof.
  revert c. induction l as [|i l IH]; intros c; [by apply wp_ret|]. cbn [for_each]. apply wp_bind.
  eapply wp_mono; [apply ensure_address_spec|]. cbn. intros [u|e| |] c1 [Hk Hi]; [|done..].
  eapply wp_mono; [apply IH|]. cbn. intros [v|e| |] c2 [Hk2 Hl]; (split; [by etrans|]); [|done..].
  constructor; [|done]. destruct Hi as [a Ha%Hk2]. by exists a.
Qed.

Lemma load_addresses_spec l pool c : Forall (has_key c) l -> exists pool' c',
  load_addresses keyringHome l pool c = (Ret pool', c') /\ keys_of c' = keys_of c /\
  ap_RootAddress pool' = ap_RootAddress pool /\
  forall a st, ap_Addresses pool' !! a = Some st <->
    (st = Available /\ exists i, i ∈ l /\ keys_of c home (tx_addr i) = Some a) \/
    (ap_Addresses pool !! a = Some st /\
     ~ exists i, i ∈ l /\ keys_of c home (tx_addr i) = Some a).
Proof.
  revert pool c. induction l as [|i l IH]; intros pool c Hl.
  { exists pool, c. split_and!; [done..|]. intros a st. split; [|intros [(_ & i & []%not_elem_of_nil & _)|[E _]]; done].
    intros E. right. split; [done|]. by intros (i & []%not_elem_of_nil & _). }
  apply Forall_cons in Hl as [[b Hb] Hl]. cbn [load_addresses].
  destruct (GetAddress_spec (tx_addr i) c) as (c1 & Hc1 & Hget). rewrite Hb in Hget.
  unfold bind, attempt. rewrite Hget.
  destruct (IH (ap_set b Available pool) c1) as (pool' & c' & E & Hc' & Hroot & Hmap).
  { eapply Forall_impl; [done|]. intros j. unfold has_key. by rewrite Hc1. }
  exists pool', c'. rewrite E. split_and!; [done|congruence|done|]. intros a st. rewrite Hmap, Hc1. cbn.
  destruct (decide (a = b)) as [->|Hne].
  - rewrite lookup_insert_eq. split.
    + intros [(-> & j & Hj & E')|[[= <-] Hno]]; left; (split; [done|]).
      * exists j. split; [by right|done].
      * exists i. split; [left|done].
    + intros [(-> & _)|[_ Hno]]; [|destruct Hno; exists i; split; [left|done]].
      destruct (decide (Exists (fun j => keys_of c home (tx_addr j) = Some b) l)) as [Hex|Hno];
        rewrite Exists_exists in *; auto.
  - rewrite lookup_insert_ne by done.
    assert ((exists j, j ∈ i :: l /\ keys_of c home (tx_addr j) = Some a) <->
            (exists j, j ∈ l /\ keys_of c home (tx_addr j) = Some a)) as ->; [|done].
    split; intros (j & Hj & E'); exists j; (split; [|done]); [|by right].
    apply elem_of_cons in Hj as [->|]; [congruence|done].
Qed.

(** After [CreateAddressPool] succeeds, [LoadAddressPool] gives a pool with
    exactly the addresses of the names [tx_addr_0] ... [tx_addr_(size-1)], all
    available, with the first one as its root; no key of the keyring is lost. *)
Theorem created_pool_loads size c c1 :
  0 < size -> CreateAddressPool keyringHome size c = (Ret tt, c1) ->
  keys_kept c c1 /\ exists pool c2,
    LoadAddressPool keyringHome size c1 = (Ret (Some pool), c2) /\
    keys_of c1 home (tx_addr 0) = Some (ap_RootAddress pool) /\
    (forall i, 0 <= i < size -> has_key c1 i) /\
    forall a st, ap_Addresses pool !! a = Some st <->
      st = Available /\ exists i, 0 <= i < size /\ keys_of c1 home (tx_addr i) = Some a.
Proof.
  intros Hsize E. unfold CreateAddressPool in E.
  assert (wp (ensure_address keyringHome 0 ;; for_each (pool_indices size) (ensure_address keyringHome)) c
    (fun o c' => keys_kept c c' /\ match o with
       Ret _ => has_key c' 0 /\ Forall (has_key c') (pool_indices size) | _ => True end)) as Hw.
  { apply wp_bind. eapply wp_mono; [apply ensure_address_spec|]. cbn.
    intros [u|e| |] c' [Hk Hi]; [|done..]. eapply wp_mono; [apply ensure_addresses_spec|]. cbn.
    intros [v|e| |] c'' [Hk2 Hl]; (split; [by etrans|]); [|done..]. split; [|done].
    destruct Hi as [a Ha%Hk2]. by exists a. }
  unfold wp in Hw. rewrite E in Hw. cbn in Hw. destruct Hw as (Hk & [r Hr] & Hl).
  split; [done|]. unfold LoadAddressPool. rewrite (proj2 (Z.eqb_neq size 0)) by lia.
  destruct (GetAddress_spec (tx_addr 0) c1) as (c2 & Hc2 & Hget). rewrite Hr in Hget.
  unfold bind. rewrite Hget.
  destruct (load_addresses_spec (pool_indices size) (ap_set r Available (MkAddressPool ∅ r keyringHome)) c2)
    as (pool & c3 & -> & Hc3 & Hroot & Hmap).
  { eapply Forall_impl; [done|]. intros j. unfold has_key. by rewrite Hc2. }
  assert (forall i, i ∈ pool_indices size <-> 1 <= i < size) as Hin.
  { intros i. unfold pool_indices. rewrite elem_of_seqZ. lia. }
  exists pool, c3. split_and!; [done|by rewrite Hroot| |].
  - intros i Hi. destruct (decide (i = 0)) as [->|]; [by exists r|].
    rewrite Forall_forall in Hl. apply Hl, Hin. lia.
  - intros a st. rewrite Hmap, Hc2. cbn. rewrite lookup_insert_Some, lookup_empty. split.
    + intros [(-> & i & Hi%Hin & Ha)|[[[<- <-]|[_ [=]]] _]]; (split; [done|]); [exists i|exists 0]; split; (done || lia).
    + intros (-> & i & Hi & Ha). destruct (decide (Exists (fun i => keys_of c1 home (tx_addr i) = Some a) (pool_indices size)))
        as [Hex%Exists_exists|Hno]; [by left|].
      right. rewrite Exists_exists in Hno. split; [|done]. left.
      destruct (decide (i = 0)) as [->|]; [split; congruence|].
      destruct Hno. exists i. rewrite Hin. split; [lia|done].
Qed.
End Pools.
