(* ===== verification/Broadcast.v ===== *)
(** * The broadcast loops ([broadcastMsg] and [broadcastLoop] of [chain/chain.go])

    Every signer has a channel with a buffer of one job and a goroutine that takes
    jobs from it.  The goroutines that send transactions put a job into the channel
    and wait for its result; the first one for a signer makes the channel and
    starts the goroutine, without a lock.

    A state [bs] has the world of the client, [broadcastChanMap] (channels are
    numbers), the loops with the channels they read, the jobs, and where each
    caller is.  A job is in the buffer of a channel, [inl k], or in the variable
    [job] of a loop, [inr l], there with the account that was found or the result.
    The look-up of the account and the broadcast are two steps, and other goroutines
    use the client as well ([other]).

    [broadcasts_refine]: whatever the interleaving, a caller that gets a result gets
    the one of its own message, as if it had called the client itself.  [calm_serial]:
    when the first calls for a signer do not overlap, the loops broadcast one
    message of a signer at a time; [racing_broadcasts]: when they do, not. *)
From stdpp Require Import base list gmap strings.
From Stdlib Require Import ZArith Lia.
From S2P Require Import Prelude Types StateUtils ChainApi Stage Chain.

Section Broadcast.
Context {C : Type} `{!SaoTypes, !CosmosLib C, !KeyringLib C}.

(** Where a goroutine is in [broadcastMsg] and after it. *)
Inductive caller :=
| CCheck (signer : string) (msg : Msg)    (* if _, exists := ...; !exists *)
| CCreate (signer : string) (msg : Msg)   (* c.broadcastChanMap[signer] = make(...) *)
| CSpawn (signer : string) (msg : Msg)    (* go c.broadcastLoop(..., c.broadcastChanMap[signer]) *)
| CSend (signer : string) (msg : Msg)     (* c.broadcastChanMap[signer] <- job *)
| CWait (signer : string) (msg : Msg)     (* result := <-resultChan *)
| CDone (result : Response + error).

(** A job is known by the goroutine that waits for its result.  A loop that has taken it
    finds the account first. *)
Inductive stage := SNew | SFound (signerAcc : CosmosAccount) | SResult (r : Response + error).
Record job := MkJob { j_caller : nat; j_signer : string; j_msg : Msg; j_stage : stage }.

Record bs := Bs {
  b_c : C;
  b_map : gmap string nat;
  b_loops : gmap nat nat;
  b_jobs : gmap (nat + nat) job;
  b_callers : gmap nat caller
}.

Definition set_caller (t : nat) (p : caller) (s : bs) : bs :=
  Bs (b_c s) (b_map s) (b_loops s) (b_jobs s) (<[t := p]> (b_callers s)).

Inductive step : bs -> bs -> Prop :=
| step_exists t signer msg k s :
    b_callers s !! t = Some (CCheck signer msg) -> b_map s !! signer = Some k ->
    step s (set_caller t (CSend signer msg) s)
| step_missing t signer msg s :
    b_callers s !! t = Some (CCheck signer msg) -> b_map s !! signer = None ->
    step s (set_caller t (CCreate signer msg) s)
| step_create t signer msg k s :
    b_callers s !! t = Some (CCreate signer msg) ->
    (forall signer', b_map s !! signer' <> Some k) -> (forall l, b_loops s !! l <> Some k) ->
    b_jobs s !! inl k = None ->
    step s (Bs (b_c s) (<[signer := k]> (b_map s)) (b_loops s) (b_jobs s)
              (<[t := CSpawn signer msg]> (b_callers s)))
| step_spawn t signer msg k l s :
    b_callers s !! t = Some (CSpawn signer msg) -> b_map s !! signer = Some k ->
    b_loops s !! l = None -> b_jobs s !! inr l = None ->
    step s (Bs (b_c s) (b_map s) (<[l := k]> (b_loops s)) (b_jobs s)
              (<[t := CSend signer msg]> (b_callers s)))
| step_send t signer msg k s :
    b_callers s !! t = Some (CSend signer msg) -> b_map s !! signer = Some k ->
    b_jobs s !! inl k = None ->
    step s (Bs (b_c s) (b_map s) (b_loops s) (<[inl k := MkJob t signer msg SNew]> (b_jobs s))
              (<[t := CWait signer msg]> (b_callers s)))
| step_take l k j s :
    b_loops s !! l = Some k -> b_jobs s !! inr l = None -> b_jobs s !! inl k = Some j ->
    step s (Bs (b_c s) (b_map s) (b_loops s) (<[inr l := j]> (delete (inl k) (b_jobs s))) (b_callers s))
| step_found l t signer msg a c' s :
    b_jobs s !! inr l = Some (MkJob t signer msg SNew) ->
    attempt (find_account signer) (b_c s) = (Ret (inl a), c') ->
    step s (Bs c' (b_map s) (b_loops s) (<[inr l := MkJob t signer msg (SFound a)]> (b_jobs s)) (b_callers s))
| step_unknown l t signer msg e c' s :
    b_jobs s !! inr l = Some (MkJob t signer msg SNew) ->
    attempt (find_account signer) (b_c s) = (Ret (inr e), c') ->
    step s (Bs c' (b_map s) (b_loops s) (<[inr l := MkJob t signer msg (SResult (inr e))]> (b_jobs s)) (b_callers s))
| step_tx l t signer msg a r c' s :
    b_jobs s !! inr l = Some (MkJob t signer msg (SFound a)) ->
    attempt (send_tx a msg) (b_c s) = (Ret r, c') ->
    step s (Bs c' (b_map s) (b_loops s) (<[inr l := MkJob t signer msg (SResult r)]> (b_jobs s)) (b_callers s))
| step_deliver l t signer msg r s :
    b_jobs s !! inr l = Some (MkJob t signer msg (SResult r)) ->
    b_callers s !! t = Some (CWait signer msg) ->
    step s (Bs (b_c s) (b_map s) (b_loops s) (delete (inr l) (b_jobs s))
              (<[t := CDone r]> (b_callers s))).

(** Goroutines that are about to call [broadcastMsg], on a service without loops. *)
Definition start (c : C) (calls : gmap nat (string * Msg)) : bs :=
  Bs c ∅ ∅ ∅ ((fun p => CCheck p.1 p.2) <$> calls).

(** ** The results

    The specification: each caller makes two calls of the client itself, for its own
    message, and in between the others go on. *)
Inductive direct :=
| KNew (signer : string) (msg : Msg)
| KFound (signer : string) (msg : Msg) (signerAcc : CosmosAccount)
| KDone (r : Response + error).
Record spec := Spec { sp_c : C; sp_calls : gmap nat direct }.

(** What other goroutines may do to the client. *)
Section Others.
Context (other : C -> C -> Prop).

Inductive spec_step : spec -> spec -> Prop :=
| spec_found t signer msg a c c' calls :
    calls !! t = Some (KNew signer msg) -> attempt (find_account signer) c = (Ret (inl a), c') ->
    spec_step (Spec c calls) (Spec c' (<[t := KFound signer msg a]> calls))
| spec_unknown t signer msg e c c' calls :
    calls !! t = Some (KNew signer msg) -> attempt (find_account signer) c = (Ret (inr e), c') ->
    spec_step (Spec c calls) (Spec c' (<[t := KDone (inr e)]> calls))
| spec_tx t signer msg a r c c' calls :
    calls !! t = Some (KFound signer msg a) -> attempt (send_tx a msg) c = (Ret r, c') ->
    spec_step (Spec c calls) (Spec c' (<[t := KDone r]> calls))
| spec_other c c' calls : other c c' -> spec_step (Spec c calls) (Spec c' calls).

(** The broadcasts beside the other uses of the client. *)
Inductive among : bs -> bs -> Prop :=
| among_step s s' : step s s' -> among s s'
| among_other s c' : other (b_c s) c' -> among s (Bs c' (b_map s) (b_loops s) (b_jobs s) (b_callers s)).

Definition direct_calls (calls : gmap nat (string * Msg)) : gmap nat direct := (fun p => KNew p.1 p.2) <$> calls.

(** Where a caller stands in the specification; a waiting one stands where its job
    does. *)
Inductive stands (s : bs) (a : spec) (t : nat) : caller -> Prop :=
| stands_todo p signer msg :
    sp_calls a !! t = Some (KNew signer msg) ->
    p ∈ [CCheck signer msg; CCreate signer msg; CSpawn signer msg; CSend signer msg] ->
    stands s a t p
| stands_wait signer msg at_ :
    b_jobs s !! at_ = Some (MkJob t signer msg SNew) ->
    sp_calls a !! t = Some (KNew signer msg) -> stands s a t (CWait signer msg)
| stands_found signer msg l acc :
    b_jobs s !! inr l = Some (MkJob t signer msg (SFound acc)) ->
    sp_calls a !! t = Some (KFound signer msg acc) -> stands s a t (CWait signer msg)
| stands_ran signer msg l r :
    b_jobs s !! inr l = Some (MkJob t signer msg (SResult r)) ->
    sp_calls a !! t = Some (KDone r) -> stands s a t (CWait signer msg)
| stands_done r :
    sp_calls a !! t = Some (KDone r) -> stands s a t (CDone r).

Record refines (s : bs) (a : spec) : Prop := {
  rf_world : b_c s = sp_c a;
  rf_stands t p : b_callers s !! t = Some p -> stands s a t p;
  rf_none t : b_callers s !! t = None -> sp_calls a !! t = None;
  rf_waits at_ j : b_jobs s !! at_ = Some j -> b_callers s !! j_caller j = Some (CWait (j_signer j) (j_msg j));
  rf_once at1 at2 j1 j2 : b_jobs s !! at1 = Some j1 -> b_jobs s !! at2 = Some j2 ->
    j_caller j1 = j_caller j2 -> at1 = at2
}.

(** The stand of a caller survives when its job does, in its loop or anywhere. *)
Lemma stands_mono s s' a a' t p :
  (forall at_ j, b_jobs s !! at_ = Some j -> j_caller j = t ->
     match at_ with
     | inl _ => exists at', b_jobs s' !! at' = Some j
     | inr l => b_jobs s' !! inr l = Some j
     end) ->
  sp_calls a' !! t = sp_calls a !! t ->
  stands s a t p -> stands s' a' t p.
Proof.
  intros Hj Hcalls [q signer msg H1 H2|signer msg at_ H1 H2|signer msg l acc H1 H2|signer msg l r H1 H2|r H1].
  - apply (stands_todo _ _ _ _ signer msg); congruence.
  - assert (exists at', b_jobs s' !! at' = Some (MkJob t signer msg SNew)) as [at' Hat].
    { specialize (Hj _ _ H1 eq_refl). destruct at_; eauto. }
    eapply stands_wait; [exact Hat|congruence].
  - eapply stands_found; [exact (Hj _ _ H1 eq_refl)|congruence].
  - eapply stands_ran; [exact (Hj _ _ H1 eq_refl)|congruence].
  - apply stands_done; congruence.
Qed.

Lemma refines_move s a t p0 p1 signer msg b_map' b_loops' :
  p0 ∈ [CCheck signer msg; CCreate signer msg; CSpawn signer msg; CSend signer msg] ->
  p1 ∈ [CCheck signer msg; CCreate signer msg; CSpawn signer msg; CSend signer msg] ->
  b_callers s !! t = Some p0 -> refines s a ->
  refines (Bs (b_c s) b_map' b_loops' (b_jobs s) (<[t := p1]> (b_callers s))) a.
Proof.
  intros Hp0 Hp1 Ht [Hw Hs Hn Hwait Honce]. split; cbn; [done| | | |done].
  - intros u p [[<- <-]|[Hne Hu]]%lookup_insert_Some.
    + specialize (Hs _ _ Ht). destruct Hs as [q sg m H1 H3| | | |];
        try (exfalso; clear -Hp0; set_solver).
      apply (stands_todo _ _ _ _ sg m); [done|].
      assert (sg = signer /\ m = msg) as [-> ->]; [|done]. clear -Hp0 H3. set_solver.
    + eapply (stands_mono s); [|done|by apply Hs]. intros [k|l] j Hj _; cbn; eauto.
  - intros u [Hu Hne]%lookup_insert_None. by apply Hn.
  - intros at_ j Hj. specialize (Hwait _ _ Hj). rewrite lookup_insert_ne; [done|].
    intros ->. rewrite Ht in Hwait. injection Hwait as ->. clear -Hp0. set_solver.
Qed.

Lemma refines_send s a t signer msg k :
  b_callers s !! t = Some (CSend signer msg) -> b_jobs s !! inl k = None -> refines s a ->
  refines (Bs (b_c s) (b_map s) (b_loops s) (<[inl k := MkJob t signer msg SNew]> (b_jobs s))
             (<[t := CWait signer msg]> (b_callers s))) a.
Proof.
  intros Ht Hk [Hw Hs Hn Hwait Honce].
  assert (forall at_ j, b_jobs s !! at_ = Some j -> j_caller j <> t) as Hno.
  { intros at_ j Hj <-. specialize (Hwait _ _ Hj). congruence. }
  split; cbn; [done| | | |].
  - intros u p [[<- <-]|[Hne Hu]]%lookup_insert_Some.
    + pose proof (Hs _ _ Ht) as Hst. inversion Hst as [q sg m H1 H3| | | |]; subst.
      eapply stands_wait; [apply lookup_insert_eq|].
      assert (sg = signer /\ m = msg) as [-> ->]; [|done]. clear -H3. set_solver.
    + eapply (stands_mono s); [|done|by apply Hs]. intros [k'|l] j Hj _; cbn.
      * exists (inl k'). rewrite lookup_insert_ne; [done|]. congruence.
      * by rewrite lookup_insert_ne.
  - intros u [Hu Hne]%lookup_insert_None. by apply Hn.
  - intros at_ j [[<- <-]|[Hne Hj]]%lookup_insert_Some; cbn; [by rewrite lookup_insert_eq|].
    rewrite lookup_insert_ne; [by eapply Hwait|]. intros E. by destruct (Hno _ _ Hj).
  - intros at1 at2 j1 j2 [[<- <-]|[Hne1 Hj1]]%lookup_insert_Some [[<- <-]|[Hne2 Hj2]]%lookup_insert_Some E;
      cbn in *; try done; [by destruct (Hno _ _ Hj2)|by destruct (Hno _ _ Hj1)|by eapply Honce].
Qed.

Lemma refines_take s a l k j :
  b_jobs s !! inr l = None -> b_jobs s !! inl k = Some j -> refines s a ->
  refines (Bs (b_c s) (b_map s) (b_loops s) (<[inr l := j]> (delete (inl k) (b_jobs s))) (b_callers s)) a.
Proof.
  intros Hl Hk [Hw Hs Hn Hwait Honce].
  assert (forall at_ j', <[inr l := j]> (delete (inl k) (b_jobs s)) !! at_ = Some j' ->
    exists at0, b_jobs s !! at0 = Some j' /\ (at0 = at_ \/ at0 = inl k /\ at_ = inr l)) as Hback.
  { intros at_ j' [[<- <-]|[Hne [Hne2 Hj]%lookup_delete_Some]]%lookup_insert_Some; eauto. }
  split; cbn; [done| |done| |].
  - intros u p Hu. eapply (stands_mono s); [|done|by apply Hs]. intros [k'|l'] j' Hj _; cbn.
    + destruct (decide (k' = k)) as [->|Hne].
      * exists (inr l). rewrite lookup_insert_eq. congruence.
      * exists (inl k'). rewrite lookup_insert_ne, lookup_delete_ne; congruence.
    + rewrite lookup_insert_ne, lookup_delete_ne; congruence.
  - intros at_ j' (at0 & Hj & _)%Hback. by eapply Hwait.
  - intros at1 at2 j1 j2 H1 H2 E. pose proof (Hback _ _ H1) as (b1 & Hb1 & C1).
    pose proof (Hback _ _ H2) as (b2 & Hb2 & C2). assert (b1 = b2) as -> by by eapply Honce.
    assert (forall j', <[inr l := j]> (delete (inl k) (b_jobs s)) !! inl k <> Some j') as Hgone.
    { intros j'. rewrite lookup_insert_ne, lookup_delete_eq; done. }
    destruct C1 as [C1|[C1 C1']], C2 as [C2|[C2 C2']]; subst; try congruence; by destruct (Hgone j1) || by destruct (Hgone j2).
Qed.

(** A loop goes on with its job: the caller stands where the job does then. *)
Lemma refines_advance s a l t signer msg st st' c' k' :
  b_jobs s !! inr l = Some (MkJob t signer msg st) -> refines s a ->
  stands (Bs c' (b_map s) (b_loops s) (<[inr l := MkJob t signer msg st']> (b_jobs s)) (b_callers s))
    (Spec c' (<[t := k']> (sp_calls a))) t (CWait signer msg) ->
  refines (Bs c' (b_map s) (b_loops s) (<[inr l := MkJob t signer msg st']> (b_jobs s)) (b_callers s))
    (Spec c' (<[t := k']> (sp_calls a))).
Proof.
  intros Hl [Hw Hs Hn Hwait Honce] Hst'. pose proof (Hwait _ _ Hl) as Ht. cbn in Ht.
  split; cbn; [done| | | |].
  - intros u p Hu. destruct (decide (u = t)) as [->|Hne]; [by simplify_eq|].
    eapply (stands_mono s); [| |by apply Hs]; cbn; [|by rewrite lookup_insert_ne].
    intros [k|l'] j Hj E; cbn; [exists (inl k); by rewrite lookup_insert_ne|].
    rewrite lookup_insert_ne; [done|]. intros [= <-]. rewrite Hl in Hj. by injection Hj as <-.
  - intros u Hu. assert (u <> t) by congruence. rewrite lookup_insert_ne by done. by apply Hn.
  - intros at_ j [[<- <-]|[Hne Hj]]%lookup_insert_Some; [done|by eapply Hwait].
  - intros at1 at2 j1 j2 [[<- <-]|[Hne1 Hj1]]%lookup_insert_Some [[<- <-]|[Hne2 Hj2]]%lookup_insert_Some E;
      cbn in *; [done| | |by eapply Honce].
    + eapply (Honce _ _ _ _ Hl Hj2). done.
    + symmetry. eapply (Honce _ _ _ _ Hl Hj1). done.
Qed.

(** Where the caller of a job that a loop has taken stands. *)
Lemma stands_of_job s a l t signer msg st :
  b_jobs s !! inr l = Some (MkJob t signer msg st) -> refines s a ->
  sp_calls a !! t = Some (match st with SNew => KNew signer msg | SFound acc => KFound signer msg acc | SResult r => KDone r end).
Proof.
  intros Hl [Hw Hs Hn Hwait Honce]. pose proof (Hwait _ _ Hl) as Ht. cbn in Ht. pose proof (Hs _ _ Ht) as Hst.
  assert (forall at_ j, b_jobs s !! at_ = Some j -> j_caller j = t -> at_ = inr l) as Hat by (intros; by eapply Honce).
  inversion Hst as [q sg m H1 H3|sg m at_ H1 H2|sg m l' acc H1 H2|sg m l' r' H1 H2|]; subst.
  - exfalso. clear -H3. set_solver.
  - rewrite (Hat _ _ H1 eq_refl) in H1. by simplify_eq.
  - pose proof (Hat _ _ H1 eq_refl) as [= ->]. by simplify_eq.
  - pose proof (Hat _ _ H1 eq_refl) as [= ->]. by simplify_eq.
Qed.

Lemma refines_deliver s a l t signer msg r :
  b_jobs s !! inr l = Some (MkJob t signer msg (SResult r)) ->
  b_callers s !! t = Some (CWait signer msg) -> refines s a ->
  refines (Bs (b_c s) (b_map s) (b_loops s) (delete (inr l) (b_jobs s)) (<[t := CDone r]> (b_callers s))) a.
Proof.
  intros Hl Ht HR. pose proof (stands_of_job _ _ _ _ _ _ _ Hl HR) as Hdone. destruct HR as [Hw Hs Hn Hwait Honce].
  assert (forall at_ j, b_jobs s !! at_ = Some j -> at_ <> inr l -> j_caller j <> t) as Hno.
  { intros at_ j Hj Hne E. destruct Hne. by eapply Honce. }
  split; cbn; [done| | | |].
  - intros u p [[<- <-]|[Hne Hu]]%lookup_insert_Some; [by apply stands_done|].
    eapply (stands_mono s); [|done|by apply Hs]. intros [k'|l'] j Hj E; cbn.
    + exists (inl k'). by rewrite lookup_delete_ne.
    + rewrite lookup_delete_ne; [done|]. intros [= <-]. rewrite Hl in Hj. by injection Hj as <-.
  - intros u [Hu Hne]%lookup_insert_None. by apply Hn.
  - intros at_ j [Hne Hj]%lookup_delete_Some. rewrite lookup_insert_ne; [by eapply Hwait|].
    intros E. by destruct (Hno _ _ Hj (not_eq_sym Hne)).
  - intros at1 at2 j1 j2 [_ H1]%lookup_delete_Some [_ H2]%lookup_delete_Some. by eapply Honce.
Qed.

Lemma refines_step s s' a :
  step s s' -> refines s a -> exists a', rtc spec_step a a' /\ refines s' a'.
Proof.
  intros Hstep HR. destruct Hstep as [t sg m k s Ht Hm|t sg m s Ht Hm|t sg m k s Ht|t sg m k l s Ht
    |t sg m k s Ht Hm Hk|l k j s Hl Hn Hk|l t sg m acc c' s Hl Hrun|l t sg m e c' s Hl Hrun|l t sg m acc r c' s Hl Hrun
    |l t sg m r s Hl Ht];
    try (exists a; split; [done|]; first [by apply refines_send|by eapply refines_take
      |by eapply refines_deliver
      |eapply (refines_move _ _ t _ _ sg m); [| |exact Ht|exact HR]; rewrite !elem_of_cons; auto 6]);
    pose proof (stands_of_job _ _ _ _ _ _ _ Hl HR) as Hk; pose proof (rf_world _ _ HR) as Hw; destruct a as [c calls];
    cbn in Hw, Hk; subst c; (eexists; split; [apply rtc_once|eapply refines_advance; [exact Hl|exact HR|]]).
  - by eapply spec_found.
  - eapply stands_found; apply lookup_insert_eq.
  - by eapply spec_unknown.
  - eapply stands_ran; apply lookup_insert_eq.
  - by eapply spec_tx.
  - eapply stands_ran; apply lookup_insert_eq.
Qed.

Lemma refines_other s a c' :
  other (b_c s) c' -> refines s a ->
  exists a', rtc spec_step a a' /\ refines (Bs c' (b_map s) (b_loops s) (b_jobs s) (b_callers s)) a'.
Proof.
  intros Hc [Hw Hs Hn Hwait Honce]. destruct a as [c calls]. cbn in Hw. subst c. exists (Spec c' calls).
  split; [by apply rtc_once, spec_other|]. split; cbn; [done| |done..].
  intros t p Ht. apply (stands_mono s _ (Spec (b_c s) calls)); [|done|by apply Hs]. intros [k|l] j Hj _; cbn; eauto.
Qed.

Lemma refines_start c calls : refines (start c calls) (Spec c (direct_calls calls)).
Proof.
  unfold direct_calls. split; cbn; [done| | |done|done].
  - intros t p. rewrite lookup_fmap. destruct (calls !! t) as [[sg m]|] eqn:E; [|done].
    intros [= <-]. apply (stands_todo _ _ _ _ sg m); [cbn; by rewrite lookup_fmap, E|left].
  - intros t. rewrite !lookup_fmap. by destruct (calls !! t).
Qed.

(** C8: however the goroutines that send transactions, the loops that broadcast them
    and the other users of the client interleave, the world is that of a run in which
    each caller makes at most two calls of the client itself, in this order: the look-up
    of the account of its signer, and the broadcast of its message with that account;
    a caller that is given a result is given the one of these calls.  (Who waits for
    ever, or whose messages of one signer overlap: [racing_calls].) *)
Theorem broadcasts_refine (c : C) (calls : gmap nat (string * Msg)) (s : bs) :
  rtc among (start c calls) s ->
  exists a, rtc spec_step (Spec c (direct_calls calls)) a /\ sp_c a = b_c s /\
    (forall t r, b_callers s !! t = Some (CDone r) -> sp_calls a !! t = Some (KDone r)) /\
    (forall t p, b_callers s !! t = Some p -> stands s a t p).
Proof.
  intros Hsteps.
  assert (exists a, rtc spec_step (Spec c (direct_calls calls)) a /\ refines s a) as (a & Ha & [Hw Hs Hn _ _]).
  { assert (exists a, rtc spec_step (Spec c (direct_calls calls)) a /\ refines (start c calls) a) as Hinit
      by (eexists; split; [done|apply refines_start]).
    revert Hinit. generalize (start c calls), Hsteps. clear Hsteps. intros s0 Hsteps.
    induction Hsteps as [|s0 s1 s2 Hstep _ IH]; [done|]. intros (a & Ha & HR). apply IH.
    assert (exists a', rtc spec_step a a' /\ refines s1 a') as (a' & Ha' & HR')
      by (destruct Hstep; [by eapply refines_step|by eapply refines_other]).
    exists a'. split; [by etrans|done]. }
  exists a. split_and!; [done|done| |done]. intros t r Ht. pose proof (Hs _ _ Ht) as Hst.
  inversion Hst as [q sg m H1 H3| | | |]; subst; [exfalso; clear -H3; set_solver|done].
Qed.
End Others.

(** ** Runs in which the first calls for a signer do not overlap

    [opens p signer]: the goroutine has found no channel for [signer] and has not
    started the loop yet. *)
Definition opens (p : caller) (signer : string) : Prop :=
  match p with CCreate sg _ | CSpawn sg _ => sg = signer | _ => False end.

(** A step in which no goroutine looks for a channel that another one is making. *)
Definition calm (s s' : bs) : Prop :=
  step s s' /\ forall t u p signer msg,
    b_callers s !! t = Some (CCheck signer msg) -> b_callers s' !! t <> Some (CCheck signer msg) ->
    b_callers s !! u = Some p -> ~ opens p signer.

Record served (s : bs) : Prop := {
  sv_map sg1 sg2 k : b_map s !! sg1 = Some k -> b_map s !! sg2 = Some k -> sg1 = sg2;
  sv_loop l1 l2 k : b_loops s !! l1 = Some k -> b_loops s !! l2 = Some k -> l1 = l2;
  sv_reads l k : b_loops s !! l = Some k -> exists sg, b_map s !! sg = Some k /\
    forall t p, b_callers s !! t = Some p -> ~ opens p sg;
  sv_serves sg k : b_map s !! sg = Some k ->
    (exists l, b_loops s !! l = Some k) \/ exists t msg, b_callers s !! t = Some (CSpawn sg msg);
  sv_create t sg msg : b_callers s !! t = Some (CCreate sg msg) -> b_map s !! sg = None;
  sv_mapped t sg msg : b_callers s !! t = Some (CSpawn sg msg) \/ b_callers s !! t = Some (CSend sg msg) ->
    is_Some (b_map s !! sg);
  sv_opener t u p q sg : b_callers s !! t = Some p -> b_callers s !! u = Some q ->
    opens p sg -> opens q sg -> t = u;
  sv_buffer k j : b_jobs s !! inl k = Some j -> b_map s !! j_signer j = Some k;
  sv_taken l j : b_jobs s !! inr l = Some j ->
    exists k, b_loops s !! l = Some k /\ b_map s !! j_signer j = Some k
}.

Lemma served_start c calls : served (start c calls).
Proof.
  assert (forall t p, b_callers (start c calls) !! t = Some p -> exists sg msg, p = CCheck sg msg) as Hc.
  { intros t p. cbn. rewrite lookup_fmap. destruct (calls !! t) as [[sg m]|]; [|done]. intros [= <-]. eauto. }
  split; try done.
  - intros t sg msg [(? & ? & ?)%Hc|(? & ? & ?)%Hc]; done.
  - intros t u p q sg (? & ? & ->)%Hc. done.
Qed.

(** A caller that neither opens a signer before nor after moves: the channels are
    as they were. *)
Lemma served_move s t p0 p jobs :
  served s -> b_callers s !! t = Some p0 ->
  (forall sg, ~ opens p0 sg) -> (forall sg, ~ opens p sg) ->
  (forall sg msg, p = CSend sg msg -> is_Some (b_map s !! sg)) ->
  (forall k j, jobs !! inl k = Some j -> b_map s !! j_signer j = Some k) ->
  (forall l j, jobs !! inr l = Some j ->
     exists k, b_loops s !! l = Some k /\ b_map s !! j_signer j = Some k) ->
  forall c', served (Bs c' (b_map s) (b_loops s) jobs (<[t := p]> (b_callers s))).
Proof.
  intros [H1 H2 H3 H4 H5 H6 H7 H8 H9] Ht Hp0 Hp Hsend Hb Hl c'.
  assert (forall u q sg, <[t := p]> (b_callers s) !! u = Some q -> opens q sg -> b_callers s !! u = Some q) as Hold.
  { intros u q sg [[<- <-]|[_ Hu]]%lookup_insert_Some Hq; [by destruct (Hp sg)|done]. }
  split; cbn; [done|done| | | | | |done|done].
  - intros l k Hk. destruct (H3 l k Hk) as (sg & Hm & Hno). exists sg. split; [done|].
    intros u q Hu Hq. by eapply Hno; [by eapply Hold|].
  - intros sg k Hk. destruct (H4 sg k Hk) as [?|(u & m & Hu)]; [by left|right]. exists u, m.
    rewrite lookup_insert_ne; [done|]. intros ->. destruct (Hp0 sg). rewrite Hu in Ht. by injection Ht as <-.
  - intros u sg m Hu. eapply H5. eapply (Hold _ _ sg); [exact Hu|done].
  - intros u sg m [Hu|[[<- ->]|[_ Hu]]%lookup_insert_Some]; [|by eapply Hsend|eapply H6; eauto].
    eapply H6. left. eapply (Hold _ _ sg); [exact Hu|done].
  - intros u v q q' sg Hu Hv Hq Hq'. eapply H7; [by eapply Hold|by eapply Hold|done|done].
Qed.

(** A step of a loop: the callers and the channels are as they were. *)
Lemma served_jobs s jobs c' :
  served s -> (forall k j, jobs !! inl k = Some j -> b_map s !! j_signer j = Some k) ->
  (forall l j, jobs !! inr l = Some j ->
     exists k, b_loops s !! l = Some k /\ b_map s !! j_signer j = Some k) ->
  served (Bs c' (b_map s) (b_loops s) jobs (b_callers s)).
Proof. intros [H1 H2 H3 H4 H5 H6 H7 H8 H9] Hb Hl. split; cbn; eauto. Qed.

Lemma served_advance s l j j' c' :
  served s -> b_jobs s !! inr l = Some j -> j_signer j' = j_signer j ->
  served (Bs c' (b_map s) (b_loops s) (<[inr l := j']> (b_jobs s)) (b_callers s)).
Proof.
  intros HS Hl E. pose proof HS as [_ _ _ _ _ _ _ H8 H9]. apply served_jobs; [done| |].
  - intros k' j1 [[[=] _]|[_ Hj]]%lookup_insert_Some. by apply H8.
  - intros l' j1 [[[= <-] <-]|[_ Hj]]%lookup_insert_Some; [rewrite E; exact (H9 _ _ Hl)|by apply H9].
Qed.

Lemma served_missing s t sg msg :
  served s -> b_callers s !! t = Some (CCheck sg msg) -> b_map s !! sg = None ->
  (forall u p, b_callers s !! u = Some p -> ~ opens p sg) ->
  served (set_caller t (CCreate sg msg) s).
Proof.
  intros [H1 H2 H3 H4 H5 H6 H7 H8 H9] Ht Hm Hno. split; cbn; [done|done| | | | | |done|done].
  - intros l k Hk. destruct (H3 l k Hk) as (sg' & Hm' & Hno'). exists sg'. split; [done|].
    intros u p [[<- <-]|[_ Hu]]%lookup_insert_Some; [|by eapply Hno']. cbn. congruence.
  - intros sg' k Hk. destruct (H4 sg' k Hk) as [?|(u & m & Hu)]; [by left|right]. exists u, m.
    rewrite lookup_insert_ne; [done|]. congruence.
  - intros u sg' m [[<- [= <- <-]]|[_ Hu]]%lookup_insert_Some; [done|by eapply H5].
  - intros u sg' m [[[<- [=]]|[_ Hu]]%lookup_insert_Some|[[<- [=]]|[_ Hu]]%lookup_insert_Some]; eapply H6; eauto.
  - intros u v p q sg' [[<- <-]|[_ Hu]]%lookup_insert_Some [[<- <-]|[_ Hv]]%lookup_insert_Some Hp Hq; [done| | |by eapply H7].
    + cbn in Hp. subst sg'. by destruct (Hno _ _ Hv).
    + cbn in Hq. subst sg'. by destruct (Hno _ _ Hu).
Qed.

Lemma served_create s t sg msg k :
  served s -> b_callers s !! t = Some (CCreate sg msg) ->
  (forall sg', b_map s !! sg' <> Some k) -> (forall l, b_loops s !! l <> Some k) ->
  served (Bs (b_c s) (<[sg := k]> (b_map s)) (b_loops s) (b_jobs s) (<[t := CSpawn sg msg]> (b_callers s))).
Proof.
  intros [H1 H2 H3 H4 H5 H6 H7 H8 H9] Ht Hfresh Hfl. pose proof (H5 _ _ _ Ht) as Hnone.
  assert (forall sg' k', b_map s !! sg' = Some k' -> <[sg := k]> (b_map s) !! sg' = Some k') as Hmono.
  { intros sg' k' Hk. rewrite lookup_insert_ne; [done|]. congruence. }
  split; cbn.
  - intros sg1 sg2 k' [[<- <-]|[_ E1]]%lookup_insert_Some [[<- E2]|[_ E2]]%lookup_insert_Some; try done.
    + by destruct (Hfresh sg2).
    + subst. by destruct (Hfresh sg1).
    + by eapply H1.
  - done.
  - intros l k' Hk. destruct (H3 l k' Hk) as (sg' & Hm & Hno). exists sg'. split; [by apply Hmono|].
    intros u p [[<- <-]|[_ Hu]]%lookup_insert_Some; [|by eapply Hno]. cbn. congruence.
  - intros sg' k' [[<- <-]|[_ E]]%lookup_insert_Some.
    + right. exists t, msg. apply lookup_insert_eq.
    + destruct (H4 _ _ E) as [?|(u & m & Hu)]; [by left|right]. exists u, m.
      rewrite lookup_insert_ne; [done|]. congruence.
  - intros u sg' m [[<- [=]]|[Hne Hu]]%lookup_insert_Some. rewrite lookup_insert_ne; [by eapply H5|].
    intros <-. destruct Hne. by eapply (H7 t u _ _ sg Ht Hu).
  - assert (forall sg', is_Some (b_map s !! sg') -> is_Some (<[sg := k]> (b_map s) !! sg')) as His.
    { intros sg' [k' Hk]. exists k'. by apply Hmono. }
    intros u sg' m [[[<- [= <- <-]]|[_ Hu]]%lookup_insert_Some|[[<- [=]]|[_ Hu]]%lookup_insert_Some].
    + rewrite lookup_insert_eq. eauto.
    + apply His. eapply H6. eauto.
    + apply His. eapply H6. eauto.
  - intros u v p q sg' [[<- <-]|[_ Hu]]%lookup_insert_Some [[<- <-]|[_ Hv]]%lookup_insert_Some Hp Hq; [done| | |by eapply H7].
    + by eapply (H7 t v _ _ sg' Ht Hv).
    + by eapply (H7 u t _ _ sg' Hu Ht).
  - intros k' j Hj. by apply Hmono, H8.
  - intros l j Hj. destruct (H9 l j Hj) as (k' & Hk & Hm). exists k'. split; [done|by apply Hmono].
Qed.

Lemma served_spawn s t sg msg k l :
  served s -> b_callers s !! t = Some (CSpawn sg msg) -> b_map s !! sg = Some k ->
  b_loops s !! l = None ->
  served (Bs (b_c s) (b_map s) (<[l := k]> (b_loops s)) (b_jobs s) (<[t := CSend sg msg]> (b_callers s))).
Proof.
  intros [H1 H2 H3 H4 H5 H6 H7 H8 H9] Ht Hm Hl.
  assert (forall u q sg', <[t := CSend sg msg]> (b_callers s) !! u = Some q -> opens q sg' ->
            u <> t /\ b_callers s !! u = Some q) as Hold.
  { intros u q sg' [[<- <-]|[Hne Hu]]%lookup_insert_Some Hq; [done|auto]. }
  assert (forall l', b_loops s !! l' <> Some k) as Hnew.
  { intros l' Hl'. destruct (H3 _ _ Hl') as (sg' & Hm' & Hno). assert (sg' = sg) as -> by by eapply H1.
    by eapply (Hno _ _ Ht). }
  split; cbn; [done| | | | | | |done|].
  - intros l1 l2 k' [[<- <-]|[_ E1]]%lookup_insert_Some [[<- E2]|[_ E2]]%lookup_insert_Some; try done.
    + by destruct (Hnew l2).
    + subst. by destruct (Hnew l1).
    + by eapply H2.
  - intros l' k' [[<- <-]|[_ E]]%lookup_insert_Some.
    + exists sg. split; [done|]. intros u q Hu Hq. destruct (Hold _ _ _ Hu Hq) as [Hne Hu'].
      destruct Hne. by eapply (H7 u t _ _ sg Hu' Ht).
    + destruct (H3 _ _ E) as (sg' & Hm' & Hno). exists sg'. split; [done|].
      intros u q Hu Hq. destruct (Hold _ _ _ Hu Hq) as [_ Hu']. by eapply Hno.
  - intros sg' k' Hk. destruct (H4 _ _ Hk) as [[l' Hl']|(u & m & Hu)].
    + left. exists l'. rewrite lookup_insert_ne; [done|]. congruence.
    + destruct (decide (u = t)) as [->|Hne].
      * left. exists l. rewrite lookup_insert_eq. congruence.
      * right. exists u, m. by rewrite lookup_insert_ne.
  - intros u sg' m Hu. destruct (Hold _ _ sg' Hu eq_refl) as [_ Hu']. by eapply H5.
  - intros u sg' m [Hu|[[<- [= <- <-]]|[_ Hu]]%lookup_insert_Some]; [|eauto|eapply H6; eauto].
    destruct (Hold _ _ sg' Hu eq_refl) as [_ Hu']. eapply H6. eauto.
  - intros u v p q sg' Hu Hv Hp Hq. destruct (Hold _ _ _ Hu Hp) as [_ Hu'], (Hold _ _ _ Hv Hq) as [_ Hv'].
    by eapply H7.
  - intros l' j Hj. destruct (H9 _ _ Hj) as (k' & Hk & Hm'). exists k'. split; [|done].
    rewrite lookup_insert_ne; [done|]. congruence.
Qed.

Lemma served_step s s' : calm s s' -> served s -> served s'.
Proof.
  intros [Hstep Hcalm] HS. pose proof HS as [H1 H2 H3 H4 H5 H6 H7 H8 H9].
  destruct Hstep as [t sg m k s Ht Hm|t sg m s Ht Hm|t sg m k s Ht Hf Hfl Hk|t sg m k l s Ht Hm Hl Hjl
    |t sg m k s Ht Hm Hk|l k j s Hl Hn Hk|l t sg m acc c' s Hl Hrun|l t sg m e c' s Hl Hrun|l t sg m acc r c' s Hl Hrun
    |l t sg m r s Hl Ht]; try (eapply served_advance; [done|exact Hl|done]).
  - eapply (served_move _ t _ _ _ HS Ht); [by intros ? []|by intros ? []| |done|done].
    intros ? ? [= -> ->]. eauto.
  - apply served_missing; [done..|]. intros u p Hu. eapply (Hcalm t u p sg m); [done| |done].
    cbn. rewrite lookup_insert_eq. congruence.
  - by apply served_create.
  - by eapply served_spawn.
  - eapply (served_move _ t _ _ _ HS Ht); [by intros ? []|by intros ? []|done| |].
    + intros k' j [[[= <-] <-]|[_ Hj]]%lookup_insert_Some; [done|by apply H8].
    + intros l j [[[=] _]|[_ Hj]]%lookup_insert_Some. by apply H9.
  - apply served_jobs; [done| |].
    + intros k' j' [[[=] _]|[_ [_ Hj]%lookup_delete_Some]]%lookup_insert_Some. by apply H8.
    + intros l' j' [[[= <-] <-]|[_ [_ Hj]%lookup_delete_Some]]%lookup_insert_Some; [eauto|by apply H9].
  - eapply (served_move _ t _ _ _ HS Ht); [by intros ? []|by intros ? []|done| |].
    + intros k' j' [_ Hj]%lookup_delete_Some. by apply H8.
    + intros l' j' [_ Hj]%lookup_delete_Some. by apply H9.
Qed.

Lemma calm_served c calls s : rtc calm (start c calls) s -> served s.
Proof.
  intros Hsteps. pose proof (served_start c calls) as HS.
  induction Hsteps as [|s0 s1 s2 Hstep _ IH]; [done|]. apply IH. by eapply served_step.
Qed.

(** When the first calls for a signer do not overlap, two loops never broadcast
    messages of one signer at the same time: the loop that has taken a job of a
    signer is the only one, until it has delivered the result. *)
Theorem calm_serial (c : C) (calls : gmap nat (string * Msg)) (s : bs) l1 l2 j1 j2 :
  rtc calm (start c calls) s ->
  b_jobs s !! inr l1 = Some j1 -> b_jobs s !! inr l2 = Some j2 -> j_signer j1 = j_signer j2 -> l1 = l2.
Proof.
  intros [_ Hloop _ _ _ _ _ _ Htaken]%calm_served Hj1 Hj2 E.
  destruct (Htaken _ _ Hj1) as (k1 & Hl1 & Hm1), (Htaken _ _ Hj2) as (k2 & Hl2 & Hm2).
  eapply Hloop; [exact Hl1|]. congruence.
Qed.

(** *** Every result arrives *)

(** A sum over the entries of a map. *)
Definition total {K A} `{Countable K} (w : K -> A -> nat) (m : gmap K A) : nat :=
  map_fold (fun i x n => (w i x + n)%nat) 0%nat m.

Lemma total_insert {K A} `{Countable K} (w : K -> A -> nat) m i x :
  m !! i = None -> total w (<[i := x]> m) = (w i x + total w m)%nat.
Proof. intros Hi. unfold total. rewrite map_fold_insert_L; [done| |done]. intros; lia. Qed.

Lemma total_delete {K A} `{Countable K} (w : K -> A -> nat) m i x :
  m !! i = Some x -> total w m = (w i x + total w (delete i m))%nat.
Proof. intros Hi. by rewrite <-total_insert, insert_delete_id by apply lookup_delete_eq || done. Qed.

Lemma total_update {K A} `{Countable K} (w : K -> A -> nat) m i x y :
  m !! i = Some x -> (total w (<[i := y]> m) + w i x = total w m + w i y)%nat.
Proof.
  intros Hi. rewrite (total_delete w m i x Hi), <-insert_delete_eq, total_insert by apply lookup_delete_eq.
  lia.
Qed.

Definition caller_work (_ : nat) (p : caller) : nat :=
  match p with CCheck _ _ => 8 | CCreate _ _ => 7 | CSpawn _ _ => 6 | CSend _ _ => 5
             | CWait _ _ | CDone _ => 0 end.
Definition job_work (at_ : nat + nat) (j : job) : nat :=
  match at_, j_stage j with inl _, _ => 4 | inr _, SNew => 3 | inr _, SFound _ => 2 | inr _, SResult _ => 1 end.
(** The steps that are left, at most. *)
Definition work (s : bs) : nat := (total caller_work (b_callers s) + total job_work (b_jobs s))%nat.

Lemma step_work s s' : step s s' -> (work s' < work s)%nat.
Proof.
  unfold work. intros Hstep.
  destruct Hstep as [t sg m k s Ht Hm|t sg m s Ht Hm|t sg m k s Ht Hf Hfl Hk|t sg m k l s Ht Hm Hl Hjl
    |t sg m k s Ht Hm Hk|l k j s Hl Hn Hk|l t sg m acc c' s Hl Hrun|l t sg m e c' s Hl Hrun|l t sg m acc r c' s Hl Hrun
    |l t sg m r s Hl Ht]; cbn;
    try (pose proof (total_update caller_work _ _ _ (CSend sg m) Ht));
    try (pose proof (total_update caller_work _ _ _ (CCreate sg m) Ht));
    try (pose proof (total_update caller_work _ _ _ (CSpawn sg m) Ht)); cbn [caller_work] in *; try lia.
  - pose proof (total_update caller_work _ _ _ (CWait sg m) Ht). cbn [caller_work] in *.
    rewrite (total_insert _ (b_jobs s)) by exact Hk. cbn. lia.
  - rewrite total_insert by (rewrite lookup_delete_ne; done). rewrite (total_delete _ _ _ _ Hk).
    cbn. destruct (j_stage j); lia.
  - pose proof (total_update job_work _ _ _ (MkJob t sg m (SFound acc)) Hl). cbn in *. lia.
  - pose proof (total_update job_work _ _ _ (MkJob t sg m (SResult (inr e))) Hl). cbn in *. lia.
  - pose proof (total_update job_work _ _ _ (MkJob t sg m (SResult r)) Hl). cbn in *. lia.
  - pose proof (total_update caller_work _ _ _ (CDone r) Ht). rewrite (total_delete _ _ _ _ Hl).
    cbn in *. lia.
Qed.

(** A step that leaves the goroutines that look for a channel alone. *)
Lemma calm_quiet s s' :
  step s s' ->
  (forall t sg msg, b_callers s !! t = Some (CCheck sg msg) -> b_callers s' !! t = Some (CCheck sg msg)) ->
  calm s s'.
Proof. intros Hstep Hq. split; [done|]. intros t u p sg msg Ht Hn _ _. by apply Hn, Hq. Qed.

Lemma calm_caller s t p p' c' m' l' j' :
  b_callers s !! t = Some p -> (forall sg msg, p <> CCheck sg msg) ->
  step s (Bs c' m' l' j' (<[t := p']> (b_callers s))) ->
  calm s (Bs c' m' l' j' (<[t := p']> (b_callers s))).
Proof.
  intros Ht Hp Hstep. apply calm_quiet; [done|]. intros u sg msg Hu. cbn.
  rewrite lookup_insert_ne; [done|]. intros ->. rewrite Ht in Hu. injection Hu as ->. by destruct (Hp sg msg).
Qed.

Lemma attempt_returns {A} (m : GoM C A) c : safe m -> exists r c', attempt m c = (Ret r, c').
Proof. intros Hm. destruct (safe_attempt_ret _ c Hm) as (r & c' & E & _). eauto. Qed.
Lemma find_account_safe signer : safe (find_account signer).
Proof. unfold find_account, wrapping. go_safe. Qed.
Lemma send_tx_safe acc msg : safe (send_tx acc msg).
Proof. unfold send_tx, wrapping. go_safe. Qed.

Lemma create_progress s t sg msg :
  served s -> b_callers s !! t = Some (CCreate sg msg) -> exists s', calm s s'.
Proof.
  intros HS Ht.
  set (X := list_to_set ((map_to_list (b_map s)).*2 ++ (map_to_list (b_loops s)).*2) : gset nat).
  pose proof (is_fresh X) as Hk. set (k := fresh X) in *. unfold X in Hk.
  rewrite elem_of_list_to_set, elem_of_app, !list_elem_of_fmap in Hk.
  assert (forall sg', b_map s !! sg' <> Some k) as Hm.
  { intros sg' E. destruct Hk. left. exists (sg', k). split; [done|]. by apply elem_of_map_to_list. }
  eexists. eapply (calm_caller _ t); [exact Ht|done|]. apply (step_create t sg msg k); [done|done| |].
  - intros l E. destruct Hk. right. exists (l, k). split; [done|]. by apply elem_of_map_to_list.
  - destruct (b_jobs s !! inl k) as [j|] eqn:E; [|done]. by destruct (Hm _ (sv_buffer _ HS _ _ E)).
Qed.

Lemma spawn_progress s t sg msg :
  served s -> b_callers s !! t = Some (CSpawn sg msg) -> exists s', calm s s'.
Proof.
  intros HS Ht. destruct (sv_mapped _ HS t sg msg (or_introl Ht)) as [k Hm].
  pose proof (is_fresh (dom (b_loops s))) as Hl. set (l := fresh (dom (b_loops s))) in *.
  apply not_elem_of_dom in Hl.
  eexists. eapply (calm_caller _ t); [exact Ht|done|]. apply (step_spawn t sg msg k l); [done..|].
  destruct (b_jobs s !! inr l) as [j|] eqn:E; [|done].
  destruct (sv_taken _ HS _ _ E) as (k' & Hk' & _). congruence.
Qed.

Lemma opener_progress s t p sg :
  served s -> b_callers s !! t = Some p -> opens p sg -> exists s', calm s s'.
Proof.
  intros HS Ht Hp. destruct p; try done; [by eapply create_progress|by eapply spawn_progress].
Qed.

(** A loop can go on with a job that has no result. *)
Lemma job_advances s l t sg msg st :
  b_jobs s !! inr l = Some (MkJob t sg msg st) -> (forall r, st <> SResult r) ->
  exists c' st', step s (Bs c' (b_map s) (b_loops s) (<[inr l := MkJob t sg msg st']> (b_jobs s)) (b_callers s)).
Proof.
  intros Hl Hst. destruct st as [|acc|r]; [| |by destruct (Hst r)].
  - destruct (attempt_returns (find_account sg) (b_c s) (find_account_safe sg)) as ([acc|e] & c' & E);
      eexists c', _; [by eapply step_found|by eapply step_unknown].
  - destruct (attempt_returns (send_tx acc msg) (b_c s) (send_tx_safe acc msg)) as (r & c' & E).
    eexists c', _. by eapply step_tx.
Qed.

Lemma loop_progress s a l j :
  refines s a -> b_jobs s !! inr l = Some j -> exists s', calm s s'.
Proof.
  intros HR Hj. pose proof (rf_waits _ _ HR _ _ Hj) as Ht. destruct j as [t sg msg st]; cbn in Ht.
  destruct st as [|acc|r].
  3: { eexists. eapply (calm_caller _ t); [exact Ht|done|]. by eapply step_deliver. }
  all: destruct (job_advances _ _ _ _ _ _ Hj) as (c' & st' & Hstep); [done|]; eexists; by eapply calm_quiet.
Qed.

Lemma channel_progress s a k j :
  refines s a -> served s -> b_jobs s !! inl k = Some j -> exists s', calm s s'.
Proof.
  intros HR HS Hj. destruct (sv_serves _ HS _ _ (sv_buffer _ HS _ _ Hj)) as [[l Hl]|(t & msg & Ht)].
  - destruct (b_jobs s !! inr l) as [j'|] eqn:E; [by eapply loop_progress|].
    eexists. eapply calm_quiet; [by eapply step_take|done].
  - by eapply spawn_progress.
Qed.

Lemma calm_progress s a t p :
  refines s a -> served s -> b_callers s !! t = Some p -> (forall r, p <> CDone r) -> exists s', calm s s'.
Proof.
  intros HR HS Ht Hp. destruct p as [sg msg|sg msg|sg msg|sg msg|sg msg|r]; [| | | | |by destruct (Hp r)].
  - assert (forall q, Decision (opens q sg)) as Hdec by (intros []; cbn; apply _).
    destruct (decide (map_Exists (fun _ q => opens q sg) (b_callers s))) as [(u & q & Hu & Hq)|Hno].
    { by eapply opener_progress. }
    assert (forall s', step s s' -> (forall u m sg', b_callers s !! u = Some (CCheck sg' m) -> u = t \/
              b_callers s' !! u = Some (CCheck sg' m)) -> calm s s') as Hcalm.
    { intros s' Hstep Hq. split; [done|]. intros v u q sg' m Hv Hn Hu Hopen.
      destruct (Hq _ _ _ Hv) as [->|]; [|done]. rewrite Ht in Hv. injection Hv as <- <-. apply Hno.
      by exists u, q. }
    assert (forall q u m sg', b_callers s !! u = Some (CCheck sg' m) -> u = t \/
              b_callers (set_caller t q s) !! u = Some (CCheck sg' m)) as Hset.
    { intros q u m sg' Hu. destruct (decide (u = t)); [by left|right]. cbn. by rewrite lookup_insert_ne. }
    destruct (b_map s !! sg) as [k|] eqn:Hm.
    + eexists. apply Hcalm; [by eapply step_exists|apply Hset].
    + eexists. apply Hcalm; [by eapply step_missing|apply Hset].
  - by eapply create_progress.
  - by eapply spawn_progress.
  - destruct (sv_mapped _ HS t sg msg (or_intror Ht)) as [k Hm].
    destruct (b_jobs s !! inl k) as [j|] eqn:Hk; [by eapply channel_progress|].
    eexists. eapply (calm_caller _ t); [exact Ht|done|]. by eapply step_send.
  - assert (exists at_ j, b_jobs s !! at_ = Some j) as ([k|l] & j & Hj);
      [|by eapply channel_progress|by eapply loop_progress].
    pose proof (rf_stands _ _ HR _ _ Ht) as Hst.
    inversion Hst as [q sg' m H1 H3| | | |]; subst; [exfalso; clear -H3; set_solver|eauto..].
Qed.

Lemma calm_refines c calls s : rtc calm (start c calls) s -> exists a, refines s a.
Proof.
  intros Hsteps. pose proof (ex_intro _ _ (refines_start c calls)) as HR.
  induction Hsteps as [|s0 s1 s2 [Hstep _] _ IH]; [done|]. apply IH. destruct HR as [a HR].
  destruct (refines_step (fun _ _ => False) _ _ _ Hstep HR) as (a' & _ & HR'). eauto.
Qed.

Lemma step_callers s s' t : step s s' -> is_Some (b_callers s !! t) -> is_Some (b_callers s' !! t).
Proof. intros [] [p Hp]; cbn; rewrite ?lookup_insert_is_Some'; eauto. Qed.

(** When the first calls for a signer do not overlap, the goroutines and the
    loops take at most eight steps for a call, and when none can go on every call
    has its result: no job is lost and nobody waits for ever. *)
Theorem calm_delivers (c : C) (calls : gmap nat (string * Msg)) (s : bs) n :
  nsteps calm n (start c calls) s ->
  (n <= 8 * size calls)%nat /\
  ((forall s', ~ calm s s') -> forall t, is_Some (calls !! t) -> exists r, b_callers s !! t = Some (CDone r)).
Proof.
  intros Hn. split.
  - assert (forall m s0 s1, nsteps calm m s0 s1 -> (m + work s1 <= work s0)%nat) as Hwork.
    { intros m s0 s1 Hm. induction Hm as [|m s0 s1 s2 [Hstep _] _ IH]; [lia|]. apply step_work in Hstep. lia. }
    apply Hwork in Hn. enough (work (start c calls) = (8 * size calls)%nat) by lia.
    unfold work, start. cbn [b_callers b_jobs]. unfold total at 2. rewrite map_fold_empty, Nat.add_0_r.
    clear. induction calls as [|t call calls Ht IH] using map_ind.
    + by rewrite fmap_empty, map_size_empty.
    + rewrite fmap_insert, total_insert, map_size_insert_None, IH by (rewrite ?lookup_fmap, ?Ht; done).
      cbn [caller_work]. lia.
  - intros Hstuck t Ht. pose proof (rtc_nsteps_2 _ _ _ Hn) as Hrun.
    assert (is_Some (b_callers s !! t)) as [p Hp].
    { clear Hstuck. assert (is_Some (b_callers (start c calls) !! t)) as Hs0.
      { cbn. rewrite lookup_fmap. by apply fmap_is_Some. }
      clear -Hrun Hs0. induction Hrun as [|s0 s1 s2 [Hstep _] _ IH]; [done|]. apply IH.
      by eapply step_callers. }
    destruct (calm_refines _ _ _ Hrun) as [a HR]. pose proof (calm_served _ _ _ Hrun) as HS.
    destruct p as [sg m|sg m|sg m|sg m|sg m|r] eqn:E; [| | | | |by exists r];
      (exfalso; destruct (calm_progress s a t p HR HS) as [s' Hs']; [by subst|by subst|by destruct (Hstuck s')]).
Qed.

(** ** Runs in which they overlap

    Three first calls for one signer: both [0] and [1] find no channel; [2] puts
    its job into the channel of [0], which [1] then replaces, so that both loops
    read the channel of [1]. *)
Definition three_calls (signer : string) (m : Msg) : gmap nat (string * Msg) :=
  <[0%nat := (signer, m)]> (<[1%nat := (signer, m)]> (<[2%nat := (signer, m)]> ∅)).

(** The state after both loops were started, on the channel of [1]. *)
Definition both_started (c : C) (sg : string) (m : Msg) : bs :=
  Bs c {[sg := 1%nat]} (<[0%nat := 1%nat]> {[1%nat := 1%nat]})
    {[inl 0%nat := MkJob 2 sg m SNew]}
    (<[0%nat := CSend sg m]> (<[1%nat := CSend sg m]> {[2%nat := CWait sg m]})).

Ltac go_step lem := eapply rtc_l; [eapply lem; cbn; (by simplify_map_eq) || idtac|cbn].

Lemma both_started_reachable c sg m : rtc step (start c (three_calls sg m)) (both_started c sg m).
Proof.
  go_step (step_missing 0%nat sg m).
  go_step (step_missing 1%nat sg m).
  go_step (step_create 0%nat sg m 0%nat).
  go_step (step_exists 2%nat sg m 0%nat).
  go_step (step_send 2%nat sg m 0%nat).
  go_step (step_create 1%nat sg m 1%nat).
  { intros sg'. destruct (decide (sg' = sg)) as [->|]; by simplify_map_eq. }
  go_step (step_spawn 0%nat sg m 1%nat 0%nat).
  go_step (step_spawn 1%nat sg m 1%nat 1%nat).
  unfold both_started. rewrite insert_insert_eq. reflexivity.
Qed.

(** Each loop takes a job; the one of [2] stays where it is. *)
Definition both_busy (c : C) (sg : string) (m : Msg) : bs :=
  Bs c {[sg := 1%nat]} (<[0%nat := 1%nat]> {[1%nat := 1%nat]})
    (<[inl 0%nat := MkJob 2 sg m SNew]> (<[inr 0%nat := MkJob 0 sg m SNew]>
       {[inr 1%nat := MkJob 1 sg m SNew]}))
    (<[0%nat := CWait sg m]> (<[1%nat := CWait sg m]> {[2%nat := CWait sg m]})).

Lemma both_busy_reachable c sg m : rtc step (both_started c sg m) (both_busy c sg m).
Proof.
  unfold both_started, both_busy.
  go_step (step_send 0%nat sg m 1%nat).
  go_step (step_take 0%nat 1%nat).
  go_step (step_send 1%nat sg m 1%nat).
  go_step (step_take 1%nat 1%nat).
  reflexivity.
Qed.

(** All that can be done is done. *)
Definition one_left (c : C) (sg : string) (m : Msg) (r0 r1 : Response + error) : bs :=
  Bs c {[sg := 1%nat]} (<[0%nat := 1%nat]> {[1%nat := 1%nat]})
    {[inl 0%nat := MkJob 2 sg m SNew]}
    (<[0%nat := CDone r0]> (<[1%nat := CDone r1]> {[2%nat := CWait sg m]})).

(** A loop runs its job to the end. *)
Lemma job_ends s l t sg msg :
  b_jobs s !! inr l = Some (MkJob t sg msg SNew) ->
  exists c' r, rtc step s (Bs c' (b_map s) (b_loops s) (<[inr l := MkJob t sg msg (SResult r)]> (b_jobs s)) (b_callers s)).
Proof.
  intros Hl. destruct (attempt_returns (find_account sg) (b_c s) (find_account_safe sg)) as ([acc|e] & c1 & E1).
  - destruct (attempt_returns (send_tx acc msg) c1 (send_tx_safe acc msg)) as (r & c2 & E2). exists c2, r.
    eapply rtc_l; [by eapply step_found|]. apply rtc_once.
    refine (eq_rect _ (step _) (step_tx l t sg msg acc r c2 _ _ _) _ _); cbn; [apply lookup_insert_eq|exact E2|].
    by rewrite insert_insert_eq.
  - exists c1, (inr e). apply rtc_once. by eapply step_unknown.
Qed.

Lemma one_left_reachable c sg m : exists c' r0 r1, rtc step (both_busy c sg m) (one_left c' sg m r0 r1).
Proof.
  destruct (job_ends (both_busy c sg m) 0 0 sg m) as (c0 & r0 & Hrun0); [done|].
  match type of Hrun0 with rtc _ _ ?s1 => destruct (job_ends s1 1 1 sg m) as (c1 & r1 & Hrun1); [done|] end.
  exists c1, r0, r1. etrans; [exact Hrun0|]. etrans; [exact Hrun1|]. clear. unfold both_busy, one_left. cbn.
  go_step (step_deliver 0%nat 0%nat sg m r0).
  go_step (step_deliver 1%nat 1%nat sg m r1).
  reflexivity.
Qed.

Lemma one_left_stuck c sg m r0 r1 s' : ~ step (one_left c sg m r0 r1) s'.
Proof.
  intros Hstep. inversion Hstep; subst; cbn in *; simplify_map_eq;
    repeat match goal with
      | H : <[_ := _]> _ !! _ = Some _ |- _ => apply lookup_insert_Some in H as [[<- H]|[_ H]]; simplify_eq
      | H : {[_ := _]} !! _ = Some _ |- _ => apply lookup_singleton_Some in H as [<- H]; simplify_eq
      end.
Qed.

(** When first calls for a signer overlap, two loops can broadcast messages of
    the signer at the same time, and a job can be left in a channel that no loop
    reads: its caller waits for ever. *)
Theorem racing_calls (c : C) (sg : string) (m : Msg) :
  (exists s j0 j1, rtc step (start c (three_calls sg m)) s /\
     b_jobs s !! inr 0%nat = Some j0 /\ b_jobs s !! inr 1%nat = Some j1 /\ j_signer j0 = j_signer j1) /\
  (exists s, rtc step (start c (three_calls sg m)) s /\
     b_callers s !! 2%nat = Some (CWait sg m) /\ forall s', ~ step s s').
Proof.
  pose proof (both_started_reachable c sg m) as H1. pose proof (both_busy_reachable c sg m) as H2.
  destruct (one_left_reachable c sg m) as (c' & r0 & r1 & H3). split.
  - exists (both_busy c sg m), (MkJob 0 sg m SNew), (MkJob 1 sg m SNew). split; [by etrans|done].
  - exists (one_left c' sg m r0 r1). split; [by do 2 (etrans; [done|])|]. split; [done|].
    apply one_left_stuck.
Qed.
End Broadcast.
