(* ===== verification/Gateway.v ===== *)
(** * The gateway service ([node/gateway/gateway_service.go])

    A gateway takes the orders of clients: it stages the content of an order and
    sends the transaction that creates it ([CommitModel]), assigns its shards to
    storage nodes ([process], driven by the work queue), hands the staged content
    to them ([HandleShardStore]), records their completions
    ([HandleShardComplete]), puts an order whose shards time out back to work
    ([checkTimeout]) and fetches stored contents for clients ([FetchContent]).

    The state [gw] has the world outside (chain, peers, backends, files, clock),
    the datastore, the work queue, [timeoutMap], [completeMap], and the data ids
    sent on [completeResultChan] that [completeLoop] has still to take.  A handler
    is a computation on it; [process] runs on [order_proc], the service and the
    order it works on, which the code mutates through a pointer.

    A shard of an order is a struct in a map: [orderInfo.Shards[k]] and
    [range orderInfo.Shards] give copies, and an assignment to a field of a copy
    leaves the map alone.  The copies are modelled as values that are dropped. *)
From stdpp Require Import base list gmap strings.
From Stdlib Require Import ZArith Lia Ascii.
From S2P Require Import Prelude Types StateUtils Cbor CborTypes Queue StoreManager ChainApi Stage.

Definition MAX_RETRIES : Z := 3.

Record CommitResult := MkCommitResult {
  cr_OrderId : Z;
  cr_DataId : string;
  cr_Commit : string;
  cr_Commits : list string;
  cr_Cid : string;
  cr_Height : Z;
  cr_Shards : gmap string ShardMeta
}.

Record FetchResult := MkFetchResult { fr_Cid : string; fr_Content : bytes }.

(** The order in which [range] visits a map with integer keys. *)
Class GoRangeId := { range_id : forall {A}, gmap Z A -> list (Z * A) }.
Class GoRangeIdLaws `{!GoRangeId} := {
  range_id_perm {A} (m : gmap Z A) : range_id m ≡ₚ map_to_list m
}.

Definition OrderShardInfo_zero : OrderShardInfo := MkOrderShardInfo 0 "" "" "" "" "".
Definition os_set_State (st : string) (s : OrderShardInfo) : OrderShardInfo :=
  MkOrderShardInfo (os_ShardId s) (os_Peer s) (os_Cid s) (os_Provider s) st (os_CompleteHash s).
Definition os_set_CompleteHash (h : string) (s : OrderShardInfo) : OrderShardInfo :=
  MkOrderShardInfo (os_ShardId s) (os_Peer s) (os_Cid s) (os_Provider s) (os_State s) h.

(** The transaction that created the order, and the shards it was given. *)
Definition oi_set_Tx (hash : string) (height : Z) (txType : string) (o : OrderInfo) : OrderInfo :=
  MkOrderInfo (oi_DataId o) (oi_Owner o) (oi_Cid o) (oi_StagePath o) (oi_OrderId o)
    hash txType height (oi_Shards o)
    (oi_ExpireHeight o) (oi_State o) (oi_Tries o) (oi_RetryAt o) (oi_LastErr o).

Definition order_request (o : OrderInfo) : WorkRequest := MkWorkRequest o ShardInfo_zero None.

Section Gateway.
Context `{!CborLib, !CborLaws, !CidLib, !ErrorText, !FmtLib} {D W B : Type}.
Context `{!Datastore D, !StoreBackend W B, !ChainConsts, !ChainSvcApi W, !GatewayChain W,
          !TxLib, !CompleteTx, !ProposalLib, !GatewayProtocol W, !FileSys W, !Clock W,
          !GoRange, !GoRangeId}.
(** The fields of [GatewaySvc] that do not change, and the configuration. *)
Context (nodeAddress localPeerId stagingPath serverPath keyringHome : string)
        (storeManager : StoreManager B) (ContentLimit : Z) (SaoIpfs_Enable : bool).

Record gw := Gw {
  gw_w : W;
  gw_ds : D;
  gw_queue : RequestQueue;
  gw_timeout : gmap Z (list OrderInfo);
  gw_complete : gmap string Z;
  gw_done : list string
}.

Definition on_w {A} (m : GoM W A) : GoM gw A :=
  zoom gw_w (fun w s => Gw w (gw_ds s) (gw_queue s) (gw_timeout s) (gw_complete s) (gw_done s)) m.
Definition on_ds {A} (m : GoM D A) : GoM gw A :=
  zoom gw_ds (fun d s => Gw (gw_w s) d (gw_queue s) (gw_timeout s) (gw_complete s) (gw_done s)) m.
Definition on_queue {A} (m : GoM RequestQueue A) : GoM gw A :=
  zoom gw_queue (fun q s => Gw (gw_w s) (gw_ds s) q (gw_timeout s) (gw_complete s) (gw_done s)) m.
Definition on_timeout (f : gmap Z (list OrderInfo) -> gmap Z (list OrderInfo)) : GoM gw unit :=
  modify (fun s =>
    Gw (gw_w s) (gw_ds s) (gw_queue s) (f (gw_timeout s)) (gw_complete s) (gw_done s)).
Definition on_complete (f : gmap string Z -> gmap string Z) : GoM gw unit :=
  modify (fun s =>
    Gw (gw_w s) (gw_ds s) (gw_queue s) (gw_timeout s) (f (gw_complete s)) (gw_done s)).
(** [gs.completeResultChan <- dataId] *)
Definition send_done (dataId : string) : GoM gw unit :=
  modify (fun s => Gw (gw_w s) (gw_ds s) (gw_queue s) (gw_timeout s) (gw_complete s)
                     (gw_done s ++ [dataId])).

(** [gs.timeoutMap[h] = append(gs.timeoutMap[h], orderInfo)] *)
Definition add_timeout (h : Z) (o : OrderInfo) (m : gmap Z (list OrderInfo)) :
    gmap Z (list OrderInfo) :=
  <[h := default [] (m !! h) ++ [o]]> m.

(** The protocol for a node: the local one for the gateway itself. *)
Definition protocol_of (node : string) : proto :=
  if String.eqb node nodeAddress then Local else Stream.

(** ** Completions *)
Definition allShardsCompleted (order : FullOrder) : bool :=
  forallb (fun p => sh_Status p.2 =? ShardCompleted) (range (fo_Shards order)).

(** One turn of [completeLoop]. *)
Definition completeLoop_step : GoM gw unit := fun s =>
  match gw_done s with
  | [] => (Ret tt, s)
  | dataId :: rest =>
      (Ret tt, Gw (gw_w s) (gw_ds s) (gw_queue s) (gw_timeout s)
                 (delete dataId (gw_complete s)) rest)
  end.

(** The part of [HandleShardComplete] under the lock of the order. *)
Definition record_completion (req : ShardCompleteReq) (m : MsgComplete) (order : FullOrder) :
    GoM gw ShardCompleteResp :=
  try orderInfo <- on_ds (GetOrder (scr_DataId req))
    catch err => ret (MkShardCompleteResp ErrorCodeInternalErr
                        ("get order on chain error: " +:+ Error err) false) ;;
  let _shardInfo := os_set_CompleteHash (scr_TxHash req) (os_set_State ShardStateCompleted
    (default OrderShardInfo_zero (oi_Shards orderInfo !! cm_Provider m))) in
  ignore (on_ds (SaveOrder orderInfo)) ;;
  (if negb (oi_State orderInfo =? OrderStateComplete) && allShardsCompleted order then
     let orderInfo := oi_set_State OrderStateComplete orderInfo in
     ignore (on_ds (SaveOrder orderInfo)) ;;
     ignore (on_w (UnstageShard stagingPath (oi_Owner orderInfo) (cid_String (oi_Cid orderInfo))
                     (oi_DataId orderInfo))) ;;
     send_done (oi_DataId orderInfo)
   else ret tt) ;;
  ret (MkShardCompleteResp 0 "" false).

Definition HandleShardComplete (req : ShardCompleteReq) : GoM gw ShardCompleteResp :=
  let logAndRespond errMsg code := ret (MkShardCompleteResp code errMsg false) in
  let undecoded err := logAndRespond
    ("failed to decode tx(" +:+ scr_TxHash req +:+ ") body: " +:+ Error err) ErrorCodeInvalidTx in
  try resultTx <- on_w (invoke (chain_GetTx (scr_TxHash req) (scr_Height req)))
    catch err => logAndRespond
      ("failed to get transaction " +:+ scr_TxHash req +:+ "(" +:+ format_d (scr_Height req)
       +:+ ") at height(" +:+ Sprintf_d_error err +:+ ")") ErrorCodeInternalErr ;;
  if negb (rt_Code resultTx =? 0) then
    logAndRespond ("tx " +:+ scr_TxHash req +:+ " failed with code " +:+ format_d (rt_Code resultTx))
      ErrorCodeInvalidTx
  else
  match Tx_Unmarshal (rt_Tx resultTx) with
  | inr err => undecoded err
  | inl body =>
  messages <- deref body ;;
  msg <- deref (head messages) ;;
  match MsgComplete_Unmarshal msg with
  | inr err => undecoded err
  | inl m =>
  try order <- on_w (invoke (chain_GetOrder (cm_OrderId m)))
    catch err => logAndRespond
      ("get order(" +:+ format_d (cm_OrderId m) +:+ ") on chain error: " +:+ Error err)
      ErrorCodeInternalErr ;;
  if negb (String.eqb (fo_Provider order) nodeAddress) then
    logAndRespond ("order " +:+ format_d (cm_OrderId m) +:+ " provider is " +:+ fo_Provider order
                   +:+ ", not " +:+ nodeAddress) ErrorCodeInvalidOrderProvider
  else
  let shardCids : gset string := list_to_set ((fun p => sh_Cid p.2) <$>
    List.filter (fun p => String.eqb p.1 (cm_Provider m)) (range (fo_Shards order))) in
  if Z.of_nat (size shardCids) <=? 0 then
    logAndRespond ("order " +:+ format_d (cm_OrderId m) +:+ " doesn't have shard provider "
                   +:+ cm_Provider m) ErrorCodeInvalidProvider
  else
  match List.find (fun c => negb (bool_decide (cid_String c ∈ shardCids))) (scr_Cids req) with
  | Some c => logAndRespond (cid_String c +:+ " is not in the given order "
                             +:+ format_d (cm_OrderId m)) ErrorCodeInvalidShardCid
  | None => record_completion req m order
  end end end.

(** ** Serving staged contents *)
Definition HandleShardStore (req : ShardLoadReq) : GoM gw ShardLoadResp :=
  now <- on_w (invoke_total time_Now) ;;
  let resp code msg content := MkShardLoadResp code msg (slr_OrderId req) (slr_Cid req) content
                                 (slr_RequestId req) (UnixMilli now) in
  try contentBytes <- on_w (GetStagedShard stagingPath (slr_Owner req) (slr_Cid req) (slr_DataId req))
    catch err => ret (resp ErrorCodeInternalErr
      ("Get staged shard(" +:+ cid_String (slr_Cid req) +:+ ") error: " +:+ Error err) []) ;;
  ret (resp 0 "" contentBytes).

(** ** Reading models *)
Definition QueryMeta (req : MetadataProposal) (height : Z) : GoM gw Model :=
  res <- on_w (invoke (chain_QueryMetadata req height)) ;;
  let md := res.1 in
  commitInfo <-
    match last (md_Commits md) with
    | Some commit =>
        match ParseMetaCommit commit with
        | inl ci => ret ci
        | inr _ => fail (Wrapf ErrInvalidCommitInfo ("invalid commit information: " +:+ commit))
        end
    | None => fail (Wrapf ErrInvalidCommitInfo "no commit information")
    end ;;
  ret (MkModel (md_DataId md) (md_Alias md) (md_GroupId md) (md_OrderId md) (md_Owner md)
         (md_Tags md) (md_Cid md) res.2 (mc_CommitId commitInfo) (md_Commits md) "" []
         (md_ExtendInfo md)).

Definition buildRelayProposal (gp : proto) (peerInfos : string) : GoM gw RelayProposalCbor :=
  peers <- on_w (invoke_total (GetPeers gp)) ;;
  if String.eqb peers "" then ret RelayProposalCbor_zero else
  peers <- on_w (invoke_total (GetPeers gp)) ;;
  let proposal := MkRelayProposal nodeAddress localPeerId peers peerInfos in
  match RelayProposal_MarshalCBOR proposal with
  | inr _ => ret RelayProposalCbor_zero
  | inl buf =>
      try signature <- on_w (invoke (SignByAddress keyringHome nodeAddress buf))
        catch err => ret RelayProposalCbor_zero ;;
      ret (MkRelayProposalCbor proposal signature)
  end.

Definition FetchShard (provider cidStr peer dataId : string) (orderId : Z) : GoM gw ShardLoadResp :=
  let gp := protocol_of provider in
  match cid_Decode cidStr with
  | inr _ => ret (MkShardLoadResp 1 "invalid cid" 0 Undef [] 0 0)
  | inl shardCid =>
      now <- on_w (invoke_total time_Now) ;;
      relay <- buildRelayProposal gp peer ;;
      on_w (invoke_total (RequestShardLoad gp
        (MkShardLoadReq nodeAddress dataId orderId shardCid
           (MkMetadataProposalCbor (MkQueryProposal nodeAddress "" "" 0 0 nodeAddress "" "")
              (MkJwsSignature "" ""))
           (UnixMilli now) relay) peer true))
  end.

(** The content slice of a response: the decoder of the wire format leaves it nil
    when it is empty, [io.ReadAll] of the local protocol never does. *)
Definition received (gp : proto) (content : bytes) : option bytes :=
  match gp, content with
  | Stream, [] => None
  | _, _ => Some content
  end.

(** The loop over the shards: [inl] is the replica that ends it, with its
    identifier; [inr] are the fragments. *)
Fixpoint fetch_loop (req : MetadataProposal) (meta : Model) (shards : list (string * ShardMeta))
    (contentList : gmap Z (option bytes)) :
    GoM gw (option (Cid * option bytes) * gmap Z (option bytes)) :=
  match shards with
  | [] => ret (None, contentList)
  | (key, shard) :: rest =>
      match contentList !! smt_ShardId shard with
      | Some (Some _) => fetch_loop req meta rest contentList
      | _ =>
          match cid_Decode (smt_Cid shard) with
          | inr _ => fail (Wrapf ErrInvalidCid (smt_Cid shard))
          | inl shardCid =>
              let gp := protocol_of key in
              now <- on_w (invoke_total time_Now) ;;
              relay <- buildRelayProposal gp (smt_Peer shard) ;;
              resp <- on_w (invoke_total (RequestShardLoad gp
                (MkShardLoadReq "" (mo_DataId meta) (mo_OrderId meta) shardCid
                   (MkMetadataProposalCbor (mtp_Proposal req) (mtp_JwsSignature req))
                   (UnixMilli now) relay) (smt_Peer shard) true)) ;;
              if slp_Code resp =? 0 then
                if String.eqb (mo_Cid meta) (smt_Cid shard) then
                  ret (Some (shardCid, received gp (slp_Content resp)), contentList)
                else fetch_loop req meta rest
                       (<[smt_ShardId shard := received gp (slp_Content resp)]> contentList)
              else fetch_loop req meta rest contentList
          end
      end
  end.

(** Large contents and files are also written to the server directory. *)
Definition publish (meta : Model) (contentCid : Cid) (content : bytes) : GoM gw unit :=
  path <- lift (match homedir_Expand serverPath with
                | inl path => inl path
                | inr _ => inr (Wrapf ErrInvalidPath serverPath)
                end) ;;
  try file <- on_w (invoke (os_Create (path_Join [path; mo_DataId meta])))
    catch err => fail (Wrap ErrInvalidPath (Some err)) ;;
  try _n <- on_w (invoke (file_Write file content))
    catch err => fail (Wrap ErrWriteFileFailed (Some err)) ;;
  if SaoIpfs_Enable then
    try _u <- on_w (sm_Store storeManager contentCid content)
      catch err => fail (Wrap ErrStoreFailed (Some err)) ;;
    ret tt
  else ret tt.

Definition FetchContent (req : MetadataProposal) (meta : Model) : GoM gw FetchResult :=
  fetched <- fetch_loop req meta (range (mo_Shards meta)) ∅ ;;
  let contentList := fetched.2 in
  let isnil := match fetched.1 with Some (_, Some _) => false | _ => true end in
  if isnil && (Z.of_nat (size contentList) =? 0) then
    fail (Wrapf ErrFailuresResponsed (mo_DataId meta))
  else
  r <- match fetched.1 with
       | Some (contentCid, content) =>
           ret (contentCid, default [] content, MkFetchResult (mo_Cid meta) (default [] content))
       | None =>
           let content := concat ((fun p => default [] p.2) <$> range_id contentList) in
           contentCid <- lift (CalculateCid content) ;;
           if negb (String.eqb (cid_String contentCid) (mo_Cid meta)) then
             fail (Wrapf ErrInvalidCid (cid_String contentCid))
           else ret (contentCid, content, MkFetchResult (cid_String contentCid) content)
       end ;;
  let '(contentCid, content, res) := r in
  (if (ContentLimit <? Z.of_nat (length content)) || HasPrefix (mo_Alias meta) Type_Prefix_File
   then publish meta contentCid content else ret tt) ;;
  ret res.

(** ** Assigning the shards of an order *)
Record order_proc := OrderProc { op_gw : gw; op_order : OrderInfo }.

Definition in_gw {A} (m : GoM gw A) : GoM order_proc A :=
  zoom op_gw (fun s p => OrderProc s (op_order p)) m.
Definition get_order : GoM order_proc OrderInfo := gets op_order.
Definition set_order (f : OrderInfo -> OrderInfo) : GoM order_proc unit :=
  modify (fun p => OrderProc (op_gw p) (f (op_order p))).

(** [utils.SaveOrder(.., *orderInfo)], with the error logged. *)
Definition save_order : GoM order_proc unit :=
  orderInfo <- get_order ;; ignore (in_gw (on_ds (SaveOrder orderInfo))).

(** The body of the loop over the shards; its result is the copy of the shard. *)
Definition assign_shard (orderInfo : OrderInfo) (entry : string * OrderShardInfo) :
    GoM gw OrderShardInfo :=
  let '(node, shard) := entry in
  if negb (String.eqb (os_State shard) ShardStateCompleted) then
    resp <- on_w (invoke_total (RequestShardAssign (protocol_of node)
      (MkShardAssignReq (oi_OrderId orderInfo) (oi_DataId orderInfo) node (oi_OrderHash orderInfo)
         (oi_OrderHeight orderInfo) (oi_OrderTxType orderInfo) (oi_ExpireHeight orderInfo))
      (os_Peer shard))) ;;
    ret (if sap_Code resp =? 0 then os_set_State ShardStateNotified shard
         else os_set_State ShardStateError shard)
  else ret shard.

(** [true] when the order was given up. *)
Definition guard_retries : GoM order_proc bool :=
  orderInfo <- get_order ;;
  if MAX_RETRIES <=? oi_Tries orderInfo then
    set_order (oi_set_State OrderStateTerminate) ;;
    set_order (oi_set_LastErr ("order " +:+ format_d (oi_OrderId orderInfo)
      +:+ " too many retries " +:+ format_d (oi_Tries orderInfo))) ;;
    save_order ;;
    ret true
  else ret false.

Definition guard_expired : GoM order_proc bool :=
  orderInfo <- get_order ;;
  if 0 <? oi_ExpireHeight orderInfo then
    latestHeight <- in_gw (on_w (invoke chain_GetLastHeight)) ;;
    if wrap_i64 (oi_ExpireHeight orderInfo) <? latestHeight then
      set_order (oi_set_State OrderStateExpired) ;;
      set_order (oi_set_LastErr ("order expired: latest=" +:+ format_d latestHeight
        +:+ " expireAt=" +:+ format_d (oi_ExpireHeight orderInfo))) ;;
      save_order ;;
      ret true
    else ret false
  else ret false.

Definition assign_phase : GoM order_proc unit :=
  orderInfo <- get_order ;;
  if oi_State orderInfo <? OrderStateComplete then
    in_gw (for_each (range (oi_Shards orderInfo))
             (fun entry => _copy <- assign_shard orderInfo entry ;; ret tt)) ;;
    in_gw (on_ds (SaveOrder orderInfo)) ;;
    in_gw (on_complete (fun m => match m !! oi_DataId orderInfo with
                                 | Some _ => m
                                 | None => <[oi_DataId orderInfo := 0]> m
                                 end))
  else ret tt.

Definition process : GoM order_proc unit :=
  orderInfo <- get_order ;;
  if oi_State orderInfo =? OrderStateTerminate then ret tt else
  if oi_State orderInfo =? OrderStateComplete then in_gw (send_done (oi_DataId orderInfo)) else
  set_order (fun o => oi_set_Tries (wrap_u64 (oi_Tries o + 1)) o) ;;
  now <- in_gw (on_w (invoke_total time_Now)) ;;
  set_order (fun o => oi_set_RetryAt (GetRetryAt now (oi_Tries o)) o) ;;
  given_up <- guard_retries ;;
  if given_up then ret tt else
  given_up <- guard_expired ;;
  if given_up then ret tt else
  assign_phase.

(** One turn of a worker of [runSched]. *)
Definition run_process (orderInfo : OrderInfo) : GoM gw (option error * OrderInfo) := fun s =>
  match process (OrderProc s orderInfo) with
  | (Ret _, p) => (Ret (None, op_order p), op_gw p)
  | (Fail e, p) => (Ret (Some e, op_order p), op_gw p)
  | (Panic, p) => (Panic, op_gw p)
  | (OutOfFuel, p) => (OutOfFuel, op_gw p)
  end.

Definition sched_step : GoM gw unit :=
  item <- on_queue PopFront ;;
  match item with
  | None => ret tt
  | Some task =>
      now <- on_w (invoke_total time_Now) ;;
      if Unix now <? oi_RetryAt (wr_Order task) then on_queue (Push task)
      else
        r <- run_process (wr_Order task) ;;
        match r.1 with
        | None => ret tt
        | Some _ => on_queue (Push (MkWorkRequest r.2 (wr_Shard task) (wr_Job task)))
        end
  end.

(** ** Committing a model *)
Definition order_shard (s : ShardMeta) : OrderShardInfo :=
  MkOrderShardInfo (smt_ShardId s) (smt_Peer s) (smt_Cid s) (smt_Provider s) ShardStateAssigned "".

(** [orderInfo.Shards[s.Sp] = ...] for each shard of the response. *)
Definition order_shards (shards : list ShardMeta) : gmap string OrderShardInfo :=
  foldl (fun m s => <[smt_Sp s := order_shard s]> m) ∅ shards.

(** The transaction that creates the order, or tells the chain that the content of
    an existing order is ready. *)
Definition send_order (orderId : Z) (proposal : Proposal) (signatureBytes : bytes) :
    GoM gw (OrderResponse * string * Z * string) :=
  if orderId =? 0 then
    signature <- lift (JwsSignature_Unmarshal signatureBytes) ;;
    r <- on_w (invoke (chain_StoreOrder nodeAddress (MkOrderStoreProposal proposal signature))) ;;
    ret (r, AssignTxTypeStore)
  else
    r <- on_w (invoke (chain_OrderReady nodeAddress orderId)) ;;
    ret (r, AssignTxTypeReady).

Definition submit_order (orderInfo : OrderInfo) (proposal : Proposal) (signatureBytes : bytes) :
    GoM gw OrderInfo :=
  if oi_State orderInfo <? OrderStateReady then
    sent <- send_order (oi_OrderId orderInfo) proposal signatureBytes ;;
    let '(resp, txHash, height, txType) := sent in
    let orderInfo := oi_set_Shards (order_shards (or_Shards resp))
      (oi_set_State OrderStateReady
        (oi_set_Tx txHash height txType (oi_set_OrderId (or_OrderId resp) orderInfo))) in
    order <- attempt (on_w (invoke (chain_GetOrder (oi_OrderId orderInfo)))) ;;
    let orderInfo :=
      match order with
      | inl order => oi_set_ExpireHeight (wrap_u64 (fo_CreatedAt order + fo_Timeout order)) orderInfo
      | inr _ => orderInfo
      end in
    on_ds (SaveOrder orderInfo) ;;
    ret orderInfo
  else ret orderInfo.

Definition CommitModel (clientProposal : OrderStoreProposal) (orderId : Z) (content : bytes) :
    GoM gw CommitResult :=
  let orderProposal := osp_Proposal clientProposal in
  stagePath <- on_w (StageShard stagingPath orderProposal content) ;;
  proposalBytes <- lift (Proposal_Marshal orderProposal) ;;
  signatureBytes <- lift (JwsSignature_Marshal (osp_JwsSignature clientProposal)) ;;
  c <- lift (cid_Decode (pr_Cid orderProposal)) ;;
  let orderInfo := MkOrderInfo (pr_DataId orderProposal) (pr_Owner orderProposal) c stagePath
                     orderId "" "" 0 ∅ 0 OrderStateStaged 0 0 "" in
  on_ds (SaveOrder orderInfo) ;;
  proposal <- lift (Proposal_Unmarshal proposalBytes) ;;
  orderInfo <- submit_order orderInfo proposal signatureBytes ;;
  on_queue (Push (order_request orderInfo)) ;;
  on_timeout (add_timeout (oi_ExpireHeight orderInfo) orderInfo) ;;
  oi <- on_ds (GetOrder (oi_DataId orderInfo)) ;;
  ret (MkCommitResult (oi_OrderId oi) (oi_DataId oi) "" [] (cid_String (oi_Cid oi))
         (oi_OrderHeight oi) ∅).

(** ** Other requests of clients *)
Definition TerminateOrder (req : OrderTerminateProposal) : GoM gw unit :=
  _hash <- on_w (invoke (chain_TerminateOrder nodeAddress req)) ;; ret tt.

Definition RenewOrder (req : OrderRenewProposal) : GoM gw (gmap string string) :=
  r <- on_w (invoke (chain_RenewOrder nodeAddress req)) ;; ret r.2.

Definition UpdateModelPermission (req : PermissionProposal) : GoM gw unit :=
  _hash <- on_w (invoke (chain_UpdatePermission nodeAddress req)) ;; ret tt.

(** ** Orders of the datastore *)
Definition OrderStatus (id : string) : GoM gw OrderInfo := on_ds (GetOrder id).

Definition getOrderKeys : GoM gw (list OrderKey) :=
  index <- on_ds GetOrderIndex ;; ret (ox_Alls index).

Fixpoint collect_orders (keep : OrderInfo -> bool) (keys : list OrderKey) : GoM gw (list OrderInfo) :=
  match keys with
  | [] => ret []
  | k :: keys' =>
      o <- on_ds (GetOrder (ok_DataId k)) ;;
      os <- collect_orders keep keys' ;;
      ret (if keep o then o :: os else os)
  end.

Definition OrderList : GoM gw (list OrderInfo) :=
  keys <- getOrderKeys ;; collect_orders (fun _ => true) keys.

Definition OrderFix (dataId : string) : GoM gw unit :=
  orderInfo <- on_ds (GetOrder dataId) ;;
  on_queue (Push (order_request orderInfo)).

Definition getPendingOrders : GoM gw (list OrderInfo) :=
  orderKeys <- getOrderKeys ;;
  collect_orders (fun o => negb (oi_State o =? OrderStateComplete)) orderKeys.

Definition processIncompleteOrders : GoM gw unit :=
  try pendings <- getPendingOrders catch err => ret tt ;;
  for_each pendings (fun p => on_queue (Push (order_request p))).

(** ** Orders that time out *)

(** The first height after the creation of the order, in steps of its timeout,
    that is not above [height]; dividing by a zero timeout panics. *)
Definition timeout_at (height : Z) (order : FullOrder) : option Z :=
  if fo_Timeout order =? 0 then None else
  Some (wrap_u64 (wrap_u64 (wrap_u64 (wrap_u64 height - fo_CreatedAt order) / fo_Timeout order
                            * fo_Timeout order) + fo_CreatedAt order)).

Definition restore_order (height : Z) (dataId : string) : GoM gw unit :=
  try orderInfo <- OrderStatus dataId catch err => ret tt ;;
  try meta <- on_w (invoke (chain_GetMeta dataId)) catch err => ret tt ;;
  if md_Status meta =? MetaComplete then ret tt else
  try order <- on_w (invoke (chain_GetOrder (md_OrderId meta))) catch err => ret tt ;;
  timeoutAt <- deref (timeout_at height order) ;;
  on_timeout (add_timeout timeoutAt
    (oi_set_ExpireHeight (wrap_u64 (timeoutAt + fo_Timeout order))
       (oi_set_OrderId (md_OrderId meta) orderInfo))).

Fixpoint restore_loop (height : Z) (metaSet : gset string) (keys : list OrderKey) : GoM gw unit :=
  match keys with
  | [] => ret tt
  | k :: keys' =>
      if decide (ok_DataId k ∈ metaSet) then restore_loop height metaSet keys'
      else restore_order height (ok_DataId k) ;;
           restore_loop height ({[ok_DataId k]} ∪ metaSet) keys'
  end.

(** The part of [checkTimeout] before its loop. *)
Definition restore_timeouts : GoM gw unit :=
  r <- attempt (on_w (invoke chain_GetLastHeight)) ;;
  let height := match r with inl h => h | inr _ => 0 end in
  try orderIdx <- on_ds GetOrderIndex catch err => ret tt ;;
  restore_loop height ∅ (ox_Alls orderIdx).

(** The shards the order has on the chain now, less those that timed out. *)
Fixpoint new_shards (order : FullOrder) (shards : list (string * Shard))
    (newShards : gmap string OrderShardInfo) : GoM gw (gmap string OrderShardInfo) :=
  match shards with
  | [] => ret newShards
  | (sp, shard) :: rest =>
      if sh_Status shard =? ShardTimeout then new_shards order rest newShards else
      r <- attempt (on_w (invoke (chain_GetNodePeer sp))) ;;
      let peer := match r with inl p => p | inr _ => "" end in
      let newShard := MkOrderShardInfo (sh_Id shard) peer (sh_Cid shard) (fo_Provider order)
        (if sh_Status shard =? ShardCompleted then ShardStateCompleted else ShardStateAssigned) "" in
      new_shards order rest (<[sp := newShard]> newShards)
  end.

Definition reschedule (orderInfo : OrderInfo) : GoM gw unit :=
  try order <- on_w (invoke (chain_GetOrder (oi_OrderId orderInfo))) catch err => ret tt ;;
  if allShardsCompleted order then ret tt else
  newShards <- new_shards order (range (fo_Shards order)) ∅ ;;
  let orderInfo := oi_set_State OrderStateReady (oi_set_Tries 0
    (oi_set_ExpireHeight (wrap_u64 (oi_ExpireHeight orderInfo + fo_Timeout order))
       (oi_set_Shards newShards orderInfo))) in
  on_queue (Push (order_request orderInfo)) ;;
  on_timeout (add_timeout (oi_ExpireHeight orderInfo) orderInfo).

(** The heights from [latestHeight] to [newHeight]. *)
Fixpoint scan_heights (fuel : nat) (newHeight latestHeight : Z) : GoM gw Z :=
  match fuel with
  | O => out_of_fuel
  | S fuel' =>
      orderInfoList <- gets (fun s => default [] (gw_timeout s !! latestHeight)) ;;
      for_each orderInfoList reschedule ;;
      if latestHeight =? newHeight then ret latestHeight else
      on_timeout (delete latestHeight) ;;
      scan_heights fuel' newHeight (wrap_u64 (latestHeight + 1))
  end.

(** One turn of the loop of [checkTimeout]; its result is [latestHeight]. *)
Definition timeout_turn (fuel : nat) (latestHeight : Z) : GoM gw Z :=
  r <- attempt (on_w (invoke chain_GetLastHeight)) ;;
  match r with
  | inr _ => ret latestHeight
  | inl height =>
      let newHeight := wrap_u64 height in
      if newHeight <=? latestHeight then ret latestHeight
      else scan_heights fuel newHeight (wrap_u64 (latestHeight + 1))
  end.
End Gateway.
