(* ===== verification/Streams.v ===== *)
(** * Requests between nodes ([node/transport/shard.go], the protocols of
    [node/gateway] and [node/storage])

    A request goes over a libp2p stream: the message is written in CBOR, the stream
    is closed for writing, and the answer is read ([DoRequest]); [HandleRequest]
    finds the peer, opens the stream and tries four times.  The other side decodes
    the message, calls the service and writes its answer (the [handle...] functions;
    their result is what is written, if anything).  A gateway and a storage node in
    one process use channels, the store manager and the staging directory instead
    (the [Local...] protocols).

    What an encoder has written when it fails is left out: it does not decode.  The
    node's context is never cancelled here. *)
From stdpp Require Import base list gmap strings.
From Stdlib Require Import ZArith Lia Ascii.
From S2P Require Import Prelude Types StateUtils Cbor CborTypes Persistence Queue StoreManager.
From S2P Require Import ChainApi Storage Stage.
From S2P Require Chain.
From S2P Require Gateway.
Import Chain(wrapping).

Definition ShardLoadProtocol : string := "/sao/shard/load/1.0".
Definition ShardStoreProtocol : string := "/sao/shard/store/1.0".
Definition ShardAssignProtocol : string := "/sao/shard/assign/1.0".
Definition ShardCompleteProtocol : string := "/sao/shard/complete/1.0".
Definition ShardMigrateProtocol : string := "/sao/shard/migrate/1.0".
Definition FormatJson : string := "json".
Definition FormatCbor : string := "cbor".

(** ** Messages ([types/protocol.go]) *)
Class JsonWire (A : Type) := { json_Marshal_of : A -> bytes + error; json_Unmarshal_to : bytes -> A + error }.

Section Message.
Context {A : Type} `{!JsonWire A} (c : vcodec A).
Definition Marshal (format : string) (f : A) : bytes + error :=
  if String.eqb format FormatJson then json_Marshal_of f else v_write c f.
(** What follows a message in CBOR is not read. *)
Definition Unmarshal (format : string) (r : bytes) : A + error :=
  if String.eqb format FormatJson then json_Unmarshal_to r
  else vr <-r v_read c r ;; inl vr.1.
End Message.

Section Messages.
Context `{!CborLib, !JsonWire ShardMigrateReq, !JsonWire ShardMigrateResp, !JsonWire ShardLoadReq,
          !JsonWire ShardLoadResp, !JsonWire ShardAssignReq, !JsonWire ShardAssignResp,
          !JsonWire ShardCompleteReq, !JsonWire ShardCompleteResp, !JsonWire ShardPingPong}.
Definition ShardMigrateReq_Marshal := Marshal ShardMigrateReq_codec.
Definition ShardMigrateReq_Unmarshal := Unmarshal ShardMigrateReq_codec.
Definition ShardMigrateResp_Marshal := Marshal ShardMigrateResp_codec.
Definition ShardMigrateResp_Unmarshal := Unmarshal ShardMigrateResp_codec.
Definition ShardLoadReq_Marshal := Marshal ShardLoadReq_codec.
Definition ShardLoadReq_Unmarshal := Unmarshal ShardLoadReq_codec.
Definition ShardLoadResp_Marshal := Marshal ShardLoadResp_codec.
Definition ShardLoadResp_Unmarshal := Unmarshal ShardLoadResp_codec.
Definition ShardAssignReq_Marshal := Marshal ShardAssignReq_codec.
Definition ShardAssignReq_Unmarshal := Unmarshal ShardAssignReq_codec.
Definition ShardAssignResp_Marshal := Marshal ShardAssignResp_codec.
Definition ShardAssignResp_Unmarshal := Unmarshal ShardAssignResp_codec.
Definition ShardCompleteReq_Marshal := Marshal ShardCompleteReq_codec.
Definition ShardCompleteReq_Unmarshal := Unmarshal ShardCompleteReq_codec.
Definition ShardCompleteResp_Marshal := Marshal ShardCompleteResp_codec.
Definition ShardCompleteResp_Unmarshal := Unmarshal ShardCompleteResp_codec.
Definition ShardPingPong_Marshal := Marshal ShardPingPong_codec.
Definition ShardPingPong_Unmarshal := Unmarshal ShardPingPong_codec.
End Messages.

(** *** What a decoder that fails leaves in the message

    The fields it has read; a struct inside a message is left as it was here, the
    modelled code does not look at it. *)
Section Partial.
Context `{!CborLib}.
Fixpoint partial_fields {T} (fs : list (field T)) (n : nat) (t : T) (r : bytes) : T :=
  match n with
  | O => t
  | S n' =>
      match ReadString r with
      | inr _ => t
      | inl (name, r) =>
          match find_field name fs with
          | Some f => match f_read f t r with
                      | inl (t, r) => partial_fields fs n' t r
                      | inr _ => t
                      end
          | None => partial_fields fs n' t (ScanForLinks r)
          end
      end
  end.
Definition partial_struct {T} (zero : T) (fs : list (field T)) (r : bytes) : T :=
  match ReadHeader r with
  | inl (maj, extra, r) =>
      if negb (maj =? MajMap) || (MaxLength <? extra) then zero
      else partial_fields fs (Z.to_nat extra) zero r
  | inr _ => zero
  end.
End Partial.

(** ** The network *)
Class Network (W : Type) := {
  net_Multiaddr : Type; net_AddrInfo : Type; net_Stream : Type;
  ma_NewMultiaddr : string -> net_Multiaddr + error;
  ma_String : net_Multiaddr -> string;
  peer_AddrInfoFromP2pAddr : net_Multiaddr -> net_AddrInfo + error;
  addr_ID : net_AddrInfo -> string;
  Peerstore_Peers : total_call W (list string);
  net_Connect : net_AddrInfo -> call W unit;
  host_NewStream : string -> string -> call W net_Stream;
  stream_Write : net_Stream -> bytes -> call W unit;
  stream_CloseWrite : net_Stream -> call W unit;
  stream_Read : net_Stream -> total_call W bytes;     (* until the end, an error or the deadline *)
  net_Sleep : Z -> total_call W unit
}.

Section Requests.
Context `{!CborLib} {W : Type} `{!Network W} {Req Resp : Type} `{!JsonWire Req, !JsonWire Resp}.
Context (creq : vcodec Req) (cresp : vcodec Resp).

(** The goroutine ends before the call returns. *)
Definition DoRequest (s : net_Stream) (req : Req) (format : string) : GoM W Resp :=
  b <- wrapping ErrSendRequestFailed (lift (Marshal creq format req)) ;;
  wrapping ErrSendRequestFailed (invoke (stream_Write s b)) ;;
  ignore (invoke (stream_CloseWrite s)) ;;
  out <- invoke_total (stream_Read s) ;;
  wrapping ErrReadResponseFailed (lift (Unmarshal cresp format out)).

(** The last address that is neither UDP nor local. *)
Fixpoint peer_of (addrs : list string) (pi : option net_AddrInfo) : option net_AddrInfo + error :=
  match addrs with
  | [] => inl pi
  | peerInfo :: rest =>
      if Contains peerInfo "udp" || Contains peerInfo "127.0.0.1" then peer_of rest pi else
      match ma_NewMultiaddr peerInfo with
      | inr _ => inr (Wrapf ErrInvalidServerAddress ("peerInfo=" +:+ peerInfo))
      | inl a =>
          match peer_AddrInfoFromP2pAddr a with
          | inr _ => inr (Wrapf ErrInvalidServerAddress ("a=" +:+ ma_String a))
          | inl pi => peer_of rest (Some pi)
          end
      end
  end.

(** A stream to the first known peer whose id is in the text. *)
Fixpoint known_stream (peerInfos protocol : string) (peers : list string) : GoM W net_Stream :=
  match peers with
  | [] => fail (Wrap ErrInvalidServerAddress None)
  | peerId :: rest =>
      if Contains peerInfos peerId then wrapping ErrCreateStreamFailed (invoke (host_NewStream peerId protocol))
      else known_stream peerInfos protocol rest
  end.

(** The request through any known peer; a stream that cannot be opened is nil and
    is used all the same. *)
Fixpoint relay (protocol : string) (req : Req) (peers : list string) : GoM W (option Resp) :=
  match peers with
  | [] => ret None
  | peerId :: rest =>
      relayStream <- attempt (invoke (host_NewStream peerId protocol)) ;;
      relayStream <- deref match relayStream with inl s => Some s | inr _ => None end ;;
      resp <- attempt (DoRequest relayStream req FormatCbor) ;;
      match resp with
      | inl resp => ret (Some resp)
      | inr _ => relay protocol req rest
      end
  end.

(** [for retryTimes := 0; ; retryTimes++]: three tries after the first one. *)
Fixpoint tries (retries : nat) (s : net_Stream) (req : Req) : GoM W Resp :=
  resp <- attempt (DoRequest s req FormatCbor) ;;
  match resp with
  | inl resp => ret resp
  | inr err =>
      match retries with
      | O => fail err
      | S retries => invoke_total (net_Sleep 10000000000) ;; tries retries s req
      end
  end.

Definition HandleRequest (peerInfos protocol : string) (req : Req) (isForward : bool) : GoM W Resp :=
  pi <- lift (peer_of (Split peerInfos ",") None) ;;
  match pi with
  | None =>
      peers <- invoke_total Peerstore_Peers ;;
      stream <- known_stream peerInfos protocol peers ;;
      tries 3 stream req
  | Some pi =>
      wrapping ErrConnectFailed (invoke (net_Connect pi)) ;;
      stream <- attempt (invoke (host_NewStream (addr_ID pi) protocol)) ;;
      match stream with
      | inl stream => tries 3 stream req
      | inr err =>
          if isForward then
            peers <- invoke_total Peerstore_Peers ;;
            resp <- relay protocol req peers ;;
            match resp with
            | Some resp => ret resp
            | None => fail (Wrap ErrCreateStreamFailed (Some err))
            end
          else fail (Wrap ErrCreateStreamFailed (Some err))
      end
  end.
End Requests.

(** ** The requests of the services *)
Section Clients.
Context `{!CborLib, !ErrorText} {W : Type} `{!Network W, !Clock W}.
Context `{!JsonWire ShardMigrateReq, !JsonWire ShardMigrateResp, !JsonWire ShardLoadReq,
          !JsonWire ShardLoadResp, !JsonWire ShardAssignReq, !JsonWire ShardAssignResp,
          !JsonWire ShardCompleteReq, !JsonWire ShardCompleteResp}.

(** The answer, or one that reports the error. *)
Definition answered {A} (m : GoM W A) (bad : error -> GoM W A) : GoM W A :=
  try resp <- m catch err => bad err ;; ret resp.

Definition stream_RequestShardAssign (req : ShardAssignReq) (peer : string) : GoM W ShardAssignResp :=
  answered (HandleRequest ShardAssignReq_codec ShardAssignResp_codec peer ShardAssignProtocol req false)
    (fun err => ret (MkShardAssignResp ErrorCodeInternalErr ("transport assign request error: " +:+ Error err))).

(** The answer to a request for a content that failed. *)
Definition load_failed (what : string) (req : ShardLoadReq) (err : error) : GoM W ShardLoadResp :=
  now <- invoke_total time_Now ;;
  ret (MkShardLoadResp ErrorCodeInternalErr (what +:+ Error err) (slr_OrderId req) (slr_Cid req) []
         (slr_RequestId req) (UnixMilli now)).

Definition stream_RequestShardLoad (req : ShardLoadReq) (peer : string) (isForward : bool) : GoM W ShardLoadResp :=
  answered (HandleRequest ShardLoadReq_codec ShardLoadResp_codec peer ShardLoadProtocol req isForward)
    (load_failed "transport assign request error: " req).

Definition stream_RequestShardStore (req : ShardLoadReq) (peer : string) : GoM W ShardLoadResp :=
  answered (HandleRequest ShardLoadReq_codec ShardLoadResp_codec peer ShardStoreProtocol req false)
    (load_failed "transport complete request error: " req).

Definition stream_RequestShardComplete (req : ShardCompleteReq) (peer : string) : GoM W ShardCompleteResp :=
  answered (HandleRequest ShardCompleteReq_codec ShardCompleteResp_codec peer ShardCompleteProtocol req false)
    (fun err => ret (MkShardCompleteResp ErrorCodeInternalErr
       ("transport complete request error: " +:+ Error err) true)).

Definition stream_RequestShardMigrate (req : ShardMigrateReq) (peer : string) : GoM W ShardMigrateResp :=
  answered (HandleRequest ShardMigrateReq_codec ShardMigrateResp_codec peer ShardMigrateProtocol req false)
    (fun err => ret (MkShardMigrateResp ErrorCodeInternalErr
       ("transport migrate request error: " +:+ Error err) "" 0)).
End Clients.

(** ** The answers of a storage node *)
Section StorageStreams.
Context `{!CborLib, !CborLaws, !CidLib, !ErrorText} {D W B : Type}.
Context `{!Datastore D, !StoreBackend W B, !ChainConsts, !ChainSvcApi W, !TxLib, !DidLib W,
          !StorageProtocol W, !Clock W, !GoRange}.
Context `{!JsonWire ShardMigrateReq, !JsonWire ShardMigrateResp, !JsonWire ShardLoadReq,
          !JsonWire ShardLoadResp, !JsonWire ShardAssignReq, !JsonWire ShardAssignResp}.
Context (nodeAddress : string) (storeManager : StoreManager B).

(** [resp.Marshal(s, types.FormatCbor)] and [s.CloseWrite()] *)
Definition respond {A} `{!JsonWire A} (c : vcodec A) (resp : A) : option bytes :=
  match Marshal c FormatCbor resp with inl b => Some b | inr _ => None end.

Definition unmarshal_error (err : error) : string := "failed to unmarshal request: " +:+ Error err.

Definition handleShardMigrate (s : bytes) : GoM (svc (D := D) (W := W)) (option bytes) :=
  match Unmarshal ShardMigrateReq_codec FormatCbor s with
  | inr err => ret (respond ShardMigrateResp_codec
                      (MkShardMigrateResp ErrorCodeInternalErr (unmarshal_error err) "" 0))
  | inl req =>
      resp <- HandleShardMigrate nodeAddress storeManager req ;;
      ret (respond ShardMigrateResp_codec resp)
  end.

Definition ShardLoadReq_partial : bytes -> ShardLoadReq :=
  partial_struct (MkShardLoadReq "" "" 0 Undef MetadataProposalCbor_zero 0 RelayProposalCbor_zero) ShardLoadReq_fields.

Definition handleShardLoad (remotePeer : string) (s : bytes) : GoM (svc (D := D) (W := W)) (option bytes) :=
  match Unmarshal ShardLoadReq_codec FormatCbor s with
  | inr err =>
      let req := ShardLoadReq_partial s in
      now <- on_w (invoke_total time_Now) ;;
      ret (respond ShardLoadResp_codec
             (MkShardLoadResp ErrorCodeInvalidRequest (unmarshal_error err) (slr_OrderId req) (slr_Cid req) []
                (slr_RequestId req) (UnixMilli now)))
  | inl req =>
      resp <- HandleShardLoad storeManager req remotePeer ;;
      ret (respond ShardLoadResp_codec resp)
  end.

Definition ShardAssignReq_partial : bytes -> ShardAssignReq :=
  partial_struct (MkShardAssignReq 0 "" "" "" 0 "" 0) ShardAssignReq_fields.

(** A message that cannot be decoded is answered, and handled all the same: there
    is no return after the answer.  A stream that is closed for writing takes no
    second answer. *)
Definition handleShardAssign (s : bytes) : GoM (svc (D := D) (W := W)) (option bytes) :=
  let '(req, refused) :=
    match Unmarshal ShardAssignReq_codec FormatCbor s with
    | inr err => (ShardAssignReq_partial s,
                  respond ShardAssignResp_codec (MkShardAssignResp ErrorCodeInvalidRequest (unmarshal_error err)))
    | inl req => (req, None)
    end in
  resp <- HandleShardAssign nodeAddress req ;;
  ret match refused with Some b => Some b | None => respond ShardAssignResp_codec resp end.

(** *** Within a process

    A send on a channel without a buffer returns when the listener has taken the
    request: the lists are the requests taken and not yet handled. *)
Definition local_RequestShardComplete (req : ShardCompleteReq) : GoM (list ShardCompleteReq) ShardCompleteResp :=
  modify (fun l => l ++ [req]) ;; ret (MkShardCompleteResp 0 "" false).

(** One turn of the listener. *)
Definition listenShardAssign : GoM (svc (D := D) (W := W) * list ShardAssignReq) unit :=
  l <- gets snd ;;
  match l with
  | [] => ret tt
  | req :: rest =>
      modify (fun s => (s.1, rest)) ;;
      _resp <- zoom fst (fun s p => (s, p.2)) (HandleShardAssign nodeAddress req) ;;
      ret tt
  end.

Definition local_RequestShardMigrate (req : ShardMigrateReq) : ShardMigrateResp :=
  MkShardMigrateResp ErrorCodeInternalErr "unsupported" "" 0.

(** The content is read from the staging directory of the gateway. *)
Definition local_RequestShardStore `{!FileSys W} (stagingPath : string) (req : ShardLoadReq) :
    GoM W ShardLoadResp :=
  let resp code msg content :=
    now <- invoke_total time_Now ;;
    ret (MkShardLoadResp code msg (slr_OrderId req) (slr_Cid req) content (slr_RequestId req) (UnixMilli now)) in
  match homedir_Expand stagingPath with
  | inr _ => resp ErrorCodeInternalErr ("invalid path: " +:+ stagingPath) []
  | inl path =>
      let filename := path_Join [path; slr_Owner req; cid_String (slr_Cid req) +:+ "-" +:+ slr_DataId req] in
      try bytes <- invoke (os_ReadFile filename)
        catch err => resp ErrorCodeInternalErr ("read file failed: " +:+ filename) [] ;;
      resp 0 "" bytes
  end.
End StorageStreams.

(** ** The answers of a gateway *)
Section GatewayStreams.
Context `{!CborLib, !CborLaws, !CidLib, !ErrorText, !FmtLib} {D W B : Type}.
Context `{!Datastore D, !StoreBackend W B, !ChainConsts, !ChainSvcApi W, !GatewayChain W,
          !TxLib, !CompleteTx, !ProposalLib, !GatewayProtocol W, !FileSys W, !Clock W,
          !GoRange, !Network W}.
Context `{!JsonWire ShardLoadReq, !JsonWire ShardLoadResp, !JsonWire ShardCompleteReq,
          !JsonWire ShardCompleteResp}.
Context (nodeAddress stagingPath hostId : string) (storeManager : StoreManager B).
Abbreviation gw := (Gateway.gw (D := D) (W := W)).

(** The answer to a message that cannot be decoded has no identifier. *)
Definition undecoded_load (err : error) : option bytes :=
  respond ShardLoadResp_codec (MkShardLoadResp ErrorCodeInvalidRequest (unmarshal_error err) 0 Undef [] 0 0).

Definition handleShardStoreStream (s : bytes) : GoM gw (option bytes) :=
  match Unmarshal ShardLoadReq_codec FormatCbor s with
  | inr err => ret (undecoded_load err)
  | inl req => resp <- Gateway.HandleShardStore stagingPath req ;; ret (respond ShardLoadResp_codec resp)
  end.

Definition handleShardCompleteStream (s : bytes) : GoM gw (option bytes) :=
  match Unmarshal ShardCompleteReq_codec FormatCbor s with
  | inr err => ret (respond ShardCompleteResp_codec
                      (MkShardCompleteResp ErrorCodeInvalidRequest (unmarshal_error err) false))
  | inl req => resp <- Gateway.HandleShardComplete nodeAddress stagingPath req ;;
               ret (respond ShardCompleteResp_codec resp)
  end.

(** *** Within a process *)
Definition local_RequestShardAssign (req : ShardAssignReq) : GoM (list ShardAssignReq) ShardAssignResp :=
  modify (fun l => l ++ [req]) ;; ret (MkShardAssignResp 0 "").

Definition listenShardComplete : GoM (gw * list ShardCompleteReq) unit :=
  l <- gets snd ;;
  match l with
  | [] => ret tt
  | req :: rest =>
      modify (fun s => (s.1, rest)) ;;
      _resp <- zoom fst (fun s p => (s, p.2)) (Gateway.HandleShardComplete nodeAddress stagingPath req) ;;
      ret tt
  end.

(** The content is read from the backends of the storage node. *)
Definition local_RequestShardLoad (req : ShardLoadReq) : GoM W ShardLoadResp :=
  let resp code msg content :=
    now <- invoke_total time_Now ;;
    ret (MkShardLoadResp code msg (slr_OrderId req) (slr_Cid req) content (slr_RequestId req) (UnixMilli now)) in
  try reader <- sm_Get storeManager (slr_Cid req)
    catch err => resp ErrorCodeInternalErr
      ("get cid(" +:+ cid_String (slr_Cid req) +:+ ") from store manager error: " +:+ Error err) [] ;;
  match reader with
  | inr err => resp ErrorCodeInternalErr ("failed to read from store manager: " +:+ Error err) []
  | inl content => resp 0 "" content
  end.

(** *** A request that is passed on to its target *)
Definition target (req : ShardLoadReq) : string := rp_TargetPeerInfo (rpc_Proposal (slr_RelayProposal req)).

Fixpoint relay_to (req : ShardLoadReq) (peers : list string) : GoM gw (option bytes) :=
  match peers with
  | [] => ret None
  | peer :: rest =>
      if Contains (target req) peer then
        resp <- Gateway.on_w (stream_RequestShardLoad req (target req) false) ;;
        ret (respond ShardLoadResp_codec resp)
      else relay_to req rest
  end.

Definition handleRelayStream (s : bytes) : GoM gw (option bytes) :=
  match Unmarshal ShardLoadReq_codec FormatCbor s with
  | inr err => ret (undecoded_load err)
  | inl req =>
      if Contains (target req) hostId then
        resp <- Gateway.on_w (local_RequestShardLoad req) ;;
        ret (respond ShardLoadResp_codec resp)
      else
        peers <- Gateway.on_w (invoke_total Peerstore_Peers) ;;
        relay_to req peers
  end.
End GatewayStreams.

(** ** Handlers of the host ([SetStreamHandler]: one handler per protocol) *)
Definition ShardPingPongProtocol : string := "/sao/shard/pingpong/1.0".
Definition RpcProtocol : string := "/sao/rpc/1.0".

Inductive stream_handler :=
  | HandleShardAssignStream | HandleShardLoadStream | HandleShardMigrateStream
  | HandleShardStoreStream | HandleShardCompleteStream | HandleRelayStream
  | HandlePingStream | HandleRpcStream.
Definition handlers : Type := gmap string stream_handler.

Definition NewStreamStorageProtocol (host : handlers) : handlers :=
  <[ShardPingPongProtocol := HandlePingStream]> (<[ShardMigrateProtocol := HandleShardMigrateStream]>
  (<[ShardLoadProtocol := HandleShardLoadStream]> (<[ShardAssignProtocol := HandleShardAssignStream]> host))).

Definition stop_storage_streams (host : handlers) : handlers :=
  delete ShardMigrateProtocol (delete ShardLoadProtocol (delete ShardAssignProtocol host)).

Definition NewStreamGatewayProtocol (host : handlers) : handlers :=
  <[RpcProtocol := HandleRpcStream]> (<[ShardPingPongProtocol := HandlePingStream]>
  (<[ShardLoadProtocol := HandleRelayStream]> (<[ShardCompleteProtocol := HandleShardCompleteStream]>
  (<[ShardStoreProtocol := HandleShardStoreStream]> host)))).

Definition stop_gateway_streams (host : handlers) : handlers :=
  delete ShardCompleteProtocol (delete ShardStoreProtocol host).

(** The modules of a node, in the order in which it makes them. *)
Definition module_handlers (StorageEnable GatewayEnable : bool) (host : handlers) : handlers :=
  let host := if StorageEnable then NewStreamStorageProtocol host else host in
  if GatewayEnable then NewStreamGatewayProtocol host else host.

(** ** Pings *)
Section Ping.
Context `{!CborLib} {W : Type} `{!Network W, !JsonWire ShardPingPong}.

(** [host.ID().String()] *)
Definition ping_peer (hostId peerId : string) : GoM W unit :=
  if String.eqb peerId hostId then ret tt else
  try stream <- invoke (host_NewStream peerId ShardPingPongProtocol) catch err => ret tt ;;
  match Marshal ShardPingPong_codec FormatCbor (MkShardPingPong hostId) with
  | inr _ => ret tt
  | inl b =>
      try _u <- invoke (stream_Write stream b) catch err => ret tt ;;
      ignore (invoke (stream_CloseWrite stream))
  end.

Definition DoPingRequest (hostId : string) : GoM W unit :=
  peers <- invoke_total Peerstore_Peers ;;
  for_each peers (ping_peer hostId).

(** What the other side answers: a message that is not asked for. *)
Definition HandlePingRequest : option bytes := respond ShardPingPong_codec (MkShardPingPong "").
End Ping.
