(* ===== verification/GatewayTheorems.v ===== *)
(** * Theorems about the gateway service

    The outcome of processing an order ([order_outcome]), of a completion
    reported by a storage node ([complete_outcome]), of committing a model
    ([commit_outcome]), of fetching a content ([fetch_outcome]) and of one turn of
    the timeout loop ([timeout_outcome]), over any behaviour of the chain, the
    peers and the backends. *)
From stdpp Require Import base list gmap strings.
From Stdlib Require Import ZArith Lia Ascii.
From S2P Require Import Prelude Types StateUtils Cbor CborTypes Persistence Queue StoreManager.
From S2P Require Import ChainApi Stage Gateway.

(** What the peers saw: the assignments that were requested, in order.  Reading the
    height and the clock requests none. *)
Class AssignLog (W : Type) `{!GatewayProtocol W, !ChainSvcApi W, !Clock W} := {
  assigned : W -> list (proto * ShardAssignReq * string);
  RequestShardAssign_logged p r peer w :
    assigned (RequestShardAssign p r peer w).2 = assigned w ++ [(p, r, peer)];
  GetLastHeight_quiet w : assigned (chain_GetLastHeight w).2 = assigned w;
  time_Now_quiet w : assigned (time_Now w).2 = assigned w
}.

(** The requests for contents that were sent, with their answers; the other calls of
    [FetchContent] send none. *)
Class LoadLog (W B : Type)
    `{!GatewayProtocol W, !Clock W, !GatewayChain W, !FileSys W, !StoreBackend W B} := {
  loads : W -> list (proto * ShardLoadReq * string * ShardLoadResp);
  RequestShardLoad_logged p r peer b w :
    loads (RequestShardLoad p r peer b w).2
    = loads w ++ [(p, r, peer, (RequestShardLoad p r peer b w).1)];
  load_time_quiet w : loads (time_Now w).2 = loads w;
  load_peers_quiet p w : loads (GetPeers p w).2 = loads w;
  load_sign_quiet h a b w : loads (SignByAddress h a b w).2 = loads w;
  load_create_quiet p w : loads (os_Create p w).2 = loads w;
  load_write_quiet f b w : loads (file_Write f b w).2 = loads w;
  load_store_quiet k b w : loads (back_Store (W:=W) k b w).2 = loads w
}.

(** What the chain was asked about orders, with its answers; the other calls of
    [CommitModel] and of the timeout loop ask nothing about orders. *)
Inductive order_event :=
| EvGetOrder (id : Z) (r : FullOrder + error)
| EvStoreOrder (p : OrderStoreProposal) (r : OrderResponse * string * Z + error)
| EvOrderReady (id : Z) (r : OrderResponse * string * Z + error).

Class OrderLog (W : Type) `{!ChainSvcApi W, !GatewayChain W, !FileSys W} := {
  orders : W -> list order_event;
  GetOrder_logged i w :
    orders (chain_GetOrder i w).2 = orders w ++ [EvGetOrder i (chain_GetOrder i w).1];
  StoreOrder_logged a p w :
    orders (chain_StoreOrder a p w).2 = orders w ++ [EvStoreOrder p (chain_StoreOrder a p w).1];
  OrderReady_logged a i w :
    orders (chain_OrderReady a i w).2 = orders w ++ [EvOrderReady i (chain_OrderReady a i w).1];
  order_height_quiet w : orders (chain_GetLastHeight w).2 = orders w;
  order_peer_quiet a w : orders (chain_GetNodePeer a w).2 = orders w;
  order_mkdir_quiet p w : orders (os_MkdirAll p w).2 = orders w;
  order_create_quiet p w : orders (os_Create p w).2 = orders w;
  order_write_quiet f b w : orders (file_Write f b w).2 = orders w;
  order_close_quiet f w : orders (file_Close f w).2 = orders w
}.

(** [e] is in the part of the history between two points. *)
Definition since {E} (l l' : list E) (e : E) : Prop := exists pre post, l' = l ++ pre ++ e :: post.

Lemma since_now {E} (l : list E) e : since l (l ++ [e]) e.
Proof. by exists [], []. Qed.
Lemma since_mono {E} (l0 l l' l1 : list E) e :
  l0 `prefix_of` l -> l' `prefix_of` l1 -> since l l' e -> since l0 l1 e.
Proof.
  intros [x ->] [y ->] (pre & post & ->). exists (x ++ pre), (post ++ y).
  by rewrite <- !app_assoc.
Qed.

Section Process.
Context `{!CborLib, !CborLaws, !CidLib, !ErrorText} {D W : Type}.
Context `{!Datastore D, !DatastoreLaws D, !ChainSvcApi W, !GatewayProtocol W, !Clock W,
          !AssignLog W, !GoRange}.
Context (nodeAddress : string).
Abbreviation gw := (@gw D W).
Abbreviation order_proc := (@order_proc D W).
Implicit Types (s : gw) (p : order_proc) (o : OrderInfo).

(** What processing never changes in an order. *)
Definition order_ident o :=
  (oi_DataId o, oi_Owner o, oi_Cid o, oi_StagePath o, oi_OrderId o, oi_OrderHash o,
   oi_OrderTxType o, oi_OrderHeight o, oi_Shards o, oi_ExpireHeight o).

Definition assign_req o (node : string) : ShardAssignReq :=
  MkShardAssignReq (oi_OrderId o) (oi_DataId o) node (oi_OrderHash o) (oi_OrderHeight o)
    (oi_OrderTxType o) (oi_ExpireHeight o).

(** One request for every shard that is not completed, to its node. *)
Definition requests_of o (l : list (string * OrderShardInfo)) :
    list (proto * ShardAssignReq * string) :=
  (fun e => (protocol_of nodeAddress e.1, assign_req o e.1, os_Peer e.2)) <$>
    List.filter (fun e => negb (String.eqb (os_State e.2) ShardStateCompleted)) l.

Definition with_w s (w : W) : gw :=
  Gw w (gw_ds s) (gw_queue s) (gw_timeout s) (gw_complete s) (gw_done s).

Lemma assign_loop_run o l s :
  exists w', for_each l (fun e => _copy <- assign_shard nodeAddress o e ;; ret tt) s
             = (Ret tt, with_w s w') /\
    assigned w' = assigned (gw_w s) ++ requests_of o l.
Proof.
  revert s. induction l as [|[node shard] l IH]; intros s.
  - exists (gw_w s). split; [by destruct s|]. by rewrite app_nil_r.
  - cbn [for_each]. unfold requests_of. cbn [List.filter]. unfold bind at 1, bind at 1.
    unfold assign_shard. destruct (String.eqb (os_State shard) ShardStateCompleted) eqn:E;
      cbn [snd negb]; rewrite E; cbn [negb].
    + apply IH.
    + unfold bind at 1, on_w, zoom, invoke_total.
      pose proof (RequestShardAssign_logged (protocol_of nodeAddress node) (assign_req o node)
                    (os_Peer shard) (gw_w s)) as Hlog.
      change (MkShardAssignReq (oi_OrderId o) (oi_DataId o) node (oi_OrderHash o)
        (oi_OrderHeight o) (oi_OrderTxType o) (oi_ExpireHeight o)) with (assign_req o node).
      destruct (RequestShardAssign _ _ _ _) as [resp w1]. cbn in Hlog |- *.
      destruct (IH (with_w s w1)) as (w' & Hrun & Hw'). exists w'. split; [exact Hrun|].
      rewrite Hw'. cbn. rewrite Hlog, <-app_assoc. done.
Qed.

Definition with_ds s (d : D) : gw :=
  Gw (gw_w s) d (gw_queue s) (gw_timeout s) (gw_complete s) (gw_done s).

Lemma save_order_run p :
  exists d', save_order p = (Ret tt, OrderProc (with_ds (op_gw p) d') (op_order p)).
Proof.
  unfold save_order. erewrite bind_run by reflexivity.
  rewrite safe_ignore_ret; [|eauto using safe_SaveOrder with safe].
  unfold in_gw, on_ds, zoom. destruct (SaveOrder _ _) as [r d']. by exists d'.
Qed.

Lemma order_retries_run p :
  exists d' msg, guard_retries p
  = if MAX_RETRIES <=? oi_Tries (op_order p)
    then (Ret true, OrderProc (with_ds (op_gw p) d')
                      (oi_set_LastErr msg (oi_set_State OrderStateTerminate (op_order p))))
    else (Ret false, p).
Proof.
  unfold guard_retries. erewrite bind_run by reflexivity.
  destruct (MAX_RETRIES <=? oi_Tries (op_order p)); [|by exists (gw_ds (op_gw p)), ""].
  do 2 (erewrite bind_run by reflexivity).
  match goal with |- context [bind save_order _ ?p'] => destruct (save_order_run p') as [d' Hd] end.
  erewrite bind_run by exact Hd. by eexists d', _.
Qed.

Lemma wp_get_order {A} (k : OrderInfo -> GoM order_proc A) p Q :
  wp (k (op_order p)) p Q -> wp (bind get_order k) p Q.
Proof. done. Qed.

(** The outcome of the guard on the height: the order goes on, has expired, or the
    height is not known. *)
Lemma order_expired_outcome p :
  wp guard_expired p (fun out p' =>
    gw_queue (op_gw p') = gw_queue (op_gw p) /\ gw_timeout (op_gw p') = gw_timeout (op_gw p) /\
    assigned (gw_w (op_gw p')) = assigned (gw_w (op_gw p)) /\
    match out with
    | Ret true => 0 < oi_ExpireHeight (op_order p) /\ exists msg,
        op_order p' = oi_set_LastErr msg (oi_set_State OrderStateExpired (op_order p))
    | Ret false | Fail _ => op_order p' = op_order p
    | _ => False
    end).
Proof.
  unfold guard_expired. apply wp_get_order.
  destruct (Z.ltb_spec 0 (oi_ExpireHeight (op_order p))) as [Hx|Hx]; [|by apply wp_ret].
  apply wp_bind, wp_zoom, wp_zoom.
  pose proof (GetLastHeight_quiet (gw_w (op_gw p))) as Hq.
  apply wp_call; intros r w' E; rewrite E in Hq; cbn in Hq; [|by split_and!].
  destruct (wrap_i64 (oi_ExpireHeight (op_order p)) <? r); [|by apply wp_ret].
  unfold wp. do 2 (erewrite bind_run by reflexivity).
  match goal with |- context [bind save_order _ ?p'] => destruct (save_order_run p') as [d' Hd] end.
  erewrite bind_run by exact Hd. cbn. split_and!; [done..|eauto].
Qed.

(** The shards of an order below [Complete] are all requested, in the order of
    [range], and the order is saved. *)
Lemma assign_phase_outcome p :
  let o := op_order p in
  wp (assign_phase nodeAddress) p (fun out p' =>
    op_order p' = o /\
    gw_queue (op_gw p') = gw_queue (op_gw p) /\ gw_timeout (op_gw p') = gw_timeout (op_gw p) /\
    (oi_State o < OrderStateComplete ->
     assigned (gw_w (op_gw p')) = assigned (gw_w (op_gw p)) ++ requests_of o (range (oi_Shards o))) /\
    (OrderStateComplete <= oi_State o -> op_gw p' = op_gw p) /\
    match out with
    | Ret _ => oi_State o < OrderStateComplete ->
        is_Some (gw_complete (op_gw p') !! oi_DataId o) /\
        exists d, SaveOrder o d = (Ret tt, gw_ds (op_gw p'))
    | Fail _ => True
    | _ => False
    end).
Proof.
  cbv zeta. unfold assign_phase. apply wp_get_order.
  destruct (Z.ltb_spec (oi_State (op_order p)) OrderStateComplete) as [Hst|Hst].
  2: { apply wp_ret. split_and!; [done..|lia|done|lia]. }
  destruct (assign_loop_run (op_order p) (range (oi_Shards (op_order p))) (op_gw p))
    as (w' & Hrun & Hlog).
  apply wp_bind. unfold in_gw at 1. apply wp_zoom. unfold wp at 1. rewrite Hrun. cbn [fst snd].
  apply wp_bind, wp_zoom, wp_zoom.
  pose proof (safe_SaveOrder (op_order p) (gw_ds (op_gw p))) as Hsafe. unfold wp.
  cbn [op_gw gw_ds with_w].
  destruct (SaveOrder (op_order p) (gw_ds (op_gw p))) as [[[]|e| |] d'] eqn:Es; try done; cbn.
  - split_and!; [done..|lia|]. intros _. split; [|eauto].
    destruct (gw_complete (op_gw p) !! oi_DataId (op_order p)) eqn:E; [by eexists|].
    rewrite lookup_insert_eq. by eexists.
  - split_and!; [done..|lia|done].
Qed.

(** The order after the try counted and the next one set. *)
Definition tried (now : Z) o : OrderInfo :=
  oi_set_RetryAt (GetRetryAt now (wrap_u64 (oi_Tries o + 1)))
    (oi_set_Tries (wrap_u64 (oi_Tries o + 1)) o).

Lemma process_order_unfold s o :
  oi_State o <> OrderStateTerminate -> oi_State o <> OrderStateComplete ->
  let '(now, w') := time_Now (gw_w s) in
  process nodeAddress (OrderProc s o)
  = (given_up <- guard_retries ;;
     if given_up then ret tt else
     given_up <- guard_expired ;;
     if given_up then ret tt else assign_phase nodeAddress)
      (OrderProc (with_w s w') (tried now o)).
Proof.
  intros Ht Hc. unfold process. erewrite bind_run by reflexivity. cbn [op_order].
  rewrite (proj2 (Z.eqb_neq _ _) Ht), (proj2 (Z.eqb_neq _ _) Hc).
  erewrite bind_run by reflexivity. cbn.
  unfold bind at 1, in_gw, on_w, zoom, invoke_total. cbn.
  destruct (time_Now (gw_w s)) as [now w']. done.
Qed.

(** What a run of [process] on the order [o] may end with. *)
Definition order_outcome_ok s o (out : outcome unit) p : Prop :=
  let quiet := assigned (gw_w (op_gw p)) = assigned (gw_w s) in
  order_ident (op_order p) = order_ident o /\
  gw_queue (op_gw p) = gw_queue s /\ gw_timeout (op_gw p) = gw_timeout s /\
  match out with
  | Ret _ =>
      (quiet /\ op_order p = o /\
       (oi_State o = OrderStateTerminate \/ oi_State o = OrderStateComplete)) \/
      (quiet /\ oi_State (op_order p) = OrderStateTerminate /\
       MAX_RETRIES <= wrap_u64 (oi_Tries o + 1)) \/
      (quiet /\ oi_State (op_order p) = OrderStateExpired /\ 0 < oi_ExpireHeight o) \/
      (oi_State (op_order p) = oi_State o /\ wrap_u64 (oi_Tries o + 1) < MAX_RETRIES /\
       (oi_State o < OrderStateComplete ->
        assigned (gw_w (op_gw p)) = assigned (gw_w s) ++ requests_of o (range (oi_Shards o)) /\
        is_Some (gw_complete (op_gw p) !! oi_DataId o) /\
        exists d, SaveOrder (op_order p) d = (Ret tt, gw_ds (op_gw p))))
  | Fail _ => oi_State (op_order p) = oi_State o /\
              oi_Tries (op_order p) = wrap_u64 (oi_Tries o + 1) /\
              wrap_u64 (oi_Tries o + 1) < MAX_RETRIES
  | _ => False
  end.

(** C13: processing an order never panics, never changes what the order is, its
    shards or its expiry, and never touches the queue or the timeouts.  It ends
    well in one of four ways: the order was terminated or complete already; the
    third try terminates it; it has expired; or, after fewer than three tries,
    every shard that is not completed was requested from its node exactly once,
    in the order of the shard map, the order was saved and its data id is
    waiting for completion.  It ends with an error only below the limit of tries,
    with the state of the order unchanged and one more try counted. *)
Theorem order_outcome s o :
  wp (process nodeAddress) (OrderProc s o) (order_outcome_ok s o).
Proof.
  destruct (decide (oi_State o = OrderStateTerminate)) as [Ht|Ht].
  { unfold process, wp. cbn. rewrite Ht. cbn. split_and!; [done..|]. left. tauto. }
  destruct (decide (oi_State o = OrderStateComplete)) as [Hc|Hc].
  { unfold process, wp. cbn. rewrite Hc. cbn. split_and!; [done..|]. left. tauto. }
  pose proof (process_order_unfold s o Ht Hc) as Hrun. unfold wp.
  pose proof (time_Now_quiet (gw_w s)) as Hq. destruct (time_Now (gw_w s)) as [now w']. cbn in Hq.
  rewrite Hrun. clear Hrun. change (wp (given_up <- guard_retries ;;
     if given_up then ret tt else
     given_up <- guard_expired ;;
     if given_up then ret tt else assign_phase nodeAddress)
      (OrderProc (with_w s w') (tried now o)) (order_outcome_ok s o)).
  destruct (order_retries_run (OrderProc (with_w s w') (tried now o))) as (d' & msg & Hg).
  apply wp_bind. unfold wp at 1. rewrite Hg. cbn [op_order].
  change (oi_Tries (tried now o)) with (wrap_u64 (oi_Tries o + 1)).
  destruct (Z.leb_spec MAX_RETRIES (wrap_u64 (oi_Tries o + 1))) as [Hm|Hm].
  { apply wp_ret. split_and!; [done..|]. right; left. split_and!; [exact Hq|done|done]. }
  cbn [fst snd]. apply wp_bind. eapply wp_mono; [apply order_expired_outcome|].
  intros [[|]|e| |] p1 (Hqu & Hto & Hlog & Hp1); [..|done|done]; cbn in Hqu, Hto, Hlog, Hp1.
  - destruct Hp1 as (Hx & m & Hp1). apply wp_ret. unfold order_outcome_ok.
    rewrite Hp1, Hlog, Hq. split_and!; [done..|]. right; right; left. by split_and!.
  - eapply wp_mono; [apply assign_phase_outcome|]. rewrite Hp1.
    intros out p2 (Ho & Hqu2 & Hto2 & Hall & _ & Hout). unfold order_outcome_ok. rewrite Ho.
    split_and!; [done|congruence|congruence|].
    change (oi_State (tried now o)) with (oi_State o) in *.
    destruct out as [u|e| |]; [|done..]. right; right; right. split_and!; [done|done|].
    intros Hst. rewrite (Hall Hst), Hlog, Hq. split; [done|]. exact (Hout Hst).
  - unfold order_outcome_ok. rewrite Hp1. split_and!; done.
Qed.
End Process.

(** ** Completions *)
Section Complete.
Context `{!CborLib, !CborLaws, !CidLib, !CidLaws, !ErrorText, !FmtLib} {D W : Type}.
Context `{!Datastore D, !DatastoreLaws D, !ChainConsts, !ChainSvcApi W, !TxLib, !CompleteTx,
          !FileSys W, !FileLaws W, !GoRange, !GoRangeLaws}.
Context (nodeAddress stagingPath : string).
Abbreviation gw := (@gw D W).
Implicit Types (s : gw) (o : OrderInfo) (a : db).

(** What the gateway checked before it records a completion: the transaction
    succeeded, its message names an order of which this node is the gateway and
    in which its sender has a shard, and the identifiers are those of that shard. *)
Definition completion_checked (req : ShardCompleteReq) (w : W) (m : MsgComplete)
    (order : FullOrder) (w2 : W) : Prop :=
  exists resultTx w1 msg rest shard,
    chain_GetTx (scr_TxHash req) (scr_Height req) w = (inl resultTx, w1) /\
    rt_Code resultTx = 0 /\
    Tx_Unmarshal (rt_Tx resultTx) = inl (Some (msg :: rest)) /\
    MsgComplete_Unmarshal msg = inl m /\
    chain_GetOrder (cm_OrderId m) w1 = (inl order, w2) /\
    fo_Provider order = nodeAddress /\
    fo_Shards order !! cm_Provider m = Some shard /\
    Forall (fun c => cid_String c = sh_Cid shard) (scr_Cids req).

(** The transaction has no message. *)
Definition empty_tx (req : ShardCompleteReq) (w : W) : Prop :=
  exists resultTx w1, chain_GetTx (scr_TxHash req) (scr_Height req) w = (inl resultTx, w1) /\
    (Tx_Unmarshal (rt_Tx resultTx) = inl None \/ Tx_Unmarshal (rt_Tx resultTx) = inl (Some [])).

(** The set of identifiers the code collects: that of the shard of the provider. *)
Lemma shard_cids_spec (order : FullOrder) provider :
  (list_to_set ((fun p => sh_Cid p.2) <$>
     List.filter (fun p => String.eqb p.1 provider) (range (fo_Shards order))) : gset string)
  = match fo_Shards order !! provider with Some shard => {[sh_Cid shard]} | None => ∅ end.
Proof. rewrite filter_range. destruct (fo_Shards order !! provider); cbn; set_solver. Qed.

(** The request is refused, the transaction is empty, or the completion is
    recorded. *)
Definition complete_case (req : ShardCompleteReq) s (out : outcome ShardCompleteResp) s' : Prop :=
  (exists code msg w', code <> 0 /\ out = Ret (MkShardCompleteResp code msg false) /\
     s' = with_w s w') \/
  (out = Panic /\ empty_tx req (gw_w s) /\ exists w', s' = with_w s w') \/
  (exists m order w2, completion_checked req (gw_w s) m order w2 /\
     (out, s') = record_completion stagingPath req m order (with_w s w2)).

Lemma complete_checks req s :
  wp (HandleShardComplete nodeAddress stagingPath req) s (complete_case req s).
Proof.
  unfold HandleShardComplete. cbv zeta.
  assert (forall code msg w', code <> 0 ->
    wp (ret (MkShardCompleteResp code msg false)) (with_w s w') (complete_case req s)) as Hno.
  { intros code msg w' Hc. apply wp_ret. left. eauto 10. }
  apply wp_or_else, wp_zoom, wp_call; intros tx w1 Htx; [|by apply Hno].
  destruct (Z.eqb_spec (rt_Code tx) 0) as [Hcode|Hcode]; cbn [negb]; [|by apply Hno].
  destruct (Tx_Unmarshal (rt_Tx tx)) as [body|e] eqn:Hbody; [|by apply Hno].
  apply wp_bind. destruct body as [[|msg rest]|]; cbn [deref].
  - apply wp_ret, wp_bind. right; left. cbn. unfold empty_tx. eauto 10.
  - apply wp_ret, wp_bind. cbn [head deref]. apply wp_ret.
    destruct (MsgComplete_Unmarshal msg) as [m|e] eqn:Hm; [|by apply Hno].
    apply wp_or_else, wp_zoom, wp_call; intros order w2 Hord; [|by apply Hno].
    destruct (String.eqb_spec (fo_Provider order) nodeAddress) as [Hp|Hp]; cbn [negb]; [|by apply Hno].
    rewrite shard_cids_spec.
    destruct (fo_Shards order !! cm_Provider m) as [shard|] eqn:Hsh.
    2: { rewrite size_empty. by apply Hno. }
    rewrite size_singleton. cbn [Z.of_nat Z.leb Z.compare].
    destruct (List.find _ (scr_Cids req)) as [c|] eqn:Hf; [by apply Hno|].
    right; right. exists m, order, w2. split; [|by rewrite <-surjective_pairing].
    exists tx, w1, msg, rest, shard. split_and!; [done..|].
    apply Forall_forall. intros c Hc%list_elem_of_In. apply (List.find_none _ _ Hf) in Hc.
    by apply negb_false_iff, bool_decide_eq_true, elem_of_singleton in Hc.
  - right; left. cbn. unfold empty_tx. eauto 10.
Qed.

(** Saving the record that is there changes nothing. *)
Lemma db_save_same o a :
  db_orders a !! MkOrderKey (oi_DataId o) = Some o -> db_save_order o a = a.
Proof.
  intros E. unfold db_save_order. cbv zeta. rewrite insert_id by done.
  unfold save_index. rewrite decide_True by (by eexists). by destruct a.
Qed.

(** [SaveOrder] on a reliable datastore, for an order that is listed. *)
Lemma SaveOrder_listed o a d :
  reliable d -> db_repr (contents d) a -> db_fits 1 a -> op_ok (OpSaveOrder o) ->
  wp (SaveOrder o) d (fun out d' => out = Ret tt /\ reliable d' /\
    db_repr (contents d') (db_save_order o a)).
Proof.
  intros Hrel Hr Hfit Hok. pose proof (SaveOrder_op o a d Hr Hfit Hok) as Hop.
  unfold op_spec in Hop. cbn [run_op] in Hop. eapply wp_mono; [exact Hop|].
  intros [[]|e| |] d' [Hrel' Ho]; [|by destruct Ho|done..]. auto.
Qed.

Lemma record_completion_spec req m order s a o path :
  homedir_Expand stagingPath = inl path ->
  reliable (gw_ds s) -> db_repr (contents (gw_ds s)) a -> db_fits 1 a ->
  op_ok (OpSaveOrder o) -> oi_DataId o = scr_DataId req ->
  db_orders a !! MkOrderKey (scr_DataId req) = Some o ->
  wp (record_completion stagingPath req m order) s (fun out s' =>
    out = Ret (MkShardCompleteResp 0 "" false) /\
    gw_queue s' = gw_queue s /\ gw_timeout s' = gw_timeout s /\ gw_complete s' = gw_complete s /\
    reliable (gw_ds s') /\
    if negb (oi_State o =? OrderStateComplete) && allShardsCompleted order then
      db_repr (contents (gw_ds s')) (db_save_order (oi_set_State OrderStateComplete o) a) /\
      gw_done s' = gw_done s ++ [scr_DataId req] /\
      (healthy (gw_w s) ->
       files (gw_w s') !! stage_path path (oi_Owner o, cid_String (oi_Cid o), oi_DataId o) = None)
    else db_repr (contents (gw_ds s')) a /\ gw_done s' = gw_done s /\ gw_w s' = gw_w s).
Proof.
  intros Hx Hrel Hr Hfit Hok Hid Hlook. unfold record_completion.
  destruct (get_reads order_table good_order (gw_ds s) (db_orders a) (db_order_idx a)
    (MkOrderKey (scr_DataId req)) Hrel) as (d1 & Hget & Hc1 & Hrel1).
  { apply Hr. }
  { rewrite <-Hid. apply Hok. }
  rewrite Hlook in Hget. cbn [default] in Hget.
  apply wp_or_else, wp_zoom. unfold wp at 1.
  change (get order_table (MkOrderKey (scr_DataId req)) (gw_ds s))
    with (GetOrder (scr_DataId req) (gw_ds s)) in Hget.
  rewrite Hget. cbn [fst snd id]. rewrite <-Hc1 in Hr.
  assert (db_save_order o a = a) as Hsame by (apply db_save_same; by rewrite Hid).
  apply wp_bind. unfold ignore at 1. apply wp_bind, wp_attempt, wp_zoom.
  eapply wp_mono; [by apply (SaveOrder_listed o a)|]. intros ? d2 (-> & Hrel2 & Hr2).
  rewrite Hsame in Hr2. apply wp_ret, wp_bind.
  destruct (negb (oi_State o =? OrderStateComplete) && allShardsCompleted order).
  2: { apply wp_ret, wp_ret. by split_and!. }
  cbv zeta. apply wp_bind. unfold ignore at 1. apply wp_bind, wp_attempt, wp_zoom.
  eapply wp_mono; [apply (SaveOrder_listed (oi_set_State OrderStateComplete o) a); [done..|]|].
  { destruct Hok as [Hg Hwf]. split; [exact Hg|]. unfold OrderInfo_wf in *. cbn.
    destruct_and!. by split_and!. }
  intros ? d3 (-> & Hrel3 & Hr3). apply wp_ret, wp_bind. unfold ignore. apply wp_bind, wp_attempt, wp_zoom.
  eapply wp_mono; [by apply UnstageShard_spec|].
  intros [u|e| |] w' (Hh & Ho); [| |done..]; apply wp_ret; unfold send_done, wp; cbn;
    rewrite Hid; (split_and!; [done..|]); intros Hw.
  - rewrite Ho, <-Hid. apply lookup_delete_eq.
  - destruct Ho as [-> Ho]. rewrite <-Hid. by apply Ho.
Qed.
(** How a report may end, for the record [o] of the database [a]. *)
Definition complete_ok (req : ShardCompleteReq) s a o (path : string)
    (out : outcome ShardCompleteResp) s' : Prop :=
  gw_queue s' = gw_queue s /\ gw_timeout s' = gw_timeout s /\ gw_complete s' = gw_complete s /\
  match out with
  | Ret resp =>
      (scp_Code resp <> 0 /\ gw_ds s' = gw_ds s /\ gw_done s' = gw_done s) \/
      (scp_Code resp = 0 /\ exists m order w2, completion_checked req (gw_w s) m order w2 /\
       if negb (oi_State o =? OrderStateComplete) && allShardsCompleted order then
         db_repr (contents (gw_ds s')) (db_save_order (oi_set_State OrderStateComplete o) a) /\
         gw_done s' = gw_done s ++ [scr_DataId req] /\
         (healthy w2 ->
          files (gw_w s') !! stage_path path (oi_Owner o, cid_String (oi_Cid o), oi_DataId o)
          = None)
       else db_repr (contents (gw_ds s')) a /\ gw_done s' = gw_done s /\ gw_w s' = w2)
  | Panic => empty_tx req (gw_w s) /\ gw_ds s' = gw_ds s
  | _ => False
  end.

(** C12: a storage node that reports a completion gets the code 0 only when the
    transaction it names succeeded, its message is for an order of this gateway in
    which the sender has a shard, and the reported identifiers are those of that
    shard.  A refused report leaves the datastore and the channels alone; a
    transaction without a message makes the handler panic.  On code 0, when the
    chain shows every shard of that order completed, the record of the data id in
    the request becomes complete, its staged content is removed and its data id is
    announced; otherwise the database is as before: the state of the shard is not
    recorded.  The record that becomes complete is the one the request names,
    whatever order it belongs to. *)
Theorem complete_outcome req s a o path :
  homedir_Expand stagingPath = inl path ->
  reliable (gw_ds s) -> db_repr (contents (gw_ds s)) a -> db_fits 1 a ->
  op_ok (OpSaveOrder o) -> oi_DataId o = scr_DataId req ->
  db_orders a !! MkOrderKey (scr_DataId req) = Some o ->
  wp (HandleShardComplete nodeAddress stagingPath req) s (complete_ok req s a o path).
Proof.
  intros Hx Hrel Hr Hfit Hok Hid Hlook. eapply wp_mono; [apply complete_checks|].
  intros out s' [(code & msg & w' & Hc & -> & ->)|[(-> & He & w' & ->)|(m & order & w2 & Hck & E)]].
  - split_and!; [done..|]. by left.
  - by split_and!.
  - pose proof (record_completion_spec req m order (with_w s w2) a o path Hx Hrel Hr Hfit Hok Hid
      Hlook) as (Hout & Hq & Ht & Hcm & _ & Hif).
    rewrite <-E in *. cbn [fst snd] in *. subst out. split_and!; [done..|].
    right. split; [done|]. exists m, order, w2. split; [done|]. exact Hif.
Qed.
End Complete.

(** ** Fetching contents *)
Section Fetch.
Context `{!CborLib, !CborLaws, !CidLib} {D W B : Type}.
Context `{!StoreBackend W B, !GatewayChain W, !GatewayProtocol W, !FileSys W, !Clock W,
          !LoadLog W B, !GoRange, !GoRangeLaws, !GoRangeId}.
Context (nodeAddress localPeerId serverPath keyringHome : string)
        (storeManager : StoreManager B) (ContentLimit : Z) (SaoIpfs_Enable : bool).
Hypothesis (Store_safe : forall b r, safe (back_Store (W:=W) b r)).
Abbreviation gw := (@gw D W).
Implicit Types (s : gw) (meta : Model).

(** Only the world changes. *)
Definition world_only s s' : Prop := exists w', s' = with_w s w'.
#[local] Instance world_only_preorder : PreOrder world_only.
Proof.
  split; [intros s; exists (gw_w s); by destruct s|].
  intros s1 s2 s3 [w2 ->] [w3 ->]. by exists w3.
Qed.

Lemma on_w_world {A} (m : GoM W A) : steps world_only (on_w (D:=D) m).
Proof. apply steps_zoom. intros s. eexists. reflexivity. Qed.
Hint Resolve on_w_world : go.
Lemma buildRelayProposal_world gp peer :
  steps world_only (buildRelayProposal (D:=D) nodeAddress localPeerId keyringHome gp peer).
Proof. unfold buildRelayProposal. go_steps. Qed.
Hint Resolve buildRelayProposal_world : go.
Lemma buildRelayProposal_safe gp peer :
  safe (buildRelayProposal (D:=D) (W:=W) nodeAddress localPeerId keyringHome gp peer).
Proof. unfold buildRelayProposal, on_w. go_safe. Qed.
Hint Resolve buildRelayProposal_safe : safe.
Lemma fetch_loop_world req meta l cl :
  steps world_only (fetch_loop (D:=D) nodeAddress localPeerId keyringHome req meta l cl).
Proof. revert cl. induction l as [|[key shard] l IH]; intros cl; cbn [fetch_loop]; cbv zeta; go_steps. Qed.
Hint Resolve fetch_loop_world : go.
Lemma fetch_loop_safe req meta l cl :
  safe (fetch_loop (D:=D) (W:=W) nodeAddress localPeerId keyringHome req meta l cl).
Proof.
  revert cl. induction l as [|[key shard] l IH]; intros cl; cbn [fetch_loop]; cbv zeta; [apply safe_ret|].
  unfold on_w. go_safe.
Qed.
Hint Resolve fetch_loop_safe : safe.

(** The history of the requests for contents grows. *)
Definition loaded s s' : Prop := loads (gw_w s) `prefix_of` loads (gw_w s').
#[local] Instance loaded_preorder : PreOrder loaded.
Proof. split; unfold loaded; [intros s; reflexivity|intros s1 s2 s3; apply transitivity]. Qed.

Lemma on_w_loaded {A} (m : GoM W A) :
  (forall w, loads w `prefix_of` loads (m w).2) -> steps loaded (on_w (D:=D) m).
Proof. intros Hm. apply steps_zoom. intros s. unfold loaded. cbn. apply Hm. Qed.
Lemma invoke_quiet {A} (c : call W A) :
  (forall w, loads (c w).2 = loads w) -> steps loaded (on_w (D:=D) (invoke c)).
Proof.
  intros Hc. apply on_w_loaded. intros w. specialize (Hc w). unfold invoke.
  destruct (c w) as [[] w']; cbn in *; by rewrite Hc.
Qed.
Lemma invoke_total_quiet {A} (c : total_call W A) :
  (forall w, loads (c w).2 = loads w) -> steps loaded (on_w (D:=D) (invoke_total c)).
Proof.
  intros Hc. apply on_w_loaded. intros w. specialize (Hc w). unfold invoke_total.
  destruct (c w) as [a w']; cbn in *; by rewrite Hc.
Qed.
Lemma load_grows p r peer b : steps loaded (on_w (D:=D) (invoke_total (RequestShardLoad p r peer b))).
Proof.
  apply on_w_loaded. intros w. pose proof (RequestShardLoad_logged p r peer b w) as Hl.
  unfold invoke_total. destruct (RequestShardLoad p r peer b w); cbn in *. rewrite Hl. by eexists.
Qed.
Lemma store_quiet c content : steps loaded (on_w (D:=D) (sm_Store storeManager c content)).
Proof.
  apply on_w_loaded. intros w. unfold sm_Store, bind.
  assert (forall bs r e w, loads (store_loop (W:=W) bs r e w).2 = loads w) as Hl.
  { intros bs. induction bs as [|k bs IH]; intros r e w0; [done|]. cbn [store_loop]. unfold bind.
    pose proof (load_store_quiet k r w0) as Hk.
    destruct (back_Store k r w0) as [[[]| | |] w1]; cbn in *; try done. by rewrite IH. }
  specialize (Hl (sm_backends storeManager) content None w).
  destruct (store_loop _ _ _ w) as [[[]| | |] w1]; cbn in *; by rewrite Hl.
Qed.
Hint Resolve load_grows store_quiet : go.
Hint Extern 3 (steps loaded (on_w (invoke _))) => apply invoke_quiet;
  auto using load_sign_quiet, load_create_quiet, load_write_quiet : go.
Hint Extern 3 (steps loaded (on_w (invoke_total _))) => apply invoke_total_quiet;
  auto using load_time_quiet, load_peers_quiet : go.

Lemma buildRelayProposal_loaded gp peer :
  steps loaded (buildRelayProposal (D:=D) nodeAddress localPeerId keyringHome gp peer).
Proof. unfold buildRelayProposal. go_steps. Qed.
Hint Resolve buildRelayProposal_loaded : go.
Lemma fetch_loop_loaded req meta l cl :
  steps loaded (fetch_loop (D:=D) nodeAddress localPeerId keyringHome req meta l cl).
Proof. revert cl. induction l as [|[key shard] l IH]; intros cl; cbn [fetch_loop]; cbv zeta; go_steps. Qed.
Lemma publish_loaded meta c content :
  steps loaded (publish (D:=D) (W:=W) serverPath storeManager SaoIpfs_Enable meta c content).
Proof. unfold publish. go_steps. Qed.

(** Between [s] and [s'], the provider [key] answered a request for the content of
    [shard]. *)
Definition answered s s' (key : string) (shard : ShardMeta) (content : bytes) : Prop :=
  exists c r resp, cid_Decode (smt_Cid shard) = inl c /\ slr_Cid r = c /\
    since (loads (gw_w s)) (loads (gw_w s'))
      (protocol_of nodeAddress key, r, smt_Peer shard, resp) /\
    slp_Code resp = 0 /\ slp_Content resp = content.

Lemma answered_mono s0 s s' s1 key shard content :
  loaded s0 s -> loaded s' s1 -> answered s s' key shard content -> answered s0 s1 key shard content.
Proof.
  intros H0' H1' (c & r & resp & Hc & Hr & Hs & Hrest). exists c, r, resp.
  split_and!; [done..|by eapply since_mono|tauto|tauto].
Qed.

Lemma default_received gp content : default [] (received gp content) = content.
Proof. by destruct gp, content. Qed.

(** A replica is the answer of a provider of a shard with the identifier of the
    model. *)
Lemma fetch_loop_replica req meta l cl s c content cl' s' :
  fetch_loop nodeAddress localPeerId keyringHome req meta l cl s = (Ret (Some (c, content), cl'), s') ->
  exists key shard, (key, shard) ∈ l /\ smt_Cid shard = mo_Cid meta /\
    answered s s' key shard (default [] content).
Proof.
  revert cl s. induction l as [|[key shard] l IH]; intros cl s Hrun; [done|].
  assert (forall cl s1, loaded s s1 ->
      fetch_loop nodeAddress localPeerId keyringHome req meta l cl s1
      = (Ret (Some (c, content), cl'), s') ->
    exists key0 shard0, (key0, shard0) ∈ (key, shard) :: l /\ smt_Cid shard0 = mo_Cid meta /\
      answered s s' key0 shard0 (default [] content)) as IH'.
  { intros cl0 s0 Hl Hr0. destruct (IH _ _ Hr0) as (k & sh & Hin & Hcid & Hans). exists k, sh.
    split_and!; [by right|done|]. by eapply answered_mono. }
  cbn [fetch_loop] in Hrun. cbv zeta in Hrun.
  destruct (cl !! smt_ShardId shard) as [[?|]|]; [by eapply (IH' _ s)| |];
    (destruct (cid_Decode (smt_Cid shard)) as [sc|] eqn:Hd; [|done];
     go_inv Hrun; go_inv Hrun; go_inv Hrun; pose proof Hrun2 as Hload;
     apply (steps_run loaded) in Hrun0; [|auto with go];
     apply (steps_run loaded) in Hrun1; [|auto with go];
     apply (steps_run loaded) in Hload; [|auto with go];
     destruct (Z.eqb_spec (slp_Code a1) 0) as [Hcode|];
       [|eapply IH'; [|exact Hrun]; do 2 (etrans; [eassumption|]); done];
     destruct (String.eqb_spec (mo_Cid meta) (smt_Cid shard)) as [Hcid|];
       [|eapply IH'; [|exact Hrun]; do 2 (etrans; [eassumption|]); done];
     injection Hrun as <- <- <- <-; exists key, shard; split; [left|split; [done|]];
     rewrite default_received;
     apply (answered_mono s s1 s2 s2); [by etrans|reflexivity|];
     unfold on_w, zoom, invoke_total in Hrun2;
     match type of Hrun2 with context [RequestShardLoad ?p ?r ?peer ?b ?w] =>
       pose proof (RequestShardLoad_logged p r peer b w) as Hlog;
       destruct (RequestShardLoad p r peer b w) as [resp w'] eqn:Er end;
     injection Hrun2 as <- <-; eexists sc, _, resp; cbn in Hlog |- *; rewrite Hlog;
     refine (conj Hd (conj _ (conj (since_now _ _) (conj Hcode eq_refl)))); reflexivity).
Qed.

Lemma publish_safe meta c content :
  safe (publish (D:=D) (W:=W) serverPath storeManager SaoIpfs_Enable meta c content).
Proof. unfold publish, on_w. go_safe. by apply sm_Store_safe. Qed.

Lemma publish_world meta c content :
  steps world_only (publish (D:=D) (W:=W) serverPath storeManager SaoIpfs_Enable meta c content).
Proof. unfold publish. go_steps. Qed.

Definition fetch_ok meta s (out : outcome FetchResult) s' : Prop :=
  world_only s s' /\
  match out with
  | Ret res => fr_Cid res = mo_Cid meta /\
      ((exists key shard, mo_Shards meta !! key = Some shard /\ smt_Cid shard = mo_Cid meta /\
          answered s s' key shard (fr_Content res)) \/
       (exists c, CalculateCid (fr_Content res) = inl c /\ cid_String c = mo_Cid meta))
  | Fail _ => True
  | _ => False
  end.

(** C17: fetching a model returns a content or an error and changes nothing in the
    gateway.  A content that is returned comes with the identifier of the model,
    and is either the unchanged answer of one provider of a shard with that
    identifier, which is not compared with it, or the concatenation of fragments
    whose computed identifier is that of the model. *)
Theorem fetch_outcome req meta s :
  wp (FetchContent nodeAddress localPeerId serverPath keyringHome storeManager ContentLimit
        SaoIpfs_Enable req meta) s (fetch_ok meta s).
Proof.
  assert (forall s1 c content (res : FetchResult), world_only s s1 -> loaded s s1 ->
    wp ((if (ContentLimit <? Z.of_nat (length content)) || HasPrefix (mo_Alias meta) Type_Prefix_File
         then publish serverPath storeManager SaoIpfs_Enable meta c content else ret tt) ;; ret res) s1
      (fun out s' => world_only s s' /\
         match out with Ret r => r = res /\ loaded s1 s' | Fail _ => True | _ => False end)) as Htail.
  { intros s1 c content res Hs1 Hl1. apply wp_bind. destruct (_ || _).
    - pose proof (publish_world meta c content s1) as Hw. pose proof (publish_safe meta c content s1) as Hs.
      pose proof (publish_loaded meta c content s1) as Hl. unfold wp.
      destruct (publish _ _ _ _ _ _ s1) as [[] s2]; cbn in *; [..|done|done];
        (split; [by etrans|done]).
    - apply wp_ret, wp_ret. split; [done|]. split; [done|reflexivity]. }
  unfold FetchContent. apply wp_bind.
  pose proof (fetch_loop_world req meta (range (mo_Shards meta)) ∅ s) as Hw.
  pose proof (fetch_loop_safe req meta (range (mo_Shards meta)) ∅ s) as Hs.
  pose proof (fetch_loop_loaded req meta (range (mo_Shards meta)) ∅ s) as Hl.
  unfold wp at 1.
  destruct (fetch_loop _ _ _ _ _ _ _ s) as [[[rep cl]|e| |] s1] eqn:E; cbn in *; [|done..].
  destruct (_ && _); [by apply wp_fail|]. apply wp_bind. destruct rep as [[c content]|].
  - apply fetch_loop_replica in E as (key & shard & Hin & Hcid & Hans). apply wp_ret.
    eapply wp_mono; [by apply Htail|]. intros [r|e| |] s2 [Hs2 Hr]; [|done..].
    destruct Hr as [-> Hl2]. split; [done|]. split; [done|]. left. exists key, shard.
    split_and!; [rewrite range_perm in Hin; by apply elem_of_map_to_list|done|].
    by apply (answered_mono s s s1 s2).
  - apply wp_bind. destruct (CalculateCid _) as [c|e] eqn:Ec; [apply wp_ret|by apply wp_fail].
    destruct (String.eqb_spec (cid_String c) (mo_Cid meta)) as [Hc|]; [|by apply wp_fail].
    apply wp_ret. eapply wp_mono; [by apply Htail|].
    intros [r|e| |] s2 [Hs2 Hr]; [|done..]. destruct Hr as [-> _]. split; [done|]. split; [done|].
    right. eauto.
Qed.
End Fetch.

(** ** Committing a model *)
Section Commit.
Context `{!CborLib, !CborLaws, !CidLib, !CidLaws} {D W : Type}.
Context `{!Datastore D, !DatastoreLaws D, !ChainSvcApi W, !GatewayChain W, !ProposalLib,
          !ProposalLaws, !FileSys W, !OrderLog W}.
Context (nodeAddress stagingPath : string).
Context (clientProposal : OrderStoreProposal) (orderId : Z) (content : bytes).
Abbreviation gw := (@gw D W).
Abbreviation prop := (osp_Proposal clientProposal).
Implicit Types (s : gw) (o : OrderInfo) (a : db).

(** The order as it is staged, before the chain knows of it. *)
Definition staged_order (c : Cid) (path : string) : OrderInfo :=
  MkOrderInfo (pr_DataId prop) (pr_Owner prop) c path orderId "" "" 0 ∅ 0 OrderStateStaged 0 0 "".

(** Between [s] and [s'] the chain accepted the transaction of the order: a new order,
    with the proposal and the signature of the client, or an existing one that is
    ready. *)
Definition accepted s s' (resp : OrderResponse) (hash : string) (height : Z) (txType : string) : Prop :=
  if orderId =? 0
  then since (orders (gw_w s)) (orders (gw_w s')) (EvStoreOrder clientProposal (inl (resp, hash, height)))
       /\ txType = AssignTxTypeStore
  else since (orders (gw_w s)) (orders (gw_w s')) (EvOrderReady orderId (inl (resp, hash, height)))
       /\ txType = AssignTxTypeReady.

(** The expiry the chain gave for an order, zero when it gave none. *)
Definition expiry s s' (id : Z) (h : Z) : Prop :=
  h = 0 \/ exists order, since (orders (gw_w s)) (orders (gw_w s')) (EvGetOrder id (inl order)) /\
    h = wrap_u64 (fo_CreatedAt order + fo_Timeout order).

(** An order that was staged under [path] and accepted. *)
Definition submitted s s' (c : Cid) (path : string) o : Prop :=
  cid_Decode (pr_Cid prop) = inl c /\
  exists resp hash height txType exp, accepted s s' resp hash height txType /\
    expiry s s' (or_OrderId resp) exp /\
    o = MkOrderInfo (pr_DataId prop) (pr_Owner prop) c path (or_OrderId resp) hash txType height
          (order_shards (or_Shards resp)) exp OrderStateReady 0 0 "".

(** The history of the questions about orders grows. *)
Definition asked s s' : Prop := orders (gw_w s) `prefix_of` orders (gw_w s').

#[local] Instance asked_preorder : PreOrder asked.
Proof. split; unfold asked; [intros s; reflexivity|intros s1 s2 s3; apply transitivity]. Qed.

Lemma accepted_mono s0 s s' s1 resp hash height txType :
  asked s0 s -> asked s' s1 -> accepted s s' resp hash height txType ->
  accepted s0 s1 resp hash height txType.
Proof. unfold accepted, asked. destruct (orderId =? 0); intros ? ? []; eauto using since_mono. Qed.
Lemma submitted_mono s0 s s' s1 c path o :
  asked s0 s -> asked s' s1 -> submitted s s' c path o -> submitted s0 s1 c path o.
Proof.
  intros Ha Hb [Hc (resp & hash & height & txType & exp & Hacc & Hexp & ->)]. split; [done|].
  exists resp, hash, height, txType, exp. split_and!; [by eapply accepted_mono| |done].
  destruct Hexp as [->|(order & Hs & ->)]; [by left|right]. exists order.
  split; [|done]. by eapply since_mono.
Qed.

Lemma send_order_spec s sig :
  JwsSignature_Unmarshal sig = inl (osp_JwsSignature clientProposal) ->
  wp (send_order nodeAddress orderId prop sig) s (fun out s' => world_only s s' /\
    match out with
    | Ret (resp, hash, height, txType) => accepted s s' resp hash height txType
    | Fail _ => True
    | _ => False
    end).
Proof.
  intros Hsig. unfold send_order, accepted. destruct (orderId =? 0).
  - rewrite Hsig. apply wp_bind, wp_ret, wp_bind, wp_zoom.
    replace (MkOrderStoreProposal prop (osp_JwsSignature clientProposal)) with clientProposal
      by (by destruct clientProposal).
    pose proof (StoreOrder_logged nodeAddress clientProposal (gw_w s)) as Hlog.
    apply wp_call; intros r w' E; rewrite E in Hlog; cbn in Hlog; [apply wp_ret|]; (split; [by eexists|]);
      [|done].
    destruct r as [[resp hash] height]. cbn. rewrite Hlog. split; [apply since_now|done].
  - apply wp_bind, wp_zoom. pose proof (OrderReady_logged nodeAddress orderId (gw_w s)) as Hlog.
    apply wp_call; intros r w' E; rewrite E in Hlog; cbn in Hlog; [apply wp_ret|]; (split; [by eexists|]);
      [|done].
    destruct r as [[resp hash] height]. cbn. rewrite Hlog. split; [apply since_now|done].
Qed.

(** Everything but the world and the datastore. *)
Definition plans s := (gw_queue s, gw_timeout s, gw_complete s, gw_done s).

Lemma world_only_plans s s' : world_only s s' -> plans s' = plans s /\ gw_ds s' = gw_ds s.
Proof. by intros [w ->]. Qed.

(** How [submit_order] may end. *)
Definition submit_case s a (c : Cid) (path : string) (out : outcome OrderInfo) s' : Prop :=
  plans s' = plans s /\
  match out with
  | Ret o => submitted s s' c path o /\
      (op_ok (OpSaveOrder o) ->
       reliable (gw_ds s') /\ db_repr (contents (gw_ds s')) (db_save_order o a))
  | Fail _ => True
  | _ => False
  end.

Lemma submit_save s s1 a c path o :
  submitted s s1 c path o -> plans s1 = plans s -> gw_ds s1 = gw_ds s ->
  reliable (gw_ds s) -> db_repr (contents (gw_ds s)) a -> db_fits 1 a ->
  wp (on_ds (SaveOrder o) ;; ret o) s1 (submit_case s a c path).
Proof.
  intros Hsub Hp Hd Hrel Hr Hfit. apply wp_bind, wp_zoom. rewrite Hd.
  pose proof (safe_SaveOrder o (gw_ds s)) as Hsafe. unfold wp.
  pose proof (SaveOrder_listed o a (gw_ds s) Hrel Hr Hfit) as Hs. unfold wp in Hs.
  destruct (SaveOrder o (gw_ds s)) as [[[]|e| |] d']; cbn in *; [..|done|done].
  - split; [done|]. split; [|tauto]. exact Hsub.
  - by split.
Qed.

Lemma submit_order_spec s a c path sig :
  JwsSignature_Unmarshal sig = inl (osp_JwsSignature clientProposal) ->
  cid_Decode (pr_Cid prop) = inl c ->
  reliable (gw_ds s) -> db_repr (contents (gw_ds s)) a -> db_fits 1 a ->
  wp (submit_order nodeAddress (staged_order c path) prop sig) s (submit_case s a c path).
Proof.
  intros Hsig Hc Hrel Hr Hfit. unfold submit_order. cbn [staged_order oi_State].
  change (OrderStateStaged <? OrderStateReady) with true. cbn iota.
  apply wp_bind. eapply wp_mono; [by apply send_order_spec|].
  intros [[[[resp hash] height] txType]|e| |] s1 [Hs1 Hacc];
    [|by apply world_only_plans in Hs1 as []|done..].
  apply world_only_plans in Hs1 as [Hp1 Hd1]. cbn zeta.
  apply wp_bind, wp_attempt, wp_zoom.
  pose proof (GetOrder_logged (or_OrderId resp) (gw_w s1)) as Hlog.
  assert (forall exp w', expiry s (with_w s1 w') (or_OrderId resp) exp -> asked s1 (with_w s1 w') ->
    submitted s (with_w s1 w') c path
      (MkOrderInfo (pr_DataId prop) (pr_Owner prop) c path (or_OrderId resp) hash txType height
          (order_shards (or_Shards resp)) exp OrderStateReady 0 0 "")) as Hsub.
  { intros exp w' Hexp Hask. split; [done|]. exists resp, hash, height, txType, exp.
    split_and!; [|done..]. by apply (accepted_mono s s s1). }
  assert (asked s s1) as Hask1.
  { unfold accepted, asked in *. destruct (orderId =? 0); destruct Hacc as [(pre & post & ->) _];
      by apply prefix_app_r. }
  apply wp_call; intros r w' E; cbn in E; rewrite E in Hlog; cbn in Hlog.
  - apply (submit_save s (with_w s1 w') a); [apply Hsub|done..].
    + right. exists r. split; [|done]. cbn. rewrite Hlog.
      eapply since_mono; [exact Hask1|done|apply since_now].
    + unfold asked. cbn. rewrite Hlog. by apply prefix_app_r.
  - apply (submit_save s (with_w s1 w') a); [apply Hsub|done..].
    + by left.
    + unfold asked. cbn. rewrite Hlog. by apply prefix_app_r.
Qed.

(** The order [o] is queued and registered at its expiry. *)
Definition put_to_work s s' o : Prop :=
  plans s' = (gw_queue s ++ [order_request o],
              add_timeout (oi_ExpireHeight o) o (gw_timeout s), gw_complete s, gw_done s).

(** How a commit may end; [a] is the database before. *)
Definition commit_case s a (out : outcome CommitResult) s' : Prop :=
  match out with
  | Ret r => exists c path o, submitted s s' c path o /\ put_to_work s s' o /\
      (op_ok (OpSaveOrder o) ->
       r = MkCommitResult (oi_OrderId o) (pr_DataId prop) "" [] (cid_String c) (oi_OrderHeight o) ∅ /\
       db_repr (contents (gw_ds s')) (db_save_order o (db_save_order (staged_order c path) a)))
  | Fail _ => plans s' = plans s \/
      exists c path o, submitted s s' c path o /\ put_to_work s s' o /\ ~ op_ok (OpSaveOrder o)
  | _ => False
  end.

(** Staging asks nothing about orders. *)
Lemma orders_quiet {A} (c : call W A) :
  (forall w, orders (c w).2 = orders w) -> steps (same orders) (invoke c).
Proof. intros Hc w. specialize (Hc w). unfold same, invoke. by destruct (c w) as [[] w']. Qed.
Hint Extern 3 (steps (same orders) (invoke _)) => apply orders_quiet;
  auto using order_mkdir_quiet, order_create_quiet, order_write_quiet, order_close_quiet : go.

Lemma stage_quiet : steps (same orders) (StageShard (W:=W) stagingPath prop content).
Proof. unfold StageShard. cbv zeta. go_steps. Qed.

(** The end of [CommitModel], once the order [o] was submitted. *)
Lemma commit_finish s s2 a c path o :
  submitted s s2 c path o -> plans s2 = plans s ->
  (op_ok (OpSaveOrder o) -> reliable (gw_ds s2) /\
     db_repr (contents (gw_ds s2)) (db_save_order o (db_save_order (staged_order c path) a))) ->
  wp (on_queue (Push (order_request o)) ;;
      on_timeout (add_timeout (oi_ExpireHeight o) o) ;;
      oi <- on_ds (GetOrder (oi_DataId o)) ;;
      ret (MkCommitResult (oi_OrderId oi) (oi_DataId oi) "" [] (cid_String (oi_Cid oi))
             (oi_OrderHeight oi) ∅)) s2 (commit_case s a).
Proof.
  intros Hsub Hp2 Hdb. injection Hp2 as Hq Ht Hcm Hdn.
  apply wp_bind, wp_zoom. unfold wp at 1. cbn [Push modify fst snd].
  apply wp_bind. unfold on_timeout, wp at 1. cbn [modify fst snd].
  assert (forall d', put_to_work s (Gw (gw_w s2) d' (gw_queue s2 ++ [order_request o])
      (add_timeout (oi_ExpireHeight o) o (gw_timeout s2)) (gw_complete s2) (gw_done s2)) o) as Hplans.
  { intros d'. unfold put_to_work, plans. cbn. by rewrite Hq, Ht, Hcm, Hdn. }
  apply wp_bind, wp_zoom. cbn [gw_ds].
  pose proof (safe_GetOrder (oi_DataId o) (gw_ds s2)) as Hsafe.
  assert (op_ok (OpSaveOrder o) -> exists d3, GetOrder (oi_DataId o) (gw_ds s2) = (Ret o, d3) /\
    db_repr (contents d3) (db_save_order o (db_save_order (staged_order c path) a))) as Hread.
  { intros Hok. destruct (Hdb Hok) as [Hrel2 Hr2].
    destruct (get_reads order_table good_order (gw_ds s2) _ _ (MkOrderKey (oi_DataId o)) Hrel2
      (proj1 Hr2) (proj1 Hok)) as (d3 & Hget & Hc3 & _).
    exists d3. rewrite Hc3. split; [|exact Hr2]. cbn [db_save_order db_orders] in Hget.
    rewrite lookup_insert_eq in Hget. exact Hget. }
  unfold wp. destruct (GetOrder (oi_DataId o) (gw_ds s2)) as [[o'|e| |] d3] eqn:Eg; cbn [fst snd] in *;
    [| |done..].
  - unfold ret. cbn. exists c, path, o. split; [done|]. split; [apply Hplans|]. intros Hok.
    destruct (Hread Hok) as (d4 & [= -> ->] & Hr4). split; [|exact Hr4].
    by destruct Hsub as (_ & ? & ? & ? & ? & ? & ? & ? & ->).
  - right. exists c, path, o. split; [done|]. split; [apply Hplans|]. intros Hok.
    by destruct (Hread Hok) as (d4 & ? & _).
Qed.

(** C3: committing a model stages its content, submits the order of the client to
    the chain, unchanged, and, only when the chain has accepted it, puts it to
    work: exactly one request for the accepted order is queued and registered at
    its expiry.  The result then has the order id, data id, identifier and height
    of that order, and the datastore has the order as accepted, listed once.
    Every failure leaves the queue and the timeouts as they were, unless the
    accepted order cannot be encoded.  The datastore is reliable here. *)
Theorem commit_outcome s a :
  reliable (gw_ds s) -> db_repr (contents (gw_ds s)) a -> db_fits 2 a ->
  (forall c path, cid_Decode (pr_Cid prop) = inl c -> homedir_Expand stagingPath = inl path ->
     op_ok (OpSaveOrder (staged_order c (stage_path path (name_of prop))))) ->
  wp (CommitModel nodeAddress stagingPath clientProposal orderId content) s (commit_case s a).
Proof.
  intros Hrel Hr Hfit Hstaged. unfold CommitModel. cbv zeta.
  assert (safe (StageShard stagingPath prop content)) as Hstage.
  { unfold StageShard. cbv zeta. go_safe. }
  apply wp_bind, wp_zoom. unfold wp at 1. specialize (Hstage (gw_w s)).
  destruct (StageShard stagingPath prop content (gw_w s)) as [[path|e| |] w1] eqn:Estage;
    cbn [fst snd] in *; [..|done|done]; [|by left].
  pose proof (steps_run _ _ _ _ _ Estage stage_quiet) as Hquiet. unfold same in Hquiet.
  apply StageShard_path in Estage as (base & Hbase & Hpath).
  apply wp_bind. destruct (Proposal_Marshal prop) as [pb|e] eqn:Hpb; [apply wp_ret|by left].
  apply wp_bind. destruct (JwsSignature_Marshal _) as [sb|e] eqn:Hsb; [apply wp_ret|by left].
  apply wp_bind. destruct (cid_Decode (pr_Cid prop)) as [c|e] eqn:Hc; [apply wp_ret|by left].
  apply wp_bind, wp_zoom.
  assert (db_fits 1 a) as Hfit1.
  { destruct Hfit as ((? & ?) & (? & ?) & (? & ?) & ? & ?). split_and!; try done; lia. }
  assert (op_ok (OpSaveOrder (staged_order c path))) as Hok0 by (subst path; by apply Hstaged).
  eapply wp_mono; [by apply (SaveOrder_listed (staged_order c path) a)|].
  intros ? d1 (-> & Hrel1 & Hr1).
  assert (db_fits 1 (db_save_order (staged_order c path) a)) as Hfit2.
  { by apply (db_fits_op 1 (OpSaveOrder (staged_order c path))). }
  apply wp_bind. rewrite (Proposal_roundtrip _ _ Hpb). apply wp_ret, wp_bind.
  eapply wp_mono; [by apply submit_order_spec; [by apply JwsSignature_roundtrip|..]|].
  intros [o|e| |] s2 [Hp2 Ho]; [|left; exact Hp2|done..]. destruct Ho as [Hsub Hdb].
  apply (commit_finish s s2 a c path o); [|done..].
  eapply submitted_mono; [|reflexivity|exact Hsub]. unfold asked. cbn. by rewrite Hquiet.
Qed.
End Commit.

(** ** Timeouts *)
Section Timeout.
Context {D W : Type} `{!ChainConsts, !ChainSvcApi W, !GatewayChain W, !FileSys W, !OrderLog W,
          !GoRange, !GoRangeLaws}.
Abbreviation gw := (@gw D W).
Implicit Types (s : gw) (o : OrderInfo) (q : list OrderInfo).

(** Between [s] and [s'] the chain answered with [r] when asked for the order. *)
Definition told s s' o (r : FullOrder + error) : Prop :=
  since (orders (gw_w s)) (orders (gw_w s')) (EvGetOrder (oi_OrderId o) r).

(** The chain showed the order with all its shards completed. *)
Definition finished s s' o : Prop := exists order, told s s' o (inl order) /\
  allShardsCompleted order = true.

(** The chain was asked for the order and its answer was an error (of any kind, a
    failure of the network as well). *)
Definition unanswered s s' o : Prop := exists e, told s s' o (inr e).

(** The shards an order has on the chain, for another round of assignments. *)
Definition shards_now (order : FullOrder) (m : gmap string OrderShardInfo) : Prop :=
  forall sp, match fo_Shards order !! sp with
  | Some sh =>
      if sh_Status sh =? ShardTimeout then m !! sp = None
      else exists peer, m !! sp = Some (MkOrderShardInfo (sh_Id sh) peer (sh_Cid sh)
        (fo_Provider order)
        (if sh_Status sh =? ShardCompleted then ShardStateCompleted else ShardStateAssigned) "")
  | None => m !! sp = None
  end.

(** [o'] is the order [o] made ready for another round. *)
Definition again s s' o o' : Prop :=
  oi_OrderId o' = oi_OrderId o /\ oi_DataId o' = oi_DataId o /\
  oi_State o' = OrderStateReady /\ oi_Tries o' = 0 /\
  exists order, told s s' o (inl order) /\ allShardsCompleted order = false /\ shards_now order (oi_Shards o') /\
    oi_ExpireHeight o' = wrap_u64 (oi_ExpireHeight o + fo_Timeout order).

(** The step of a computation that queues the orders [q] and only adds timeouts. *)
Definition queues (q : list OrderInfo) s s' : Prop :=
  orders (gw_w s) `prefix_of` orders (gw_w s') /\
  gw_queue s' = gw_queue s ++ (order_request <$> q) /\
  gw_ds s' = gw_ds s /\ gw_complete s' = gw_complete s /\ gw_done s' = gw_done s /\
  forall h o, o ∈ default [] (gw_timeout s !! h) -> o ∈ default [] (gw_timeout s' !! h).

Lemma queues_refl s : queues [] s s.
Proof. split_and!; [done|by rewrite app_nil_r|done..]. Qed.
Lemma queues_trans q1 q2 s1 s2 s3 : queues q1 s1 s2 -> queues q2 s2 s3 -> queues (q1 ++ q2) s1 s3.
Proof.
  intros (Hp & Hq & Hd & Hc & Hn & Ht) (Hp' & Hq' & Hd' & Hc' & Hn' & Ht').
  split_and!; [by etrans|by rewrite Hq', Hq, fmap_app, app_assoc|congruence..|auto].
Qed.

Section Mono.
Context (s0 s s' s1 : gw) (Hbefore : orders (gw_w s0) `prefix_of` orders (gw_w s))
        (Hafter : orders (gw_w s') `prefix_of` orders (gw_w s1)).
Lemma told_mono o r : told s s' o r -> told s0 s1 o r.
Proof. by apply since_mono. Qed.
Lemma finished_mono o : finished s s' o -> finished s0 s1 o.
Proof. intros (r & Ht & Hr). exists r. split; [by apply told_mono|done]. Qed.
Lemma unanswered_mono o : unanswered s s' o -> unanswered s0 s1 o.
Proof. intros [e Ht]. exists e. by apply told_mono. Qed.
Lemma again_mono o o' : again s s' o o' -> again s0 s1 o o'.
Proof.
  intros (? & ? & ? & ? & order & Ht & Hrest). split_and!; [done..|]. exists order.
  split; [by apply told_mono|done].
Qed.
End Mono.

Lemma new_shards_spec order l m s :
  NoDup l.*1 -> (forall sp, sp ∈ l.*1 -> m !! sp = None) ->
  exists m' w', new_shards order l m s = (Ret m', with_w s w') /\ orders w' = orders (gw_w s) /\
    (forall sp, sp ∉ l.*1 -> m' !! sp = m !! sp) /\
    Forall (fun e => if sh_Status e.2 =? ShardTimeout then m' !! e.1 = None
      else exists peer, m' !! e.1 = Some (MkOrderShardInfo (sh_Id e.2) peer (sh_Cid e.2)
        (fo_Provider order)
        (if sh_Status e.2 =? ShardCompleted then ShardStateCompleted else ShardStateAssigned) "")) l.
Proof.
  revert m s. induction l as [|[sp sh] l IH]; intros m s Hnd Hm.
  { exists m, (gw_w s). split_and!; [by destruct s|done|done|constructor]. }
  apply NoDup_cons in Hnd as [Hsp Hnd]. cbn [new_shards fmap list_fmap fst] in *.
  destruct (sh_Status sh =? ShardTimeout) eqn:Est.
  - destruct (IH m s Hnd) as (m' & w' & Hrun & Hlog & Hother & Hall).
    { intros sp' Hin. apply Hm. by right. }
    exists m', w'. split_and!; [done|done| |].
    + intros sp' Hne. apply Hother. intros Hin. apply Hne. by right.
    + constructor; [|done]. cbn. rewrite Est, Hother by done. apply Hm. left.
  - unfold bind, attempt, on_w, zoom, invoke. pose proof (order_peer_quiet sp (gw_w s)) as Hpeer.
    destruct (chain_GetNodePeer sp (gw_w s)) as [[peer|e] w1]; cbn in Hpeer;
      (match goal with |- context [new_shards order l ?m1 ?s1] =>
         destruct (IH m1 s1 Hnd) as (m' & w' & Hrun & Hlog & Hother & Hall);
         [intros sp' Hin; rewrite lookup_insert_ne; [apply Hm; by right|by intros ->]|] end;
       exists m', w'; split_and!; [exact Hrun|by rewrite Hlog| |];
       [intros sp' Hne; rewrite Hother, lookup_insert_ne; [done|intros ->; apply Hne; left
         |intros Hin; apply Hne; by right]
       |constructor; [|done]; cbn; rewrite Est, Hother, lookup_insert_eq by done; eauto]).
Qed.

Lemma new_shards_now order s :
  exists m w', new_shards order (range (fo_Shards order)) ∅ s = (Ret m, with_w s w') /\
    orders w' = orders (gw_w s) /\
    shards_now order m.
Proof.
  destruct (new_shards_spec order (range (fo_Shards order)) ∅ s)
    as (m & w' & Hrun & Hlog & Hother & Hall).
  { rewrite range_perm. apply NoDup_fst_map_to_list. }
  { intros. apply lookup_empty. }
  exists m, w'. split; [done|]. split; [done|]. intros sp. destruct (fo_Shards order !! sp) as [sh|] eqn:E.
  - rewrite Forall_forall in Hall. apply (Hall (sp, sh)). rewrite range_perm.
    by apply elem_of_map_to_list.
  - rewrite Hother; [apply lookup_empty|]. intros ((sp' & sh) & -> & Hin)%list_elem_of_fmap.
    rewrite range_perm, elem_of_map_to_list in Hin. cbn in E. congruence.
Qed.

Lemma add_timeout_grows h o h' o' (m : gmap Z (list OrderInfo)) :
  o' ∈ default [] (m !! h') -> o' ∈ default [] (add_timeout h o m !! h').
Proof.
  unfold add_timeout. intros Hin. destruct (decide (h' = h)) as [->|].
  - rewrite lookup_insert_eq. cbn. apply elem_of_app. by left.
  - by rewrite lookup_insert_ne.
Qed.

Lemma reschedule_spec o s :
  exists q s', reschedule o s = (Ret tt, s') /\ queues q s s' /\ Forall (again s s' o) q /\
    (q = [] -> finished s s' o \/ unanswered s s' o).
Proof.
  unfold reschedule, or_else, bind at 1, attempt, on_w, zoom, invoke.
  pose proof (GetOrder_logged (oi_OrderId o) (gw_w s)) as Hlog.
  destruct (chain_GetOrder (oi_OrderId o) (gw_w s)) as [r w1] eqn:Eo. cbn in Hlog.
  assert (told s (with_w s w1) o r) as Htold.
  { unfold told. cbn. rewrite Hlog. apply since_now. }
  assert (queues [] s (with_w s w1)) as Hq.
  { split_and!; [cbn; rewrite Hlog; by apply prefix_app_r|by rewrite app_nil_r|done..]. }
  destruct r as [order|e].
  2: { exists [], (with_w s w1). split_and!; [done|done|constructor|]. intros _. right. by eexists. }
  destruct (allShardsCompleted order) eqn:Ec.
  { exists [], (with_w s w1). split_and!; [done|done|constructor|]. intros _. left. by eexists. }
  destruct (new_shards_now order (with_w s w1)) as (m & w2 & Hrun & Hlog2 & Hnow).
  erewrite bind_run by exact Hrun. cbv zeta.
  match goal with |- context [order_request ?o'] => exists [o'] end.
  eexists. split; [reflexivity|]. split; [|split].
  - unfold queues. cbn. rewrite Hlog2. split_and!; [apply Hq|done..|].
    intros h o' Hin. by apply add_timeout_grows.
  - apply Forall_singleton. unfold again. cbn. split_and!; [done..|].
    exists order. split_and!; [|done..]. unfold told. cbn. rewrite Hlog2. exact Htold.
  - done.
Qed.

(** Every order of [l] was finished, is in [q], or was given up because the chain
    did not answer. *)
Definition handled s s' (l q : list OrderInfo) : Prop :=
  Forall (fun o => (finished s s' o \/ unanswered s s' o) \/ exists o', o' ∈ q /\ again s s' o o') l.
Definition all_again s s' (q : list OrderInfo) : Prop := Forall (fun o' => exists o, again s s' o o') q.

Lemma handled_mono s0 s s' s1 l q q' :
  orders (gw_w s0) `prefix_of` orders (gw_w s) -> orders (gw_w s') `prefix_of` orders (gw_w s1) ->
  q ⊆ q' -> handled s s' l q -> handled s0 s1 l q'.
Proof.
  intros Hb Ha Hq Hl. eapply Forall_impl; [exact Hl|]. intros o [[Hf|Hf]|(o' & Hin & Hag)].
  - left. left. by eapply finished_mono.
  - left. right. by eapply unanswered_mono.
  - right. exists o'. split; [by apply Hq|by eapply again_mono].
Qed.
Lemma all_again_mono s0 s s' s1 q :
  orders (gw_w s0) `prefix_of` orders (gw_w s) -> orders (gw_w s') `prefix_of` orders (gw_w s1) ->
  all_again s s' q -> all_again s0 s1 q.
Proof.
  intros Hb Ha Hl. eapply Forall_impl; [exact Hl|]. intros o' [o Ho]. exists o. by eapply again_mono.
Qed.

(** A list of orders whose time is up. *)
Lemma reschedule_all l s :
  exists q s', for_each l reschedule s = (Ret tt, s') /\ queues q s s' /\
    all_again s s' q /\ handled s s' l q.
Proof.
  revert s. induction l as [|o l IH]; intros s.
  { exists [], s. split_and!; [done|apply queues_refl|constructor..]. }
  destruct (reschedule_spec o s) as (q1 & s1 & Hrun & Hq1 & Hag & Hfin).
  destruct (IH s1) as (q2 & s2 & Hrun2 & Hq2 & Hag2 & Hall).
  pose proof (proj1 Hq1) as Hp1. pose proof (proj1 Hq2) as Hp2.
  exists (q1 ++ q2), s2. split_and!.
  - cbn [for_each]. by rewrite (bind_run _ _ _ _ _ Hrun).
  - by eapply queues_trans.
  - apply Forall_app. split; [|apply (all_again_mono s s1 s2 s2); [done|reflexivity|exact Hag2]].
    eapply Forall_impl; [exact Hag|]. intros o' Ho'. exists o. by apply (again_mono s s s1 s2).
  - constructor; [|apply (handled_mono s s1 s2 s2 l q2); [done|reflexivity|set_solver|done]].
    destruct q1 as [|o' q1].
    { left. destruct (Hfin eq_refl); [left; by apply (finished_mono s s s1 s2)|].
      right. by apply (unanswered_mono s s s1 s2). }
    right.
    apply Forall_cons in Hag as [Ho' _]. exists o'. split; [left|by apply (again_mono s s s1 s2)].
Qed.

Lemma scan_heights_spec fuel new h s :
  h <= new < two64 -> 0 <= h -> (Z.to_nat (new - h) < fuel)%nat ->
  exists q s', scan_heights fuel new h s = (Ret new, s') /\
    orders (gw_w s) `prefix_of` orders (gw_w s') /\
    gw_queue s' = gw_queue s ++ (order_request <$> q) /\
    gw_ds s' = gw_ds s /\ gw_complete s' = gw_complete s /\ gw_done s' = gw_done s /\
    all_again s s' q /\
    forall h', h <= h' <= new -> handled s s' (default [] (gw_timeout s !! h')) q.
Proof.
  revert h s. induction fuel as [|fuel IH]; intros h s Hnew Hh Hfuel; [lia|].
  cbn [scan_heights]. unfold bind at 1, gets.
  destruct (reschedule_all (default [] (gw_timeout s !! h)) s)
    as (q & s1 & Hrun & (Hp & Hq & Hd & Hc & Hn & Ht) & Hag & Hall).
  rewrite (bind_run _ _ _ _ _ Hrun). destruct (Z.eqb_spec h new) as [->|Hne].
  - exists q, s1. split_and!; [done..|]. intros h' Hh'. by replace h' with new by lia.
  - unfold bind, on_timeout, modify.
    rewrite wrap_u64_small by (unfold is_u64; lia).
    match goal with |- context [scan_heights fuel new (h + 1) ?s2] =>
      destruct (IH (h + 1) s2) as (q2 & s3 & Hrun2 & Hp2 & Hq2 & Hd2 & Hc2 & Hn2 & Hag2 & Hall2);
        [lia..|] end.
    cbn in Hp2. exists (q ++ q2), s3. split_and!; [done|by etrans| |cbn in *; congruence..| |].
    + rewrite Hq2. cbn. rewrite Hq, fmap_app, app_assoc. done.
    + apply Forall_app. split; [by apply (all_again_mono s s s1 s3)|].
      eapply all_again_mono; [exact Hp|reflexivity|exact Hag2].
    + intros h' Hh'. destruct (decide (h' = h)) as [->|Hne'].
      * apply (handled_mono s s s1 s3 _ q); [done|done|set_solver|done].
      * specialize (Hall2 h' ltac:(lia)). cbn in Hall2. rewrite lookup_delete_ne in Hall2 by done.
        apply Forall_forall. intros o Hin. unfold handled in Hall2. rewrite Forall_forall in Hall2.
        pose proof (handled_mono s _ s3 s3 [o] q2 (q ++ q2) Hp (reflexivity _)
          ltac:(set_solver) (Forall_cons_2 _ _ _ (Hall2 o (Ht _ _ Hin)) (Forall_nil_2 _))) as Ho.
        by apply Forall_cons in Ho as [Ho _].
Qed.

(** C18: one turn of the timeout loop, given as many steps as there are new blocks,
    ends at the height the chain reported (or stays when there is no new block or
    no answer) and asks the chain for every order registered for a height in
    between.  When the chain shows all its shards completed it is finished; when
    the chain shows it with a shard that is not, it is queued again, ready, with
    no tries, a later expiry and exactly the shards that the chain still shows
    and that have not timed out; and when the chain answers with an error,
    whatever it is, the order is given up.  So an order is lost only by an
    unanswered request.  Nothing else is queued, and nothing is written to the
    datastore. *)
Theorem timeout_outcome fuel latest s :
  is_u64 latest ->
  (forall h w, chain_GetLastHeight (gw_w s) = (inl h, w) ->
     (Z.to_nat (wrap_u64 h - latest) <= fuel)%nat) ->
  exists q latest' s', timeout_turn fuel latest s = (Ret latest', s') /\
    latest' = match (chain_GetLastHeight (gw_w s)).1 with
              | inl h => Z.max latest (wrap_u64 h)
              | inr _ => latest
              end /\
    gw_queue s' = gw_queue s ++ (order_request <$> q) /\
    gw_ds s' = gw_ds s /\ gw_complete s' = gw_complete s /\ gw_done s' = gw_done s /\
    all_again s s' q /\
    forall h, latest < h <= latest' -> handled s s' (default [] (gw_timeout s !! h)) q.
Proof.
  intros [Hl Hl'] Hfuel. unfold timeout_turn, bind at 1, attempt, on_w, zoom, invoke.
  pose proof (order_height_quiet (gw_w s)) as Hquiet.
  destruct (chain_GetLastHeight (gw_w s)) as [[h|e] w1] eqn:E; cbn [fst]; cbn in Hquiet.
  2: { exists [], latest, (with_w s w1).
       split_and!; [done..|by rewrite app_nil_r|done|done|done|constructor|lia]. }
  specialize (Hfuel h w1 eq_refl). pose proof (wrap_u64_range h) as [Hh Hh'].
  destruct (Z.leb_spec (wrap_u64 h) latest).
  { exists [], latest, (with_w s w1).
    split_and!; [done|symmetry; apply Z.max_l; lia|by rewrite app_nil_r|done|done|done|constructor|lia]. }
  rewrite (wrap_u64_small (latest + 1)) by (unfold is_u64; lia).
  destruct (scan_heights_spec fuel (wrap_u64 h) (latest + 1) (with_w s w1))
    as (q & s' & Hrun & _ & Hq & Hd & Hc & Hn & Hag & Hall); [lia..|].
  exists q, (wrap_u64 h), s'. rewrite Z.max_r by lia.
  assert (orders (gw_w s) `prefix_of` orders (gw_w (with_w s w1))) as Hp by (cbn; by rewrite Hquiet).
  split_and!; [exact Hrun|done..|by apply (all_again_mono s (with_w s w1) s' s')|].
  intros h' Hr. apply (handled_mono s (with_w s w1) s' s' _ q); [done|done|done|]. apply Hall. lia.
Qed.
End Timeout.
