(* ===== verification/GatewaySample.v ===== *)
(** * A gateway to run the theorems on

    A small world (a chain with two orders, files and peers in memory) and the
    witnesses of the theorems of [GatewayTheorems]. *)
From stdpp Require Import base list gmap strings.
From Stdlib Require Import ZArith Lia Ascii.
From S2P Require Import Prelude Types StateUtils Cbor CborTypes Instances Persistence Queue.
From S2P Require Import StoreManager ChainApi SampleWorld Stage Gateway GatewayTheorems.

Record gworld := GWorld {
  g_height : Z;
  g_orders : gmap Z FullOrder;
  g_files : gmap string bytes;
  g_served : bytes;
  g_asked : list (proto * ShardAssignReq * string);
  g_loads : list (proto * ShardLoadReq * string * ShardLoadResp);
  g_events : list order_event
}.

Definition set_files (m : gmap string bytes) (w : gworld) : gworld :=
  GWorld (g_height w) (g_orders w) m (g_served w) (g_asked w) (g_loads w) (g_events w).
Definition record (e : order_event) (w : gworld) : gworld :=
  GWorld (g_height w) (g_orders w) (g_files w) (g_served w) (g_asked w) (g_loads w)
    (g_events w ++ [e]).

(** A call on the files, in the world. *)
Definition on_files {A} (c : call (gmap string bytes) A) : call gworld A := fun w =>
  let '(r, m) := c (g_files w) in (r, set_files m w).

#[export] Instance GFiles : FileSys gworld :=
  let mem := MemFs.Fs in {|
  File := @File _ mem;
  homedir_Expand := @homedir_Expand _ mem;
  os_IsExist := @os_IsExist _ mem;
  os_MkdirAll p := on_files (@os_MkdirAll _ mem p);
  os_Create p := on_files (@os_Create _ mem p);
  file_Write f b := on_files (@file_Write _ mem f b);
  file_Close f := on_files (@file_Close _ mem f);
  os_ReadFile p := on_files (@os_ReadFile _ mem p);
  os_Remove p := on_files (@os_Remove _ mem p)
|}.

Lemma on_files_inv {A} (c : call (gmap string bytes) A) w r w' :
  on_files c w = (r, w') -> c (g_files w) = (r, g_files w').
Proof. unfold on_files. destruct (c (g_files w)) as [r0 m]. by intros [= -> <-]. Qed.

#[export] Instance GFileLaws : FileLaws gworld.
Proof.
  pose (mem := MemFs.FsLaws).
  refine {| files w := g_files w; healthy _ := True; file_name f := f;
            offset w f := @offset _ _ mem (g_files w) f |}.
  - intros p w r w' E%on_files_inv. exact (@MkdirAll_spec _ _ mem p _ _ _ E).
  - intros p w r w' E%on_files_inv. exact (@Create_spec _ _ mem p _ _ _ E).
  - intros f b w old r w' E%on_files_inv. exact (@Write_spec _ _ mem f b _ old _ _ E).
  - intros f w r w' E%on_files_inv. exact (@Close_spec _ _ mem f _ _ _ E).
  - intros p w r w' E%on_files_inv. exact (@ReadFile_spec _ _ mem p _ _ _ E).
  - intros p w r w' E%on_files_inv. exact (@os_Remove_spec _ _ mem p _ _ _ E).
Defined.

#[export] Instance GChain : ChainSvcApi gworld := {
  Account := string;
  VerifySignature _ _ _ := Some true;
  chain_GetLastHeight w := (inl (g_height w), w);
  chain_GetAccount a w := (inl a, w);
  chain_GetFishmen w := (inl "", w);
  chain_GetNodePeer a w := (inl ("peer of " +:+ a), w);
  chain_GetTx h _ w := (inl (MkResultTx h 0 [] []), w);
  chain_GetOrder i w :=
    let r := match g_orders w !! i with
             | Some o => inl o
             | None => inr (EText "order not found")
             end in (r, record (EvGetOrder i r) w);
  chain_GetMeta d w := (inl (MkMetadata d "did:sid:1" "" "" 7 [] "" [] "" 0 [7] 0 0 "c0" [] []), w);
  chain_ListShards _ _ w := (inl ([], 0), w);
  chain_CompleteOrder _ _ _ _ w := (inl ("hash", 101), w);
  chain_MigrateOrder _ _ w := (("hash", ∅, 101, None), w)
}.

Definition meta_shard : ShardMeta := MkShardMeta 12 "/p2p/node" "Qshard" "sao1gateway" "sao1node".

#[export] Instance GGateway : GatewayChain gworld := {
  OrderTerminateProposal := string;
  OrderRenewProposal := string;
  PermissionProposal := string;
  chain_QueryMetadata q _ w :=
    if String.eqb (qp_Keyword (mtp_Proposal q)) "data"
    then (inl (MkMetadata "data" "did:sid:1" "notes" "" 7 [] "Qshard" [commit_text "c0" 90] "" 0 [7] 0 0 "c0" [] [],
               {["sao1node" := meta_shard]}), w)
    else (inr (EText "not found"), w);
  chain_StoreOrder _ p w :=
    let r := inl (MkOrderResponse 7 [meta_shard], "tx", 95) in (r, record (EvStoreOrder p r) w);
  chain_OrderReady _ i w :=
    let r := inl (MkOrderResponse i [meta_shard], "tx", 95) in (r, record (EvOrderReady i r) w);
  chain_TerminateOrder _ _ w := (inl "tx", w);
  chain_RenewOrder _ _ w := (inl ("tx", ∅), w);
  chain_UpdatePermission _ _ w := (inl "tx", w);
  SignByAddress _ _ b w := (inl b, w)
}.

#[export] Instance GProtocol : GatewayProtocol gworld := {
  RequestShardAssign p r peer w :=
    (MkShardAssignResp 0 "",
     GWorld (g_height w) (g_orders w) (g_files w) (g_served w) (g_asked w ++ [(p, r, peer)])
       (g_loads w) (g_events w));
  RequestShardLoad p r peer _ w :=
    let resp := MkShardLoadResp 0 "" (slr_OrderId r) (slr_Cid r) (g_served w) 0 0 in
    (resp, GWorld (g_height w) (g_orders w) (g_files w) (g_served w) (g_asked w)
             (g_loads w ++ [(p, r, peer, resp)]) (g_events w));
  GetPeers _ w := ("", w)
}.

#[export] Instance GClock : Clock gworld := { time_Now w := (1700000000000000000, w) }.

#[export] Instance GLog : AssignLog gworld.
Proof. refine {| assigned := g_asked |}; intros; reflexivity. Defined.

#[export] Instance GFmt : FmtLib := { Sprintf_d_error _ := "{}" }.
#[export] Instance GComplete : CompleteTx := {
  MsgComplete_Unmarshal _ := inl (MkMsgComplete "sao1node" 7)
}.
#[export] Instance GRangeId : GoRangeId := { range_id A m := map_to_list m }.

#[export] Instance Proposal_eq_dec : EqDecision Proposal.
Proof. solve_decision. Defined.

(** Texts that stand for the sample proposal and its signature on the wire. *)
Definition sample_sig : JwsSignature := MkJwsSignature "protected" "signed".
#[export] Instance JwsSignature_eq_dec : EqDecision JwsSignature.
Proof. solve_decision. Defined.
#[export] Instance GProposals : ProposalLib := {
  Proposal_Marshal p := if decide (p = MemFs.sample_proposal) then inl (string_bytes "proposal")
                        else inr (EText "too long");
  Proposal_Unmarshal _ := inl MemFs.sample_proposal;
  JwsSignature_Marshal s := if decide (s = sample_sig) then inl (string_bytes "signature")
                            else inr (EText "too long");
  JwsSignature_Unmarshal _ := inl sample_sig
}.
#[export] Instance GProposalLaws : ProposalLaws.
Proof. split; cbn; intros x b; case_decide; [by subst|done|by subst|done]. Defined.

(** A gateway without backends of its own. *)
#[export] Instance GBackend : StoreBackend gworld Empty_set := {
  back_Id b := ""; back_Open b := ret tt; back_Close b := ret tt;
  back_Store b r := ret ([], None); back_Remove b c := ret tt;
  back_Get b c := fail (EText "not found"); back_IsExist b c := ret false
}.

Lemma on_files_events {A} (c : call (gmap string bytes) A) w :
  g_events (on_files c w).2 = g_events w /\ g_loads (on_files c w).2 = g_loads w.
Proof. unfold on_files. by destruct (c (g_files w)). Qed.

#[export] Instance GLoads : LoadLog gworld Empty_set.
Proof. refine {| loads := g_loads |}; intros; first [reflexivity|apply on_files_events]. Defined.
#[export] Instance GOrders : OrderLog gworld.
Proof. refine {| orders := g_events |}; intros; first [reflexivity|apply on_files_events]. Defined.

Module GatewayNode.
Import Rfc8949 MemDs TextCid.

Definition gateway : string := "sao1gateway".
Definition staging : string := "/home/sao/staging".
Definition clientProposal : OrderStoreProposal := MkOrderStoreProposal MemFs.sample_proposal sample_sig.

Definition done_shard : Shard := MkShard 12 7 "Qshard" "" ShardCompleted 90 1000 [] "sao1sp".
Definition late_shard : Shard := MkShard 13 9 "Qshard" "" ShardTimeout 90 1000 [] "sao1sp".
Definition done_order : FullOrder :=
  MkFullOrder 7 "did:sid:1" gateway 1 0 90 100 {["sao1node" := done_shard]} "data" "".
Definition late_order : FullOrder :=
  MkFullOrder 9 "did:sid:1" gateway 1 0 90 100 {["sao1node" := late_shard]} "data" "".

Definition start (served : bytes) : gworld :=
  GWorld 100 {[7 := done_order; 9 := late_order]} ∅ served [] [] [].
Definition idle (w : gworld) (ds : gmap string bytes) : @gw (gmap string bytes) gworld :=
  Gw w ds [] ∅ ∅ [].

(** An order of the data id ["data"] with the number 8, assigned to one node. *)
Definition order8 : OrderInfo :=
  MkOrderInfo "data" "did:sid:1" (MkCid "Qshard") "" 8 "tx" AssignTxTypeStore 95
    {["sao1node" := MkOrderShardInfo 12 "/p2p/node" "Qshard" gateway ShardStateAssigned ""]}
    190 OrderStateReady 0 0 "".

Lemma order_outcome_witness :
  order_outcome_ok gateway (idle (start []) ∅) order8
    (process gateway (OrderProc (idle (start []) ∅) order8)).1
    (process gateway (OrderProc (idle (start []) ∅) order8)).2 /\
  g_asked (gw_w (op_gw (process gateway (OrderProc (idle (start []) ∅) order8)).2))
  = [(Stream, assign_req order8 "sao1node", "/p2p/node")].
Proof.
  split; [|vm_compute; reflexivity].
  exact (order_outcome gateway (idle (start []) ∅) order8).
Defined.

(** The node of order 7 reports its completion for the data id of order 8. *)
Definition report : ShardCompleteReq := MkShardCompleteReq 7 "data" [MkCid "Qshard"] "tx" 95.
Definition order8_ds : gmap string bytes := (run_ops [OpSaveOrder order8] ∅).2.

Lemma order8_ok : op_ok (OpSaveOrder order8).
Proof.
  assert (map_Forall (fun k v => text_ok k /\ OrderShardInfo_wf v) (oi_Shards order8)) as Hs.
  { apply map_Forall_singleton. Sample.sample. }
  Sample.sample. apply Hs.
Qed.

Lemma order8_repr : db_repr order8_ds (db_save_order order8 db_empty).
Proof.
  destruct (run_ops_repr [OpSaveOrder order8] db_empty (∅ : gmap string bytes))
    as (d & Hrun & _ & Hr); [exact I|exact Sample.sample_repr| |by apply Forall_singleton, order8_ok|].
  - apply Sample.fits_le; [exact Sample.sample_fits|cbn; lia].
  - unfold order8_ds. by rewrite Hrun.
Qed.

Lemma complete_outcome_witness :
  let s0 := idle (start []) order8_ds in
  let r := HandleShardComplete gateway staging report s0 in
  complete_ok gateway report s0 (db_save_order order8 db_empty) order8 staging r.1 r.2 /\
  r.1 = Ret (MkShardCompleteResp 0 "" false) /\ gw_done r.2 = ["data"].
Proof.
  cbv zeta. split; [|split; vm_compute; reflexivity].
  refine (complete_outcome gateway staging report (idle (start []) order8_ds)
            (db_save_order order8 db_empty) order8 staging _ _ _ _ _ _ _).
  - reflexivity.
  - exact I.
  - exact order8_repr.
  - refine (db_fits_op 1 (OpSaveOrder order8) db_empty _ order8_ok).
    apply Sample.fits_le; [exact Sample.sample_fits|lia].
  - exact order8_ok.
  - reflexivity.
  - vm_compute. reflexivity.
Defined.

Lemma staged_ok c path :
  cid_Decode (pr_Cid (osp_Proposal clientProposal)) = inl c -> homedir_Expand (W:=gworld) staging = inl path ->
  op_ok (OpSaveOrder (staged_order clientProposal 0 c
           (stage_path path (name_of (osp_Proposal clientProposal))))).
Proof. intros Hc [= <-]. vm_compute in Hc. injection Hc as <-. Sample.sample. Qed.

Lemma commit_outcome_witness :
  wp (CommitModel gateway staging clientProposal 0 (string_bytes "shard")) (idle (start []) ∅)
    (commit_case clientProposal 0 (idle (start []) ∅) db_empty) /\
  (CommitModel gateway staging clientProposal 0 (string_bytes "shard") (idle (start []) ∅)).1
  = Ret (MkCommitResult 7 "data" "" [] "Qshard" 95 ∅).
Proof.
  split; [|vm_compute; reflexivity].
  apply commit_outcome.
  - exact I.
  - exact Sample.sample_repr.
  - apply Sample.fits_le; [exact Sample.sample_fits|lia].
  - exact staged_ok.
Defined.

(** The provider serves a content that does not have the identifier asked for, and
    the gateway returns it. *)
Definition wrong : bytes := string_bytes "something else".
Definition sample_meta : Model :=
  MkModel "data" "notes" "" 7 "did:sid:1" [] "Qshard" {["sao1node" := meta_shard]} "c0" [] "" [] "".
Definition sample_query : MetadataProposal :=
  MkMetadataProposal QueryProposal_zero sample_sig.

Lemma fetch_outcome_witness :
  let s0 := idle (start wrong) ∅ in
  let r := FetchContent gateway "peer" "/srv" "/keys" (MkStoreManager []) 1000 false
             sample_query sample_meta s0 in
  fetch_ok gateway sample_meta s0 r.1 r.2 /\
  r.1 = Ret (MkFetchResult "Qshard" wrong) /\ CalculateCid wrong <> inl (MkCid "Qshard").
Proof.
  cbv zeta. split; [|split; [vm_compute; reflexivity|vm_compute; congruence]].
  refine (fetch_outcome gateway "peer" "/srv" "/keys" (MkStoreManager []) 1000 false _
            sample_query sample_meta (idle (start wrong) ∅)).
  intros [].
Defined.

(** Order 9 has timed out at height 95; the chain is at 100. *)
Definition order9 : OrderInfo := oi_set_OrderId 9 order8.
Definition waiting : @gw (gmap string bytes) gworld :=
  Gw (start []) ∅ [] {[95 := [order9]]} ∅ [].

Lemma timeout_outcome_witness :
  exists q latest' s', timeout_turn 10 90 waiting = (Ret latest', s') /\ latest' = 100 /\
    gw_queue s' = order_request <$> q /\ handled waiting s' [order9] q /\
    map (fun r => oi_OrderId (wr_Order r)) (gw_queue s') = [9].
Proof.
  destruct (timeout_outcome 10 90 waiting) as (q & l' & s' & Hrun & Hl & Hq & _ & _ & _ & _ & Hall).
  - unfold is_u64, two64. lia.
  - cbn. intros h w [= <- _]. vm_compute. lia.
  - exists q, l', s'. split; [exact Hrun|]. split; [rewrite Hl; vm_compute; reflexivity|].
    split; [exact Hq|]. split.
    + apply (Hall 95). rewrite Hl. vm_compute. split; congruence.
    + replace s' with (timeout_turn 10 90 waiting).2 by (by rewrite Hrun). vm_compute. reflexivity.
Defined.
End GatewayNode.
