(* ===== verification/ChainSample.v ===== *)
(** * A chain to run the chain service on

    A small world of the cosmos client: accounts are their addresses, a broadcast
    is recorded, heights grow while the service sleeps, and the keyring is a map.
    The witnesses run the service on it. *)
From stdpp Require Import base list gmap strings.
From Stdlib Require Import ZArith Lia Ascii.
From S2P Require Import Prelude Types StateUtils ChainApi Stage Chain ChainTheorems Broadcast.
From S2P Require Import Instances StoreManager SampleWorld.

Module ChainWorld.
#[export] Instance STypes : SaoTypes := {
  TerminateProposal := string;
  RenewProposal := string;
  SaoPermissionProposal := string;
  Description := string
}.

Record cw := Cw {
  cw_height : Z;
  cw_keys : gmap (string * string) string;     (* home and name *)
  cw_metas : list Metadata;
  cw_sent : list Msg
}.

Definition cw_set_sent (m : Msg) (w : cw) : cw :=
  Cw (cw_height w) (cw_keys w) (cw_metas w) (m :: cw_sent w).

Definition all_shards : list Shard :=
  [MkShard 12 7 "Qa" "" 2 90 1000 [] "sao1sp"; MkShard 13 7 "Qb" "" 2 90 1000 [] "sao1other"].

(** Every account but one that is named ["nobody"] is there. *)
#[export] Instance Cosmos : CosmosLib cw := {
  CosmosAccount := string;
  AuthAccount := string;
  Auth_VerifySignature _ _ sig := Some (bool_decide (sig = string_bytes "good"));
  cosmos_Account a w := if String.eqb a "nobody" then (inr (EText "no account"), w) else (inl a, w);
  BroadcastTx _ m w := (inl (MkResponse 0 "hash" (cw_height w) []), cw_set_sent m w);
  BankSendTx _ _ _ _ w := (inl [], w);
  tx_Broadcast _ w := (inl (MkResponse 0 "hash" (cw_height w) []), w);
  LatestBlockHeight w := (inl (cw_height w), w);
  rpc_Tx b w := (inl (MkResultTx (bytes_string b) 0 [] []), w);
  AccAddress := string;
  AccAddressFromBech32 a := inl a;
  retriever_GetAccount a w := (inl a, w);
  Decode_OrderResponse _ := inl (MkOrderResponse 7 []);
  Decode_Results _ := inl [("data", "SUCCESS")];
  Decode_FaultIds _ := inl ["fault"];
  q_Fishmen w := (inl "sao1fish", w);
  q_Order i w := (inl (MkFullOrder i "did:sid:1" "sao1gateway" 1 0 90 100 ∅ "data" (commit_text "c0" 1)), w);
  q_Shard i w := (inl (MkShard i 7 "Qc" "" 2 90 1000 [] "sao1sp"), w);
  q_ShardAll offset limit w :=
    (inl (take (Z.to_nat limit) (drop (Z.to_nat offset) all_shards), Z.of_nat (length all_shards)), w);
  q_MetadataAll offset limit w :=
    (inl (take (Z.to_nat limit) (drop (Z.to_nat offset) (cw_metas w)), Z.of_nat (length (cw_metas w))), w);
  q_Metadata d w :=
    (inl (MkMetadata d "did:sid:1" "" "" 7 [] "Qok" [commit_text "c0" 1] "" 0 [7] 0 0 "c0" [] [],
          {["sao1bad" := MkShardMeta 12 "bad peer" "Qok" "" ""; "sao1good" := MkShardMeta 13 "peer" "Qok" "" ""]}), w);
  q_SaoMetadata _ q _ w := (inl (MkMetadata (qp_Keyword q) (qp_Owner q) "" "" 7 [] "" [] "" 0 [7] 0 0 "c0" [] [], ∅), w);
  q_Node a w := (inl (MkChainNode a ("peer of " +:+ a) 7), w);
  q_NodeAll w := (inl [], w);
  q_Fault i w := (inl (MkFault i 7 13 "" "sao1good" ""), w);
  q_AllFaults _ w := (inl [], w);
  q_Pledge _ w := (inl 1, w);
  q_DidParams w := (inl "", w);
  q_SidDocument v w := (inl (MkSidDocument v []), w);
  q_PaymentAddress _ w := (inl "sao1pay", w);
  hex_DecodeString s := inl (string_bytes s);
  time_Sleep _ w := (tt, Cw (cw_height w + 1) (cw_keys w) (cw_metas w) (cw_sent w))
}.

(** The address of a new key is its home and its name. *)
#[export] Instance Keyring : KeyringLib cw := {
  Registry := string;
  KeyRecord := string;
  KeyAccount := string;
  SigningAlgo := unit;
  registry_New home w := (inl home, w);
  GetByName r n w := match cw_keys w !! (r, n) with
                     | Some a => (inl a, w)
                     | None => (inr (EText "no key"), w)
                     end;
  registry_Create r n w := (inl (n, "words"), w);
  registry_Import r n _ _ w := (inl n, w);
  registry_Export r n _ w := (inl n, w);
  account_Name a := a;
  account_Address a _ := inl a;
  mk_KeyAccount _ a := a;
  keyring_Sign _ _ b w := (inl b, w);
  keyring_SignByAddress _ _ b w := (inl b, w);
  hdPath := "m/44'/118'/0'/0/0";
  SigningAlgoFromString _ := inl tt;
  NewAccount r n _ _ _ w :=
    let a := "sao1" +:+ r +:+ n in
    (inl a, Cw (cw_height w) (<[(r, n) := a]> (cw_keys w)) (cw_metas w) (cw_sent w));
  NewEntropy _ w := (inl [], w);
  NewMnemonic _ := inl "words"
}.

(** The first address is picked. *)
#[export] Instance Rand : RandLib cw := { rand_Intn _ w := (0, w) }.

#[export] Instance Files : FileSys cw := {
  File := unit;
  homedir_Expand p := inl p;
  os_IsExist _ := false;
  os_MkdirAll _ w := (inl tt, w);
  os_Create _ w := (inl tt, w);
  file_Write _ _ w := (inl tt, w);
  file_Close _ w := (inl tt, w);
  os_ReadFile _ w := (inr (EText "no such file"), w);
  os_Remove _ w := (inr (EText "no such file"), w)
}.

#[export] Instance Pages : PageLaws cw.
Proof. refine {| all_metadata := cw_metas |}. intros offset limit w. by split. Defined.

#[export] Instance Keys : KeyringLaws cw.
Proof.
  refine {| keys_of w h n := cw_keys w !! (h, n); reg_home (r : Registry) := r |}.
  - intros home w. by exists home, w.
  - intros r n w. exists w. split; [done|]. change string in r. cbn. destruct (cw_keys w !! (r, n)) as [a|];
      [by exists a|by eexists].
  - done.
  - intros r n m p a w. cbn. eexists. split; [done|]. intros h n'. destruct (decide _) as [[-> ->]|Hne].
    + apply lookup_insert_eq.
    + apply lookup_insert_ne. intros [= -> ->]. by destruct Hne.
Defined.

Definition w0 : cw := Cw 100 ∅ [] [].
Definition pool : AddressPool :=
  MkAddressPool {["sao1pool" := Available]} "sao1pool" "home".
Definition node0 : ch := Ch w0 (Some pool) ∅.
Definition provider : string := "sao1node".
End ChainWorld.
Import ChainWorld TextCid.

Definition on_ret {S A} (r : outcome A * S) (P : A -> S -> Prop) : Prop :=
  match r with (Ret a, s) => P a s | _ => False end.

Definition migrated : outcome unit * ch := transact (TxMigrate provider ["data"]) node0.

Lemma transactions_sent_witness :
  migrated.1 = Ret tt /\ cw_sent (ch_c migrated.2) = [MsgMigrate "sao1pool" ["data"] provider] /\
  sent (TxMigrate provider ["data"]) node0 migrated.2.
Proof.
  split; [vm_compute; reflexivity|]. split; [vm_compute; reflexivity|].
  apply (transactions_sent (TxMigrate provider ["data"]) node0 migrated.2). vm_compute. reflexivity.
Defined.

Lemma transactions_balance_witness :
  ch_ap migrated.2 = Some pool /\ balanced provider node0 migrated.2.
Proof.
  split; [vm_compute; reflexivity|]. exact (transactions_balance (TxMigrate provider ["data"]) node0).
Defined.

(** One goroutine holds the address of the pool. *)
Definition leased : leases := Leases (ap_set "sao1pool" InUse pool) {[0%nat := "sao1pool"]}.

Lemma leases_exclusive_witness :
  ls_held leased !! 0%nat = Some "sao1pool" /\ lease_inv provider (ap_Addresses pool) leased.
Proof.
  split; [reflexivity|]. apply (leases_exclusive (C := cw) provider ltac:(done) pool leased).
  - reflexivity.
  - eapply rtc_once, (step_lease provider 0%nat "sao1pool" _ _ w0 w0 ∅); vm_compute; reflexivity.
Defined.

Lemma GetTx_returns_witness :
  on_ret (GetTx 4 "tx" 101 node0) (fun tx s => rt_Hash tx = "tx" /\ cw_height (ch_c s) = 102) /\
  (GetTx 2 "tx" 101 node0).1 = OutOfFuel.
Proof.
  destruct (GetTx_returns 4 "tx" 101 node0) as [_ Hret]. destruct (GetTx_returns 2 "tx" 101 node0) as [Hwait _]. split.
  - unfold on_ret. rewrite (Hret 2%nat); [vm_compute; done|lia| |vm_compute; intros H; by apply H].
    intros [|[|i]] Hi; [vm_compute; discriminate..|lia].
  - apply Hwait. intros [|[|i]] Hi; [vm_compute; discriminate..|lia].
Defined.

Definition meta_of (owner : string) : Metadata := MkMetadata "d" owner "" "" 7 [] "" [] "" 0 [7] 0 0 "c0" [] [].
Definition listing : ch :=
  Ch (Cw 100 ∅ ([meta_of "a"; meta_of "b"; meta_of "a"] ++ replicate 98 (meta_of "b")) []) None ∅.

Lemma ListMetaByDid_complete_witness :
  on_ret (ListMetaByDid 2 "a" listing) (fun l _ => length l = 2%nat) /\
  wp (ListMetaByDid (S (length (all_metadata (ch_c listing)) / 100)) "a") listing (fun o _ => match o with
    | Ret l => l = List.filter (fun m => String.eqb (md_Owner m) "a") (all_metadata (ch_c listing))
    | Fail _ => True
    | _ => False
    end).
Proof.
  split; [vm_compute; reflexivity|]. apply (ListMetaByDid_complete "a" listing). vm_compute. reflexivity.
Defined.

Definition created : outcome unit * cw := CreateAddressPool "home" 2 w0.

Lemma created_pool_loads_witness :
  created.1 = Ret tt /\ keys_kept "home" w0 created.2 /\
  has_key "home" created.2 1.
Proof.
  split; [vm_compute; reflexivity|].
  destruct (created_pool_loads (FileSys0 := Files) "home" "home" eq_refl 2 w0 created.2) as [Hk (p & c2 & _ & _ & Hh & _)];
    [vm_compute; reflexivity..|].
  split; [exact Hk|]. apply Hh. vm_compute. split; done.
Defined.

(** One call, before and after its step. *)
Definition one_call : gmap nat (string * Msg) := {[0%nat := ("sao1", MsgCreate "sao1")]}.
Definition called : bs := Bs w0 ∅ ∅ ∅ {[0%nat := CCreate "sao1" (MsgCreate "sao1")]}.

Lemma called_calm : calm (start w0 one_call) called.
Proof.
  split; [exact (step_missing 0%nat "sao1" (MsgCreate "sao1") (start w0 one_call) eq_refl eq_refl)|].
  intros t u p signer msg _ _ Hu. cbn in Hu. unfold one_call in Hu. rewrite map_fmap_singleton in Hu.
  apply lookup_singleton_Some in Hu as [_ <-]. cbn. tauto.
Defined.

(** Two callers that overlap: both loops have taken a job, one has found its account
    when a block comes, the other finds none and answers before the first broadcasts. *)
Definition two_calls : gmap nat (string * Msg) :=
  <[0%nat := ("sao1", MsgCreate "sao1")]> {[1%nat := ("nobody", MsgCreate "nobody")]}.
Definition next_block (c c' : cw) : Prop := c' = Cw (cw_height c + 1) (cw_keys c) (cw_metas c) (cw_sent c).
Definition w1 : cw := Cw (cw_height w0 + 1) (cw_keys w0) (cw_metas w0) (cw_sent w0).
Definition r_sao1 : Response + error := inl (MkResponse 0 "hash" (cw_height w1) []).
Definition r_nobody : Response + error := inr (Wrap ErrAccountNotFound (Some (EText "no account"))).

Ltac fresh_channel := intros ? E; cbn in E; repeat (apply lookup_insert_Some in E as [[? E]|[_ E]]);
  solve [discriminate|rewrite lookup_empty in E; discriminate].
Ltac goes lem := eapply rtc_l; [apply among_step; eapply lem; try reflexivity; try fresh_channel|cbn].

Lemma two_run : exists s, rtc (among next_block) (start w0 two_calls) s /\
  b_callers s !! 0%nat = Some (CDone r_sao1) /\ b_callers s !! 1%nat = Some (CDone r_nobody).
Proof.
  eexists. split; [|split].
  - goes (step_missing 0%nat "sao1" (MsgCreate "sao1")).
    goes (step_missing 1%nat "nobody" (MsgCreate "nobody")).
    goes (step_create 0%nat "sao1" (MsgCreate "sao1") 0%nat).
    goes (step_create 1%nat "nobody" (MsgCreate "nobody") 1%nat).
    goes (step_spawn 0%nat "sao1" (MsgCreate "sao1") 0%nat 0%nat).
    goes (step_spawn 1%nat "nobody" (MsgCreate "nobody") 1%nat 1%nat).
    goes (step_send 0%nat "sao1" (MsgCreate "sao1") 0%nat).
    goes (step_send 1%nat "nobody" (MsgCreate "nobody") 1%nat).
    goes (step_take 0%nat 0%nat (MkJob 0 "sao1" (MsgCreate "sao1") SNew)).
    goes (step_take 1%nat 1%nat (MkJob 1 "nobody" (MsgCreate "nobody") SNew)).
    goes (step_found 0%nat 0%nat "sao1" (MsgCreate "sao1") "sao1" w0).
    eapply rtc_l; [apply among_other; reflexivity|cbn].
    goes (step_unknown 1%nat 1%nat "nobody" (MsgCreate "nobody") (Wrap ErrAccountNotFound (Some (EText "no account"))) w1).
    goes (step_deliver 1%nat 1%nat "nobody" (MsgCreate "nobody") r_nobody).
    goes (step_tx 0%nat 0%nat "sao1" (MsgCreate "sao1") "sao1" r_sao1 (cw_set_sent (MsgCreate "sao1") w1)).
    goes (step_deliver 0%nat 0%nat "sao1" (MsgCreate "sao1") r_sao1).
    reflexivity.
  - reflexivity.
  - reflexivity.
Defined.

Lemma broadcasts_refine_witness :
  exists s a, rtc (among next_block) (start w0 two_calls) s /\
    rtc (spec_step next_block) (Spec w0 (direct_calls two_calls)) a /\ sp_c a = b_c s /\
    sp_calls a !! 0%nat = Some (KDone r_sao1) /\ sp_calls a !! 1%nat = Some (KDone r_nobody).
Proof.
  destruct two_run as (s & Hrun & H0 & H1).
  destruct (broadcasts_refine next_block w0 two_calls s Hrun) as (a & Ha & Hc & Hd & _).
  exists s, a. split; [exact Hrun|]. split; [exact Ha|]. split; [exact Hc|]. split; apply Hd; assumption.
Defined.

Definition busy : bs :=
  Bs w0 {["sao1" := 0%nat]} {[0%nat := 0%nat]} {[inr 0%nat := MkJob 0 "sao1" (MsgCreate "sao1") SNew]}
    {[0%nat := CWait "sao1" (MsgCreate "sao1")]}.

Lemma calm_delivers_witness : (1 <= 8 * size one_call)%nat.
Proof.
  refine (proj1 (calm_delivers w0 one_call called 1 _)). apply nsteps_once. exact called_calm.
Defined.

Lemma busy_reachable : rtc calm (start w0 one_call) busy.
Proof.
  eapply rtc_l; [exact called_calm|].
  eapply rtc_l.
  { eapply (calm_caller called 0%nat); [reflexivity|done|].
    apply (step_create 0%nat "sao1" (MsgCreate "sao1") 0%nat); [reflexivity|by intros ?|by intros ?|reflexivity]. }
  eapply rtc_l.
  { eapply (calm_caller _ 0%nat); [reflexivity|done|].
    by apply (step_spawn 0%nat "sao1" (MsgCreate "sao1") 0%nat 0%nat). }
  eapply rtc_l.
  { eapply (calm_caller _ 0%nat); [reflexivity|done|].
    by apply (step_send 0%nat "sao1" (MsgCreate "sao1") 0%nat). }
  eapply rtc_l.
  { apply calm_quiet; [by eapply (step_take 0%nat 0%nat)|]. intros t sg msg. cbn. done. }
  reflexivity.
Defined.

(** The loop that is busy is the only one. *)
Lemma calm_serial_witness : exists j, b_jobs busy !! inr 0%nat = Some j /\ 0%nat = 0%nat :> nat.
Proof.
  exists (MkJob 0 "sao1" (MsgCreate "sao1") SNew). split; [reflexivity|].
  exact (calm_serial w0 one_call busy 0 0 _ _ busy_reachable eq_refl eq_refl eq_refl).
Defined.
