(* ===== verification/Validator.v ===== *)
(** * Validation of models ([node/model/schema/validator], [node/model/rule_engine])

    A content is checked against a JSON schema and, when the order has a rule,
    against the rule.  The rule engine keeps the built rules and the data contexts
    by name, in one service for the whole process.  The JSON library, the schema
    compiler and the rule engine proper are libraries ([JsonLib], [SchemaLib],
    [RuleLib]). *)
From stdpp Require Import base list gmap strings.
From Stdlib Require Import ZArith Lia Ascii.
From S2P Require Import Prelude Types ChainApi.

(** ** The libraries *)

(** jsoniter: a lazily parsed value, and the generic value it stands for. *)
Class JsonLib := {
  Any : Type;
  Doc : Type;
  json_Get : bytes -> Any;
  json_Marshal : Any -> bytes + error;
  GetInterface : Any -> Doc
}.

(** What is wrong with a document: the causes (location and message) of a
    [ValidationError], or another error. *)
Inductive schema_error :=
| ValidationError (causes : list (string * string)) (text : error)
| OtherError (err : error).
Definition schema_text (e : schema_error) : error :=
  match e with ValidationError _ t => t | OtherError t => t end.

(** The schema compiler, for draft 7; compiling may fetch other documents. *)
Class SchemaLib (X : Type) `{!JsonLib} := {
  Compiler : Type;
  Schema : Type;
  NewCompiler : Compiler;
  AddResource : Compiler -> string -> string -> Compiler + error;
  Compile : Compiler -> string -> call X Schema;
  sch_Validate : Schema -> Doc -> option schema_error
}.

(** The verdict, an object the rules of an execution write to. *)
Record Result := MkResult { IsValid : bool; Reason : string }.
Inductive fact `{!JsonLib} := FAny (a : Any) | FResult.

(** grule: rules are built into a library under a name and a version; a data
    context has named facts.  An execution may change the context, the knowledge
    base and the verdict. *)
Class RuleLib `{!JsonLib} := {
  KnowledgeLibrary : Type;
  KnowledgeBase : Type;
  DataContext : Type;
  NewKnowledgeLibrary : KnowledgeLibrary;
  ParseJSONRule : bytes -> string + error;
  BuildRule : string -> string -> string -> KnowledgeLibrary -> (unit + error) * KnowledgeLibrary;
  NewKnowledgeBaseInstance : string -> string -> KnowledgeLibrary -> option KnowledgeBase;
  NewDataContext : DataContext;
  ctx_Add : string -> fact -> DataContext -> (unit + error) * DataContext;
  ctx_Reset : DataContext -> DataContext;
  engine_Execute : DataContext -> KnowledgeBase -> Result ->
    (unit + error) * DataContext * KnowledgeBase * Result
}.

Section Validator.
Context `{!JsonLib, !RuleLib} {X : Type} `{!SchemaLib X, !GoRange}.

(** ** The rule engine: a nil entry of a map is [Some None] *)
Record RuleEngineSvc := MkRuleEngineSvc {
  re_library : KnowledgeLibrary;
  re_rules : gmap string (option KnowledgeBase);
  re_ctxs : gmap string (option DataContext)
}.
Definition NewRuleEngineSvc : RuleEngineSvc := MkRuleEngineSvc NewKnowledgeLibrary ∅ ∅.

Definition set_library (l : KnowledgeLibrary) (r : RuleEngineSvc) : RuleEngineSvc :=
  MkRuleEngineSvc l (re_rules r) (re_ctxs r).
Definition set_rule (name : string) (kb : option KnowledgeBase) (r : RuleEngineSvc) : RuleEngineSvc :=
  MkRuleEngineSvc (re_library r) (<[name := kb]> (re_rules r)) (re_ctxs r).
Definition set_ctx (name : string) (c : option DataContext) (r : RuleEngineSvc) : RuleEngineSvc :=
  MkRuleEngineSvc (re_library r) (re_rules r) (<[name := c]> (re_ctxs r)).

Definition AddRule (name : string) (jsonData : bytes) : GoM RuleEngineSvc unit :=
  rule <- lift (ParseJSONRule jsonData) ;;
  built <- gets (fun r => BuildRule name "v0" rule (re_library r)) ;;
  modify (set_library built.2) ;;
  lift built.1 ;;
  modify (fun r => set_rule name (NewKnowledgeBaseInstance name "v0" (re_library r)) r).

(** The context of a name, made when there is none. *)
Definition get_ctx (dataCtxName : string) : GoM RuleEngineSvc DataContext :=
  c <- gets (fun r => mjoin (re_ctxs r !! dataCtxName)) ;;
  match c with
  | Some c => ret c
  | None => modify (set_ctx dataCtxName (Some NewDataContext)) ;; ret NewDataContext
  end.

Definition AddFact (dataCtxName factName : string) (f : fact) : GoM RuleEngineSvc unit :=
  dataCtx <- get_ctx dataCtxName ;;
  let added := ctx_Add factName f dataCtx in
  modify (set_ctx dataCtxName (Some added.2)) ;;
  lift added.1.

Definition Reset_ctx (dataCtxName : string) : GoM RuleEngineSvc unit :=
  dataCtx <- get_ctx dataCtxName ;;
  modify (set_ctx dataCtxName (Some (ctx_Reset dataCtx))).

Definition Clear_ctx (dataCtxName : string) : GoM RuleEngineSvc unit :=
  c <- gets (fun r => mjoin (re_ctxs r !! dataCtxName)) ;;
  match c with
  | Some _ => modify (set_ctx dataCtxName None)
  | None => ret tt
  end.

(** [result] is the object the fact [Result] points to; what the rules made of it
    is returned, also next to an error. *)
Definition Execute (ruleName dataCtxName : string) (result : Result) :
    GoM RuleEngineSvc (Result * option error) :=
  knowledgeBase <- gets (fun r => mjoin (re_rules r !! ruleName)) ;;
  match knowledgeBase with
  | None => ret (result, Some (Wrapf ErrRuleExcuteFaild ("the rule [" +:+ ruleName +:+ "] not found")))
  | Some kb =>
      dataCtx <- gets (fun r => mjoin (re_ctxs r !! dataCtxName)) ;;
      match dataCtx with
      | None => ret (result, Some (Wrapf ErrRuleExcuteFaild
                  ("the datacontext [" +:+ dataCtxName +:+ "] not found")))
      | Some ctx =>
          let '(err, ctx', kb', result') := engine_Execute ctx kb result in
          modify (set_ctx dataCtxName (Some ctx')) ;;
          modify (set_rule ruleName (Some kb')) ;;
          ret (result', match err with inl _ => None | inr e => Some e end)
      end
  end.

(** ** The validator *)
Definition Draft7_Url : string := "https://json-schema.org/draft-07/schema".
Definition Prefix_Context : string := "Context_".
Definition Prefix_Rule : string := "Rule_".

Record Validator := MkValidator { v_name : string; v_sch : Schema; v_svc : bool }.

(** The rule engine, and what the schema compiler reaches. *)
Record vstate := VState { vs_x : X; vs_rules : RuleEngineSvc }.
Definition on_x {A} (m : GoM X A) : GoM vstate A := zoom vs_x (fun x s => VState x (vs_rules s)) m.
Definition on_rules {A} (m : GoM RuleEngineSvc A) : GoM vstate A :=
  zoom vs_rules (fun r s => VState (vs_x s) r) m.

Definition NewDataModelValidator (dmName dmSchema dmRule : string) : GoM vstate Validator :=
  let url := dmName +:+ ".json" in
  r <- (if negb (String.eqb dmSchema "") then
          match AddResource NewCompiler url dmSchema with
          | inr err => fail (Wrap ErrAddResourceFaild (Some err))
          | inl compiler => ret (compiler, url)
          end
        else ret (NewCompiler, Draft7_Url)) ;;
  try schema <- on_x (invoke (Compile r.1 r.2))
    catch err => fail (Wrap ErrCompileFaild (Some err)) ;;
  if negb (String.eqb dmRule "") then
    try _u <- on_rules (AddRule (Prefix_Rule +:+ dmName) (string_bytes dmRule))
      catch err => fail (Wrap ErrAddRuleFaild (Some err)) ;;
    ret (MkValidator dmName schema true)
  else ret (MkValidator dmName schema false).

Definition add_fact (ctx name : string) (f : fact) : GoM vstate unit :=
  try _u <- on_rules (AddFact ctx name f)
    catch err => fail (Wrap ErrAddFactFaild (Some err)) ;; ret tt.

(** The field of a location, without its leading slash. *)
Definition field_of (location : string) : string :=
  match location with
  | String c rest => if Ascii.eqb c "/" then rest else location
  | EmptyString => EmptyString
  end.

Definition check_failed (err : schema_error) : error :=
  match err with
  | ValidationError [(location, message)] _ =>
      Wrapf ErrSchemaCheckFaild ("validation failed, invalid field '" +:+ field_of location
        +:+ "' due to '" +:+ message +:+ "'")
  | _ => Wrap ErrSchemaCheckFaild (Some (schema_text err))
  end.

Definition ValidateWithRef (v : Validator) (dmContent : Any) (refContents : gmap string Any) :
    GoM vstate unit :=
  match json_Marshal dmContent with
  | inr err => fail (Wrap ErrMarshalFailed (Some err))
  | inl model =>
  let doc := GetInterface (json_Get model) in
  match sch_Validate (v_sch v) doc with
  | Some err => fail (check_failed err)
  | None =>
  if negb (v_svc v) then ret tt else
  let ctx := Prefix_Context +:+ v_name v in
  on_rules (Reset_ctx ctx) ;;
  add_fact ctx (v_name v) (FAny dmContent) ;;
  for_each (range refContents) (fun p => add_fact ctx p.1 (FAny p.2)) ;;
  add_fact ctx "Result" FResult ;;
  r <- on_rules (Execute (Prefix_Rule +:+ v_name v) ctx (MkResult true "")) ;;
  match r.2 with
  | Some err => fail (Wrap ErrRuleExcuteFaild (Some err))
  | None =>
      if IsValid r.1 then ret tt
      else fail (Wrapf ErrRuleCheckFaild
                   ("failed to pass the rule check due to " +:+ Reason r.1))
  end end end.

Definition Validate (v : Validator) (dmContent : Any) : GoM vstate unit :=
  ValidateWithRef v dmContent ∅.

(** ** What is accepted *)

(** The rule of the validator, run on a context with the content and a verdict and
    nothing else, leaves the verdict valid. *)
Definition passes_rule (v : Validator) (a : Any) (r : RuleEngineSvc) : Prop :=
  let ctx := default NewDataContext (mjoin (re_ctxs r !! (Prefix_Context +:+ v_name v))) in
  exists kb c1 c2 c3 kb' result,
    mjoin (re_rules r !! (Prefix_Rule +:+ v_name v)) = Some kb /\
    ctx_Add (v_name v) (FAny a) (ctx_Reset ctx) = (inl tt, c1) /\
    ctx_Add "Result" FResult c1 = (inl tt, c2) /\
    engine_Execute c2 kb (MkResult true "") = (inl tt, c3, kb', result) /\ IsValid result = true.

(** The state with a context under a name, and the rules of [r]. *)
Definition in_context (s : vstate) (ctx : string) (c : DataContext) (s' : vstate) : Prop :=
  mjoin (re_ctxs (vs_rules s') !! ctx) = Some c /\ re_rules (vs_rules s') = re_rules (vs_rules s).

Lemma get_ctx_run ctx r :
  exists r', get_ctx ctx r = (Ret (default NewDataContext (mjoin (re_ctxs r !! ctx))), r') /\
    re_rules r' = re_rules r.
Proof.
  unfold get_ctx, bind, gets. destruct (mjoin (re_ctxs r !! ctx)); cbn; eauto.
Qed.

Lemma Reset_run ctx s :
  exists s', on_rules (Reset_ctx ctx) s = (Ret tt, s') /\
    in_context s ctx (ctx_Reset (default NewDataContext (mjoin (re_ctxs (vs_rules s) !! ctx)))) s'.
Proof.
  unfold Reset_ctx, on_rules, zoom, bind.
  destruct (get_ctx_run ctx (vs_rules s)) as (r' & -> & Hr). eexists. split; [reflexivity|].
  split; [|done]. cbn. by rewrite lookup_insert_eq.
Qed.

Lemma add_fact_run s0 ctx c name f s :
  in_context s0 ctx c s ->
  match ctx_Add name f c with
  | (inl _, c') => exists s', add_fact ctx name f s = (Ret tt, s') /\ in_context s0 ctx c' s'
  | (inr err, _) => (add_fact ctx name f s).1 = Fail (Wrap ErrAddFactFaild (Some err))
  end.
Proof.
  intros [Hc Hr]. unfold add_fact, AddFact, on_rules, zoom, or_else, attempt, get_ctx, bind, gets.
  rewrite Hc. cbn. destruct (ctx_Add name f c) as [[[]|err] c']; cbn; [|done].
  eexists. split; [reflexivity|]. split; [|done]. cbn. by rewrite lookup_insert_eq.
Qed.

Lemma Execute_run s0 rule ctx c s result :
  in_context s0 ctx c s ->
  (on_rules (Execute rule ctx result) s).1 =
    match mjoin (re_rules (vs_rules s0) !! rule) with
    | None => Ret (result, Some (Wrapf ErrRuleExcuteFaild ("the rule [" +:+ rule +:+ "] not found")))
    | Some kb => let '(err, _, _, result') := engine_Execute c kb result in
                 Ret (result', match err with inl _ => None | inr e => Some e end)
    end.
Proof.
  intros [Hc Hr]. unfold Execute, on_rules, zoom, bind, gets. rewrite <-Hr.
  destruct (mjoin (re_rules _ !! rule)) as [kb|]; [|done]. rewrite Hc.
  by destruct (engine_Execute c kb result) as [[[err c'] kb'] result'].
Qed.

Lemma bind_fst {S A B} (m : GoM S A) (k : A -> GoM S B) s :
  (bind m k s).1 = match m s with
                   | (Ret a, s') => (k a s').1 | (Fail e, _) => Fail e
                   | (Panic, _) => Panic | (OutOfFuel, _) => OutOfFuel
                   end.
Proof. unfold bind. by destruct (m s) as [[] s']. Qed.

(** A content is accepted exactly when it can be printed, the schema accepts the
    printed document and, for an order with a rule, the rule that was built under the
    name of the model runs without an error, on a context that was reset and has the
    content and the verdict only, and leaves the verdict valid. *)
Theorem Validate_accepts `{!GoRangeLaws} v a s :
  (Validate v a s).1 = Ret tt <->
  (exists b, json_Marshal a = inl b /\ sch_Validate (v_sch v) (GetInterface (json_Get b)) = None) /\
  (v_svc v = true -> passes_rule v a (vs_rules s)).
Proof.
  unfold Validate, ValidateWithRef, passes_rule. cbv zeta.
  destruct (json_Marshal a) as [b|err]; [|split; [intros [=]|intros [(b & [=] & _) _]]].
  destruct (sch_Validate _ _) as [err|] eqn:Esch.
  { split; [done|]. intros [(b' & [= <-] & E) _]. congruence. }
  destruct (v_svc v); cbn [negb]; [|split; [intros _; split; [eauto|done]|done]].
  set (ctx := Prefix_Context +:+ v_name v). set (c0 := default NewDataContext _).
  transitivity (exists kb c1 c2 c3 kb' result,
    mjoin (re_rules (vs_rules s) !! (Prefix_Rule +:+ v_name v)) = Some kb /\
    ctx_Add (v_name v) (FAny a) (ctx_Reset c0) = (inl tt, c1) /\
    ctx_Add "Result" FResult c1 = (inl tt, c2) /\
    engine_Execute c2 kb (MkResult true "") = (inl tt, c3, kb', result) /\ IsValid result = true).
  2: { split; [intros Hp; split; [eauto|done]|intros [_ Hp]; by apply Hp]. }
  assert (range (∅ : gmap string Any) = []) as ->.
  { apply Permutation_nil. by rewrite range_perm, map_to_list_empty. }
  destruct (Reset_run ctx s) as (s1 & E1 & C1). fold c0 in C1. rewrite bind_fst, E1.
  pose proof (add_fact_run s ctx _ (v_name v) (FAny a) s1 C1) as Ha1.
  destruct (ctx_Add (v_name v) (FAny a) (ctx_Reset c0)) as [[[]|err] c1].
  2: { rewrite bind_fst. destruct (add_fact _ _ _ s1) as [o s2]. cbn in Ha1. rewrite Ha1.
    split; [done|]. by intros (kb & d1 & d2 & d3 & kb' & r & _ & [=] & _). }
  destruct Ha1 as (s2 & E2 & C2). rewrite bind_fst, E2. rewrite bind_fst. cbn [for_each ret].
  pose proof (add_fact_run s ctx _ "Result" FResult s2 C2) as Ha2. rewrite bind_fst.
  destruct (ctx_Add "Result" FResult c1) as [[[]|err] c2] eqn:Ec2.
  2: { destruct (add_fact _ _ _ s2) as [o s3]. cbn in Ha2. rewrite Ha2.
    split; [done|]. intros (kb & d1 & d2 & d3 & kb' & r & _ & [= <-] & E & _). congruence. }
  destruct Ha2 as (s3 & E3 & C3). rewrite E3, bind_fst.
  pose proof (Execute_run s (Prefix_Rule +:+ v_name v) ctx c2 s3 (MkResult true "") C3) as Ha3.
  destruct (on_rules _ s3) as [o s4]. cbn in Ha3. subst o.
  destruct (mjoin (re_rules (vs_rules s) !! _)) as [kb|].
  2: { split; [done|]. by intros (kb & d1 & d2 & d3 & kb' & r & [=] & _). }
  destruct (engine_Execute c2 kb (MkResult true "")) as [[[[[]|err] c3] kb'] result] eqn:Ee; cbn.
  - destruct (IsValid result) eqn:Ev; split; try done.
    + intros _. by exists kb, c1, c2, c3, kb', result.
    + intros (kb2 & d1 & d2 & d3 & kb3 & r & [= <-] & [= <-] & E & Ee' & Hv).
      rewrite Ec2 in E. injection E as <-. congruence.
  - split; [done|]. intros (kb2 & d1 & d2 & d3 & kb3 & r & [= <-] & [= <-] & E & Ee' & Hv).
    rewrite Ec2 in E. injection E as <-. congruence.
Qed.
End Validator.
