(* ===== verification/ModelManager.v ===== *)
(** * The model manager ([node/model/manager.go], [utils/model.go])

    The manager sits between the API and the gateway: it loads models through the
    cache ([Load]), creates and updates them ([Create], [Update]) after checking
    their content, and forwards the other requests.

    The cache has pointers to models, and the manager changes the model behind a
    cached pointer in place; so the state [mm] has a heap of models, and a load or
    a commit returns a pointer into it.  The gateway and the cache are interfaces
    ([GatewaySvcApi], [CacheSvcApi]); [mm_calls] records the calls of the gateway
    with their results.  Slices are values: appending to a slice makes a new one. *)
From stdpp Require Import base list gmap strings.
From Stdlib Require Import ZArith Lia Ascii.
From S2P Require Import Prelude Types ChainApi Gateway Validator.

Abbreviation ptr := nat.

(** ** The gateway, as the manager sees it *)

(** The fields of the proposals that the manager reads. *)
Class ProposalFields (W : Type) `{!GatewayChain W} := {
  otp_Owner : OrderTerminateProposal -> string;
  otp_DataId : OrderTerminateProposal -> string;
  orp_Owner : OrderRenewProposal -> string;
  pmp_Owner : PermissionProposal -> string;
  pmp_DataId : PermissionProposal -> string
}.

Class GatewaySvcApi (G W : Type) `{!GatewayChain W} := {
  api_QueryMeta : MetadataProposal -> Z -> GoM G Model;
  api_FetchContent : MetadataProposal -> Model -> GoM G FetchResult;
  api_CommitModel : OrderStoreProposal -> Z -> bytes -> GoM G CommitResult;
  api_TerminateOrder : OrderTerminateProposal -> GoM G unit;
  api_RenewOrder : OrderRenewProposal -> GoM G (gmap string string);
  api_UpdateModelPermission : PermissionProposal -> GoM G unit
}.

(** ** The cache *)

(** What the manager puts into the cache, or may find in it. *)
Inductive cached := CText (s : string) | CModel (p : ptr).

Class CacheSvcApi (C : Type) := {
  cache_CreateCache : string -> Z -> GoM C unit;
  cache_Get : string -> string -> GoM C (option cached);
  cache_Put : string -> string -> cached -> GoM C unit;
  cache_Evict : string -> string -> GoM C unit
}.

(** ** Libraries *)

(** Patches of JSON documents; [None] is a panic. *)
Class PatchLib := {
  Patch : Type;
  DecodePatch : bytes -> option (Patch + error);
  patch_Apply : Patch -> bytes -> option (bytes + error);
  PatchOp : Type;
  op_Operation : PatchOp -> string;
  op_Json : PatchOp -> string;
  json_Valid : bytes -> option error;           (* json.Unmarshal *)
  CreatePatch : bytes -> bytes -> option (list PatchOp + error)
}.

(** The property [@context] of a content, and the identifiers of models. *)
Class ContextLib := {
  json_context : bytes -> string;               (* jsoniter.Get(b, "@context").ToString() *)
  Elem : Type;
  read_array : string -> list Elem;             (* the elements ReadArrayCB visits *)
  elem_string : Elem -> option string;
  Sprint_elem : Elem -> string;
  read_string : string -> string;               (* ReadString *)
  read_object : string -> string;               (* ReadObject, after ReadString *)
  IsDataId : string -> bool                     (* a uuid *)
}.

(** ** Patches ([utils/model.go]) *)
Section Patches.
Context `{!PatchLib}.

(** A panic of the library is recovered: the results are then zero. *)
Definition ApplyPatch (jsonDataOrg patch : bytes) : bytes + error :=
  match DecodePatch patch with
  | None => inl []
  | Some (inr err) => inr (Wrap ErrCreatePatchFailed (Some err))
  | Some (inl patcher) =>
      match patch_Apply patcher jsonDataOrg with
      | None => inl []
      | Some (inr err) => inr (Wrap ErrCreatePatchFailed (Some err))
      | Some (inl target) => inl target
      end
  end.

(** The loops that print the operations: [operations] is the text so far. *)
Definition print_operation (operations operation : string) : string :=
  (if String.eqb operations "[" then operations else operations +:+ ",") +:+ operation.

Fixpoint split_operations (patchs : list PatchOp) (removeOperations otherOperations : list string) :
    list string * list string :=
  match patchs with
  | [] => (removeOperations, otherOperations)
  | operation :: rest =>
      if String.eqb (op_Operation operation) "remove"
      then split_operations rest (removeOperations ++ [op_Json operation]) otherOperations
      else split_operations rest removeOperations (otherOperations ++ [op_Json operation])
  end.

(** [for len(removeOperations) > 0], taking the last one. *)
Fixpoint print_removes (fuel : nat) (operations : string) (removeOperations : list string) : string :=
  match fuel, last removeOperations with
  | S fuel', Some operation =>
      print_removes fuel' (print_operation operations operation)
        (take (length removeOperations - 1) removeOperations)
  | _, _ => operations
  end.

Definition GeneratePatch (contentOrigin contentTarget : string) : string + error :=
  match json_Valid (string_bytes contentOrigin) with
  | Some err => inr (Wrap ErrUnMarshalFailed (Some err))
  | None =>
      match CreatePatch (string_bytes contentOrigin) (string_bytes contentTarget) with
      | None => inl ""
      | Some (inr err) => inr (Wrap ErrCreatePatchFailed (Some err))
      | Some (inl patchs) =>
          let '(removeOperations, otherOperations) := split_operations patchs [] [] in
          let operations := print_removes (length removeOperations) "[" removeOperations in
          inl (foldl print_operation operations otherOperations +:+ "]")
      end
  end.
End Patches.

(** ** The manager *)

(** A call of the gateway and its result. *)
Inductive gw_call `{!GatewayChain W} :=
| CallQueryMeta (req : MetadataProposal) (height : Z) (r : Model + error)
| CallFetchContent (req : MetadataProposal) (meta : Model) (r : FetchResult + error)
| CallCommitModel (p : OrderStoreProposal) (orderId : Z) (content : bytes) (r : CommitResult + error)
| CallTerminate (req : OrderTerminateProposal) (r : unit + error)
| CallRenew (req : OrderRenewProposal) (r : gmap string string + error)
| CallPermission (req : PermissionProposal) (r : unit + error).

Section Manager.
Context `{!CidLib, !ErrorText, !JsonLib, !RuleLib, !GoRange, !PatchLib, !ContextLib}
        {G W C X : Type} `{!SchemaLib X, !GatewayChain W, !ProposalFields W,
        !GatewaySvcApi G W, !CacheSvcApi C}.
(** The configuration of the cache. *)
Context (EnableCache : bool) (CacheCapacity ContentLimit : Z).

Record mm := Mm {
  mm_gw : G;
  mm_cache : C;
  mm_heap : gmap ptr Model;
  mm_fresh : ptr;
  mm_valid : vstate (X := X);
  mm_calls : list (gw_call (W := W))
}.

Definition on_gw {A} (m : GoM G A) : GoM mm A :=
  zoom mm_gw (fun g s => Mm g (mm_cache s) (mm_heap s) (mm_fresh s) (mm_valid s) (mm_calls s)) m.
Definition on_cache {A} (m : GoM C A) : GoM mm A :=
  zoom mm_cache (fun c s => Mm (mm_gw s) c (mm_heap s) (mm_fresh s) (mm_valid s) (mm_calls s)) m.
Definition on_valid {A} (m : GoM vstate A) : GoM mm A :=
  zoom mm_valid (fun v s => Mm (mm_gw s) (mm_cache s) (mm_heap s) (mm_fresh s) v (mm_calls s)) m.
Definition emit (c : gw_call) : GoM mm unit :=
  modify (fun s => Mm (mm_gw s) (mm_cache s) (mm_heap s) (mm_fresh s) (mm_valid s)
                     (mm_calls s ++ [c])).
Definition recorded {A} (ev : A + error -> gw_call) (m : GoM G A) : GoM mm A :=
  r <- attempt (on_gw m) ;; emit (ev r) ;; lift r.

Definition call_QueryMeta (req : MetadataProposal) (height : Z) : GoM mm Model :=
  recorded (CallQueryMeta req height) (api_QueryMeta req height).
Definition call_FetchContent (req : MetadataProposal) (meta : Model) : GoM mm FetchResult :=
  recorded (CallFetchContent req meta) (api_FetchContent req meta).
Definition call_CommitModel (p : OrderStoreProposal) (orderId : Z) (content : bytes) : GoM mm CommitResult :=
  recorded (CallCommitModel p orderId content) (api_CommitModel p orderId content).

(** Models behind pointers. *)
Definition new (m : Model) : GoM mm ptr := fun s =>
  (Ret (mm_fresh s), Mm (mm_gw s) (mm_cache s) (<[mm_fresh s := m]> (mm_heap s)) (S (mm_fresh s))
                        (mm_valid s) (mm_calls s)).
Definition load (p : ptr) : GoM mm Model := h <- gets mm_heap ;; deref (h !! p).
Definition store (p : ptr) (f : Model -> Model) : GoM mm unit :=
  _m <- load p ;;
  modify (fun s => Mm (mm_gw s) (mm_cache s) (alter f p (mm_heap s)) (mm_fresh s) (mm_valid s)
                     (mm_calls s)).

Definition mo_set_Content (c : bytes) (m : Model) : Model :=
  MkModel (mo_DataId m) (mo_Alias m) (mo_GroupId m) (mo_OrderId m) (mo_Owner m) (mo_Tags m)
    (mo_Cid m) (mo_Shards m) (mo_CommitId m) (mo_Commits m) (mo_Version m) c (mo_ExtendInfo m).
(** The fields of the metadata [meta] that a cached model takes over. *)
Definition mo_set_Meta (meta m : Model) : Model :=
  MkModel (mo_DataId m) (mo_Alias m) (mo_GroupId m) (mo_OrderId meta) (mo_Owner m) (mo_Tags m)
    (mo_Cid meta) (mo_Shards meta) (mo_CommitId meta) (mo_Commits meta) (mo_Version m)
    (mo_Content m) (mo_ExtendInfo meta).
Definition mo_set_Fetched (cid version : string) (content : bytes) (m : Model) : Model :=
  MkModel (mo_DataId m) (mo_Alias m) (mo_GroupId m) (mo_OrderId m) (mo_Owner m) (mo_Tags m)
    cid (mo_Shards m) (mo_CommitId m) (mo_Commits m) version content (mo_ExtendInfo m).
(** A new model with the metadata. *)
Definition model_of_meta (meta : Model) : Model :=
  MkModel (mo_DataId meta) (mo_Alias meta) (mo_GroupId meta) (mo_OrderId meta) (mo_Owner meta)
    (mo_Tags meta) (mo_Cid meta) (mo_Shards meta) (mo_CommitId meta) (mo_Commits meta) "" []
    (mo_ExtendInfo meta).

(** *** The cached models *)
Definition missing (account : string) : string := "the cache [" +:+ account +:+ "] not found".

Definition loadModel (account key : string) : GoM mm (option ptr) :=
  if negb EnableCache then ret None else
  value <- attempt (on_cache (cache_Get account key)) ;;
  match value with
  | inr err =>
      (if Contains (Error err) (missing account)
       then ignore (on_cache (cache_CreateCache account CacheCapacity)) else ret tt) ;;
      ret None
  | inl None => ret None
  | inl (Some (CModel model)) => ret (Some model)
  | inl (Some (CText dataId)) =>
      value <- attempt (on_cache (cache_Get account dataId)) ;;
      match value with
      | inl (Some (CModel model)) => ret (Some model)
      | _ => ret None
      end
  end.

Definition cacheModel (account : string) (model : ptr) : GoM mm unit :=
  if negb EnableCache then ret tt else
  m <- load model ;;
  (if ContentLimit <? Z.of_nat (length (mo_Content m))
   then store model (mo_set_Content []) else ret tt) ;;
  on_cache (cache_Put account (mo_DataId m +:+ mo_CommitId m) (CModel model)) ;;
  on_cache (cache_Put account (mo_Alias m +:+ mo_CommitId m) (CModel model)).

(** *** Loading *)

(** The regular expression of a version: [v] and digits. *)
Definition is_digit (c : ascii) : bool := match digit_value c with Some _ => true | None => false end.
Definition is_version (s : string) : bool :=
  match s with
  | String c (String d rest) => Ascii.eqb c "v" && is_digit d && all_chars is_digit rest
  | _ => false
  end.

(** [strings.ReplaceAll(s, "v", "")] *)
Fixpoint remove_v (s : string) : string :=
  match s with
  | EmptyString => EmptyString
  | String c rest => if Ascii.eqb c "v" then remove_v rest else String c (remove_v rest)
  end.

(** [strconv.Atoi] of digits: an [int], or a range error. *)
Definition Atoi (s : string) : Z + error :=
  match ParseUint s with
  | Some n => if n <? two63 then inl n else inr (EText "value out of range")
  | None => inr (EText "value out of range")
  end.

Definition bad_version (v : string) : error := Wrapf ErrInvalidVersion ("invalid Version: " +:+ v).
Definition bad_commit (commit : string) : error :=
  Wrapf ErrInvalidCommitInfo ("invalid commit information: " +:+ commit).
(** [fmt.Sprintf("v%d", n)] *)
Definition version_text (n : Z) : string := "v" +:+ format_d n.

(** The metadata of the requested version, and the version. *)
Definition select_version (req : MetadataProposal) (meta : Model) : GoM mm (Model * string) :=
  let v := qp_Version (mtp_Proposal req) in
  if String.eqb v "" then ret (meta, version_text (Z.of_nat (length (mo_Commits meta)) - 1)) else
  if negb (is_version v) then fail (bad_version v) else
  match Atoi (remove_v v) with
  | inr err => fail (Wrap ErrInvalidVersion (Some err))
  | inl index =>
      match mo_Commits meta !! Z.to_nat index with
      | None => fail (bad_version v)
      | Some commit =>
          match ParseMetaCommit commit with
          | inr _ => fail (bad_commit commit)
          | inl commitInfo =>
              meta <- call_QueryMeta req (wrap_i64 (mc_Height commitInfo)) ;; ret (meta, v)
          end
      end
  end.

(** The loop over the commits, from the commit [i] on. *)
Fixpoint find_commit (req : MetadataProposal) (i : Z) (commits : list string) :
    GoM mm (Model * string) :=
  let c := qp_CommitId (mtp_Proposal req) in
  match commits with
  | [] => fail (Wrapf ErrInvalidCommitInfo ("invalid CommitId: " +:+ c))
  | commit :: rest =>
      match ParseMetaCommit commit with
      | inr _ => fail (bad_commit commit)
      | inl commitInfo =>
          if String.eqb (mc_CommitId commitInfo) c then
            meta <- call_QueryMeta req (wrap_i64 (mc_Height commitInfo)) ;; ret (meta, version_text i)
          else find_commit req (i + 1) rest
      end
  end.

Definition select_commit (req : MetadataProposal) (sel : Model * string) : GoM mm (Model * string) :=
  if String.eqb (qp_CommitId (mtp_Proposal req)) "" then ret sel
  else find_commit req 0 (mo_Commits sel.1).

(** The cached model is the latest one, and the one that is wanted. *)
Definition is_hit (req : MetadataProposal) (meta m : Model) : bool :=
  let c := qp_CommitId (mtp_Proposal req) in
  (String.eqb c "" || String.eqb (mo_CommitId m) c) && (0 <? Z.of_nat (length (mo_Content m))) &&
  String.eqb (mo_CommitId meta) (mo_CommitId m).

(** The key of a cached model: [strings.Split(commitId, "\032")[0]] is never missing. *)
Definition load_key (req : MetadataProposal) (meta : Model) : string :=
  qp_Keyword (mtp_Proposal req) +:+ hd "" (Split (mo_CommitId meta) commit_sep).

Definition Load (req : MetadataProposal) : GoM mm ptr :=
  meta <- call_QueryMeta req 0 ;;
  model <- loadModel (mo_Owner meta) (load_key req meta) ;;
  hit <- match model with
         | Some p => m <- load p ;; ret (is_hit req meta m)
         | None => ret false
         end ;;
  match hit, model with
  | true, Some p => ret p
  | _, _ =>
      sel <- select_version req meta ;;
      sel <- select_commit req sel ;;
      let meta := sel.1 in
      p <- match model with
           | None => new (model_of_meta meta)
           | Some p => store p (mo_set_Meta meta) ;; ret p
           end ;;
      result <- call_FetchContent req meta ;;
      store p (mo_set_Fetched (fr_Cid result) sel.2 (fr_Content result)) ;;
      cacheModel (qp_Owner (mtp_Proposal req)) p ;;
      ret p
  end.

(** *** Validating *)

(** The regular expression of an array: brackets, and no newline between them. *)
Definition newline : ascii := "010".
Definition is_array (s : string) : bool :=
  match s with
  | String c rest =>
      match last (String.list_ascii_of_string rest) with
      | Some d => Ascii.eqb c "[" && Ascii.eqb d "]" &&
                  forallb (fun x => negb (Ascii.eqb x newline))
                    (String.list_ascii_of_string (String.substring 0 (String.length rest - 1) rest))
      | None => false
      end
  | EmptyString => false
  end.

Definition schema_request (dataId : string) : MetadataProposal :=
  MkMetadataProposal (MkQueryProposal "all" dataId "" 0 0 "" "" "") (MkJwsSignature "" "").

(** The content of the model that is used as a schema. *)
Definition resolve_schema (account dataId : string) : GoM mm string :=
  model <- on_cache (cache_Get account dataId) ;;
  model <- match model with
           | Some v => ret v
           | None => p <- Load (schema_request dataId) ;; ret (CModel p)
           end ;;
  match model with
  | CModel p => m <- load p ;; ret (bytes_string (mo_Content m))
  | CText _ => fail (Wrapf ErrInvalidSchema "invalid schema: <nil>")
  end.

Definition check_schema (alias schema rule : string) (contentBytes : bytes) : GoM mm unit :=
  on_valid (v <- NewDataModelValidator alias schema rule ;; Validate v (json_Get contentBytes)).

Definition check_element (account alias : string) (contentBytes : bytes) (rule : string)
    (schema : Elem) : GoM mm unit :=
  match elem_string schema with
  | Some sch =>
      if String.eqb sch "" then fail (Wrapf ErrInvalidSchema ("invalid schema: " +:+ Sprint_elem schema))
      else
      sch <- (if IsDataId sch then resolve_schema account sch else ret sch) ;;
      check_schema alias sch rule contentBytes
  | None => fail (Wrapf ErrInvalidSchema ("invalid schema: " +:+ Sprint_elem schema))
  end.

Definition validateModel (account alias : string) (contentBytes : bytes) (rule : string) :
    GoM mm unit :=
  let schemaStr := json_context contentBytes in
  if String.eqb schemaStr "" then ret tt else
  if is_array schemaStr then
    for_each (read_array schemaStr) (check_element account alias contentBytes rule)
  else
    let dataId := read_string schemaStr in
    schema <- (if IsDataId dataId then resolve_schema account dataId
               else ret (read_object schemaStr)) ;;
    check_schema alias schema rule contentBytes.

(** *** Creating and updating *)
Definition existing (alias dataId : string) : string :=
  "the model is exsiting already, alias: " +:+ alias +:+ ", dataId: " +:+ dataId.

Definition refuse_cached (account key : string) : GoM mm unit :=
  oldModel <- loadModel account key ;;
  match oldModel with
  | Some p => m <- load p ;; fail (Wrapf ErrInvalidDataId (existing (mo_Alias m) (mo_DataId m)))
  | None => ret tt
  end.

Definition created (p : Proposal) (alias : string) (result : CommitResult) (content : bytes) : Model :=
  MkModel (cr_DataId result) alias (pr_GroupId p) (cr_OrderId result) (pr_Owner p) (pr_Tags p)
    (cr_Cid result) (cr_Shards result) (pr_CommitId p)
    [commit_text (pr_CommitId p) (cr_Height result)] "v0" content (pr_ExtendInfo p).

Definition Create (req : MetadataProposal) (clientProposal : OrderStoreProposal) (orderId : Z)
    (content : bytes) : GoM mm ptr :=
  let p := osp_Proposal clientProposal in
  let alias := if String.eqb (pr_Alias p) "" then pr_Cid p else pr_Alias p in
  refuse_cached (pr_Owner p) (pr_DataId p +:+ pr_DataId p) ;;
  refuse_cached (pr_Owner p) (alias +:+ pr_DataId p) ;;
  meta <- attempt (call_QueryMeta req 0) ;;
  match meta with
  | inl meta => fail (Wrapf ErrConflictId (existing (mo_Alias meta) (mo_DataId meta)))
  | inr _ =>
  if (pr_Size p =? 0) || (Z.of_nat (length content) =? 0) then
    fail (Wrapf ErrInvalidContent "the content is empty")
  else
  validateModel (pr_Owner p) alias content (pr_Rule p) ;;
  result <- call_CommitModel clientProposal orderId content ;;
  model <- new (created p alias result content) ;;
  cacheModel (pr_Owner p) model ;;
  ret model
  end.

Definition updated (p : Proposal) (org : Model) (commitId : string) (result : CommitResult)
    (content : bytes) : Model :=
  MkModel (mo_DataId org) (mo_Alias org) (pr_GroupId p) (cr_OrderId result) (pr_Owner p) (pr_Tags p)
    (cr_Cid result) (cr_Shards result) commitId
    (mo_Commits org ++ [commit_text commitId (cr_Height result)])
    (version_text (Z.of_nat (length (mo_Commits org)))) content (pr_ExtendInfo p).

(** The model an update starts from: the cached one when it is the latest and the
    one the update names, else a new one with the fetched content. *)
Definition original (req : MetadataProposal) (meta : Model) (lastCommitId : string) : GoM mm ptr :=
  orgModel <- loadModel (mo_Owner meta) (qp_Keyword (mtp_Proposal req) +:+ lastCommitId) ;;
  hit <- match orgModel with
         | Some p =>
             m <- load p ;;
             ret (String.eqb lastCommitId (mo_CommitId m) && (0 <? Z.of_nat (length (mo_Content m)))
                  && String.eqb (mo_CommitId meta) (mo_CommitId m))
         | None => ret false
         end ;;
  match hit, orgModel with
  | true, Some p => ret p
  | _, _ =>
      p <- new (model_of_meta meta) ;;
      result <- call_FetchContent req meta ;;
      store p (mo_set_Content (fr_Content result)) ;;
      ret p
  end.

Definition Update (req : MetadataProposal) (clientProposal : OrderStoreProposal) (orderId : Z)
    (patch : bytes) : GoM mm ptr :=
  let p := osp_Proposal clientProposal in
  match Split (pr_CommitId p) "|" with
  | [lastCommitId; commitId] =>
      meta <- call_QueryMeta req 0 ;;
      orgModel <- original req meta lastCommitId ;;
      org <- load orgModel ;;
      newContent <- lift (ApplyPatch (mo_Content org) patch) ;;
      if bool_decide (mo_Content org = newContent) then
        fail (Wrapf ErrInvalidContent "no content updated.")
      else
      if negb (Z.of_nat (length newContent) =? wrap_i64 (pr_Size p)) then
        fail (Wrapf ErrInvalidContent ("given size(" +:+ format_d (wrap_i64 (pr_Size p))
          +:+ ") doesn't match target content size(" +:+ format_d (Z.of_nat (length newContent))
          +:+ ")"))
      else
      newContentCid <- lift (CalculateCid newContent) ;;
      if negb (String.eqb (cid_String newContentCid) (pr_Cid p)) then
        fail (Wrapf ErrInvalidCid ("cid mismatch, expected " +:+ pr_Cid p +:+ ", but got "
          +:+ cid_String newContentCid))
      else
      validateModel (pr_Owner p) (pr_Alias p) newContent (pr_Rule p) ;;
      result <- call_CommitModel clientProposal orderId newContent ;;
      org <- load orgModel ;;
      model <- new (updated p org commitId result newContent) ;;
      cacheModel (pr_Owner p) model ;;
      ret model
  | _ => fail (Wrapf ErrInvalidCommitInfo ("invalid commitId:" +:+ pr_CommitId p))
  end.

(** *** The other requests *)
Definition named_model (dataId alias : string) (commits : list string) : Model :=
  MkModel dataId alias "" 0 "" [] "" ∅ "" commits "" [] "".

Definition Delete (req : OrderTerminateProposal) (isPublish : bool) : GoM mm (option Model) :=
  (if isPublish then recorded (CallTerminate req) (api_TerminateOrder req) else ret tt) ;;
  model <- attempt (on_cache (cache_Get (otp_Owner req) (otp_DataId req))) ;;
  match model with
  | inl (Some (CModel p)) =>
      m <- load p ;;
      on_cache (cache_Evict (otp_Owner req) (mo_DataId m)) ;;
      on_cache (cache_Evict (otp_Owner req) (mo_Alias m)) ;;
      ret (Some (named_model (mo_DataId m) (mo_Alias m) []))
  | _ => ret None
  end.

Definition ShowCommits (req : MetadataProposal) : GoM mm Model :=
  meta <- call_QueryMeta req 0 ;;
  ret (named_model (mo_DataId meta) (mo_Alias meta) (mo_Commits meta)).

Definition Renew (req : OrderRenewProposal) (isPublish : bool) : GoM mm (gmap string string) :=
  if isPublish then recorded (CallRenew req) (api_RenewOrder req) else ret ∅.

Definition UpdatePermission (req : PermissionProposal) (isPublish : bool) : GoM mm Model :=
  (if isPublish then recorded (CallPermission req) (api_UpdateModelPermission req) else ret tt) ;;
  ret (named_model (pmp_DataId req) "" []).
End Manager.
