(* ===== verification/RemoteCaches.v ===== *)
(** * The caches on Redis and memcached ([node/cache/redis_cache_service.go],
      [node/cache/memcached_cache_service.go])

    Both implement the interface of the LRU caches ([CacheSvcApi]) on a server.
    [redis_put_lost], [memcached_never_found]: neither gives back what it was
    given. *)
From stdpp Require Import base list gmap strings.
From Stdlib Require Import ZArith Lia Ascii.
From S2P Require Import Prelude Types ChainApi Chain ModelManager.

(** ** The client libraries *)

(** [go-redis] with the default database: the commands EXISTS, GET, SET and DEL. *)
Class RedisLib (W : Type) := {
  redis_Exists : string -> call W Z;
  redis_Get : string -> call W string;
  redis_Set : string -> cached -> call W unit;
  redis_Del : list string -> call W Z
}.

(** [gomemcache]; the value of an item may be nil. *)
Class MemcacheLib (W : Type) := {
  memcache_Get : string -> call W (option bytes);
  memcache_Set : string -> bytes -> call W unit;
  memcache_Delete : string -> call W unit
}.

(** [encoding/json] for cached values; into an [interface{}], only whether it fails
    is looked at. *)
Class CacheJson := { cached_Marshal : cached -> bytes + error; cached_Unmarshal : bytes -> option error }.

Definition name_key (name key : string) : string := name +:+ "_" +:+ key.
Definition key_not_found (name : string) : error := Wrapf ErrNotFound ("the key [" +:+ name +:+ "] not found").

(** ** Redis *)
Module Redis.
Section Redis.
Context `{!ErrorText} {W : Type} `{!RedisLib W}.

Definition CreateCache (name : string) (capacity : Z) : GoM W unit := ret tt.
Definition Get (name key : string) : GoM W (option cached) :=
  exists_ <- wrapping ErrCacheGetFailed (invoke (redis_Exists (name_key name key))) ;;
  if exists_ =? 1 then value <- invoke (redis_Get (name_key name key)) ;; ret (Some (CText value))
  else fail (key_not_found name).
(** The key is written without the name. *)
Definition Put (name key : string) (value : cached) : GoM W unit := ignore (invoke (redis_Set key value)).
Definition Evict (name key : string) : GoM W unit := ignore (invoke (redis_Del [key; name_key name key])).
Definition GetCapacity (name : string) : GoM W Z := ret (-1).
Definition GetSize (name : string) : GoM W Z := ret (-1).
Definition ReSize (name : string) (capacity : Z) : GoM W unit := ret tt.

Definition RedisCacheSvc : CacheSvcApi W :=
  {| cache_CreateCache := CreateCache; cache_Get := Get; cache_Put := Put; cache_Evict := Evict |}.
End Redis.
End Redis.

(** ** Memcached *)
Module Memcached.
Section Memcached.
Context `{!ErrorText} {W : Type} `{!MemcacheLib W, !CacheJson}.

Definition CreateCache (name : string) (capacity : Z) : GoM W unit := ret tt.
(** A value that is decoded is not returned. *)
Definition Get (name key : string) : GoM W (option cached) :=
  item <- wrapping ErrCacheGetFailed (invoke (memcache_Get (name_key name key))) ;;
  match item with
  | Some value =>
      match cached_Unmarshal value with
      | Some _ => ret None
      | None => fail (key_not_found name)
      end
  | None => fail (key_not_found name)
  end.
Definition Put (name key : string) (value : cached) : GoM W unit :=
  match cached_Marshal value with
  | inr _ => ret tt
  | inl bytes => ignore (invoke (memcache_Set (name_key name key) bytes))
  end.
Definition Evict (name key : string) : GoM W unit := ignore (invoke (memcache_Delete (name_key name key))).
Definition GetCapacity (name : string) : GoM W Z := ret (-1).
Definition GetSize (name : string) : GoM W Z := ret (-1).
Definition ReSize (name : string) (capacity : Z) : GoM W unit := ret tt.

Definition MemcachedCacheSvc : CacheSvcApi W :=
  {| cache_CreateCache := CreateCache; cache_Get := Get; cache_Put := Put; cache_Evict := Evict |}.

(** Memcached: whatever was put, a read returns nil or an error, never a value. *)
Theorem memcached_never_found name key w :
  wp (Get name key) w (fun o _ => o = Ret None \/ exists e, o = Fail e).
Proof.
  unfold Get, wrapping. apply wp_bind, wp_or_else, wp_call.
  - intros item w' _. apply wp_ret. destruct item as [value|]; [|right; by eexists].
    destruct (cached_Unmarshal value); [by left|right; by eexists].
  - intros e w' _. right. by eexists.
Qed.
End Memcached.
End Memcached.

(** ** What Redis holds *)
Class RedisLaws (W : Type) `{!RedisLib W} := {
  held : W -> gmap string string;
  redis_up : W -> Prop;
  Exists_spec k w r w' : redis_Exists k w = (r, w') ->
    held w' = held w /\ (redis_up w -> redis_up w') /\
    match r with inl n => n = (if decide (is_Some (held w !! k)) then 1 else 0) | inr _ => ~ redis_up w end;
  RGet_spec k w r w' : redis_Get k w = (r, w') ->
    held w' = held w /\ (redis_up w -> redis_up w') /\
    match r with inl v => held w !! k = Some v | inr _ => redis_up w -> held w !! k = None end;
  (* a value that has no encoding is refused *)
  RSet_spec k v w r w' : redis_Set k v w = (r, w') ->
    (redis_up w -> redis_up w') /\
    match r with inl _ => exists t, held w' = <[k := t]> (held w) | inr _ => held w' = held w end
}.

Section RedisTheorems.
Context `{!ErrorText} {W : Type} `{!RedisLib W, !RedisLaws W}.

Lemma name_key_ne name key : key <> name_key name key.
Proof.
  unfold name_key. intros E%(f_equal String.length).
  assert (forall s t, String.length (s +:+ t) = String.length s + String.length t)%nat as Happ.
  { intros s t. induction s as [|c s IH]; [done|]. rewrite str_app_cons. cbn. by rewrite IH. }
  rewrite !Happ in E. cbn in E. lia.
Qed.

(** What a read returns. *)
Lemma redis_Get_spec name key w :
  redis_up w ->
  exists w', held w' = held w /\ redis_up w' /\ Redis.Get name key w =
    (match held w !! name_key name key with Some v => Ret (Some (CText v)) | None => Fail (key_not_found name) end, w').
Proof.
  intros Hup. unfold Redis.Get, wrapping, or_else, bind, attempt, invoke.
  destruct (redis_Exists (name_key name key) w) as [r w1] eqn:E1. apply Exists_spec in E1 as (Hh1 & Hup1 & Hr).
  destruct r as [n|e]; [|by destruct (Hr Hup)]. subst n. cbn [ret].
  destruct (held w !! name_key name key) as [v|] eqn:Ev.
  - rewrite decide_True by eauto. cbn [Z.eqb Pos.eqb].
    destruct (redis_Get (name_key name key) w1) as [r w2] eqn:E2. apply RGet_spec in E2 as (Hh2 & Hup2 & Hr2).
    destruct r as [v'|e]; [|rewrite Hh1, Ev in Hr2; by specialize (Hr2 (Hup1 Hup))].
    exists w2. split; [congruence|]. split; [auto|]. rewrite Hh1, Ev in Hr2. by injection Hr2 as ->.
  - rewrite decide_False by (intros [? ?]; done). cbn. exists w1. by split_and!; auto.
Qed.

(** Redis: a value that is put is not found under its name and key: a read after
    the write returns what a read before it would have. *)
Theorem redis_put_lost name key v w :
  redis_up w ->
  exists w1 w2, Redis.Put name key v w = (Ret tt, w1) /\
    Redis.Get name key w1 =
      (match held w !! name_key name key with Some t => Ret (Some (CText t)) | None => Fail (key_not_found name) end, w2).
Proof.
  intros Hup. unfold Redis.Put, ignore, bind, attempt, invoke. destruct (redis_Set key v w) as [r w1] eqn:E.
  apply RSet_spec in E as [Hup1 Hr]. destruct (redis_Get_spec name key w1 (Hup1 Hup)) as (w2 & _ & _ & Hget).
  exists w1, w2. split; [by destruct r|]. rewrite Hget.
  assert (held w1 !! name_key name key = held w !! name_key name key) as ->; [|done].
  destruct r as [u|e]; [|by rewrite Hr]. destruct Hr as [t ->]. apply lookup_insert_ne, name_key_ne.
Qed.
End RedisTheorems.

(** ** A Redis server in memory *)
Module RedisMem.
#[export] Instance Server : RedisLib (gmap string string) := {
  redis_Exists k w := (inl (if decide (is_Some (w !! k)) then 1 else 0), w);
  redis_Get k w := match w !! k with Some v => (inl v, w) | None => (inr (EText "redis: nil"), w) end;
  redis_Set k v w := match v with CText t => (inl tt, <[k := t]> w) | _ => (inr (EText "can't marshal"), w) end;
  redis_Del ks w := (inl 0, foldr delete w ks)
}.
#[export] Instance ServerLaws : RedisLaws (gmap string string).
Proof.
  refine {| held w := w; redis_up _ := True |}.
  - by intros k w r w' [= <- <-].
  - intros k w r w' E. cbn in E. destruct (w !! k) eqn:Ek; by injection E as <- <-.
  - intros k v w r w' E. cbn in E. destruct v; injection E as <- <-; split; eauto.
Defined.

Lemma mem_up : redis_up (W := gmap string string) ∅.
Proof. exact I. Qed.

Lemma redis_put_lost_witness `{!ErrorText} :
  exists w1 w2, Redis.Put "did" "model" (CText "content") (∅ : gmap string string) = (Ret tt, w1) /\
    w1 !! "model" = Some "content" /\ Redis.Get "did" "model" w1 = (Fail (key_not_found "did"), w2).
Proof.
  destruct (redis_put_lost "did" "model" (CText "content") ∅ mem_up) as (w1 & w2 & Hput & Hget).
  exists w1, w2. split; [exact Hput|]. split; [|exact Hget]. injection Hput as <-. apply lookup_insert_eq.
Defined.
End RedisMem.
