(* ===== verification/ModelTheorems.v ===== *)
(** * Theorems about the model manager

    [load_outcome]: which model a load returns, and which calls of the gateway it
    makes.  [create_outcome], [update_outcome]: what is committed, after which
    checks.  [models_allocated]: the pointers of the cache are to models.
    [failed_fetch_poisons], [reader_without_cache]: two ways to go wrong.
    [GeneratePatch_order]: the text of a patch. *)
From stdpp Require Import base list gmap strings.
From Stdlib Require Import ZArith Lia Ascii.
From S2P Require Import Prelude Types ChainApi Gateway Validator ModelManager.

(** ** What the manager relies on

    [cache_holds P c]: every value in the cache satisfies [P]. *)
Class CacheLaws (C : Type) `{!CacheSvcApi C} := {
  cache_holds : (cached -> Prop) -> C -> Prop;
  holds_mono P Q c : (forall v, P v -> Q v) -> cache_holds P c -> cache_holds Q c;
  CreateCache_holds P n cap c : cache_holds P c -> cache_holds P (cache_CreateCache n cap c).2;
  Get_holds P n k c : cache_holds P c -> cache_holds P (cache_Get n k c).2;
  Get_held P n k c v : cache_holds P c -> (cache_Get n k c).1 = Ret (Some v) -> P v;
  Put_holds P n k v c : cache_holds P c -> P v -> cache_holds P (cache_Put n k v c).2;
  Put_returns n k v c e : (cache_Put n k v c).1 <> Fail e;
  Evict_holds P n k c : cache_holds P c -> cache_holds P (cache_Evict n k c).2;
  Evict_returns n k c e : (cache_Evict n k c).1 <> Fail e
}.

(** ** Runs that return

    [wpn m s Q]: a run of [m] from [s] that returns, with a value or an error,
    does so with [Q]. *)
Definition on_return {S A} (Q : A + error -> S -> Prop) (o : outcome A) (s' : S) : Prop :=
  match o with Ret a => Q (inl a) s' | Fail e => Q (inr e) s' | _ => True end.
Definition wpn {S A} (m : GoM S A) (s : S) (Q : A + error -> S -> Prop) : Prop :=
  wp m s (on_return Q).

Section Wpn.
Context {S : Type}.
Implicit Types s : S.

Lemma wpn_mono {A} (m : GoM S A) s (Q Q' : A + error -> S -> Prop) :
  wpn m s Q -> (forall r s', Q r s' -> Q' r s') -> wpn m s Q'.
Proof. intros Hm HQ. eapply wp_mono; [exact Hm|]. intros [] s'; cbn; auto. Qed.
Lemma wpn_ret {A} (a : A) s (Q : A + error -> S -> Prop) : Q (inl a) s -> wpn (ret a) s Q.
Proof. done. Qed.
Lemma wpn_fail {A} e s (Q : A + error -> S -> Prop) : Q (inr e) s -> wpn (fail (A:=A) e) s Q.
Proof. done. Qed.
Lemma wpn_bind {A B} (m : GoM S A) (k : A -> GoM S B) s Q :
  wpn m s (fun r s' => match r with inl a => wpn (k a) s' Q | inr e => Q (inr e) s' end) ->
  wpn (bind m k) s Q.
Proof. intros Hm. apply wp_bind. eapply wp_mono; [exact Hm|]. intros [] s'; cbn; auto. Qed.
Lemma wpn_attempt {A} (m : GoM S A) s (Q : (A + error) + error -> S -> Prop) :
  wpn m s (fun r s' => Q (inl r) s') -> wpn (attempt m) s Q.
Proof. intros Hm. apply wp_attempt. eapply wp_mono; [exact Hm|]. intros [] s'; cbn; auto. Qed.
Lemma wpn_lift {A B} (r : A + error) (k : A -> GoM S B) s Q :
  (forall a, r = inl a -> wpn (k a) s Q) -> (forall e, r = inr e -> Q (inr e) s) ->
  wpn (bind (lift r) k) s Q.
Proof. intros Hk He. apply wpn_bind. destruct r; cbn; auto. Qed.
Lemma wpn_gets {A B} (f : S -> A) (k : A -> GoM S B) s Q : wpn (k (f s)) s Q -> wpn (bind (gets f) k) s Q.
Proof. done. Qed.
Lemma wpn_steps {A} (R : S -> S -> Prop) (m : GoM S A) s (Q : A + error -> S -> Prop) :
  steps R m -> (forall r s', R s s' -> Q r s') -> wpn m s Q.
Proof. intros Hm HQ. apply (wp_steps _ _ _ _ Hm). intros [] s'; cbn; auto. Qed.
End Wpn.

Section ModelManager.
Context `{!CidLib, !ErrorText, !JsonLib, !RuleLib, !GoRange, !PatchLib, !ContextLib}
        {G W C X : Type} `{!SchemaLib X, !GatewayChain W, !ProposalFields W,
        !GatewaySvcApi G W, !CacheSvcApi C, !CacheLaws C}.
Context (EnableCache : bool) (CacheCapacity ContentLimit : Z).
Abbreviation mm := (@mm _ _ G W C X _).
Abbreviation Load := (Load EnableCache CacheCapacity ContentLimit).
Abbreviation loadModel := (loadModel EnableCache CacheCapacity).
Abbreviation cacheModel := (cacheModel EnableCache ContentLimit).
Implicit Types (s : mm) (req : MetadataProposal) (m meta : Model) (p : ptr).

(** *** States that differ in one part *)
Definition with_cache s (c : C) : mm :=
  Mm (mm_gw s) c (mm_heap s) (mm_fresh s) (mm_valid s) (mm_calls s).
Definition with_heap s (h : gmap ptr Model) (f : ptr) : mm :=
  Mm (mm_gw s) (mm_cache s) h f (mm_valid s) (mm_calls s).
Definition with_call s (g : G) (c : gw_call) : mm :=
  Mm g (mm_cache s) (mm_heap s) (mm_fresh s) (mm_valid s) (mm_calls s ++ [c]).

(** A call of the gateway, with its result and the gateway after it. *)
Lemma wpn_recorded_run {A} (ev : A + error -> gw_call) (m : GoM G A) s Q :
  (forall a g, m (mm_gw s) = (Ret a, g) -> Q (inl a) (with_call s g (ev (inl a)))) ->
  (forall e g, m (mm_gw s) = (Fail e, g) -> Q (inr e) (with_call s g (ev (inr e)))) ->
  wpn (recorded ev m) s Q.
Proof.
  intros Hr Hf. unfold wpn, wp, recorded, bind, attempt, on_gw, zoom.
  destruct (m (mm_gw s)) as [[a|e| |] g] eqn:E; cbn; [by apply Hr|by apply Hf|done..].
Qed.
Lemma wpn_recorded {A} (ev : A + error -> gw_call) (m : GoM G A) s Q :
  (forall r g, Q r (with_call s g (ev r))) -> wpn (recorded ev m) s Q.
Proof. intros HQ. apply wpn_recorded_run; auto. Qed.

Lemma wpn_load p s Q :
  (forall m, mm_heap s !! p = Some m -> Q (inl m) s) -> wpn (load p) s Q.
Proof.
  intros HQ. unfold wpn, wp, load, bind, gets, deref.
  destruct (mm_heap s !! p) as [m|] eqn:E; [exact (HQ m eq_refl)|done].
Qed.
Lemma wpn_store p f s (Q : unit + error -> mm -> Prop) :
  (forall m, mm_heap s !! p = Some m ->
     Q (inl tt) (with_heap s (<[p := f m]> (mm_heap s)) (mm_fresh s))) -> wpn (store p f) s Q.
Proof.
  intros HQ. unfold store. apply wpn_bind, wpn_load. intros m Hm.
  specialize (HQ m Hm). rewrite <-(alter_insert_eq _ p f m), insert_id in HQ by done. exact HQ.
Qed.

(** Reading the cache changes the cache, at most, and does not fail. *)
Lemma wpn_on_cache_run {A} (m : GoM C A) s (Q : A + error -> mm -> Prop) :
  (forall a c, m (mm_cache s) = (Ret a, c) -> Q (inl a) (with_cache s c)) ->
  (forall e c, m (mm_cache s) = (Fail e, c) -> Q (inr e) (with_cache s c)) -> wpn (on_cache m) s Q.
Proof.
  intros HR HF. unfold wpn, wp, on_cache, zoom. destruct (m (mm_cache s)) as [[a|e| |] c]; [by apply HR|by apply HF|done..].
Qed.
Lemma wpn_on_cache {A} (m : GoM C A) s (Q : A + error -> mm -> Prop) :
  (forall r c, Q r (with_cache s c)) -> wpn (on_cache m) s Q.
Proof.
  intros HQ. unfold wpn, wp, on_cache, zoom. destruct (m (mm_cache s)) as [[a|e| |] c];
    [exact (HQ (inl a) c)|exact (HQ (inr e) c)|done..].
Qed.
(** What the cache holds under a key: a model, or the data id under which it holds the
    model.  [c'] is the cache after the look-ups. *)
Inductive held (account key : string) (c : C) (p : ptr) (c' : C) : Prop :=
| held_model : cache_Get account key c = (Ret (Some (CModel p)), c') -> held account key c p c'
| held_alias dataId c1 :
    cache_Get account key c = (Ret (Some (CText dataId)), c1) ->
    cache_Get account dataId c1 = (Ret (Some (CModel p)), c') -> held account key c p c'.
Definition not_held account key (c : C) : Prop := EnableCache = true -> forall p c', ~ held account key c p c'.

Lemma loadModel_cache account key s (Q : option ptr + error -> mm -> Prop) :
  (forall p c, EnableCache = true -> held account key (mm_cache s) p c -> Q (inl (Some p)) (with_cache s c)) ->
  (forall c, not_held account key (mm_cache s) -> Q (inl None) (with_cache s c)) ->
  wpn (loadModel account key) s Q.
Proof.
  intros HS HN. unfold ModelManager.loadModel. destruct EnableCache eqn:Een; cbn [negb].
  2: { specialize (HN (mm_cache s)). destruct s. apply HN. intros He. congruence. }
  apply wpn_bind, wpn_attempt, wpn_on_cache_run.
  2: { intros e c E. assert (forall c, Q (inl None) (with_cache s c)) as Hn.
    { intros c1. apply HN. intros _ q c' [Hq|d c2 Hq Hq']; congruence. }
    apply wpn_bind. destruct (Contains _ _); [|apply wpn_ret, wpn_ret, Hn].
    unfold ignore. apply wpn_bind, wpn_attempt, wpn_on_cache. intros r c'. apply wpn_ret, wpn_ret, Hn. }
  intros [[t|p]|] c E.
  - apply wpn_bind, wpn_attempt, wpn_on_cache_run; [intros [[t'|p']|] c' E'|intros e c' E']; cbn in E';
      try (apply HN; intros _ q c'' [Hq|d c1 Hq Hq']; congruence).
    apply HS; [done|]. by eapply held_alias.
  - apply HS; [done|]. by apply held_model.
  - apply HN. intros _ q c' [Hq|d c1 Hq Hq']; congruence.
Qed.

(** ** Loading *)

(** Putting a model into the cache may drop its content; nothing else changes. *)
Definition kept m : Model :=
  if EnableCache && (ContentLimit <? Z.of_nat (length (mo_Content m)))
  then mo_set_Content [] m else m.

Lemma cacheModel_spec account p s (Q : unit + error -> mm -> Prop) :
  (forall m c, mm_heap s !! p = Some m ->
     Q (inl tt) (with_heap (with_cache s c) (<[p := kept m]> (mm_heap s)) (mm_fresh s))) ->
  is_Some (mm_heap s !! p) -> wpn (cacheModel account p) s Q.
Proof.
  intros HQ [m Hm]. specialize (HQ m). unfold kept in HQ. unfold ModelManager.cacheModel.
  destruct EnableCache; cbn [negb andb] in *.
  2: { apply wpn_ret. specialize (HQ (mm_cache s) Hm). rewrite insert_id in HQ by done. by destruct s. }
  apply wpn_bind, wpn_load. intros m' E. assert (m' = m) as -> by congruence.
  assert (forall h, (forall c, Q (inl tt) (with_heap (with_cache s c) h (mm_fresh s))) ->
    wpn (on_cache (cache_Put account (mo_DataId m +:+ mo_CommitId m) (CModel p)) ;;
         on_cache (cache_Put account (mo_Alias m +:+ mo_CommitId m) (CModel p)))
      (with_heap s h (mm_fresh s)) Q) as Hput.
  { intros h Hh. apply wpn_bind. unfold wpn, wp, on_cache, zoom.
    pose proof (Put_returns account (mo_DataId m +:+ mo_CommitId m) (CModel p) (mm_cache s)) as Hr.
    cbn [mm_cache with_heap].
    destruct (cache_Put _ _ _ (mm_cache s)) as [[[]|e| |] c]; cbn; [|by destruct (Hr e)|done..].
    pose proof (Put_returns account (mo_Alias m +:+ mo_CommitId m) (CModel p) c) as Hr'.
    destruct (cache_Put _ _ _ c) as [[[]|e| |] c']; cbn; [apply Hh|by destruct (Hr' e)|done..]. }
  destruct (_ <? _).
  - apply wpn_bind, wpn_store. intros m' E'. assert (m' = m) as -> by congruence.
    apply Hput. intros c. by apply HQ.
  - apply wpn_bind, wpn_ret. specialize (Hput (mm_heap s)).
    replace (with_heap s (mm_heap s) (mm_fresh s)) with s in Hput by by destruct s.
    apply Hput. intros c. specialize (HQ c Hm). by rewrite insert_id in HQ.
Qed.

(** The metadata that a request selects, with the calls that are made for it: by
    version, then by commit. *)
Definition version_picked req meta (calls : list gw_call) (sel : Model * string) : Prop :=
  let v := qp_Version (mtp_Proposal req) in
  (v = "" /\ calls = [] /\
     sel = (meta, version_text (Z.of_nat (length (mo_Commits meta)) - 1))) \/
  (exists index commit ci, is_version v = true /\ Atoi (remove_v v) = inl index /\
     mo_Commits meta !! Z.to_nat index = Some commit /\ ParseMetaCommit commit = inl ci /\
     calls = [CallQueryMeta req (wrap_i64 (mc_Height ci)) (inl sel.1)] /\ sel.2 = v).

Definition other_commit (c commit : string) : Prop :=
  exists ci, ParseMetaCommit commit = inl ci /\ mc_CommitId ci <> c.

Definition commit_picked req (sel : Model * string) (calls : list gw_call) (sel' : Model * string) : Prop :=
  let c := qp_CommitId (mtp_Proposal req) in
  (c = "" /\ calls = [] /\ sel' = sel) \/
  (exists before commit after ci, mo_Commits sel.1 = before ++ commit :: after /\
     Forall (other_commit c) before /\ ParseMetaCommit commit = inl ci /\ mc_CommitId ci = c /\
     calls = [CallQueryMeta req (wrap_i64 (mc_Height ci)) (inl sel'.1)] /\
     sel'.2 = version_text (Z.of_nat (length before))).

(** A call that only reads, and one that fetched no content. *)
Definition is_read (c : gw_call (W:=W)) : Prop :=
  match c with CallQueryMeta _ _ _ | CallFetchContent _ _ _ => True | _ => False end.
Definition no_content (c : gw_call (W:=W)) : Prop :=
  match c with
  | CallQueryMeta _ _ _ | CallFetchContent _ _ (inr _) => True
  | _ => False
  end.

(** Only the gateway was called. *)
Definition asked s s' (calls : list gw_call) : Prop :=
  mm_calls s' = mm_calls s ++ calls /\ mm_heap s' = mm_heap s /\ mm_fresh s' = mm_fresh s /\
  mm_cache s' = mm_cache s.

Lemma asked_call s g c : asked s (with_call s g c) [c].
Proof. done. Qed.
Lemma asked_refl s : asked s s [].
Proof. unfold asked. by rewrite app_nil_r. Qed.

Lemma select_version_spec req meta s :
  wpn (select_version req meta) s (fun r s' => exists calls, asked s s' calls /\
    match r with
    | inl sel => version_picked req meta calls sel
    | inr _ => Forall no_content calls
    end).
Proof.
  unfold select_version, version_picked.
  destruct (String.eqb_spec (qp_Version (mtp_Proposal req)) "") as [Ev|Ev].
  { apply wpn_ret. exists []. split; [apply asked_refl|]. by left. }
  destruct (is_version _) eqn:Eis; cbn [negb];
    [|apply wpn_fail; exists []; split; [apply asked_refl|done]].
  destruct (Atoi _) as [index|] eqn:Ea; [|apply wpn_fail; exists []; split; [apply asked_refl|done]].
  destruct (_ !! _) as [commit|] eqn:Ec; [|apply wpn_fail; exists []; split; [apply asked_refl|done]].
  destruct (ParseMetaCommit commit) as [ci|] eqn:Ep;
    [|apply wpn_fail; exists []; split; [apply asked_refl|done]].
  apply wpn_bind, wpn_recorded. intros [meta'|e] g.
  - apply wpn_ret. eexists. split; [apply asked_call|]. right. by exists index, commit, ci.
  - eexists. split; [apply asked_call|]. by repeat constructor.
Qed.

Lemma find_commit_spec req i before commits s sel :
  mo_Commits sel.1 = before ++ commits -> i = Z.of_nat (length before) ->
  Forall (other_commit (qp_CommitId (mtp_Proposal req))) before ->
  qp_CommitId (mtp_Proposal req) <> "" ->
  wpn (find_commit req i commits) s (fun r s' => exists calls, asked s s' calls /\
    match r with
    | inl sel' => commit_picked req sel calls sel'
    | inr _ => Forall no_content calls
    end).
Proof.
  revert i before. induction commits as [|commit rest IH]; intros i before Hc Hi Hb Hne; cbn [find_commit].
  { apply wpn_fail. exists []. split; [apply asked_refl|done]. }
  destruct (ParseMetaCommit commit) as [ci|] eqn:Ep;
    [|apply wpn_fail; exists []; split; [apply asked_refl|done]].
  destruct (String.eqb_spec (mc_CommitId ci) (qp_CommitId (mtp_Proposal req))) as [E|E].
  - apply wpn_bind, wpn_recorded. intros [meta'|e] g.
    + apply wpn_ret. eexists. split; [apply asked_call|]. right.
      exists before, commit, rest, ci. subst i. by split_and!.
    + eexists. split; [apply asked_call|]. by repeat constructor.
  - apply (IH _ (before ++ [commit])); [by rewrite <-app_assoc|rewrite length_app; cbn; lia| |done].
    apply Forall_app. split; [done|]. repeat constructor. by exists ci.
Qed.

Lemma select_commit_spec req sel s :
  wpn (select_commit req sel) s (fun r s' => exists calls, asked s s' calls /\
    match r with
    | inl sel' => commit_picked req sel calls sel'
    | inr _ => Forall no_content calls
    end).
Proof.
  unfold select_commit. destruct (String.eqb_spec (qp_CommitId (mtp_Proposal req)) "") as [E|E].
  - apply wpn_ret. exists []. split; [apply asked_refl|]. by left.
  - by apply (find_commit_spec req 0 []).
Qed.

(** The answer of a load out of the cache: the model it holds for the owner, under the
    keyword and the latest commit; it is the latest commit, and the one that is wanted. *)
Definition from_cache req s p meta m s' : Prop :=
  EnableCache = true /\ held (mo_Owner meta) (load_key req meta) (mm_cache s) p (mm_cache s') /\
  mm_heap s !! p = Some m /\
  mm_calls s' = mm_calls s ++ [CallQueryMeta req 0 (inl meta)] /\ mm_heap s' = mm_heap s /\
  mo_CommitId m = mo_CommitId meta /\ mo_Content m <> [] /\
  (qp_CommitId (mtp_Proposal req) = "" \/ mo_CommitId m = qp_CommitId (mtp_Proposal req)).

(** The model a fetch fills: the one the cache holds, when it is not the answer, or a new
    one with the metadata [meta'] that the request selects. *)
Definition filled req s meta (meta' : Model) p m : Prop :=
  (exists m0 c, EnableCache = true /\ held (mo_Owner meta) (load_key req meta) (mm_cache s) p c /\
     mm_heap s !! p = Some m0 /\ is_hit req meta m0 = false /\
     mo_DataId m = mo_DataId m0 /\ mo_Alias m = mo_Alias m0 /\ mo_Owner m = mo_Owner m0) \/
  (not_held (mo_Owner meta) (load_key req meta) (mm_cache s) /\ p = mm_fresh s /\
     mo_DataId m = mo_DataId meta' /\ mo_Alias m = mo_Alias meta' /\ mo_Owner m = mo_Owner meta').

(** The answer out of the network: what the gateway fetched for the metadata the
    request selects. *)
Definition from_network req s p meta m s' : Prop :=
  exists calls calls' sel sel' res,
    mm_calls s' = mm_calls s ++ CallQueryMeta req 0 (inl meta) :: calls ++ calls' ++
                  [CallFetchContent req sel'.1 (inl res)] /\
    version_picked req meta calls sel /\ commit_picked req sel calls' sel' /\
    filled req s meta sel'.1 p m /\
    mo_CommitId m = mo_CommitId sel'.1 /\ mo_Commits m = mo_Commits sel'.1 /\
    mo_Version m = sel'.2 /\ mo_Cid m = fr_Cid res /\
    mo_Content m = (if EnableCache && (ContentLimit <? Z.of_nat (length (fr_Content res)))
                    then [] else fr_Content res) /\
    (forall q, q <> p -> mm_heap s' !! q = mm_heap s !! q).

Definition load_result req s (r : ptr + error) s' : Prop :=
  match r with
  | inl p => exists meta m, mm_heap s' !! p = Some m /\
      (from_cache req s p meta m s' \/ from_network req s p meta m s')
  | inr _ => exists calls, mm_calls s' = mm_calls s ++ calls /\ Forall no_content calls
  end.

Lemma is_hit_true req meta m :
  is_hit req meta m = true ->
  mo_CommitId m = mo_CommitId meta /\ mo_Content m <> [] /\
  (qp_CommitId (mtp_Proposal req) = "" \/ mo_CommitId m = qp_CommitId (mtp_Proposal req)).
Proof.
  unfold is_hit. intros [[Hc Hl]%andb_prop He%String.eqb_eq]%andb_prop.
  split_and!; [done|by intros E; rewrite E in Hl|].
  apply orb_prop in Hc as [Hc|Hc]; apply String.eqb_eq in Hc; [by left|by right].
Qed.

Lemma kept_fields m :
  mo_CommitId (kept m) = mo_CommitId m /\ mo_Commits (kept m) = mo_Commits m /\
  mo_Version (kept m) = mo_Version m /\ mo_Cid (kept m) = mo_Cid m /\
  mo_Content (kept m) = (if EnableCache && (ContentLimit <? Z.of_nat (length (mo_Content m)))
                         then [] else mo_Content m).
Proof. unfold kept. by destruct (_ && _). Qed.

(** The end of a load: the content is fetched for a model [m] that has the selected
    metadata already. *)
Lemma filled_kept req s meta meta' p m c v content :
  filled req s meta meta' p m -> filled req s meta meta' p (kept (mo_set_Fetched c v content m)).
Proof. unfold filled, kept. by destruct (_ && _). Qed.

Lemma fetch_spec req s0 s p m meta calls calls' sel sel' :
  mm_calls s = mm_calls s0 ++ CallQueryMeta req 0 (inl meta) :: calls ++ calls' ->
  version_picked req meta calls sel -> commit_picked req sel calls' sel' ->
  Forall no_content (calls ++ calls') ->
  mm_heap s !! p = Some m -> filled req s0 meta sel'.1 p m ->
  mo_CommitId m = mo_CommitId sel'.1 -> mo_Commits m = mo_Commits sel'.1 ->
  (forall q, q <> p -> mm_heap s !! q = mm_heap s0 !! q) ->
  wpn (result <- call_FetchContent req sel'.1 ;;
       store p (mo_set_Fetched (fr_Cid result) sel'.2 (fr_Content result)) ;;
       cacheModel (qp_Owner (mtp_Proposal req)) p ;; ret p) s (load_result req s0).
Proof.
  intros Hcalls Hv Hc Hno Hp Hfill Hid Hcs Hfr. apply wpn_bind, wpn_recorded. intros [res|e] g.
  2: { exists (CallQueryMeta req 0 (inl meta) :: (calls ++ calls') ++ [CallFetchContent req sel'.1 (inr e)]).
    cbn [mm_calls with_call]. rewrite Hcalls. split; [by list_simplifier|].
    constructor; [done|]. apply Forall_app. split; [done|]. by repeat constructor. }
  apply wpn_bind, wpn_store. cbn [mm_heap with_call]. intros m' E. assert (m' = m) as -> by congruence.
  apply wpn_bind, cacheModel_spec.
  2: { cbn. rewrite lookup_insert_eq. by eexists. }
  cbn. intros m' c Em. rewrite lookup_insert_eq in Em. injection Em as <-. eexists meta, _.
  split; [cbn; by rewrite lookup_insert_eq|]. right. exists calls, calls', sel, sel', res. cbn.
  destruct (kept_fields (mo_set_Fetched (fr_Cid res) sel'.2 (fr_Content res) m))
    as (-> & -> & -> & -> & ->).
  rewrite Hcalls. split_and!; [by list_simplifier|done|done|by apply filled_kept|done|done|done|done|done|].
  intros q Hq. rewrite !lookup_insert_ne by done. by apply Hfr.
Qed.

Lemma picked_no_content req meta calls sel : version_picked req meta calls sel -> Forall no_content calls.
Proof.
  intros [(_ & -> & _)|(i & c & ci & _ & _ & _ & _ & -> & _)]; [done|by repeat constructor].
Qed.
Lemma commit_no_content req sel calls sel' : commit_picked req sel calls sel' -> Forall no_content calls.
Proof.
  intros [(_ & -> & _)|(b & c & a & ci & _ & _ & _ & _ & -> & _)]; [done|by repeat constructor].
Qed.

(** What a load does when the cache has no answer. *)
Lemma load_miss req s0 s meta (model : option ptr) :
  mm_calls s = mm_calls s0 ++ [CallQueryMeta req 0 (inl meta)] -> mm_heap s = mm_heap s0 -> mm_fresh s = mm_fresh s0 ->
  match model with
  | Some p => exists m0 c, EnableCache = true /\ held (mo_Owner meta) (load_key req meta) (mm_cache s0) p c /\
      mm_heap s0 !! p = Some m0 /\ is_hit req meta m0 = false
  | None => not_held (mo_Owner meta) (load_key req meta) (mm_cache s0)
  end ->
  wpn (sel <- select_version req meta ;;
       sel <- select_commit req sel ;;
       p <- match model with
            | None => new (model_of_meta sel.1)
            | Some p => store p (mo_set_Meta sel.1) ;; ret p
            end ;;
       result <- call_FetchContent req sel.1 ;;
       store p (mo_set_Fetched (fr_Cid result) sel.2 (fr_Content result)) ;;
       cacheModel (qp_Owner (mtp_Proposal req)) p ;; ret p) s (load_result req s0).
Proof.
  intros Hcalls Hheap Hfresh Hmodel. apply wpn_bind. eapply wpn_mono; [apply select_version_spec|].
  intros [sel|e] s1 (calls & (Hc1 & Hh1 & Hf1 & _) & Hv).
  2: { exists (CallQueryMeta req 0 (inl meta) :: calls). rewrite Hc1, Hcalls.
    split; [by list_simplifier|by constructor]. }
  apply wpn_bind. eapply wpn_mono; [apply select_commit_spec|].
  intros [sel'|e] s2 (calls' & (Hc2 & Hh2 & Hf2 & _) & Hc).
  2: { exists (CallQueryMeta req 0 (inl meta) :: calls ++ calls'). rewrite Hc2, Hc1, Hcalls.
    split; [by list_simplifier|]. constructor; [done|]. apply Forall_app. eauto using picked_no_content. }
  assert (mm_calls s2 = mm_calls s0 ++ CallQueryMeta req 0 (inl meta) :: calls ++ calls') as Hcs.
  { rewrite Hc2, Hc1, Hcalls. by list_simplifier. }
  assert (Forall no_content (calls ++ calls')) as Hno.
  { apply Forall_app. eauto using picked_no_content, commit_no_content. }
  assert (mm_heap s2 = mm_heap s0) as Hh by congruence.
  destruct model as [p|]; apply wpn_bind.
  - apply wpn_bind, wpn_store. intros m Hm. apply wpn_ret.
    eapply (fetch_spec req s0); [exact Hcs|exact Hv|exact Hc|done|cbn; by rewrite lookup_insert_eq| |done..|].
    { destruct Hmodel as (m0 & c & He & Hheld & Hm0 & Hmiss). left. exists m0, c.
      assert (m = m0) as -> by congruence. by split_and!. }
    intros q Hq. cbn. rewrite lookup_insert_ne by done. by rewrite Hh.
  - eapply (fetch_spec req s0 (new (model_of_meta sel'.1) s2).2);
      [exact Hcs|exact Hv|exact Hc|done|cbn; by rewrite lookup_insert_eq| |done..|].
    { right. split; [done|]. split; [congruence|done]. }
    intros q Hq. cbn. rewrite lookup_insert_ne by done. by rewrite Hh.
Qed.

(** C16: a load that returns a model either found it in the cache, under the owner that
    the latest metadata names and the key of the keyword and the latest commit, and then
    it has that commit, it has content, and it is the commit asked for when one is named;
    or it fetched its content for the metadata that the version and the commit of the
    request select: the model is the one of the cache that was no answer, or a new one
    with that metadata, and it has the commit, the commits, the version and the cid of
    the selection and the fetched content (dropped when it is above the limit of the
    cache).  A load that fails has fetched nothing.  No other model is changed, and
    nothing is committed.  (That the content in the cache is the one of the commit is
    not said: [failed_fetch_poisons].) *)
Theorem load_outcome req s : wpn (Load req) s (load_result req s).
Proof.
  unfold ModelManager.Load. apply wpn_bind, wpn_recorded. intros [meta|e] g.
  2: { eexists. split; [done|]. by repeat constructor. }
  apply wpn_bind, loadModel_cache; cbn [mm_cache with_call].
  2: { intros c Hn. apply wpn_bind, wpn_ret. by apply (load_miss req s _ meta None). }
  intros p c He Hheld. apply wpn_bind, wpn_bind, wpn_load. cbn [mm_heap with_cache with_call]. intros m Hm. apply wpn_ret.
  destruct (is_hit req meta m) eqn:Eh.
  2: { apply (load_miss req s _ meta (Some p)); [done..|]. by exists m, c. }
  apply wpn_ret. exists meta, m. split; [done|]. left. apply is_hit_true in Eh as (? & ? & ?). by split_and!.
Qed.

(** ** Pointers *)

(** A value of the cache that points to an allocated model, if it is a pointer. *)
Definition points (h : gmap ptr Model) (v : cached) : Prop :=
  match v with CModel p => is_Some (h !! p) | CText _ => True end.

Definition mm_inv s : Prop :=
  (forall p, is_Some (mm_heap s !! p) -> (p < mm_fresh s)%nat) /\
  cache_holds (points (mm_heap s)) (mm_cache s).

(** Models stay where they are, with their data id and their alias. *)
Definition grows s s' : Prop :=
  forall p m, mm_heap s !! p = Some m ->
    exists m', mm_heap s' !! p = Some m' /\ mo_DataId m' = mo_DataId m /\ mo_Alias m' = mo_Alias m.

#[global] Instance grows_preorder : PreOrder grows.
Proof.
  split; [intros s p m Hm; by exists m|]. intros s1 s2 s3 H12 H23 p m Hm.
  destruct (H12 p m Hm) as (m2 & Hm2 & Hd2 & Ha2), (H23 p m2 Hm2) as (m3 & Hm3 & Hd3 & Ha3).
  exists m3. split_and!; [done|congruence..].
Qed.
Lemma grows_same s s' : mm_heap s' = mm_heap s -> grows s s'.
Proof. intros E p m Hm. exists m. by rewrite E. Qed.
Lemma grows_points s s' v : grows s s' -> points (mm_heap s) v -> points (mm_heap s') v.
Proof. intros Hg. destruct v as [|p]; [done|]. intros [m Hm]. destruct (Hg p m Hm) as (m' & ? & _). by exists m'. Qed.

(** The parts that the manager calls do not panic. *)
Definition quiet : Prop :=
  ((forall req h, safe (api_QueryMeta (G:=G) (W:=W) req h)) /\
   (forall req meta, safe (api_FetchContent (G:=G) (W:=W) req meta)) /\
   (forall cp n b, safe (api_CommitModel (G:=G) (W:=W) cp n b)) /\
   (forall r, safe (api_TerminateOrder (G:=G) (W:=W) r)) /\
   (forall r, safe (api_RenewOrder (G:=G) (W:=W) r)) /\
   (forall r, safe (api_UpdateModelPermission (G:=G) (W:=W) r))) /\
  ((forall n cap, safe (cache_CreateCache (C:=C) n cap)) /\ (forall n k, safe (cache_Get (C:=C) n k)) /\
   (forall n k v, safe (cache_Put (C:=C) n k v)) /\ (forall n k, safe (cache_Evict (C:=C) n k))).

Definition returns {A} (o : outcome A) : Prop := match o with Ret _ | Fail _ => True | _ => False end.

(** [sound m s R]: from a state with the invariant, [m] keeps it and the models,
    returns when its parts do, and a value it returns has [R]. *)
Definition sound {A} (m : GoM mm A) s (R : A -> mm -> Prop) : Prop :=
  mm_inv s -> mm_inv (m s).2 /\ grows s (m s).2 /\ (quiet -> returns (m s).1) /\
              match (m s).1 with Ret a => R a (m s).2 | _ => True end.

Lemma sound_ret {A} (a : A) s (R : A -> mm -> Prop) : (mm_inv s -> R a s) -> sound (ret a) s R.
Proof. intros HR Hi. split_and!; [done..|cbn; auto]. Qed.
Lemma sound_fail {A} e s (R : A -> mm -> Prop) : sound (fail (A:=A) e) s R.
Proof. done. Qed.
Lemma sound_bind {A B} (m : GoM mm A) (k : A -> GoM mm B) s R R' :
  sound m s R -> (forall a s', mm_inv s' -> grows s s' -> R a s' -> sound (k a) s' R') ->
  sound (bind m k) s R'.
Proof.
  intros Hm Hk Hi. destruct (Hm Hi) as (Hi' & Hg & Hr & HR). unfold bind.
  destruct (m s) as [[a|e| |] s']; cbn in *; [|by split_and!..].
  destruct (Hk a s' Hi' Hg HR Hi') as (Hi2 & Hg2 & Hr2 & HR2). split_and!; [done|by etrans|done..].
Qed.
Lemma sound_attempt {A} (m : GoM mm A) s (R : A -> mm -> Prop) :
  sound m s R -> sound (attempt m) s (fun r s' => match r with inl a => R a s' | inr _ => True end).
Proof.
  intros Hm Hi. destruct (Hm Hi) as (Hi' & Hg & Hr & HR). unfold attempt.
  destruct (m s) as [[a|e| |] s']; cbn in *; by split_and!.
Qed.
Lemma sound_mono {A} (m : GoM mm A) s (R R' : A -> mm -> Prop) :
  sound m s R -> (forall a s', mm_inv s' -> grows s s' -> R a s' -> R' a s') -> sound m s R'.
Proof.
  intros Hm HR Hi. destruct (Hm Hi) as (Hi' & Hg & Hr & H'). split_and!; [done..|].
  destruct (m s) as [[a|e| |] s']; cbn in *; auto.
Qed.
Lemma sound_lift {A} (r : A + error) s : sound (lift r) s (fun _ _ => True).
Proof. by destruct r. Qed.
Lemma sound_for_each {A} (l : list A) (body : A -> GoM mm unit) s :
  (forall a s', grows s s' -> sound (body a) s' (fun _ _ => True)) ->
  sound (for_each l body) s (fun _ _ => True).
Proof.
  revert s. induction l as [|a l IH]; intros s Hb; cbn [for_each]; [by apply sound_ret|].
  eapply sound_bind; [apply Hb; done|]. intros [] s' _ Hg _. apply IH.
  intros a' s2 Hg2. apply Hb. by etrans.
Qed.

(** Parts of the state other than the models. *)
Lemma sound_other {A} (m : GoM mm A) s :
  mm_heap (m s).2 = mm_heap s -> mm_fresh (m s).2 = mm_fresh s -> mm_cache (m s).2 = mm_cache s ->
  (quiet -> returns (m s).1) -> sound m s (fun _ _ => True).
Proof.
  intros Hh Hf Hc Hr [Hi1 Hi2]. split; [split; [by rewrite Hh, Hf|by rewrite Hh, Hc]|].
  split_and!; [by apply grows_same|done|by destruct (m s).1].
Qed.
Lemma sound_recorded {A} (ev : A + error -> gw_call) (m : GoM G A) s :
  (quiet -> safe m) -> sound (recorded ev m) s (fun _ _ => True).
Proof.
  intros Hq. unfold recorded. apply sound_other;
    unfold bind, attempt, on_gw, zoom; destruct (m (mm_gw s)) as [[a|e| |] g] eqn:E; try done.
  all: intros Hquiet; specialize (Hq Hquiet (mm_gw s)); by rewrite E in Hq.
Qed.
Lemma sound_on_valid {A} (m : GoM vstate A) s : safe m -> sound (on_valid m) s (fun _ _ => True).
Proof.
  intros Hm. apply sound_other; unfold on_valid, zoom; destruct (m (mm_valid s)) as [o v] eqn:E; try done.
  specialize (Hm (mm_valid s)). rewrite E in Hm. cbn. by destruct o.
Qed.

Lemma sound_cache {A} (m : GoM C A) s (R : A -> Prop) :
  (forall P, cache_holds P (mm_cache s) -> cache_holds P (m (mm_cache s)).2) ->
  (forall a, mm_inv s -> (m (mm_cache s)).1 = Ret a -> R a) -> (quiet -> safe m) ->
  sound (on_cache m) s (fun a _ => R a).
Proof.
  intros Hh HR Hq Hi. destruct (Hi) as [Hi1 Hi2]. unfold on_cache, zoom.
  specialize (Hh _ Hi2). specialize (HR).
  destruct (m (mm_cache s)) as [o c] eqn:E; cbn in *.
  split; [done|]. split_and!; [by apply grows_same| |].
  - intros Hquiet. specialize (Hq Hquiet (mm_cache s)). rewrite E in Hq. by destruct o.
  - destruct o; auto.
Qed.

Lemma sound_Get n k s :
  sound (on_cache (cache_Get n k)) s (fun v s' => match v with Some v => points (mm_heap s') v | None => True end).
Proof.
  eapply sound_mono.
  - apply (sound_cache _ s (fun v => match v with Some v => points (mm_heap s) v | None => True end)).
    + intros P. apply Get_holds.
    + intros [v|] [_ Hi] Hv; [by eapply Get_held|done].
    + intros Hq. apply Hq.
  - intros [v|] s' _ Hg; [by apply grows_points|done].
Qed.
Lemma sound_Put n k v s : points (mm_heap s) v -> sound (on_cache (cache_Put n k v)) s (fun _ _ => True).
Proof.
  intros Hv Hi. destruct Hi as [Hi1 Hi2]. unfold on_cache, zoom.
  pose proof (Put_holds _ n k v (mm_cache s) Hi2 Hv) as Hh.
  destruct (cache_Put n k v (mm_cache s)) as [o c] eqn:E; cbn in *.
  split; [done|]. split_and!; [by apply grows_same| |by destruct o].
  intros Hquiet. pose proof (proj1 (proj2 (proj2 (proj2 Hquiet))) n k v (mm_cache s)) as Hs.
  rewrite E in Hs. by destruct o.
Qed.

(** The model at [p] is allocated. *)
Definition alive p s : Prop := is_Some (mm_heap s !! p).
Lemma alive_grows p s s' : grows s s' -> alive p s -> alive p s'.
Proof. apply (grows_points s s' (CModel p)). Qed.
Hint Resolve alive_grows : core.

Lemma sound_new m s : sound (new m) s alive.
Proof.
  intros [Hi1 Hi2]. assert (mm_heap s !! mm_fresh s = None) as Hf.
  { apply eq_None_not_Some. intros Hs%Hi1. lia. }
  assert (grows s (new m s).2) as Hg.
  { intros p m' Hm. exists m'. split_and!; [|done..]. cbn. rewrite lookup_insert_ne; [done|congruence]. }
  split; [split|]; [|eapply holds_mono; [|exact Hi2]; intros v; by apply (grows_points s)|].
  - intros p. cbn. destruct (decide (p = mm_fresh s)) as [->|Hne]; [intros _; lia|].
    rewrite lookup_insert_ne by done. intros Hs%Hi1. lia.
  - split_and!; [done..|]. cbn. unfold alive. cbn. rewrite lookup_insert_eq. by eexists.
Qed.

Lemma sound_load p s : alive p s -> sound (load p) s (fun m s' => mm_heap s' !! p = Some m).
Proof. intros [m Hm] Hi. unfold load, bind, gets, deref. rewrite Hm. by split_and!. Qed.

Lemma sound_store p f s :
  alive p s -> (forall m, mo_DataId (f m) = mo_DataId m /\ mo_Alias (f m) = mo_Alias m) ->
  sound (store p f) s (fun _ _ => True).
Proof.
  intros [m Hm] Hf [Hi1 Hi2]. unfold store, bind, load, bind, gets, deref, modify. rewrite Hm.
  assert (grows s (with_heap s (alter f p (mm_heap s)) (mm_fresh s))) as Hg.
  { intros q m' Hq. cbn. destruct (decide (p = q)) as [<-|Hne].
    - exists (f m'). rewrite lookup_alter_eq, Hq. split; [done|apply Hf].
    - exists m'. by rewrite lookup_alter_ne. }
  split; [split|]; cbn [snd fst mm_heap mm_fresh mm_cache].
  - intros q Hq. cbn in Hq |- *. apply Hi1. destruct (decide (p = q)) as [<-|Hne]; [by eexists|].
    by rewrite lookup_alter_ne in Hq.
  - eapply holds_mono; [|exact Hi2]. intros v. exact (grows_points _ _ v Hg).
  - by split_and!.
Qed.

Lemma sound_CreateCache n cap s : sound (on_cache (cache_CreateCache n cap)) s (fun _ _ => True).
Proof.
  apply (sound_cache _ s (fun _ => True)); [intros P; apply CreateCache_holds|done|intros Hq; apply Hq].
Qed.
Lemma sound_Evict n k s : sound (on_cache (cache_Evict n k)) s (fun _ _ => True).
Proof.
  apply (sound_cache _ s (fun _ => True)); [intros P; apply Evict_holds|done|intros Hq; apply Hq].
Qed.

Lemma sound_loadModel account key s :
  sound (loadModel account key) s (fun r s' => match r with Some p => alive p s' | None => True end).
Proof.
  unfold ModelManager.loadModel. destruct EnableCache; cbn [negb]; [|by apply sound_ret].
  eapply sound_bind; [apply sound_attempt, sound_Get|].
  intros [[[t|p]|]|e] s1 Hi1 Hg1 Hv; [|by apply sound_ret..|].
  - eapply sound_bind; [apply sound_attempt, sound_Get|].
    intros [[[]|]|] s2 Hi2 Hg2 Hv2; by apply sound_ret.
  - eapply (sound_bind _ _ _ (fun _ _ => True)); [|by intros; apply sound_ret].
    destruct (Contains _ _); [|by apply sound_ret]. unfold ignore.
    eapply sound_bind; [apply sound_attempt, sound_CreateCache|]. by intros; apply sound_ret.
Qed.

Lemma sound_cacheModel account p s : alive p s -> sound (cacheModel account p) s (fun _ _ => True).
Proof.
  intros Hp. unfold ModelManager.cacheModel. destruct EnableCache; cbn [negb]; [|by apply sound_ret].
  eapply sound_bind; [by apply sound_load|]. intros m s1 _ Hg1 _.
  eapply (sound_bind _ _ _ (fun _ _ => True)).
  { destruct (_ <? _); [|by apply sound_ret]. apply sound_store; [by eauto|done]. }
  intros [] s2 _ Hg2 _. eapply sound_bind; [apply sound_Put; unfold points; fold (alive p s2); by eauto|].
  intros [] s3 _ Hg3 _. apply sound_Put. unfold points. fold (alive p s3). by eauto.
Qed.

Lemma sound_QueryMeta req h s : sound (call_QueryMeta req h) s (fun _ _ => True).
Proof. apply sound_recorded. intros Hq. apply Hq. Qed.
Lemma sound_FetchContent req meta s : sound (call_FetchContent req meta) s (fun _ _ => True).
Proof. apply sound_recorded. intros Hq. apply Hq. Qed.
Lemma sound_CommitModel cp n b s : sound (call_CommitModel cp n b) s (fun _ _ => True).
Proof. apply sound_recorded. intros Hq. apply Hq. Qed.

Lemma sound_select_version req meta s : sound (select_version req meta) s (fun _ _ => True).
Proof.
  unfold select_version. destruct (String.eqb _ _); [by apply sound_ret|].
  destruct (negb _); [done|]. destruct (Atoi _); [|done]. destruct (_ !! _); [|done].
  destruct (ParseMetaCommit _); [|done].
  eapply sound_bind; [apply sound_QueryMeta|]. by intros; apply sound_ret.
Qed.
Lemma sound_select_commit req sel s : sound (select_commit req sel) s (fun _ _ => True).
Proof.
  unfold select_commit. destruct (String.eqb _ _); [by apply sound_ret|]. generalize 0.
  induction (mo_Commits sel.1) as [|commit rest IH]; intros i; cbn [find_commit]; [done|].
  destruct (ParseMetaCommit commit); [|done]. destruct (String.eqb _ _); [|apply IH].
  eapply sound_bind; [apply sound_QueryMeta|]. by intros; apply sound_ret.
Qed.

Lemma sound_Load req s : sound (Load req) s alive.
Proof.
  unfold ModelManager.Load. eapply sound_bind; [apply sound_QueryMeta|]. intros meta s1 _ _ _.
  eapply sound_bind; [apply sound_loadModel|]. intros model s2 _ _ Hp.
  eapply (sound_bind _ _ _ (fun _ _ => True)).
  { destruct model; [|by apply sound_ret]. eapply sound_bind; [by apply sound_load|]. by intros; apply sound_ret. }
  intros hit s3 _ Hg3 _.
  assert (match model with Some p => alive p s3 | None => True end) as Hp3 by (destruct model; eauto).
  assert (sound (sel <- select_version req meta ;; sel <- select_commit req sel ;;
    p <- match model with
         | None => new (model_of_meta sel.1)
         | Some p => store p (mo_set_Meta sel.1) ;; ret p
         end ;;
    result <- call_FetchContent req sel.1 ;;
    store p (mo_set_Fetched (fr_Cid result) sel.2 (fr_Content result)) ;;
    cacheModel (qp_Owner (mtp_Proposal req)) p ;; ret p) s3 alive) as Hmiss.
  { eapply sound_bind; [apply sound_select_version|]. intros sel s4 _ Hg4 _.
    eapply sound_bind; [apply sound_select_commit|]. intros sel' s5 _ Hg5 _.
    eapply (sound_bind _ _ _ alive).
    { destruct model as [p|]; [|apply sound_new].
      eapply sound_bind; [apply sound_store; [by eauto|done]|]. intros. apply sound_ret. by eauto. }
    intros p s6 _ _ Ha. eapply sound_bind; [apply sound_FetchContent|]. intros res s7 _ Hg7 _.
    eapply sound_bind; [apply sound_store; [by eauto|done]|]. intros [] s8 _ Hg8 _.
    eapply sound_bind; [apply sound_cacheModel; by eauto|]. intros [] s9 _ Hg9 _.
    apply sound_ret. by eauto 6. }
  destruct hit, model as [p|]; [by apply sound_ret|exact Hmiss..].
Qed.

(** *** The other operations *)
Abbreviation resolve_schema := (resolve_schema EnableCache CacheCapacity ContentLimit).
Abbreviation check_element := (check_element EnableCache CacheCapacity ContentLimit).
Abbreviation validateModel := (validateModel EnableCache CacheCapacity ContentLimit).
Abbreviation refuse_cached := (refuse_cached EnableCache CacheCapacity).
Abbreviation original := (original EnableCache CacheCapacity).
Abbreviation Create := (Create EnableCache CacheCapacity ContentLimit).
Abbreviation Update := (Update EnableCache CacheCapacity ContentLimit).

Lemma validate_safe alias schema rule (a : Any) :
  safe (S:=vstate (X:=X)) (v <- NewDataModelValidator alias schema rule ;; Validate v a).
Proof.
  assert (forall name, safe (get_ctx name)) as Hctx.
  { intros name. unfold get_ctx. go_safe. }
  assert (forall ctx name f, safe (add_fact (X:=X) ctx name f)) as Hfact.
  { intros ctx name f. unfold add_fact, on_rules, AddFact. go_safe. }
  apply safe_bind.
  - unfold NewDataModelValidator, on_x, on_rules, AddRule. cbv zeta. go_safe.
  - intros v. unfold Validate, ValidateWithRef, on_rules, Reset_ctx, Execute. go_safe.
Qed.

Lemma sound_resolve_schema account dataId s : sound (resolve_schema account dataId) s (fun _ _ => True).
Proof.
  unfold ModelManager.resolve_schema. eapply sound_bind; [apply sound_Get|]. intros model s1 _ _ Hv.
  eapply (sound_bind _ _ _ (fun v s' => points (mm_heap s') v)).
  - destruct model as [v|]; [by apply sound_ret|].
    eapply sound_bind; [apply sound_Load|]. intros p s2 _ _ Ha. by apply sound_ret.
  - intros [t|p] s2 _ _ Hp; [done|]. eapply sound_bind; [by apply sound_load|].
    by intros; apply sound_ret.
Qed.
Lemma sound_check_schema alias schema rule b s : sound (check_schema alias schema rule b) s (fun _ _ => True).
Proof. apply sound_on_valid, validate_safe. Qed.

Lemma sound_validateModel account alias b rule s :
  sound (validateModel account alias b rule) s (fun _ _ => True).
Proof.
  unfold ModelManager.validateModel. destruct (String.eqb _ _); [by apply sound_ret|].
  destruct (is_array _).
  - apply sound_for_each. intros e s1 _. unfold ModelManager.check_element.
    destruct (elem_string e) as [sch|]; [|done]. destruct (String.eqb sch ""); [done|].
    eapply (sound_bind _ _ _ (fun _ _ => True)); [|intros; apply sound_check_schema].
    destruct (IsDataId sch); [apply sound_resolve_schema|by apply sound_ret].
  - eapply (sound_bind _ _ _ (fun _ _ => True)); [|intros; apply sound_check_schema].
    destruct (IsDataId _); [apply sound_resolve_schema|by apply sound_ret].
Qed.

Lemma sound_refuse_cached account key s : sound (refuse_cached account key) s (fun _ _ => True).
Proof.
  unfold ModelManager.refuse_cached. eapply sound_bind; [apply sound_loadModel|].
  intros [p|] s1 _ _ Hp; [|by apply sound_ret]. eapply sound_bind; [by apply sound_load|]. done.
Qed.

(** A new model is put into the cache and returned. *)
Lemma sound_publish account m s :
  sound (model <- new m ;; cacheModel account model ;; ret model) s alive.
Proof.
  eapply sound_bind; [apply sound_new|]. intros p s1 _ _ Hp.
  eapply sound_bind; [by apply sound_cacheModel|]. intros [] s2 _ Hg _. apply sound_ret. by eauto.
Qed.

Lemma sound_Create req cp orderId content s : sound (Create req cp orderId content) s alive.
Proof.
  unfold ModelManager.Create. cbv zeta.
  eapply sound_bind; [apply sound_refuse_cached|]. intros [] s1 _ _ _.
  eapply sound_bind; [apply sound_refuse_cached|]. intros [] s2 _ _ _.
  eapply sound_bind; [apply sound_attempt, sound_QueryMeta|]. intros [meta|e] s3 _ _ _; [done|].
  destruct (_ || _); [done|]. eapply sound_bind; [apply sound_validateModel|]. intros [] s4 _ _ _.
  eapply sound_bind; [apply sound_CommitModel|]. intros res s5 _ _ _. apply sound_publish.
Qed.

Lemma sound_original req meta lastCommitId s : sound (original req meta lastCommitId) s alive.
Proof.
  unfold ModelManager.original. eapply sound_bind; [apply sound_loadModel|]. intros org s1 _ _ Hp.
  eapply (sound_bind _ _ _ (fun _ _ => True)).
  { destruct org; [|by apply sound_ret]. eapply sound_bind; [by apply sound_load|]. by intros; apply sound_ret. }
  intros hit s2 _ Hg _.
  assert (sound (p <- new (model_of_meta meta) ;; result <- call_FetchContent req meta ;;
    store p (mo_set_Content (fr_Content result)) ;; ret p) s2 alive) as Hfetch.
  { eapply sound_bind; [apply sound_new|]. intros p s3 _ _ Ha.
    eapply sound_bind; [apply sound_FetchContent|]. intros res s4 _ Hg4 _.
    eapply sound_bind; [apply sound_store; [by eauto|done]|]. intros [] s5 _ Hg5 _.
    apply sound_ret. by eauto. }
  destruct hit, org as [p|]; [apply sound_ret; by eauto|exact Hfetch..].
Qed.

Lemma sound_Update req cp orderId patch s : sound (Update req cp orderId patch) s alive.
Proof.
  unfold ModelManager.Update. destruct (Split _ _) as [|last [|commitId [|]]]; [done..| |done].
  eapply sound_bind; [apply sound_QueryMeta|]. intros meta s1 _ _ _.
  eapply sound_bind; [apply sound_original|]. intros p s2 _ _ Hp.
  eapply sound_bind; [by apply sound_load|]. intros org s3 _ Hg3 _.
  eapply sound_bind; [apply sound_lift|]. intros content s4 _ Hg4 _.
  destruct (bool_decide _); [done|]. destruct (negb _); [done|].
  eapply sound_bind; [apply sound_lift|]. intros c s5 _ Hg5 _.
  destruct (negb _); [done|]. eapply sound_bind; [apply sound_validateModel|]. intros [] s6 _ Hg6 _.
  eapply sound_bind; [apply sound_CommitModel|]. intros res s7 _ Hg7 _.
  eapply sound_bind; [apply sound_load; by eauto 6|]. intros org' s8 _ _ _. apply sound_publish.
Qed.

(** The requests of the API. *)
Inductive request :=
| ReqLoad (req : MetadataProposal)
| ReqCreate (req : MetadataProposal) (cp : OrderStoreProposal) (orderId : Z) (content : bytes)
| ReqUpdate (req : MetadataProposal) (cp : OrderStoreProposal) (orderId : Z) (patch : bytes)
| ReqDelete (req : OrderTerminateProposal) (isPublish : bool)
| ReqShowCommits (req : MetadataProposal)
| ReqRenew (req : OrderRenewProposal) (isPublish : bool)
| ReqUpdatePermission (req : PermissionProposal) (isPublish : bool).

(** The pointer a request returns, if it returns one into the heap. *)
Definition handle (r : request) : GoM mm (option ptr) :=
  match r with
  | ReqLoad req => p <- Load req ;; ret (Some p)
  | ReqCreate req cp orderId content => p <- Create req cp orderId content ;; ret (Some p)
  | ReqUpdate req cp orderId patch => p <- Update req cp orderId patch ;; ret (Some p)
  | ReqDelete req isPublish => Delete req isPublish ;; ret None
  | ReqShowCommits req => ShowCommits req ;; ret None
  | ReqRenew req isPublish => Renew req isPublish ;; ret None
  | ReqUpdatePermission req isPublish => UpdatePermission req isPublish ;; ret None
  end.

Lemma sound_Delete r isPublish s : sound (Delete r isPublish) s (fun _ _ => True).
Proof.
  unfold Delete. eapply (sound_bind _ _ _ (fun _ _ => True)).
  { destruct isPublish; [|by apply sound_ret]. apply sound_recorded. intros Hq. apply Hq. }
  intros [] s1 _ _ _. eapply sound_bind; [apply sound_attempt, sound_Get|].
  intros [[[t|p]|]|e] s2 _ _ Hp; [by apply sound_ret| |by apply sound_ret..].
  eapply sound_bind; [by apply sound_load|]. intros m s3 _ _ _.
  eapply sound_bind; [apply sound_Evict|]. intros [] s4 _ _ _.
  eapply sound_bind; [apply sound_Evict|]. by intros; apply sound_ret.
Qed.

Lemma sound_handle r s :
  sound (handle r) s (fun o s' => match o with Some p => alive p s' | None => True end).
Proof.
  destruct r; cbn [handle].
  1: eapply sound_bind; [apply sound_Load|by intros; apply sound_ret].
  1: eapply sound_bind; [apply sound_Create|by intros; apply sound_ret].
  1: eapply sound_bind; [apply sound_Update|by intros; apply sound_ret].
  1: eapply sound_bind; [apply sound_Delete|by intros; apply sound_ret].
  - eapply (sound_bind _ _ _ (fun _ _ => True)); [|by intros; apply sound_ret].
    eapply sound_bind; [apply sound_QueryMeta|]. by intros; apply sound_ret.
  - eapply (sound_bind _ _ _ (fun _ _ => True)); [|by intros; apply sound_ret]. unfold Renew.
    destruct isPublish; [|by apply sound_ret]. apply sound_recorded. intros Hq. apply Hq.
  - eapply (sound_bind _ _ _ (fun _ _ => True)); [|by intros; apply sound_ret]. unfold UpdatePermission.
    eapply (sound_bind _ _ _ (fun _ _ => True)); [|by intros; apply sound_ret].
    destruct isPublish; [|by apply sound_ret]. apply sound_recorded. intros Hq. apply Hq.
Qed.

Definition serve (rs : list request) : GoM mm unit :=
  for_each rs (fun r => ignore (handle r)).

(** C20: from a state in which the cache has no dangling pointer, whatever requests
    come, it never has one, models are never freed or renamed, a pointer that a request
    returns is to a model, and no request makes the manager panic unless the gateway or
    the cache panics. *)
Theorem models_allocated rs s :
  mm_inv s ->
  let s' := (serve rs s).2 in
  mm_inv s' /\ grows s s' /\ (quiet -> (serve rs s).1 = Ret tt) /\
  forall r p, (handle r s').1 = Ret (Some p) -> is_Some (mm_heap (handle r s').2 !! p).
Proof.
  intros Hi. assert (sound (serve rs) s (fun _ _ => True)) as Hs.
  { apply sound_for_each. intros r s1 _. unfold ignore.
    eapply sound_bind; [apply sound_attempt, sound_handle|]. by intros; apply sound_ret. }
  destruct (Hs Hi) as (Hi' & Hg & Hr & _). split_and!; [done..| |].
  - intros Hq. specialize (Hr Hq).
    assert (forall e, (serve rs s).1 <> Fail e) as Hne.
    { clear. unfold serve. revert s. induction rs as [|r rs IH]; intros s e; [done|].
      cbn [for_each]. unfold bind at 1, ignore at 1, bind at 1, attempt at 1.
      destruct (handle r s) as [[] s1]; cbn; try done; apply IH. }
    destruct (serve rs s).1 as [[]|e| |]; [done|by destruct (Hne e)|destruct Hr|destruct Hr].
  - intros r p Hp. destruct (sound_handle r _ Hi') as (_ & _ & _ & Ha). by rewrite Hp in Ha.
Qed.

(** ** Committing *)

(** Only calls that read were made. *)
Definition reads s s' : Prop := exists l, mm_calls s' = mm_calls s ++ l /\ Forall is_read l.

#[global] Instance reads_preorder : PreOrder reads.
Proof.
  split; [intros s; exists []; by rewrite app_nil_r|].
  intros s1 s2 s3 (l1 & E1 & F1) (l2 & E2 & F2). exists (l1 ++ l2).
  rewrite E2, E1, app_assoc. split; [done|]. by apply Forall_app.
Qed.
Lemma reads_same s s' : mm_calls s' = mm_calls s -> reads s s'.
Proof. intros E. exists []. by rewrite E, app_nil_r. Qed.

Lemma on_cache_reads {A} (m : GoM C A) : steps reads (on_cache m).
Proof. apply steps_zoom. intros s. by apply reads_same. Qed.
Lemma on_valid_reads {A} (m : GoM vstate A) : steps reads (on_valid m).
Proof. apply steps_zoom. intros s. by apply reads_same. Qed.
Lemma new_reads m : steps reads (new m).
Proof. intros s. by apply reads_same. Qed.
Lemma load_reads p : steps reads (load p).
Proof. unfold load. go_steps. Qed.
Lemma store_reads p f : steps reads (store p f).
Proof.
  unfold store. apply steps_bind; [typeclasses eauto|apply load_reads|].
  intros m. apply steps_modify. intros s. by apply reads_same.
Qed.
Lemma recorded_reads {A} (ev : A + error -> gw_call) (m : GoM G A) :
  (forall r, is_read (ev r)) -> steps reads (recorded ev m).
Proof.
  intros Hev. unfold recorded. apply steps_bind; [typeclasses eauto| |intros r; apply steps_bind;
    [typeclasses eauto| |intros; go_steps]].
  - apply steps_attempt, steps_zoom. intros s. by apply reads_same.
  - apply steps_modify. intros s. exists [ev r]. split; [done|]. by repeat constructor.
Qed.
Hint Resolve on_cache_reads on_valid_reads new_reads load_reads store_reads : go.
Hint Extern 2 (steps reads (recorded _ _)) => (apply recorded_reads; done) : go.

Lemma QueryMeta_reads req h : steps reads (call_QueryMeta req h).
Proof. unfold call_QueryMeta. auto with go. Qed.
Lemma FetchContent_reads req meta : steps reads (call_FetchContent req meta).
Proof. unfold call_FetchContent. auto with go. Qed.
Hint Resolve QueryMeta_reads FetchContent_reads : go.

Lemma loadModel_reads account key : steps reads (loadModel account key).
Proof. unfold ModelManager.loadModel. go_steps. Qed.
Lemma cacheModel_reads account p : steps reads (cacheModel account p).
Proof. unfold ModelManager.cacheModel. go_steps. Qed.
Lemma select_version_reads req meta : steps reads (select_version req meta).
Proof. unfold select_version. go_steps. Qed.
Lemma select_commit_reads req sel : steps reads (select_commit req sel).
Proof.
  unfold select_commit. destruct (String.eqb _ _); [go_steps|]. generalize 0.
  induction (mo_Commits sel.1) as [|commit rest IH]; intros i; cbn [find_commit]; go_steps.
Qed.
Hint Resolve loadModel_reads cacheModel_reads select_version_reads select_commit_reads : go.

Lemma Load_reads req : steps reads (Load req).
Proof. unfold ModelManager.Load. go_steps. Qed.
Hint Resolve Load_reads : go.
Lemma validateModel_reads account alias b rule : steps reads (validateModel account alias b rule).
Proof.
  unfold ModelManager.validateModel, ModelManager.check_element, ModelManager.resolve_schema, check_schema.
  go_steps.
Qed.
Lemma refuse_cached_reads account key : steps reads (refuse_cached account key).
Proof. unfold ModelManager.refuse_cached. go_steps. Qed.
Lemma original_reads req meta lastCommitId : steps reads (original req meta lastCommitId).
Proof. unfold ModelManager.original. go_steps. Qed.

Lemma wpn_sound {A} (m : GoM mm A) s R (Q : A + error -> mm -> Prop) :
  mm_inv s -> sound m s R -> wpn m s (fun r s' => mm_inv s' -> grows s s' -> Q r s') -> wpn m s Q.
Proof.
  intros Hi Hs HQ. destruct (Hs Hi) as (Hi' & Hg & _ & _). unfold wpn, wp, on_return in *.
  destruct (m s).1; auto.
Qed.
Lemma wpn_reads {A} (m : GoM mm A) s R (Q : A + error -> mm -> Prop) :
  mm_inv s -> sound m s R -> steps reads m ->
  (forall r s', mm_inv s' -> grows s s' -> reads s s' -> Q r s') -> wpn m s Q.
Proof. intros Hi Hs Hr HQ. eapply wpn_sound; [done..|]. eapply wpn_steps; [exact Hr|]. auto. Qed.

(** The calls of a request that commits [content], or tries to. *)
Definition committed s (cp : OrderStoreProposal) (orderId : Z) (content : bytes)
    (result : CommitResult) (l : list gw_call) s' : Prop :=
  mm_calls s' = mm_calls s ++ l ++ [CallCommitModel cp orderId content (inl result)] /\
  Forall is_read l /\ exists g, api_CommitModel cp orderId content g = (Ret result, mm_gw s').
Definition uncommitted s (cp : OrderStoreProposal) (orderId : Z) s' : Prop :=
  exists l l', mm_calls s' = mm_calls s ++ l ++ l' /\ Forall is_read l /\
    (l' = [] \/ exists content e, l' = [CallCommitModel cp orderId content (inr e)]).

Lemma reads_uncommitted cp orderId s s' : reads s s' -> uncommitted s cp orderId s'.
Proof. intros (l & E & F). exists l, []. rewrite app_nil_r. auto. Qed.

(** A checked content is committed. *)
Lemma commit_spec cp orderId content (k : CommitResult -> GoM mm ptr) s0 s (Q : ptr + error -> mm -> Prop) :
  reads s0 s ->
  (forall s', uncommitted s0 cp orderId s' -> forall e, Q (inr e) s') ->
  (forall result l g, mm_calls s = mm_calls s0 ++ l -> Forall is_read l ->
     api_CommitModel cp orderId content (mm_gw s) = (Ret result, g) ->
     wpn (k result) (with_call s g (CallCommitModel cp orderId content (inl result))) Q) ->
  wpn (result <- call_CommitModel cp orderId content ;; k result) s Q.
Proof.
  intros (l & El & Fl) Hun Hok. apply wpn_bind, wpn_recorded_run; [intros result g Hg; by eapply Hok|].
  intros e g _. apply Hun. exists l, [CallCommitModel cp orderId content (inr e)]. cbn. rewrite El, app_assoc.
  split_and!; [done..|right; eauto].
Qed.

(** A new model is put into the cache and returned. *)
Lemma publish_spec account m s (Q : ptr + error -> mm -> Prop) :
  (forall p s', mm_heap s' !! p = Some (kept m) -> mm_calls s' = mm_calls s -> mm_gw s' = mm_gw s ->
     Q (inl p) s') ->
  wpn (model <- new m ;; cacheModel account model ;; ret model) s Q.
Proof.
  intros HQ. apply wpn_bind. unfold wpn at 1, wp at 1. cbn. apply wpn_bind, cacheModel_spec.
  2: { cbn. rewrite lookup_insert_eq. by eexists. }
  intros m' c Em. cbn in Em. rewrite lookup_insert_eq in Em. injection Em as <-. apply HQ; [|done..].
  cbn. by rewrite lookup_insert_eq.
Qed.

Definition alias_of (p : Proposal) : string := if String.eqb (pr_Alias p) "" then pr_Cid p else pr_Alias p.

(** A look-up of the cache that refuses a model it holds. *)
Lemma refuse_cached_spec account key s :
  wpn (refuse_cached account key) s (fun r s' => exists c, s' = with_cache s c /\
    match r with
    | inl _ => not_held account key (mm_cache s) /\ loadModel account key s = (Ret None, s')
    | inr _ => True
    end).
Proof.
  unfold ModelManager.refuse_cached. unfold wpn, wp, bind.
  pose proof (loadModel_cache account key s (fun r s' => exists c, s' = with_cache s c /\
    match r with inl None => not_held account key (mm_cache s) | _ => True end)) as Hl.
  unfold wpn, wp in Hl. destruct (loadModel account key s) as [[[p|]|e| |] s1] eqn:E; cbn in *; try done.
  - destruct Hl as (c & -> & _); [eauto..|]. unfold load, bind, gets, deref. destruct (mm_heap _ !! p); cbn; eauto.
  - destruct Hl as (c & -> & Hn); [eauto..|]. exists c. by split_and!.
  - destruct Hl as (c & -> & _); eauto.
Qed.

(** C19: a create that returns a model has committed exactly once, with the content of
    the request: after it found no model under the keys of the proposal in the cache,
    after the query for the metadata of the request ended with an error (of any kind:
    an answer of the chain would have been a conflict), and after the content was
    validated; the content and the size of the proposal are not empty, and the model is
    the first version, with one commit, under the alias of the proposal or its cid.
    A create that fails has committed nothing. *)
Theorem create_outcome req cp orderId content s :
  mm_inv s ->
  let p := osp_Proposal cp in
  wpn (Create req cp orderId content) s (fun r s' =>
    match r with
    | inl ptr => exists l e result, committed s cp orderId content result l s' /\
        not_held (pr_Owner p) (pr_DataId p +:+ pr_DataId p) (mm_cache s) /\
        (exists s1, loadModel (pr_Owner p) (pr_DataId p +:+ pr_DataId p) s = (Ret None, s1) /\
           not_held (pr_Owner p) (alias_of p +:+ pr_DataId p) (mm_cache s1)) /\
        head l = Some (CallQueryMeta req 0 (inr e)) /\ pr_Size p <> 0 /\ content <> [] /\
        (exists s1, (validateModel (pr_Owner p) (alias_of p) content (pr_Rule p) s1).1 = Ret tt) /\
        mm_heap s' !! ptr = Some (kept (created p (alias_of p) result content))
    | inr _ => uncommitted s cp orderId s'
    end).
Proof.
  intros Hi. cbv zeta. unfold ModelManager.Create. fold (alias_of (osp_Proposal cp)). set (p := osp_Proposal cp).
  apply wpn_bind. eapply wpn_mono; [apply refuse_cached_spec|].
  intros [[]|e1] s1 (c1 & -> & Hn1); [|by apply reads_uncommitted, reads_same].
  apply wpn_bind. eapply wpn_mono; [apply refuse_cached_spec|].
  intros [[]|e2] s2 (c2 & -> & Hn2); [|by apply reads_uncommitted, reads_same].
  apply wpn_bind, wpn_attempt, wpn_recorded. intros [meta|e] g.
  { apply wpn_fail, reads_uncommitted. eexists. split; [done|]. by repeat constructor. }
  set (s3 := with_call _ g _). assert (mm_calls s3 = mm_calls s ++ [CallQueryMeta req 0 (inr e)]) as El by done.
  assert (reads s s3) as Hr3 by (eexists; split; [exact El|by repeat constructor]).
  destruct (Z.eqb_spec (pr_Size p) 0) as [|Hsize]; cbn [orb]; [by apply wpn_fail, reads_uncommitted|].
  destruct (Z.eqb_spec (Z.of_nat (length content)) 0) as [|Hlen];
    [by apply wpn_fail, reads_uncommitted|].
  apply wpn_bind. pose proof (validateModel_reads (pr_Owner p) (alias_of p) content (pr_Rule p) s3) as Hv.
  unfold wpn, wp. destruct (validateModel _ _ _ _ s3) as [[[]|e3| |] s4] eqn:Ev; cbn in Hv |- *;
    [|apply reads_uncommitted; by etrans|done..].
  apply (commit_spec cp orderId content _ s); [by etrans|auto|].
  intros result l' g' El' Fl' Hg. apply publish_spec. intros ptr s5 Hp Hc Hgw.
  exists l', e, result. split.
  { split; [rewrite Hc; cbn; by rewrite El', app_assoc|]. split; [done|]. rewrite Hgw. by eexists. }
  split; [by destruct Hn1|]. split; [eexists; split; [by destruct Hn1|by destruct Hn2]|].
  split_and!; [|done|by intros ->|by exists s3; rewrite Ev|done].
  destruct Hv as (l2 & E2 & _). rewrite E2, El, <-app_assoc in El'. by apply app_inv_head in El' as <-.
Qed.

(** The model an update starts from: the one the cache holds for the owner, under the
    keyword and the commit the update names, which is the latest commit and has content;
    or the latest metadata with its content just fetched. *)
Definition based_on s req meta (lastCommitId : string) org (l : list gw_call) : Prop :=
  mo_CommitId org = mo_CommitId meta /\
  ((mo_CommitId org = lastCommitId /\ mo_Content org <> [] /\ EnableCache = true /\
    exists p c, held (mo_Owner meta) (qp_Keyword (mtp_Proposal req) +:+ lastCommitId) (mm_cache s) p c /\
      mm_heap s !! p = Some org) \/
   exists res, CallFetchContent req meta (inl res) ∈ l /\ org = mo_set_Content (fr_Content res) (model_of_meta meta)).

Lemma original_spec req meta lastCommitId s :
  wpn (original req meta lastCommitId) s (fun r s' =>
    match r with
    | inl p => exists org l, mm_heap s' !! p = Some org /\ mm_calls s' = mm_calls s ++ l /\
        Forall is_read l /\ based_on s req meta lastCommitId org l
    | inr _ => reads s s'
    end).
Proof.
  unfold ModelManager.original.
  assert (forall s1, mm_calls s1 = mm_calls s ->
    wpn (p <- new (model_of_meta meta) ;; result <- call_FetchContent req meta ;;
         store p (mo_set_Content (fr_Content result)) ;; ret p) s1 (fun r s' =>
    match r with
    | inl p => exists org l, mm_heap s' !! p = Some org /\ mm_calls s' = mm_calls s ++ l /\
        Forall is_read l /\ based_on s req meta lastCommitId org l
    | inr _ => reads s s'
    end)) as Hfetch.
  { intros s1 E1. apply wpn_bind. unfold wpn at 1, wp at 1. cbn. apply wpn_bind, wpn_recorded. cbn.
    intros [res|e] g.
    2: { eexists. split; [cbn; by rewrite E1|]. by repeat constructor. }
    apply wpn_bind, wpn_store. cbn. intros m Em. rewrite lookup_insert_eq in Em. injection Em as <-.
    eexists _, [_]. rewrite lookup_insert_eq, E1. split_and!; [done..|by repeat constructor|].
    split; [done|]. right. exists res. split; [by left|done]. }
  apply wpn_bind, loadModel_cache; [intros p c He Hheld|intros c _; by apply wpn_bind, wpn_ret, Hfetch].
  apply wpn_bind, wpn_bind, wpn_load. intros m Hm. apply wpn_ret.
  destruct (_ && _) eqn:Eh; [|by apply Hfetch]. apply wpn_ret.
  apply andb_prop in Eh as [[Hl Hn]%andb_prop Hc]. apply String.eqb_eq in Hl, Hc.
  exists m, []. cbn. rewrite app_nil_r. split_and!; [done..|]. split; [done|]. left.
  split; [done|]. split; [intros E; by rewrite E in Hn|]. split; [done|]. by exists p, c.
Qed.

(** How an update ends. *)
Definition updated_as req (cp : OrderStoreProposal) (orderId : Z) (patch : bytes) s
    (r : ptr + error) s' : Prop :=
  let p := osp_Proposal cp in
    match r with
    | inl ptr => exists lastCommitId commitId meta org org' content c l result,
        Split (pr_CommitId p) "|" = [lastCommitId; commitId] /\
        committed s cp orderId content result l s' /\ CallQueryMeta req 0 (inl meta) ∈ l /\
        based_on s req meta lastCommitId org l /\
        (ApplyPatch (mo_Content org) patch = inl content /\ content <> mo_Content org /\
         Z.of_nat (length content) = wrap_i64 (pr_Size p) /\
         CalculateCid content = inl c /\ cid_String c = pr_Cid p) /\
        (exists s1, (validateModel (pr_Owner p) (pr_Alias p) content (pr_Rule p) s1).1 = Ret tt) /\
        mo_DataId org' = mo_DataId org /\ mo_Alias org' = mo_Alias org /\
        mm_heap s' !! ptr = Some (kept (updated p org' commitId result content))
    | inr _ => uncommitted s cp orderId s'
    end.

Lemma Update_spec req cp orderId patch s :
  mm_inv s -> wpn (Update req cp orderId patch) s (updated_as req cp orderId patch s).
Proof.
  intros Hi. unfold updated_as. cbv zeta. unfold ModelManager.Update. set (p := osp_Proposal cp).
  destruct (Split (pr_CommitId p) "|") as [|lastCommitId [|commitId [|]]] eqn:Es;
    try (apply wpn_fail; by apply reads_uncommitted).
  apply wpn_bind. eapply wpn_sound; [done|apply sound_QueryMeta|]. apply wpn_recorded.
  intros [meta|e] g Hi1 _.
  2: { apply reads_uncommitted. eexists. split; [done|]. by repeat constructor. }
  set (s1 := with_call s g _) in *.
  apply wpn_bind. eapply wpn_sound; [done|apply sound_original|].
  eapply wpn_mono; [apply original_spec|]. intros [ptr|e] s2 Ho Hi2 _.
  2: { apply reads_uncommitted. etrans; [|exact Ho]. eexists. split; [done|]. by repeat constructor. }
  destruct Ho as (org & l & Horg & El & Fl & Hb).
  set (l1 := CallQueryMeta req 0 (inl meta) :: l).
  assert (mm_calls s2 = mm_calls s ++ l1) as El1 by (rewrite El; subst s1 l1; cbn; by list_simplifier).
  assert (Forall is_read l1) as Fl1 by by constructor.
  assert (reads s s2) as Hr by by exists l1.
  apply wpn_bind, wpn_load. intros m Em. assert (m = org) as -> by congruence.
  apply wpn_lift; [|by intros; apply reads_uncommitted]. intros content Hpatch.
  case_bool_decide as Hne; [by apply wpn_fail, reads_uncommitted|].
  destruct (Z.eqb_spec (Z.of_nat (length content)) (wrap_i64 (pr_Size p))) as [Hsize|]; cbn [negb];
    [|by apply wpn_fail, reads_uncommitted].
  apply wpn_lift; [|by intros; apply reads_uncommitted]. intros c Hcid.
  destruct (String.eqb_spec (cid_String c) (pr_Cid p)) as [Hc|]; cbn [negb];
    [|by apply wpn_fail, reads_uncommitted].
  apply wpn_bind. eapply wpn_sound; [done|apply sound_validateModel|].
  pose proof (validateModel_reads (pr_Owner p) (pr_Alias p) content (pr_Rule p) s2) as Hv.
  unfold wpn, wp. destruct (validateModel _ _ _ _ s2) as [[[]|e3| |] s3] eqn:Ev; cbn in Hv |- *;
    [|intros _ _; apply reads_uncommitted; by etrans|done..].
  intros Hi3 Hg3. destruct (Hg3 ptr org Horg) as (org' & Horg' & Hd & Ha).
  apply (commit_spec cp orderId content _ s); [by etrans|auto|].
  intros result l' g' El' Fl' Hg. apply wpn_bind, wpn_load. cbn. intros m Em'.
  assert (m = org') as -> by congruence. apply publish_spec. intros q s5 Hq Hcom Hgw.
  assert (committed s cp orderId content result l' s5) as Hcommit.
  { split; [rewrite Hcom; cbn; by rewrite El', app_assoc|]. split; [done|]. rewrite Hgw. by eexists. }
  assert (l1 `prefix_of` l') as [l2 El2].
  { destruct Hv as (l2 & E2 & _). exists l2. rewrite E2, El1, <-app_assoc in El'.
    by apply app_inv_head in El' as <-. }
  exists lastCommitId, commitId, meta, org, org', content, c, l', result.
  split; [done|]. split; [exact Hcommit|]. split; [subst l' l1; by left|]. split.
  { destruct Hb as [Hid [Hb|(res & Hres & Hcont)]]; (split; [done|]); [by left|right].
    exists res. split; [|done]. subst l' l1. set_solver. }
  split; [split_and!; [done|by intros ->|done..]|]. split; [by exists s2; rewrite Ev|done].
Qed.

(** C2: an update that returns a model has committed exactly once; the content it
    committed is the patched content of the latest model on the chain, differs from it, has the
    size and the cid that the client signed, and was validated. The new model adds one
    commit to those of its predecessor, under its data id and alias. An update that
    fails has committed nothing. *)
Theorem update_outcome req cp orderId patch s :
  mm_inv s -> wpn (Update req cp orderId patch) s (updated_as req cp orderId patch s).
Proof. apply Update_spec. Qed.

(** ** A failed fetch *)
Lemma run_recorded {A} (ev : A + error -> gw_call) (m : GoM G A) s a g :
  m (mm_gw s) = (Ret a, g) -> recorded ev m s = (Ret a, with_call s g (ev (inl a))).
Proof. intros E. unfold recorded, bind, attempt, on_gw, zoom. by rewrite E. Qed.
Lemma run_recorded_fail {A} (ev : A + error -> gw_call) (m : GoM G A) s e g :
  m (mm_gw s) = (Fail e, g) -> recorded ev m s = (Fail e, with_call s g (ev (inr e))).
Proof. intros E. unfold recorded, bind, attempt, on_gw, zoom. by rewrite E. Qed.
Lemma run_load p s m : mm_heap s !! p = Some m -> load p s = (Ret m, s).
Proof. intros E. unfold load, bind, gets, deref. by rewrite E. Qed.
Lemma run_loadModel account key s p c :
  EnableCache = true -> cache_Get account key (mm_cache s) = (Ret (Some (CModel p)), c) ->
  loadModel account key s = (Ret (Some p), with_cache s c).
Proof.
  intros He E. unfold ModelManager.loadModel. rewrite He. cbn [negb].
  erewrite bind_run; [|unfold attempt, on_cache, zoom; rewrite E; reflexivity]. done.
Qed.

(** A load that finds another commit in the cache overwrites the metadata of the
    cached model before it fetches the content. When the fetch fails, the model is left
    with the latest commit and the old content, and the next load of the latest commit
    answers with that content out of the cache. *)
Theorem failed_fetch_poisons req s meta p m g1 g2 g3 c1 c2 e :
  EnableCache = true ->
  qp_CommitId (mtp_Proposal req) = "" -> qp_Version (mtp_Proposal req) = "" ->
  api_QueryMeta req 0 (mm_gw s) = (Ret meta, g1) ->
  cache_Get (mo_Owner meta) (load_key req meta) (mm_cache s) = (Ret (Some (CModel p)), c1) ->
  mm_heap s !! p = Some m -> mo_CommitId m <> mo_CommitId meta -> mo_Content m <> [] ->
  api_FetchContent req meta g1 = (Fail e, g2) ->
  api_QueryMeta req 0 g2 = (Ret meta, g3) ->
  cache_Get (mo_Owner meta) (load_key req meta) c1 = (Ret (Some (CModel p)), c2) ->
  exists s1 s2 m', Load req s = (Fail e, s1) /\ Load req s1 = (Ret p, s2) /\
    mm_heap s2 !! p = Some m' /\ mo_CommitId m' = mo_CommitId meta /\ mo_Content m' = mo_Content m.
Proof.
  intros He Hc Hv Hq1 Hg1 Hm Hne Hcont Hf Hq2 Hg2.
  assert (is_hit req meta m = false) as Hmiss.
  { unfold is_hit. rewrite (proj2 (String.eqb_neq (mo_CommitId meta) (mo_CommitId m))) by done. apply andb_false_r. }
  set (m' := mo_set_Meta meta m). assert (is_hit req meta m' = true) as Hhit.
  { unfold is_hit. rewrite Hc. cbn. rewrite String.eqb_refl, andb_true_r. apply Z.ltb_lt.
    destruct (mo_Content m); [done|cbn; lia]. }
  eexists _, _, m'. split_and!.
  - unfold ModelManager.Load. erewrite bind_run by by apply run_recorded.
    erewrite bind_run by by apply run_loadModel.
    erewrite bind_run by (erewrite bind_run by (apply run_load; exact Hm); reflexivity).
    rewrite Hmiss. unfold select_version, select_commit. rewrite Hv, Hc. cbn [String.eqb].
    erewrite bind_run by reflexivity. erewrite bind_run by reflexivity. cbn [fst snd].
    erewrite bind_run.
    2: { erewrite bind_run; [reflexivity|]. unfold store. erewrite bind_run by (apply run_load; exact Hm).
      reflexivity. }
    unfold bind at 1. unfold call_FetchContent.
    erewrite run_recorded_fail by exact Hf. reflexivity.
  - unfold ModelManager.Load. erewrite bind_run by by apply run_recorded.
    erewrite bind_run by by apply run_loadModel.
    erewrite bind_run.
    2: { erewrite bind_run; [reflexivity|]. apply run_load. cbn. rewrite lookup_alter_eq, Hm. reflexivity. }
    fold m'. rewrite Hhit. reflexivity.
  - cbn. by rewrite lookup_alter_eq, Hm.
  - done.
  - done.
Qed.
End ModelManager.

(** ** The text of a patch *)
Section PatchText.
Context `{!PatchLib}.

Definition is_remove (op : PatchOp) : bool := String.eqb (op_Operation op) "remove".

Lemma split_operations_spec patchs r o :
  split_operations patchs r o =
  (r ++ (op_Json <$> List.filter is_remove patchs),
   o ++ (op_Json <$> List.filter (fun op => negb (is_remove op)) patchs)).
Proof.
  revert r o. induction patchs as [|op patchs IH]; intros r o; cbn [split_operations List.filter].
  { cbn. by rewrite !app_nil_r. }
  fold (is_remove op). destruct (is_remove op); cbn; rewrite IH, <-app_assoc; done.
Qed.

Lemma print_removes_spec fuel operations l :
  (length l <= fuel)%nat -> print_removes fuel operations l = foldl print_operation operations (rev l).
Proof.
  revert operations l. induction fuel as [|fuel IH]; intros operations l Hl.
  { destruct l; [done|cbn in Hl; lia]. }
  destruct l as [|x l _] using rev_ind; [done|]. cbn [print_removes]. rewrite last_snoc, length_app, rev_app_distr.
  cbn [length rev app foldl]. rewrite length_app in Hl. cbn in Hl.
  rewrite Nat.add_sub, take_app_length. apply IH. lia.
Qed.

(** The text so far is an opening bracket and some operations. *)
Lemma print_operations_spec done_ops l :
  Forall (fun t => t <> "") (done_ops ++ l) ->
  foldl print_operation ("[" +:+ String.concat "," done_ops) l
  = "[" +:+ String.concat "," (done_ops ++ l).
Proof.
  revert done_ops. induction l as [|t l IH]; intros done_ops Hall; cbn [foldl]; [by rewrite app_nil_r|].
  specialize (IH (done_ops ++ [t])). rewrite <-app_assoc in IH. cbn [app] in IH.
  rewrite <-IH by done. f_equal. apply Forall_app in Hall as [Hd Ht]. unfold print_operation.
  assert (forall ts, Forall (fun t => t <> "") ts -> ts <> [] ->
    String.concat "," (ts ++ [t]) = (String.concat "," ts +:+ ",") +:+ t) as Hsnoc.
  { intros ts. induction ts as [|u [|v ts] IHt]; [done| |].
    - intros _ _. cbn [app String.concat]. by rewrite str_app_assoc.
    - intros Hts _. apply Forall_cons in Hts as [Hu Hts]. cbn [app]. 
      change (String.concat "," (u :: v :: ts ++ [t])) with (u +:+ "," +:+ String.concat "," ((v :: ts) ++ [t])).
      rewrite IHt by done.
      change (String.concat "," (u :: v :: ts)) with (u +:+ "," +:+ String.concat "," (v :: ts)).
      by rewrite !str_app_assoc. }
  destruct done_ops as [|u ts]; [done|].
  destruct (String.eqb_spec ("[" +:+ String.concat "," (u :: ts)) "[") as [E|_].
  - exfalso. apply Forall_cons in Hd as [Hu _]. destruct u as [|a u]; [done|].
    destruct ts; cbn [String.concat] in E; autorewrite with str in E; discriminate.
  - rewrite Hsnoc by done. by rewrite !str_app_assoc.
Qed.

(** The text of a patch lists the removals in reverse order and then the other
    operations in their order, between brackets and separated by commas. *)
Theorem GeneratePatch_order origin target patchs :
  json_Valid (string_bytes origin) = None ->
  CreatePatch (string_bytes origin) (string_bytes target) = Some (inl patchs) ->
  Forall (fun op => op_Json op <> "") patchs ->
  GeneratePatch origin target =
    inl ("[" +:+ String.concat "," (op_Json <$> rev (List.filter is_remove patchs) ++
           List.filter (fun op => negb (is_remove op)) patchs) +:+ "]").
Proof.
  intros Hv Hp Hall. unfold GeneratePatch. rewrite Hv, Hp, split_operations_spec. cbn [app].
  rewrite print_removes_spec by done. rewrite <-foldl_app.
  change "[" with ("[" +:+ String.concat "," []) at 1.
  rewrite print_operations_spec; cbn [app].
  - rewrite fmap_app, str_app_assoc.
    change (op_Json <$> rev (List.filter is_remove patchs)) with (map op_Json (rev (List.filter is_remove patchs))).
    by rewrite map_rev.
  - assert (forall f, Forall (fun t => t <> "") (op_Json <$> List.filter f patchs)) as Hf.
    { intros f. apply Forall_fmap, Forall_forall. intros op Hop%list_elem_of_In%filter_In.
      rewrite Forall_forall in Hall. apply Hall, list_elem_of_In, Hop. }
    apply Forall_app. split; [|apply Hf]. apply Forall_rev, Hf.
Qed.
End PatchText.
