(* ===== verification/ModelNode.v ===== *)
(** * The model manager of a node

    The LRU cache and the gateway service implement the interfaces of the manager;
    the laws of the cache are proved for the LRU cache.  [reader_without_cache] is
    about the two together. *)
From stdpp Require Import base list gmap strings.
From Stdlib Require Import ZArith Lia Ascii.
From S2P Require Import Prelude Types StateUtils Cbor CborTypes Queue StoreManager ChainApi Stage.
From S2P Require Import LruCache Gateway Validator ModelManager ModelTheorems.

(** ** The LRU cache *)
Section LruInstance.
Context `{!HamtMap}.

#[export] Instance lru_cache : CacheSvcApi (LruCacheSvc (V := cached)) := {
  cache_CreateCache := svc_CreateCache;
  cache_Get := svc_Get;
  cache_Put name key v := svc_Put name key (Some v);
  cache_Evict := svc_Evict
}.

(** Every value of a node satisfies [P]. *)
Definition value_ok (P : cached -> Prop) (n : Node (V := cached)) : Prop :=
  match n_Value n with Some v => P v | None => True end.
Definition nodes_ok (P : cached -> Prop) (h : gmap addr (Node (V := cached))) : Prop :=
  map_Forall (fun _ n => value_ok P n) h.

Section Nodes.
Context (P : cached -> Prop).
Abbreviation ok := (keeps (fun s : mem (V := cached) => nodes_ok P (m_heap s))).

Lemma load_ok p : steps ok (LruCache.load (V := cached) p).
Proof. unfold LruCache.load. go_steps. Qed.
Lemma set_lru_ok f : steps ok (set_lru (V := cached) f).
Proof. apply steps_modify. intros s Hs. exact Hs. Qed.
Lemma store_ok p f : (forall n, value_ok P n -> value_ok P (f n)) -> steps ok (LruCache.store (V := cached) p f).
Proof.
  intros Hf. unfold LruCache.store. go_steps. apply steps_modify. intros s Hs a' n.
  cbn [m_heap]. destruct (decide (a = a')) as [<-|Hne].
  - rewrite lookup_alter_eq. destruct (m_heap s !! a) as [n0|] eqn:E; [|done]. intros [= <-]. apply Hf. by eapply Hs.
  - rewrite lookup_alter_ne by done. apply Hs.
Qed.
Lemma new_ok n : value_ok P n -> steps ok (LruCache.new (V := cached) n).
Proof. intros Hn s Hs. by apply map_Forall_insert_2. Qed.
Hint Resolve load_ok set_lru_ok : go.
Hint Extern 2 (steps _ (LruCache.store _ _)) => (apply store_ok; done) : go.

Lemma removeNode_ok node : steps ok (removeNode (V := cached) node).
Proof. unfold removeNode. go_steps. Qed.
Lemma addNode_ok node : steps ok (addNode (V := cached) node).
Proof. unfold addNode. go_steps. Qed.
Hint Resolve removeNode_ok addNode_ok : go.
Lemma refreshNode_ok node : steps ok (refreshNode (V := cached) node).
Proof. unfold refreshNode. go_steps. Qed.
Hint Resolve refreshNode_ok : go.

Lemma get_ok key : steps ok (get (V := cached) key).
Proof. unfold get. go_steps. Qed.
Lemma put_ok key v : P v -> steps ok (put key (Some v)).
Proof.
  intros Hv. unfold put. apply steps_bind; [typeclasses eauto|go_steps|]. intros l.
  destruct (hamt_Find _ _); [go_steps; by apply store_ok|].
  apply steps_bind; [typeclasses eauto|by apply new_ok|go_steps].
Qed.
Lemma evict_ok key : steps ok (evict (V := cached) key).
Proof. unfold evict. go_steps. Qed.

Lemma get_held key s v :
  nodes_ok P (m_heap s) -> (get (V := cached) key s).1 = Ret (Some v) -> P v.
Proof.
  intros Hs. unfold get, bind at 1, gets. destruct (hamt_Find _ _) as [node|]; [|done].
  unfold bind at 1. pose proof (refreshNode_ok node s Hs) as Hr.
  destruct (refreshNode node s) as [[[]|e| |] s1]; cbn in Hr |- *; [|done..].
  unfold bind at 1. destruct (LruCache.load (Some node) s1) as [[n|e| |] s2] eqn:El; cbn; [|done..].
  intros [= Hv]. assert (m_heap s1 !! node = Some n) as E.
  { unfold LruCache.load, bind, gets in El. cbn in El. destruct (m_heap s1 !! node) as [n'|]; [|done].
    by injection El as ->. }
  specialize (Hr node n E). unfold value_ok in Hr. by rewrite Hv in Hr.
Qed.
End Nodes.

Lemma in_cache_ok {A} P name (m : GoM mem A) s :
  steps (keeps (fun s => nodes_ok P (m_heap s))) m -> nodes_ok P (cs_heap s) ->
  nodes_ok P (cs_heap (in_cache name m s).2).
Proof.
  intros Hm Hs. unfold in_cache. destruct (cs_Caches s !! name) as [l|]; [|done].
  specialize (Hm (Mem (cs_heap s) (cs_fresh s) l) Hs).
  by destruct (m (Mem (cs_heap s) (cs_fresh s) l)) as [o s'].
Qed.

Lemma in_cache_returns {A} name (m : GoM (mem (V := cached)) A) s e :
  (forall s', (m s').1 <> Fail e) -> (in_cache name m s).1 <> Fail e.
Proof.
  intros Hm. unfold in_cache. destruct (cs_Caches s !! name) as [l|]; [|done].
  specialize (Hm (Mem (cs_heap s) (cs_fresh s) l)).
  by destruct (m (Mem (cs_heap s) (cs_fresh s) l)) as [o s'].
Qed.

(** The methods of a cache return no error. *)
Definition no_error {S A} (m : GoM S A) : Prop := forall s e, (m s).1 <> Fail e.
Lemma no_error_bind {S A B} (m : GoM S A) (k : A -> GoM S B) :
  no_error m -> (forall a, no_error (k a)) -> no_error (bind m k).
Proof.
  intros Hm Hk s e. unfold bind. specialize (Hm s). destruct (m s) as [[a|e'| |] s']; cbn in *; [|by intros [= ->]; eapply Hm|done..].
  apply Hk.
Qed.
Lemma no_error_deref {S A} (p : option A) : no_error (S := S) (deref p).
Proof. by destruct p. Qed.
Ltac no_error :=
  repeat first [apply no_error_bind; [|intros ?] | apply no_error_deref | done
               | match goal with |- no_error (if ?b then _ else _) => destruct b end
               | match goal with |- no_error (match ?x with _ => _ end) => destruct x end
               | progress unfold set_lru, set_heap, LruCache.load, LruCache.store, LruCache.new,
                   removeNode, addNode, refreshNode ].
Lemma put_returns key v : no_error (put (V := cached) key v).
Proof. unfold put. no_error. Qed.
Lemma evict_returns key : no_error (evict (V := cached) key).
Proof. unfold evict. no_error. Qed.

#[export] Instance lru_cache_laws : CacheLaws (LruCacheSvc (V := cached)).
Proof.
  refine {| cache_holds P c := nodes_ok P (cs_heap c) |}.
  - intros P Q c HPQ Hc. eapply map_Forall_impl; [exact Hc|]. intros a n. unfold value_ok.
    destruct (n_Value n); [apply HPQ|done].
  - intros P n cap c Hc. cbn. unfold svc_CreateCache, bind, gets. by destruct (cs_Caches c !! n).
  - intros P n k c Hc. cbn. unfold svc_Get, bind, gets. destruct (cs_Caches c !! n); [|done].
    apply in_cache_ok; [apply get_ok|done].
  - intros P n k c v Hc. cbn. unfold svc_Get, bind, gets, in_cache.
    destruct (cs_Caches c !! n) as [l|] eqn:El; [rewrite El|done].
    pose proof (get_held P k (Mem (cs_heap c) (cs_fresh c) l) v Hc) as Hh.
    destruct (get k (Mem (cs_heap c) (cs_fresh c) l)) as [o s']. exact Hh.
  - intros P n k v c Hc Hv. apply in_cache_ok; [by apply put_ok|done].
  - intros n k v c e. apply in_cache_returns. intros s'. apply put_returns.
  - intros P n k c Hc. apply in_cache_ok; [apply evict_ok|done].
  - intros n k c e. apply in_cache_returns. intros s'. apply evict_returns.
Defined.
End LruInstance.

(** ** The gateway service *)
Section GatewayInstance.
Context `{!CborLib, !CborLaws, !CidLib, !ErrorText} {D W B : Type}.
Context `{!Datastore D, !StoreBackend W B, !ChainSvcApi W, !GatewayChain W, !ProposalLib,
          !GatewayProtocol W, !FileSys W, !Clock W, !GoRange, !GoRangeId}.
Context (nodeAddress localPeerId stagingPath serverPath keyringHome : string)
        (storeManager : StoreManager B) (ContentLimit : Z) (SaoIpfs_Enable : bool).

Definition gateway_api : GatewaySvcApi (@gw D W) W := {|
  api_QueryMeta := Gateway.QueryMeta;
  api_FetchContent := Gateway.FetchContent nodeAddress localPeerId serverPath keyringHome
                        storeManager ContentLimit SaoIpfs_Enable;
  api_CommitModel := Gateway.CommitModel nodeAddress stagingPath;
  api_TerminateOrder := Gateway.TerminateOrder nodeAddress;
  api_RenewOrder := Gateway.RenewOrder nodeAddress;
  api_UpdateModelPermission := Gateway.UpdateModelPermission nodeAddress
|}.
End GatewayInstance.

(** ** A reader without a cache *)
Section Reader.
Context `{!CidLib, !ErrorText, !JsonLib, !RuleLib, !GoRange, !HamtMap}
        {G W X : Type} `{!SchemaLib X, !GatewayChain W, !GatewaySvcApi G W}.
Context (CacheCapacity ContentLimit : Z).
Abbreviation mm := (@mm _ _ G W (LruCacheSvc (V := cached)) X _).
Implicit Types s : mm.

Lemma load_missing account key s other :
  cs_Caches (mm_cache s) !! account = None -> cs_Caches (mm_cache s) !! other = None ->
  other <> account ->
  exists c, loadModel true CacheCapacity account key s = (Ret None, with_cache s c) /\
    cs_Caches c !! other = None.
Proof.
  intros Ha Ho Hne. unfold loadModel. cbn [negb].
  erewrite bind_run.
  2: { unfold attempt, on_cache, zoom. cbn. unfold svc_Get, bind, gets. rewrite Ha. reflexivity. }
  cbv beta iota. destruct (Contains _ _).
  - eexists. split.
    + erewrite bind_run; [reflexivity|]. unfold ignore. erewrite bind_run; [reflexivity|].
      unfold attempt, on_cache, zoom. cbn. unfold svc_CreateCache, bind, gets. rewrite Ha. reflexivity.
    + cbn. by rewrite lookup_insert_ne.
  - exists (mm_cache s). split; [|done]. by destruct s.
Qed.

(** A load on behalf of a reader for whom there is no cache yet, of a model of
    somebody else, panics once the content was fetched: a cache is made for the owner of
    the model only, and the model is put into the one of the reader. The loads of schemas
    are such loads. *)
Theorem reader_without_cache req s meta res g1 g2 :
  qp_CommitId (mtp_Proposal req) = "" -> qp_Version (mtp_Proposal req) = "" ->
  api_QueryMeta req 0 (mm_gw s) = (Ret meta, g1) ->
  cs_Caches (mm_cache s) !! mo_Owner meta = None ->
  cs_Caches (mm_cache s) !! qp_Owner (mtp_Proposal req) = None ->
  qp_Owner (mtp_Proposal req) <> mo_Owner meta ->
  api_FetchContent req meta g1 = (Ret res, g2) ->
  (Load true CacheCapacity ContentLimit req s).1 = Panic.
Proof.
  intros Hc Hv Hq Ho Hr Hne Hf. unfold Load. erewrite bind_run by by apply run_recorded.
  set (s1 := with_call s g1 _).
  destruct (load_missing (mo_Owner meta) (load_key req meta) s1 (qp_Owner (mtp_Proposal req)))
    as (c & Hl & Hmiss); [done..|].
  erewrite bind_run by exact Hl. erewrite bind_run by reflexivity. cbv beta iota.
  unfold select_version, select_commit. rewrite Hv, Hc. cbn [String.eqb].
  erewrite bind_run by reflexivity. erewrite bind_run by reflexivity. cbn [fst snd].
  erewrite bind_run by reflexivity. erewrite bind_run by (apply run_recorded; exact Hf).
  erewrite bind_run.
  2: { unfold store. erewrite bind_run; [reflexivity|]. apply run_load. cbn. by rewrite lookup_insert_eq. }
  unfold bind at 1. unfold cacheModel. cbn [negb].
  match goal with |- context [bind (load ?p) _ ?st] =>
    assert (exists m, load p st = (Ret m, st)) as [m Em] end.
  { eexists. apply run_load. cbn. rewrite lookup_alter_eq, lookup_insert_eq. reflexivity. }
  erewrite bind_run by exact Em.
  match goal with |- context [bind ?body _ ?st] =>
    assert (exists h, body st = (Ret tt, with_heap st h (mm_fresh st))) as [h Eh] end.
  { destruct (ContentLimit <? _); [|by eexists].
    eexists. unfold store. erewrite bind_run by exact Em. reflexivity. }
  erewrite bind_run by exact Eh. unfold bind at 1, on_cache, zoom.
  cbn. unfold svc_Put, in_cache. by rewrite Hmiss.
Qed.
End Reader.

(** ** From an update to the storage node *)

(** The chain and the clock do not touch the files of the gateway. *)
Class FilesApart (W : Type) `{!FileSys W, !FileLaws W, !ChainSvcApi W, !GatewayChain W, !Clock W} := {
  StoreOrder_files a p w : files (chain_StoreOrder a p w).2 = files w;
  OrderReady_files a i w : files (chain_OrderReady a i w).2 = files w;
  GetOrder_files i w : files (chain_GetOrder i w).2 = files w;
  time_files w : files (time_Now w).2 = files w;
  time_healthy w : healthy w -> healthy (time_Now w).2
}.

Section Servable.
Context `{!CborLib, !CborLaws, !CidLib, !ErrorText, !JsonLib, !RuleLib, !GoRange, !PatchLib, !ContextLib}.
Context {D W B C X : Type} `{!SchemaLib X, !Datastore D, !StoreBackend W B, !ChainSvcApi W,
  !GatewayChain W, !ProposalLib, !GatewayProtocol W, !FileSys W, !FileLaws W, !Clock W, !GoRangeId,
  !FilesApart W, !CacheSvcApi C, !CacheLaws C}.
Context (nodeAddress localPeerId stagingPath serverPath keyringHome path : string)
        (storeManager : StoreManager B) (ContentLimit : Z) (SaoIpfs_Enable EnableCache : bool)
        (CacheCapacity CacheLimit : Z).
Context (Hpath : homedir_Expand stagingPath = inl path).
#[local] Instance the_gateway : GatewaySvcApi (@gw D W) W :=
  gateway_api nodeAddress localPeerId stagingPath serverPath keyringHome storeManager ContentLimit
    SaoIpfs_Enable.
Abbreviation gw := (@gw D W).
Abbreviation mm := (@mm _ _ gw W C X _).
Abbreviation staged := (fun g : gw => files (gw_w g)).

Lemma invoke_files {A} (c : call W A) :
  (forall w, files (c w).2 = files w) -> steps (same staged) (on_w (D:=D) (invoke c)).
Proof.
  intros Hc. apply steps_zoom. intros g. unfold same, invoke. specialize (Hc (gw_w g)).
  by destruct (c (gw_w g)) as [[] w'].
Qed.
Lemma on_ds_files {A} (m : GoM D A) : steps (same staged) (on_ds (W:=W) m).
Proof. by apply steps_zoom. Qed.
Lemma on_queue_files {A} (m : GoM RequestQueue A) : steps (same staged) (on_queue (D:=D) (W:=W) m).
Proof. by apply steps_zoom. Qed.
Lemma on_timeout_files f : steps (same staged) (on_timeout (D:=D) (W:=W) f).
Proof. by apply steps_modify. Qed.
Hint Resolve on_ds_files on_queue_files on_timeout_files : go.
Lemma StoreOrder_staged a p : steps (same staged) (on_w (D:=D) (invoke (chain_StoreOrder a p))).
Proof. apply invoke_files. intros w. apply StoreOrder_files. Qed.
Lemma OrderReady_staged a i : steps (same staged) (on_w (D:=D) (invoke (chain_OrderReady a i))).
Proof. apply invoke_files. intros w. apply OrderReady_files. Qed.
Lemma GetOrder_staged i : steps (same staged) (on_w (D:=D) (invoke (chain_GetOrder i))).
Proof. apply invoke_files. intros w. apply GetOrder_files. Qed.
Hint Resolve StoreOrder_staged OrderReady_staged GetOrder_staged : go.

(** A commit that succeeds leaves the content in the staging area. *)
Lemma commit_staged cp orderId content g r g' :
  Gateway.CommitModel (W:=W) (D:=D) nodeAddress stagingPath cp orderId content g = (Ret r, g') ->
  files (gw_w g') !! stage_path path (name_of (osp_Proposal cp)) = Some content.
Proof.
  unfold Gateway.CommitModel. cbv zeta. unfold bind at 1, on_w at 1, zoom at 1.
  pose proof (StageShard_spec stagingPath path (osp_Proposal cp) content (gw_w g) Hpath) as Hst.
  unfold wp in Hst. destruct (StageShard _ _ _ (gw_w g)) as [[fp|e| |] w1]; cbn in Hst; [|done..].
  destruct Hst as (_ & _ & Hfiles). intros Hrun.
  match type of Hrun with ?m ?g1 = _ => assert (steps (same staged) m) as Hsame end.
  { unfold submit_order, send_order. go_steps. }
  match type of Hrun with ?m ?g1 = _ => specialize (Hsame g1) end. unfold same in Hsame. rewrite Hrun in Hsame. cbn in Hsame.
  rewrite Hsame, Hfiles. apply lookup_insert_eq.
Qed.

(** What the gateway answers to a storage node that asks for the content of a shard. *)
Definition served (req : ShardLoadReq) (g : gw) (content : bytes) : Prop :=
  exists resp, (HandleShardStore (D:=D) stagingPath req g).1 = Ret resp /\
    (slp_Code resp = 0 -> slp_Content resp = content) /\
    (healthy (gw_w g) -> slp_Code resp = 0).

Lemma staged_served req g content :
  files (gw_w g) !! stage_path path (slr_Owner req, cid_String (slr_Cid req), slr_DataId req) = Some content ->
  served req g content.
Proof.
  intros Hf. unfold served, HandleShardStore. unfold bind at 1, on_w at 1, zoom at 1, invoke_total.
  pose proof (time_files (gw_w g)) as Htf. pose proof (time_healthy (gw_w g)) as Hth.
  destruct (time_Now (gw_w g)) as [now w1]. cbn [snd] in Htf, Hth. cbv zeta. cbn [gw_w].
  pose proof (GetStagedShard_spec stagingPath path (slr_Owner req) (slr_Cid req) (slr_DataId req) w1 Hpath) as Hg.
  unfold wp in Hg. unfold or_else, bind at 1, attempt, on_w, zoom. cbn [gw_w].
  destruct (GetStagedShard _ _ _ _ w1) as [[b|e| |] w2]; cbn [fst snd] in Hg |- *; [..|tauto|tauto].
  - eexists. split; [reflexivity|]. rewrite Htf, Hf in Hg. destruct Hg as (_ & _ & [= <-]). done.
  - eexists. split; [reflexivity|]. split; [done|]. intros Hh. exfalso.
    destruct Hg as (_ & _ & _ & Hnone). rewrite Htf, Hf in Hnone. by specialize (Hnone (Hth Hh)).
Qed.

(** C7: when an update succeeds, a storage node that asks the gateway for the content of
    the order gets, unless the files of the gateway fail, a content whose identifier is
    the one the client signed, so that the check of the storage node accepts it. *)
Theorem update_servable req cp orderId patch (s : mm) :
  mm_inv s ->
  let p := osp_Proposal cp in
  wpn (Update EnableCache CacheCapacity CacheLimit req cp orderId patch) s (fun r s' =>
    match r with
    | inl _ => forall load, slr_Owner load = pr_Owner p -> slr_DataId load = pr_DataId p ->
        cid_String (slr_Cid load) = pr_Cid p ->
        exists content c, CalculateCid content = inl c /\ cid_String c = cid_String (slr_Cid load) /\
          served load (mm_gw s') content
    | inr _ => True
    end).
Proof.
  intros Hi. cbv zeta. eapply wpn_mono; [by apply Update_spec|]. intros [ptr|e] s'; [|done].
  intros (last & next & meta & org & org' & content & c & l & result & Hu) load Ho Hd Hc.
  destruct Hu as (Hsplit & Hcom & Hmeta & Hbase & Hchk & Hrest).
  destruct Hcom as (Hcalls & Hreads & g & Hg), Hchk as (Hpatch & Hnew & Hlen & Hcid & Hstr).
  exists content, c. split_and!; [done|congruence|]. apply staged_served.
  rewrite Ho, Hd, Hc. by apply (commit_staged cp orderId content g result).
Qed.
End Servable.
