(* ===== verification/StreamTheorems.v ===== *)
(** * Properties of the requests between nodes

    [store_over_stream]: what a storage node gets from its gateway is what is staged
    there; [content_bound]: only contents up to the bound of a CBOR byte array are
    served over a stream; [local_store_agrees]: within a process the content is the
    same; [refused_assign_handled] and [load_unchecked]: an assignment that cannot
    be decoded is handled, and a node that is a gateway and a storage node serves a
    request to load that names the node itself to anybody. *)
From stdpp Require Import base list gmap strings.
From Stdlib Require Import ZArith Lia Ascii.
From S2P Require Import Prelude Types StateUtils Cbor CborTypes Persistence Queue StoreManager.
From S2P Require Import ChainApi Storage StorageSafety Stage.
From S2P Require Chain.
From S2P Require Gateway.
From S2P Require Import ModelNode Streams.
Import Chain(wrapping).

(** Where a stream leads, and who answers.  [peer_state p w] is the state of the peer [p]
    while the world is [w]; [runs p protocol h]: the peer answers the messages of the
    protocol with [h], on that state.  Of other peers nothing is known.  What is read
    from a stream to a peer that runs a handler is its answer to the message that was
    written, or nothing: answers do not arrive in part ([stream_Read] is used on
    messages that say where they end), and a stream takes one message. *)
Class StreamLaws (W R : Type) `{!Network W} := {
  peer_state : string -> W -> R;
  runs : string -> string -> (bytes -> GoM R (option bytes)) -> Prop;
  leads_to : net_Stream -> string * string;
  NewStream_leads p protocol w st w' : host_NewStream p protocol w = (inl st, w') -> leads_to st = (p, protocol);
  Read_answer st h b w w1 r w2 out w3 :
    runs (leads_to st).1 (leads_to st).2 h ->
    stream_Write st b w = (inl tt, w1) -> stream_CloseWrite st w1 = (r, w2) -> stream_Read st w2 = (out, w3) ->
    out = [] \/ exists s', h b (peer_state (leads_to st).1 w2) = (Ret (Some out), s')
}.

(** ** Messages that are written and read *)
Section Wire.
Context `{!CborLib} {A : Type} `{!JsonWire A} (c : vcodec A) (P : A -> Prop) (Hc : vc_ok c P).

Lemma Unmarshal_cbor b : Unmarshal c FormatCbor b = (vr <-r v_read c b ;; inl vr.1).
Proof. reflexivity. Qed.

(** A well-formed message is written, and what is written is read back. *)
Lemma wire_roundtrip a : P a -> exists b, v_write c a = inl b /\ Unmarshal c FormatCbor b = inl a.
Proof.
  intros (b & Eb & Hread)%Hc. exists b. split; [done|]. rewrite Unmarshal_cbor.
  specialize (Hread []). rewrite app_nil_r in Hread. by rewrite Hread.
Qed.

Lemma respond_written a b : v_write c a = inl b -> respond c a = Some b.
Proof. intros E. unfold respond, Marshal. change (String.eqb FormatCbor FormatJson) with false. cbv iota. by rewrite E. Qed.

Lemma respond_some a b : respond c a = Some b -> v_write c a = inl b.
Proof.
  unfold respond, Marshal. change (String.eqb FormatCbor FormatJson) with false. cbv iota.
  destruct (v_write c a); [by intros [= ->]|done].
Qed.
End Wire.

(** ** Requests and their answers *)
Section Answers.
Context `{!CborLib} {W R : Type} `{!Network W, !StreamLaws W R} {Req Resp : Type} `{!JsonWire Req, !JsonWire Resp}.
Context (creq : vcodec Req) (cresp : vcodec Resp) (req : Req).
(** Nothing is not an answer. *)
Context (Hnothing : exists e, v_read cresp [] = inr e).
Implicit Types (w : W).

(** The calls of the network that a request makes. *)
Inductive net_step : W -> W -> Prop :=
| net_peers w l w' : Peerstore_Peers w = (l, w') -> net_step w w'
| net_connect pi w r w' : net_Connect pi w = (r, w') -> net_step w w'
| net_open p protocol w r w' : host_NewStream p protocol w = (r, w') -> net_step w w'
| net_write st b w r w' : stream_Write st b w = (r, w') -> net_step w w'
| net_close st w r w' : stream_CloseWrite st w = (r, w') -> net_step w w'
| net_read st w out w' : stream_Read st w = (out, w') -> net_step w w'
| net_sleep d w u w' : net_Sleep d w = (u, w') -> net_step w w'.

(** After some calls, the message [b] was written to the peer [p], and [out] was read:
    from [w_read] on, until the world was [w']. *)
Definition asked (w w_read w' : W) (p protocol : string) (b out : bytes) : Prop :=
  exists st w0 w1 r, rtc net_step w w0 /\ leads_to (R := R) st = (p, protocol) /\
    stream_Write st b w0 = (inl tt, w1) /\ stream_CloseWrite st w1 = (r, w_read) /\ stream_Read st w_read = (out, w').

(** The last thing that was done: a peer of [ok] was asked, and what was read decodes
    to the result. *)
Definition answered_by (ok : string -> Prop) (protocol : string) (w w' : W) (resp : Resp) : Prop :=
  exists p b out w_read, ok p /\ v_write creq req = inl b /\ asked w w_read w' p protocol b out /\
    Unmarshal cresp FormatCbor out = inl resp /\ out <> [].

(** The outcome of a request that began in [w]. *)
Definition answer_ok (ok : string -> Prop) (protocol : string) (w : W) (o : outcome Resp) (w' : W) : Prop :=
  match o with Ret resp => answered_by ok protocol w w' resp | Fail _ => rtc net_step w w' | _ => False end.

Lemma DoRequest_answered ok st p protocol w w0 :
  leads_to (R := R) st = (p, protocol) -> ok p -> rtc net_step w w0 ->
  wp (DoRequest creq cresp st req FormatCbor) w0 (answer_ok ok protocol w).
Proof.
  intros Hst Hok Hr. unfold DoRequest, wrapping. apply wp_bind, wp_or_else. unfold Marshal. change (String.eqb FormatCbor FormatJson) with false.
  cbv iota. destruct (v_write creq req) as [b|e] eqn:Eb; [|exact Hr]. apply wp_ret, wp_ret, wp_bind, wp_or_else, wp_call.
  2: { intros e w1 Ew. apply wp_fail. eapply rtc_r; [exact Hr|by eapply net_write]. }
  intros [] w1 Ew. apply wp_ret, wp_bind. unfold ignore. apply wp_bind, wp_attempt, wp_call.
  all: intros r w2 Ec; apply wp_ret, wp_bind, wp_call_total; intros out w3 Er; apply wp_or_else.
  all: assert (rtc net_step w w3) as Hr3
    by (eapply rtc_r; [eapply rtc_r; [eapply rtc_r; [exact Hr|by eapply net_write]|by eapply net_close]|by eapply net_read]).
  all: destruct (Unmarshal cresp FormatCbor out) as [resp|e] eqn:Eu; [|exact Hr3]; apply wp_ret.
  all: exists p, b, out, w2; split_and!; try done; [by eexists st, w0, w1, _|].
  all: intros ->; destruct Hnothing as [e He]; by rewrite Unmarshal_cbor, He in Eu.
Qed.

Lemma tries_answered ok retries st p protocol w w0 :
  leads_to (R := R) st = (p, protocol) -> ok p -> rtc net_step w w0 ->
  wp (tries creq cresp retries st req) w0 (answer_ok ok protocol w).
Proof.
  intros Hst Hok. revert w0. induction retries as [|n IH]; intros w0 Hr; cbn [tries]; apply wp_bind, wp_attempt;
    (eapply wp_mono; [by apply (DoRequest_answered ok st p protocol w)|]); intros [resp|e| |] w1 Ho; try done.
  apply wp_bind, wp_call_total. intros [] w2 Es. apply IH. eapply rtc_r; [exact Ho|by eapply net_sleep].
Qed.

Lemma known_stream_leads peerInfos protocol peers w w0 :
  rtc net_step w w0 ->
  wp (known_stream peerInfos protocol peers) w0 (fun o w' => rtc net_step w w' /\
    match o with Ret st => exists p, Contains peerInfos p = true /\ leads_to (R := R) st = (p, protocol)
               | Fail _ => True | _ => False end).
Proof.
  intros Hr. induction peers as [|p peers IH]; cbn [known_stream]; [done|].
  destruct (Contains peerInfos p) eqn:Ep; [|apply IH]. unfold wrapping. apply wp_or_else, wp_call.
  all: intros st w' E; assert (rtc net_step w w') by (eapply rtc_r; [exact Hr|by eapply net_open]).
  - apply wp_ret. split; [done|]. exists p. split; [done|]. by eapply NewStream_leads.
  - by apply wp_fail.
Qed.

(** The peers a request may go to: the one of the last usable address, or, when there is
    none, a known peer that is named. *)
Definition addressed (peerInfos p : string) : Prop :=
  match peer_of (Split peerInfos ",") None with
  | inl (Some pi) => p = addr_ID pi
  | inl None => Contains peerInfos p = true
  | inr _ => False
  end.

(** A request that is not passed on ends with an answer of such a peer or an error. *)
Lemma HandleRequest_answered peerInfos protocol w :
  wp (HandleRequest creq cresp peerInfos protocol req false) w (answer_ok (addressed peerInfos) protocol w).
Proof.
  unfold HandleRequest. apply wp_bind.
  assert (forall p, peer_of (Split peerInfos ",") None = inl None -> Contains peerInfos p = true -> addressed peerInfos p) as Hnone
    by (intros p Ep Hp; unfold addressed; by rewrite Ep).
  assert (forall pi, peer_of (Split peerInfos ",") None = inl (Some pi) -> addressed peerInfos (addr_ID pi)) as Hsome
    by (intros pi Ep; unfold addressed; by rewrite Ep).
  destruct (peer_of (Split peerInfos ",") None) as [[pi|]|e]; [..|exact (rtc_refl net_step w)].
  - apply wp_ret, wp_bind. unfold wrapping. apply wp_or_else, wp_call.
    2: { intros e w1 E. apply wp_fail. eapply rtc_once, net_connect, E. }
    intros [] w1 Ec. apply wp_ret. apply wp_bind, wp_attempt, wp_call.
    2: { intros e w2 E. apply wp_fail. eapply rtc_l; [by eapply net_connect|]. eapply rtc_once, net_open, E. }
    intros st w2 E. eapply tries_answered; [eapply NewStream_leads, E|by apply Hsome|].
    eapply rtc_l; [by eapply net_connect|]. eapply rtc_once, net_open, E.
  - apply wp_ret, wp_bind, wp_call_total. intros peers w1 E1. apply wp_bind.
    eapply wp_mono; [apply (known_stream_leads peerInfos protocol peers w); eapply rtc_once, net_peers, E1|].
    intros [st|e| |] w2 [Hr Hst]; [|exact Hr|done..].
    destruct Hst as (p & Hp & Hst). eapply tries_answered; [exact Hst|by apply Hnone|done].
Qed.
End Answers.

(** ** What can be written *)
Lemma write_fields_each `{!CborLib} {T} (t : T) fs b :
  write_fields t fs = inl b -> Forall (fun f => exists bf, f_write f t = inl bf) fs.
Proof.
  revert b. induction fs as [|f fs IH]; intros b; cbn [write_fields]; [constructor|].
  unfold write_field, rbind. destruct (write_text _ _); [|done].
  destruct (f_write f t) as [bf|] eqn:Ef; [|done]. destruct (write_fields t fs) as [bs|] eqn:Efs; [|done].
  intros _. constructor; [by exists bf|]. by eapply IH.
Qed.

Lemma ShardLoadResp_written `{!CborLib} r b :
  v_write ShardLoadResp_codec r = inl b -> text_ok (slp_Message r) /\ bytes_ok (slp_Content r).
Proof.
  cbn [v_write ShardLoadResp_codec]. unfold ShardLoadResp_MarshalCBOR, marshal_struct, rbind.
  destruct (write_fields r ShardLoadResp_fields) as [bs|] eqn:E; [|done]. intros _.
  apply write_fields_each in E. unfold ShardLoadResp_fields in E.
  apply Forall_cons in E as [_ E]. apply Forall_cons in E as [Hm E]. do 2 apply Forall_cons in E as [_ E].
  apply Forall_cons in E as [Hc _]. destruct Hm as [bm Hm], Hc as [bc Hc]. cbn in Hm, Hc.
  unfold write_text in Hm. destruct (Z.ltb_spec MaxLength (Z.of_nat (String.length (slp_Message r)))); [done|].
  destruct (Z.ltb_spec ByteArrayMaxLen (Z.of_nat (length (slp_Content r)))); [done|]. by split.
Qed.

(** An answer that is written is read as it is. *)
Lemma ShardLoadResp_read `{!CborLib, !CborLaws, !JsonWire ShardLoadResp} r b :
  is_u64 (slp_Code r) -> is_u64 (slp_OrderId r) -> cid_valid (slp_Cid r) -> is_i64 (slp_RequestId r) ->
  is_i64 (slp_ResponseId r) -> respond ShardLoadResp_codec r = Some b ->
  Unmarshal ShardLoadResp_codec FormatCbor b = inl r /\ bytes_ok (slp_Content r).
Proof.
  intros Hc Ho Hcid Hr Hrs E%respond_some. apply ShardLoadResp_written in E as Hok. destruct Hok as [Hm Hb].
  split; [|done]. destruct (wire_roundtrip _ _ ShardLoadResp_ok r) as (b' & Eb & Hread); [by split_and!|].
  rewrite E in Eb. by injection Eb as <-.
Qed.

Lemma ShardLoadReq_read `{!CborLib, !CborLaws, !JsonWire ShardLoadReq} req b :
  ShardLoadReq_wf req -> v_write ShardLoadReq_codec req = inl b ->
  Unmarshal ShardLoadReq_codec FormatCbor b = inl req.
Proof.
  intros Hw E. destruct (wire_roundtrip _ _ ShardLoadReq_ok req Hw) as (b' & Eb & Hread).
  rewrite E in Eb. by injection Eb as <-.
Qed.

(** ** The contents of a gateway *)
Section Store.
Context `{!CborLib, !CborLaws, !CidLib, !ErrorText, !FmtLib} {D W B : Type}.
Context `{!Datastore D, !StoreBackend W B, !ChainConsts, !ChainSvcApi W, !GatewayChain W,
          !TxLib, !CompleteTx, !ProposalLib, !GatewayProtocol W, !FileSys W, !FileLaws W, !Clock W,
          !GoRange, !Network W, !TypedWorld W}.
Context `{!JsonWire ShardLoadReq, !JsonWire ShardLoadResp, !JsonWire ShardCompleteReq,
          !JsonWire ShardCompleteResp}.
Context (nodeAddress stagingPath path : string) (Hpath : homedir_Expand stagingPath = inl path).
Abbreviation gw := (Gateway.gw (D := D) (W := W)).
Implicit Types (s : gw) (req : ShardLoadReq).

(** Reading the clock leaves the files as they are. *)
Context (Hclock : forall w : W, files (time_Now w).2 = files w /\ (healthy w -> healthy (time_Now w).2)).

Definition staged_file (w : W) req : option bytes :=
  files w !! stage_path path (slr_Owner req, cid_String (slr_Cid req), slr_DataId req).

(** The answer to a request for a staged content. *)
Definition store_answer (w : W) req (resp : ShardLoadResp) : Prop :=
  slp_OrderId resp = slr_OrderId req /\ slp_Cid resp = slr_Cid req /\ slp_RequestId resp = slr_RequestId req /\
  is_i64 (slp_ResponseId resp) /\
  match staged_file w req with
  | Some content => (slp_Code resp = 0 /\ slp_Message resp = "" /\ slp_Content resp = content) \/
                    (slp_Code resp = ErrorCodeInternalErr /\ slp_Content resp = [] /\ ~ healthy w)
  | None => slp_Code resp = ErrorCodeInternalErr /\ slp_Content resp = []
  end.

Lemma UnixMilli_typed (w : W) now w' : time_Now w = (now, w') -> is_i64 (UnixMilli now).
Proof.
  intros E%time_Now_typed. unfold UnixMilli, is_i64, two63 in *.
  pose proof (Z.div_le_mono (- 2 ^ 63) now 1000000 ltac:(lia)).
  pose proof (Z.div_le_mono now (2 ^ 63) 1000000 ltac:(lia)).
  change ((- 2 ^ 63) / 1000000) with (-9223372036855) in *. change (2 ^ 63 / 1000000) with 9223372036854 in *. lia.
Qed.

Lemma HandleShardStore_spec req s :
  wp (Gateway.HandleShardStore stagingPath req) s (fun o _ =>
    exists resp, o = Ret resp /\ store_answer (Gateway.gw_w s) req resp).
Proof.
  unfold Gateway.HandleShardStore. apply wp_bind, wp_zoom, wp_call_total. intros now w1 Et.
  pose proof (Hclock (Gateway.gw_w s)) as [Hf Hh]. pose proof (UnixMilli_typed _ _ _ Et) as Hnow.
  rewrite Et in Hf, Hh. cbn [snd] in Hf, Hh. apply wp_or_else, wp_zoom. cbn [Gateway.gw_w].
  eapply wp_mono; [by apply GetStagedShard_spec|].
  unfold store_answer, staged_file. rewrite <-Hf.
  intros [b|e| |] w2 (_ & _ & Ho); [..|done|done]; apply wp_ret; (eexists; split; [reflexivity|]);
    cbn [slp_OrderId slp_Cid slp_RequestId slp_ResponseId slp_Code slp_Content].
  - rewrite Ho. split_and!; [done..|]. by left.
  - destruct Ho as [_ Ho]. split_and!; [done..|]. destruct (files w1 !! _); [|done].
    right. split_and!; [done..|]. intros Hw. by specialize (Ho (Hh Hw)).
Qed.

(** C39: a content is served over a stream exactly when it is not larger than what a
    CBOR byte array holds: to a well-formed request for a staged content, a gateway
    whose files do not fail writes an answer that decodes to the content, or, when
    the content is larger, writes nothing. *)
Theorem content_bound req content s :
  ShardLoadReq_wf req -> staged_file (Gateway.gw_w s) req = Some content -> healthy (Gateway.gw_w s) ->
  exists b, v_write ShardLoadReq_codec req = inl b /\
    wp (handleShardStoreStream stagingPath b) s (fun o _ =>
      match o with
      | Ret (Some out) => Z.of_nat (length content) <= ByteArrayMaxLen /\
          exists resp, Unmarshal ShardLoadResp_codec FormatCbor out = inl resp /\
            slp_Code resp = 0 /\ slp_Content resp = content
      | Ret None => ByteArrayMaxLen < Z.of_nat (length content)
      | _ => False
      end).
Proof.
  intros Hw Hst Hl. destruct (ShardLoadReq_ok req Hw) as (b & Eb & _). exists b. split; [done|].
  unfold handleShardStoreStream. rewrite (ShardLoadReq_read req b Hw Eb). apply wp_bind.
  eapply wp_mono; [apply HandleShardStore_spec|]. intros o s' (resp & -> & Ho & Hc & Hr & Hi & Hcase).
  rewrite Hst in Hcase. destruct Hcase as [(Hcode & Hmsg & Hcont)|(_ & _ & Hnl)]; [|done]. apply wp_ret.
  destruct Hw as (_ & _ & Hwo & Hwc & _ & Hwr & _).
  destruct (respond ShardLoadResp_codec resp) as [out|] eqn:Er.
  - apply ShardLoadResp_read in Er as [Eu Hb]; [|rewrite ?Hcode, ?Ho, ?Hc, ?Hr; done..].
    split; [by rewrite Hcont in Hb|]. by exists resp.
  - apply Z.lt_nge. intros Hle. destruct (wire_roundtrip _ _ ShardLoadResp_ok resp) as (b' & Eb' & _); [|by rewrite (respond_written _ _ _ Eb') in Er].
    split_and!; rewrite ?Hcode, ?Hmsg, ?Ho, ?Hc, ?Hr, ?Hcont; try done.
    pose proof MaxLength_bounds. unfold text_ok. cbn. lia.
Qed.

(** Within a process the same file is read. *)
Lemma local_store_spec req (w : W) :
  wp (local_RequestShardStore stagingPath req) w (fun o _ =>
    exists resp, o = Ret resp /\ store_answer w req resp).
Proof.
  unfold local_RequestShardStore. rewrite Hpath.
  change (path_Join _) with (stage_path path (slr_Owner req, cid_String (slr_Cid req), slr_DataId req)).
  apply wp_or_else, wp_call; intros r w1 Er; apply wp_bind, wp_call_total; intros now w2 Et; apply wp_ret.
  all: apply ReadFile_spec in Er as (_ & _ & Hr); pose proof (UnixMilli_typed _ _ _ Et).
  all: unfold store_answer, staged_file; eexists; split; [reflexivity|].
  all: cbn [slp_OrderId slp_Cid slp_RequestId slp_ResponseId slp_Code slp_Message slp_Content].
  - rewrite Hr. split_and!; [done..|]. by left.
  - split_and!; [done..|]. destruct (files w !! _); [|done]. right. split_and!; [done..|]. intros Hw. by specialize (Hr Hw).
Qed.

(** The two ways to a gateway give the same content: on files that do not fail, the
    local protocol of a storage node and the handler of the gateway in the same
    process come to answers with the same code, content, order, identifier and
    request (the time of the answer and the text of an error may differ). *)
Theorem local_store_agrees req (s : gw) :
  healthy (Gateway.gw_w s) ->
  exists r1 r2, (local_RequestShardStore stagingPath req (Gateway.gw_w s)).1 = Ret r1 /\
    (Gateway.HandleShardStore stagingPath req s).1 = Ret r2 /\
    slp_Code r1 = slp_Code r2 /\ slp_Content r1 = slp_Content r2 /\ slp_OrderId r1 = slp_OrderId r2 /\
    slp_Cid r1 = slp_Cid r2 /\ slp_RequestId r1 = slp_RequestId r2.
Proof.
  intros Hl. destruct (local_store_spec req (Gateway.gw_w s)) as (r1 & E1 & Ho1 & Hc1 & Hr1 & _ & H1').
  destruct (HandleShardStore_spec req s) as (r2 & E2 & Ho2 & Hc2 & Hr2 & _ & H2').
  exists r1, r2. split; [done|]. split; [done|]. rewrite Ho1, Ho2, Hc1, Hc2, Hr1, Hr2.
  destruct (staged_file (Gateway.gw_w s) req).
  - destruct H1' as [(-> & _ & ->)|(_ & _ & Hn)]; [|done]. by destruct H2' as [(-> & _ & ->)|(_ & _ & Hn)].
  - by destruct H1' as [-> ->], H2' as [-> ->].
Qed.

(** ** What a storage node gets *)
Context `{!StreamLaws W gw}.
Context (Hnothing : exists e, ReadHeader [] = inr e).

Lemma ShardLoadResp_nothing : exists e, v_read ShardLoadResp_codec [] = inr e.
Proof.
  destruct Hnothing as [e He]. cbn [v_read ShardLoadResp_codec].
  unfold ShardLoadResp_UnmarshalCBOR, unmarshal_struct, rbind. rewrite He. by exists e.
Qed.

(** What the handler of a gateway answers with the code 0. *)
Lemma store_stream_answer req b s out s' resp :
  ShardLoadReq_wf req -> v_write ShardLoadReq_codec req = inl b ->
  handleShardStoreStream stagingPath b s = (Ret (Some out), s') ->
  Unmarshal ShardLoadResp_codec FormatCbor out = inl resp -> slp_Code resp = 0 ->
  slp_OrderId resp = slr_OrderId req /\ slp_Cid resp = slr_Cid req /\ slp_RequestId resp = slr_RequestId req /\
  staged_file (Gateway.gw_w s) req = Some (slp_Content resp) /\ Z.of_nat (length (slp_Content resp)) <= ByteArrayMaxLen.
Proof.
  intros Hw Eb Es Eu Hcode. unfold handleShardStoreStream in Es. rewrite (ShardLoadReq_read req b Hw Eb) in Es.
  pose proof (HandleShardStore_spec req s) as Hs. unfold wp, bind in Hs, Es.
  destruct (Gateway.HandleShardStore stagingPath req s) as [o s1]. cbn [fst snd] in Hs. destruct Hs as (resp' & -> & Hs).
  cbn in Es. injection Es as Er <-. destruct Hs as (Hord & Hcid & Hrid & Hresp & Hcase).
  destruct Hw as (_ & _ & Hwo & Hwc & _ & Hwr & _).
  apply ShardLoadResp_read in Er as [Eu' Hb]; rewrite ?Hord, ?Hcid, ?Hrid; [|try done..].
  2: { destruct (staged_file _ _); [destruct Hcase as [[-> _]|[-> _]]|destruct Hcase as [-> _]]; split; by vm_compute. }
  rewrite Eu in Eu'. injection Eu' as <-. split_and!; [done..| |done].
  destruct (staged_file (Gateway.gw_w s) req) as [content|].
  - destruct Hcase as [(_ & _ & <-)|(Hc & _)]; [done|]. by rewrite Hc in Hcode.
  - destruct Hcase as [Hc _]. by rewrite Hc in Hcode.
Qed.

(** C11: what a storage node accepts from a gateway over a stream.  A request for a
    content always comes to an answer; if its code is 0, the last thing that was done
    was to ask a peer the address names - the request was written to it and the answer
    was read - and if that peer runs the handler of a gateway, the answer names the
    order, the identifier and the request, and its content is the file that was staged
    at that peer, when the answer was read, for the owner, the identifier and the data
    id of the request; it fits in a message.  (Of the answer of another peer nothing is
    known; [fetch_shard] compares the content with the identifier.) *)
Theorem store_over_stream req peer (w : W) :
  ShardLoadReq_wf req ->
  wp (stream_RequestShardStore req peer) w (fun o w' =>
    exists resp, o = Ret resp /\
    (slp_Code resp = 0 ->
      exists p b out w_read, addressed peer p /\ v_write ShardLoadReq_codec req = inl b /\
        asked (R := gw) w w_read w' p ShardStoreProtocol b out /\ Unmarshal ShardLoadResp_codec FormatCbor out = inl resp /\
        (runs p ShardStoreProtocol (handleShardStoreStream stagingPath) ->
          slp_OrderId resp = slr_OrderId req /\ slp_Cid resp = slr_Cid req /\
          slp_RequestId resp = slr_RequestId req /\
          staged_file (Gateway.gw_w (peer_state (R := gw) p w_read)) req = Some (slp_Content resp) /\
          Z.of_nat (length (slp_Content resp)) <= ByteArrayMaxLen))).
Proof.
  intros Hw. unfold stream_RequestShardStore, answered. apply wp_or_else.
  eapply wp_mono; [apply (HandleRequest_answered (R := gw)), ShardLoadResp_nothing|].
  intros [resp|e| |] w1 Ho; cbn [answer_ok] in Ho; [..|done|done].
  - apply wp_ret. exists resp. split; [done|]. intros Hcode.
    destruct Ho as (p & b & out & w2 & Hp & Eb & Ha & Eu & Hne). exists p, b, out, w2. split_and!; [done..|]. intros Hruns.
    destruct Ha as (st & w0 & w01 & r & _ & Hst & Ew & Ec & Er).
    destruct (Read_answer st (handleShardStoreStream stagingPath) b w0 w01 r w2 out w1) as [?|[s' Es]]; [by rewrite Hst|done..|].
    rewrite Hst in Es. cbn [fst] in Es. by eapply store_stream_answer.
  - unfold load_failed. apply wp_bind, wp_call_total. intros now w2 _. apply wp_ret. eexists. split; [done|]. done.
Qed.
End Store.

(** ** Requests that are not checked *)
Section Unchecked.
Context `{!CborLib, !CborLaws, !CidLib, !ErrorText, !FmtLib} {D W B : Type}.
Context `{!Datastore D, !StoreBackend W B, !ChainConsts, !ChainSvcApi W, !TxLib, !DidLib W, !GatewayChain W,
          !CompleteTx, !ProposalLib, !StorageProtocol W, !GatewayProtocol W, !FileSys W, !Clock W, !GoRange,
          !Network W, !TypedWorld W}.
Context `{!JsonWire ShardLoadReq, !JsonWire ShardLoadResp, !JsonWire ShardAssignReq, !JsonWire ShardAssignResp}.
Abbreviation gw := (Gateway.gw (D := D) (W := W)).
Abbreviation svc := (Storage.svc (D := D) (W := W)).

(** A node that is both a gateway and a storage node answers a request to load with the
    handler of the gateway, which asks for no signature when the request names the
    node itself: whatever the proposals and signatures in the request, the answer has
    the content, if it is in a backend and fits in a message. *)
Theorem load_unchecked hostId (storeManager : StoreManager B) req content (s : gw) w' :
  ShardLoadReq_wf req -> Contains (target req) hostId = true ->
  sm_Get storeManager (slr_Cid req) (Gateway.gw_w s) = (Ret (inl content), w') ->
  Z.of_nat (length content) <= ByteArrayMaxLen ->
  module_handlers true true ∅ !! ShardLoadProtocol = Some HandleRelayStream /\
  exists b, v_write ShardLoadReq_codec req = inl b /\
    wp (handleRelayStream hostId storeManager b) s (fun o _ =>
      exists out resp, o = Ret (Some out) /\ Unmarshal ShardLoadResp_codec FormatCbor out = inl resp /\
        slp_Code resp = 0 /\ slp_Content resp = content).
Proof.
  intros Hw Ht Hget Hle. split; [by vm_compute|].
  destruct (ShardLoadReq_ok req Hw) as (b & Eb & _). exists b. split; [done|].
  unfold handleRelayStream. rewrite (ShardLoadReq_read req b Hw Eb), Ht.
  unfold local_RequestShardLoad. apply wp_bind, wp_zoom, wp_or_else. unfold wp at 1. rewrite Hget. cbn [fst snd].
  apply wp_bind, wp_call_total. intros now w2 Et. apply wp_ret, wp_ret.
  destruct Hw as (_ & _ & Hwo & Hwc & _ & Hwr & _). pose proof MaxLength_bounds.
  match goal with |- context [respond _ ?r] => destruct (wire_roundtrip _ _ ShardLoadResp_ok r) as (out & Eout & Hread) end.
  { split_and!; cbn; try done; [unfold text_ok; cbn; lia|by eapply UnixMilli_typed]. }
  rewrite (respond_written _ _ _ Eout). by eexists out, _.
Qed.

(** A refusal is not the end: an assignment that cannot be decoded is answered as
    invalid, and the fields that were decoded are handled like an assignment.  If it is
    accepted with them, the task is in the queue although the sender was told that
    nothing was assigned. *)
Theorem refused_assign_handled nodeAddress b err resp (s s' : svc) :
  Unmarshal ShardAssignReq_codec FormatCbor b = inr err -> text_ok (unmarshal_error err) ->
  HandleShardAssign nodeAddress (ShardAssignReq_partial b) s = (Ret resp, s') ->
  exists a, handleShardAssign nodeAddress b s = (Ret (Some a), s') /\
    Unmarshal ShardAssignResp_codec FormatCbor a =
      inl (MkShardAssignResp ErrorCodeInvalidRequest (unmarshal_error err)).
Proof.
  intros Eu Hm Eh. unfold handleShardAssign. rewrite Eu. cbn beta iota zeta.
  destruct (wire_roundtrip _ _ ShardAssignResp_ok (MkShardAssignResp ErrorCodeInvalidRequest (unmarshal_error err)))
    as (a & Ea & Hread); [split; [by split|done]|].
  exists a. unfold bind. rewrite Eh. by rewrite (respond_written _ _ _ Ea).
Qed.
End Unchecked.
