(* ===== verification/ModelSample.v ===== *)
(** * A model manager to run the theorems on

    A gateway with two commits of one model in memory, whose answers to
    [FetchContent] follow a script, with the LRU cache; and the manager on the sample
    gateway service.  The witnesses of the theorems on the manager are here. *)
From stdpp Require Import base list gmap strings.
From Stdlib Require Import ZArith Lia Ascii.
From S2P Require Import Prelude Types StateUtils Cbor CborTypes Instances Persistence Queue.
From S2P Require Import StoreManager ChainApi SampleWorld LruCache Stage Gateway GatewaySample.
From S2P Require Import Validator ModelManager ModelTheorems ModelNode.

Module ModelLibs.
#[export] Instance SJson : JsonLib := {
  Any := bytes; Doc := bytes;
  json_Get b := b; json_Marshal a := inl a; GetInterface a := a
}.
(** A schema is a text that the document must not be. *)
#[export] Instance SSchema : SchemaLib unit := {
  Compiler := string; Schema := string; NewCompiler := "";
  AddResource _ _ s := inl s;
  Compile c _ := fun u => (inl c, u);
  sch_Validate s d := if String.eqb s (bytes_string d)
                      then Some (ValidationError [] (EText "refused")) else None
}.
(** A rule is the reason to refuse everything, unless it says "ok". *)
#[export] Instance SRules : RuleLib := {
  KnowledgeLibrary := gmap string string; KnowledgeBase := string; DataContext := list string;
  NewKnowledgeLibrary := ∅;
  ParseJSONRule b := inl (bytes_string b);
  BuildRule n _ r l := (inl tt, <[n := r]> l);
  NewKnowledgeBaseInstance n _ l := l !! n;
  NewDataContext := [];
  ctx_Add n _ c := (inl tt, c ++ [n]);
  ctx_Reset _ := [];
  engine_Execute c kb r := (inl tt, c, kb, if String.eqb kb "ok" then r else MkResult false kb)
}.
(** A patch is appended. *)
#[export] Instance SPatch : PatchLib := {
  Patch := bytes;
  DecodePatch b := Some (inl b);
  patch_Apply p b := Some (inl (b ++ p));
  PatchOp := string * string;
  op_Operation := fst;
  op_Json := snd;
  json_Valid _ := None;
  CreatePatch _ _ := Some (inl [("add", "{1}"); ("remove", "{2}"); ("replace", "{3}"); ("remove", "{4}")])
}.
#[export] Instance SContext : ContextLib := {
  json_context b := if String.prefix "[" (bytes_string b) then "[x]" else "";
  Elem := string;
  read_array s := [s];
  elem_string s := Some s;
  Sprint_elem s := s;
  read_string s := s;
  read_object s := s;
  IsDataId s := false
}.

Lemma GeneratePatch_order_witness :
  GeneratePatch "{}" "{}" = inl "[{4},{2},{1},{3}]".
Proof.
  rewrite (GeneratePatch_order (H := SPatch) "{}" "{}"
    [("add", "{1}"); ("remove", "{2}"); ("replace", "{3}"); ("remove", "{4}")]);
    [reflexivity..|]. repeat constructor; discriminate.
Defined.

Definition validator (rule : bool) : Validator (X := unit) := MkValidator "notes" "bad" rule.
Definition with_rule (rule : string) : vstate (X := unit) :=
  VState tt (MkRuleEngineSvc ∅ {["Rule_notes" := Some rule]} ∅).

Lemma Validate_accepts_witness :
  (Validate (validator true) (string_bytes "good") (with_rule "ok")).1 = Ret tt /\
  (Validate (validator true) (string_bytes "good") (with_rule "too long")).1 <> Ret tt.
Proof.
  split; [apply Validate_accepts|rewrite Validate_accepts].
  - split; [by exists (string_bytes "good")|]. intros _.
    by exists "ok", ["notes"], ["notes"; "Result"], ["notes"; "Result"], "ok", (MkResult true "").
  - intros [_ H]. destruct (H eq_refl) as (kb & c1 & c2 & c3 & kb' & r & Hkb & _ & _ & Hrun & Hv).
    vm_compute in Hkb. injection Hkb as <-. vm_compute in Hrun. injection Hrun as _ _ <-. done.
Defined.
End ModelLibs.

(** ** A gateway that follows a script *)
Record sgw := SGw {
  sg_metas : list Model;             (* the metadata at each height, from 1 on *)
  sg_contents : gmap string bytes;   (* by commit *)
  sg_script : list bool              (* which fetches succeed *)
}.

Module ModelWorld.
Import ModelLibs TextCid LruSample.

#[export] Instance SFields : ProposalFields gworld := {
  otp_Owner r := "did:sid:1"; otp_DataId r := r; orp_Owner r := r; pmp_Owner r := r; pmp_DataId r := r
}.

Definition meta_at (height : Z) (g : sgw) : option Model :=
  if height =? 0 then last (sg_metas g) else sg_metas g !! Z.to_nat (height - 1).

#[export] Instance SGateway : GatewaySvcApi sgw gworld := {|
  api_QueryMeta req h := fun g =>
    if String.eqb (qp_Keyword (mtp_Proposal req)) "d" then
      match meta_at h g with Some m => (Ret m, g) | None => (Fail (EText "no such height"), g) end
    else (Fail (EText "not found"), g);
  api_FetchContent req meta := fun g =>
    match sg_script g with
    | true :: rest =>
        (Ret (MkFetchResult (mo_Cid meta) (default [] (sg_contents g !! mo_CommitId meta))),
         SGw (sg_metas g) (sg_contents g) rest)
    | _ => (Fail (EText "no provider answers"), SGw (sg_metas g) (sg_contents g) (tl (sg_script g)))
    end;
  api_CommitModel p id b := fun g => (Ret (MkCommitResult 8 (pr_DataId (osp_Proposal p)) "" []
                                        (pr_Cid (osp_Proposal p)) 3 ∅), g);
  api_TerminateOrder r := ret tt;
  api_RenewOrder r := ret ∅;
  api_UpdateModelPermission r := ret tt
|}.

Definition meta0 : Model :=
  MkModel "d" "notes" "" 7 "did:sid:1" [] "Qold" ∅ "c0" [commit_text "c0" 1] "" [] "".
Definition meta1 : Model :=
  MkModel "d" "notes" "" 8 "did:sid:1" [] "Qnew" ∅ "c1" [commit_text "c0" 1; commit_text "c1" 2] "" [] "".
Definition script (l : list bool) : sgw :=
  SGw [meta0; meta1] {["c0" := string_bytes "old"; "c1" := string_bytes "new"]} l.

Abbreviation cache := (LruCacheSvc (V := cached)).
Abbreviation manager := (@mm _ _ sgw gworld cache unit _).
Definition fresh_mm (l : list bool) : manager :=
  Mm (script l) NewLruCacheSvc ∅ 0 (VState tt NewRuleEngineSvc) [].

Lemma fresh_inv l : mm_inv (fresh_mm l).
Proof.
  split.
  - intros p [m Hm]. vm_compute in Hm. discriminate.
  - intros a n Hn. vm_compute in Hn. discriminate.
Qed.

Definition query_of (commit version : string) : MetadataProposal :=
  MkMetadataProposal (MkQueryProposal "did:sid:1" "d" "" 0 0 "" commit version) (MkJwsSignature "" "").
Definition latest : MetadataProposal := query_of "" "".

Lemma on_ret {S A} (m : GoM S A) s a (Q : A + error -> S -> Prop) :
  (m s).1 = Ret a -> wpn m s Q -> Q (inl a) (m s).2.
Proof. intros E. unfold wpn, wp, on_return. by rewrite E. Qed.

(** The content and the version of the model at a pointer. *)
Definition shown (p : ptr) (s : manager) : option (bytes * string) :=
  (fun m => (mo_Content m, mo_Version m)) <$> mm_heap s !! p.

(** The latest commit is fetched, and the second time found in the cache. *)
Definition once_loaded : manager := (Load true 10 1000 latest (fresh_mm [true])).2.
Lemma load_outcome_witness :
  (load_result true 1000 (query_of "c0" "") (fresh_mm [true]) (inl 0%nat)
     (Load true 10 1000 (query_of "c0" "") (fresh_mm [true])).2 /\
   shown 0%nat (Load true 10 1000 (query_of "c0" "") (fresh_mm [true])).2 = Some (string_bytes "old", "v0")) /\
  load_result true 1000 latest once_loaded (inl 0%nat) (Load true 10 1000 latest once_loaded).2 /\
  mm_calls (Load true 10 1000 latest once_loaded).2 = mm_calls once_loaded ++ [CallQueryMeta latest 0 (inl meta1)].
Proof.
  split; [split; [|vm_compute; reflexivity]|split; [|vm_compute; reflexivity]].
  - apply (on_ret (Load true 10 1000 (query_of "c0" ""))); [vm_compute; reflexivity|].
    exact (load_outcome true 10 1000 (query_of "c0" "") (fresh_mm [true])).
  - apply (on_ret (Load true 10 1000 latest)); [vm_compute; reflexivity|].
    exact (load_outcome true 10 1000 latest once_loaded).
Defined.

Definition new_proposal : OrderStoreProposal :=
  MkOrderStoreProposal (MkProposal "did:sid:1" "e" "Qtext" "" "" "e" [] "" "" 4 "" 0 0 0 0) (MkJwsSignature "" "").
Definition unknown : MetadataProposal :=
  MkMetadataProposal (MkQueryProposal "did:sid:1" "e" "" 0 0 "" "" "") (MkJwsSignature "" "").

Lemma create_outcome_witness :
  let r := Create true 10 1000 unknown new_proposal 0 (string_bytes "text") (fresh_mm []) in
  exists l result, committed (fresh_mm []) new_proposal 0 (string_bytes "text") result l r.2 /\
    mm_heap r.2 !! 0%nat =
      Some (kept true 1000 (created (osp_Proposal new_proposal) "Qtext" result (string_bytes "text"))).
Proof.
  cbv zeta.
  pose proof (create_outcome true 10 1000 unknown new_proposal 0 (string_bytes "text") (fresh_mm [])
                (fresh_inv [])) as Ho.
  apply (on_ret _ _ 0%nat) in Ho; [|vm_compute; reflexivity].
  destruct Ho as (l & e & result & Hc & Hrest). exists l, result. split; [exact Hc|].
  destruct Hrest as (_ & _ & _ & _ & _ & _ & Hm). exact Hm.
Defined.

(** An update of the latest commit. *)
Definition update_proposal : OrderStoreProposal :=
  MkOrderStoreProposal (MkProposal "did:sid:1" "d" "Qnews" "notes" "" "c1|c2" [] "" "" 4 "" 0 0 0 0) (MkJwsSignature "" "").

Lemma update_outcome_witness :
  let r := Update true 10 1000 latest update_proposal 0 (string_bytes "s") (fresh_mm [true]) in
  updated_as true 10 1000 latest update_proposal 0 (string_bytes "s") (fresh_mm [true]) (inl 1%nat) r.2 /\
  shown 1%nat r.2 = Some (string_bytes "news", "v2").
Proof.
  cbv zeta. split; [|vm_compute; reflexivity].
  apply (on_ret (Update true 10 1000 latest update_proposal 0 (string_bytes "s"))); [vm_compute; reflexivity|].
  exact (update_outcome true 10 1000 latest update_proposal 0 (string_bytes "s") (fresh_mm [true])
           (fresh_inv [true])).
Defined.

Lemma models_allocated_witness :
  mm_inv (serve true 10 1000 [ReqLoad latest; ReqLoad (query_of "c0" ""); ReqDelete "d" false] (fresh_mm [true; true])).2.
Proof.
  exact (proj1 (models_allocated true 10 1000 [ReqLoad latest; ReqLoad (query_of "c0" ""); ReqDelete "d" false]
           (fresh_mm [true; true]) (fresh_inv [true; true]))).
Defined.

(** The latest commit and then the first one are loaded; no provider answers the
    third load. *)
Definition two_loads : manager :=
  (serve true 10 1000 [ReqLoad latest; ReqLoad (query_of "c0" "")] (fresh_mm [true; true])).2.

Definition cache1 : cache := (svc_Get "did:sid:1" "dc1" (mm_cache two_loads)).2.
Definition cache2 : cache := (svc_Get "did:sid:1" "dc1" cache1).2.
Lemma pair_run {A B} (x : A * B) a : x.1 = a -> x = (a, x.2).
Proof. by intros <-; destruct x. Qed.

(** The model at a pointer, the zero model when there is none. *)
Definition model_at (p : ptr) (s : manager) : Model := default meta0 (mm_heap s !! p).

Lemma failed_fetch_poisons_witness :
  (exists s1 s2 m', Load true 10 1000 latest two_loads = (Fail (EText "no provider answers"), s1) /\
    Load true 10 1000 latest s1 = (Ret 0%nat, s2) /\ mm_heap s2 !! 0%nat = Some m' /\
    mo_CommitId m' = mo_CommitId meta1 /\ mo_Content m' = mo_Content (model_at 0%nat two_loads)) /\
  mo_Content (model_at 0%nat two_loads) = string_bytes "old".
Proof.
  split; [|vm_compute; reflexivity].
  apply (failed_fetch_poisons true 10 1000 latest two_loads meta1 0%nat (model_at 0%nat two_loads)
           (script []) (script []) (script []) cache1 cache2).
  5: exact (pair_run (svc_Get "did:sid:1" "dc1" (mm_cache two_loads)) (Ret (Some (CModel 0%nat)))
              ltac:(vm_compute; reflexivity)).
  10: exact (pair_run (svc_Get "did:sid:1" "dc1" cache1) (Ret (Some (CModel 0%nat)))
              ltac:(vm_compute; reflexivity)).
  all: vm_compute; first [reflexivity|discriminate].
Defined.

(** Somebody else reads the model. *)
Definition guest : MetadataProposal :=
  MkMetadataProposal (MkQueryProposal "did:sid:2" "d" "" 0 0 "" "" "") (MkJwsSignature "" "").

Lemma reader_without_cache_witness : (Load true 10 1000 guest (fresh_mm [true])).1 = Panic.
Proof.
  apply (reader_without_cache 10 1000 guest (fresh_mm [true]) meta1
           (MkFetchResult "Qnew" (string_bytes "new")) (script [true]) (script []));
    vm_compute; first [reflexivity|discriminate].
Defined.
End ModelWorld.

(** ** The manager on the gateway service *)
#[export] Instance GApart : FilesApart gworld.
Proof. split; first [reflexivity|done]. Defined.

Module WholeNode.
Import ModelLibs ModelWorld Rfc8949 MemDs TextCid LruSample GatewayNode.

Abbreviation node := (@mm _ _ (@gw (gmap string bytes) gworld) gworld cache unit _).
Definition node0 : node :=
  Mm (idle (start (string_bytes "sha")) ∅) NewLruCacheSvc ∅ 0 (VState tt NewRuleEngineSvc) [].
Lemma node0_inv : mm_inv node0.
Proof.
  split.
  - intros p [m Hm]. vm_compute in Hm. discriminate.
  - intros a n Hn. vm_compute in Hn. discriminate.
Qed.

Definition data_query : MetadataProposal :=
  MkMetadataProposal (MkQueryProposal "did:sid:1" "data" "" 0 0 "" "" "") sample_sig.
Definition update_node : GoM node ptr :=
  let api := gateway_api gateway "peer" staging "/srv" "/keys" (MkStoreManager []) 1000 false in
  Update true 10 1000 data_query clientProposal 0 (string_bytes "rd").
Definition shard_req : ShardLoadReq :=
  MkShardLoadReq "did:sid:1" "data" 7 (MkCid "Qshard") MetadataProposalCbor_zero 0 RelayProposalCbor_zero.

Lemma update_servable_witness :
  exists content c, CalculateCid content = inl c /\ cid_String c = "Qshard" /\
    served staging shard_req (mm_gw (update_node node0).2) content.
Proof.
  pose proof (update_servable gateway "peer" staging "/srv" "/keys" staging (MkStoreManager []) 1000 false
    true 10 1000 eq_refl data_query clientProposal 0 (string_bytes "rd") node0 node0_inv) as Ho.
  apply (on_ret _ _ 1%nat) in Ho; [|vm_compute; reflexivity].
  exact (Ho shard_req eq_refl eq_refl eq_refl).
Defined.
End WholeNode.
