(* ===== verification/NodeApi.v ===== *)
(** * The API of a node ([node/node.go])

    The requests of clients arrive here: [validSignature] checks the signature of a
    proposal before the model manager sees it, and the methods of the API pass the
    results on.  A fisherman checks the shards of other nodes ([FaultsCheck],
    [RecoverCheck]) and reports faults to the chain.

    The state [nd] has the manager with everything below it, and the datastore of
    the transport.  [HasWorld] finds the world of chain and libraries in the state
    of the gateway.  The shard that a fisherman asks for comes through a channel,
    in a [select] with a timer of ten seconds: [time_After] says which is first. *)
From stdpp Require Import base list gmap strings.
From Stdlib Require Import ZArith Lia Ascii.
From S2P Require Import Prelude Types StateUtils ChainApi Stage Chain Gateway.
From S2P Require Import Validator ModelManager.

Definition PEER_INFO_PREFIX : string := "peerInfo_".
Definition FILE_INFO_PREFIX : string := "fileInfo_".

(** *** Responses ([api/types]) *)
Record CreateResp := MkCreateResp { crr_DataId : string; crr_Alias : string; crr_TxId : string; crr_Cid : string }.
Record UpdateResp := MkUpdateResp {
  ur_DataId : string; ur_CommitId : string; ur_Alias : string; ur_TxId : string; ur_Cid : string
}.
Record LoadResp := MkLoadResp {
  lr_DataId : string; lr_Alias : string; lr_CommitId : string; lr_Version : string; lr_Cid : string;
  lr_Content : bytes
}.
Record DeleteResp := MkDeleteResp { der_DataId : string; der_Alias : string }.
Record ShowCommitsResp := MkShowCommitsResp {
  scm_DataId : string; scm_Alias : string; scm_Commits : list string
}.

(** [types.ReceivedFileInfo] *)
Record ReceivedFileInfo := MkReceivedFileInfo {
  rfi_Cid : string;
  rfi_TotalLength : Z;
  rfi_TotalChunks : Z;
  rfi_ReceivedLength : Z;
  rfi_Path : string;
  rfi_ChunkCids : list string
}.

(** *** What the API asks of other code *)
Class HasWorld (G W : Type) := { world_of : G -> W; set_world : W -> G -> G }.

(** The wire formats of the proposals that [GatewayChain] keeps opaque. *)
Class SignedProposals (W : Type) `{!GatewayChain W} := {
  otp_Marshal : OrderTerminateProposal -> bytes + error;
  otp_Signature : OrderTerminateProposal -> JwsSignature;
  orp_Marshal : OrderRenewProposal -> bytes + error;
  orp_Signature : OrderRenewProposal -> JwsSignature;
  pmp_Marshal : PermissionProposal -> bytes + error;
  pmp_Signature : PermissionProposal -> JwsSignature
}.

(** [json.Unmarshal] into a nil pointer: [None] for [null]. *)
Class FileInfoLib := { FileInfo_Unmarshal : bytes -> option ReceivedFileInfo + error }.

Class OpenFiles (W : Type) := { os_Open : string -> call W bytes; io_ReadAll : bytes -> call W bytes }.

(** The key of the node: [getDidManager] and [CreateJWS]. *)
Class NodeDid (W : Type) := {
  getDidManager : string -> string -> call W string;      (* the did of the manager *)
  os_Getenv : string -> total_call W string;
  CreateJWS : string -> bytes -> call W JwsSignature
}.

Class FishmenChain (W : Type) := {
  chain_GetMetaShards : string -> call W (Metadata * gmap string ShardMeta);
  chain_GetFault : string -> call W Fault;
  chain_GetShard : Z -> call W Shard;
  chain_ReportFaults : string -> string -> list Fault -> call W (list string);
  chain_RecoverFaults : string -> string -> list Fault -> call W (list string)
}.

Class Timer (W : Type) := { time_After : Z -> total_call W bool }.

Class ShardFetcher (G : Type) := {
  api_FetchShard : string -> string -> string -> string -> Z -> GoM G ShardLoadResp
}.

Section NodeApi.
Context `{!CidLib, !ErrorText, !JsonLib, !RuleLib, !GoRange, !PatchLib, !ContextLib}
        {G W C X T : Type} `{!SchemaLib X, !GatewayChain W, !ProposalFields W,
        !GatewaySvcApi G W, !CacheSvcApi C}.
Context `{!HasWorld G W, !SignedProposals W, !ProposalLib, !DidLib W, !ChainSvcApi W, !FishmenChain W, !Timer W,
          !ShardFetcher G, !Datastore T, !FileInfoLib, !FileSys W, !OpenFiles W, !NodeDid W}.
(** The configuration and the address of the node. *)
Context (EnableCache : bool) (CacheCapacity ContentLimit : Z) (address HttpFileServerAddress : string)
        (SaoIpfs_Enable : bool).

Abbreviation manager := (@mm _ _ G W C X _).

Record nd := Nd { nd_mm : manager; nd_tds : T }.

Definition on_mm {A} (m : GoM manager A) : GoM nd A := zoom nd_mm (fun m s => Nd m (nd_tds s)) m.
Definition on_tds {A} (m : GoM T A) : GoM nd A := zoom nd_tds (fun t s => Nd (nd_mm s) t) m.
Definition on_world {A} (m : GoM W A) : GoM nd A := on_mm (on_gw (zoom world_of set_world m)).

(** ** Signatures *)
Definition validSignature (proposal : bytes + error) (owner : string) (signature : JwsSignature) :
    GoM nd unit :=
  if String.eqb owner "all" then ret tt else
  didManager <- wrapping ErrInvalidDid (on_world (invoke (NewDidManagerWithDid owner))) ;;
  proposalBytes <- wrapping ErrMarshalFailed (lift proposal) ;;
  wrapping ErrInvalidSignature
    (on_world (invoke (VerifyJWS didManager (base64url_Encode proposalBytes) signature))).

(** The checks of a query and of an order. *)
Definition valid_query (req : MetadataProposal) : GoM nd unit :=
  validSignature (QueryProposal_Marshal (mtp_Proposal req)) (qp_Owner (mtp_Proposal req))
    (mtp_JwsSignature req).
Definition valid_order (p : OrderStoreProposal) : GoM nd unit :=
  validSignature (Proposal_Marshal (osp_Proposal p)) (pr_Owner (osp_Proposal p)) (osp_JwsSignature p).

(** ** Requests on models *)
Definition create_resp (m : Model) : CreateResp := MkCreateResp (mo_DataId m) (mo_Alias m) "" (mo_Cid m).

Definition ModelCreate (req : MetadataProposal) (orderProposal : OrderStoreProposal) (orderId : Z)
    (content : bytes) : GoM nd CreateResp :=
  valid_query req ;;
  valid_order orderProposal ;;
  model <- on_mm (Create EnableCache CacheCapacity ContentLimit req orderProposal orderId content) ;;
  m <- on_mm (load model) ;;
  ret (create_resp m).

(** The uploaded file of the order is read before the signatures are checked. *)
Definition ModelCreateFile (req : MetadataProposal) (orderProposal : OrderStoreProposal) (orderId : Z) :
    GoM nd CreateResp :=
  let cidStr := pr_Cid (osp_Proposal orderProposal) in
  try info <- on_tds (ds_Get (NewKey (FILE_INFO_PREFIX +:+ cidStr)))
    catch err => fail (Wrapf ErrInvalidCid ("invliad CID: " +:+ cidStr)) ;;
  fileInfo <- wrapping ErrUnMarshalFailed (lift (FileInfo_Unmarshal info)) ;;
  fileInfo <- deref fileInfo ;;
  basePath <- wrapping ErrInvalidPath (lift (homedir_Expand (rfi_Path fileInfo))) ;;
  file <- wrapping ErrOpenFileFailed (on_world (invoke (os_Open (path_Join [basePath; cidStr])))) ;;
  content <- wrapping ErrReadFileFailed (on_world (invoke (io_ReadAll file))) ;;
  valid_query req ;;
  valid_order orderProposal ;;
  model <- on_mm (Create EnableCache CacheCapacity ContentLimit req orderProposal orderId content) ;;
  m <- on_mm (load model) ;;
  ret (create_resp m).

Definition load_resp (m : Model) : LoadResp :=
  MkLoadResp (mo_DataId m) (mo_Alias m) (mo_CommitId m) (mo_Version m) (mo_Cid m) (mo_Content m).

Definition ModelLoad (req : MetadataProposal) : GoM nd LoadResp :=
  valid_query req ;;
  model <- on_mm (Load EnableCache CacheCapacity ContentLimit req) ;;
  m <- on_mm (load model) ;;
  ret (load_resp m).

Definition delegated (did : string) (p : QueryProposal) : QueryProposal :=
  MkQueryProposal did (qp_Keyword p) (qp_GroupId p) (qp_KeywordType p) (qp_LastValidHeight p)
    (qp_Gateway p) (qp_CommitId p) (qp_Version p).

(** The node asks in its own name for what a client asked it. *)
Definition ModelLoadDelegate (req : MetadataProposal) : GoM nd LoadResp :=
  valid_query req ;;
  keyringHome <- on_world (invoke_total (os_Getenv "SAO_KEYRING_HOME")) ;;
  keyName <- on_world (invoke_total (os_Getenv "SAO_KEY_NAME")) ;;
  did <- on_world (invoke (getDidManager keyringHome keyName)) ;;
  let proposal := delegated did (mtp_Proposal req) in
  proposalBytes <- wrapping ErrMarshalFailed (lift (QueryProposal_Marshal proposal)) ;;
  jws <- wrapping ErrCreateJwsFailed (on_world (invoke (CreateJWS did proposalBytes))) ;;
  model <- on_mm (Load EnableCache CacheCapacity ContentLimit (MkMetadataProposal proposal jws)) ;;
  m <- on_mm (load model) ;;
  ret (load_resp m).

(** The response is empty. *)
Definition ModelDelete (req : OrderTerminateProposal) (isPublish : bool) : GoM nd DeleteResp :=
  validSignature (otp_Marshal req) (otp_Owner req) (otp_Signature req) ;;
  on_mm (Delete req isPublish) ;;
  ret (MkDeleteResp "" "").

Definition ModelUpdate (req : MetadataProposal) (orderProposal : OrderStoreProposal) (orderId : Z)
    (patch : bytes) : GoM nd UpdateResp :=
  valid_query req ;;
  valid_order orderProposal ;;
  model <- on_mm (Update EnableCache CacheCapacity ContentLimit req orderProposal orderId patch) ;;
  m <- on_mm (load model) ;;
  ret (MkUpdateResp (mo_DataId m) (mo_CommitId m) (mo_Alias m) "" (mo_Cid m)).

Definition ModelShowCommits (req : MetadataProposal) : GoM nd ShowCommitsResp :=
  valid_query req ;;
  m <- on_mm (ShowCommits req) ;;
  ret (MkShowCommitsResp (mo_DataId m) (mo_Alias m) (mo_Commits m)).

Definition ModelRenewOrder (req : OrderRenewProposal) (isPublish : bool) : GoM nd (gmap string string) :=
  validSignature (orp_Marshal req) (orp_Owner req) (orp_Signature req) ;;
  on_mm (Renew req isPublish).

Definition ModelUpdatePermission (req : PermissionProposal) (isPublish : bool) : GoM nd string :=
  validSignature (pmp_Marshal req) (pmp_Owner req) (pmp_Signature req) ;;
  m <- on_mm (UpdatePermission req isPublish) ;;
  ret (mo_DataId m).

(** ** Information *)
Definition GetPeerInfo : GoM nd string :=
  peerInfo <- on_tds (ds_Get (NewKey PEER_INFO_PREFIX)) ;; ret (bytes_string peerInfo).

Definition GetHttpUrl (dataId : string) : GoM nd string :=
  if negb (String.eqb HttpFileServerAddress "") then
    ret ("http://" +:+ HttpFileServerAddress +:+ "/saonetwork/" +:+ dataId)
  else fail (Wrapf ErrGetHttpUrlFaild "failed to get http url").

Definition GetIpfsUrl (cid : string) : GoM nd string :=
  if SaoIpfs_Enable then ret ("ipfs+https://" +:+ HttpFileServerAddress +:+ "/ipfs/" +:+ cid)
  else fail (Wrapf ErrGetIpfsUrlFaild "failed to get ipfs url").

Definition GetNodeAddress : GoM nd string := ret address.

(** ** Fishermen *)
Definition check_fisherman : GoM nd unit :=
  fishmen <- on_world (invoke chain_GetFishmen) ;;
  if negb (Contains fishmen address) then fail (Wrapf ErrInvalidParameters "i am not a fishmen")
  else ret tt.

(** [meta.Metadata.Commits[len(meta.Metadata.Commits)-1]] *)
Definition last_commit (meta : Metadata) : option string := last (md_Commits meta).

(** The check of a shard: [None] when the cid of its content cannot be computed,
    which ends the turn of the loop.  The shard is asked for in a goroutine; when
    the timer is first, its answer is lost. *)
Definition check_shard (provider cidStr peer : string) (meta : Metadata) : GoM nd (option bool) :=
  resp <- on_mm (on_gw (api_FetchShard provider cidStr peer (md_DataId meta) (md_OrderId meta))) ;;
  timeout <- on_world (invoke_total (time_After 10000000000)) ;;
  if (timeout : bool) then ret (Some false) else
  if negb (slp_Code resp =? 0) then ret (Some false) else
  match CalculateCid (slp_Content resp) with
  | inr _ => ret None
  | inl cid => ret (Some (String.eqb (cid_String cid) (md_Cid meta)))
  end.

Definition Faults := gmap string (list Fault).
(** [faultsMap[provider] = append(faultsMap[provider], fault)] *)
Definition add_fault (f : Fault) (provider : string) (m : Faults) : Faults :=
  <[provider := default [] (m !! provider) ++ [f]]> m.

Definition check_entry (meta : Metadata) (faultsMap : Faults) (provider : string) (shard : ShardMeta) :
    GoM nd Faults :=
  passCheck <- check_shard provider (smt_Cid shard) (smt_Peer shard) meta ;;
  match passCheck with
  | Some false =>
      commit <- deref (last_commit meta) ;;
      ret (add_fault (MkFault (md_DataId meta) (md_OrderId meta) (smt_ShardId shard) commit provider address)
             provider faultsMap)
  | _ => ret faultsMap
  end.

(** A loop that threads an accumulator. *)
Fixpoint fold_m {S A B} (f : B -> A -> GoM S B) (b : B) (l : list A) : GoM S B :=
  match l with
  | [] => ret b
  | x :: l' => b <- f b x ;; fold_m f b l'
  end.

Definition check_data (faultsMap : Faults) (dataId : string) : GoM nd Faults :=
  try r <- on_world (invoke (chain_GetMetaShards dataId)) catch err => ret faultsMap ;;
  fold_m (fun m e => check_entry r.1 m e.1 e.2) faultsMap (range r.2).

(** Reports the faults of a provider; a report that fails takes them out again. *)
Definition report_faults (faultsMap : Faults) (e : string * list Fault) : GoM nd Faults :=
  if Nat.ltb 0 (length e.2) then
    try _ids <- on_world (invoke (chain_ReportFaults address e.1 e.2))
      catch err => ret (delete e.1 faultsMap) ;;
    ret faultsMap
  else ret faultsMap.

Definition FaultsCheck (dataIds : list string) : GoM nd Faults :=
  check_fisherman ;;
  faultsMap <- fold_m check_data ∅ dataIds ;;
  faultsMap <- fold_m report_faults faultsMap (range faultsMap) ;;
  if Nat.ltb 0 (size faultsMap) then ret faultsMap
  else fail (Wrapf ErrInvalidParameters "no faults found").

(** The peer of the shard of a fault; [provider] is the loop variable here. *)
Definition fault_peer (fault : Fault) (shards : list (string * ShardMeta)) : string :=
  match List.find (fun e => (smt_ShardId e.2 =? ft_ShardId fault) && String.eqb e.1 (ft_Provider fault)) shards with
  | Some e => smt_Peer e.2
  | None => ""
  end.

Definition recover_fault (provider : string) (faults : list Fault) (faultId : string) : GoM nd (list Fault) :=
  try fault <- on_world (invoke (chain_GetFault faultId)) catch err => ret faults ;;
  try r <- on_world (invoke (chain_GetMetaShards (ft_DataId fault))) catch err => ret faults ;;
  try shardMeta <- on_world (invoke (chain_GetShard (ft_ShardId fault))) catch err => ret faults ;;
  let peer := fault_peer fault (range r.2) in
  if String.eqb peer "" then ret faults else
  passCheck <- check_shard provider (sh_Cid shardMeta) peer r.1 ;;
  match passCheck with
  | Some true =>
      commit <- deref (last_commit r.1) ;;
      let commitId := hd "" (Split commit commit_sep) in
      ret (faults ++ [MkFault (md_DataId r.1) (md_OrderId r.1) (ft_ShardId fault) commitId
                        (ft_Provider fault) address])
  | _ => ret faults
  end.

Definition RecoverCheck (provider : string) (faultIds : list string) : GoM nd (list Fault) :=
  check_fisherman ;;
  faults <- fold_m (recover_fault provider) [] faultIds ;;
  if Nat.ltb 0 (length faults) then
    on_world (invoke (chain_RecoverFaults address provider faults)) ;;
    ret faults
  else fail (Wrapf ErrInvalidParameters "no recoverable faults found").
End NodeApi.
