(* ===== verification/NodeTheorems.v ===== *)
(** * Properties of the API of a node

    [requests_authorized]: a request reaches the manager only with valid
    signatures; [faults_justified] and [recoveries_justified]: what a fisherman
    reports was checked. *)
From stdpp Require Import base list gmap strings.
From Stdlib Require Import ZArith Lia Ascii.
From S2P Require Import Prelude Types StateUtils ChainApi Stage Chain Gateway.
From S2P Require Import Validator ModelManager NodeApi.

Section NodeTheorems.
Context `{!CidLib, !ErrorText, !JsonLib, !RuleLib, !GoRange, !GoRangeLaws, !PatchLib, !ContextLib}
        {G W C X T : Type} `{!SchemaLib X, !GatewayChain W, !ProposalFields W,
        !GatewaySvcApi G W, !CacheSvcApi C}.
Context `{!HasWorld G W, !SignedProposals W, !ProposalLib, !DidLib W, !ChainSvcApi W, !FishmenChain W, !Timer W,
          !ShardFetcher G, !Datastore T, !FileInfoLib, !FileSys W, !OpenFiles W, !NodeDid W}.
Context (EnableCache : bool) (CacheCapacity ContentLimit : Z) (address : string).

Abbreviation node := (nd (G := G) (W := W) (C := C) (X := X) (T := T)).
Implicit Types s : node.

(** ** Signatures *)

(** Nothing changed but the world and the datastore of the transport. *)
Definition untouched s s' : Prop :=
  mm_cache (nd_mm s') = mm_cache (nd_mm s) /\ mm_heap (nd_mm s') = mm_heap (nd_mm s) /\
  mm_valid (nd_mm s') = mm_valid (nd_mm s) /\ mm_calls (nd_mm s') = mm_calls (nd_mm s).

#[local] Instance untouched_preorder : PreOrder untouched.
Proof. split; unfold untouched; [done|intros s1 s2 s3 (?&?&?&?) (?&?&?&?); split_and!; congruence]. Qed.

Lemma on_world_untouched {A} (m : GoM W A) : steps untouched (on_world (T := T) (C := C) (X := X) m).
Proof.
  intros s. unfold on_world, on_mm, on_gw, zoom, untouched. by destruct (m (world_of (mm_gw (nd_mm s)))).
Qed.
Lemma on_tds_untouched {A} (m : GoM T A) : steps untouched (on_tds m).
Proof. intros s. unfold on_tds, zoom, untouched. by destruct (m (nd_tds s)). Qed.
Hint Resolve on_world_untouched on_tds_untouched : go.

Lemma wrapping_untouched {A} e (m : GoM node A) : steps untouched m -> steps untouched (wrapping e m).
Proof. intros Hm. unfold wrapping. go_steps. Qed.
Hint Resolve wrapping_untouched : go.

(** The owner is everybody, or the signature is the owner's, of this text. *)
Definition authorized (proposal : bytes + error) (owner : string) (sig : JwsSignature) : Prop :=
  owner = "all" \/
  exists b dm w1 w1' w2 w2', proposal = inl b /\
    NewDidManagerWithDid owner w1 = (inl dm, w1') /\
    VerifyJWS dm (base64url_Encode b) sig w2 = (inl tt, w2').

Lemma on_world_Ret {A} (c : call W A) s a s' :
  on_world (T := T) (C := C) (X := X) (invoke c) s = (Ret a, s') -> exists w w', c w = (inl a, w').
Proof.
  unfold on_world, on_mm, on_gw, zoom, invoke.
  destruct (c (world_of (mm_gw (nd_mm s)))) as [[x|e] w'] eqn:E; [|done]. intros [= -> _]. eauto.
Qed.

Lemma wrapping_Ret {A} e (m : GoM node A) s a s' : wrapping e m s = (Ret a, s') -> m s = (Ret a, s').
Proof. unfold wrapping, or_else, attempt, bind. by destruct (m s) as [[] ?]. Qed.

Lemma wp_wrapping {A} e (m : GoM node A) s (Q : outcome A -> node -> Prop) :
  wp m s (fun o s' => match o with
                      | Fail err => Q (Fail (Wrap e (Some err))) s'
                      | _ => Q o s'
                      end) -> wp (wrapping e m) s Q.
Proof. unfold wp, wrapping, or_else, attempt, bind. by destruct (m s) as [[] ?]. Qed.

(** A check of a signature ends with an authorized proposal or an error. *)
Lemma validSignature_spec proposal owner sig s :
  wp (validSignature (T := T) (C := C) (X := X) proposal owner sig) s (fun o s' => untouched s s' /\
    match o with
    | Ret _ => authorized proposal owner sig
    | Fail _ => True
    | _ => False
    end).
Proof.
  assert (forall A (c : call W A) e s0, wp (wrapping e (on_world (T := T) (C := C) (X := X) (invoke c))) s0
    (fun o s' => untouched s0 s' /\ match o with
       | Ret a => exists w w', c w = (inl a, w') | Fail _ => True | _ => False end)) as Hcall.
  { intros A c e s0. eapply wp_steps; [apply wrapping_untouched, on_world_untouched|].
    intros o s' E Hu. split; [done|]. destruct o as [a|err| |]; [|done|exfalso..].
    - by apply wrapping_Ret, on_world_Ret in E.
    - revert E. unfold wrapping, or_else, attempt, bind, on_world, on_mm, on_gw, zoom, invoke.
      by destruct (c _) as [[]].
    - revert E. unfold wrapping, or_else, attempt, bind, on_world, on_mm, on_gw, zoom, invoke.
      by destruct (c _) as [[]]. }
  unfold validSignature. destruct (String.eqb_spec owner "all") as [->|Hne]; [by apply wp_ret; repeat split; left|].
  apply wp_bind. eapply wp_mono; [apply Hcall|]. cbn. intros [dm|e| |] s1 [Hu1 Hr1]; [|done..].
  destruct Hr1 as (w1 & w1' & E1). apply wp_bind, wp_wrapping.
  destruct proposal as [b|e]; [|by apply wp_fail]. apply wp_ret.
  eapply wp_mono; [apply Hcall|]. cbn. intros [[]|e| |] s2 [Hu2 Hr2]; try done; (split; [by etrans|]); [|done].
  destruct Hr2 as (w2 & w2' & E2). right. by exists b, dm, w1, w1', w2, w2'.
Qed.

(** The requests of clients. *)
Inductive api_request :=
| ApiCreate (req : MetadataProposal) (p : OrderStoreProposal) (orderId : Z) (content : bytes)
| ApiCreateFile (req : MetadataProposal) (p : OrderStoreProposal) (orderId : Z)
| ApiLoad (req : MetadataProposal)
| ApiLoadDelegate (req : MetadataProposal)
| ApiDelete (req : OrderTerminateProposal) (isPublish : bool)
| ApiUpdate (req : MetadataProposal) (p : OrderStoreProposal) (orderId : Z) (patch : bytes)
| ApiShowCommits (req : MetadataProposal)
| ApiRenew (req : OrderRenewProposal) (isPublish : bool)
| ApiUpdatePermission (req : PermissionProposal) (isPublish : bool).

Definition handle_api (r : api_request) : GoM node unit :=
  match r with
  | ApiCreate req p orderId content =>
      ModelCreate EnableCache CacheCapacity ContentLimit req p orderId content ;; ret tt
  | ApiCreateFile req p orderId =>
      ModelCreateFile EnableCache CacheCapacity ContentLimit req p orderId ;; ret tt
  | ApiLoad req => ModelLoad EnableCache CacheCapacity ContentLimit req ;; ret tt
  | ApiLoadDelegate req => ModelLoadDelegate EnableCache CacheCapacity ContentLimit req ;; ret tt
  | ApiDelete req isPublish => ModelDelete req isPublish ;; ret tt
  | ApiUpdate req p orderId patch =>
      ModelUpdate EnableCache CacheCapacity ContentLimit req p orderId patch ;; ret tt
  | ApiShowCommits req => ModelShowCommits req ;; ret tt
  | ApiRenew req isPublish => ModelRenewOrder req isPublish ;; ret tt
  | ApiUpdatePermission req isPublish => ModelUpdatePermission req isPublish ;; ret tt
  end.

Definition query_authorized (req : MetadataProposal) : Prop :=
  authorized (QueryProposal_Marshal (mtp_Proposal req)) (qp_Owner (mtp_Proposal req)) (mtp_JwsSignature req).
Definition order_authorized (p : OrderStoreProposal) : Prop :=
  authorized (Proposal_Marshal (osp_Proposal p)) (pr_Owner (osp_Proposal p)) (osp_JwsSignature p).

Definition request_authorized (r : api_request) : Prop :=
  match r with
  | ApiCreate req p _ _ | ApiCreateFile req p _ | ApiUpdate req p _ _ =>
      query_authorized req /\ order_authorized p
  | ApiLoad req | ApiLoadDelegate req | ApiShowCommits req => query_authorized req
  | ApiDelete req _ => authorized (otp_Marshal req) (otp_Owner req) (otp_Signature req)
  | ApiRenew req _ => authorized (orp_Marshal req) (orp_Owner req) (orp_Signature req)
  | ApiUpdatePermission req _ => authorized (pmp_Marshal req) (pmp_Owner req) (pmp_Signature req)
  end.

(** What a run has done: it was allowed, or it ended and touched nothing. *)
Definition guarded {A} (P : Prop) s0 (o : outcome A) s' : Prop :=
  P \/ ((forall a, o <> Ret a) /\ untouched s0 s').

Lemma wp_allowed {A} (P : Prop) s0 (m : GoM node A) s : P -> wp m s (guarded P s0).
Proof. intros HP. unfold wp. by left. Qed.

Lemma wp_checked {A} (P : Prop) proposal owner sig (k : GoM node A) s0 s :
  untouched s0 s ->
  (authorized proposal owner sig -> forall s1, untouched s0 s1 -> wp k s1 (guarded P s0)) ->
  wp (validSignature (T := T) (C := C) (X := X) proposal owner sig ;; k) s (guarded P s0).
Proof.
  intros Hu Hk. apply wp_bind. eapply wp_mono; [apply validSignature_spec|]. cbn.
  intros [u|e| |] s1 [Hu1 Hr1]; [|right; split; [done|by etrans]|done..]. apply Hk; [done|by etrans].
Qed.

Lemma wp_before {A B} (P : Prop) (m : GoM node A) (k : A -> GoM node B) s0 s :
  steps untouched m -> untouched s0 s ->
  (forall a s1, untouched s0 s1 -> wp (k a) s1 (guarded P s0)) -> wp (bind m k) s (guarded P s0).
Proof.
  intros Hm Hu Hk. apply wp_bind. eapply wp_steps; [exact Hm|]. intros [a|e| |] s1 _ Hu1;
    [|right; split; [done|by etrans]..]. apply Hk. by etrans.
Qed.

Lemma wp_discard {A} (P : Prop) (m : GoM node A) s0 s :
  wp m s (guarded P s0) -> wp (m ;; ret tt) s (guarded P s0).
Proof.
  unfold wp, bind. destruct (m s) as [[a|e| |] s1]; cbn; (intros [HP|[Hno Hu]]; [by left|]);
    [by destruct (Hno a)|right; by split..].
Qed.

(** C10: a request of a client that does anything but fail, or that touches the
    models, the cache, the validator or the gateway, is authorized: its query, and
    its order when it has one, are signed by their owners, unless the owner is
    "all", whose requests are not checked. *)
Theorem requests_authorized (r : api_request) s :
  request_authorized r \/ ((forall a, (handle_api r s).1 <> Ret a) /\ untouched s (handle_api r s).2).
Proof.
  change (wp (handle_api r) s (guarded (request_authorized r) s)).
  assert (untouched s s) as Hs by done.
  destruct r; cbn [handle_api request_authorized]; apply wp_discard;
    unfold ModelCreate, ModelLoad, ModelLoadDelegate, ModelDelete, ModelUpdate, ModelShowCommits,
      ModelRenewOrder, ModelUpdatePermission, valid_query, valid_order.
  - apply wp_checked; [done|]. intros Hq s1 Hu1. apply wp_checked; [done|]. intros Ho s2 Hu2. by apply wp_allowed.
  - unfold ModelCreateFile, or_else, valid_query, valid_order. apply wp_before; [go_steps|done|]. intros [info|e] s1 Hu1;
      [|by right]. do 5 (apply wp_before; [go_steps|done|]; clear s1 Hu1; intros ? s1 Hu1).
    apply wp_checked; [done|]. intros Hq s2 Hu2. apply wp_checked; [done|]. intros Ho s3 Hu3. by apply wp_allowed.
  - apply wp_checked; [done|]. intros Hq s1 Hu1. by apply wp_allowed.
  - apply wp_checked; [done|]. intros Hq s1 Hu1. by apply wp_allowed.
  - apply wp_checked; [done|]. intros Hq s1 Hu1. by apply wp_allowed.
  - apply wp_checked; [done|]. intros Hq s1 Hu1. apply wp_checked; [done|]. intros Ho s2 Hu2. by apply wp_allowed.
  - apply wp_checked; [done|]. intros Hq s1 Hu1. by apply wp_allowed.
  - apply wp_checked; [done|]. intros Hq s1 Hu1. by apply wp_allowed.
  - apply wp_checked; [done|]. intros Hq s1 Hu1. by apply wp_allowed.
Qed.

End NodeTheorems.

(** ** Fishermen *)

(** What a fisherman asked of the chain and of the other nodes, with the answers. *)
Inductive fish_event :=
| EvFishmen (r : string + error)
| EvMetaShards (dataId : string) (r : Metadata * gmap string ShardMeta + error)
| EvFetchShard (provider cidStr peer dataId : string) (orderId : Z) (resp : ShardLoadResp)
| EvTimer (fired : bool)
| EvGetFault (faultId : string) (r : Fault + error)
| EvGetShard (id : Z) (r : Shard + error)
| EvReportFaults (creator provider : string) (faults : list Fault) (r : list string + error)
| EvRecoverFaults (creator provider : string) (faults : list Fault) (r : list string + error).

(** The history of these calls.  To fetch a shard asks nothing else of them. *)
Class FishLog (G W : Type) `{!GatewayChain W, !HasWorld G W, !ChainSvcApi W, !FishmenChain W, !Timer W,
    !ShardFetcher G} := {
  fish_log : W -> list fish_event;
  world_of_set w g : world_of (set_world (G := G) w g) = w;
  fishmen_logged w : fish_log (chain_GetFishmen w).2 = fish_log w ++ [EvFishmen (chain_GetFishmen w).1];
  meta_logged d w : fish_log (chain_GetMetaShards d w).2 = fish_log w ++ [EvMetaShards d (chain_GetMetaShards d w).1];
  fault_logged i w : fish_log (chain_GetFault i w).2 = fish_log w ++ [EvGetFault i (chain_GetFault i w).1];
  shard_logged i w : fish_log (chain_GetShard i w).2 = fish_log w ++ [EvGetShard i (chain_GetShard i w).1];
  timer_logged d w : fish_log (time_After d w).2 = fish_log w ++ [EvTimer (time_After d w).1];
  report_logged a p l w : fish_log (chain_ReportFaults a p l w).2
    = fish_log w ++ [EvReportFaults a p l (chain_ReportFaults a p l w).1];
  recover_logged a p l w : fish_log (chain_RecoverFaults a p l w).2
    = fish_log w ++ [EvRecoverFaults a p l (chain_RecoverFaults a p l w).1];
  fetch_logged p c a d o g : fish_log (world_of (api_FetchShard p c a d o g).2)
    = fish_log (world_of g) ++ match (api_FetchShard (G := G) p c a d o g).1 with
                               | Ret resp => [EvFetchShard p c a d o resp]
                               | _ => []
                               end
}.

Section Fishermen.
Context `{!CidLib, !JsonLib, !RuleLib, !GoRange, !GoRangeLaws} {G W C X T : Type}
        `{!GatewayChain W, !HasWorld G W, !ChainSvcApi W, !FishmenChain W, !Timer W, !ShardFetcher G, !FishLog G W}.
Context (address : string).
Abbreviation node := (nd (G := G) (W := W) (C := C) (X := X) (T := T)).
Implicit Types (s : node) (l : list fish_event).

Definition events s : list fish_event := fish_log (world_of (mm_gw (nd_mm s))).

(** After [s0] the calls [l] were made, and [P] holds of them. *)
Definition adds s0 (P : list fish_event -> Prop) s : Prop := exists l, events s = events s0 ++ l /\ P l.

Lemma adds_none s (P : list fish_event -> Prop) : P [] -> adds s P s.
Proof. intros HP. exists []. by rewrite app_nil_r. Qed.

(** A call that is logged. *)
Lemma wp_logged {A} (c : call W A) (ev : A + error -> fish_event) s (Q : outcome A -> node -> Prop) :
  (forall w, fish_log (c w).2 = fish_log w ++ [ev (c w).1]) ->
  (forall a s', adds s (fun l => l = [ev (inl a)]) s' -> Q (Ret a) s') ->
  (forall e s', adds s (fun l => l = [ev (inr e)]) s' -> Q (Fail e) s') ->
  wp (on_world (invoke c)) s Q.
Proof.
  intros Hlog Hr Hf. unfold wp, on_world, on_mm, on_gw, zoom, invoke.
  specialize (Hlog (world_of (mm_gw (nd_mm s)))).
  destruct (c (world_of (mm_gw (nd_mm s)))) as [[a|e] w] eqn:E; cbn in *;
    [apply Hr|apply Hf]; eexists; (split; [|done]); unfold events; cbn; by rewrite world_of_set.
Qed.

(** The chain counts the node among the fishermen. *)
Definition fisherman l : Prop := exists fishmen, EvFishmen (inl fishmen) ∈ l /\ Contains fishmen address = true.

(** A provider was asked for a shard, and waited for. *)
Definition asked_shard l (provider cidStr peer : string) (meta : Metadata) (resp : ShardLoadResp)
    (late : bool) : Prop :=
  exists pre post, l = pre ++ [EvFetchShard provider cidStr peer (md_DataId meta) (md_OrderId meta) resp;
                               EvTimer late] ++ post.

(** Its answer is in time and is the content, or it is late, refuses, or has another
    content. *)
Definition passes (meta : Metadata) (resp : ShardLoadResp) (late : bool) : Prop :=
  late = false /\ slp_Code resp = 0 /\
  exists c, CalculateCid (slp_Content resp) = inl c /\ cid_String c = md_Cid meta.
Definition fails (meta : Metadata) (resp : ShardLoadResp) (late : bool) : Prop :=
  late = true \/ slp_Code resp <> 0 \/
  exists c, CalculateCid (slp_Content resp) = inl c /\ cid_String c <> md_Cid meta.

(** Nothing is reported by these calls. *)
Definition silent (e : fish_event) : Prop :=
  match e with EvReportFaults _ _ _ _ | EvRecoverFaults _ _ _ _ => False | _ => True end.

(** The calls since [s0] report nothing, and [P] holds of them. *)
Definition quietly s0 (P : list fish_event -> Prop) : node -> Prop := adds s0 (fun l => Forall silent l /\ P l).

Lemma asked_shard_mono l0 l l1 p c a meta resp late :
  asked_shard l p c a meta resp late -> asked_shard (l0 ++ l ++ l1) p c a meta resp late.
Proof. intros (pre & post & ->). exists (l0 ++ pre), (post ++ l1). by rewrite <- !app_assoc. Qed.

Lemma check_shard_spec provider cidStr peer meta s :
  wp (check_shard (C := C) (X := X) (T := T) provider cidStr peer meta) s (fun o =>
    quietly s (fun l => match o with
      | Ret (Some b) => exists resp late, asked_shard l provider cidStr peer meta resp late /\
          if b then passes meta resp late else fails meta resp late
      | _ => True
      end)).
Proof.
  unfold check_shard. apply wp_bind. unfold wp at 1, on_mm, on_gw, zoom.
  pose proof (fetch_logged provider cidStr peer (md_DataId meta) (md_OrderId meta) (mm_gw (nd_mm s))) as Hlog.
  destruct (api_FetchShard provider cidStr peer (md_DataId meta) (md_OrderId meta) (mm_gw (nd_mm s)))
    as [[resp|e| |] g]; cbn in Hlog |- *;
    [|by (exists []; split; [exact Hlog|])..].
  apply wp_bind. unfold wp at 1, on_world, on_mm, on_gw, zoom, invoke_total. cbn.
  pose proof (timer_logged 10000000000 (world_of g)) as Htimer.
  destruct (time_After 10000000000 (world_of g)) as [late w]; cbn in Htimer |- *.
  set (s2 := Nd _ _). set (l := [EvFetchShard provider cidStr peer (md_DataId meta) (md_OrderId meta) resp; EvTimer late]).
  assert (events s2 = events s ++ l) as He.
  { unfold events, s2, l. cbn. by rewrite world_of_set, Htimer, Hlog, <- app_assoc. }
  assert (Forall silent l) as Hs by (by repeat constructor).
  assert (forall b : bool, (if b then passes meta resp late else fails meta resp late) ->
    adds s (fun l => Forall silent l /\ exists resp late, asked_shard l provider cidStr peer meta resp late /\
      if b then passes meta resp late else fails meta resp late) s2) as Hk.
  { intros b Hb. exists l. split; [done|]. split; [done|]. exists resp, late. split; [by exists [], []|done]. }
  destruct late; [apply (Hk false); by left|].
  destruct (Z.eqb_spec (slp_Code resp) 0) as [Hc|Hc]; cbn; [|apply (Hk false); by right; left].
  destruct (CalculateCid (slp_Content resp)) as [c|e] eqn:Ec; [|by exists l].
  apply wp_ret. destruct (String.eqb_spec (cid_String c) (md_Cid meta)) as [Heq|Hne].
  - apply (Hk true). split_and!; eauto.
  - apply (Hk false). right. right. eauto.
Qed.

Lemma quietly_adds s0 s s' (P Q R : list fish_event -> Prop) :
  quietly s0 P s -> quietly s Q s' -> (forall l l', P l -> Q l' -> R (l ++ l')) -> quietly s0 R s'.
Proof.
  intros (l & He & Hs & HP) (l' & He' & Hs' & HQ) HR. exists (l ++ l').
  split_and!; [by rewrite He', He, app_assoc|by apply Forall_app|by apply HR].
Qed.
Lemma quietly_weaken s0 s (P Q : list fish_event -> Prop) :
  quietly s0 P s -> (forall l, P l -> Q l) -> quietly s0 Q s.
Proof. intros (l & He & Hs & HP) HQ. exists l. auto. Qed.
Lemma adds_quietly s s' e : adds s (fun l => l = [e]) s' -> silent e -> quietly s (fun l => l = [e]) s'.
Proof. intros (l & He & ->) Hs. exists [e]. auto. Qed.

(** A silent call in a run that was silent before it. *)
Lemma wp_asked {A} (c : call W A) (ev : A + error -> fish_event) s0 s (P : list fish_event -> Prop)
    (Q : outcome A -> node -> Prop) :
  (forall w, fish_log (c w).2 = fish_log w ++ [ev (c w).1]) -> (forall r, silent (ev r)) -> quietly s0 P s ->
  (forall a s', quietly s0 (fun l => exists l1, l = l1 ++ [ev (inl a)] /\ P l1) s' -> Q (Ret a) s') ->
  (forall e s', quietly s0 (fun l => exists l1, l = l1 ++ [ev (inr e)] /\ P l1) s' -> Q (Fail e) s') ->
  wp (on_world (invoke c)) s Q.
Proof.
  intros Hlog Hsil HP Hr Hf. apply (wp_logged c ev); [done| |]; intros x s' Ha; [apply Hr|apply Hf];
    (eapply quietly_adds; [exact HP|apply adds_quietly; [exact Ha|apply Hsil]|]); intros l l' HPl ->; eauto.
Qed.

(** A silent loop keeps what its body keeps. *)
Lemma wp_fold_m {A B} (f : B -> A -> GoM node B) (I : B -> list fish_event -> Prop) s0 (l0 : list A) :
  (forall b a s, a ∈ l0 -> quietly s0 (I b) s ->
     wp (f b a) s (fun o => quietly s0 (fun l => match o with Ret b' => I b' l | _ => True end))) ->
  forall b s, quietly s0 (I b) s ->
    wp (fold_m f b l0) s (fun o => quietly s0 (fun l => match o with Ret b' => I b' l | _ => True end)).
Proof.
  induction l0 as [|a l0 IH]; intros Hf b s Hb; [by apply wp_ret|]. cbn [fold_m]. apply wp_bind.
  eapply wp_mono; [apply Hf; [left|done]|]. intros [b'|e| |] s' Ha; [|done..].
  apply IH; [|done]. intros b2 a2 s2 Ha2. apply Hf. by right.
Qed.

Lemma check_fisherman_spec s :
  wp (check_fisherman (C := C) (X := X) (T := T) address) s (fun o =>
    quietly s (fun l => match o with Ret _ => fisherman l | _ => True end)).
Proof.
  unfold check_fisherman. apply wp_bind.
  apply (wp_asked _ EvFishmen s s (fun l => l = [])); [apply fishmen_logged|done|by apply adds_none| |].
  2: { intros e s' Hq. by eapply quietly_weaken. }
  intros fishmen s' Hq. destruct (Contains fishmen address) eqn:Ec; (eapply quietly_weaken; [exact Hq|]); [|done].
  intros l (l1 & -> & ->). exists fishmen. split; [by left|done].
Qed.

(** A fault that may be reported after the calls [l]: the provider has a shard of
    the data, was asked for it, and did not give its content. *)
Definition justified (dataIds : list string) l (f : Fault) : Prop :=
  exists dataId meta shards shard resp late,
    dataId ∈ dataIds /\ EvMetaShards dataId (inl (meta, shards)) ∈ l /\ shards !! ft_Provider f = Some shard /\
    asked_shard l (ft_Provider f) (smt_Cid shard) (smt_Peer shard) meta resp late /\ fails meta resp late /\
    ft_DataId f = md_DataId meta /\ ft_OrderId f = md_OrderId meta /\ ft_ShardId f = smt_ShardId shard /\
    last_commit meta = Some (ft_CommitId f) /\ ft_Reporter f = address.

Lemma justified_mono dataIds l l' f : justified dataIds l f -> justified dataIds (l ++ l') f.
Proof.
  intros (dataId & meta & shards & shard & resp & late & Hin & Hm & Hs & Ha & Hf & ? & ? & ? & ? & ?).
  exists dataId, meta, shards, shard, resp, late. split_and!; [done|apply elem_of_app; by left|done| |done..].
  by apply (asked_shard_mono []).
Qed.
Lemma fisherman_mono l l' : fisherman l -> fisherman (l ++ l').
Proof. intros (f & Hin & Hc). exists f. split; [set_solver|done]. Qed.

(** A map of faults: under each provider its own, and some. *)
Definition fault_map (dataIds : list string) l (m : Faults) : Prop :=
  forall provider faults, m !! provider = Some faults ->
    faults <> [] /\ Forall (fun f => ft_Provider f = provider /\ justified dataIds l f) faults.

Lemma fault_map_mono dataIds l l' m : fault_map dataIds l m -> fault_map dataIds (l ++ l') m.
Proof.
  intros Hm p fs [Hne Hall]%Hm. split; [done|]. eapply Forall_impl; [exact Hall|]. intros f [Hp Hj].
  split; [done|by apply justified_mono].
Qed.

Lemma add_fault_map dataIds l f m :
  fault_map dataIds l m -> justified dataIds l f -> fault_map dataIds l (add_fault f (ft_Provider f) m).
Proof.
  intros Hm Hf p fs. unfold add_fault. intros [[<- <-]|[_ Hl]]%lookup_insert_Some; [|by apply Hm].
  split; [by destruct (default [] _)|]. apply Forall_app. split; [|by repeat constructor].
  destruct (m !! ft_Provider f) as [fs'|] eqn:E; [by apply (Hm _ _ E)|by constructor].
Qed.

(** The node is a fisherman and has found the faults [m]. *)
Definition found dataIds (m : Faults) l : Prop := fisherman l /\ fault_map dataIds l m.
Lemma found_mono dataIds l l' m : found dataIds m l -> found dataIds m (l ++ l').
Proof. intros [Hf Hm]. split; [by apply fisherman_mono|by apply fault_map_mono]. Qed.

Lemma check_entry_spec s0 dataIds dataId meta shards m provider shard s :
  dataId ∈ dataIds -> shards !! provider = Some shard ->
  quietly s0 (fun l => EvMetaShards dataId (inl (meta, shards)) ∈ l /\ found dataIds m l) s ->
  wp (check_entry address meta m provider shard) s (fun o => quietly s0 (fun l =>
    match o with Ret m' => EvMetaShards dataId (inl (meta, shards)) ∈ l /\ found dataIds m' l | _ => True end)).
Proof.
  intros Hin Hshard Hq. unfold check_entry. apply wp_bind. eapply wp_mono; [apply check_shard_spec|]. cbn.
  assert (forall s' (Q : list fish_event -> Prop), quietly s Q s' -> quietly s0 (fun l => exists l1 l2, l = l1 ++ l2 /\
    (EvMetaShards dataId (inl (meta, shards)) ∈ l1 /\ found dataIds m l1) /\ Q l2) s') as Hadd.
  { intros s' Q HQ. eapply quietly_adds; [exact Hq|exact HQ|]. eauto 6. }
  assert (forall s' (Q : list fish_event -> Prop), quietly s Q s' -> quietly s0 (fun l =>
    EvMetaShards dataId (inl (meta, shards)) ∈ l /\ found dataIds m l) s') as Hkeep.
  { intros s' Q HQ. eapply quietly_weaken; [by apply Hadd|]. intros l (l1 & l2 & -> & [Hm Hf] & _).
    split; [set_solver|by apply found_mono]. }
  intros [[[|]|]|e| |] s2 Hc;
    [exact (Hkeep _ _ Hc)| |exact (Hkeep _ _ Hc)|exact (quietly_weaken _ _ _ _ (Hkeep _ _ Hc) (fun _ _ => I))..]. apply Hadd in Hc.
  apply wp_bind. destruct (last_commit meta) as [commit|] eqn:El; cbn; (eapply quietly_weaken; [exact Hc|]); [|done].
  intros l (l1 & l2 & -> & [Hm Hf] & resp & late & Ha & Hfail).
  apply (found_mono _ _ l2) in Hf as [Hfish Hfm]. split; [set_solver|]. split; [done|].
  apply (add_fault_map dataIds _ (MkFault _ _ _ _ provider _)); [done|].
  exists dataId, meta, shards, shard, resp, late. cbn. split_and!; [done|set_solver|done| |done..].
  rewrite <- (app_nil_r l2). by apply asked_shard_mono.
Qed.

Lemma check_data_spec s0 dataIds dataId m s :
  dataId ∈ dataIds -> quietly s0 (found dataIds m) s ->
  wp (check_data address m dataId) s (fun o => quietly s0 (fun l =>
    match o with Ret m' => found dataIds m' l | _ => True end)).
Proof.
  intros Hin Hm. unfold check_data. apply wp_or_else.
  apply (wp_asked _ (EvMetaShards dataId) s0 s (found dataIds m)); [apply meta_logged|done|done| |].
  2: { intros e s' Hq. apply wp_ret. eapply quietly_weaken; [exact Hq|]. intros l (l1 & -> & Hf). by apply found_mono. }
  intros [meta shards] s' Hq. cbn [fst snd].
  eapply wp_mono; [apply (wp_fold_m _ (fun m l => EvMetaShards dataId (inl (meta, shards)) ∈ l /\ found dataIds m l) s0)|].
  - intros b [provider shard] s1 Hel Hb. apply check_entry_spec; [done| |done].
    rewrite range_perm in Hel. by apply elem_of_map_to_list in Hel.
  - eapply quietly_weaken; [exact Hq|]. intros l (l1 & -> & Hf). split; [set_solver|by apply found_mono].
  - intros o s2 Hq2. eapply quietly_weaken; [exact Hq2|]. intros l Hl. by destruct o; [apply Hl|..].
Qed.

(** The chain has taken the report of these faults. *)
Definition accepted l (provider : string) (faults : list Fault) : Prop :=
  exists ids, EvReportFaults address provider faults (inl ids) ∈ l.

(** What was called before a report: the node has learned that it is a fisherman,
    the faults are justified, and nothing was reported of this provider. *)
Definition report_allowed dataIds l (e : fish_event) : Prop :=
  match e with
  | EvReportFaults creator provider faults _ =>
      creator = address /\ fisherman l /\ faults <> [] /\
      Forall (fun f => ft_Provider f = provider /\ justified dataIds l f) faults /\
      forall c fs r, EvReportFaults c provider fs r ∉ l
  | EvRecoverFaults _ _ _ _ => False
  | _ => True
  end.
Definition reports_allowed dataIds l : Prop :=
  forall pre e post, l = pre ++ e :: post -> report_allowed dataIds pre e.

Lemma reports_allowed_snoc dataIds l e :
  reports_allowed dataIds l -> report_allowed dataIds l e -> reports_allowed dataIds (l ++ [e]).
Proof.
  intros Hl He pre x post Heq. destruct post as [|y post _] using rev_ind.
  - apply app_inj_tail in Heq as [<- <-]. done.
  - rewrite app_comm_cons, app_assoc in Heq. apply app_inj_tail in Heq as [-> _]. by eapply Hl.
Qed.

Lemma silent_allowed dataIds l : Forall silent l -> reports_allowed dataIds l.
Proof.
  intros Hl pre e post ->. apply Forall_app in Hl as [_ [He _]%Forall_cons]. by destruct e.
Qed.
Lemma silent_reports c p fs r l : Forall silent l -> EvReportFaults c p fs r ∉ l.
Proof. intros Hl Hin. rewrite Forall_forall in Hl. by apply Hl in Hin. Qed.

(** The reports are under way: the map holds the faults [todo] that are to be
    reported, and those whose report was taken. *)
Definition reporting dataIds (m : Faults) (todo : list (string * list Fault)) l : Prop :=
  fisherman l /\ reports_allowed dataIds l /\
  (forall p fs, (p, fs) ∈ todo -> fs <> [] /\ Forall (fun f => ft_Provider f = p /\ justified dataIds l f) fs /\
     forall c fs' r, EvReportFaults c p fs' r ∉ l) /\
  forall p fs, m !! p = Some fs <-> (p, fs) ∈ todo \/ accepted l p fs.

Lemma accepted_snoc l p p0 fs fs0 r :
  accepted (l ++ [EvReportFaults address p0 fs0 r]) p fs <->
  accepted l p fs \/ (p = p0 /\ fs = fs0 /\ exists ids, r = inl ids).
Proof.
  unfold accepted. setoid_rewrite elem_of_app. setoid_rewrite list_elem_of_singleton. split.
  - intros (ids & [Hin|[= -> -> <-]]); [left|right]; eauto.
  - intros [[ids Hin]|(-> & -> & ids & ->)]; exists ids; auto.
Qed.

(** A provider's report was made, and its faults stay if it was taken. *)
Lemma reporting_step dataIds m p0 fs0 todo l r :
  NoDup (p0 :: todo.*1) -> reporting dataIds m ((p0, fs0) :: todo) l ->
  reporting dataIds (match r with inl _ => m | inr _ => delete p0 m end) todo
    (l ++ [EvReportFaults address p0 fs0 r]).
Proof.
  intros [Hp0 _]%NoDup_cons (Hf & Hall & Htodo & Hm).
  destruct (Htodo p0 fs0 ltac:(by left)) as (Hne & Hj & Hnone).
  assert (forall p fs, (p, fs) ∈ todo -> p <> p0) as Hother.
  { intros p fs Hin ->. apply Hp0. apply (list_elem_of_fmap_2 fst) in Hin. done. }
  split_and!; [by apply fisherman_mono|by apply reports_allowed_snoc| |].
  - intros p fs Hin. destruct (Htodo p fs ltac:(by right)) as (Hne' & Hj' & Hnone'). split_and!; [done| |].
    + eapply Forall_impl; [exact Hj'|]. intros f [? ?]. split; [done|by apply justified_mono].
    + intros c fs' r' [Hin'|Hin'%list_elem_of_singleton]%elem_of_app; [by eapply Hnone'|].
      injection Hin' as _ -> _ _. by apply (Hother p0 fs).
  - intros p fs. rewrite accepted_snoc. destruct r as [ids|e]; cbv iota.
    + rewrite Hm, elem_of_cons. split.
      * intros [[[= -> ->]|?]|?]; eauto 7.
      * intros [?|[?|(-> & -> & _)]]; auto.
    + split.
      * intros [Hne0 [[[= -> ->]|Hin]%elem_of_cons|Hacc]%Hm]%lookup_delete_Some; by auto.
      * intros Hor. apply lookup_delete_Some. destruct Hor as [Hin|[[ids Hin]|(_ & _ & ids & [=])]].
        { split; [intros <-; by eapply Hother|]. apply Hm. left. by right. }
        split; [intros <-; by eapply Hnone|]. apply Hm. right. by exists ids.
Qed.

Lemma report_faults_spec dataIds s0 todo m s :
  NoDup todo.*1 -> adds s0 (reporting dataIds m todo) s ->
  wp (fold_m (report_faults address) m todo) s (fun o s' => match o with
    | Ret m' => adds s0 (reporting dataIds m' []) s'
    | _ => False
    end).
Proof.
  revert m s. induction todo as [|[p0 fs0] todo IH]; intros m s Hnd Hm; [by apply wp_ret|].
  cbn [fold_m]. apply wp_bind. unfold report_faults at 1. cbn [fst snd].
  destruct (Nat.ltb_spec 0 (length fs0)) as [_|Hlen].
  2: { destruct Hm as (l & _ & _ & _ & Htodo & _). destruct (Htodo p0 fs0 ltac:(by left)) as [Hne _].
       by destruct fs0; cbn in *; [|lia]. }
  assert (forall r s', adds s (fun l => l = [EvReportFaults address p0 fs0 r]) s' ->
    adds s0 (reporting dataIds (match r with inl _ => m | inr _ => delete p0 m end) todo) s') as Hstep.
  { intros r s' (l' & He' & ->). destruct Hm as (l & He & Hl). eexists.
    split; [by rewrite He', He, <- app_assoc|by apply reporting_step]. }
  pose proof (NoDup_cons_1_2 _ _ Hnd) as Hnd'.
  apply wp_or_else, (wp_logged _ (EvReportFaults address p0 fs0)); [apply report_logged| |];
    intros x s' Ha%Hstep; by apply wp_ret, IH.
Qed.

(** C28: whenever a node reports faults to the chain, whatever comes of the run, it
    has been told before by the chain that it is among the fishermen, it reports in
    its own name, once for each provider, and the faults are some: for each of them
    the chain has shown a shard of the provider for one of the given data ids, and
    the provider, when asked for that shard, was late, refused, or gave something
    else.  A run that returns gives exactly the faults whose report the chain has
    taken, and they are some; in any other run the chain has taken no report. *)
Theorem faults_justified (dataIds : list string) s :
  exists l, events (FaultsCheck (C := C) (X := X) (T := T) address dataIds s).2 = events s ++ l /\
    reports_allowed dataIds l /\
    match (FaultsCheck address dataIds s).1 with
    | Ret m => m <> ∅ /\ forall provider faults, m !! provider = Some faults <-> accepted l provider faults
    | _ => forall provider faults, ~ accepted l provider faults
    end.
Proof.
  change (wp (FaultsCheck (C := C) (X := X) (T := T) address dataIds) s (fun o s' =>
    adds s (fun l => reports_allowed dataIds l /\ match o with
      | Ret m => m <> ∅ /\ forall provider faults, m !! provider = Some faults <-> accepted l provider faults
      | _ => forall provider faults, ~ accepted l provider faults
      end) s')).
  assert (forall (P : list fish_event -> Prop) s', quietly s P s' ->
    adds s (fun l => reports_allowed dataIds l /\ forall provider faults, ~ accepted l provider faults) s') as Hend.
  { intros P s' (l & He & Hs & _). exists l. split; [done|]. split; [by apply silent_allowed|].
    intros p fs [ids Hin]. by eapply silent_reports. }
  unfold FaultsCheck. apply wp_bind. eapply wp_mono; [apply check_fisherman_spec|]. cbn.
  intros [u|e| |] s1 Hf; [|by eapply Hend..]. apply wp_bind.
  eapply wp_mono; [apply (wp_fold_m _ (found dataIds) s)|].
  { intros b a s2 Ha Hb. by apply check_data_spec. }
  { eapply quietly_weaken; [exact Hf|]. intros l Hl. split; [done|]. intros p fs [=]. }
  cbn. intros [m|e| |] s2 Hm; [|by eapply Hend..]. apply wp_bind.
  eapply wp_mono; [apply (report_faults_spec dataIds s (range m) m)|].
  - rewrite range_perm. apply NoDup_fst_map_to_list.
  - destruct Hm as (l & He & Hs & Hfish & Hm). exists l. split; [done|].
    assert (forall p fs, (p, fs) ∈ range m <-> m !! p = Some fs) as Hr
      by (intros; by rewrite range_perm, elem_of_map_to_list).
    split_and!; [done|by apply silent_allowed| |].
    + intros p fs Hin%Hr. destruct (Hm p fs Hin) as [Hne Hj]. split_and!; [done..|]. intros. by apply silent_reports.
    + intros p fs. rewrite Hr. split; [by left|]. intros [?|[ids Hin]]; [done|]. by apply silent_reports in Hin.
  - cbn. intros [m'|e| |] s3 Hm'; [|done..]. destruct Hm' as (l & He & _ & Hall & _ & Hm').
    assert (forall p fs, m' !! p = Some fs <-> accepted l p fs) as Hacc
      by (intros; rewrite Hm'; split; [intros [?%elem_of_nil|?]; done|by right]).
    destruct (size m') eqn:Hsize; cbn; exists l; (split; [exact He|]); (split; [done|]).
    + intros p fs Hin%Hacc. apply map_size_empty_inv in Hsize. by rewrite Hsize in Hin.
    + split; [intros ->; discriminate Hsize|done].
Qed.

(** A fault that can be taken back after the calls [l]: [provider] now gives the
    content of its shard. *)
Definition recovered (provider : string) (faultIds : list string) l (f : Fault) : Prop :=
  exists faultId fault meta shards shard sm resp late commit,
    faultId ∈ faultIds /\ EvGetFault faultId (inl fault) ∈ l /\
    EvMetaShards (ft_DataId fault) (inl (meta, shards)) ∈ l /\ EvGetShard (ft_ShardId fault) (inl shard) ∈ l /\
    shards !! ft_Provider fault = Some sm /\ smt_ShardId sm = ft_ShardId fault /\
    asked_shard l provider (sh_Cid shard) (smt_Peer sm) meta resp late /\ passes meta resp late /\
    last_commit meta = Some commit /\
    f = MkFault (md_DataId meta) (md_OrderId meta) (ft_ShardId fault) (hd "" (Split commit commit_sep))
          (ft_Provider fault) address.

Lemma recovered_mono provider faultIds l l' f :
  recovered provider faultIds l f -> recovered provider faultIds (l ++ l') f.
Proof.
  intros (faultId & fault & meta & shards & shard & sm & resp & late & commit & ? & ? & ? & ? & ? & ? & Ha & ? & ? & ?).
  exists faultId, fault, meta, shards, shard, sm, resp, late, commit.
  split_and!; try done; [by (apply elem_of_app; left)..|by apply (asked_shard_mono [])].
Qed.

Lemma fault_peer_spec fault (shards : gmap string ShardMeta) :
  fault_peer fault (range shards) <> "" -> exists sm, shards !! ft_Provider fault = Some sm /\
    smt_ShardId sm = ft_ShardId fault /\ smt_Peer sm = fault_peer fault (range shards).
Proof.
  unfold fault_peer. destruct (List.find _ _) as [[p sm]|] eqn:E; [|done]. intros _.
  apply List.find_some in E as [Hin [Hid Hp]%andb_prop]. cbn in *. apply Z.eqb_eq in Hid.
  apply String.eqb_eq in Hp. subst p. apply list_elem_of_In in Hin. rewrite range_perm in Hin.
  apply elem_of_map_to_list in Hin. eauto.
Qed.

(** The node is a fisherman and has seen these faults recover. *)
Definition seen_again provider faultIds (faults : list Fault) l : Prop :=
  fisherman l /\ Forall (recovered provider faultIds l) faults.
Lemma seen_again_mono provider faultIds l l' faults :
  seen_again provider faultIds faults l -> seen_again provider faultIds faults (l ++ l').
Proof.
  intros [Hf Hall]. split; [by apply fisherman_mono|]. eapply Forall_impl; [exact Hall|].
  intros f. apply recovered_mono.
Qed.

Lemma recover_fault_spec s0 provider faultIds faultId faults s :
  faultId ∈ faultIds -> quietly s0 (seen_again provider faultIds faults) s ->
  wp (recover_fault (C := C) (X := X) (T := T) address provider faults faultId) s (fun o => quietly s0 (fun l =>
    match o with Ret fs => seen_again provider faultIds fs l | _ => True end)).
Proof.
  intros Hin Hq. unfold recover_fault.
  assert (forall s' (P : list fish_event -> Prop), quietly s0 P s' ->
    (forall l, P l -> seen_again provider faultIds faults l) ->
    wp (ret (S := node) faults) s' (fun o => quietly s0 (fun l =>
      match o with Ret fs => seen_again provider faultIds fs l | _ => True end))) as Hstop.
  { intros s' P HP Himp. apply wp_ret. by eapply quietly_weaken. }
  apply wp_or_else, (wp_asked _ (EvGetFault faultId) s0 s _ _ (fault_logged faultId) (fun _ => I) Hq).
  2: { intros e s' Hq'. apply (Hstop _ _ Hq'). intros l (l1 & -> & Hs). by apply seen_again_mono. }
  intros fault s1 Hq1. apply wp_or_else,
    (wp_asked _ (EvMetaShards (ft_DataId fault)) s0 s1 _ _ (meta_logged _) (fun _ => I) Hq1).
  2: { intros e s' Hq'. apply (Hstop _ _ Hq'). intros l (l1 & -> & l2 & -> & Hs). by do 2 apply seen_again_mono. }
  intros [meta shards] s2 Hq2. apply wp_or_else,
    (wp_asked _ (EvGetShard (ft_ShardId fault)) s0 s2 _ _ (shard_logged _) (fun _ => I) Hq2).
  2: { intros e s' Hq'. apply (Hstop _ _ Hq'). intros l (l1 & -> & l2 & -> & l3 & -> & Hs).
       by do 3 apply seen_again_mono. }
  intros shard s3 Hq3. cbn [fst snd].
  assert (forall l, (exists l1, l = l1 ++ [EvGetShard (ft_ShardId fault) (inl shard)] /\
      exists l2, l1 = l2 ++ [EvMetaShards (ft_DataId fault) (inl (meta, shards))] /\
      exists l3, l2 = l3 ++ [EvGetFault faultId (inl fault)] /\ seen_again provider faultIds faults l3) ->
    seen_again provider faultIds faults l /\ EvGetFault faultId (inl fault) ∈ l /\
    EvMetaShards (ft_DataId fault) (inl (meta, shards)) ∈ l /\ EvGetShard (ft_ShardId fault) (inl shard) ∈ l) as Hl.
  { intros l (l1 & -> & l2 & -> & l3 & -> & Hs). split; [by do 3 apply seen_again_mono|set_solver]. }
  apply (fun H => quietly_weaken _ _ _ _ H Hl) in Hq3. clear Hl.
  destruct (String.eqb_spec (fault_peer fault (range shards)) "") as [_|Hpeer].
  { apply (Hstop _ _ Hq3). by intros l [Hs _]. }
  destruct (fault_peer_spec _ _ Hpeer) as (sm & Hsm & Hid & Hp).
  assert (forall s' (P : list fish_event -> Prop), quietly s3 P s' ->
    quietly s0 (seen_again provider faultIds faults) s') as Hmore.
  { intros s' P HP. eapply quietly_adds; [exact Hq3|exact HP|]. intros l l' [Hs _] _. by apply seen_again_mono. }
  apply wp_bind. eapply wp_mono; [apply check_shard_spec|]. cbn.
  intros [[[|]|]|e| |] s4 Hc;
    [|exact (Hstop _ _ (Hmore _ _ Hc) (fun _ => id))|exact (Hstop _ _ (Hmore _ _ Hc) (fun _ => id))
     |by (eapply quietly_weaken; [exact (Hmore _ _ Hc)|])..].
  apply wp_bind. destruct (last_commit meta) as [commit|] eqn:El; cbn;
    (eapply quietly_adds; [exact Hq3|exact Hc|]); [|done].
  intros l l' (Hs & Hf & Hm & Hsh) (resp & late & Ha & Hpass). apply (seen_again_mono _ _ _ l') in Hs as [Hfish Hall].
  split; [done|]. apply Forall_app. split; [done|]. apply Forall_singleton.
  exists faultId, fault, meta, shards, shard, sm, resp, late, commit. rewrite Hp.
  split_and!; try done; [by (apply elem_of_app; left)..|].
  rewrite <- (app_nil_r l'). by apply asked_shard_mono.
Qed.

(** C40: a node takes faults back in at most one report, the last of its calls,
    whatever comes of the run: before it the chain has told it that it is among the
    fishermen, and for each fault it has looked up the fault, the metadata with the
    shard of its provider and the shard, and has seen the given provider give, in
    time, the content of that shard (asked at the peer of the provider of the
    fault).  A run that returns gives exactly the faults of the report that the chain
    has taken; when the chain refuses it, its error is returned; a run without a
    report returns nothing. *)
Theorem recoveries_justified (provider : string) (faultIds : list string) s :
  let r := RecoverCheck (C := C) (X := X) (T := T) address provider faultIds s in
  exists l, Forall silent l /\
    ((events r.2 = events s ++ l /\ forall faults, r.1 <> Ret faults) \/
     exists faults answer,
       events r.2 = events s ++ l ++ [EvRecoverFaults address provider faults answer] /\
       fisherman l /\ faults <> [] /\ Forall (recovered provider faultIds l) faults /\
       r.1 = match answer with inl _ => Ret faults | inr e => Fail e end).
Proof.
  cbv zeta. change (wp (RecoverCheck (C := C) (X := X) (T := T) address provider faultIds) s (fun o s' =>
    exists l, Forall silent l /\
    ((events s' = events s ++ l /\ forall faults, o <> Ret faults) \/
     exists faults answer, events s' = events s ++ l ++ [EvRecoverFaults address provider faults answer] /\
       fisherman l /\ faults <> [] /\ Forall (recovered provider faultIds l) faults /\
       o = match answer with inl _ => Ret faults | inr e => Fail e end))).
  unfold RecoverCheck. apply wp_bind. eapply wp_mono; [apply check_fisherman_spec|]. cbn.
  intros [u|e| |] s1 Hf; [|destruct Hf as (l & He & Hs & _); exists l; (split; [done|]); left; by split..].
  apply wp_bind. eapply wp_mono; [apply (wp_fold_m _ (seen_again provider faultIds) s)|].
  { intros b a s2 Ha Hb. by apply recover_fault_spec. }
  { eapply quietly_weaken; [exact Hf|]. intros l Hl. by split. }
  cbn. intros [faults|e| |] s2 (l & He & Hs & Hl);
    [|exists l; (split; [done|]); left; by split..].
  destruct faults as [|fault faults]; [exists l; (split; [done|]); left; by split|]. cbn [length Nat.ltb Nat.leb].
  destruct Hl as [Hfish Hall]. apply wp_bind, (wp_logged _ (EvRecoverFaults address provider (fault :: faults)));
    [apply recover_logged| |]; intros x s3 (l' & He' & ->); [apply wp_ret|]; exists l; (split; [done|]); right;
    [exists (fault :: faults), (inl x)|exists (fault :: faults), (inr x)];
    (split_and!; [by rewrite He', He, <- app_assoc|done..]).
Qed.

End Fishermen.
