(* ===== verification/Upload.v ===== *)
(** * Uploads ([node/transport/rpc_handler.go], [client/transport.go])

    A client sends a file to a node in chunks, each in a request of its own, and an
    empty chunk at the end ([DoTransport]).  The node keeps the chunks as files of
    its staging directory and a record of their names in the datastore of the
    transport; the empty chunk makes it put the file together ([Upload]).
    [HandleStream] answers the requests on a stream, also those that create, load
    and update models.

    The client runs on a pair: its own machine, and the state behind the
    connection.  [exchange] stands for the four calls on a stream of their own
    (open, write, close for writing, read all), whose errors are handled alike. *)
From stdpp Require Import base list gmap strings.
From Stdlib Require Import ZArith Lia Ascii.
From S2P Require Import Prelude Types StateUtils ChainApi Stage Chain Gateway.
From S2P Require Import Validator ModelManager NodeApi.

(** [types.CHUNK_SIZE] *)
Definition CHUNK_SIZE : Z := 32 * 1024 * 1024.

Record FileChunkReq := MkFileChunkReq {
  fcr_ChunkId : Z;
  fcr_TotalLength : Z;
  fcr_TotalChunks : Z;
  fcr_ChunkCid : string;
  fcr_Cid : string;
  fcr_Content : bytes
}.

Record RpcReq := MkRpcReq { rpr_Method : string; rpr_Params : list string }.
Record RpcResp := MkRpcResp { rps_Data : string; rps_Error : string }.

(** [strconv.ParseInt(s, 10, 64)]: a sign, or none, and digits; [None] for a text
    of another form and for a number out of range. *)
Definition ParseInt (s : string) : option Z :=
  match s with
  | String "-" rest => match ParseUint rest with
                       | Some n => if n <=? two63 then Some (- n) else None
                       | None => None
                       end
  | String "+" rest => match ParseUint rest with
                       | Some n => if n <? two63 then Some n else None
                       | None => None
                       end
  | _ => match ParseUint s with
         | Some n => if n <? two63 then Some n else None
         | None => None
         end
  end.

(** *** The libraries *)
Class StatFiles (W : Type) := {
  os_Stat : string -> call W Z;                  (* [Size()] of what it returns *)
  os_IsNotExist : error -> bool;
  os_WriteFile : string -> bytes -> call W unit
}.

(** [encoding/json] at the types of the requests. *)
Class RpcJson := {
  FileInfo_Marshal : ReceivedFileInfo -> bytes + error;
  FileChunkReq_Marshal : FileChunkReq -> bytes + error;
  FileChunkReq_Unmarshal : bytes -> FileChunkReq + error;
  RpcReq_Marshal : RpcReq -> bytes + error;
  RpcReq_Unmarshal : bytes -> RpcReq + error;
  RpcResp_Marshal : RpcResp -> bytes + error;
  RpcResp_Unmarshal : bytes -> RpcResp + error;
  MetadataProposal_Unmarshal : bytes -> MetadataProposal + error;
  OrderStoreProposal_Unmarshal : bytes -> OrderStoreProposal + error;
  CreateResp_Marshal : CreateResp -> bytes + error;
  LoadResp_Marshal : LoadResp -> bytes + error;
  UpdateResp_Marshal : UpdateResp -> bytes + error
}.

(** ** The node: chunks and their record *)
Section Receiver.
Context `{!CidLib, !RpcJson, !FileInfoLib} {W T : Type} `{!FileSys W, !StatFiles W, !OpenFiles W, !Datastore T}.
(** [StagingPath] and [StagingSapceSize] of the handler. *)
Context (StagingPath : string) (StagingSapceSize : Z).

Record rs := Rs { rs_w : W; rs_db : T }.
Definition on_machine {A} (m : GoM W A) : GoM rs A := zoom rs_w (fun w s => Rs w (rs_db s)) m.
Definition on_db {A} (m : GoM T A) : GoM rs A := zoom rs_db (fun t s => Rs (rs_w s) t) m.

(** [make([]string, n)]; memory is not bounded here. *)
Definition make_strings (n : Z) : GoM rs (list string) :=
  if n <? 0 then panic else ret (replicate (Z.to_nat n) "").

(** [l[i]] and [l[i] = x] *)
Definition at_index (l : list string) (i : Z) : option string :=
  if i <? 0 then None else l !! Z.to_nat i.
Definition set_index (l : list string) (i : Z) (x : string) : GoM rs (list string) :=
  _old <- deref (at_index l i) ;; ret (<[Z.to_nat i := x]> l).

Definition file_key (cid : string) : string := NewKey (FILE_INFO_PREFIX +:+ cid).

(** The record of the first chunk. *)
Definition first_info (req : FileChunkReq) (path : string) : GoM rs ReceivedFileInfo :=
  cids <- make_strings (fcr_TotalChunks req) ;;
  cids <- set_index cids 0 (fcr_ChunkCid req) ;;
  ret (MkReceivedFileInfo (fcr_Cid req) (fcr_TotalLength req) (fcr_TotalChunks req)
         (Z.of_nat (length (fcr_Content req))) path cids).

(** The record with a later chunk; [None] when the chunk is not recorded. *)
Definition next_info (req : FileChunkReq) : GoM rs (option ReceivedFileInfo) :=
  try info <- on_db (ds_Get (file_key (fcr_Cid req))) catch err => ret None ;;
  match FileInfo_Unmarshal info with
  | inr err => ret None
  | inl fileInfo =>
      fi <- deref fileInfo ;;
      chunk <- deref (at_index (rfi_ChunkCids fi) (fcr_ChunkId req)) ;;
      if String.eqb chunk "" then
        cids <- set_index (rfi_ChunkCids fi) (fcr_ChunkId req) (fcr_ChunkCid req) ;;
        ret (Some (MkReceivedFileInfo (rfi_Cid fi) (rfi_TotalLength fi) (rfi_TotalChunks fi)
                     (wrap_i64 (rfi_ReceivedLength fi + Z.of_nat (length (fcr_Content req))))
                     (rfi_Path fi) cids))
      else ret None
  end.

(** Errors are logged only. *)
Definition handleChunkInfo (req : FileChunkReq) (path : string) : GoM rs unit :=
  fileInfo <- (if fcr_ChunkId req =? 0 then fi <- first_info req path ;; ret (Some fi)
               else next_info req) ;;
  match fileInfo with
  | None => ret tt
  | Some fi =>
      match FileInfo_Marshal fi with
      | inr err => ret tt
      | inl info => ignore (on_db (ds_Put (file_key (fcr_Cid req)) info))
      end
  end.

(** [types.Wrapf(types.ErrInvalidParameters, "not enough staging space ...")];
    [size] is [info.Size()]. *)
Definition no_space (len size : Z) : error :=
  Wrapf ErrInvalidParameters ("not enough staging space under " +:+ StagingPath +:+ ", need "
    +:+ format_d len +:+ " but only " +:+ format_d (wrap_i64 (StagingSapceSize - size)) +:+ " left").

(** When the staging directory is not there, [info] is nil, and so the message for
    a chunk that is too large dereferences nil. *)
Definition check_space (len : Z) : GoM rs unit :=
  stagingPath <- lift (homedir_Expand StagingPath) ;;
  info <- attempt (on_machine (invoke (os_Stat stagingPath))) ;;
  match info with
  | inr err =>
      if os_IsNotExist err then
        on_machine (invoke (os_MkdirAll stagingPath)) ;;
        if StagingSapceSize <? len then panic else ret tt
      else fail err
  | inl size =>
      if StagingSapceSize <? wrap_i64 (size + len) then fail (no_space len size) else ret tt
  end.

(** The directory of a file. *)
Definition make_dir (path : string) : GoM rs unit :=
  info <- attempt (on_machine (invoke (os_Stat path))) ;;
  match info with
  | inl _ => ret tt
  | inr err =>
      if os_IsExist err then fail err else
      made <- attempt (on_machine (invoke (os_MkdirAll path))) ;;
      match made with
      | inr err => if os_IsExist err then ret tt else fail err
      | inl _ => ret tt
      end
  end.

(** [file, err := os.Create(path); file.Write(content)]; the file stays open. *)
Definition write_new (path : string) (content : bytes) : GoM rs unit :=
  file <- on_machine (invoke (os_Create path)) ;;
  on_machine (invoke (file_Write file content)).

Definition store_chunk (req : FileChunkReq) (dir : string) : GoM rs unit :=
  check_space (Z.of_nat (length (fcr_Content req))) ;;
  let path := path_Join [dir; fcr_Cid req] in
  handleChunkInfo req path ;;
  path <- lift (homedir_Expand path) ;;
  make_dir path ;;
  write_new (path_Join [path; fcr_ChunkCid req]) (fcr_Content req).

Fixpoint read_chunks (basePath : string) (chunkCids : list string) (fileContent : bytes) : GoM rs bytes :=
  match chunkCids with
  | [] => ret fileContent
  | chunkCid :: rest =>
      file <- on_machine (invoke (os_Open (path_Join [basePath; chunkCid]))) ;;
      content <- on_machine (invoke (io_ReadAll file)) ;;
      read_chunks basePath rest (fileContent ++ content)
  end.

(** The identifier of the content is calculated and logged, not compared. *)
Definition assemble (req : FileChunkReq) : GoM rs unit :=
  info <- on_db (ds_Get (file_key (fcr_Cid req))) ;;
  fileInfo <- lift (FileInfo_Unmarshal info) ;;
  fi <- deref fileInfo ;;
  basePath <- lift (homedir_Expand (rfi_Path fi)) ;;
  fileContent <- read_chunks basePath (rfi_ChunkCids fi) [] ;;
  _contentCid <- lift (CalculateCid fileContent) ;;
  write_new (path_Join [basePath; fcr_Cid req]) fileContent.

Definition Upload (params : list string) : GoM rs string :=
  match params with
  | [param; dir] =>
      req <- lift (FileChunkReq_Unmarshal (string_bytes param)) ;;
      localCid <- lift (CalculateCid (fcr_Content req)) ;;
      (if 0 <? Z.of_nat (length (fcr_Content req)) then store_chunk req dir else assemble req) ;;
      ret (cid_String localCid)
  | _ => fail (Wrapf ErrInvalidParameters "invalid params length")
  end.
End Receiver.

(** ** The requests on a stream *)
Section RpcHandler.
Context `{!CidLib, !ErrorText, !JsonLib, !RuleLib, !GoRange, !PatchLib, !ContextLib}
        {G W C X T : Type} `{!SchemaLib X, !GatewayChain W, !ProposalFields W,
        !GatewaySvcApi G W, !CacheSvcApi C}.
Context `{!HasWorld G W, !SignedProposals W, !ProposalLib, !DidLib W, !ChainSvcApi W,
          !Datastore T, !FileInfoLib, !FileSys W, !StatFiles W, !OpenFiles W, !RpcJson}.
(** The configuration of the node and of its transport. *)
Context (EnableCache : bool) (CacheCapacity ContentLimit : Z) (StagingPath : string) (StagingSapceSize : Z).

Abbreviation node := (nd (G := G) (W := W) (C := C) (X := X) (T := T)).

(** The handler works on the machine and on the datastore of the transport. *)
Definition get_rs (s : node) : rs := Rs (world_of (mm_gw (nd_mm s))) (nd_tds s).
Definition set_rs (r : rs) (s : node) : node :=
  Nd (on_gw (modify (set_world (rs_w r))) (nd_mm s)).2 (rs_db r).
Definition on_rs {A} (m : GoM (rs (W := W) (T := T)) A) : GoM node A := zoom get_rs set_rs m.

(** Where an error is logged, and the call returns no text and no error. *)
Definition silent {A} (r : GoM node A) (k : A -> GoM node string) : GoM node string :=
  or_else r (fun _ => ret "") k.

Definition parse_order_id (param : string) : GoM node Z :=
  match ParseInt param with
  | Some orderId => ret (wrap_u64 orderId)
  | None => fail (Wrap ErrInvalidParameters (Some (EText "strconv.ParseInt")))
  end.

(** The third parameter is the order and, again, the content. *)
Definition rpc_Create (params : list string) : GoM node string :=
  match params with
  | [p0; p1; p2] =>
      silent (lift (MetadataProposal_Unmarshal (string_bytes p0))) (fun req =>
      silent (lift (OrderStoreProposal_Unmarshal (string_bytes p1))) (fun orderProposal =>
      orderId <- parse_order_id p2 ;;
      silent (ModelCreate EnableCache CacheCapacity ContentLimit req orderProposal orderId (string_bytes p2))
        (fun resp =>
      silent (lift (CreateResp_Marshal resp)) (fun b => ret (bytes_string b)))))
  | _ => fail (Wrapf ErrInvalidParameters "invalid params length")
  end.

Definition rpc_Load (params : list string) : GoM node string :=
  match params with
  | [p0] =>
      silent (lift (MetadataProposal_Unmarshal (string_bytes p0))) (fun req =>
      silent (ModelLoad EnableCache CacheCapacity ContentLimit req) (fun resp =>
      silent (lift (LoadResp_Marshal resp)) (fun b => ret (bytes_string b))))
  | _ => fail (Wrapf ErrInvalidParameters "invalid params length")
  end.

Definition rpc_Update (params : list string) : GoM node string :=
  match params with
  | [p0; p1; p2] =>
      silent (lift (MetadataProposal_Unmarshal (string_bytes p0))) (fun req =>
      silent (lift (OrderStoreProposal_Unmarshal (string_bytes p1))) (fun orderProposal =>
      orderId <- parse_order_id p2 ;;
      silent (ModelUpdate EnableCache CacheCapacity ContentLimit req orderProposal orderId (string_bytes p2))
        (fun resp =>
      silent (lift (UpdateResp_Marshal resp)) (fun b => ret (bytes_string b)))))
  | _ => fail (Wrapf ErrInvalidParameters "invalid params length")
  end.

(** The directory of the files that a peer uploads. *)
Definition peer_dir (peer : string) : string := path_Join [StagingPath; peer].

(** The result of a request; [None] for an unknown method. *)
Definition dispatch (peer : string) (req : RpcReq) : GoM node (option string) :=
  let some (m : GoM node string) : GoM node (option string) := r <- m ;; ret (Some r) in
  if String.eqb (rpr_Method req) "Sao.Upload" then
    some (on_rs (Upload StagingPath StagingSapceSize (rpr_Params req ++ [peer_dir peer])))
  else if String.eqb (rpr_Method req) "Sao.ModelCreate" then some (rpc_Create (rpr_Params req))
  else if String.eqb (rpr_Method req) "Sao.ModelLoad" then some (rpc_Load (rpr_Params req))
  else if String.eqb (rpr_Method req) "Sao.ModelUpdate" then some (rpc_Update (rpr_Params req))
  else ret None.

Definition respond (peer : string) (b : bytes) : GoM node RpcResp :=
  match RpcReq_Unmarshal b with
  | inr err => ret (MkRpcResp "" (Error err))
  | inl req =>
      result <- attempt (dispatch peer req) ;;
      ret match result with
          | inr err => MkRpcResp "" (Error err)
          | inl None => MkRpcResp "" "N/a"
          | inl (Some data) => MkRpcResp data ""
          end
  end.

(** [b] is what was read from the stream; the result is what is written to it, if
    anything. *)
Definition HandleStream (peer : string) (b : bytes) : GoM node (option bytes) :=
  resp <- respond peer b ;;
  ret match RpcResp_Marshal resp with inl out => Some out | inr _ => None end.

(** The same requests over TCP, on a stream of the protocol of the gateway. *)
Definition HandleRPCRequest (peer : string) (b : bytes) : GoM node (option bytes) := HandleStream peer b.
End RpcHandler.

(** ** The client *)
(** [content[lo:hi]] for bounds in range *)
Fixpoint slice_to (hi : Z) (l : bytes) : bytes :=
  match l with
  | [] => []
  | x :: l' => if hi <=? 0 then [] else x :: slice_to (hi - 1) l'
  end.
Fixpoint slice_from (lo : Z) (l : bytes) : bytes :=
  match l with
  | [] => []
  | x :: l' => if lo <=? 0 then l else slice_from (lo - 1) l'
  end.
Definition slice (lo hi : Z) (l : bytes) : bytes := slice_to (hi - lo) (slice_from lo l).

Class TransportLib (K R : Type) := {
  Multiaddr : Type; PeerID : Type; PrivKey : Type; WebTransport : Type;
  NewMultiaddr : string -> Multiaddr + error;
  peer_Decode : string -> PeerID + error;
  GenerateEd25519Key : call K PrivKey;
  MarshalPrivateKey : PrivKey -> bytes + error;
  UnmarshalPrivateKey : bytes -> PrivKey + error;
  webtransport_New : PrivKey -> call K WebTransport;
  tr_Dial : WebTransport -> Multiaddr -> PeerID -> call K unit;
  AddrInfo : Type; Host : Type;
  AddrInfoFromP2pAddr : Multiaddr -> AddrInfo + error;
  libp2p_New : PrivKey -> call K Host;
  host_Connect : Host -> AddrInfo -> call K unit;
  exchange : bytes -> call R bytes
}.

Section Client.
Context `{!CidLib, !RpcJson} {K R : Type} `{!FileSys K, !StatFiles K, !OpenFiles K, !TransportLib K R}.

Definition local {A} (m : GoM K A) : GoM (K * R) A := zoom fst (fun k s => (k, s.2)) m.
Definition remote {A} (m : GoM R A) : GoM (K * R) A := zoom snd (fun r s => (s.1, r)) m.

(** The private key of the transport; every error is logged, and nil is returned. *)
Definition fetchKey (repo : string) : GoM K (option PrivKey) :=
  let nil_on_error (m : GoM K PrivKey) : GoM K (option PrivKey) :=
    try k <- m catch err => ret None ;; ret (Some k) in
  nil_on_error (
    kstorePath <- lift (homedir_Expand (path_Join [repo; "keystore"])) ;;
    let keyPath := path_Join [kstorePath; "libp2p.key"] in
    key <- attempt (invoke (os_ReadFile keyPath)) ;;
    match key with
    | inr err =>
        if os_IsNotExist err then
          made <- attempt (invoke (os_MkdirAll kstorePath)) ;;
          match made with
          | inr err => if os_IsExist err then ret tt else fail err
          | inl _ => ret tt
          end ;;
          pk <- invoke GenerateEd25519Key ;;
          keyBytes <- lift (MarshalPrivateKey pk) ;;
          invoke (os_WriteFile keyPath keyBytes) ;;
          ret pk
        else fail err
    | inl key => lift (UnmarshalPrivateKey key)
    end).

(** The chunk with a number, in [int] arithmetic. *)
Definition chunk_of (content : bytes) (chunkId : Z) : bytes :=
  let n := Z.of_nat (length content) in
  let lo := wrap_i64 (chunkId * CHUNK_SIZE) in
  let hi := wrap_i64 ((chunkId + 1) * CHUNK_SIZE) in
  if hi <? n then slice lo hi content
  else if lo <? n then slice_from lo content
  else [].

Definition total_chunks (content : bytes) : Z := Z.of_nat (length content) / CHUNK_SIZE + 1.

(** The request of a chunk, and the text that comes back. *)
Definition send_chunk (content : bytes) (contentCid chunkCid : Cid) (chunkId : Z) (chunk : bytes) :
    GoM R string :=
  b <- lift (FileChunkReq_Marshal (MkFileChunkReq chunkId (Z.of_nat (length content))
               (total_chunks content) (cid_String chunkCid) (cid_String contentCid) chunk)) ;;
  req <- lift (RpcReq_Marshal (MkRpcReq "Sao.Upload" [bytes_string b])) ;;
  buf <- invoke (exchange req) ;;
  resp <- lift (RpcResp_Unmarshal buf) ;;
  if negb (String.eqb (rps_Error resp) "") then fail (EText ("resp err: " +:+ rps_Error resp))
  else ret (rps_Data resp).

(** [for chunkId <= totalChunks]: [fuel] turns at most. *)
Fixpoint send_chunks (fuel : nat) (content : bytes) (contentCid : Cid) (chunkId : Z) : GoM R unit :=
  if total_chunks content <? chunkId then ret tt else
  match fuel with
  | O => out_of_fuel
  | S fuel =>
      let chunk := chunk_of content chunkId in
      chunkCid <- lift (CalculateCid chunk) ;;
      remoteCid <- send_chunk content contentCid chunkCid chunkId chunk ;;
      if String.eqb remoteCid (cid_String chunkCid) then
        send_chunks fuel content contentCid (chunkId + 1)
      else if String.eqb remoteCid (cid_String contentCid) && (Z.of_nat (length chunk) =? 0) then ret tt
      else fail (EText ("file cid mismatch, expected " +:+ remoteCid +:+ ", but got "
                  +:+ cid_String chunkCid))
  end.

(** The file is read and sent. *)
Definition send_file (file : bytes) : GoM (K * R) Cid :=
  content <- local (invoke (io_ReadAll file)) ;;
  contentCid <- lift (CalculateCid content) ;;
  remote (send_chunks (Z.to_nat (total_chunks content) + 1) content contentCid 0) ;;
  ret contentCid.

(** Every error is logged, and [cid.Undef] is returned. *)
Definition undef_on_error {A} (m : GoM A Cid) : GoM A Cid :=
  try c <- m catch err => ret Undef ;; ret c.

Definition DoTransport (repo remoteAddr remotePeerId fpath : string) : GoM (K * R) Cid :=
  undef_on_error (
    file <- local (invoke (os_Open fpath)) ;;
    serverAddress <- lift (NewMultiaddr remoteAddr) ;;
    serverId <- lift (peer_Decode remotePeerId) ;;
    clientKey <- local (fetchKey repo) ;;
    match clientKey with
    | None => fail (EText "failed to generate transport key")
    | Some clientKey =>
        tr <- local (invoke (webtransport_New clientKey)) ;;
        local (invoke (tr_Dial tr serverAddress serverId)) ;;
        send_file file
    end).

(** Errors before the file is opened are only printed; what they leave nil is
    dereferenced. *)
Definition DoTransportTCP (repo peerInfo fpath : string) : GoM (K * R) Cid :=
  clientKey <- local (fetchKey repo) ;;
  match clientKey with
  | None => ret Undef
  | Some clientKey =>
      host <- attempt (local (invoke (libp2p_New clientKey))) ;;
      pi <- deref match NewMultiaddr peerInfo with
                  | inl a => match AddrInfoFromP2pAddr a with inl pi => Some pi | inr _ => None end
                  | inr _ => None
                  end ;;
      host <- deref match host with inl h => Some h | inr _ => None end ;;
      ignore (local (invoke (host_Connect host pi))) ;;
      undef_on_error (
        file <- local (invoke (os_Open fpath)) ;;
        send_file file)
  end.
End Client.
