(* ===== verification/UploadTheorems.v ===== *)
(** * The node's part of an upload

    What the node does with the chunks of one content: the record in the datastore
    names only chunks of the content ([handleChunkInfo_spec]), the chunks are on
    disk ([store_chunk_spec]), and the file that is put together from them is the
    content ([assemble_spec]), whatever fails on the way. *)
From stdpp Require Import base list gmap strings.
From Stdlib Require Import ZArith Lia Ascii.
From S2P Require Import Prelude Types StateUtils ChainApi Stage Chain Gateway.
From S2P Require Import Validator ModelManager NodeApi Upload.

(** ** Paths of chunks *)
Lemma path_Join_2 p f :
  good_elem f -> path_Join [p; f] = render (rooted p) (rev (clean_elems p) ++ [f]).
Proof.
  intros Hf. pose proof Hf as (Hne & _ & _ & Hfs). cbn [path_Join].
  rewrite (proj2 (String.eqb_neq f "") Hne).
  destruct (String.eqb_spec p "") as [->|Hp]; unfold path_Clean, clean_elems; cbn [join_slash].
  - rewrite rooted_good, Split_free by done. cbn [foldl]. by rewrite clean_step_good.
  - rewrite rooted_app by done. rewrite Split_app_sep, (Split_free f) by done.
    rewrite foldl_app. cbn [foldl]. by rewrite clean_step_good.
Qed.

Lemma path_Join_dir p : path_Join [p; ""] = if String.eqb p "" then "" else render (rooted p) (rev (clean_elems p)).
Proof.
  cbn [path_Join]. destruct (String.eqb_spec p "") as [->|Hp]; [done|].
  unfold path_Clean, clean_elems. cbn [join_slash]. rewrite rooted_app by done.
  by rewrite Split_app_sep, foldl_app.
Qed.

Lemma join_slash_last l f : l <> [] -> join_slash (l ++ [f]) = join_slash l +:+ "/" +:+ f.
Proof.
  intros Hl. induction l as [|x [|y l] IH]; [done|done|]. cbn [app join_slash] in *.
  rewrite IH by done. by rewrite !str_app_assoc.
Qed.

Lemma render_last r l f : f <> "" -> render r (l ++ [f]) = (if r then "/" else "") +:+ join_slash (l ++ [f]).
Proof.
  intros Hf. unfold render. destruct (String.eqb_spec ((if r then "/" else "") +:+ join_slash (l ++ [f])) "") as [E|]; [|done].
  destruct r; [done|]. destruct l as [|x l]; [by rewrite E in *|]. rewrite join_slash_last in E by done.
  by destruct (join_slash (x :: l)).
Qed.

(** Files with different names are different. *)
Lemma path_Join_inj p f g : good_elem f -> good_elem g -> path_Join [p; f] = path_Join [p; g] -> f = g.
Proof.
  intros Hf Hg. rewrite !path_Join_2, !render_last by (done || apply Hf || apply Hg).
  intros E%(inj (String.app _)). destruct (rev (clean_elems p)) as [|x l]; [done|].
  rewrite !join_slash_last in E by done. apply (inj (String.app _)) in E. by injection E.
Qed.

(** A file is not the directory it is in. *)
Lemma path_Join_not_dir p f : good_elem f -> path_Join [p; f] <> path_Join [p; ""].
Proof.
  intros Hf. pose proof Hf as (Hne & Hd & _).
  rewrite path_Join_2, path_Join_dir, render_last by done.
  destruct (String.eqb_spec p "") as [->|_]; [by destruct f|]. unfold render.
  destruct (rev (clean_elems p)) as [|x l]; [destruct (rooted p); cbn; [intros E; by injection E|exact Hd]|].
  rewrite join_slash_last by done.
  intros E%(f_equal String.length). revert E. destruct (_ =? "")%string;
    rewrite !str_length_app; (destruct f; [done|]); cbn; lia.
Qed.

(** ** Chunks of a content *)
#[local] Opaque CHUNK_SIZE.
Lemma CHUNK_SIZE_range : 0 < CHUNK_SIZE < 2 ^ 26.
Proof. by split. Qed.

Lemma slice_to_take hi l : slice_to hi l = take (Z.to_nat hi) l.
Proof.
  revert hi. induction l as [|x l IH]; intros hi; cbn; [by rewrite take_nil|].
  destruct (Z.leb_spec hi 0); [by replace (Z.to_nat hi) with 0%nat by lia|].
  replace (Z.to_nat hi) with (S (Z.to_nat (hi - 1))) by lia. cbn. by rewrite IH.
Qed.
Lemma slice_from_drop lo l : slice_from lo l = drop (Z.to_nat lo) l.
Proof.
  revert lo. induction l as [|x l IH]; intros lo; cbn; [by rewrite drop_nil|].
  destruct (Z.leb_spec lo 0); [by replace (Z.to_nat lo) with 0%nat by lia|].
  replace (Z.to_nat lo) with (S (Z.to_nat (lo - 1))) by lia. cbn. by rewrite IH.
Qed.

(** A content that fits into memory. *)
Definition in_memory (content : bytes) : Prop := Z.of_nat (length content) < 2 ^ 62.

Abbreviation chunk_len := (Z.to_nat CHUNK_SIZE).

Lemma total_chunks_bounds content :
  0 < total_chunks content /\
  (total_chunks content - 1) * CHUNK_SIZE <= Z.of_nat (length content) < total_chunks content * CHUNK_SIZE.
Proof.
  unfold total_chunks. pose proof CHUNK_SIZE_range.
  pose proof (Z.mul_div_le (Z.of_nat (length content)) CHUNK_SIZE).
  pose proof (Z.mul_succ_div_gt (Z.of_nat (length content)) CHUNK_SIZE).
  pose proof (Z.div_pos (Z.of_nat (length content)) CHUNK_SIZE). lia.
Qed.

Lemma chunk_of_spec content (k : nat) :
  in_memory content -> Z.of_nat k <= total_chunks content ->
  chunk_of content (Z.of_nat k) = take chunk_len (drop (k * chunk_len) content).
Proof.
  unfold in_memory. intros Hm Hk. pose proof CHUNK_SIZE_range. pose proof (total_chunks_bounds content).
  unfold chunk_of. rewrite !wrap_i64_small by (unfold is_i64, two63; nia).
  assert (Z.to_nat (Z.of_nat k * CHUNK_SIZE) = k * chunk_len)%nat as Elo by nia.
  destruct (Z.ltb_spec ((Z.of_nat k + 1) * CHUNK_SIZE) (Z.of_nat (length content))).
  - unfold slice. rewrite slice_to_take, slice_from_drop, Elo. f_equal. nia.
  - destruct (Z.ltb_spec (Z.of_nat k * CHUNK_SIZE) (Z.of_nat (length content))).
    + rewrite slice_from_drop, Elo, take_ge; [done|]. rewrite length_drop. nia.
    + rewrite drop_ge, take_nil; [done|nia].
Qed.

(** ** What the uploads rely on *)

(** Files are looked at and read; a machine that is [healthy] has no other errors. *)
Class OpenLaws (W : Type) `{!FileSys W, !FileLaws W, !StatFiles W, !OpenFiles W} := {
  Stat_spec p w r w' : os_Stat p w = (r, w') ->
    files w' = files w /\ (healthy w -> healthy w') /\
    match r with inl _ => True | inr e => healthy w -> os_IsExist e = false end;
  Open_spec p w r w' : os_Open p w = (r, w') ->
    files w' = files w /\ (healthy w -> healthy w') /\
    match r with inl _ => True | inr e => healthy w -> files w !! p = None end;
  ReadAll_spec p w f w1 r w2 : os_Open p w = (inl f, w1) -> io_ReadAll f w1 = (r, w2) ->
    files w2 = files w1 /\ (healthy w1 -> healthy w2) /\
    match r with inl b => files w !! p = Some b | inr _ => healthy w -> files w !! p = None end
}.

(** Identifiers are never refused, and are printed as names of files. *)
Class CidTexts `{!CidLib} := {
  cid_Sum_total b : exists c, cid_Sum b = inl c;
  cid_Sum_text b c : cid_Sum b = inl c -> good_elem (cid_String c);
  cid_Sum_defined b c : cid_Sum b = inl c -> c <> Undef
}.

(** [encoding/json]: texts are valid UTF-8 or are changed (an empty text never, a
    text never to the empty one); the records here are never refused. *)
Class JsonLaws `{!CidLib, !RpcJson, !FileInfoLib} := {
  json_text : string -> Prop;
  json_text_empty : json_text "";
  json_text_cid b c : cid_Sum b = inl c -> json_text (cid_String c);
  FileInfo_ok fi : json_text (rfi_Cid fi) -> json_text (rfi_Path fi) -> Forall json_text (rfi_ChunkCids fi) ->
    exists b, FileInfo_Marshal fi = inl b /\ FileInfo_Unmarshal b = inl (Some fi);
  FileChunkReq_ok r : json_text (fcr_ChunkCid r) -> json_text (fcr_Cid r) ->
    exists b, FileChunkReq_Marshal r = inl b /\ FileChunkReq_Unmarshal b = inl r /\ json_text (bytes_string b);
  RpcReq_ok r : json_text (rpr_Method r) -> Forall json_text (rpr_Params r) ->
    exists b, RpcReq_Marshal r = inl b /\ RpcReq_Unmarshal b = inl r;
  RpcResp_ok r : exists b r', RpcResp_Marshal r = inl b /\ RpcResp_Unmarshal b = inl r' /\
    (rps_Error r' = "" <-> rps_Error r = "") /\ (json_text (rps_Data r) -> rps_Data r' = rps_Data r);
  RpcResp_nothing : exists e, RpcResp_Unmarshal [] = inr e;
  json_text_methods : json_text "Sao.Upload"
}.

Lemma CalculateCid_Sum `{!CidLib} b c : CalculateCid b = inl c -> cid_Sum b = inl c.
Proof. unfold CalculateCid. by destruct (cid_Sum b); intros [= <-]. Qed.
Lemma CalculateCid_total `{!CidLib, !CidTexts} b : exists c, CalculateCid b = inl c.
Proof. unfold CalculateCid. destruct (cid_Sum_total b) as [c ->]. by exists c. Qed.

(** ** The steps of the node *)
Section Steps.
Context `{!CidLib, !RpcJson, !FileInfoLib} {W T : Type} `{!FileSys W, !StatFiles W, !OpenFiles W, !Datastore T}.
Context `{!FileLaws W, !OpenLaws W, !DatastoreLaws T, !CidTexts, !JsonLaws}.
Implicit Types (s : rs (W := W) (T := T)).

(** A step that leaves the files and the datastore as they are. *)
Definition quiet s s' : Prop :=
  rs_db s' = rs_db s /\ files (rs_w s') = files (rs_w s) /\ (healthy (rs_w s) -> healthy (rs_w s')).

#[local] Instance quiet_preorder : PreOrder quiet.
Proof.
  split; [by intros s|]. intros s1 s2 s3 (Da & Fa & Ha) (Db & Fb & Hb).
  split_and!; [by rewrite Db|by rewrite Fb|auto].
Qed.

Lemma quiet_world s w' :
  files w' = files (rs_w s) -> (healthy (rs_w s) -> healthy w') -> quiet s (Rs w' (rs_db s)).
Proof. done. Qed.

Lemma wp_machine {A} (c : call W A) s (Q : outcome A -> rs -> Prop) :
  (forall r w', c (rs_w s) = (r, w') ->
     Q match r with inl a => Ret a | inr e => Fail e end (Rs w' (rs_db s))) ->
  wp (on_machine (invoke c)) s Q.
Proof. intros HQ. apply wp_zoom, wp_call; intros; by apply (HQ (inl _)) || apply (HQ (inr _)). Qed.

(** The file that is created has the content; only a machine that fails does not
    write it. *)
Lemma write_new_spec path content s :
  wp (write_new path content) s (fun o s' =>
    rs_db s' = rs_db s /\ (healthy (rs_w s) -> healthy (rs_w s')) /\
    match o with
    | Ret _ => files (rs_w s') = <[path := content]> (files (rs_w s))
    | Fail _ => ~ healthy (rs_w s)
    | _ => False
    end).
Proof.
  unfold write_new. apply wp_bind, wp_machine. intros [f|e] w1 (Hh & Hc)%Create_spec; cbn [rs_w rs_db];
    [|by split_and!; [| |apply Hc]].
  destruct Hc as (Hf & <- & Ho). apply wp_machine. cbn [rs_w rs_db]. intros r w2 Hw.
  eapply Write_spec in Hw as (Hh2 & Hw); [|rewrite Hf; apply lookup_insert_eq|exact Ho].
  rewrite Hf in Hw. destruct r; (split_and!; [done|tauto|]).
  - by rewrite Hw, insert_insert_eq.
  - tauto.
Qed.

Lemma make_dir_spec path s :
  wp (make_dir path) s (fun o s' => quiet s s' /\
    match o with Ret _ => True | Fail _ => ~ healthy (rs_w s) | _ => False end).
Proof.
  unfold make_dir. apply wp_bind, wp_attempt, wp_machine.
  intros [size|e] w1 (Hf & Hh & Hx)%Stat_spec; cbn [rs_w rs_db]; [by apply wp_ret|].
  destruct (os_IsExist e).
  { apply wp_fail. split; [done|]. intros Hw. by specialize (Hx Hw). }
  apply wp_bind, wp_attempt, wp_machine. cbn [rs_w rs_db].
  intros r w2 (Hf2 & Hh2 & Hm)%MkdirAll_spec.
  assert (quiet s (Rs w2 (rs_db s))) by (split_and!; cbn; [done|congruence|auto]).
  destruct r as [u|e2]; cbn; [by apply wp_ret|]. destruct (os_IsExist e2) eqn:E2; [by apply wp_ret|].
  apply wp_fail. split; [done|]. intros Hw. specialize (Hm (Hh Hw)). congruence.
Qed.

(** There is room for chunks, in the staging directory. *)
Definition roomy (StagingPath : string) (StagingSapceSize : Z) : Prop :=
  exists p, homedir_Expand StagingPath = inl p /\
    forall w len, healthy w -> 0 <= len <= CHUNK_SIZE ->
      exists size, (os_Stat p w).1 = inl size /\ wrap_i64 (size + len) <= StagingSapceSize.

Lemma check_space_spec StagingPath StagingSapceSize len s :
  0 <= len <= CHUNK_SIZE ->
  wp (check_space StagingPath StagingSapceSize len) s (fun o s' => quiet s s' /\
    o <> OutOfFuel /\ (roomy StagingPath StagingSapceSize -> healthy (rs_w s) -> o = Ret tt)).
Proof.
  intros Hlen. unfold check_space. apply wp_bind.
  destruct (homedir_Expand StagingPath) as [p|e] eqn:Ep; [apply wp_ret|].
  2: { apply wp_fail. split; [reflexivity|]. split; [done|]. intros (p & E & _). by rewrite Ep in E. }
  apply wp_bind, wp_attempt, wp_machine. intros r w1 E. pose proof E as (Hf & Hh & _)%Stat_spec.
  pose proof (quiet_world s w1 Hf Hh) as Hq.
  assert (roomy StagingPath StagingSapceSize -> healthy (rs_w s) ->
    exists size, r = inl size /\ wrap_i64 (size + len) <= StagingSapceSize) as Hroom.
  { intros (p' & Ep' & Hr) Hw. rewrite Ep in Ep'. injection Ep' as <-.
    destruct (Hr (rs_w s) len Hw Hlen) as (size' & Es & Hs). rewrite E in Es. eauto. }
  destruct r as [size|e]; cbn [rs_w rs_db].
  - destruct (Z.ltb_spec StagingSapceSize (wrap_i64 (size + len))) as [Hlt|]; [|by apply wp_ret].
    apply wp_fail. split; [done|]. split; [done|]. intros Hr Hw.
    destruct (Hroom Hr Hw) as (size' & [= <-] & ?). lia.
  - assert (forall (o : outcome unit) s', quiet s s' -> o <> OutOfFuel -> quiet s s' /\ o <> OutOfFuel /\
      (roomy StagingPath StagingSapceSize -> healthy (rs_w s) -> o = Ret tt)) as Habs.
    { intros o s' Hs Ho. split; [exact Hs|]. split; [exact Ho|]. intros Hr Hw.
      by destruct (Hroom Hr Hw) as (size' & [=] & _). }
    destruct (os_IsNotExist e); [|by apply wp_fail, Habs].
    apply wp_bind, wp_machine. cbn [rs_w rs_db]. intros r w2 (Hf2 & Hh2 & _)%MkdirAll_spec.
    assert (quiet s (Rs w2 (rs_db s))) by (apply quiet_world; [congruence|auto]).
    destruct r as [u|e2]; [|by apply Habs]. destruct (_ <? _); by apply Habs.
Qed.

Lemma read_chunks_spec base cids acc s :
  wp (read_chunks base cids acc) s (fun o s' => quiet s s' /\
    match o with
    | Ret b => exists bs, b = acc ++ concat bs /\
                 Forall2 (fun c x => files (rs_w s) !! path_Join [base; c] = Some x) cids bs
    | Fail _ => healthy (rs_w s) -> Exists (fun c => files (rs_w s) !! path_Join [base; c] = None) cids
    | _ => False
    end).
Proof.
  revert acc s. induction cids as [|c cids IH]; intros acc s; cbn [read_chunks].
  { apply wp_ret. split; [reflexivity|]. exists []. by rewrite app_nil_r. }
  apply wp_bind, wp_machine. intros r w1 E. pose proof E as (Hf & Hh & Ho)%Open_spec.
  destruct r as [f|e]; cbn [rs_w rs_db]; [|split; [done|]; intros; by left; apply Ho].
  apply wp_bind, wp_machine. cbn [rs_w rs_db]. intros r w2 E2.
  destruct (ReadAll_spec _ _ _ _ _ _ E E2) as (Hf2 & Hh2 & Hr).
  assert (quiet s (Rs w2 (rs_db s))) as Hq by (apply quiet_world; [congruence|auto]).
  destruct r as [b|e]; [|split; [done|]; intros; left; auto].
  eapply wp_mono; [apply IH|]. intros o s' [Hq' Ho']. split; [by etrans|].
  pose proof Hq as (_ & Hfq & Hhq). cbn [rs_w] in *. rewrite Hfq in Ho'. destruct o as [b'|e'| |]; [|auto|done..].
  destruct Ho' as (bs & -> & Hall). exists (b :: bs). cbn. split; [by rewrite app_assoc|]. by constructor.
Qed.
End Steps.

(** ** The record of a file and its chunks *)
Section Record.
Context `{!CidLib, !RpcJson, !FileInfoLib} {W T : Type} `{!FileSys W, !StatFiles W, !OpenFiles W, !Datastore T}.
Context `{!FileLaws W, !OpenLaws W, !DatastoreLaws T, !CidTexts, !JsonLaws}.
(** The content that is sent, and where the node puts it. *)
Context (content : bytes) (contentCid : Cid) (path base : string).
Implicit Types (s : rs (W := W) (T := T)) (fi : ReceivedFileInfo).

Definition chunk (k : nat) : bytes := chunk_of content (Z.of_nat k).
Definition nchunks : nat := Z.to_nat (total_chunks content).
Definition chunk_cid (k : nat) : string :=
  match CalculateCid (chunk k) with inl c => cid_String c | inr _ => "" end.
Definition chunk_req (k : nat) : FileChunkReq :=
  MkFileChunkReq (Z.of_nat k) (Z.of_nat (length content)) (total_chunks content) (chunk_cid k)
    (cid_String contentCid) (chunk k).

(** A record that names only chunks of the content. *)
Definition honest_info fi : Prop :=
  rfi_Path fi = path /\ json_text (rfi_Cid fi) /\ length (rfi_ChunkCids fi) = nchunks /\
  forall k c, rfi_ChunkCids fi !! k = Some c -> c = "" \/ (chunk k <> [] /\ c = chunk_cid k).

Definition info_of s fi : Prop :=
  exists b, contents (rs_db s) !! file_key (T := T) (cid_String contentCid) = Some b /\
    FileInfo_Unmarshal b = inl (Some fi).
Definition honest s : Prop :=
  contents (rs_db s) !! file_key (T := T) (cid_String contentCid) = None \/
  exists fi, info_of s fi /\ honest_info fi.
(** The record has the first [m] chunks. *)
Definition known (m : nat) s : Prop :=
  (0 < m)%nat -> exists fi, info_of s fi /\ forall k, (k < m)%nat -> rfi_ChunkCids fi !! k = Some (chunk_cid k).

Lemma info_of_inj s fi fi' : info_of s fi -> info_of s fi' -> fi = fi'.
Proof. intros (b & E & U) (b' & E' & U'). rewrite E in E'. injection E' as <-. rewrite U in U'. by injection U'. Qed.

Lemma honest_of s fi : honest s -> info_of s fi -> honest_info fi.
Proof.
  intros [E|(fi' & Hi & Hh)] Hfi; [destruct Hfi as (b & E' & _); by rewrite E in E'|].
  by rewrite (info_of_inj _ _ _ Hfi Hi).
Qed.

Lemma chunk_cid_text k : good_elem (chunk_cid k) /\ json_text (chunk_cid k).
Proof.
  unfold chunk_cid. destruct (CalculateCid_total (chunk k)) as [c E]. rewrite E.
  apply CalculateCid_Sum in E. split; [by eapply cid_Sum_text|by eapply json_text_cid].
Qed.

Context (Hcid : CalculateCid content = inl contentCid) (Hpath : json_text path).

(** The record with chunk [k]. *)
Definition with_chunk (k : nat) s fi : Prop :=
  honest_info fi /\ (known k s -> forall j, (j <= k)%nat -> rfi_ChunkCids fi !! j = Some (chunk_cid j)).

Lemma first_info_spec s :
  chunk 0 <> [] -> wp (first_info (chunk_req 0) path) s (fun o s' =>
    s' = s /\ exists fi, o = Ret fi /\ with_chunk 0 s fi).
Proof.
  intros Hne. pose proof (total_chunks_bounds content) as [Hpos _].
  unfold first_info, make_strings, set_index, at_index. cbn [fcr_TotalChunks chunk_req].
  destruct (Z.ltb_spec (total_chunks content) 0); [lia|]. apply wp_bind, wp_ret, wp_bind, wp_bind.
  destruct (lookup_lt_is_Some_2 (replicate (Z.to_nat (total_chunks content)) "") 0) as [x Ex];
    [rewrite length_replicate; lia|]. change (Z.to_nat 0) with 0%nat. rewrite Ex.
  apply wp_ret, wp_ret, wp_ret. split; [done|]. eexists. split; [done|]. cbn [fcr_ChunkCid chunk_req]. split.
  - split_and!; cbn [rfi_Path rfi_Cid rfi_ChunkCids]; [done|..].
    + eapply json_text_cid, CalculateCid_Sum, Hcid.
    + by rewrite length_insert, length_replicate.
    + intros k c. rewrite list_lookup_insert_Some. intros [(<- & <- & _)|[_ E]]; [by right|].
      left. by apply lookup_replicate_1 in E as [-> _].
  - intros _ j Hj. replace j with 0%nat by lia. cbn [rfi_ChunkCids]. rewrite list_lookup_insert_eq; [done|].
    rewrite length_replicate. lia.
Qed.

Lemma next_info_spec k s :
  (0 < k < nchunks)%nat -> chunk k <> [] -> honest s ->
  wp (next_info (chunk_req k)) s (fun o s' =>
    rs_w s' = rs_w s /\ contents (rs_db s') = contents (rs_db s) /\ (reliable (rs_db s) -> reliable (rs_db s')) /\
    exists r, o = Ret r /\
      match r with
      | Some fi => with_chunk k s fi
      | None => reliable (rs_db s) -> known k s -> known (S k) s
      end).
Proof.
  intros Hk Hne Hh. unfold next_info. apply wp_or_else, wp_zoom. cbn [fcr_Cid chunk_req].
  eapply wp_mono; [apply Get_spec|]. intros [info|e| |] db (Hc & Hrel & Ho); [|apply wp_ret|done..]; cbn [rs_w rs_db].
  - destruct Hh as [E|(fi & Hi & Hh)]; [by rewrite E in Ho|].
    pose proof Hi as (b & E & U). rewrite E in Ho. injection Ho as ->. rewrite U.
    apply wp_bind, wp_ret, wp_bind. unfold at_index, set_index. cbn [fcr_ChunkId chunk_req].
    destruct (Z.ltb_spec (Z.of_nat k) 0); [lia|]. rewrite Nat2Z.id.
    pose proof Hh as (Hp & Hj & Hl & Hcids).
    destruct (lookup_lt_is_Some_2 (rfi_ChunkCids fi) k) as [c Ec]; [lia|]. rewrite Ec. apply wp_ret.
    assert (known k s -> forall j, (j < k)%nat -> rfi_ChunkCids fi !! j = Some (chunk_cid j)) as Hkn.
    { intros Hkn j Hjk. destruct Hkn as (fi' & Hi' & Hall); [lia|].
      rewrite (info_of_inj _ _ _ Hi Hi'). by apply Hall. }
    destruct (String.eqb_spec c "") as [->|Hc0].
    + apply wp_bind, wp_bind. unfold at_index. destruct (Z.ltb_spec (Z.of_nat k) 0); [lia|]. rewrite Nat2Z.id, Ec.
      apply wp_ret, wp_ret, wp_ret. split_and!; [done..|]. eexists. split; [done|]. split; cbn [rfi_ChunkCids].
      * split_and!; cbn [rfi_Path rfi_Cid rfi_ChunkCids]; [done|done|by rewrite length_insert|].
        intros j c'. rewrite list_lookup_insert_Some. intros [(-> & <- & _)|[_ E']]; [by right|by apply Hcids].
      * intros Hk' j Hjk. destruct (decide (j = k)) as [->|]; [rewrite list_lookup_insert_eq; [done|lia]|].
        rewrite list_lookup_insert_ne by done. apply Hkn; [done|lia].
    + apply wp_ret. split_and!; [done..|]. eexists. split; [done|]. intros _ Hk' _. exists fi. split; [done|].
      intros j Hjk. destruct (decide (j = k)) as [->|]; [|apply Hkn; [done|lia]].
      destruct (Hcids k c Ec) as [|[_ ->]]; done.
  - split_and!; [done..|]. eexists. split; [done|]. intros Hr Hkn. destruct Ho as [|Ho]; [done|].
    destruct Hkn as (fi & (b & E & _) & _); [lia|]. rewrite Ho in E. discriminate E.
Qed.

Lemma handleChunkInfo_spec k s :
  (k < nchunks)%nat -> chunk k <> [] -> honest s ->
  wp (handleChunkInfo (chunk_req k) path) s (fun o s' =>
    o = Ret tt /\ rs_w s' = rs_w s /\ honest s' /\ (reliable (rs_db s) -> reliable (rs_db s')) /\
    (reliable (rs_db s) -> known k s -> known (S k) s')).
Proof.
  intros Hk Hne Hh. unfold handleChunkInfo. apply wp_bind.
  eapply wp_mono with (Q := fun o s' =>
    rs_w s' = rs_w s /\ contents (rs_db s') = contents (rs_db s) /\ (reliable (rs_db s) -> reliable (rs_db s')) /\
    exists r, o = Ret r /\
      match r with
      | Some fi => with_chunk k s fi
      | None => reliable (rs_db s) -> known k s -> known (S k) s
      end).
  { cbn [fcr_ChunkId chunk_req]. destruct (Z.eqb_spec (Z.of_nat k) 0) as [E|E].
    - assert (k = 0%nat) as -> by lia. apply wp_bind. eapply wp_mono; [by apply first_info_spec|].
      intros o s' (-> & fi & -> & Hw). apply wp_ret. split_and!; [done..|]. by eexists.
    - apply next_info_spec; [lia|done..]. }
  intros o s' (Hw & Hc & Hrel & r & -> & Hr).
  assert (forall fi, info_of s' fi <-> info_of s fi) as Hio by (intros fi; unfold info_of; by rewrite Hc).
  assert (honest s') as Hh' by (unfold honest in *; rewrite Hc; setoid_rewrite Hio; done).
  destruct r as [fi|].
  2: { apply wp_ret. split_and!; [done..|]. intros Hl Hkn Hpos. destruct (Hr Hl Hkn Hpos) as (fi & Hi & Hall).
       exists fi. by rewrite Hio. }
  destruct Hr as [(Hp & Hj & Hl & Hcids) Hkn].
  destruct (FileInfo_ok fi) as (b & -> & Ub); [done|by rewrite Hp| |].
  { apply Forall_lookup. intros j c E. destruct (Hcids j c E) as [->|[_ ->]]; [apply json_text_empty|].
    apply chunk_cid_text. }
  unfold ignore. apply wp_bind, wp_attempt, wp_zoom. eapply wp_mono; [apply Put_spec|].
  assert (forall db, contents db = <[file_key (T := T) (cid_String contentCid) := b]> (contents (rs_db s')) ->
    info_of (Rs (rs_w s') db) fi) as Hnew.
  { intros db E. exists b. cbn. by rewrite E, lookup_insert_eq. }
  assert (honest_info fi) as Hfi by done.
  intros [u|e| |] db (Hrel2 & Hput); [| |done..]; apply wp_ret; cbn [rs_w rs_db];
    (split; [done|]; split; [done|]; split; [|split; [auto|]]).
  - right. eauto.
  - intros _ Hk' _. exists fi. split; [by apply Hnew|]. intros j Hjk. apply Hkn; [done|lia].
  - destruct Hput as [_ [E|E]]; [|right; by eauto].
    destruct Hh' as [E'|(fi' & (b' & E' & U') & Hfi')]; [left; cbn; by rewrite E|].
    right. exists fi'. split; [|done]. exists b'. cbn. by rewrite E.
  - intros Hr2. destruct Hput as [Hnr _]. destruct (Hnr (Hrel Hr2)).
Qed.

(** ** Chunks on disk *)
Definition on_disk (m : nat) s : Prop :=
  forall k, (k < m)%nat -> files (rs_w s) !! path_Join [base; chunk_cid k] = Some (chunk k).
(** The directory is not a regular file. *)
Definition no_file s : Prop := files (rs_w s) !! path_Join [base; ""] = None.
Definition received (m : nat) s : Prop := honest s /\ on_disk m s /\ no_file s.
Definition live s : Prop := healthy (rs_w s) /\ reliable (rs_db s).

(** Chunks with one identifier are the same. *)
Definition no_collision : Prop :=
  forall j k, (j < nchunks)%nat -> (k < nchunks)%nat -> chunk_cid j = chunk_cid k -> chunk j = chunk k.

Context (StagingPath : string) (StagingSapceSize : Z) (dir : string).
Context (Hdir : path = path_Join [dir; cid_String contentCid]) (Hbase : homedir_Expand path = inl base)
  (Hmem : in_memory content) (Hcoll : no_collision).

Lemma quiet_received m s s' : quiet s s' -> received m s -> received m s'.
Proof. intros (D & F & _) (Hh & Hd & Hn). unfold received, honest, info_of, on_disk, no_file in *. by rewrite D, F. Qed.

Lemma quiet_live s s' : quiet s s' -> live s -> live s'.
Proof. intros (D & _ & Hq) [Hl Hr]. split; [auto|by rewrite D]. Qed.

Lemma quiet_known m s s' : quiet s s' -> known m s -> known m s'.
Proof. intros (D & _ & _). unfold known, info_of. by rewrite D. Qed.

Lemma chunk_small k : Z.of_nat (length (chunk k)) <= CHUNK_SIZE \/ (nchunks < k)%nat.
Proof.
  pose proof (total_chunks_bounds content) as [Hpos _].
  destruct (decide (nchunks < k)%nat); [by right|left]. unfold chunk, nchunks in *.
  rewrite chunk_of_spec by (done || lia). rewrite length_take. pose proof CHUNK_SIZE_range. lia.
Qed.

Lemma store_chunk_spec k s :
  (k < nchunks)%nat -> chunk k <> [] -> received k s ->
  wp (store_chunk StagingPath StagingSapceSize (chunk_req k) dir) s (fun o s' =>
    (o = Ret tt -> received (S k) s') /\ o <> OutOfFuel /\
    (roomy StagingPath StagingSapceSize -> live s -> known k s -> o = Ret tt /\ live s' /\ known (S k) s')).
Proof.
  intros Hk Hne Hrec. unfold store_chunk. cbn [fcr_Content fcr_Cid fcr_ChunkCid chunk_req]. rewrite <-Hdir.
  apply wp_bind. eapply wp_mono; [apply check_space_spec; destruct (chunk_small k); lia|].
  intros o s1 (Hq & Ho & Hroom).
  assert (Hlive1 : forall Q, (live s1 -> known k s1 -> Q) -> live s -> known k s -> Q)
    by (intros Q HQ Hl Hkn; apply HQ; [by eapply quiet_live|by eapply quiet_known]).
  destruct o as [[]|e| |]; [|split_and!; [done..|intros Hr [Hl _] _; by specialize (Hroom Hr Hl)]|
    split_and!; [done..|intros Hr [Hl _] _; by specialize (Hroom Hr Hl)]|done].
  pose proof (quiet_received _ _ _ Hq Hrec) as (Hh & Hd & Hn).
  apply wp_bind. eapply wp_mono; [by apply handleChunkInfo_spec|].
  intros o s2 (-> & Hw2 & Hh2 & Hrel2 & Hkn2). rewrite Hbase. apply wp_bind, wp_ret.
  apply wp_bind. eapply wp_mono; [apply make_dir_spec|]. intros o s3 (Hq3 & Ho3).
  assert (live s -> live s2) as Hlive2.
  { intros [Hl Hr]%(quiet_live _ _ Hq). split; [by rewrite Hw2|auto]. }
  assert (live s -> known k s -> live s3 /\ known (S k) s3) as Hlive3.
  { intros Hl Hkn. split; [eapply quiet_live; eauto|]. eapply quiet_known; [done|]. apply Hkn2.
    - apply (quiet_live _ _ Hq Hl).
    - by eapply quiet_known. }
  destruct o as [[]|e| |]; [|split_and!; [done..|]; intros _ Hl _; destruct Ho3; apply (Hlive2 Hl)|done..].
  eapply wp_mono; [apply write_new_spec|]. intros o s4 (Hdb4 & Hhe4 & Ho4). split; [|split].
  - intros ->. destruct Hq3 as (D3 & F3 & _). destruct (chunk_cid_text k) as [Hgood _].
    split_and!.
    + unfold honest, info_of in *. by rewrite Hdb4, D3.
    + intros j Hj. rewrite Ho4, F3, Hw2. destruct (decide (chunk_cid j = chunk_cid k)) as [E|Hneq].
      * rewrite E, lookup_insert_eq. f_equal. apply Hcoll; [lia..|done].
      * rewrite lookup_insert_ne.
        -- apply Hd. assert (j <> k) by congruence. lia.
        -- intros E%path_Join_inj; [congruence|done|apply chunk_cid_text].
    + unfold no_file. rewrite Ho4, F3, Hw2, lookup_insert_ne; [done|]. by apply path_Join_not_dir.
  - by destruct o.
  - intros _ Hl Hkn. destruct (Hlive3 Hl Hkn) as [[Hl3 Hr3] Hk3]. destruct o as [[]|e| |]; [|by destruct Ho4|done..].
    split_and!; [done|split; [auto|by rewrite Hdb4]|]. unfold known, info_of in *. by rewrite Hdb4.
Qed.

(** ** The chunks, put together *)
Lemma concat_chunks m :
  (m <= nchunks)%nat -> concat (chunk <$> seq 0 m) = take (m * chunk_len) content.
Proof.
  pose proof (total_chunks_bounds content) as [Hpos _].
  induction m as [|m IH]; intros Hm; [by rewrite take_0|].
  rewrite seq_S, fmap_app, concat_app, IH by lia. cbn [fmap list_fmap concat seq Nat.add]. rewrite app_nil_r.
  unfold chunk, nchunks in *. rewrite chunk_of_spec by (done || lia).
  rewrite take_take_drop. f_equal. lia.
Qed.

Lemma all_chunks : concat (chunk <$> seq 0 nchunks) = content.
Proof.
  rewrite concat_chunks, take_ge; [done| |done]. unfold nchunks.
  pose proof (total_chunks_bounds content). pose proof CHUNK_SIZE_range. nia.
Qed.

(** What is read under the names of a record of the content. *)
Lemma honest_contents m s fi bs :
  (forall k, (k < nchunks)%nat -> chunk k <> [] -> (k < m)%nat) -> received m s -> honest_info fi ->
  Forall2 (fun c x => files (rs_w s) !! path_Join [base; c] = Some x) (rfi_ChunkCids fi) bs ->
  (forall k, (k < nchunks)%nat -> chunk k <> []) /\ concat bs = content.
Proof.
  intros Hm (_ & Hd & Hn) (_ & _ & Hl & Hcids) Hall.
  assert (forall k, (k < nchunks)%nat -> chunk k <> [] /\ bs !! k = Some (chunk k)) as Hk.
  { intros k Hk. destruct (lookup_lt_is_Some_2 (rfi_ChunkCids fi) k) as [c Ec]; [lia|].
    destruct (Forall2_lookup_l _ _ _ _ _ Hall Ec) as (x & Ex & Ef).
    destruct (Hcids k c Ec) as [->|[Hne ->]]; [unfold no_file in Hn; by rewrite Hn in Ef|].
    rewrite (Hd k (Hm k Hk Hne)) in Ef. injection Ef as <-. done. }
  split; [intros k Hkn; by apply Hk|]. rewrite <-all_chunks. f_equal.
  apply list_eq_same_length with (n := nchunks).
  - by rewrite length_fmap, length_seq.
  - by rewrite <-(Forall2_length _ _ _ Hall).
  - intros k x y Hkn Ex Ey. rewrite list_lookup_fmap, lookup_seq_lt in Ey by done.
    destruct (Hk k Hkn) as [_ E]. cbn in Ey. congruence.
Qed.

(** The file is there, and the record says where. *)
Definition staged s : Prop :=
  files (rs_w s) !! path_Join [base; cid_String contentCid] = Some content /\
  exists fi, info_of s fi /\ rfi_Path fi = path.

Lemma assemble_spec m req s :
  fcr_Cid req = cid_String contentCid ->
  (forall k, (k < nchunks)%nat -> chunk k <> [] -> (k < m)%nat) -> received m s ->
  wp (assemble req) s (fun o s' =>
    (o = Ret tt -> (forall k, (k < nchunks)%nat -> chunk k <> []) /\ staged s') /\ o <> OutOfFuel /\
    (live s -> known nchunks s -> m = nchunks -> o = Ret tt)).
Proof.
  intros Hreq Hm Hrec. pose proof Hrec as (Hh & Hd & Hn). unfold assemble. rewrite Hreq.
  apply wp_bind, wp_zoom. eapply wp_mono; [apply Get_spec|].
  assert (0 < nchunks)%nat as Hpos.
  { pose proof (total_chunks_bounds content). unfold nchunks. lia. }
  intros [b|e| |] db (Hc & Hrel & Hb); [| |done..].
  2: { split_and!; [done..|]. intros [_ Hr] Hkn _. destruct Hb as [|Hb]; [done|].
       destruct (Hkn Hpos) as (fi & (b & E & _) & _). by rewrite Hb in E. }
  destruct Hh as [E|(fi & Hi & Hfi)]; [by rewrite E in Hb|].
  pose proof Hi as (b' & E & U). rewrite E in Hb. injection Hb as ->. rewrite U.
  pose proof Hfi as (Hp & _). apply wp_bind, wp_ret, wp_bind, wp_ret. rewrite Hp, Hbase.
  apply wp_bind, wp_ret, wp_bind. eapply wp_mono; [apply read_chunks_spec|]. cbn [rs_w].
  intros o s2 (Hq & Ho). destruct o as [fc|e| |]; [| |done..].
  2: { split_and!; [done..|]. intros [Hl _] Hkn ->. apply Ho, Exists_exists in Hl as (c & Hin & Ec).
       apply list_elem_of_lookup in Hin as [k Ek]. destruct (Hkn Hpos) as (fi' & Hi' & Hall).
       rewrite <-(info_of_inj _ _ _ Hi Hi') in Hall. assert (k < nchunks)%nat as Hkn'.
       { apply lookup_lt_Some in Ek. destruct Hfi as (_ & _ & Hlen & _). by rewrite Hlen in Ek. }
       rewrite (Hall k Hkn') in Ek. injection Ek as <-. by rewrite (Hd k Hkn') in Ec. }
  destruct Ho as (bs & -> & Hall). destruct (honest_contents m s fi bs Hm Hrec Hfi Hall) as [Hne Hbs].
  rewrite Hbs. cbn [app]. rewrite Hcid. apply wp_bind, wp_ret.
  eapply wp_mono; [apply write_new_spec|]. intros o s3 (D3 & _ & Ho3). pose proof Hq as (D2 & F2 & H2q).
  cbn [rs_w rs_db] in *. split; [|split].
  - intros ->. split; [done|]. split; [by rewrite Ho3, lookup_insert_eq|].
    exists fi. split; [|done]. exists b. by rewrite D3, D2, Hc.
  - by destruct o.
  - intros [Hl _] _ _. destruct o as [[]|e| |]; [done| |done..]. destruct Ho3. auto.
Qed.
End Record.
