(* ===== verification/UploadSession.v ===== *)
(** * Uploads, from the client to the node

    [upload_staged]: a client that is told that its upload was taken has its file,
    whole, in the staging directory of the node, whatever fails on the way.
    [upload_succeeds]: when nothing fails, files whose length is no multiple of the
    size of a chunk are taken; no others are ([upload_staged]).
    [uploaded_file_created]: a model that is created from a file that was uploaded
    has the content of the upload. *)
From stdpp Require Import base list gmap strings.
From Stdlib Require Import ZArith Lia Ascii.
From S2P Require Import Prelude Types StateUtils ChainApi Stage Chain Gateway.
From S2P Require Import Validator ModelManager NodeApi NodeTheorems Upload UploadTheorems.

#[local] Opaque CHUNK_SIZE.
#[local] Existing Instance untouched_preorder.

(** ** A session: the client and the node *)

(** The world that is written into the state of the gateway is the one that is found
    there. *)
Class WorldLaws (G W : Type) `{!HasWorld G W} := { world_set (w : W) (g : G) : world_of (set_world w g) = w }.

Lemma chunk_nonempty `{!CidLib} content k :
  in_memory content -> (k <= nchunks content)%nat ->
  chunk content k <> [] <-> Z.of_nat k * CHUNK_SIZE < Z.of_nat (length content).
Proof.
  intros Hm Hk. pose proof (total_chunks_bounds content) as [Hpos _]. pose proof CHUNK_SIZE_range.
  unfold chunk, nchunks in *. rewrite chunk_of_spec by (done || lia).
  rewrite <-length_zero_iff_nil, length_take, length_drop. nia.
Qed.

(** All chunks have content unless the length is a multiple of their size. *)
Lemma all_nonempty `{!CidLib} content :
  in_memory content ->
  (forall k, (k < nchunks content)%nat -> chunk content k <> []) <->
  Z.of_nat (length content) mod CHUNK_SIZE <> 0.
Proof.
  intros Hm. pose proof (total_chunks_bounds content) as [Hpos Hb]. pose proof CHUNK_SIZE_range as Hs.
  assert (nchunks content = Z.to_nat (total_chunks content)) as En by done.
  assert (Z.of_nat (length content) mod CHUNK_SIZE
    = Z.of_nat (length content) - (total_chunks content - 1) * CHUNK_SIZE) as ->.
  { unfold total_chunks. rewrite Z.mod_eq by lia. lia. }
  split.
  - intros Hall. specialize (Hall (nchunks content - 1)%nat ltac:(lia)).
    apply chunk_nonempty in Hall; [nia|done|lia].
  - intros Hne k Hk. apply chunk_nonempty; [done|lia|]. nia.
Qed.

Section Session.
Context `{!CidLib, !ErrorText, !JsonLib, !RuleLib, !GoRange, !PatchLib, !ContextLib}
        {G W C X T K : Type} `{!SchemaLib X, !GatewayChain W, !ProposalFields W,
        !GatewaySvcApi G W, !CacheSvcApi C}.
Context `{!HasWorld G W, !SignedProposals W, !ProposalLib, !DidLib W, !ChainSvcApi W,
          !Datastore T, !FileInfoLib, !FileSys W, !StatFiles W, !OpenFiles W, !RpcJson}.
Context `{!FileLaws W, !OpenLaws W, !DatastoreLaws T, !CidTexts, !JsonLaws, !WorldLaws G W}.
Context (EnableCache : bool) (CacheCapacity ContentLimit : Z) (StagingPath : string) (StagingSapceSize : Z).

Abbreviation node := (nd (G := G) (W := W) (C := C) (X := X) (T := T)).
Abbreviation handle := (HandleStream EnableCache CacheCapacity ContentLimit StagingPath StagingSapceSize).
Context `{!FileSys K, !StatFiles K, !OpenFiles K, !TransportLib K node}.
Implicit Types (s : node).

Lemma get_set_rs r s : get_rs (set_rs r s) = r.
Proof. destruct r as [w t]. unfold get_rs, set_rs. cbn. by rewrite world_set. Qed.

Lemma wp_on_rs {A} (m : GoM rs A) s (Q : outcome A -> node -> Prop) :
  wp m (get_rs s) (fun o r => forall s', get_rs s' = r -> Q o s') -> wp (on_rs m) s Q.
Proof. intros Hm. apply wp_zoom. eapply wp_mono; [exact Hm|]. intros o r HQ. apply HQ, get_set_rs. Qed.

(** The connection carries requests to the node and its answers back, or fails;
    a [lossless] one never fails while the node answers. *)
Definition serves (peer : string) : Prop := forall b s out s',
  exchange (K := K) b s = (inl out, s') -> exists o, handle peer b s = (Ret o, s') /\ out = default [] o.
Definition lossless (peer : string) : Prop := forall b s o s',
  handle peer b s = (Ret o, s') -> exchange (K := K) b s = (inl (default [] o), s').

(** What is so when an upload begins: the record of the file is not there, or names
    only its chunks; the directory is no regular file; texts are texts. *)
Record upload_start (peer : string) (content : bytes) (c : Cid) (base : string) s : Prop := {
  us_memory : in_memory content;
  us_cid : CalculateCid content = inl c;
  us_collision : no_collision content;
  us_text : json_text (path_Join [peer_dir StagingPath peer; cid_String c]);
  us_base : homedir_Expand (W := W) (path_Join [peer_dir StagingPath peer; cid_String c]) = inl base;
  us_honest : honest content c (path_Join [peer_dir StagingPath peer; cid_String c]) (get_rs s);
  us_no_file : no_file base (get_rs s)
}.

Section Content.
Context (peer : string) (content : bytes) (c : Cid) (base : string).
Abbreviation dir := (peer_dir StagingPath peer).
Abbreviation path := (path_Join [dir; cid_String c]).
Context (Hmem : in_memory content) (Hcid : CalculateCid content = inl c) (Hcoll : no_collision content)
  (Hpath : json_text path) (Hbase : homedir_Expand (W := W) path = inl base).

Abbreviation received_s m s := (received content c path base m (get_rs s)).
Abbreviation staged_s s := (staged content c path base (get_rs s)).
Abbreviation live_s s := (live (get_rs s)).
Abbreviation known_s m s := (known content c m (get_rs s)).
Abbreviation nch := (nchunks content).

(** After chunk [k] was taken. *)
Definition after_chunk (k : nat) s : Prop :=
  if decide (chunk content k = [])
  then (forall j, (j < nch)%nat -> chunk content j <> []) /\ staged_s s
  else received_s (S k) s.

Lemma Upload_spec k b s :
  (k <= nch)%nat -> received_s k s -> FileChunkReq_Unmarshal b = inl (chunk_req content c k) ->
  wp (on_rs (Upload StagingPath StagingSapceSize [bytes_string b; dir])) s (fun o s' =>
    (forall t, o = Ret t -> t = chunk_cid content k /\ after_chunk k s') /\
    (roomy (W := W) StagingPath StagingSapceSize -> live_s s -> known_s k s ->
     Z.of_nat (length content) mod CHUNK_SIZE <> 0 ->
     (exists t, o = Ret t) /\ ((k < nch)%nat -> live_s s' /\ known_s (S k) s'))).
Proof.
  intros Hk Hrec Hb. apply wp_on_rs. unfold Upload. rewrite string_bytes_string, Hb.
  apply wp_bind, wp_ret. cbn [fcr_Content chunk_req].
  destruct (CalculateCid_total (chunk content k)) as [ck Ek]. rewrite Ek. apply wp_bind, wp_ret, wp_bind.
  assert (chunk_cid content k = cid_String ck) as Et by (unfold chunk_cid; by rewrite Ek).
  unfold after_chunk. destruct (decide (chunk content k = [])) as [Enil|Hne].
  - rewrite Enil. replace (0 <? Z.of_nat (length [])) with false by done.
    eapply wp_mono.
    { apply (assemble_spec content c path base Hcid Hbase Hmem k); [done| |done].
      intros j Hj Hnej. apply chunk_nonempty in Hnej; [|done|lia].
      pose proof CHUNK_SIZE_range. destruct (decide (j < k)%nat); [done|]. exfalso.
      assert (chunk content k <> []); [|done]. apply chunk_nonempty; [done..|]. nia. }
    intros o r (Hok & Hof & Hlive).
    assert (roomy (W := W) StagingPath StagingSapceSize -> live_s s -> known_s k s ->
      Z.of_nat (length content) mod CHUNK_SIZE <> 0 -> o = Ret tt /\ k = nch) as Hall.
    { intros _ Hl Hkn Hmod. pose proof (proj2 (all_nonempty content Hmem) Hmod) as Hall.
      assert (k = nch) as -> by (destruct (decide (k = nch)); [done|]; destruct (Hall k); [lia|done]).
      split; [by apply Hlive|done]. }
    destruct o as [[]|e| |]; [apply wp_ret| | |done]; intros s' <-; (split;
      [try done|intros Hr Hl Hkn Hmod; destruct (Hall Hr Hl Hkn Hmod) as [Eo ->];
        first [done|split; [by eexists|lia]]]).
    intros t [= <-]. split; [done|]. by apply Hok.
  - assert (k < nch)%nat as Hlt.
    { apply chunk_nonempty in Hne; [|done..]. pose proof (total_chunks_bounds content).
      unfold nchunks in *. pose proof CHUNK_SIZE_range. nia. }
    destruct (Z.ltb_spec 0 (Z.of_nat (length (chunk content k)))) as [_|Hle];
      [|destruct (chunk content k); [done|cbn in Hle; lia]].
    eapply wp_mono.
    { by apply (store_chunk_spec content c path base Hcid Hpath StagingPath StagingSapceSize dir). }
    intros o r (Hok & Hof & Hlive).
    destruct o as [[]|e| |]; [apply wp_ret| | |done]; intros s' <-; (split;
      [try done|intros Hr Hl Hkn Hmod; destruct (Hlive Hr Hl Hkn) as (Eo & Hl' & Hkn');
        first [done|split; [by eexists|done]]]).
    intros t [= <-]. split; [done|]. by apply Hok.
Qed.

(** The text that comes back for chunk [k]: an error whose text is empty is an empty
    text. *)
Lemma HandleStream_spec k b rb s :
  (k <= nch)%nat -> received_s k s -> FileChunkReq_Unmarshal b = inl (chunk_req content c k) ->
  RpcReq_Unmarshal rb = inl (MkRpcReq "Sao.Upload" [bytes_string b]) ->
  wp (handle peer rb) s (fun o s' =>
    (forall out, o = Ret out -> exists resp, RpcResp_Unmarshal (default [] out) = inl resp /\
       (rps_Error resp = "" -> rps_Data resp = "" \/ (rps_Data resp = chunk_cid content k /\ after_chunk k s'))) /\
    (roomy (W := W) StagingPath StagingSapceSize -> live_s s -> known_s k s ->
     Z.of_nat (length content) mod CHUNK_SIZE <> 0 ->
     exists out resp, o = Ret out /\ RpcResp_Unmarshal (default [] out) = inl resp /\ rps_Error resp = "" /\
       rps_Data resp = chunk_cid content k /\ after_chunk k s' /\ ((k < nch)%nat -> live_s s' /\ known_s (S k) s'))).
Proof.
  intros Hk Hrec Hb Hrb. unfold HandleStream, respond, dispatch. rewrite Hrb. cbn [rpr_Method rpr_Params app String.eqb Ascii.eqb Bool.eqb].
  apply wp_bind, wp_bind, wp_attempt, wp_bind. eapply wp_mono; [by apply Upload_spec|].
  destruct (chunk_cid_text content k) as [_ Hjt].
  intros [t|e| |] s' (Hok & Hlive).
  - destruct (Hok t eq_refl) as [-> Haft]. apply wp_ret, wp_ret, wp_ret.
    destruct (RpcResp_ok (MkRpcResp (chunk_cid content k) "")) as (out & resp & -> & Ur & He & Hd).
    cbn [rps_Error rps_Data] in *. split.
    + intros out' [= <-]. exists resp. split; [done|]. auto.
    + intros Hr Hl Hkn Hmod. destruct (Hlive Hr Hl Hkn Hmod) as [_ Hl'].
      exists (Some out), resp. split_and!; auto; by apply He.
  - apply wp_ret, wp_ret. destruct (RpcResp_ok (MkRpcResp "" (Error e))) as (out & resp & -> & Ur & He & Hd).
    cbn [rps_Error rps_Data] in *. split.
    + intros out' [= <-]. exists resp. split; [done|]. intros _. left. apply Hd, json_text_empty.
    + intros Hr Hl Hkn Hmod. by destruct (Hlive Hr Hl Hkn Hmod) as [[t [=]] _].
  - split; [done|]. intros Hr Hl Hkn Hmod. by destruct (Hlive Hr Hl Hkn Hmod) as [[t [=]] _].
  - split; [done|]. intros Hr Hl Hkn Hmod. by destruct (Hlive Hr Hl Hkn Hmod) as [[t [=]] _].
Qed.

Lemma send_chunk_spec k ck s :
  serves peer -> (k <= nch)%nat -> received_s k s -> CalculateCid (chunk content k) = inl ck ->
  wp (send_chunk (K := K) content c ck (Z.of_nat k) (chunk content k)) s (fun o s' =>
    (match o with
     | Ret t => t = "" \/ (t = chunk_cid content k /\ after_chunk k s')
     | Fail _ => True
     | _ => False
     end) /\
    (lossless peer -> roomy (W := W) StagingPath StagingSapceSize -> live_s s -> known_s k s ->
     Z.of_nat (length content) mod CHUNK_SIZE <> 0 ->
     o = Ret (chunk_cid content k) /\ after_chunk k s' /\ ((k < nch)%nat -> live_s s' /\ known_s (S k) s'))).
Proof.
  intros Hserves Hk Hrec Eck. unfold send_chunk.
  assert (cid_String ck = chunk_cid content k) as Et by (unfold chunk_cid; by rewrite Eck).
  rewrite Et. change (MkFileChunkReq _ _ _ _ _ _) with (chunk_req content c k).
  destruct (FileChunkReq_ok (chunk_req content c k)) as (b & -> & Ub & Hbt).
  { apply chunk_cid_text. } { eapply json_text_cid, CalculateCid_Sum, Hcid. }
  apply wp_bind, wp_ret.
  destruct (RpcReq_ok (MkRpcReq "Sao.Upload" [bytes_string b])) as (rb & -> & Urb);
    [apply json_text_methods|by constructor|].
  apply wp_bind, wp_ret.
  pose proof (HandleStream_spec k b rb s Hk Hrec Ub Urb) as [Hsafe Hlive].
  destruct (handle peer rb s) as [o s'] eqn:Eh. cbn [fst snd] in *.
  apply wp_bind, wp_call; intros buf s2 Ex.
  - destruct (Hserves rb s buf s2 Ex) as (o' & Eh' & ->). rewrite Eh in Eh'. injection Eh' as -> <-.
    destruct (Hsafe o' eq_refl) as (resp & Ur & Hd). rewrite Ur. apply wp_bind, wp_ret.
    assert (lossless peer -> roomy (W := W) StagingPath StagingSapceSize -> live_s s -> known_s k s ->
      Z.of_nat (length content) mod CHUNK_SIZE <> 0 -> rps_Error resp = "" /\
      rps_Data resp = chunk_cid content k /\ after_chunk k s' /\ ((k < nch)%nat -> live_s s' /\ known_s (S k) s')) as Hl.
    { intros _ Hr Hli Hkn Hmod. destruct (Hlive Hr Hli Hkn Hmod) as (out & resp' & [= <-] & Ur' & Hrest).
      rewrite Ur in Ur'. by injection Ur' as <-. }
    destruct (String.eqb_spec (rps_Error resp) "") as [Ee|Ee]; cbn [negb].
    + apply wp_ret. split; [auto|]. intros Hls Hr Hli Hkn Hmod.
      destruct (Hl Hls Hr Hli Hkn Hmod) as (_ & -> & ?). done.
    + apply wp_fail. split; [done|]. intros Hls Hr Hli Hkn Hmod. by destruct (Hl Hls Hr Hli Hkn Hmod).
  - split; [done|]. intros Hls Hr Hli Hkn Hmod.
    destruct (Hlive Hr Hli Hkn Hmod) as (out & resp & -> & _). rewrite (Hls _ _ _ _ Eh) in Ex. discriminate Ex.
Qed.

(** The loop from chunk [k] on. *)
Lemma send_chunks_spec fuel k s :
  serves peer -> (k <= nch)%nat -> (nch < k + fuel)%nat -> received_s k s ->
  wp (send_chunks (K := K) fuel content c (Z.of_nat k)) s (fun o s' =>
    (match o with
     | Ret _ => Z.of_nat (length content) mod CHUNK_SIZE <> 0 /\ staged_s s'
     | Fail _ => True
     | _ => False
     end) /\
    (lossless peer -> roomy (W := W) StagingPath StagingSapceSize -> live_s s -> known_s k s ->
     Z.of_nat (length content) mod CHUNK_SIZE <> 0 -> o = Ret tt)).
Proof.
  intros Hserves. revert k s. induction fuel as [|fuel IH]; intros k s Hk Hf Hrec; [lia|]. cbn [send_chunks].
  pose proof (total_chunks_bounds content) as [Hpos _].
  assert (Z.of_nat nch = total_chunks content) as En by (unfold nchunks; lia).
  destruct (Z.ltb_spec (total_chunks content) (Z.of_nat k)); [lia|].
  fold (chunk content k). destruct (CalculateCid_total (chunk content k)) as [ck Ek].
  assert (cid_String ck = chunk_cid content k) as Et by (unfold chunk_cid; by rewrite Ek).
  destruct (chunk_cid_text content k) as [[Hne _] _].
  rewrite Ek. apply wp_bind, wp_ret, wp_bind. eapply wp_mono; [by apply send_chunk_spec|].
  intros [t|e| |] s' (Ht & Hl); [rewrite Et| |done..].
  2: { split; [done|]. intros H1' H2' H3' H4' H5'. by destruct (Hl H1' H2' H3' H4' H5'). }
  assert (t = "" -> forall P : Prop, lossless peer -> roomy (W := W) StagingPath StagingSapceSize -> live_s s ->
    known_s k s -> Z.of_nat (length content) mod CHUNK_SIZE <> 0 -> P) as Habs.
  { intros -> P Ha Hb' Hc' Hd He. destruct (Hl Ha Hb' Hc' Hd He) as [[= Ex] _]. by rewrite Ex in Hne. }
  destruct (String.eqb_spec t (chunk_cid content k)) as [->|Hneq].
  - destruct Ht as [Ht|[_ Haft]]; [done|]. unfold after_chunk in Haft, Hl.
    replace (Z.of_nat k + 1) with (Z.of_nat (S k)) by lia.
    destruct (decide (chunk content k = [])) as [Enil|Hcne].
    + destruct Haft as [Hall Hst]. assert (k = nch) as ->.
      { destruct (decide (k = nch)) as [|Hx]; [done|]. destruct (Hall k); [lia|done]. }
      assert (send_chunks (K := K) fuel content c (Z.of_nat (S nch)) s' = (Ret tt, s')) as Eend.
      { destruct fuel; cbn [send_chunks]; (destruct (Z.ltb_spec (total_chunks content) (Z.of_nat (S nch))); [done|lia]). }
      unfold wp. rewrite Eend. split; [|done]. split; [by apply all_nonempty|done].
    + assert (k < nch)%nat as Hlt.
      { apply chunk_nonempty in Hcne; [|done..]. pose proof (total_chunks_bounds content).
        pose proof CHUNK_SIZE_range. nia. }
      eapply wp_mono; [apply (IH (S k)); [lia|lia|exact Haft]|]. intros o s2 [Ho Hlo]. split; [exact Ho|].
      intros Ha Hb' Hc' Hd He. destruct (Hl Ha Hb' Hc' Hd He) as (_ & _ & Hnext).
      destruct (Hnext Hlt) as [Hl' Hk']. by apply Hlo.
  - destruct Ht as [->|[? _]]; [|done]. replace (String.eqb "" (cid_String c)) with false.
    + apply wp_fail. split; [done|]. by apply Habs.
    + symmetry. apply String.eqb_neq. pose proof (cid_Sum_text _ _ (CalculateCid_Sum _ _ Hcid)) as [? _]. congruence.
Qed.
End Content.

(** ** The model of an uploaded file *)

Lemma wp_on_tds {A} (m : GoM T A) s (Q : outcome A -> node -> Prop) :
  wp m (nd_tds s) (fun o t => forall s', untouched s s' -> rs_w (get_rs s') = rs_w (get_rs s) ->
    rs_db (get_rs s') = t -> Q o s') -> wp (on_tds m) s Q.
Proof. intros Hm. apply wp_zoom. eapply wp_mono; [exact Hm|]. intros o t HQ. by apply HQ. Qed.

Lemma wp_on_world {A} (c : call W A) s (Q : outcome A -> node -> Prop) :
  (forall r w' s', c (rs_w (get_rs s)) = (r, w') -> untouched s s' -> rs_w (get_rs s') = w' ->
     rs_db (get_rs s') = rs_db (get_rs s) -> Q match r with inl a => Ret a | inr e => Fail e end s') ->
  wp (on_world (invoke c)) s Q.
Proof.
  intros HQ. unfold on_world, on_mm, on_gw. apply wp_zoom, wp_zoom, wp_zoom, wp_call; intros a w' E;
    [apply (HQ (inl a) w')|apply (HQ (inr a) w')]; try done; apply world_set.
Qed.

(** What is kept while the file is read: the manager, the files and the record. *)
Definition reading s s' : Prop :=
  untouched s s' /\ files (rs_w (get_rs s')) = files (rs_w (get_rs s)) /\
  contents (rs_db (get_rs s')) = contents (rs_db (get_rs s)).

(** A model that is created from a file that was uploaded is created with the
    content of the upload: the request is the one with that content, or it fails,
    on a machine or a datastore that fails, and has changed nothing. *)
Theorem uploaded_file_created content c path base req orderProposal orderId s :
  staged content c path base (get_rs s) -> homedir_Expand (W := W) path = inl base ->
  pr_Cid (osp_Proposal orderProposal) = cid_String c ->
  wp (ModelCreateFile EnableCache CacheCapacity ContentLimit req orderProposal orderId) s (fun o s' =>
    (exists e, o = Fail e /\ reading s s' /\ ~ live (get_rs s)) \/
    exists s1, reading s s1 /\
      ModelCreate EnableCache CacheCapacity ContentLimit req orderProposal orderId content s1 = (o, s')).
Proof.
  intros (Hfile & fi & (b & Eb & Ub) & Hp) Hbase Hc. unfold ModelCreateFile. rewrite Hc.
  apply wp_or_else, wp_on_tds. eapply wp_mono; [apply Get_spec|].
  intros [v|e| |] t (Hct & Hrel & Hv) s1 Hu1 Hw1 Ht1; [| |done..].
  2: { apply wp_fail. left. eexists. split; [done|]. split; [split_and!; [done|by rewrite Hw1|by rewrite Ht1]|].
       intros [_ Hr]. destruct Hv as [Hv|Hv]; [by apply Hv|]. unfold file_key in Eb. cbn in Eb. by rewrite Hv in Eb. }
  unfold file_key in Eb. cbn [get_rs rs_db] in Eb. rewrite Eb in Hv. injection Hv as <-.
  apply wp_bind. unfold wrapping. apply wp_or_else. rewrite Ub. apply wp_ret, wp_ret, wp_bind, wp_ret.
  apply wp_bind, wp_or_else. rewrite Hp, Hbase. apply wp_ret, wp_ret.
  apply wp_bind, wp_or_else, wp_on_world. intros r w2 s2 E2 Hu2 Hw2 Ht2.
  rewrite Hw1 in E2. pose proof (Open_spec _ _ _ _ E2) as (Hf2 & Hh2 & Ho2).
  assert (reading s s2) as Hr2 by (split_and!; [by etrans|by rewrite Hw2|by rewrite Ht2, Ht1]).
  destruct r as [f|e].
  2: { apply wp_fail. left. eexists. split; [done|]. split; [done|]. intros [Hl _].
       specialize (Ho2 Hl). by rewrite Hfile in Ho2. }
  apply wp_ret, wp_bind, wp_or_else, wp_on_world. intros r w3 s3 E3 Hu3 Hw3 Ht3. rewrite Hw2 in E3.
  destruct (ReadAll_spec _ _ _ _ _ _ E2 E3) as (Hf3 & _ & Ho3).
  assert (reading s s3) as Hr3.
  { destruct Hr2 as (Hu & _ & Hd). split_and!; [by etrans|by rewrite Hw3, Hf3|by rewrite Ht3]. }
  destruct r as [ct|e].
  2: { apply wp_fail. left. eexists. split; [done|]. split; [done|]. intros [Hl _].
       specialize (Ho3 Hl). by rewrite Hfile in Ho3. }
  rewrite Hfile in Ho3. injection Ho3 as <-. apply wp_ret. right. exists s3. split; [done|].
  unfold wp. apply surjective_pairing.
Qed.

(** ** The client *)

(** The loop ends: the fuel is enough. *)
Lemma send_chunks_ends fuel content c k s :
  total_chunks content < k + Z.of_nat fuel ->
  wp (send_chunks (K := K) (R := node) fuel content c k) s (fun o _ =>
    match o with Ret _ | Fail _ => True | _ => False end).
Proof.
  assert (forall ck k ch s, wp (send_chunk (K := K) (R := node) content c ck k ch) s (fun o _ =>
    match o with Ret _ | Fail _ => True | _ => False end)) as Hone.
  { intros ck k0 ch s0. enough (safe (send_chunk (K := K) (R := node) content c ck k0 ch)) as E by apply E.
    unfold send_chunk. go_safe. }
  revert k s. induction fuel as [|fuel IH]; intros k s Hf; cbn [send_chunks];
    (destruct (Z.ltb_spec (total_chunks content) k); [done|]); [lia|].
  destruct (CalculateCid_total (chunk_of content k)) as [ck ->]. apply wp_bind, wp_ret, wp_bind.
  eapply wp_mono; [apply Hone|]. intros [t|e| |] s' Ht; [|done..].
  destruct (String.eqb _ _); [apply IH; lia|]. by destruct (_ && _).
Qed.

Lemma fetchKey_safe repo : safe (fetchKey (K := K) (R := node) repo).
Proof. unfold fetchKey. go_safe. Qed.

(** A step on the machine of the client. *)
Lemma wp_local {A} (m : GoM K A) k s (Q : outcome A -> K * node -> Prop) :
  safe m -> (forall a k', m k = (Ret a, k') -> Q (Ret a) (k', s)) -> (forall e k', Q (Fail e) (k', s)) ->
  wp (local m) (k, s) Q.
Proof.
  intros Hm Hr Hf. apply wp_zoom. specialize (Hm k). unfold wp. cbn [fst snd].
  destruct (m k) as [[a|e| |] k'] eqn:E; [by apply Hr|apply Hf|done..].
Qed.

Lemma invoke_Ret {V A} (c : call V A) w a w' : invoke c w = (Ret a, w') -> c w = (inl a, w').
Proof. unfold invoke. by destruct (c w) as [[] ?]; intros [= -> ->]. Qed.

(** The client read the content from the file. *)
Definition client_read (fpath : string) (k : K) (content : bytes) : Prop :=
  exists f k1 k2 k3, os_Open fpath k = (inl f, k1) /\ io_ReadAll f k2 = (inl content, k3).

(** C9: whatever fails on the way, the client is done in the end; and when it is
    given an identifier, that is the one of the content it has read, and, unless
    the upload met a record of other chunks or a collision, the node has the whole
    content under it, in the directory its record names.  A content whose length is
    a multiple of the size of a chunk is never taken. *)
Theorem upload_staged repo addr pid fpath peer k s :
  serves peer ->
  wp (DoTransport (K := K) (R := node) repo addr pid fpath) (k, s) (fun o (s' : K * node) =>
    exists c, o = Ret c /\ (c = Undef \/ exists content, client_read fpath k content /\
      CalculateCid content = inl c /\
      forall base, upload_start peer content c base s ->
        Z.of_nat (length content) mod CHUNK_SIZE <> 0 /\
        staged content c (path_Join [peer_dir StagingPath peer; cid_String c]) base (get_rs s'.2))).
Proof.
  intros Hserves. unfold DoTransport, undef_on_error. apply wp_or_else.
  apply wp_bind, wp_local; [apply safe_invoke| |by intros; apply wp_ret; eauto].
  intros f k1 Ef. apply invoke_Ret in Ef.
  apply wp_bind. destruct (NewMultiaddr addr) as [a|]; [apply wp_ret|by apply wp_ret; eauto].
  apply wp_bind. destruct (peer_Decode pid) as [p|]; [apply wp_ret|by apply wp_ret; eauto].
  apply wp_bind, wp_local; [apply fetchKey_safe| |by intros; apply wp_ret; eauto].
  intros [key|] k2 _; [|by apply wp_ret; eauto].
  apply wp_bind, wp_local; [apply safe_invoke| |by intros; apply wp_ret; eauto]. intros tr k3 _.
  apply wp_bind, wp_local; [apply safe_invoke| |by intros; apply wp_ret; eauto]. intros _u k4 _.
  unfold send_file. apply wp_bind, wp_local; [apply safe_invoke| |by intros; apply wp_ret; eauto].
  intros content k5 Er. apply invoke_Ret in Er.
  destruct (CalculateCid content) as [c|e] eqn:Ec; [|by apply wp_ret; eauto].
  apply wp_bind, wp_ret, wp_bind, wp_zoom. cbn [snd].
  pose proof (total_chunks_bounds content) as [Hpos _].
  pose proof (send_chunks_ends (Z.to_nat (total_chunks content) + 1) content c 0 s ltac:(lia)) as Hend. unfold wp in *.
  destruct (send_chunks _ content c 0 s) as [[[]|e| |] s'] eqn:Es; cbn [fst snd] in *; [|by exists Undef; split; [|left]|done..].
  exists c. split; [done|]. right. exists content. split; [by exists f, k1, k4, k5|]. split; [done|].
  intros base [Hm _ Hcol Hpt Hb Hh Hn].
  pose proof (send_chunks_spec peer content c base Hm Ec Hcol Hpt Hb (Z.to_nat (total_chunks content) + 1) 0 s
    Hserves ltac:(lia) ltac:(unfold nchunks; lia)) as Hspec.
  unfold wp in Hspec. change (Z.of_nat 0) with 0 in Hspec. rewrite Es in Hspec. cbn [fst snd] in Hspec.
  apply Hspec. split; [done|]. split; [intros j Hj; lia|done].
Qed.

(** C21: when nothing fails, neither the machine of the node nor its datastore nor the
    connection, and there is room for a chunk, then a content whose length is no
    multiple of the size of a chunk is taken. *)
Theorem upload_succeeds peer content c base f k k' s :
  serves peer -> lossless peer -> roomy (W := W) StagingPath StagingSapceSize -> live (get_rs s) ->
  upload_start peer content c base s -> Z.of_nat (length content) mod CHUNK_SIZE <> 0 ->
  io_ReadAll f k = (inl content, k') ->
  exists s', send_file f (k, s) = (Ret c, (k', s')) /\
    staged content c (path_Join [peer_dir StagingPath peer; cid_String c]) base (get_rs s').
Proof.
  intros Hserves Hls Hroom Hlive [Hm Hcid Hcol Hpt Hb Hh Hn] Hmod Hread.
  pose proof (total_chunks_bounds content) as [Hpos _].
  pose proof (send_chunks_spec peer content c base Hm Hcid Hcol Hpt Hb (Z.to_nat (total_chunks content) + 1) 0 s
    Hserves ltac:(lia) ltac:(unfold nchunks; lia)) as Hspec.
  unfold wp in Hspec. change (Z.of_nat 0) with 0 in Hspec.
  destruct (send_chunks _ content c 0 s) as [o s'] eqn:Es. cbn [fst snd] in Hspec.
  destruct Hspec as [Hst Hok]; [split; [done|]; split; [intros j Hj; lia|done]|].
  assert (o = Ret tt) as -> by (apply Hok; [done..|intros Hlt; lia|done]). destruct Hst as [_ Hst].
  exists s'. split; [|done].
  unfold send_file, bind, local, remote, zoom, invoke. cbn [fst snd]. rewrite Hread, Hcid. cbn [lift ret fst snd].
  by rewrite Es.
Qed.
End Session.
