(* ===== verification/Indexer.v ===== *)
(** * The indexer ([node/indexer/index_service.go], [node/indexer/jobs])

    The index service runs jobs that copy what the chain has into tables of a SQL
    database: the models of some platforms, and the shards of some storage nodes.
    A job reads the chain page by page, leaves out what its table has already, and
    inserts the rest in statements of 500 rows.

    The database is the interface [SqlDb]; statements are built as texts, as the
    code builds them.  The function of a job, a closure in the code, is one of
    [ExecutionFunc]. *)
From stdpp Require Import base list gmap strings.
From Stdlib Require Import ZArith Lia Ascii.
From S2P Require Import Prelude Types StateUtils Cbor Queue ChainApi Stage Chain NodeApi Client.

(** ** Libraries *)

(** [database/sql]: statements, and queries for one number. *)
Inductive SqlArg := ArgText (s : string) | ArgInt (n : Z).
Class SqlDb (D : Type) := {
  db_Exec : string -> call D unit;
  db_QueryCount : string -> list SqlArg -> call D Z
}.

(** The size of the encoding of a model, and [%s] of a list of strings. *)
Class IndexTexts := { Metadata_Size : Metadata -> Z; Sprint_strings : list string -> string }.

(** ** Jobs ([types/job.go]) *)
Definition JobStatusPending : string := "Pending".
Definition JobStatusRuning : string := "Runing".
Definition JobStatusSuccessed : string := "Successed".
Definition JobStatusFailed : string := "Failed".

Inductive ExecutionFunc := MetadataIndex (platFormIds : string) | SpShardIndex (providers : string).

(** The arguments of a job are always empty and its result is nil. *)
Record Job := MkJob {
  jb_ID : string; jb_Description : string; jb_Status : string;
  jb_ExecFunc : option ExecutionFunc; jb_Error : option error
}.
Definition with_status (status : string) (err : option error) (j : Job) : Job :=
  MkJob (jb_ID j) (jb_Description j) status (jb_ExecFunc j) err.

(** [encoding/json] at the pending requests, with their jobs. *)
Class PendingJson := { Pending_Unmarshal : bytes -> list (OrderInfo * ShardInfo * option Job) + error }.

(** ** Reading the chain and writing a table *)
Section Tables.
Context {T A : Type}.

(** An element that the table does not have and that is wanted is collected. *)
Definition collect (known : A -> GoM T Z) (wanted : A -> bool) (found : list A) (x : A) : GoM T (list A) :=
  count <- known x ;; ret (if 0 <? count then found else if wanted x then found ++ [x] else found).

(** The pages; [fuel] bounds their number. *)
Fixpoint scan (page : Z -> Z -> GoM T (list A * Z)) (known : A -> GoM T Z) (wanted : A -> bool)
    (fuel : nat) (offset limit : Z) (found : list A) : GoM T (list A) :=
  match fuel with
  | O => out_of_fuel
  | S fuel =>
      r <- page offset limit ;;
      if wrap_u64 (offset * limit) <=? snd r then
        found <- fold_m (collect known wanted) found (fst r) ;;
        scan page known wanted fuel (wrap_u64 (offset + 1)) limit found
      else ret found
  end.

(** One more row in the text of the values. *)
Definition add_row (row : A -> string) (valueArgs : string) (x : A) : string :=
  (if String.eqb valueArgs "" then valueArgs else valueArgs +:+ ", ") +:+ row x.

(** A statement is sent after each 500 rows (the first has 501); what is left is the
    text of the last rows. *)
Fixpoint save_rows (exec : string -> GoM T unit) (row : A -> string) (insert : string) (index : nat)
    (valueArgs : string) (l : list A) : GoM T string :=
  match l with
  | [] => ret valueArgs
  | x :: l =>
      let valueArgs := add_row row valueArgs x in
      if (0 <? index)%nat && (Nat.modulo index 500 =? 0)%nat then
        exec (insert +:+ valueArgs) ;; save_rows exec row insert (S index) "" l
      else save_rows exec row insert (S index) valueArgs l
  end.

Definition save (exec : string -> GoM T unit) (row : A -> string) (insert : string) (l : list A) : GoM T unit :=
  if (0 <? length l)%nat then
    valueArgs <- save_rows exec row insert 0 "" l ;;
    if (0 <? String.length valueArgs)%nat then exec (insert +:+ valueArgs) else ret tt
  else ret tt.
End Tables.


(** The files [sqls/*.sql]. *)
Definition createMetadataDBSQL : string := "CREATE TABLE IF NOT EXISTS METADATA (
    COMMITID TEXT,
    DID TEXT,
    CID TEXT,
    DATAID TEXT,
    ALIAS TEXT,
    PLAT TEXT,
    VER TEXT,
    SIZE INT,
    EXPIRATION INT,
    READER TEXT,
    WRITER TEXT,
    PRIMARY KEY(COMMITID)
) WITHOUT ROWID;

CREATE INDEX IF NOT EXISTS index_metadata_did_alias_ver on METADATA(DID);
CREATE INDEX IF NOT EXISTS index_metadata_did_dataid_ver_cid on METADATA(DID);
CREATE INDEX IF NOT EXISTS index_metadata_did_expiration on METADATA(DID);
CREATE INDEX IF NOT EXISTS index_metadata_did_size on METADATA(DID);
CREATE INDEX IF NOT EXISTS index_metadata_plat_owner on METADATA(PLAT);
".
Definition createSpShardDBSQL : string := "CREATE TABLE IF NOT EXISTS SP_SHARD (
    SHARDID INT,
    ORDERID INT,
    SP TEXT,
    CID TEXT,
    PRIMARY KEY(SHARDID)
) WITHOUT ROWID;

CREATE INDEX IF NOT EXISTS index_sp_shard on SP_SHARD(SP);
CREATE INDEX IF NOT EXISTS index_orderid_shard on SP_SHARD(ORDERID);
CREATE INDEX IF NOT EXISTS index_cid_shard on SP_SHARD(CID);
".

(** ** The two jobs *)
Section Jobs.
Context `{!ErrorText, !IndexTexts} {C D : Type} `{!SaoTypes, !CosmosLib C, !UuidLib C, !SqlDb D}.

(** The chain service and the database. *)
Definition on_chain {A} (m : GoM (ch (C := C)) A) : GoM (ch (C := C) * D) A := zoom fst (fun c s => (c, snd s)) m.
Definition on_db {A} (m : call D A) : GoM (ch (C := C) * D) A := zoom snd (fun d s => (fst s, d)) (invoke m).

(** *** Models of platforms *)
Definition insert_metadata : string :=
  "INSERT INTO METADATA (DID, DATAID, ALIAS, PLAT, COMMITID, VER, SIZE, EXPIRATION, READER, WRITER) VALUES ".
Definition metadata_row (meta : Metadata) : string :=
  "(" +:+ quoted (md_Owner meta) +:+ ", " +:+ quoted (md_DataId meta) +:+ ", " +:+ quoted (md_Alias meta) +:+ ", " +:+
  quoted (md_GroupId meta) +:+ ", " +:+ quoted (md_Commit meta) +:+ ", " +:+
  quoted ("v" +:+ format_d (Z.of_nat (length (md_Commits meta)))) +:+ ", " +:+ format_d (Metadata_Size meta) +:+ ", " +:+
  format_d (wrap_u64 (md_CreatedAt meta + md_Duration meta)) +:+ ", " +:+
  quoted (Sprint_strings (md_ReadonlyDids meta)) +:+ ", " +:+ quoted (Sprint_strings (md_ReadwriteDids meta)) +:+ ")".

Definition metadata_known (meta : Metadata) : GoM (ch (C := C) * D) Z :=
  on_db (db_QueryCount "SELECT COUNT(*) FROM METADATA WHERE COMMITID=?" [ArgText (md_Commit meta)]).

Definition metadata_index (fuel : nat) (platFormIds : string) : GoM (ch (C := C) * D) unit :=
  owenedMeta <- scan (fun offset limit => on_chain (ListMeta offset limit)) metadata_known
    (fun meta => Contains platFormIds (md_GroupId meta)) fuel 0 100 [] ;;
  save (fun stmt => on_db (db_Exec stmt)) metadata_row insert_metadata owenedMeta.

Definition BuildMetadataIndexJob (platFormIds : string) : GoM (ch (C := C) * D) Job :=
  ignore (on_db (db_Exec createMetadataDBSQL)) ;;
  id <- on_chain (zoom ch_c (fun c s => Ch c (ch_ap s) (ch_chans s)) (GenerateDataId "job-id")) ;;
  ret (MkJob id "build metadata index for models with specified groupIds" JobStatusPending
         (Some (MetadataIndex platFormIds)) None).

(** *** Shards of storage nodes *)
Definition insert_shard : string := "INSERT INTO SP_SHARD (SHARDID, ORDERID, SP, CID) VALUES ".
Definition shard_row (shard : Shard) : string :=
  "(" +:+ format_d (sh_Id shard) +:+ ", " +:+ format_d (sh_OrderId shard) +:+ ", " +:+ quoted (sh_Sp shard) +:+ ", " +:+
  quoted (sh_Cid shard) +:+ ")".

Definition shard_known (shard : Shard) : GoM (ch (C := C) * D) Z :=
  on_db (db_QueryCount "SELECT COUNT(*) FROM SP_SHARD WHERE ORDERID=? AND SHARDID=?"
           [ArgInt (sh_OrderId shard); ArgInt (sh_Id shard)]).

Definition sp_shard_index (fuel : nat) (providers : string) : GoM (ch (C := C) * D) unit :=
  shards <- scan (fun offset limit => on_chain (ListShards offset limit)) shard_known
    (fun shard => Contains providers (sh_Sp shard)) fuel 0 100 [] ;;
  save (fun stmt => on_db (db_Exec stmt)) shard_row insert_shard shards.

Definition BuildSpShardIndexJob (providers : string) : GoM (ch (C := C) * D) Job :=
  ignore (on_db (db_Exec createSpShardDBSQL)) ;;
  id <- on_chain (zoom ch_c (fun c s => Ch c (ch_ap s) (ch_chans s)) (GenerateDataId "job-id")) ;;
  ret (MkJob id "build sp shard index for order with specified sp address" JobStatusPending
         (Some (SpShardIndex providers)) None).

(** [job.ExecFunc(ctx, job.Args)] *)
Definition run_func (fuel : nat) (f : ExecutionFunc) : GoM (ch (C := C) * D) unit :=
  match f with
  | MetadataIndex platFormIds => metadata_index fuel platFormIds
  | SpShardIndex providers => sp_shard_index fuel providers
  end.

Definition Job_Execute (fuel : nat) (j : Job) : GoM (ch (C := C) * D) unit :=
  f <- deref (jb_ExecFunc j) ;; run_func fuel f.

(** ** The index service

    The requests of the queue are pointers: to a request of their own, or to the
    variable of the loop that reads the pending jobs.  A request has a pointer to its
    job. *)
Inductive request_ptr := Own (r : WorkRequest) | LoopVar.

Context {T : Type} `{!Datastore T}.
Context `{!PendingJson}.

Record ixs := Ixs {
  is_cd : ch (C := C) * D;
  is_jobs : gmap nat Job;         (* the jobs that are pointed to *)
  is_fresh : nat;
  JobsMap : gmap string nat;
  is_queue : list request_ptr;
  is_var : WorkRequest;           (* the variable of the loop *)
  is_jobDs : T
}.
Definition on_cd {A} (m : GoM (ch (C := C) * D) A) : GoM ixs A :=
  zoom is_cd (fun cd s => Ixs cd (is_jobs s) (is_fresh s) (JobsMap s) (is_queue s) (is_var s) (is_jobDs s)) m.
Definition on_sched {A} (m : GoM (list request_ptr) A) : GoM ixs A :=
  zoom is_queue (fun q s => Ixs (is_cd s) (is_jobs s) (is_fresh s) (JobsMap s) q (is_var s) (is_jobDs s)) m.
Definition on_jobDs {A} (m : GoM T A) : GoM ixs A :=
  zoom is_jobDs (fun ds s => Ixs (is_cd s) (is_jobs s) (is_fresh s) (JobsMap s) (is_queue s) (is_var s) ds) m.
Definition set_jobs (f : gmap nat Job -> gmap nat Job) : GoM ixs unit :=
  modify (fun s => Ixs (is_cd s) (f (is_jobs s)) (is_fresh s) (JobsMap s) (is_queue s) (is_var s) (is_jobDs s)).
Definition set_var (r : WorkRequest) : GoM ixs unit :=
  modify (fun s => Ixs (is_cd s) (is_jobs s) (is_fresh s) (JobsMap s) (is_queue s) r (is_jobDs s)).

(** A new job, and the pointer to it. *)
Definition new_job (j : Job) : GoM ixs nat := fun s =>
  (Ret (is_fresh s), Ixs (is_cd s) (<[is_fresh s := j]> (is_jobs s)) (S (is_fresh s)) (JobsMap s) (is_queue s) (is_var s) (is_jobDs s)).
Definition request_of (p : request_ptr) : GoM ixs WorkRequest :=
  match p with Own r => ret r | LoopVar => gets is_var end.
Definition job_at (p : option nat) : GoM ixs (nat * Job) :=
  a <- deref p ;; jobs <- gets is_jobs ;; j <- deref (jobs !! a) ;; ret (a, j).

(** The lock of the job is held from the first to the last statement.  A job without
    a function panics. *)
Definition excute (fuel : nat) (a : nat) (j : Job) : GoM ixs (option error) :=
  set_jobs (alter (with_status JobStatusRuning (jb_Error j)) a) ;;
  f <- deref (jb_ExecFunc j) ;;
  result <- attempt (on_cd (run_func fuel f)) ;;
  match result with
  | inr err => set_jobs (alter (with_status JobStatusFailed (Some err)) a) ;; ret (Some err)
  | inl _ => set_jobs (alter (with_status JobStatusSuccessed (jb_Error j)) a) ;; ret None
  end.

(** A turn of a worker of [runSched]: a job that fails goes back into the queue. *)
Definition run_sched (fuel : nat) : GoM ixs unit :=
  p <- on_sched PopFront ;;
  match p with
  | None => ret tt
  | Some p =>
      sq <- request_of p ;;
      job <- job_at (wr_Job sq) ;;
      if String.eqb (jb_ID (snd job)) "" then ret tt else
      err <- excute fuel (fst job) (snd job) ;;
      match err with
      | Some err =>
          on_sched (Push p) ;;
          set_jobs (alter (fun j => with_status JobStatusPending (jb_Error j) j) (fst job))
      | None => ret tt
      end
  end.

(** The requests are decoded, and the address of the variable of the loop is pushed
    for each of them. *)
Definition decoded_request (r : OrderInfo * ShardInfo * option Job) : GoM ixs WorkRequest :=
  p <- match snd r with Some j => a <- new_job j ;; ret (Some a) | None => ret None end ;;
  ret (MkWorkRequest (fst (fst r)) (snd (fst r)) p).

Definition processPendingJobs : GoM ixs unit :=
  value <- attempt (on_jobDs (ds_Get (NewKey "pending_jobs"))) ;;
  match value with
  | inr _ => ret tt
  | inl value =>
      match Pending_Unmarshal value with
      | inr _ => ret tt
      | inl pendingJobs =>
          requests <- fold_m (fun l r => x <- decoded_request r ;; ret (l ++ [x])) [] pendingJobs ;;
          for_each requests (fun job => set_var job ;; on_sched (Push LoopVar))
      end
  end.

End Jobs.
