(* ===== verification/Graphql.v ===== *)
(** * The GraphQL server ([node/indexer/gql])

    The resolvers that answer queries from the tables of the indexer and from the map
    of its jobs.  Rows come from the database as lists of values, in the order of the
    columns of the statement; a resolver scans them into variables of Go. *)
From stdpp Require Import base list gmap strings.
From Stdlib Require Import ZArith Lia Ascii.
From S2P Require Import Prelude Types StateUtils Cbor Queue ChainApi Stage Chain NodeApi Upload Client Indexer.

(** ** Libraries *)

(** A value of a column of type [TEXT] or [INT]. *)
Inductive SqlValue := VNull | VText (s : string) | VInt (n : Z).

(** [database/sql]: the rows of a query, with the error that ended them; one row.  The
    errors of scanning: the column and the value, or the number of columns. *)
Class SqlQuery (D : Type) := {
  db_Query : string -> call D (list (list SqlValue) * option error);
  db_QueryRow : string -> call D (list SqlValue);
  Scan_error : nat -> SqlValue -> error;
  Scan_count : nat -> nat -> error
}.

(** [uuid.UnmarshalText], with the text of the identifier. *)
Class UuidText := { uuid_UnmarshalText : string -> string + error }.

(** [graphql-go]: parsing the schema with its resolvers, and the HTTP server. *)
Class GraphqlLib (W : Type) := {
  graphql_ParseSchema : call W unit;
  http_ListenAndServe : string -> call W unit;
  http_Shutdown : call W unit
}.

(** Numbers of type [float64]. *)
Class Float64Lib := { float64 : Type; above_MaxUint64 : float64 -> bool; float_to_uint64 : float64 -> Z; Sprintf_f : float64 -> string }.

(** *** Scanning: [convertAssign] for the types of the resolvers *)
Definition as_string (v : SqlValue) : option string :=
  match v with VNull => None | VText s => Some s | VInt n => Some (format_d n) end.
(** [strconv.ParseInt(s, 10, 32)] *)
Definition as_int32 (v : SqlValue) : option Z :=
  s ← as_string v; n ← ParseInt s; if (-2147483648 <=? n) && (n <=? 2147483647) then Some n else None.
Definition as_uint64 (v : SqlValue) : option Z := s ← as_string v; ParseUint s.

(** ** The scalar [Uint64] *)
Inductive gql_input `{!Float64Lib} :=
| InUint64 (n : Z) | InString (s : string) | InBytes (b : bytes) | InInt32 (n : Z) | InInt64 (n : Z)
| InFloat64 (x : float64) | InOther (type : string).

Definition ImplementsGraphQLType (name : string) : bool := String.eqb name "Uint64".

Definition parse_uint (s : string) : Z + error :=
  match ParseUint s with Some n => inl n | None => inr (EText "strconv.ParseUint") end.
Definition no_negative (n : Z) : Z + error :=
  if n <? 0 then inr (EText ("cannot cast negative number " +:+ format_d n +:+ " to uint64")) else inl n.
Definition UnmarshalGraphQL `{!Float64Lib} (input : gql_input) : Z + error :=
  match input with
  | InUint64 n => inl n
  | InString s => parse_uint s
  | InBytes b => parse_uint (bytes_string b)
  | InInt32 n => no_negative n
  | InInt64 n => no_negative n
  | InFloat64 x => if above_MaxUint64 x then inr (EText ("float64 " +:+ Sprintf_f x +:+ " too large to fit in uint64"))
                   else inl (float_to_uint64 x)
  | InOther type => inr (EText ("wrong type for uint64: " +:+ type))
  end.
Definition Uint64_MarshalJSON (n : Z) : bytes :=
  string_bytes ("{" +:+ quoted "__typename" +:+ ": " +:+ quoted "BigInt" +:+ ", " +:+ quoted "n" +:+ ": " +:+ quoted (format_d n) +:+ "}").

(** ** Results of queries *)
Record gjob := MkGjob { gj_JobId : string; gj_Description : string; gj_Status : string }.
Record gmetadata := MkGmetadata {
  gm_CommitId : string; gm_Did : string; gm_DataId : string; gm_Alias : string; gm_Cid : string; gm_GroupId : string;
  gm_Version : string; gm_Size : Z; gm_Expiration : Z; gm_Readers : string; gm_Writers : string
}.
Record gshard := MkGshard { gs_ShardId : Z; gs_OrderId : Z; gs_Sp : string; gs_Cid : string }.

(** A list with its total count, an [int32]; there are never more. *)
Record glist (A : Type) := MkGlist { gl_TotalCount : Z; gl_Items : list A; gl_More : bool }.
Arguments MkGlist {A}.
Arguments gl_Items {A}.
Arguments gl_TotalCount {A}.
Definition all_of {A} (l : list A) : glist A := MkGlist (wrap_i32 (Z.of_nat (length l))) l false.

(** [graphql.NullString]: whether the argument was given, and its value. *)
Record NullString := MkNullString { ns_Value : option string; ns_Set : bool }.
(** What the argument adds to the statement. *)
Definition given (q : NullString) : string :=
  if ns_Set q then match ns_Value q with Some v => v | None => "" end else "".

Definition invalid_id (id : string) (err : error) : error :=
  EWrapText ("parsing graphql ID '" +:+ id +:+ "' as UUID") err.

Definition meta_columns : string := "COMMITID, DID, CID, DATAID, ALIAS, PLAT, VER, SIZE, EXPIRATION, READER, WRITER".
Definition metadata_query (commitId : string) : string :=
  "SELECT " +:+ meta_columns +:+ " FROM METADATA WHERE COMMITID=" +:+ commitId.
Definition metadatas_query : string := "SELECT " +:+ meta_columns +:+ " FROM METADATA ".
(** The statement has no table. *)
Definition shard_query (shardId : string) : string := "SELECT SHARDID, ORDERID, SP, CID WHERE COMMITID=" +:+ shardId.
Definition shards_query : string := "SELECT SHARDID, ORDERID, SP, CID WRITER FROM SP_SHARD ".

Section Graphql.
Context `{!ErrorText, !IndexTexts, !GoRange, !UuidText, !Float64Lib} {C D T : Type}.
Context `{!SaoTypes, !CosmosLib C, !UuidLib C, !SqlDb D, !SqlQuery D, !Datastore T, !PendingJson}.
Abbreviation service := (ixs (C := C) (D := D) (T := T)).
Definition in_db {A} (c : call D A) : GoM service A := on_cd (on_db c).

(** A variable for the value of a column. *)
Definition column {A} (i : nat) (v : SqlValue) (conv : SqlValue -> option A) : GoM service A :=
  match conv v with Some x => ret x | None => fail (Scan_error i v) end.

(** The columns are in the order of the statement, and the fields of the record in
    that of the variables, which is not the order of its fields. *)
Definition scan_metadata (row : list SqlValue) : GoM service gmetadata :=
  match row with
  | [commitId; did; cid; dataId; alias; groupId; version; size; expiration; readers; writers] =>
      CommitId <- column 0 commitId as_string ;;
      Did <- column 1 did as_string ;;
      Cid <- column 2 cid as_string ;;
      DataId <- column 3 dataId as_string ;;
      Alias <- column 4 alias as_string ;;
      GroupId <- column 5 groupId as_string ;;
      Version <- column 6 version as_string ;;
      Size <- column 7 size as_int32 ;;
      Expiration <- column 8 expiration as_uint64 ;;
      Readers <- column 9 readers as_string ;;
      Writers <- column 10 writers as_string ;;
      ret (MkGmetadata CommitId Did Cid DataId Alias GroupId Version Size Expiration Readers Writers)
  | _ => fail (Scan_count (length row) 11)
  end.
Definition scan_shard (row : list SqlValue) : GoM service gshard :=
  match row with
  | [shardId; orderId; sp; cid] =>
      ShardId <- column 0 shardId as_uint64 ;;
      OrderId <- column 1 orderId as_uint64 ;;
      Sp <- column 2 sp as_string ;;
      Cid <- column 3 cid as_string ;;
      ret (MkGshard ShardId OrderId Sp Cid)
  | _ => fail (Scan_count (length row) 4)
  end.

(** *** Resolvers *)
Definition rows_of {A} (scan : list SqlValue -> GoM service A) (query : string) : GoM service (glist A) :=
  rows <- in_db (db_Query query) ;;
  l <- fold_m (fun l row => x <- scan row ;; ret (l ++ [x])) [] (fst rows) ;;
  match snd rows with Some err => fail err | None => ret (all_of l) end.

Definition Metadata_ (ID : string) : GoM service gmetadata :=
  try commitId <- lift (uuid_UnmarshalText ID) catch err => fail (invalid_id ID err) ;;
  row <- in_db (db_QueryRow (metadata_query commitId)) ;;
  scan_metadata row.
Definition Metadatas (Query : NullString) : GoM service (glist gmetadata) :=
  rows_of scan_metadata (metadatas_query +:+ given Query).
Definition MetadataCount : GoM service Z := ret 0.
Definition metadata_ID (m : gmetadata) : string := gm_CommitId m.

Definition Shard_ (ID : string) : GoM service gshard :=
  try shardId <- lift (uuid_UnmarshalText ID) catch err => fail (invalid_id ID err) ;;
  row <- in_db (db_QueryRow (shard_query shardId)) ;;
  scan_shard row.
Definition Shards (Query : NullString) : GoM service (glist gshard) :=
  rows_of scan_shard (shards_query +:+ given Query).
Definition ShardCount : GoM service Z := ret 0.
Definition shard_ID (s : gshard) : GoM service string :=
  on_cd (on_chain (zoom ch_c (fun c s => Ch c (ch_ap s) (ch_chans s)) (GenerateDataId (format_d (gs_ShardId s))))).

(** The job of a pointer. *)
Definition job_of (jobId : string) (a : nat) : GoM service gjob :=
  jobs <- gets is_jobs ;; j <- deref (jobs !! a) ;; ret (MkGjob jobId (jb_Description j) (jb_Status j)).
Definition Job_ (ID : string) : GoM service gjob :=
  try jobId <- lift (uuid_UnmarshalText ID) catch err => fail (invalid_id ID err) ;;
  m <- gets JobsMap ;;
  match m !! jobId with
  | None => fail (EText ("no job[" +:+ jobId +:+ "] found"))
  | Some a => job_of jobId a
  end.
(** The argument is not used. *)
Definition Jobs (Query : NullString) : GoM service (glist gjob) :=
  m <- gets JobsMap ;;
  l <- fold_m (fun l e => j <- job_of (fst e) (snd e) ;; ret (l ++ [j])) [] (range m) ;;
  ret (all_of l).
Definition job_ID (m : gjob) : string := gj_JobId m.
End Graphql.

(** ** The server

    A server has no HTTP server before it is started. *)
Section Server.
Context {W : Type} `{!GraphqlLib W}.

Record Server := MkServer { sv_w : W; listenAddr : string; sv_srv : option string }.
Definition on_sv {A} (m : GoM W A) : GoM Server A := zoom sv_w (fun w s => MkServer w (listenAddr s) (sv_srv s)) m.

(** The HTTP server listens in a goroutine; an error of it ends the process. *)
Definition Server_Start : GoM Server unit :=
  on_sv (invoke graphql_ParseSchema) ;;
  modify (fun s => MkServer (sv_w s) (listenAddr s) (Some (listenAddr s))) ;;
  addr <- gets listenAddr ;;
  on_sv (invoke (http_ListenAndServe addr)).
Definition Server_Stop : GoM Server unit :=
  srv <- gets sv_srv ;; _addr <- deref srv ;; on_sv (invoke http_Shutdown).

(** [corsHandler]: the headers of a response, and whether it ends there. *)
Definition cors_headers : list (string * string) :=
  [("Access-Control-Allow-Origin", "*"); ("Access-Control-Allow-Methods", "POST, GET, OPTIONS, DELETE, PUT");
   ("Access-Control-Allow-Headers", "*")].
Definition cors_ServeHTTP {R} (sub : string -> R) (method : string) : list (string * string) * (bytes + R) :=
  (cors_headers, if String.eqb method "OPTIONS" then inl (string_bytes "OK") else inr (sub method)).
End Server.
