(* ===== verification/Config.v ===== *)
(** * The configuration of a node ([node/config/types.go], [def.go], [load.go],
      [doc_gen.go], [utils/toml.go])

    The configuration is written as a TOML text in which the lines that the default
    configuration has too are comments ([ConfigUpdate]); it is read over the default
    values.  TOML and the overrides by the environment are libraries.

    A slice of a configuration is a list, so a nil slice and an empty one are the same
    here, and the test that the updated configuration is the current one
    ([reflect.DeepEqual]) is equality.  The configurations that are written are the
    default one with another address and pool size ([initConfig], the only caller of
    [ConfigUpdate]); none of their slices is nil.  A caller with a nil slice where the
    default has an empty one would be refused by the code, and is not by the model. *)
From stdpp Require Import base list gmap strings.
From Stdlib Require Import ZArith Lia Ascii.
From S2P Require Import Prelude Types ChainApi Stage Chain NodeApi Upload.

(** ** Texts: what the code uses of [strings]

    A text is UTF-8; [space_len] is the number of bytes of the space that a text
    starts with ([unicode.IsSpace]), or 0. *)
Definition is_byte (n : nat) (c : ascii) : bool := Nat.eqb (nat_of_ascii c) n.
Definition byte_in (lo hi : nat) (c : ascii) : bool := Nat.leb lo (nat_of_ascii c) && Nat.leb (nat_of_ascii c) hi.
Definition space1 (c : ascii) : bool := byte_in 9 13 c || is_byte 32 c.
Definition space2 (c d : ascii) : bool := is_byte 194 c && (is_byte 133 d || is_byte 160 d).
Definition space3 (c d e : ascii) : bool :=
  is_byte 225 c && is_byte 154 d && is_byte 128 e ||
  is_byte 226 c && is_byte 128 d && (byte_in 128 138 e || is_byte 168 e || is_byte 169 e || is_byte 175 e) ||
  is_byte 226 c && is_byte 129 d && is_byte 159 e ||
  is_byte 227 c && is_byte 128 d && is_byte 128 e.
Definition space_len (s : string) : nat :=
  match s with
  | String c s1 =>
      if space1 c then 1%nat else
      match s1 with
      | String d s2 =>
          if space2 c d then 2%nat else
          match s2 with String e _ => if space3 c d e then 3%nat else 0%nat | "" => 0%nat end
      | "" => 0%nat
      end
  | "" => 0%nat
  end.

(** [skip] bytes of a space are still to be dropped. *)
Fixpoint trim_left (skip : nat) (s : string) : string :=
  match s with
  | "" => ""
  | String c s' =>
      match skip with
      | S skip => trim_left skip s'
      | O => match space_len s with S skip => trim_left skip s' | O => s end
      end
  end.
(** [strings.TrimLeftFunc(s, unicode.IsSpace)] *)
Definition TrimLeft (s : string) : string := trim_left 0 s.
Fixpoint TrimRight (s : string) : string :=
  match s with
  | "" => ""
  | String c s' => if String.eqb (TrimLeft s) "" then "" else String c (TrimRight s')
  end.
Definition TrimSpace (s : string) : string := TrimRight (TrimLeft s).

(** [strings.Fields]; [word] is the word that has been read in part. *)
Fixpoint fields_from (skip : nat) (word s : string) : list string :=
  let done := if String.eqb word "" then [] else [word] in
  match s with
  | "" => done
  | String c s' =>
      match skip with
      | S skip => fields_from skip word s'
      | O => match space_len s with
             | S skip => done ++ fields_from skip "" s'
             | O => fields_from 0 (word +:+ String c "") s'
             end
      end
  end.
Definition Fields (s : string) : list string := fields_from 0 "" s.

(** [strings.Repeat(" ", n)] *)
Fixpoint spaces (n : nat) : string := match n with O => "" | S n => String " " (spaces n) end.

Definition newline : ascii := "010".
Definition nl : string := String newline "".

Definition starts_with (c : ascii) (s : string) : bool :=
  match s with String d _ => Ascii.eqb d c | "" => false end.

(** ** The configuration *)
Record ChainConf := MkChainConf { Remote : string; WsEndpoint : string; TxPoolSize : Z }.
Record Libp2pConf := MkLibp2pConf { l2p_ListenAddress : list string; AnnounceAddresses : list string }.
Record ModuleConf := MkModuleConf { GatewayEnable : bool; StorageEnable : bool; IndexerEnable : bool }.
Record TransportConf := MkTransportConf { TransportListenAddress : list string; StagingSapceSize : Z }.
Record CacheConf := MkCacheConf {
  EnableCache : bool; CacheCapacity : Z; ContentLimit : Z; RedisConn : string; RedisPassword : string;
  RedisPoolSize : Z; MemcachedConn : string
}.
Record HttpConf := MkHttpConf {
  http_Enable : bool; http_Address : string; EnableHttpFileServerLog : bool; HttpFileServerPath : string;
  http_TokenPeriod : Z; http_CacheSize : Z
}.
Record ApiConf := MkApiConf { api_ListenAddress : string; api_Timeout : Z; EnablePermission : bool }.
Record StorageConf := MkStorageConf { AcceptOrder : bool; Ipfs : list string (* [Conn] *) }.
Record IndexerConf := MkIndexerConf { DbPath : string; ix_ListenAddress : string }.

(** [config.Node], with the fields of the embedded [Common]. *)
Record Config := MkConfig {
  cf_Chain : ChainConf; cf_Libp2p : Libp2pConf; cf_Module : ModuleConf; cf_Transport : TransportConf;
  cf_Cache : CacheConf; cf_Http : HttpConf; cf_Api : ApiConf; cf_Storage : StorageConf; cf_SaoIpfs : bool;
  cf_Indexer : IndexerConf
}.
#[global] Instance ChainConf_eq_dec : EqDecision ChainConf.
Proof. solve_decision. Defined.
#[global] Instance Libp2pConf_eq_dec : EqDecision Libp2pConf.
Proof. solve_decision. Defined.
#[global] Instance ModuleConf_eq_dec : EqDecision ModuleConf.
Proof. solve_decision. Defined.
#[global] Instance TransportConf_eq_dec : EqDecision TransportConf.
Proof. solve_decision. Defined.
#[global] Instance CacheConf_eq_dec : EqDecision CacheConf.
Proof. solve_decision. Defined.
#[global] Instance HttpConf_eq_dec : EqDecision HttpConf.
Proof. solve_decision. Defined.
#[global] Instance ApiConf_eq_dec : EqDecision ApiConf.
Proof. solve_decision. Defined.
#[global] Instance StorageConf_eq_dec : EqDecision StorageConf.
Proof. solve_decision. Defined.
#[global] Instance IndexerConf_eq_dec : EqDecision IndexerConf.
Proof. solve_decision. Defined.
#[global] Instance Config_eq_dec : EqDecision Config.
Proof. solve_decision. Defined.

Definition Second : Z := 1000000000.
Definition defCommon : ChainConf * Libp2pConf * TransportConf * ModuleConf :=
  (MkChainConf "http://localhost:26657" "/websocket" 0,
   MkLibp2pConf ["/ip4/0.0.0.0/tcp/5153"] [],
   MkTransportConf ["/ip4/0.0.0.0/udp/5154"] (32 * 1024 * 1024 * 1024),
   MkModuleConf false true false).
Definition DefaultSaoNode : Config :=
  let '(chain, libp2p, transport, module) := defCommon in
  MkConfig chain libp2p module transport
    (MkCacheConf true 1000 (2 * 1024 * 1024) "" "" 0 "")
    (MkHttpConf true "localhost:5152" false "" (24 * 3600 * Second) 0)
    (MkApiConf "/ip4/127.0.0.1/tcp/5151/http" (30 * Second) false)
    (MkStorageConf true []) true
    (MkIndexerConf "~/.sao-node/datastore" "localhost:5155").

(** ** The documentation of the fields ([doc_gen.go]) *)
Record DocField := MkDocField { df_Name : string; df_Type : string; df_Comment : string }.
Definition Doc : list (string * list DocField) := [
  ("API", [MkDocField "ListenAddress" "string" "Binding address for the Sao Node API";
    MkDocField "Timeout" "time.Duration" "";
    MkDocField "EnablePermission" "bool" ""]);
  ("Cache", [MkDocField "EnableCache" "bool" "";
    MkDocField "CacheCapacity" "int" "";
    MkDocField "ContentLimit" "int" "";
    MkDocField "RedisConn" "string" "";
    MkDocField "RedisPassword" "string" "";
    MkDocField "RedisPoolSize" "int" "";
    MkDocField "MemcachedConn" "string" ""]);
  ("Chain", [MkDocField "Remote" "string" "remote connection string";
    MkDocField "WsEndpoint" "string" "websocket endpoint";
    MkDocField "AddressPrefix" "string" "sao chain account prefix"]);
  ("Common", [MkDocField "Chain" "Chain" "";
    MkDocField "Libp2p" "Libp2p" "";
    MkDocField "Module" "Module" "";
    MkDocField "Transport" "Transport" ""]);
  ("Ipfs", [MkDocField "Conn" "string" "ipfs connection string"]);
  ("Libp2p", [MkDocField "ListenAddress" "[]string" "Binding address for the libp2p host - 0 means random port.
Format: multiaddress; see https://multiformats.io/multiaddr/"]);
  ("Module", [MkDocField "GatewayEnable" "bool" "Enable gateway module";
    MkDocField "StorageEnable" "bool" "Enable storage module"]);
  ("Node", [MkDocField "Cache" "Cache" "";
    MkDocField "SaoHttpFileServer" "SaoHttpFileServer" "";
    MkDocField "Api" "API" "";
    MkDocField "Storage" "Storage" "";
    MkDocField "SaoIpfs" "SaoIpfs" ""]);
  ("SaoHttpFileServer", [MkDocField "Enable" "bool" "";
    MkDocField "HttpFileServerAddress" "string" "";
    MkDocField "HttpFileServerPath" "string" "";
    MkDocField "EnableHttpFileServerLog" "bool" "";
    MkDocField "TokenPeriod" "time.Duration" ""]);
  ("SaoIpfs", [MkDocField "Enable" "bool" "Enable in process ipfs instance";
    MkDocField "Repo" "string" "ipfs repo path"]);
  ("Storage", [MkDocField "AcceptOrder" "bool" "if this node is open to accept order shards";
    MkDocField "Ipfs" "[]Ipfs" ""]);
  ("Transport", [MkDocField "TransportListenAddress" "[]string" "";
    MkDocField "StagingPath" "string" "";
    MkDocField "StagingSapceSize" "int64" ""])
].

(** [Doc[name]]; an absent entry is nil. *)
Definition doc_of (name : string) : list DocField :=
  match List.find (fun e => String.eqb e.1 name) Doc with Some e => e.2 | None => [] end.

(** A name of the path that no field has leaves the section. *)
Definition doc_step (docSection : list DocField) (e : string) : list DocField :=
  match List.find (fun field => String.eqb (df_Name field) e) docSection with
  | Some field => doc_of (df_Type field)
  | None => docSection
  end.
Definition findDocSect (root section name : string) : option DocField :=
  List.find (fun df => String.eqb (df_Name df) name) (foldl doc_step (doc_of root) (Split section ".")).
Definition findDoc (section name : string) : option DocField :=
  match findDocSect "Node" section name with Some doc => Some doc | None => findDocSect "Common" section name end.

(** ** Libraries: [BurntSushi/toml], and [envconfig], which reads the environment *)
Class ConfigToml := { Toml_Encode : Config -> string + error; Toml_Decode : string -> Config -> Config + error }.
Class EnvConfig (W : Type) := { env_Process : string -> Config -> call W Config }.

(** ** Writing a configuration *)

(** The greedy expression [\[(.+)]] at a text that starts with a bracket. *)
Fixpoint before_last_bracket (s : string) : option string :=
  match s with
  | "" => None
  | String c s' =>
      match before_last_bracket s' with
      | Some b => Some (String c b)
      | None => if Ascii.eqb c "]" then Some "" else None
      end
  end.
Definition section_name (trimmed : string) : option string :=
  match trimmed with
  | "" => None
  | String _ s => match before_last_bracket s with Some "" => None | r => r end
  end.

(** The lines of the default configuration that set a value. *)
Definition default_lines (defStr : string) : list string :=
  List.filter (fun l => negb (String.eqb l "") && negb (starts_with "#" l) && negb (starts_with "[" l))
    (TrimSpace <$> Split defStr newline).

Definition pad_of (line : string) : string := spaces (String.length line - String.length (TrimLeft line)).

Definition doc_lines (section line : string) : list string :=
  match Fields line with
  | name :: _ :: _ =>
      match findDoc section name with
      | Some doc =>
          (if (0 <? String.length (df_Comment doc))%nat
           then ((fun docLine => pad_of line +:+ "# " +:+ docLine) <$> Split (df_Comment doc) newline) ++ [pad_of line +:+ "#"]
           else []) ++ [pad_of line +:+ "# type: " +:+ df_Type doc]
      | None => []
      end
  | _ => []
  end.

(** A line that is a default is commented out; a line that is not empty is followed
    by an empty one. *)
Definition out_lines (defaults : option (list string)) (section line : string) : list string :=
  let found := match defaults with Some l => bool_decide (TrimSpace line ∈ l) | None => true end in
  let out := if found && (0 <? String.length line)%nat then pad_of line +:+ "#" +:+ TrimLeft line else line in
  doc_lines section line ++ [out] ++ (if (0 <? String.length out)%nat then [""] else []).

Fixpoint comment_lines (defaults : option (list string)) (i : nat) (section : string) (nodeLines : list string) :
    list string + error :=
  match nodeLines with
  | [] => inl []
  | line :: rest =>
      let trimmed := TrimSpace line in
      let '(section, out) :=
        if starts_with "[" trimmed then (section_name trimmed, [line])
        else (Some section, out_lines defaults section line) in
      match section with
      | None => inr (Wrapf ErrInvalidConfig ("section didn't match (line " +:+ format_d (Z.of_nat i) +:+ ")"))
      | Some section =>
          match comment_lines defaults (S i) section rest with
          | inl outLines => inl (out ++ outLines)
          | inr err => inr err
          end
      end
  end.

Section Config.
Context `{!ErrorText, !ConfigToml} {W : Type} `{!EnvConfig W}.

(** [config.FromReader] *)
Definition FromReader (text : string) (def : Config) : GoM W Config :=
  cfg <- lift (Toml_Decode text def) ;;
  try cfg <- invoke (env_Process "SAO" cfg)
    catch err => fail (Wrapf ErrInvalidConfig ("processing env vars overrides: " +:+ Error err)) ;;
  ret cfg.

Definition encoded (cfg : Config) : GoM W string := wrapping ErrEncodeConfigFailed (lift (Toml_Encode cfg)).

Definition ConfigUpdate (cfgCur : Config) (cfgDef : option Config) (comment : bool) : GoM W string :=
  defStr <- match cfgDef with Some def => encoded def | None => ret "" end ;;
  nodeStr <- encoded cfgCur ;;
  nodeStr <- (if comment then
                let defaults := match cfgDef with Some _ => Some (default_lines defStr) | None => None end in
                outLines <- lift (comment_lines defaults 0 "" (Split nodeStr newline)) ;;
                ret (String.concat nl outLines)
              else ret nodeStr) ;;
  (match cfgDef with
   | Some def =>
       cfgUpdated <- wrapping ErrDecodeConfigFailed (FromReader nodeStr def) ;;
       if bool_decide (cfgCur = cfgUpdated) then ret tt
       else fail (Wrapf ErrInvalidConfig "updated config didn't match current config")
   | None => ret tt
   end) ;;
  ret nodeStr.

Definition ConfigComment (cfg : Config) : GoM W string := ConfigUpdate cfg None true.

(** [utils.FromReader] and [utils.FromFile]: the environment is not read. *)
Definition node_FromReader (text : string) (def : Config) : GoM W Config := lift (Toml_Decode text def).
Definition node_FromFile `{!StatFiles W, !OpenFiles W} (path : string) (def : Config) : GoM W Config :=
  file <- attempt (invoke (os_Open path)) ;;
  match file with
  | inr err => if os_IsNotExist err then ret def else fail err
  | inl file => content <- invoke (io_ReadAll file) ;; node_FromReader (bytes_string content) def
  end.
(** [utils.NodeBytes] *)
Definition NodeBytes (cfg : Config) : GoM W bytes := text <- lift (Toml_Encode cfg) ;; ret (string_bytes text).
End Config.
