(* ===== verification/Repo.v ===== *)
(** * The repository of a node ([node/repo/repo.go], [fsrepo_ds.go])

    A directory with the configuration, a directory [keystore] with the key of the
    node, and the datastores.  The presence of [keystore] says that a repository is
    initialized. *)
From stdpp Require Import base list gmap strings.
From Stdlib Require Import ZArith Lia Ascii.
From S2P Require Import Prelude Types ChainApi Stage Chain NodeApi Upload Config.

Definition fsConfig : string := "config.toml".
Definition fsKeystore : string := "keystore".
Definition fsLibp2pKey : string := "libp2p.key".
Definition fsDatastore : string := "datastore".
Definition dsNsMetadata : string := "metadata".
Definition dsNsOrder : string := "order".
Definition dsNsTransport : string := "transport".
Definition dsNsIndexer : string := "indexer".

Definition ErrRepoExists : error := Wrapf ErrStatFailed "repo exists".

(** ** Libraries *)

(** [os.Mkdir]; the keys of [libp2p/core/crypto]. *)
Class RepoLib (W : Type) := {
  os_Mkdir : string -> call W unit;
  PrivKey : Type;
  GenerateEd25519Key : call W PrivKey;
  MarshalPrivateKey : PrivKey -> bytes + error;
  UnmarshalPrivateKey : bytes -> PrivKey + error
}.

(** The datastores of LevelDB and Badger, in directories; a handle is the path. *)
Inductive dsCtor := levelDs | badgerDs.
Class RepoStores (W : Type) := {
  store_NewKey : string -> string;                       (* [datastore.NewKey(s).String()] *)
  store_Open : dsCtor -> string -> bool -> call W unit;
  store_Get : string -> string -> call W bytes;
  store_Put : string -> string -> bytes -> call W unit;
  store_Delete : string -> string -> call W unit
}.

Definition fsDatastores : gmap string dsCtor :=
  <[dsNsMetadata := levelDs]> (<[dsNsOrder := badgerDs]> (<[dsNsTransport := levelDs]> {[dsNsIndexer := levelDs]})).

Record Repo := MkRepo { rp_Path : string; rp_configPath : string; rp_readonly : bool }.

Section Repo.
Context `{!ErrorText, !GoRange, !ConfigToml} {W : Type}.
Context `{!FileSys W, !StatFiles W, !OpenFiles W, !RepoLib W, !RepoStores W, !EnvConfig W}.

Definition NewRepo (path : string) : GoM W Repo :=
  path <- wrapping ErrInvalidRepoPath (lift (homedir_Expand path)) ;;
  ret (MkRepo path (path_Join [path; fsConfig]) false).

(** [r.join(paths...)] *)
Definition repo_join (r : Repo) (paths : list string) : string := path_Join (rp_Path r :: paths).
Definition keystore_path (r : Repo) : string := path_Join [rp_Path r; fsKeystore].
Definition key_path (r : Repo) : string := path_Join [rp_Path r; fsKeystore; fsLibp2pKey].

(** [os.Stat]: whether the path is there; any other error is one. *)
Definition path_exists (path : string) : GoM W bool :=
  stat <- attempt (invoke (os_Stat path)) ;;
  match stat with
  | inl _ => ret true
  | inr err => if os_IsNotExist err then ret false else fail err
  end.

Definition Exists (r : Repo) : GoM W bool := wrapping ErrOpenFileFailed (path_exists (keystore_path r)).

Definition PrepareRepo (repoPath : string) : GoM W Repo :=
  repo <- NewRepo repoPath ;;
  ok <- Exists repo ;;
  if negb (ok : bool) then
    fail (Wrapf ErrInvalidRepoPath ("repo at '" +:+ repoPath +:+ "' is not initialized, run 'saonode init' to set it up"))
  else ret repo.

(** *** The configuration *)
Definition repo_Config (r : Repo) : GoM W Config := node_FromFile (rp_configPath r) DefaultSaoNode.

Definition with_chain (chainAddress : string) (TxPoolSize : Z) (c : Config) : Config :=
  MkConfig (MkChainConf (if String.eqb chainAddress "" then Remote (cf_Chain c) else chainAddress)
              (WsEndpoint (cf_Chain c)) TxPoolSize)
    (cf_Libp2p c) (cf_Module c) (cf_Transport c) (cf_Cache c) (cf_Http c) (cf_Api c) (cf_Storage c) (cf_SaoIpfs c)
    (cf_Indexer c).

(** A configuration that is there is left as it is. *)
Definition initConfig (r : Repo) (chainAddress : string) (TxPoolSize : Z) : GoM W unit :=
  there <- path_exists (rp_configPath r) ;;
  if there : bool then ret tt else
  c <- invoke (os_Create (rp_configPath r)) ;;
  let newConfig := with_chain chainAddress TxPoolSize DefaultSaoNode in
  try comm <- ConfigUpdate newConfig (Some DefaultSaoNode) true
    catch err => fail (Wrapf ErrReadConfigFailed ("load default: " +:+ Error err)) ;;
  try _u <- invoke (file_Write c (string_bytes comm))
    catch err => fail (Wrapf ErrWriteConfigFailed ("write config: " +:+ Error err)) ;;
  try _u <- invoke (file_Close c)
    catch err => fail (Wrapf ErrCloseFileFailed ("close config: " +:+ Error err)) ;;
  ret tt.

(** *** The key *)
Definition initKeystore (r : Repo) : GoM W unit :=
  there <- path_exists (keystore_path r) ;;
  if there : bool then fail ErrRepoExists else invoke (os_Mkdir (keystore_path r)).

Definition setPeerId (r : Repo) (data : bytes) : GoM W unit := invoke (os_WriteFile (key_path r) data).

Definition GeneratePeerId (r : Repo) : GoM W PrivKey :=
  pk <- invoke GenerateEd25519Key ;;
  kbytes <- lift (MarshalPrivateKey pk) ;;
  setPeerId r kbytes ;;
  ret pk.

Definition GetKeyBytes (r : Repo) : GoM W bytes := wrapping ErrReadConfigFailed (invoke (os_ReadFile (key_path r))).

Definition PeerId (r : Repo) : GoM W PrivKey :=
  key <- wrapping ErrReadConfigFailed (invoke (os_ReadFile (key_path r))) ;; lift (UnmarshalPrivateKey key).

(** *** Initialization *)
Definition Init (r : Repo) (chainAddress : string) (TxPoolSize : Z) : GoM W unit :=
  exist <- wrapping ErrOpenRepoFailed (Exists r) ;;
  if exist : bool then ret tt else
  made <- attempt (invoke (os_MkdirAll (rp_Path r))) ;;
  (match made with
   | inr err => if os_IsExist err then ret tt else fail (Wrap ErrOpenFileFailed (Some err))
   | inl _ => ret tt
   end) ;;
  try _u <- initConfig r chainAddress TxPoolSize
    catch err => fail (Wrapf ErrInitRepoFailed ("init config: " +:+ Error err)) ;;
  wrapping ErrInitRepoFailed (initKeystore r) ;;
  wrapping ErrInitRepoFailed (GeneratePeerId r) ;;
  ret tt.

(** *** The datastores

    They are opened once, all of them; the state of [sync.Once] and its result is
    beside the world. *)
Record rs := Rs { rs_w : W; rs_ds : option (gmap string string + error) }.
Definition on_disk {A} (m : GoM W A) : GoM rs A := zoom rs_w (fun w s => Rs w (rs_ds s)) m.

Definition open_one (r : Repo) (readonly : bool) (out : gmap string string) (e : string * dsCtor) : GoM W (gmap string string) :=
  let path := repo_join r [path_Join [fsDatastore; e.1]] in
  wrapping ErrOpenDataStoreFailed (invoke (store_Open e.2 path readonly)) ;;
  ret (<[store_NewKey e.1 := path]> out).

Definition openDatastores (r : Repo) (readonly : bool) : GoM W (gmap string string) :=
  try _u <- invoke (os_MkdirAll (repo_join r [fsDatastore]))
    catch err => fail (Wrapf ErrCreateDirFailed ("mkdir " +:+ repo_join r [fsDatastore] +:+ ": " +:+ Error err)) ;;
  fold_m (open_one r readonly) ∅ (range fsDatastores).

Definition Datastore_ (r : Repo) (ns : string) : GoM rs string :=
  known <- gets rs_ds ;;
  ds <- match known with
        | Some ds => ret ds
        | None =>
            ds <- attempt (on_disk (openDatastores r (rp_readonly r))) ;;
            modify (fun s => Rs (rs_w s) (Some ds)) ;;
            ret ds
        end ;;
  match ds with
  | inr err => fail (Wrap ErrOpenDataStoreFailed (Some err))
  | inl ds =>
      match ds !! ns with
      | Some path => ret path
      | None => fail (Wrapf ErrOpenDataStoreFailed ("no such datastore: " +:+ ns))
      end
  end.
End Repo.
