(* ===== verification/ChainInfo.v ===== *)
(** * The chain service: starting, and what is only shown

    [NewChainSvc] and the queries of [chain/chain.go], [did.go], [node.go], [model.go]
    and [account.go] whose results are printed or passed on as they are.  What is
    printed is the value that is returned. *)
From stdpp Require Import base list gmap strings.
From Stdlib Require Import ZArith Lia Ascii.
From S2P Require Import Prelude Types StateUtils ChainApi Stage Chain NodeApi.

Definition CURRENT_NET_VERSION : string := "v1.5.0".
Definition DOWNLOAD_URL : string := "https://github.com/SAONetwork/sao-node/releases".

(** ** The data of dids ([types/info.go]) *)
Record AccountAuth := MkAccountAuth { aa_AccountDid : string; aa_AccountEncryptedSeed : string; aa_SidEncryptedAccount : string }.
Record AccountInfo := MkAccountInfo {
  ai_AccountId : string; ai_AccountDid : string; ai_AccountEncryptedSeed : string; ai_SidEncryptedAccount : string
}.
Record SidInfo {D} := MkSidInfo {
  si_Did : string; si_PaymentAddress : string; si_Accounts : list AccountInfo; si_PastSeeds : list string;
  si_DidDocuments : list (string * D)
}.
Arguments SidInfo : clear implicits.
Arguments MkSidInfo {D}.
Record KidInfo {D} := MkKidInfo { ki_Did : string; ki_PaymentAddress : string; ki_Document : D }.
Arguments KidInfo : clear implicits.
Arguments MkKidInfo {D}.

(** ** Libraries *)

(** Making the clients; balances; blocks and models as texts. *)
Class ChainStart (C : Type) `{!SaoTypes, !CosmosLib C, !KeyringLib C} := {
  cosmos_New : string -> string -> call C unit;          (* address, keyring *)
  q_NetVersion : call C string;
  http_New : string -> string -> call C unit;
  BankBalances : string -> call C (list (string * Z));
  q_Balance : string -> string -> call C Z;
  rpc_Block : Z -> call C string;
  q_Model : string -> call C string;
  registry_List : Registry -> call C (list KeyAccount)
}.

(** [sao-did]: parsing, and documents of dids; a resolution has an error text. *)
Class DidInfoLib (C : Type) := {
  DidDocument : Type;
  did_Parse : string -> (string * string) + error;       (* method and identifier *)
  DidResolver : Type;
  did_NewManager : string -> call C DidResolver;
  did_Resolve : DidResolver -> string -> call C (string * DidDocument);
  q_ValidateDid : string -> call C unit;
  q_AllAccountAuths : string -> call C (list AccountAuth);
  q_AccountId : string -> call C string;
  q_PastSeeds : string -> call C (list string);
  q_SidVersions : string -> call C (list string)
}.

Section ChainInfo.
Context `{!ErrorText} {C : Type} `{!SaoTypes, !CosmosLib C, !KeyringLib C, !FileSys C, !ChainStart C, !DidInfoLib C}.

(** The service starts without a pool and without channels. *)
Definition NewChainSvc (chainAddress wsEndpoint keyringHome : string) : GoM (ch (C := C)) unit :=
  wrapping ErrCreateChainServiceFailed (on_c (invoke (cosmos_New chainAddress keyringHome))) ;;
  version <- wrapping ErrCreateChainServiceFailed (on_c (invoke q_NetVersion)) ;;
  if negb (String.eqb CURRENT_NET_VERSION version) then
    fail (EText ("invalid net version, saonode has to be upgrade to adapt to the net verion " +:+ version +:+
                 ". Download the the lastest saonode binary at " +:+ DOWNLOAD_URL))
  else
  wrapping ErrCreateChainServiceFailed (on_c (invoke (http_New chainAddress wsEndpoint))) ;;
  modify (fun s => Ch (ch_c s) None ∅).

Definition GetBalance (address : string) : GoM (ch (C := C)) (list (string * Z)) := on_c (invoke (BankBalances address)).
(** [coins.AmountOf(denom)]: zero for a coin that is not there. *)
Definition AmountOf (denom : string) (coins : list (string * Z)) : Z :=
  match List.find (fun c => String.eqb c.1 denom) coins with Some c => c.2 | None => 0 end.

Definition GetBlock (height : Z) : GoM (ch (C := C)) string := on_c (invoke (rpc_Block height)).
Definition GetModel (key : string) : GoM (ch (C := C)) string := on_c (invoke (q_Model key)).

(** The accounts of the keyring with their balances; an account without an address is
    left out, and a balance that cannot be read ends the list. *)
Definition account_List (repo : string) : GoM (ch (C := C)) (list (string * string * Z)) :=
  accountRegistry <- wrapping ErrListAccountsFailed (on_c (newAccountRegistry repo)) ;;
  accounts <- wrapping ErrListAccountsFailed (on_c (invoke (registry_List accountRegistry))) ;;
  fold_m (fun shown account =>
    match account_Address account ADDRESS_PREFIX with
    | inr _ => ret shown
    | inl address =>
        balance <- wrapping ErrGetBalanceFailed (on_c (invoke (q_Balance address DENOM))) ;;
        ret (shown ++ [(account_Name account, address, balance)])
    end) [] accounts.

(** The balance that is printed, if there is one. *)
Definition ShowBalance (address : string) : GoM (ch (C := C)) (string * option Z) :=
  try balance <- on_c (invoke (q_Balance address DENOM)) catch err => ret (address, None) ;;
  ret (address, Some balance).

(** A node, its peers line by line, and what it has pledged. *)
Definition ShowNodeInfo (creator : string) : GoM (ch (C := C)) (option (ChainNode * list string * option Z)) :=
  try node <- on_c (invoke (q_Node creator)) catch err => ret None ;;
  try pledge <- on_c (invoke (q_Pledge creator)) catch err => ret (Some (node, Split (nd_Peer node) ",", None)) ;;
  ret (Some (node, Split (nd_Peer node) ",", Some pledge)).

(** *** A did and its documents *)
Definition getDidResolution (did : string) : GoM (ch (C := C)) DidDocument :=
  manager <- on_c (invoke (did_NewManager did)) ;;
  result <- on_c (invoke (did_Resolve manager did)) ;;
  if negb (String.eqb result.1 "") then fail (EText result.1) else ret result.2.

Definition account_info (accAuth : AccountAuth) : GoM (ch (C := C)) AccountInfo :=
  accountId <- on_c (invoke (q_AccountId (aa_AccountDid accAuth))) ;;
  ret (MkAccountInfo accountId (aa_AccountDid accAuth) (aa_AccountEncryptedSeed accAuth) (aa_SidEncryptedAccount accAuth)).

(** The seeds may be missing. *)
Definition GetDidInfo (did : string) : GoM (ch (C := C)) (SidInfo DidDocument + KidInfo DidDocument)%type :=
  on_c (invoke (q_ValidateDid did)) ;;
  paymentAddress <- on_c (invoke (q_PaymentAddress did)) ;;
  pd <- lift (did_Parse did) ;;
  if String.eqb pd.1 "sid" then
    auths <- on_c (invoke (q_AllAccountAuths did)) ;;
    accounts <- fold_m (fun l a => i <- account_info a ;; ret (l ++ [i])) [] auths ;;
    seeds <- attempt (on_c (invoke (q_PastSeeds did))) ;;
    versions <- on_c (invoke (q_SidVersions pd.2)) ;;
    docs <- fold_m (fun l version =>
        doc <- getDidResolution ("did:sid:" +:+ pd.2 +:+ "?versionId=" +:+ version) ;;
        ret (l ++ [(version, doc)])) [] versions ;;
    ret (inl (MkSidInfo did paymentAddress accounts (match seeds with inl l => l | inr _ => [] end) docs))
  else if String.eqb pd.1 "key" then
    doc <- getDidResolution did ;; ret (inr (MkKidInfo did paymentAddress doc))
  else fail (EText "Unsupported did type").
End ChainInfo.
