(* ===== verification/ClientInfo.v ===== *)
(** * The client commands that show what they get ([cmd/client/model.go], [net.go],
      [did.go]), and the helper for schemas ([node/model/schema/schema_helper.go])

    What a command prints is the value that it returns. *)
From stdpp Require Import base list gmap strings.
From Stdlib Require Import ZArith Lia Ascii.
From S2P Require Import Prelude Types StateUtils ChainApi Stage Chain Gateway Validator ModelManager NodeApi Upload Client ChainInfo.

(** ** Libraries *)

(** The requests of the client that only these commands make: to the chain, and to the
    gateway; texts of keys. *)
Class InfoApi (W : Type) := {
  ci_GetNodeStatus : string -> call W Z;
  ci_ListNodes : call W (list ChainNode);
  ci_DidDocument : Type;
  ci_GetDidInfo : string -> call W (SidInfo ci_DidDocument + KidInfo ci_DidDocument);
  ci_GetPeerInfo : call W string
}.
Class JwsText := { json_MarshalJws : list JwsSignature -> string + error }.
(** [uuid.FromStringOrNil(s).String()] *)
Class UuidParse := { uuid_FromStringOrNil : string -> string }.

(** ** Schemas *)
Definition SAO_LINK_PREFIX : string := "sao://".
Definition schema_GenerateDataId `{!UuidParse} (modelType headcommit alias : string) : string :=
  uuid_FromStringOrNil (modelType +:+ headcommit +:+ alias).
Definition GenerateDataLink (DataId : string) : string := SAO_LINK_PREFIX +:+ DataId.
(** The content is always nil. *)
Definition FetchContent {S} (link : string) : GoM S (option bytes) := ret None.

Section ClientInfo.
Context `{!CidLib, !ErrorText, !PatchLib, !ContextLib, !GoRange} {W : Type}.
Context `{!SaoTypes, !CosmosLib W, !KeyringLib W, !FileSys W, !StatFiles W, !OpenFiles W, !DidKeyLib W, !UuidLib W,
          !ClientProposals, !ProposalLib, !DidLib W, !ChainSvcApi W, !GatewayChain W, !ClientChain W, !SaoApi W,
          !ClientLib W, !InfoApi W, !JwsText}.
Abbreviation run := (GoM (cl (W := W))).

(** ** Models and orders *)
Definition metaCmd (cctx : cli) : run (Metadata * list (string * ShardMeta)) :=
  if negb (fl_IsSet cctx "data-id") then fail (missing_flag "data-id") else
  let dataId := fl_String cctx "data-id" in
  client <- getSaoClient cctx ;;
  m <- cliutil_GetDidManager cctx (scc_KeyName (sc_Cfg client)) ;;
  gatewayAddress <- api client api_GetNodeAddress ;;
  request <- buildQueryRequest client m.1 (MkQueryProposal (key_Id m.1) dataId "" 0 0 "" "" "") gatewayAddress ;;
  res <- wrapping ErrQueryMetadataFailed (chain client (chain_QueryMetadata request 0)) ;;
  ret (fst res, range (snd res)).

(** [orderId] is a [uint], which the flag gives as an unsigned number. *)
Definition orderCmd (cctx : cli) : run (FullOrder * list (string * Shard)) :=
  if negb (fl_IsSet cctx "order-id") then fail (missing_flag "order-id") else
  let orderId := fl_Uint64 cctx "order-id" in
  client <- getSaoClient cctx ;;
  res <- wrapping ErrQueryMetadataFailed (chain client (chain_GetOrder orderId)) ;;
  ret (res, range (fo_Shards res)).

(** ** The gateway and the nodes *)
Definition net_infoCmd (cctx : cli) : run (string * string * string * Z) :=
  client <- getSaoClient cctx ;;
  peerInfo <- api client ci_GetPeerInfo ;;
  address <- api client api_GetNodeAddress ;;
  status <- chain client (ci_GetNodeStatus address) ;;
  ret (scc_Gateway (sc_Cfg client), peerInfo, address, status).

Definition nodesCmd (cctx : cli) : run (list ChainNode) :=
  client <- getSaoClient cctx ;; chain client ci_ListNodes.

(** ** Dids

    The client of [info] has neither a gateway nor an address of the chain. *)
Definition didShowInfoCmd (cctx : cli) : run (SidInfo ci_DidDocument + KidInfo ci_DidDocument)%type :=
  client <- on_cw (NewSaoClient (MkSaoClientOptions (fl_String cctx FlagClientRepo) "" "" "" (KeyringHome cctx))) ;;
  chain client (ci_GetDidInfo (fl_String cctx "did-url")).

(** [Args().First()] is empty without arguments. *)
Definition didSignCmd (cctx : cli) (args : list string) : run string :=
  client <- on_cw (NewSaoClient (MkSaoClientOptions (fl_String cctx FlagClientRepo) (GatewayApi cctx) (ChainAddress cctx)
                                   "" (KeyringHome cctx))) ;;
  m <- cliutil_GetDidManager cctx (scc_KeyName (sc_Cfg client)) ;;
  jws <- wrapping ErrCreateJwsFailed (on_cw (invoke (key_CreateJWS m.1 (string_bytes (default "" (head args)))))) ;;
  wrapping ErrMarshalJwsFailed (lift (json_MarshalJws jws)).
End ClientInfo.
