(* ===== verification/NodeCmds.v ===== *)
(** * The commands of a node ([cmd/node/*.go], [cmd/account/account.go],
      [cmd/cliutil.go])

    A command makes its chain service, and may open the repository of the node or call
    the API of a running one.  [ncli] are the flags and arguments of a command line;
    what a command prints is the value it returns.  The state [nc] has the chain
    service, with the machine below it, and the datastores that the command has
    opened. *)
From stdpp Require Import base list gmap strings.
From Stdlib Require Import ZArith Lia Ascii.
From S2P Require Import Prelude Types StateUtils ChainApi Stage Chain NodeApi Upload Client Config Repo ChainInfo.

Definition FlagStorageRepo : string := "repo".

(** ** Permissions of the API ([api/permissioned.go]) *)
Definition PermNone : string := "none".
Definition PermRead : string := "read".
Definition PermWrite : string := "write".
Definition PermAdmin : string := "admin".
Definition AllPermissions : list string := [PermNone; PermRead; PermWrite; PermAdmin].

(** ** The state of a node on the chain ([node/node.go]) *)
Definition NODE_STATUS_ONLINE : Z := 1.
Definition NODE_STATUS_SERVE_GATEWAY : Z := Z.shiftl 1 1.
Definition NODE_STATUS_SERVE_STORAGE : Z := Z.shiftl 1 2.
Definition NODE_STATUS_ACCEPT_ORDER : Z := Z.shiftl 1 3.
Definition NODE_STATUS_SERVE_INDEXER : Z := Z.shiftl 1 4.

(** ** Libraries *)
Class JwtLib := {
  jwt_Sign : list string -> bytes -> string + error;          (* HS256 with a key *)
  jwt_Verify : string -> bytes -> list string + error
}.
(** [NewMultiaddr(s)] as a text, and the address to dial. *)
Class MultiaddrLib := { NewMultiaddr : string -> string + error; DialArgs : string -> string + error }.

(** The terminal. *)
Class Console (W : Type) := { ReadLine : call W string; ReadPassword : call W string }.

(** [strings.ToLower], for the comparison with a word of plain letters. *)
Definition lower (c : ascii) : ascii :=
  let n := nat_of_ascii c in if Nat.leb 65 n && Nat.leb n 90 then ascii_of_nat (n + 32) else c.
Fixpoint ToLower (s : string) : string := match s with "" => "" | String c s => String (lower c) (ToLower s) end.
(** [strings.Replace(s, "\n", "", -1)] *)
Fixpoint without (c : ascii) (s : string) : string :=
  match s with "" => "" | String d s => if Ascii.eqb d c then without c s else String d (without c s) end.

(** [strings.ReplaceAll] for an [old] that is not empty; a replacement for each byte is
    enough. *)
Fixpoint replace_all (fuel : nat) (s old new : string) : string :=
  match fuel with
  | O => s
  | S fuel => match cut s old with Some (a, b) => a +:+ new +:+ replace_all fuel b old new | None => s end
  end.
Definition ReplaceAll (s old new : string) : string := replace_all (String.length s) s old new.

(** The API of a running node, at an address and with a token. *)
Record PeerInfo := MkPeerInfo { pi_ID : string; pi_Addrs : list string }.
Class NodeRpc (W : Type) := {
  rpc_New : string -> string -> call W unit;
  rpc_GetNodeAddress : string * string -> call W string;
  rpc_GetNetPeers : string * string -> call W (list PeerInfo);
  rpc_ModelMigrate : string * string -> list string -> call W (string * gmap string string);
  rpc_OrderList : string * string -> call W (list OrderInfo);
  rpc_OrderStatus : string * string -> string -> call W OrderInfo;
  rpc_ShardStatus : string * string -> Z -> Cid -> call W ShardInfo;
  rpc_ShardList : string * string -> call W (list ShardInfo);
  rpc_MigrateJobList : string * string -> call W (list MigrateInfo)
}.
Class DescriptionLib `{!SaoTypes} := { mk_Description : string -> string -> string -> string -> string -> Description }.

(** ** The command line *)
Record ncli := MkNcli {
  nf_IsSet : string -> bool; nf_String : string -> string; nf_Bool : string -> bool; nf_Uint : string -> Z;
  nf_Uint64 : string -> Z; nf_Int64 : string -> Z; nf_StringSlice : string -> list string;
  nf_Uint64Slice : string -> list Z; nf_Args : list string; app_Name : string;
  (* the destinations of global flags *)
  nf_ChainAddress : string; nf_KeyringHome : string; nf_NodeApi : string; nf_ApiToken : string
}.
Definition missing (name : string) : error := Wrapf ErrInvalidParameters ("must provide --" +:+ name).

Section NodeCmds.
Context `{!ErrorText, !CidLib, !GoRange, !ConfigToml, !JwtLib, !MultiaddrLib} {W : Type}.
Context `{!SaoTypes, !CosmosLib W, !KeyringLib W, !RandLib W, !FileSys W, !StatFiles W, !OpenFiles W, !RepoLib W,
          !RepoStores W, !EnvConfig W, !ChainStart W, !Console W, !NodeRpc W, !DescriptionLib, !UuidLib W, !ClientLib W}.

Record nc := Nc { nc_ch : ch (C := W); nc_ds : option (gmap string string + error) }.
Definition set_w (w : W) (s : nc) : nc := Nc (Ch w (ch_ap (nc_ch s)) (ch_chans (nc_ch s))) (nc_ds s).
Definition on_w {A} (m : GoM W A) : GoM nc A := zoom (fun s => ch_c (nc_ch s)) set_w m.
Definition on_ch {A} (m : GoM (ch (C := W)) A) : GoM nc A := zoom nc_ch (fun c s => Nc c (nc_ds s)) m.
Definition on_rs {A} (m : GoM (rs (W := W)) A) : GoM nc A :=
  zoom (fun s => Rs (ch_c (nc_ch s)) (nc_ds s)) (fun r s => Nc (nc_ch (set_w (rs_w r) s)) (rs_ds r)) m.

(** ** What the commands share *)
Definition prepareRepo (cctx : ncli) : GoM nc Repo := on_w (PrepareRepo (nf_String cctx FlagStorageRepo)).

Definition invalid_config : error := Wrapf ErrReadConfigFailed "invalid config for repo, got: <nil>".
Definition read_config (r : Repo) : GoM nc Config :=
  try c <- on_w (repo_Config r) catch err => fail invalid_config ;; ret c.

(** The flag, or the configuration of the program. *)
Definition GetChainAddress (cctx : ncli) (repoPath binaryName : string) : GoM nc string :=
  if negb (String.eqb (nf_String cctx "chain-address") "") then ret (nf_String cctx "chain-address") else
  chainAddress <-
    (if String.eqb (nf_ChainAddress cctx) "" then
       if String.eqb binaryName "saonode" then
         r <- wrapping ErrInvalidRepoPath (on_w (PrepareRepo repoPath)) ;;
         c <- wrapping ErrReadConfigFailed (on_w (repo_Config r)) ;;
         ret (Remote (cf_Chain c))
       else if String.eqb binaryName "saoclient" then
         def <- on_w DefaultSaoClientConfig ;;
         c <- wrapping ErrReadConfigFailed (on_w (FromFile (path_Join [repoPath; "config.toml"]) def)) ;;
         ret (scc_ChainAddress c)
       else fail (Wrapf ErrInvalidParameters ("invalid binary name " +:+ binaryName))
     else ret (nf_ChainAddress cctx)) ;;
  if String.eqb chainAddress "" then fail (Wrapf ErrInvalidChainAddress "no chain address specified") else ret chainAddress.

(** Most commands go on without an address. *)
Definition chain_address (cctx : ncli) : GoM nc string :=
  try a <- GetChainAddress cctx (nf_String cctx "repo") (app_Name cctx) catch err => ret "" ;; ret a.
Definition start_chain (cctx : ncli) (chainAddress : string) : GoM nc unit :=
  on_ch (NewChainSvc chainAddress "/websocket" (nf_KeyringHome cctx)).
Definition with_chain_svc (cctx : ncli) : GoM nc unit := a <- chain_address cctx ;; start_chain cctx a.

(** The API at the given address; else the one of the repository, with a token that
    may write. *)
Definition GetNodeApi (cctx : ncli) : GoM nc (string * string) :=
  let '(nodeApi, apiToken) := (nf_NodeApi cctx, nf_ApiToken cctx) in
  given <- (if negb (String.eqb nodeApi "") && negb (String.eqb apiToken "") then
              made <- attempt (on_w (invoke (rpc_New nodeApi apiToken))) ;;
              ret (match made with inl _ => true | inr _ => false end)
            else ret false) ;;
  if given : bool then ret (nodeApi, apiToken) else
  repo <- on_w (PrepareRepo (nf_String cctx FlagStorageRepo)) ;;
  cfg <- read_config repo ;;
  key <- on_w (GetKeyBytes repo) ;;
  token <- wrapping ErrSignedFailed (lift (jwt_Sign (take 3 AllPermissions) key)) ;;
  ma <- wrapping ErrInvalidServerAddress (lift (NewMultiaddr (api_ListenAddress (cf_Api cfg)))) ;;
  addr <- wrapping ErrConnectFailed (lift (DialArgs ma)) ;;
  let apiAddress := "http://" +:+ ReplaceAll addr "0.0.0.0" "127.0.0.1" +:+ "/rpc/v0" in
  on_w (invoke (rpc_New apiAddress token)) ;;
  ret (apiAddress, token).

(** The account of the command line, or the one of the running node. *)
Definition creator_or_node (cctx : ncli) (wrap : bool) : GoM nc string :=
  let creator := nf_String cctx "creator" in
  if String.eqb creator "" then
    api <- (if wrap then wrapping ErrCreateClientFailed (GetNodeApi cctx) else GetNodeApi cctx) ;;
    on_w (invoke (rpc_GetNodeAddress api))
  else ret creator.

(** [int64(x)] and [int64(x + y)] of unsigned numbers *)
Definition int64_of (n : Z) : Z := wrap_i64 (wrap_u64 n).

(** Asks until the answer is yes and the account has the amount. *)
Fixpoint confirm_funds (fuel : nat) (creator : string) (amount : Z) : GoM nc unit :=
  match fuel with
  | O => out_of_fuel
  | S fuel =>
      indata <- wrapping ErrInvalidParameters (on_w (invoke ReadLine)) ;;
      if negb (String.eqb (ToLower (without newline indata)) "yes") then confirm_funds fuel creator amount else
      coins <- attempt (on_ch (GetBalance creator)) ;;
      match coins with
      | inr _ => confirm_funds fuel creator amount
      | inl coins => if AmountOf DENOM coins <? amount then confirm_funds fuel creator amount else ret tt
      end
  end.

(** The addresses of a pool, in the order of its map. *)
Definition pool_addresses (ap : AddressPool) : list string := (range (ap_Addresses ap)).*1.
Definition fund_pool (creator : string) (ap : AddressPool) (amount : Z) : GoM nc unit :=
  for_each (pool_addresses ap) (fun address => _tx <- on_ch (Send creator address amount) ;; ret tt).
Definition make_pool (cctx : ncli) (size : Z) : GoM nc AddressPool :=
  on_w (CreateAddressPool (nf_KeyringHome cctx) size) ;;
  ap <- on_w (LoadAddressPool (nf_KeyringHome cctx) size) ;;
  deref ap.

(** ** Initialization *)
Definition initRepo (repoPath chainAddress : string) (TxPoolSize : Z) : GoM nc Repo :=
  r <- on_w (NewRepo repoPath) ;;
  ok <- wrapping ErrOpenRepoFailed (on_w (Exists r)) ;;
  if ok : bool then fail (Wrapf ErrInitRepoFailed ("repo at '" +:+ repoPath +:+ "' is already initialized")) else
  on_w (Init r chainAddress TxPoolSize) ;; ret r.

(** The address of the node is kept in its datastore. *)
Definition put_address (r : Repo) (creator : string) : GoM nc unit :=
  mds <- wrapping ErrOpenDataStoreFailed (on_rs (Datastore_ r "/metadata")) ;;
  wrapping ErrGetFailed (on_w (invoke (store_Put mds (store_NewKey "node-address") (string_bytes creator)))).

Definition initCmd (fuel : nat) (cctx : ncli) : GoM nc string :=
  let chainAddress := nf_ChainAddress cctx in
  if String.eqb chainAddress "" then fail (missing "chain-address") else
  let creator := nf_String cctx "creator" in
  let txPoolSize := nf_Uint cctx "tx-pool-size" in
  r <- initRepo (nf_String cctx FlagStorageRepo) chainAddress txPoolSize ;;
  read_config r ;;
  put_address r creator ;;
  start_chain cctx chainAddress ;;
  confirm_funds fuel creator 1100 ;;
  tx <- on_ch (Create creator) ;;
  (if 0 <? txPoolSize then
     ap <- make_pool cctx txPoolSize ;; fund_pool creator ap (int64_of (1000 / txPoolSize))
   else ret tt) ;;
  ret tx.

Definition initTxAddressPoolCmd (fuel : nat) (cctx : ncli) : GoM nc unit :=
  chainAddress <- chain_address cctx ;;
  let creator := nf_String cctx "creator" in
  let txPoolSize := nf_Uint cctx "tx-pool-size" in
  let poolTokenAmount := nf_Uint cctx "pool-token-amount" in
  start_chain cctx chainAddress ;;
  if txPoolSize <=? 0 then fail (Wrapf ErrInvalidParameters "tx-pool-size should greater than 0") else
  confirm_funds fuel creator (int64_of (poolTokenAmount + 1000)) ;;
  ap <- make_pool cctx txPoolSize ;;
  if 0 <? poolTokenAmount then fund_pool creator ap (int64_of (poolTokenAmount / txPoolSize)) else ret tt.

Definition joinCmd (cctx : ncli) : GoM nc string :=
  chainAddress <- chain_address cctx ;;
  let creator := nf_String cctx "creator" in
  start_chain cctx chainAddress ;;
  repo <- prepareRepo cctx ;;
  read_config repo ;;
  put_address repo creator ;;
  on_ch (Create creator).

(** Deletes what [init] and the node have written; whether it was confirmed. *)
Definition cleanCmd (cctx : ncli) : GoM nc bool :=
  indata <- wrapping ErrInvalidParameters (on_w (invoke ReadLine)) ;;
  if String.eqb (ToLower (without newline indata)) "yes" then
    repo <- prepareRepo cctx ;;
    mds <- wrapping ErrOpenDataStoreFailed (on_rs (Datastore_ repo "/metadata")) ;;
    ignore (on_w (invoke (store_Delete mds (store_NewKey "node-address")))) ;;
    tds <- wrapping ErrOpenDataStoreFailed (on_rs (Datastore_ repo "/transport")) ;;
    ignore (on_w (invoke (store_Delete tds (store_NewKey PEER_INFO_PREFIX)))) ;;
    ret true
  else ret false.

(** ** The node on the chain *)
Definition storage_cmd (cctx : ncli) (send : string -> Z -> GoM (ch (C := W)) string) : GoM nc string :=
  let creator := nf_String cctx "creator" in
  if String.eqb creator "" then fail (missing "creator") else
  with_chain_svc cctx ;;
  let size := nf_Uint64 cctx "size" in
  if size <=? 0 then fail (Wrapf ErrInvalidParameters "invalid size") else on_ch (send creator size).
Definition addStorageCmd (cctx : ncli) : GoM nc string := storage_cmd cctx AddVstorage.
Definition removeStorageCmd (cctx : ncli) : GoM nc string := storage_cmd cctx RemoveVstorage.

(** The addresses that are announced: the ones of the machine itself are left out. *)
Definition add_multiaddr (peerInfo maddr : string) : GoM nc string :=
  try ma <- lift (NewMultiaddr maddr)
    catch err => fail (Wrapf ErrInvalidParameters ("invalid --multiaddrs: " +:+ Error err)) ;;
  if Contains ma "127.0.0.1" then ret peerInfo
  else ret ((if (0 <? String.length peerInfo)%nat then peerInfo +:+ "," else peerInfo) +:+ ma).
Definition announced (cctx : ncli) : GoM nc string :=
  if nf_IsSet cctx "multiaddrs" then
    let multiaddrs := nf_StringSlice cctx "multiaddrs" in
    if Nat.eqb (length multiaddrs) 0 then fail (Wrapf ErrInvalidParameters "invalid --multiaddrs: cannot be empty")
    else fold_m add_multiaddr "" multiaddrs
  else ret "".

Definition update_status (accept : bool) (cfg : Config) : Z :=
  let status := NODE_STATUS_ONLINE in
  let status := if GatewayEnable (cf_Module cfg) then Z.lor status NODE_STATUS_SERVE_GATEWAY else status in
  if StorageEnable (cf_Module cfg) then
    let status := Z.lor status NODE_STATUS_SERVE_STORAGE in
    if accept then Z.lor status NODE_STATUS_ACCEPT_ORDER
    else if AcceptOrder (cf_Storage cfg) then Z.lor status NODE_STATUS_ACCEPT_ORDER else status
  else status.

Definition updateCmd (cctx : ncli) : GoM nc string :=
  let creator := nf_String cctx "creator" in
  peerInfo <- announced cctx ;;
  r <- prepareRepo cctx ;;
  cfg <- read_config r ;;
  with_chain_svc cctx ;;
  let status := update_status (nf_Bool cctx "accept-order") cfg in
  ap <- (if 0 <? TxPoolSize (cf_Chain cfg) then on_w (LoadAddressPool (nf_KeyringHome cctx) (TxPoolSize (cf_Chain cfg)))
         else ret None) ;;
  let addresses := match ap with Some ap => pool_addresses ap | None => [] end in
  let description := mk_Description (nf_String cctx "details") (nf_String cctx "identity") (nf_String cctx "moniker")
    (nf_String cctx "security-contact") (nf_String cctx "website") in
  on_ch (Reset creator peerInfo status addresses (Some description)).

Definition infoCmd (cctx : ncli) :
    GoM nc (string * option Z * option (ChainNode * list string * option Z)) :=
  with_chain_svc cctx ;;
  creator <- creator_or_node cctx true ;;
  balance <- on_ch (ShowBalance creator) ;;
  node <- on_ch (ShowNodeInfo creator) ;;
  ret (balance, node).

Definition claimCmd (cctx : ncli) : GoM nc string :=
  creator <- creator_or_node cctx true ;; with_chain_svc cctx ;; on_ch (ClaimReward creator).

(** *** Faults *)
Definition queryInfoCmd (cctx : ncli) : GoM nc Fault :=
  let faultId := nf_String cctx "fault-id" in
  if String.eqb faultId "" then fail (missing "fault-id") else
  chainAddress <- GetChainAddress cctx (nf_String cctx "repo") (app_Name cctx) ;;
  start_chain cctx chainAddress ;;
  on_ch (GetFault faultId).

Definition queryFaultsCmd (cctx : ncli) : GoM nc (list (string * Fault)) :=
  api <- wrapping ErrCreateClientFailed (GetNodeApi cctx) ;;
  creator <- on_w (invoke (rpc_GetNodeAddress api)) ;;
  chainAddress <- GetChainAddress cctx (nf_String cctx "repo") (app_Name cctx) ;;
  start_chain cctx chainAddress ;;
  faultIds <- on_ch (GetMyFaults creator) ;;
  fold_m (fun l faultId => fault <- on_ch (GetFault faultId) ;; ret (l ++ [(faultId, fault)])) [] faultIds.

(** A fault of a shard, as the node declares it: the node is its provider and its
    reporter. *)
Definition declared_fault (creator : string) (shardId : Z) : GoM nc Fault :=
  shard <- on_ch (GetShard shardId) ;;
  order <- on_ch (GetOrder (sh_OrderId shard)) ;;
  ret (MkFault (fo_DataId order) (fo_Id order) shardId (hd "" (Split (fo_Commit order) commit_sep)) creator creator).
Definition declareFaultsRecoverCmd (cctx : ncli) : GoM nc (list string) :=
  creator <- creator_or_node cctx true ;;
  let shardIds := nf_Uint64Slice cctx "shard-ids" in
  if Nat.eqb (length shardIds) 0 then fail (Wrapf ErrInvalidParameters "shard-ids is required") else
  with_chain_svc cctx ;;
  faults <- fold_m (fun l shardId => f <- declared_fault creator shardId ;; ret (l ++ [f])) [] shardIds ;;
  on_ch (RecoverFaults creator creator faults).

(** ** The API of a running node *)

(** A peer is shown once. *)
Definition new_peers (peers : list PeerInfo) : list PeerInfo :=
  foldl (fun l p => if existsb (fun q => String.eqb (pi_ID q) (pi_ID p)) l then l else l ++ [p]) [] peers.
Definition peersCmd (cctx : ncli) : GoM nc (list PeerInfo) :=
  api <- GetNodeApi cctx ;; peers <- on_w (invoke (rpc_GetNetPeers api)) ;; ret (new_peers peers).

Definition migrateCmd (cctx : ncli) : GoM nc (string * gmap string string) :=
  match nf_Args cctx with
  | [arg] => api <- GetNodeApi cctx ;; on_w (invoke (rpc_ModelMigrate api (Split arg ",")))
  | _ => fail (EText "missing data ids parameter")
  end.

(** The list of orders asks the given address only. *)
Definition orderListCmd (cctx : ncli) : GoM nc (list OrderInfo) :=
  on_w (invoke (rpc_New (nf_NodeApi cctx) (nf_ApiToken cctx))) ;;
  on_w (invoke (rpc_OrderList (nf_NodeApi cctx, nf_ApiToken cctx))).
Definition orderStatusCmd (cctx : ncli) : GoM nc OrderInfo :=
  api <- GetNodeApi cctx ;;
  match nf_Args cctx with
  | [] => fail (Wrapf ErrInvalidParameters "missing proposal id parameter.")
  | dataId :: _ => on_w (invoke (rpc_OrderStatus api dataId))
  end.
Definition shardStatusCmd (cctx : ncli) : GoM nc (Z * Cid * ShardInfo) :=
  let orderId := nf_Uint64 cctx "orderId" in
  shardCid <- lift (cid_Decode (nf_String cctx "cid")) ;;
  api <- GetNodeApi cctx ;;
  shardInfo <- on_w (invoke (rpc_ShardStatus api orderId shardCid)) ;;
  ret (orderId, shardCid, shardInfo).
Definition shardListCmd (cctx : ncli) : GoM nc (list ShardInfo) :=
  api <- GetNodeApi cctx ;;
  shards <- on_w (invoke (rpc_ShardList api)) ;;
  ret (List.filter (fun shard => nf_Bool cctx "include-expire" || negb (si_State shard =? ShardStateExpired)) shards).
Definition migrateListCmd (cctx : ncli) : GoM nc (list MigrateInfo) :=
  api <- GetNodeApi cctx ;; on_w (invoke (rpc_MigrateJobList api)).

(** Tokens with the first two, three and four permissions. *)
Definition authCmd (cctx : ncli) : GoM nc (string * string * string) :=
  repo <- prepareRepo cctx ;;
  key <- on_w (GetKeyBytes repo) ;;
  rb <- wrapping ErrSignedFailed (lift (jwt_Sign (take 2 AllPermissions) key)) ;;
  wb <- wrapping ErrSignedFailed (lift (jwt_Sign (take 3 AllPermissions) key)) ;;
  ab <- wrapping ErrSignedFailed (lift (jwt_Sign (take 4 AllPermissions) key)) ;;
  ret (rb, wb, ab).

(** ** Accounts ([cmd/account/account.go]) *)
Definition account_repo (cctx : ncli) : GoM nc string :=
  let repoPath := nf_String cctx "repo" in
  if String.eqb repoPath "" then
    if String.eqb (app_Name cctx) "saoclient" then ret "~/.sao-cli"
    else if String.eqb (app_Name cctx) "saonode" then ret "~/.sao-node"
    else fail (Wrapf ErrInvalidBinaryName (", Name=" +:+ app_Name cctx))
  else ret repoPath.

(** The name of the flag, or a line of the terminal. *)
Definition account_name (cctx : ncli) : GoM nc string :=
  if nf_IsSet cctx FlagKeyName then ret (nf_String cctx FlagKeyName) else
  indata <- wrapping ErrAccountNotFound (on_w (invoke ReadLine)) ;; ret (without newline indata).

Definition account_chain (cctx : ncli) (repoPath : string) : GoM nc unit :=
  try a <- GetChainAddress cctx repoPath (app_Name cctx) catch err => start_chain cctx "" ;; start_chain cctx a.

Definition account_listCmd (cctx : ncli) : GoM nc (list (string * string * Z)) :=
  repoPath <- account_repo cctx ;;
  try repoPath <- lift (homedir_Expand repoPath)
    catch err => fail (Wrapf ErrInvalidRepoPath (", path=" +:+ Error err +:+ ", %!v(MISSING)")) ;;
  account_chain cctx repoPath ;;
  on_ch (account_List (nf_KeyringHome cctx)).

Definition account_createCmd (cctx : ncli) : GoM nc (string * string * string) :=
  name <- account_name cctx ;; account_repo cctx ;; on_w (account_Create (nf_KeyringHome cctx) name).

Definition account_exportCmd (cctx : ncli) : GoM nc string :=
  name <- account_name cctx ;;
  passphrase <- on_w (invoke ReadPassword) ;;
  account_repo cctx ;;
  on_w (account_Export (nf_KeyringHome cctx) name passphrase).

Definition account_sendCmd (cctx : ncli) : GoM nc string :=
  repoPath <- account_repo cctx ;;
  account_chain cctx repoPath ;;
  on_ch (Send (nf_String cctx "from") (nf_String cctx "to") (nf_Int64 cctx "amount")).

(** The lines of the terminal up to the end of the key; [fuel] bounds their number. *)
Fixpoint read_secret (fuel : nat) (secret : string) : GoM nc string :=
  match fuel with
  | O => out_of_fuel
  | S fuel =>
      line <- wrapping ErrInvalidSecrect (on_w (invoke ReadLine)) ;;
      let secret := secret +:+ line in
      if Contains line "-----END TENDERMINT PRIVATE KEY-----" then ret secret else read_secret fuel secret
  end.
Definition account_importCmd (fuel : nat) (cctx : ncli) : GoM nc unit :=
  name <- account_name cctx ;;
  secret <- read_secret fuel "" ;;
  passphrase <- wrapping ErrInvalidPassphrase (on_w (invoke ReadPassword)) ;;
  account_repo cctx ;;
  on_w (account_Import (nf_KeyringHome cctx) name secret passphrase).
End NodeCmds.
