(* ===== verification/Ipfs.v ===== *)
(** * The backends on IPFS ([store/ipfs_backend.go], [ipfs_daemon.go])

    A backend keeps blocks in an IPFS node: one that runs in the process, or one behind
    its HTTP interface.  The client library and the node are the interface
    [IpfsClient].  A backend is a pointer with an address; the client that it uses is
    in the store, because [Open] sets it. *)
From stdpp Require Import base list gmap strings.
From Stdlib Require Import ZArith Lia Ascii.
From S2P Require Import Prelude Types StateUtils Cbor CborTypes Instances StoreManager.
From S2P Require Import ChainApi SampleWorld Stage Chain NodeApi Upload Config Repo ChainInfo NodeCmds.

(** ** Libraries

    Paths are texts of identifiers; a new block is pinned and has an identifier of
    version 1.  A reader that is put may be left in part.  The path that [Stat] returns
    may be invalid. *)
Class IpfsClient (W : Type) := {
  CoreAPI : Type;
  httpapi_NewApi : string -> CoreAPI + error;
  block_Put : CoreAPI -> bytes -> W -> ((string + error) * bytes) * W;
  block_Stat : CoreAPI -> string -> call W (unit + error);
  block_Get : CoreAPI -> string -> call W (bytes + error);
  pin_Rm : CoreAPI -> string -> call W unit
}.
(** [kubo]: plugins, repositories and nodes. *)
Class Kubo (W : Type) `{!IpfsClient W} := {
  IpfsNode : Type;
  IpfsConfig : Type;
  plugins_New : string -> call W unit;
  plugins_Initialize : call W unit;
  plugins_Inject : call W unit;
  ipfs_config_Init : call W IpfsConfig;
  fsrepo_Init : string -> IpfsConfig -> call W unit;
  fsrepo_Open : string -> call W unit;
  core_NewNode : string -> call W IpfsNode;
  coreapi_New : IpfsNode -> call W CoreAPI
}.

Record IpfsBackend := MkIpfsBackend { ib_ref : nat; ipfsAddress : string }.
#[global] Instance IpfsBackend_eq_dec : EqDecision IpfsBackend.
Proof. solve_decision. Defined.

Definition sao_scheme : string := "ipfs+sao".
Definition ma_scheme : string := "ipfs+ma:".
(** [strings.Replace(s, old, "", 1)] of a text that starts with [old] *)
Definition drop_prefix (pre s : string) : string := String.substring (String.length pre) (String.length s - String.length pre) s.

Section Ipfs.
Context `{!ErrorText, !MultiaddrLib} {W : Type} `{!IpfsClient W}.

(** The clients of the backends; a backend without one has a nil interface. *)
Record ips := Ips { ip_w : W; ip_apis : gmap nat CoreAPI; ip_next : nat; ip_plugins : bool }.
Definition on_ipfs {A} (m : GoM W A) : GoM ips A := zoom ip_w (fun w s => Ips w (ip_apis s) (ip_next s) (ip_plugins s)) m.
Definition set_api (ref : nat) (api : CoreAPI) : GoM ips unit :=
  modify (fun s => Ips (ip_w s) (<[ref := api]> (ip_apis s)) (ip_next s) (ip_plugins s)).
Definition new_ref : GoM ips nat := fun s => (Ret (ip_next s), Ips (ip_w s) (ip_apis s) (S (ip_next s)) (ip_plugins s)).

Definition NewIpfsBackend (connectionString : string) (api : option CoreAPI) : GoM ips IpfsBackend :=
  if HasPrefix connectionString sao_scheme then
    ref <- new_ref ;;
    (match api with Some api => set_api ref api | None => ret tt end) ;;
    ret (MkIpfsBackend ref connectionString)
  else if HasPrefix connectionString ma_scheme then
    ref <- new_ref ;; ret (MkIpfsBackend ref (drop_prefix ma_scheme connectionString))
  else fail (Wrap ErrUnSupportProtocol None).

Definition ipfs_Id (b : IpfsBackend) : string := "ipfs-" +:+ ipfsAddress b.

Definition ipfs_Open (b : IpfsBackend) : GoM ips unit :=
  if HasPrefix (ipfsAddress b) sao_scheme then ret tt else
  addr <- wrapping ErrOpenIpfsBackendFailed (lift (NewMultiaddr (ipfsAddress b))) ;;
  api <- wrapping ErrCreateIpfsApiServiceFailed (lift (httpapi_NewApi addr)) ;;
  set_api (ib_ref b) api.

Definition ipfs_Close (b : IpfsBackend) : GoM ips unit := ret tt.

(** [b.api.Block()] panics on a nil interface. *)
Definition api_of (b : IpfsBackend) : GoM ips CoreAPI := apis <- gets ip_apis ;; deref (apis !! ib_ref b).

Definition ipfs_Store (b : IpfsBackend) (reader : bytes) : GoM ips (bytes * option error) :=
  api <- api_of b ;;
  r <- on_ipfs (fun w => let '(r, w') := block_Put api reader w in (Ret r, w')) ;;
  ret (snd r, match fst r with inl _ => None | inr err => Some (Wrap ErrStoreFailed (Some err)) end).

Definition ipfs_IsExist `{!CidLib} (b : IpfsBackend) (cid : Cid) : GoM ips bool :=
  api <- api_of b ;;
  s <- wrapping ErrStatFailed (on_ipfs (invoke (block_Stat api (cid_String cid)))) ;;
  wrapping ErrInvalidPath (lift s) ;;
  ret true.

Definition ipfs_Get `{!CidLib} (b : IpfsBackend) (cid : Cid) : GoM ips (bytes + error) :=
  api <- api_of b ;; wrapping ErrGetFailed (on_ipfs (invoke (block_Get api (cid_String cid)))).

(** A block is unpinned; it is there until it is collected. *)
Definition ipfs_Remove `{!CidLib} (b : IpfsBackend) (cid : Cid) : GoM ips unit :=
  api <- api_of b ;; on_ipfs (invoke (pin_Rm api (cid_String cid))).

(** ** The node in the process *)
Context `{!FileSys W, !StatFiles W, !Kubo W}.

Definition NewIpfsDaemon (repoPath : string) : string + error :=
  match homedir_Expand repoPath with inl path => inl path | inr err => inr (Wrapf ErrInvalidRepoPath "") end.

Definition setupPlugins (externalPluginsPath : string) : GoM ips unit :=
  wrapping ErrLoadPluginsFailed (on_ipfs (invoke (plugins_New (path_Join [externalPluginsPath; "plugins"])))) ;;
  wrapping ErrInitPluginsFailed (on_ipfs (invoke plugins_Initialize)) ;;
  wrapping ErrInjectPluginsFailed (on_ipfs (invoke plugins_Inject)).

(** [loadPluginsOnce.Do]: a later start goes on, also after an error. *)
Definition load_plugins : GoM ips unit :=
  done <- gets ip_plugins ;;
  if done : bool then ret tt else
  modify (fun s => Ips (ip_w s) (ip_apis s) (ip_next s) true) ;; setupPlugins "".

(** A repository is made where the file [config] is not there; any other error of
    [Stat] is ignored. *)
Definition ipfs_prepareRepo (repoPath : string) : GoM ips unit :=
  try repoPath <- lift (homedir_Expand repoPath)
    catch err => fail (Wrapf ErrInvalidRepoPath (", path=" +:+ Error err +:+ ", %!v(MISSING)")) ;;
  stat <- attempt (on_ipfs (invoke (os_Stat (path_Join [repoPath; "config"])))) ;;
  match stat with
  | inr err =>
      if os_IsNotExist err then
        wrapping ErrCreateDirFailed (on_ipfs (invoke (os_MkdirAll repoPath))) ;;
        cfg <- wrapping ErrInitIpfsDaemonFailed (on_ipfs (invoke ipfs_config_Init)) ;;
        wrapping ErrInitIpfsRepoFailed (on_ipfs (invoke (fsrepo_Init repoPath cfg)))
      else ret tt
  | inl _ => ret tt
  end.

Definition createNode (repoPath : string) : GoM ips IpfsNode :=
  wrapping ErrOpenRepoFailed (on_ipfs (invoke (fsrepo_Open repoPath))) ;;
  on_ipfs (invoke (core_NewNode repoPath)).

Definition daemon_Start (repoPath : string) : GoM ips (CoreAPI * IpfsNode) :=
  load_plugins ;;
  ipfs_prepareRepo repoPath ;;
  node <- createNode repoPath ;;
  api <- wrapping ErrCreateIpfsApiServiceFailed (on_ipfs (invoke (coreapi_New node))) ;;
  ret (api, node).

(** ** The interface of the store manager *)
#[export] Instance ipfs_backend `{!CidLib} : StoreBackend ips IpfsBackend := {
  back_Id := ipfs_Id;
  back_Open := ipfs_Open;
  back_Close := ipfs_Close;
  back_Store := ipfs_Store;
  back_Remove := ipfs_Remove;
  back_Get := ipfs_Get;
  back_IsExist := ipfs_IsExist
}.
End Ipfs.
Arguments ips W {_}.

(** ** What is kept

    [held w api] are the blocks that the node of a client has, [pins w api] those that
    are pinned.  A node may collect blocks that are not pinned at any time: a call
    leaves the blocks [collected].  A block is stored under the identifier of its
    content and pinned.  A node that is [up] answers: it takes every block that has an
    identifier, gives the blocks that it has, and unpins what is pinned.  A call that
    fails may have been executed. *)
Definition collected (pins : gset string) (h h' : gmap string bytes) : Prop :=
  h' ⊆ h /\ forall p, p ∈ pins -> h' !! p = h !! p.

Class IpfsLaws (W : Type) `{!IpfsClient W, !CidLib} := {
  held : W -> CoreAPI -> gmap string bytes;
  pins : W -> CoreAPI -> gset string;
  up : W -> CoreAPI -> Prop;
  Put_spec api r w x w' : block_Put api r w = (x, w') -> (up w api -> up w' api) /\
    ((exists c, cid_Sum r = inl c /\ pins w' api = {[cid_String c]} ∪ pins w api /\
        collected (pins w' api) (<[cid_String c := r]> (held w api)) (held w' api)) \/
     (exists e, fst x = inr e) /\ pins w' api = pins w api /\ collected (pins w api) (held w api) (held w' api)) /\
    match x with (inl _, rest) => rest = [] | (inr _, _) => up w api -> exists e, cid_Sum r = inr e end;
  Stat_spec api p w x w' : block_Stat api p w = (x, w') -> (up w api -> up w' api) /\
    pins w' api = pins w api /\ collected (pins w api) (held w api) (held w' api) /\
    match x with inl (inl _) => is_Some (held w api !! p) | _ => up w api -> held w api !! p = None end;
  Get_spec api p w x w' : block_Get api p w = (x, w') -> (up w api -> up w' api) /\
    pins w' api = pins w api /\ collected (pins w api) (held w api) (held w' api) /\
    match x with inl (inl v) => held w api !! p = Some v | _ => up w api -> held w api !! p = None end;
  Rm_spec api p w x w' : pin_Rm api p w = (x, w') -> (up w api -> up w' api) /\
    collected (pins w' api) (held w api) (held w' api) /\
    match x with
    | inl _ => pins w' api = pins w api ∖ {[p]}
    | inr _ => (pins w' api = pins w api \/ pins w' api = pins w api ∖ {[p]}) /\ (up w api -> p ∉ pins w api)
    end
}.

(** Operations on a backend and their answers. *)
Inductive ipfs_op := OpStore (r : bytes) | OpGet (c : Cid) | OpIsExist (c : Cid) | OpRemove (c : Cid).
Inductive ipfs_answer := AnsStore (ok : bool) | AnsGet (content : option bytes) | AnsIsExist (there : bool) | AnsRemove (ok : bool).

Section IpfsTheorems.
Context `{!ErrorText, !MultiaddrLib, !CidLib} {W : Type} `{!IpfsClient W, !IpfsLaws W}.
Context (b : IpfsBackend).
Implicit Types (s : ips W) (t : list (ipfs_op * ipfs_answer)).

Definition ipfs_run (op : ipfs_op) : GoM (ips W) ipfs_answer :=
  match op with
  | OpStore r => x <- attempt (back_Store b r) ;; ret (AnsStore match x with inl (_, None) => true | _ => false end)
  | OpGet c => x <- attempt (back_Get b c) ;; ret (AnsGet match x with inl (inl v) => Some v | _ => None end)
  | OpIsExist c => x <- attempt (back_IsExist b c) ;; ret (AnsIsExist match x with inl there => there | _ => false end)
  | OpRemove c => x <- attempt (back_Remove b c) ;; ret (AnsRemove match x with inl _ => true | _ => false end)
  end.
Fixpoint ipfs_run_all (ops : list ipfs_op) : GoM (ips W) (list (ipfs_op * ipfs_answer)) :=
  match ops with
  | [] => ret []
  | op :: ops => a <- ipfs_run op ;; t <- ipfs_run_all ops ;; ret ((op, a) :: t)
  end.

(** The identifier of a content. *)
Definition id_of (r : bytes) : gset string := match cid_Sum r with inl c => {[cid_String c]} | inr _ => ∅ end.

(** The identifiers that were stored and that nobody has tried to remove since; and
    those that were removed and that nobody has tried to store since. *)
Definition keeps_step (k : gset string) (e : ipfs_op * ipfs_answer) : gset string :=
  match e with
  | (OpStore r, AnsStore true) => id_of r ∪ k
  | (OpRemove c, _) => k ∖ {[cid_String c]}
  | _ => k
  end.
Definition frees_step (k : gset string) (e : ipfs_op * ipfs_answer) : gset string :=
  match e with
  | (OpRemove c, AnsRemove true) => {[cid_String c]} ∪ k
  | (OpStore r, _) => k ∖ id_of r
  | _ => k
  end.
Definition keeps (k : gset string) t : gset string := foldl keeps_step k t.
Definition frees (k : gset string) t : gset string := foldl frees_step k t.

(** What an answer says, after a part of the run that keeps [k]. *)
Definition answer_ok (responds : Prop) (k : gset string) (e : ipfs_op * ipfs_answer) : Prop :=
  match e with
  | (OpStore r, AnsStore true) => True
  | (OpStore r, AnsStore false) => responds -> exists err, CalculateCid r = inr err
  | (OpGet c, AnsGet (Some v)) => exists c', CalculateCid v = inl c' /\ cid_String c' = cid_String c
  | (OpGet c, AnsGet None) => responds -> cid_String c ∉ k
  | (OpIsExist c, AnsIsExist there) => there = false -> responds -> cid_String c ∉ k
  | (OpRemove c, AnsRemove ok) => ok = false -> responds -> cid_String c ∉ k
  | _ => False
  end.

(** The node of the backend: every block has the identifier that it is under, what is
    kept is pinned and there, and what is freed is not pinned. *)
Record node_ok (api : CoreAPI) (keep free : gset string) s : Prop := {
  nk_api : ip_apis s !! ib_ref b = Some api;
  nk_addressed : forall p v, held (ip_w s) api !! p = Some v -> exists c, cid_Sum v = inl c /\ cid_String c = p;
  nk_keep : forall p, p ∈ keep -> p ∈ pins (ip_w s) api /\ is_Some (held (ip_w s) api !! p);
  nk_free : forall p, p ∈ free -> p ∉ pins (ip_w s) api
}.
Definition responds s : Prop := exists api, ip_apis s !! ib_ref b = Some api /\ up (ip_w s) api.

Lemma wp_client api op s (Q : outcome ipfs_answer -> ips W -> Prop) :
  ip_apis s !! ib_ref b = Some api ->
  match op with
  | OpStore r => forall x w', block_Put api r (ip_w s) = (x, w') ->
      Q (Ret (AnsStore match fst x with inl _ => true | inr _ => false end)) (Ips w' (ip_apis s) (ip_next s) (ip_plugins s))
  | OpGet c => forall x w', block_Get api (cid_String c) (ip_w s) = (x, w') ->
      Q (Ret (AnsGet match x with inl (inl v) => Some v | _ => None end)) (Ips w' (ip_apis s) (ip_next s) (ip_plugins s))
  | OpIsExist c => forall x w', block_Stat api (cid_String c) (ip_w s) = (x, w') ->
      Q (Ret (AnsIsExist match x with inl (inl _) => true | _ => false end)) (Ips w' (ip_apis s) (ip_next s) (ip_plugins s))
  | OpRemove c => forall x w', pin_Rm api (cid_String c) (ip_w s) = (x, w') ->
      Q (Ret (AnsRemove match x with inl _ => true | inr _ => false end)) (Ips w' (ip_apis s) (ip_next s) (ip_plugins s))
  end -> wp (ipfs_run op) s Q.
Proof.
  intros E HQ. unfold wp. destruct op as [r|c|c|c]; cbn [ipfs_run back_Store back_Get back_IsExist back_Remove ipfs_backend];
    unfold ipfs_Store, ipfs_Get, ipfs_IsExist, ipfs_Remove, wrapping, or_else, attempt, bind, api_of, gets, on_ipfs, zoom, invoke;
    unfold bind; cbn; rewrite E; cbn.
  - destruct (block_Put api r (ip_w s)) as [[[id|e] rest] w'] eqn:Ex; exact (HQ _ _ eq_refl).
  - destruct (block_Get api _ _) as [[[v|e]|e] w'] eqn:Ex; exact (HQ _ _ eq_refl).
  - destruct (block_Stat api _ _) as [[[v|e]|e] w'] eqn:Ex; exact (HQ _ _ eq_refl).
  - destruct (pin_Rm api _ _) as [[v|e] w'] eqn:Ex; exact (HQ _ _ eq_refl).
Qed.

(** A call that pins [pins'] and collects blocks of [h] keeps what is in order. *)
Lemma node_ok_after api keep free keep' free' s w' (h : gmap string bytes) :
  node_ok api keep free s ->
  (forall p v, h !! p = Some v -> exists c, cid_Sum v = inl c /\ cid_String c = p) ->
  collected (pins w' api) h (held w' api) ->
  (forall p, p ∈ keep' -> p ∈ pins w' api /\ is_Some (h !! p)) -> (forall p, p ∈ free' -> p ∉ pins w' api) ->
  node_ok api keep' free' (Ips w' (ip_apis s) (ip_next s) (ip_plugins s)).
Proof.
  intros [Hapi _ _ _] Ha [Hsub Hpin] Hk Hf. split; cbn [ip_apis ip_w]; [done| | |done].
  - intros p v Hv. apply Ha. by eapply lookup_weaken.
  - intros p [Hp Hs]%Hk. by rewrite (Hpin p Hp).
Qed.

Lemma ipfs_step api keep free op s :
  node_ok api keep free s ->
  wp (ipfs_run op) s (fun o s' => exists a, o = Ret a /\ node_ok api (keeps_step keep (op, a)) (frees_step free (op, a)) s' /\
    (responds s -> responds s') /\ answer_ok (responds s) keep (op, a)).
Proof.
  intros Hok. pose proof Hok as [Hapi Haddr Hk Hf].
  assert (forall w', (up (ip_w s) api -> up w' api) -> responds s -> responds (Ips w' (ip_apis s) (ip_next s) (ip_plugins s))) as Hresp.
  { intros w' Hup (api' & E & Ha). rewrite Hapi in E. injection E as <-. exists api. split; [done|by apply Hup]. }
  assert (responds s -> up (ip_w s) api) as Hup.
  { intros (api' & E & Ha). rewrite Hapi in E. by injection E as <-. }
  assert (forall p, p ∈ keep -> held (ip_w s) api !! p <> None) as Hthere.
  { intros p [_ [v Hv]]%Hk. congruence. }
  apply (wp_client api); [done|]. destruct op as [r|c|c|c]; intros x w' E; eexists; (split; [reflexivity|]).
  - destruct (Put_spec _ _ _ _ _ E) as (Hu & Heff & Hx). split; [|split; [by apply Hresp|]].
    + destruct Heff as [(c & Hc & Hp & Hcol)|(Herr & Hp & Hcol)].
      * eapply node_ok_after; [exact Hok| |exact Hcol| |].
        { intros p v [[<- <-]|[_ Hv]]%lookup_insert_Some; eauto. }
        { intros p Hin. rewrite Hp. assert (p = cid_String c \/ p ∈ keep) as [->|Hkp].
          { destruct (fst x); cbn in Hin; [unfold id_of in Hin; rewrite Hc in Hin|]; set_solver. }
          - rewrite lookup_insert_eq. set_solver.
          - destruct (Hk p Hkp) as [? ?]. split; [set_solver|]. rewrite lookup_insert. by case_decide. }
        { intros p Hin. cbn in Hin. unfold id_of in Hin. rewrite Hc in Hin. rewrite Hp. specialize (Hf p). destruct (fst x); set_solver. }
      * destruct Herr as [e Herr]. rewrite Herr. rewrite <-Hp in Hcol. eapply node_ok_after; [exact Hok|exact Haddr|exact Hcol| |].
        { intros p Hin. rewrite Hp. by apply Hk. }
        { intros p Hin. rewrite Hp. apply Hf. cbn in Hin. set_solver. }
    + destruct x as [[id|e] rest]; cbn; [done|]. intros [err Herr]%Hup%Hx. unfold CalculateCid. rewrite Herr. eauto.
  - destruct (Get_spec _ _ _ _ _ E) as (Hu & Hp & Hcol & Hx). rewrite <-Hp in Hcol. split; [|split; [by apply Hresp|]].
    + eapply node_ok_after; [exact Hok|exact Haddr|exact Hcol|rewrite Hp; exact Hk|rewrite Hp; exact Hf].
    + destruct x as [[v|e]|e]; cbn.
      * apply Haddr in Hx as (c' & Hc' & Ec). unfold CalculateCid. rewrite Hc'. eauto.
      * intros Hn%Hup%Hx Hin. by apply (Hthere _ Hin).
      * intros Hn%Hup%Hx Hin. by apply (Hthere _ Hin).
  - destruct (Stat_spec _ _ _ _ _ E) as (Hu & Hp & Hcol & Hx). rewrite <-Hp in Hcol. split; [|split; [by apply Hresp|]].
    + eapply node_ok_after; [exact Hok|exact Haddr|exact Hcol|rewrite Hp; exact Hk|rewrite Hp; exact Hf].
    + destruct x as [[v|e]|e]; cbn; [done|intros _ Hn%Hup%Hx Hin; by apply (Hthere _ Hin)..].
  - destruct (Rm_spec _ _ _ _ _ E) as (Hu & Hcol & Hx). split; [|split; [by apply Hresp|]].
    + eapply node_ok_after; [exact Hok|exact Haddr|exact Hcol| |].
      * intros p Hin. cbn in Hin. destruct (Hk p ltac:(set_solver)) as [? ?]. split; [|done].
        destruct x as [u|e]; [rewrite Hx; set_solver|]. destruct Hx as [[-> | ->] _]; set_solver.
      * intros p Hin. specialize (Hf p). cbn in Hin. destruct x as [u|e]; [rewrite Hx; set_solver|].
        destruct Hx as [[-> | ->] _]; set_solver.
    + destruct x as [u|e]; cbn; [done|]. intros _ Hn%Hup%(proj2 Hx) Hin. by destruct (Hk _ Hin).
Qed.


(** A connection in the configuration that names the node in the process opens, and
    the first use of it panics. *)
Lemma sao_connection_panics conn r s :
  HasPrefix conn sao_scheme = true -> ip_apis s !! ip_next s = None ->
  (b <- NewIpfsBackend conn None ;; ipfs_Open b ;; ipfs_Store b r) s =
    (Panic, Ips (ip_w s) (ip_apis s) (S (ip_next s)) (ip_plugins s)).
Proof.
  intros Hp Hn. unfold NewIpfsBackend, ipfs_Open, ipfs_Store, api_of, new_ref, gets, ret, bind. rewrite Hp. cbn -[HasPrefix]. rewrite Hp. cbn -[HasPrefix].
  by rewrite Hn.
Qed.
End IpfsTheorems.

(** ** An IPFS node in memory

    Its blocks, and the identifiers that are pinned; it collects when a block is
    unpinned. *)
Module MemIpfs.
Import TextCid.

Definition mem : Type := gmap string bytes * gset string.
#[export] Instance Client : IpfsClient mem := {
  CoreAPI := unit;
  httpapi_NewApi _ := inl tt;
  block_Put _ r w := let id := String "Q" (bytes_string r) in ((inl id, []), (<[id := r]> w.1, {[id]} ∪ w.2));
  block_Stat _ p w := (match w.1 !! p with Some _ => inl (inl tt) | None => inr (EText "not found") end, w);
  block_Get _ p w := (match w.1 !! p with Some v => inl (inl v) | None => inr (EText "not found") end, w);
  pin_Rm _ p w := if decide (p ∈ w.2)
    then let pins := w.2 ∖ {[p]} in (inl tt, (filter (fun e => e.1 ∈ pins) w.1, pins))
    else (inr (EText "not pinned"), w)
}.
Lemma nothing_collected pins h : collected pins h h.
Proof. done. Qed.
#[export] Instance Laws : IpfsLaws mem.
Proof.
  refine {| held w _ := w.1; pins w _ := w.2; up _ _ := True |}.
  - intros [] r w x w' [= <- <-]. split; [done|]. split; [|done]. left. by exists (MkCid (String "Q" (bytes_string r))).
  - intros [] p w x w' [= <- <-]. split_and!; [done..|]. cbn. by destruct (w.1 !! p).
  - intros [] p w x w' [= <- <-]. split_and!; [done..|]. by destruct (w.1 !! p).
  - intros [] p w x w' E. cbn in E. destruct (decide _) as [Hp|Hp]; injection E as <- <-; (split; [done|]); split; cbn.
    + split; [apply map_filter_subseteq|]. intros q Hq. destruct (w.1 !! q) as [v|] eqn:Ev.
      * by apply map_lookup_filter_Some.
      * apply map_lookup_filter_None. by left.
    + done.
    + done.
    + split; [by left|done].
Defined.

Definition backend : IpfsBackend := MkIpfsBackend 0 "ipfs+sao".
Definition start : ips mem := Ips (∅, ∅) {[0%nat := tt]} 1 true.
#[export] Instance Addresses : MultiaddrLib := { NewMultiaddr s := inl s; DialArgs s := inl s }.

(** Two blocks are stored and one is removed and collected; the other is read. *)
Definition some_ops : list ipfs_op :=
  [OpStore (string_bytes "one"); OpStore (string_bytes "two"); OpRemove (MkCid "Qone"); OpGet (MkCid "Qone");
   OpIsExist (MkCid "Qtwo"); OpGet (MkCid "Qtwo"); OpRemove (MkCid "Qthree")].
End MemIpfs.
