(* ===== verification/NodeStart.v ===== *)
(** * Starting and stopping a node ([node/node.go], [rpc.go], [shutdown.go],
      [node/transport/libp2p_udp_rpc.go], [api/permissioned.go], [proxy_gen.go])

    [NewNode] reads the repository, listens, makes the services of the modules that are
    enabled and announces the node on the chain.  The services have their own files;
    here they are the interface [Services], which says when each is made and with
    what.  The API is served behind a handler that asks for the permissions of a
    token. *)
From stdpp Require Import base list gmap strings.
From Stdlib Require Import ZArith Lia Ascii.
From S2P Require Import Prelude Types StateUtils Cbor CborTypes Instances StoreManager.
From S2P Require Import ChainApi Storage Stage Chain Gateway NodeApi Upload Client Config Repo ChainInfo NodeCmds Ipfs.

(** ** Libraries *)
Class HostLib (W : Type) `{!RepoLib W} := {
  Host : Type;
  host_New : list string -> PrivKey -> call W Host;
  host_ID : Host -> string;
  host_Addrs : Host -> list string;
  Encapsulate : string -> string -> string;
  host_Peers : Host -> total_call W (list string);             (* of its peerstore *)
  host_PeerAddrs : Host -> string -> total_call W (list string);
  host_Conns : Host -> total_call W (list string);             (* the remote peers *)
  peer_ShortString : string -> string;
  AddrInfo : Type;
  AddrInfoFromP2pAddr : string -> AddrInfo + error;
  host_Connect : Host -> AddrInfo -> call W unit;
  Transport : Type;
  webtransport_New : PrivKey -> call W Transport;
  host_NewOn : Transport -> PrivKey -> call W Host;
  host_Listen : Host -> string -> call W unit;
  host_SetStreamHandler : Host -> total_call W unit;
  manet_Listen : string -> call W unit
}.

(** [go-jsonrpc/auth]: a proxy that asks for the permissions of the tags of its methods,
    or a panic. *)
Class AuthLib := { Proxy : Type; PermissionedProxy : list string -> list string -> list (string * string) -> option Proxy }.

Inductive StopFunc := StopIpfs | StopStorage | StopModels | StopHttpFiles | StopIndexer | StopGraphql | StopRpc | StopChain | CloseNotify.

(** The services, made with the address of the node, a path or an address to listen at;
    a goroutine that a service starts is a part of it. *)
Class Services (W : Type) := {
  NewStoreService : string -> string -> call W unit;
  NewGatewaySvc : string -> string -> total_call W unit;
  StartHttpFileServer : string -> call W unit;
  NewIndexSvc : string -> total_call W unit;
  StartGraphqlServer : string -> call W unit;
  stop_service : StopFunc -> call W unit
}.

(** ** Texts *)
Definition HasSuffix (s suffix : string) : bool :=
  Nat.leb (String.length suffix) (String.length s) &&
  String.eqb (String.substring (String.length s - String.length suffix) (String.length suffix) s) suffix.
(** [strings.TrimRight(s, ",")] *)
Fixpoint trim_commas (s : string) : string :=
  match s with
  | "" => ""
  | String c s => match trim_commas s with "" => if Ascii.eqb c "," then "" else String c "" | t => String c t end
  end.
(** [strings.Join(l, ",")] *)
Definition join (l : list string) : string := String.concat "," l.
(** A text is added to others, after a comma. *)
Definition add_comma (peerInfos a : string) : string :=
  (if (0 <? String.length peerInfos)%nat then peerInfos +:+ "," else peerInfos) +:+ a.

(** [sort.Strings] *)
Fixpoint insert_string (s : string) (l : list string) : list string :=
  match l with
  | [] => [s]
  | t :: l' => if String.leb s t then s :: l else t :: insert_string s l'
  end.
Definition sort_strings (l : list string) : list string := foldr insert_string [] l.

(** ** The methods of the API, with the tags of their permissions *)
Definition SaoApiStruct : list (string * string) := [
  ("AuthNew", "admin"); ("AuthVerify", "none"); ("FaultsCheck", ""); ("GenerateToken", "read"); ("GetHttpUrl", "read");
  ("GetIpfsUrl", "read"); ("GetNetPeers", "read"); ("GetNodeAddress", "read"); ("GetPeerInfo", "read"); ("MigrateJobList", "");
  ("ModelCreate", "write"); ("ModelCreateFile", "write"); ("ModelDelete", "write"); ("ModelLoad", "read");
  ("ModelMigrate", "write"); ("ModelRenewOrder", "write"); ("ModelShowCommits", "read"); ("ModelUpdate", "write");
  ("ModelUpdatePermission", "write"); ("OrderList", ""); ("OrderStatus", "read"); ("RecoverCheck", ""); ("ShardList", "");
  ("ShardStatus", "read")].
Definition DefaultPerms : list string := [PermNone].
Definition PermissionedSaoNodeAPI `{!AuthLib} : option Proxy := PermissionedProxy AllPermissions DefaultPerms SaoApiStruct.

(** A method of the proxy that has no function. *)
Definition ErrNotSupported : error := EText "method not supported".
Definition proxied {S A B} (f : option (A -> GoM S B)) (a : A) : GoM S B :=
  match f with None => fail ErrNotSupported | Some f => f a end.

Section NodeStart.
Context `{!ErrorText, !CidLib, !GoRange, !ConfigToml, !JwtLib, !MultiaddrLib, !AuthLib} {W : Type}.
Context `{!SaoTypes, !CosmosLib W, !KeyringLib W, !RandLib W, !FileSys W, !StatFiles W, !OpenFiles W, !RepoLib W,
          !RepoStores W, !EnvConfig W, !ChainStart W, !Console W, !HostLib W, !Services W, !IpfsClient W, !Kubo W}.

(** The state of the commands, and the clients of the IPFS backends. *)
Record sns := Sns { st_nc : nc (W := W); st_apis : gmap nat CoreAPI; st_next : nat; st_plugins : bool }.
Definition on_nc {A} (m : GoM (nc (W := W)) A) : GoM sns A :=
  zoom st_nc (fun n s => Sns n (st_apis s) (st_next s) (st_plugins s)) m.
Definition on_ips {A} (m : GoM (ips W) A) : GoM sns A :=
  zoom (fun s => Ips (ch_c (nc_ch (st_nc s))) (st_apis s) (st_next s) (st_plugins s))
       (fun i s => Sns (set_w (ip_w i) (st_nc s)) (ip_apis i) (ip_next i) (ip_plugins i)) m.
Definition in_w {A} (m : GoM W A) : GoM (nc (W := W)) A := on_w m.

(** ** Tokens *)
Definition AuthVerify (r : Repo) (token : string) : GoM W (list string) :=
  key <- wrapping ErrDecodeConfigFailed (GetKeyBytes r) ;;
  match jwt_Verify token key with
  | inl allow => ret allow
  | inr err => fail (Wrapf ErrInvalidJwt ("JWT Verification failed: " +:+ Error err))
  end.
Definition AuthNew (r : Repo) (perms : list string) : GoM W string :=
  key <- wrapping ErrDecodeConfigFailed (GetKeyBytes r) ;; lift (jwt_Sign perms key).

(** Without permissions every token has all of them. *)
Definition authVerify (token : string) : GoM W (list string) := ret AllPermissions.
Definition GatewayRpcHandler (r : Repo) (enablePermission : bool) : GoM W (string -> GoM W (list string)) :=
  if enablePermission then _proxy <- deref PermissionedSaoNodeAPI ;; ret (AuthVerify r) else ret authVerify.
Definition ServeRPC (addr : string) : GoM W unit := invoke (manet_Listen addr).
Definition newRpcServer (r : Repo) (cfg : ApiConf) : GoM W (string -> GoM W (list string)) :=
  try handler <- GatewayRpcHandler r (EnablePermission cfg)
    catch err => fail (Wrapf ErrStartPRPCServerFailed ("failed to instantiate rpc handler: " +:+ Error err)) ;;
  let strma := TrimSpace (api_ListenAddress cfg) in
  try endpoint <- lift (NewMultiaddr strma)
    catch err => fail (Wrapf ErrInvalidServerAddress ("invalid endpoint: " +:+ strma +:+ ", " +:+ Error err)) ;;
  try _u <- ServeRPC endpoint
    catch err => fail (Wrapf ErrStartPRPCServerFailed ("failed to start json-rpc endpoint: " +:+ Error err)) ;;
  ret handler.

(** ** Peers *)
Definition with_p2p (host : Host) (a : string) : string := Encapsulate a ("/p2p/" +:+ host_ID host).
Definition valid_peers (wrap : string -> error -> error) (peerInfos : string) : GoM W unit :=
  for_each (Split peerInfos ",") (fun p =>
    try _ma <- lift (NewMultiaddr p) catch err => fail (wrap p err) ;; ret tt).

(** The addresses that are announced: those of the configuration, or of the host. *)
Definition announced_peers (cfg : Config) (host : Host) : GoM W string :=
  let announce := AnnounceAddresses (cf_Libp2p cfg) in
  if (0 <? length announce)%nat then
    valid_peers (fun p _ => Wrapf ErrInvalidPeerInfo p) (join announce) ;; ret (join announce)
  else ret (foldl (fun peerInfos a => add_comma peerInfos (with_p2p host a)) "" (host_Addrs host)).

(** [StartLibp2pRpcServer]: the addresses of the server are added to those that are
    kept; a failed write is not noticed. *)
Definition local_udp : string := "/ip4/127.0.0.1/udp/5154".
(** [StringCast] panics on what is no address. *)
Definition StringCast (s : string) : GoM W string := match NewMultiaddr s with inl ma => ret ma | inr _ => panic end.
Definition StartLibp2pRpcServer (address : string) (serverKey : PrivKey) (db : string) (cfg : Config) : GoM W unit :=
  tr <- invoke (webtransport_New serverKey) ;;
  h <- invoke (host_NewOn tr serverKey) ;;
  ma <- StringCast (address +:+ "/quic/webtransport") ;;
  invoke (host_Listen h ma) ;;
  let peerInfos := with_p2p h <$> host_Addrs h in
  let addressPattern :=
    foldl (fun pattern a => if Contains a local_udp then with_p2p h a else pattern) "" (host_Addrs h) in
  let announce := AnnounceAddresses (cf_Libp2p cfg) in
  let announceAddresses :=
    (fun a => ReplaceAll addressPattern local_udp a) <$> List.filter (fun a => Contains a "udp") announce in
  let peerInfos := if (0 <? length announceAddresses)%nat then peerInfos ++ [join announceAddresses] else peerInfos in
  (if (0 <? length peerInfos)%nat then
     let key := store_NewKey PEER_INFO_PREFIX in
     peers <- invoke (store_Get db key) ;;
     ignore (invoke (store_Put db key (string_bytes
       (if (0 <? length peers)%nat then bytes_string peers +:+ "," +:+ join peerInfos else join peerInfos))))
   else ret tt) ;;
  invoke_total (host_SetStreamHandler h).

(** A node that is a gateway and is not known yet is connected to, at the first of its
    addresses that answers. *)
Fixpoint connect_one (host : Host) (peerInfos : list string) : GoM W unit :=
  match peerInfos with
  | [] => ret tt
  | peerInfo :: rest =>
      if Contains peerInfo "udp" || Contains peerInfo "127.0.0.1" then connect_one host rest else
      peers <- invoke_total (host_Peers host) ;;
      if existsb (fun p => Contains peerInfo (peer_ShortString p)) peers then connect_one host rest else
      match NewMultiaddr peerInfo with
      | inr _ => connect_one host rest
      | inl a =>
          match AddrInfoFromP2pAddr a with
          | inr _ => connect_one host rest
          | inl pi =>
              r <- attempt (invoke (host_Connect host pi)) ;;
              match r with inr _ => connect_one host rest | inl _ => ret tt end
          end
      end
  end.
Definition ConnectPeers (host : Host) : GoM (nc (W := W)) unit :=
  try nodes <- on_ch ListNodes catch err => ret tt ;;
  for_each nodes (fun node =>
    if Z.land (nd_Status node) NODE_STATUS_SERVE_GATEWAY =? 0 then ret tt
    else if Contains (nd_Peer node) (host_ID host) then ret tt
    else on_w (connect_one host (Split (nd_Peer node) ","))).

Definition GetNetPeers (host : Host) : GoM W (list PeerInfo) :=
  conns <- invoke_total (host_Conns host) ;;
  fold_m (fun out peer =>
    addrs <- invoke_total (host_PeerAddrs host peer) ;;
    ret (out ++ [MkPeerInfo peer (sort_strings addrs)])) [] conns.

(** ** The node *)
Record Node := MkNode {
  n_cfg : Config; n_repo : Repo; n_host : Host; n_address : string; n_tds : string;
  n_gateway : bool; n_storage : bool; n_verify : string -> GoM W (list string); n_stopFuncs : list StopFunc
}.

(** The modules: what they add to the functions that stop the node and to its status. *)
Definition start_ipfs (r : Repo) (cfg : Config) : GoM sns (list StopFunc * list IpfsBackend) :=
  if cf_SaoIpfs cfg then
    path <- lift (NewIpfsDaemon (path_Join [rp_Path r; "ipfs"])) ;;
    started <- on_ips (daemon_Start path) ;;
    ipfsBackend <- on_ips (NewIpfsBackend "ipfs+sao" (Some (fst started))) ;;
    ret ([StopIpfs], [ipfsBackend])
  else ret ([], []).

Definition add_connection (m : StoreManager IpfsBackend) (conn : string) : GoM sns (StoreManager IpfsBackend) :=
  ipfsBackend <- on_ips (NewIpfsBackend conn None) ;;
  on_ips (ipfs_Open ipfsBackend) ;;
  ret (AddBackend m ipfsBackend).

Definition start_storage (cfg : Config) (nodeAddr stagingPath : string) (m : StoreManager IpfsBackend) (status : Z) :
    GoM sns (list StopFunc * Z) :=
  if StorageEnable (cf_Module cfg) then
    let status := Z.lor status NODE_STATUS_SERVE_STORAGE in
    let status := if AcceptOrder (cf_Storage cfg) then Z.lor status NODE_STATUS_ACCEPT_ORDER else status in
    fold_m add_connection m (Ipfs (cf_Storage cfg)) ;;
    on_nc (on_w (invoke (NewStoreService nodeAddr stagingPath))) ;;
    ret ([StopStorage], status)
  else ret ([], status).

Definition start_gateway (r : Repo) (cfg : Config) (nodeAddr : string) (status : Z) : GoM sns (list StopFunc * Z) :=
  if GatewayEnable (cf_Module cfg) then
    let configured := HttpFileServerPath (cf_Http cfg) in
    let serverPath := if String.eqb configured "" then path_Join [rp_Path r; "http-files"] else configured in
    let status := Z.lor status NODE_STATUS_SERVE_GATEWAY in
    on_nc (on_w (invoke_total (NewGatewaySvc nodeAddr serverPath))) ;;
    stops <- (if http_Enable (cf_Http cfg) then
                on_nc (on_w (invoke (StartHttpFileServer serverPath))) ;; ret [StopModels; StopHttpFiles]
              else ret [StopModels]) ;;
    ret (stops, status)
  else ret ([], status).

Definition start_indexer (r : Repo) (cfg : Config) (status : Z) : GoM sns (list StopFunc * Z) :=
  if IndexerEnable (cf_Module cfg) then
    let status := Z.lor status NODE_STATUS_SERVE_INDEXER in
    on_nc (on_rs (Datastore_ r "/indexer")) ;;
    dbPath <- wrapping ErrInvalidPath (lift (homedir_Expand (DbPath (cf_Indexer cfg)))) ;;
    on_nc (on_w (invoke_total (NewIndexSvc dbPath))) ;;
    on_nc (on_w (invoke (StartGraphqlServer (ix_ListenAddress (cf_Indexer cfg))))) ;;
    ret ([StopIndexer; StopGraphql], status)
  else ret ([], status).

(** The pledge of the node: asked for until there is one.  [fuel] bounds the
    questions. *)
Definition not_found : string := "code = NotFound desc = not found: key not found".
Definition has_pledged (nodeAddr : string) : GoM (nc (W := W)) bool :=
  pledge <- attempt (on_ch (GetPledgeInfo nodeAddr)) ;;
  match pledge with
  | inr err => if Contains (Error err) not_found then ret false else fail err
  | inl amount => ret (0 <? amount)
  end.
Fixpoint confirm_pledge (fuel : nat) (cfg : Config) (nodeAddr : string) : GoM (nc (W := W)) unit :=
  match fuel with
  | O => out_of_fuel
  | S fuel =>
      if negb (StorageEnable (cf_Module cfg)) && negb (AcceptOrder (cf_Storage cfg)) then ret tt else
      indata <- wrapping ErrInvalidParameters (on_w (invoke ReadLine)) ;;
      if negb (String.eqb (ToLower (without newline indata)) "yes") then confirm_pledge fuel cfg nodeAddr else
      pledged <- has_pledged nodeAddr ;;
      if pledged : bool then ret tt else confirm_pledge fuel cfg nodeAddr
  end.

Definition NewNode (fuel : nat) (r : Repo) (keyringHome : string) : GoM sns Node :=
  cfg <- on_nc (on_w (repo_Config r)) ;;
  mds <- on_nc (on_rs (Datastore_ r "/metadata")) ;;
  abytes <- wrapping ErrGetFailed (on_nc (on_w (invoke (store_Get mds (store_NewKey "node-address"))))) ;;
  let nodeAddr := bytes_string abytes in
  peerKey <- on_nc (on_w (PeerId r)) ;;
  host <- wrapping ErrCreateP2PServiceFaild (on_nc (on_w (invoke (host_New (l2p_ListenAddress (cf_Libp2p cfg)) peerKey)))) ;;
  peerInfos <- on_nc (on_w (announced_peers cfg host)) ;;
  on_nc (on_ch (NewChainSvc (Remote (cf_Chain cfg)) (WsEndpoint (cf_Chain cfg)) keyringHome)) ;;
  addresses <- (if 0 <? TxPoolSize (cf_Chain cfg) then
                  ap <- on_nc (on_w (LoadAddressPool keyringHome (TxPoolSize (cf_Chain cfg)))) ;;
                  on_nc (on_ch (SetAddressPool ap)) ;;
                  ap <- deref ap ;;
                  ret (pool_addresses ap)
                else ret []) ;;
  tds <- on_nc (on_rs (Datastore_ r "/transport")) ;;
  let key := store_NewKey PEER_INFO_PREFIX in
  ignore (on_nc (on_w (invoke (store_Put tds key (string_bytes peerInfos))))) ;;
  on_nc (on_rs (Datastore_ r "/order")) ;;
  let transportStagingPath := path_Join [rp_Path r; "staging"] in
  for_each (TransportListenAddress (cf_Transport cfg)) (fun address =>
    if Contains address "udp" then
      wrapping ErrStartLibP2PRPCServerFailed (on_nc (on_w (StartLibp2pRpcServer address peerKey tds cfg)))
    else fail (Wrapf ErrInvalidServerAddress ("invalid transport server address " +:+ address))) ;;
  peerInfosBytes <- wrapping ErrGetFailed (on_nc (on_w (invoke (store_Get tds key)))) ;;
  peerInfos <- (if HasSuffix (bytes_string peerInfosBytes) "," then
                  let trimmed := trim_commas (bytes_string peerInfosBytes) in
                  ignore (on_nc (on_w (invoke (store_Put tds key (string_bytes trimmed))))) ;; ret trimmed
                else ret (bytes_string peerInfosBytes)) ;;
  on_nc (on_w (valid_peers (fun _ err => Wrap ErrInvalidServerAddress (Some err)) peerInfos)) ;;
  ipfs <- start_ipfs r cfg ;;
  storage <- start_storage cfg nodeAddr transportStagingPath (NewStoreManager (snd ipfs)) NODE_STATUS_ONLINE ;;
  gateway <- start_gateway r cfg nodeAddr (snd storage) ;;
  indexer <- start_indexer r cfg (snd gateway) ;;
  let status := snd indexer in
  verify <- on_nc (on_w (newRpcServer r (cf_Api cfg))) ;;
  _read <- on_nc (on_w (AuthNew r (take 2 AllPermissions))) ;;
  _write <- on_nc (on_w (AuthNew r (take 3 AllPermissions))) ;;
  (if StorageEnable (cf_Module cfg) then on_nc (ConnectPeers host) else ret tt) ;;
  pledged <- on_nc (has_pledged nodeAddr) ;;
  (if pledged : bool then ret tt else on_nc (confirm_pledge fuel cfg nodeAddr)) ;;
  on_nc (on_ch (Reset nodeAddr (bytes_string peerInfosBytes) status addresses None)) ;;
  ret (MkNode cfg r host nodeAddr tds (GatewayEnable (cf_Module cfg)) (StorageEnable (cf_Module cfg)) verify
         (fst ipfs ++ fst storage ++ fst gateway ++ fst indexer ++ [StopRpc; StopChain; CloseNotify])).

(** The functions are called in their order; the first error ends it. *)
Definition Node_Stop (n : Node) : GoM W unit := for_each (n_stopFuncs n) (fun f => invoke (stop_service f)).

(** [MonitorShutdown], when a signal has come: errors of the handlers are logged. *)
Definition shutdown (handlers : list (string * GoM W unit)) : GoM W unit := for_each handlers (fun h => ignore (snd h)).
Definition runCmd (fuel : nat) (cctx : ncli) : GoM sns unit :=
  repo <- on_nc (prepareRepo cctx) ;;
  snode <- NewNode fuel repo (nf_KeyringHome cctx) ;;
  on_nc (on_w (shutdown [("storagenode", Node_Stop snode)])).
End NodeStart.

(** ** Methods that are passed on

    The service of a module that is not enabled is nil. *)
Definition enabled {S A} (module : bool) (m : GoM S A) : GoM S A := if module then m else panic.

Section Methods.
Context `{!CborLib, !CidLib} {D W : Type} `{!Datastore D, !ChainConsts, !ChainSvcApi W, !GoRange}.
Context (gateway storage : bool).

Definition Node_OrderStatus (id : string) : GoM (Gateway.gw (D := D) (W := W)) OrderInfo := enabled gateway (Gateway.OrderStatus id).
Definition Node_OrderList : GoM (Gateway.gw (D := D) (W := W)) (list OrderInfo) := enabled gateway Gateway.OrderList.
Definition Node_OrderFix (id : string) : GoM (Gateway.gw (D := D) (W := W)) unit := enabled gateway (Gateway.OrderFix id).
Definition Node_ShardStatus (orderId : Z) (cid : Cid) : GoM (Storage.svc (D := D) (W := W)) ShardInfo :=
  enabled storage (Storage.ShardStatus orderId cid).
Definition Node_ShardList : GoM (Storage.svc (D := D) (W := W)) (list ShardInfo) := enabled storage Storage.ShardList.
Definition Node_ShardFix (orderId : Z) (cid : Cid) : GoM (Storage.svc (D := D) (W := W)) unit :=
  enabled storage (Storage.ShardFix orderId cid).
(** The response, with the error that comes beside it. *)
Definition Node_ModelMigrate (nodeAddress : string) (dataIds : list string) :
    GoM (Storage.svc (D := D) (W := W)) (string * gmap string string * option error) :=
  enabled storage (Storage.Migrate nodeAddress dataIds).
Definition Node_MigrateJobList : GoM (Storage.svc (D := D) (W := W)) (list MigrateInfo) := enabled storage Storage.MigrateList.
End Methods.
