(* ===== verification/Lifecycle.v ===== *)
(** * Starting and stopping the services ([NewStoreService], [NewGatewaySvc],
      [NewModelManager], [NewIndexSvc] and their [Stop]; the turn of
      [ConnectToGatewayCluster])

    A start makes the state of a service, registers its handlers on the host and starts
    its goroutines, whose turns are defined with the services; here a goroutine is
    its name.  [handlers_left]: what the host still answers after a stop. *)
From stdpp Require Import base list gmap strings.
From Stdlib Require Import ZArith Lia.
From S2P Require Import Prelude Types StateUtils Cbor CborTypes Queue StoreManager ChainApi Storage Stage Chain Gateway Streams.
From S2P Require Import Indexer Client Config Repo ChainInfo NodeCmds Ipfs NodeStart.

Inductive goroutine :=
  | ListenShardAssign | ProcessIncompleteShards | ProcessMigrateLoop | ProcessExpire | StorageStart
  | ListenShardComplete | RunSched | ProcessIncompleteOrders | CompleteLoop | CheckTimeout
  | IndexRunSched | ProcessPendingJobs.

(** The host with its handlers, what runs, and a service. *)
Record hosted (S : Type) := Hosted { ho_svc : S; ho_handlers : handlers; ho_running : list goroutine }.
Arguments Hosted {S}.
Arguments ho_svc {S}.
Arguments ho_handlers {S}.
Arguments ho_running {S}.

Section Hosted.
Context {S : Type}.
Definition on_service {A} (m : GoM S A) : GoM (hosted S) A :=
  zoom ho_svc (fun x s => Hosted x (ho_handlers s) (ho_running s)) m.
Definition on_host (f : handlers -> handlers) : GoM (hosted S) unit :=
  modify (fun s => Hosted (ho_svc s) (f (ho_handlers s)) (ho_running s)).
Definition spawn (g : goroutine) : GoM (hosted S) unit :=
  modify (fun s => Hosted (ho_svc s) (ho_handlers s) (ho_running s ++ [g])).
End Hosted.

(** ** The storage service *)
Section StorageService.
Context `{!CborLib, !CidLib, !ErrorText} {D W B : Type}.
Context `{!Datastore D, !StoreBackend W B, !ChainConsts, !ChainSvcApi W, !GoRange}.

(** The service of a world and a datastore: no task, no migration. *)
Definition new_store (w : W) (d : D) : Storage.svc (D := D) (W := W) := Svc w d [] [] [].

(** The pages of the shards on the chain are bounded by [fuel].  When the index of the
    expirations cannot be made the start fails, and leaves the handlers. *)
Definition NewStoreService (fuel : nat) : GoM (hosted (Storage.svc (D := D) (W := W))) unit :=
  spawn ListenShardAssign ;;
  on_host NewStreamStorageProtocol ;;
  on_service (initShardsExpiration fuel) ;;
  spawn ProcessIncompleteShards ;;
  spawn ProcessMigrateLoop ;;
  spawn ProcessExpire.

Definition Storage_Stop : GoM (hosted (Storage.svc (D := D) (W := W))) unit := on_host stop_storage_streams.
End StorageService.

(** ** The gateway service *)
Section GatewayService.
Context {D W : Type}.

(** [closed] is the state of [completeResultChan]. *)
Record gateway_svc := GatewaySvc { gs_gw : Gateway.gw (D := D) (W := W); gs_closed : bool }.

Definition new_gateway (w : W) (d : D) : gateway_svc := GatewaySvc (Gw w d [] ∅ ∅ []) false.
Definition NewGatewaySvc : GoM (hosted gateway_svc) unit :=
  spawn ListenShardComplete ;;
  on_host NewStreamGatewayProtocol ;;
  spawn RunSched ;;
  spawn ProcessIncompleteOrders ;;
  spawn CompleteLoop ;;
  spawn CheckTimeout.

(** A channel is closed once; closing it again panics, and so does a handler that sends
    on it. *)
Definition close_results : GoM gateway_svc unit := fun s =>
  if gs_closed s then (Panic, s) else (Ret tt, GatewaySvc (gs_gw s) true).
Definition Gateway_Stop : GoM (hosted gateway_svc) unit := on_host stop_gateway_streams ;; on_service close_results.
Definition send_result (dataId : string) : GoM gateway_svc unit := fun s =>
  if gs_closed s then (Panic, s)
  else let '(o, g) := Gateway.send_done dataId (gs_gw s) in (o, GatewaySvc g (gs_closed s)).

(** ** The model manager

    There is one in the process: a later start gives the first one, with the cache and
    the gateway of its own start. *)
Inductive cache_svc := LruSvc | RedisSvc (conn password : string) (poolSize : Z) | MemcachedSvc (conn : string).
Definition choose_cache (cacheCfg : CacheConf) : cache_svc :=
  if String.eqb (RedisConn cacheCfg) "" && String.eqb (MemcachedConn cacheCfg) "" then LruSvc
  else if negb (String.eqb (RedisConn cacheCfg) "")
  then RedisSvc (RedisConn cacheCfg) (RedisPassword cacheCfg) (RedisPoolSize cacheCfg)
  else MemcachedSvc (MemcachedConn cacheCfg).

Record model_manager := MkManager { mg_CacheCfg : CacheConf; mg_CacheSvc : cache_svc; mg_Gateway : hosted gateway_svc }.
Definition NewModelManager (cacheCfg : CacheConf) (gatewaySvc : hosted gateway_svc) : GoM (option model_manager) model_manager :=
  fun modelManager =>
    let m := match modelManager with Some m => m | None => MkManager cacheCfg (choose_cache cacheCfg) gatewaySvc end in
    (Ret m, Some m).

(** The error of the gateway is dropped. *)
Definition Manager_Stop : GoM model_manager unit :=
  ignore (zoom mg_Gateway (fun g m => MkManager (mg_CacheCfg m) (mg_CacheSvc m) g) Gateway_Stop).
End GatewayService.

(** ** The index service *)
Section IndexService.
Context {C D T : Type} `{!SaoTypes, !CosmosLib C, !KeyringLib C}.

(** A database that cannot be opened gives a nil service; nobody asks for it. *)
Definition index_db (dbPath : string) : string := dbPath +:+ "/indexer.db".
Definition NewIndexSvc (sql_Open : string -> D + error) (c : ch (C := C)) (jobsDs : T) (var : WorkRequest) (dbPath : string) :
    option (ixs (C := C) (D := D) (T := T) * list goroutine) :=
  match sql_Open (index_db dbPath) with
  | inr _ => None
  | inl db => Some (Ixs (c, db) ∅ 0 ∅ [] var jobsDs, [IndexRunSched; ProcessPendingJobs])
  end.
Definition Index_Stop {S} : GoM S unit := ret tt.
End IndexService.

(** ** The connections of a node, each minute *)
Section Cluster.
Context `{!ErrorText, !CborLib, !CidLib, !GoRange, !ConfigToml, !JwtLib, !MultiaddrLib, !JsonWire ShardPingPong} {W : Type}.
Context `{!SaoTypes, !CosmosLib W, !KeyringLib W, !RandLib W, !FileSys W, !StatFiles W, !OpenFiles W, !RepoLib W,
          !RepoStores W, !EnvConfig W, !ChainStart W, !Console W, !HostLib W, !Network W}.

Definition keep_alive (host : Host) : GoM (nc (W := W)) unit :=
  ConnectPeers host ;; NodeCmds.on_w (DoPingRequest (host_ID host)).
End Cluster.

(** ** What a stop leaves *)

(** Pings are answered for ever, and a gateway keeps the RPC and - unless the storage
    service has replaced and removed it - the relay. *)
Lemma handlers_left storage gateway :
  let started := module_handlers storage gateway ∅ in
  let stopped := if storage then stop_storage_streams started else started in
  let stopped := if gateway then stop_gateway_streams stopped else stopped in
  stopped = if gateway then <[RpcProtocol := HandleRpcStream]> (<[ShardPingPongProtocol := HandlePingStream]>
                              (if storage then ∅ else {[ShardLoadProtocol := HandleRelayStream]}))
            else if storage then {[ShardPingPongProtocol := HandlePingStream]} else ∅.
Proof. by destruct storage, gateway. Qed.

Section Stops.
Context {D W : Type}.

(** After a stop a completion that has a result to send panics. *)
Lemma results_panic dataId (s : hosted (gateway_svc (D := D) (W := W))) :
  gs_closed (ho_svc s) = false -> (Gateway_Stop ;; on_service (send_result dataId)) s =
    (Panic, Hosted (GatewaySvc (gs_gw (ho_svc s)) true) (stop_gateway_streams (ho_handlers s)) (ho_running s)).
Proof.
  destruct s as [[g []] h r]; [done|]. intros _. reflexivity.
Qed.

(** The cache and the gateway are those of the first start. *)
Lemma manager_once cfg g cfg' g' :
  (NewModelManager cfg g ;; NewModelManager cfg' g') None =
    (Ret (MkManager (D := D) (W := W) cfg (choose_cache cfg) g), Some (MkManager cfg (choose_cache cfg) g)).
Proof. reflexivity. Qed.
End Stops.
