(* ===== verification/ChainStop.v ===== *)
(** * Stopping the chain service ([ChainSvc.Stop] of [chain/chain.go])

    [Stop] sends one value on [stopChan], a channel without a buffer that every
    broadcast loop reads, and then closes the channels of the signers.  The steps of
    [Broadcast] go on meanwhile.  A closed channel gives the loops that still read it
    the zero job, whose result channel is nil: they wait on it for ever.

    [stop_needs_loop]: without a broadcast loop [Stop] does not return.
    [stop_ends_one]: it ends one loop; all others are left. *)
From stdpp Require Import base list gmap strings.
From Stdlib Require Import ZArith Lia.
From S2P Require Import Prelude Types StateUtils ChainApi Stage Chain Broadcast.

Section Stop.
Context {C : Type} `{!SaoTypes, !CosmosLib C, !KeyringLib C}.
Abbreviation bs := (Broadcast.bs (C := C)).

(** [c.listener.Stop()] has returned; [c.stopChan <- struct{}{}]; the channels of the
    map that are still to be closed; done. *)
Inductive stopper := StopSend | StopClose (left : list nat) | StopDone.
Record cs := Cs { c_bs : bs; c_closed : gset nat; c_stuck : gset nat; c_stop : stopper }.

(** A loop that reads its channel: it has no job. *)
Definition idle (s : cs) (l : nat) : Prop :=
  is_Some (b_loops (c_bs s) !! l) /\ b_jobs (c_bs s) !! inr l = None /\ l ∉ c_stuck s.

Definition without_loop (l : nat) (b : bs) : bs := Bs (b_c b) (b_map b) (delete l (b_loops b)) (b_jobs b) (b_callers b).

(** What the closed channels allow: nothing is put into them, and a loop that waits for
    ever takes nothing. *)
Definition allowed (closed stuck : gset nat) (b b' : bs) : Prop :=
  (forall k, k ∈ closed -> b_jobs b' !! inl k = None \/ b_jobs b' !! inl k = b_jobs b !! inl k) /\
  (forall l, l ∈ stuck -> b_jobs b' !! inr l = b_jobs b !! inr l).
(** A caller that sends on a closed channel ends the process with a panic. *)
Definition panics (s : cs) : Prop :=
  exists t signer msg k, b_callers (c_bs s) !! t = Some (CSend signer msg) /\ b_map (c_bs s) !! signer = Some k /\ k ∈ c_closed s.

Inductive step : cs -> cs -> Prop :=
(* the callers and the loops go on *)
| step_work b closed stuck stop b' : Broadcast.step b b' -> allowed closed stuck b b' ->
    step (Cs b closed stuck stop) (Cs b' closed stuck stop)
(* a loop takes the value and returns *)
| step_stop l s : c_stop s = StopSend -> idle s l ->
    step s (Cs (without_loop l (c_bs s)) (c_closed s) (c_stuck s) (StopClose (map_to_list (b_map (c_bs s))).*2))
| step_close k rest s : c_stop s = StopClose (k :: rest) -> k ∉ c_closed s ->
    step s (Cs (c_bs s) ({[k]} ∪ c_closed s) (c_stuck s) (StopClose rest))
| step_closed s : c_stop s = StopClose [] -> step s (Cs (c_bs s) (c_closed s) (c_stuck s) StopDone)
(* a loop takes the zero job of a closed channel, and sends its result to nobody *)
| step_zero l k s : idle s l -> b_loops (c_bs s) !! l = Some k -> k ∈ c_closed s -> b_jobs (c_bs s) !! inl k = None ->
    step s (Cs (c_bs s) (c_closed s) ({[l]} ∪ c_stuck s) (c_stop s)).

(** [Stop] is called on a service. *)
Definition stopping (b : bs) : cs := Cs b ∅ ∅ StopSend.

(** A service that nobody uses: no caller is in [broadcastMsg]. *)
Definition quiet (b : bs) : Prop := forall t p, b_callers b !! t = Some p -> exists r, p = CDone r.

(** On a quiet service the loops only finish what they have. *)
Lemma quiet_step b b' : quiet b -> Broadcast.step b b' -> quiet b' /\ b_loops b' = b_loops b.
Proof.
  intros Hq Hs. destruct Hs as [t ? ? ? ? E|t ? ? ? E|t ? ? ? ? E|t ? ? ? ? ? E|t ? ? ? ? E| | | | |];
    try (destruct (Hq _ _ E) as [? [=]]); (split; [|done]); [done..|].
  intros t' p. cbn. intros [[<- <-]|[_ Hp]]%lookup_insert_Some; [by eexists|by eapply Hq].
Qed.

(** The loops of a stop: all of them before, all but one after. *)
Inductive loops_of (b : bs) (s : cs) : Prop :=
| loops_before : c_stop s = StopSend -> b_loops (c_bs s) = b_loops b -> loops_of b s
| loops_after l : c_stop s <> StopSend -> is_Some (b_loops b !! l) -> b_loops (c_bs s) = delete l (b_loops b) -> loops_of b s.

Lemma stop_loops b s : quiet b -> rtc step (stopping b) s -> quiet (c_bs s) /\ loops_of b s.
Proof.
  intros Hq. revert s. apply (rtc_ind_r _ (stopping b)); [split; [done|by apply loops_before]|].
  intros s s' _ Hs [Hqs Hl]. destruct Hs as [b1 closed stuck stop b' Hb _|l s Hstop [Hi _]|k rest s Hstop _|s Hstop|l k s Hi _ _ _]; cbn in *.
  - destruct (quiet_step _ _ Hqs Hb) as [Hq' E]. split; [done|]. inversion Hl; [apply loops_before|eapply loops_after]; cbn in *; eauto; congruence.
  - split; [done|]. inversion Hl as [_ E|]; [|done]. apply (loops_after b _ l); cbn; [done|by rewrite <-E|by rewrite E].
  - split; [done|]. inversion Hl as [? _|l' _ H1 H2]; [congruence|]. by apply (loops_after b _ l').
  - split; [done|]. inversion Hl as [? _|l' _ H1 H2]; [congruence|]. by apply (loops_after b _ l').
  - split; [done|]. inversion Hl as [? ?|l' ? H1 H2]; [by apply loops_before|by apply (loops_after b _ l')].
Qed.

(** A service without loops - no transaction was sent - cannot be stopped: [Stop] waits
    for ever. *)
Theorem stop_needs_loop b s : quiet b -> b_loops b = ∅ -> rtc step (stopping b) s -> c_stop s = StopSend.
Proof.
  intros Hq Hn Hr. destruct (stop_loops _ _ Hq Hr) as [_ [|l _ Hl _]]; [done|]. rewrite Hn in Hl. by destruct Hl.
Qed.

(** A service that has stopped has ended one of its loops; all others are still there. *)
Theorem stop_ends_one b s : quiet b -> rtc step (stopping b) s -> c_stop s = StopDone ->
  exists l, is_Some (b_loops b !! l) /\ b_loops (c_bs s) = delete l (b_loops b).
Proof.
  intros Hq Hr Hd. destruct (stop_loops _ _ Hq Hr) as [_ [Hs _|l _ Hl E]]; [congruence|]. by exists l.
Qed.
End Stop.
