(* ===== verification/HttpFiles.v ===== *)
(** * The HTTP file server of a gateway ([node/gateway/file_http_service.go])

    The server answers requests for models with the files that the gateway has
    written ([FetchContent]).  A cache has the data id that a path stands for; a
    path that is not cached is resolved by a client of the node itself.  Beside a
    file is an information file with the paths that it was asked for; from these
    files the cache is filled when the server starts, and a file without a path in
    the cache is removed by the cleaner.

    The caches are those of [LruCache], the client is the one of [Client].  A
    request writes its answers and what it asks the chain and the gateway to a
    log. *)
From stdpp Require Import base list gmap strings.
From Stdlib Require Import ZArith Lia Ascii.
From S2P Require Import Prelude Types ChainApi LruCache Stage Chain Gateway.
From S2P Require Import ModelManager NodeApi Upload Client.

(** ** Libraries *)

(** [ioutil.ReadDir]: the names of the entries and whether they are directories;
    [ReadFile_beside]: what [os.ReadFile] returns beside an error; the answer with
    a file by [echo]; and [jwt] tokens with a key and an expiry, signed with
    HS256. *)
Class HttpLib (W : Type) := {
  ioutil_ReadDir : string -> call W (list (string * bool));
  ReadFile_beside : string -> W -> bytes;
  echo_File : string -> call W bytes;
  jwt_SignedString : string -> Z -> bytes -> string + error;
  GetModel : string -> call W string           (* [Model.Data] of a model of the chain *)
}.

(** [encoding/json] at [Info], with its error dropped: what is left in the record. *)
Class InfoJson := {
  Info_Unmarshal : bytes -> list string;
  Info_Marshal : list string -> bytes
}.

(** ** Texts *)

(** [strings.Replace(s, old, new, 1)] for an [old] that is not empty. *)
Definition Replace1 (s old new : string) : string :=
  match cut s old with Some (a, b) => a +:+ new +:+ b | None => s end.

(** [strings.SplitN(s, "/", n)] for a positive [n]. *)
Fixpoint SplitN (s : string) (n : nat) : list string :=
  match n with
  | S (S _ as n') => match cut s "/" with Some (a, b) => a :: SplitN b n' | None => [s] end
  | _ => [s]
  end.

(** [strings.Index(s, sub) > 0] *)
Definition Index_positive (s sub : string) : bool := Contains s sub && negb (HasPrefix s sub).

Definition is_hex (c : ascii) : bool :=
  let n := nat_of_ascii c in
  (48 <=? n)%nat && (n <=? 57)%nat || (65 <=? n)%nat && (n <=? 70)%nat || (97 <=? n)%nat && (n <=? 102)%nat.

(** The regular expression of a uuid: hexadecimal digits, and dashes. *)
Fixpoint matches (pattern : list bool) (s : string) : bool :=
  match pattern, s with
  | [], "" => true
  | hex :: pattern, String c s => (if hex : bool then is_hex c else Ascii.eqb c "-") && matches pattern s
  | _, _ => false
  end.
Definition uuid_pattern : list bool :=
  replicate 8 true ++ [false] ++ replicate 4 true ++ [false] ++ replicate 4 true ++ [false] ++
  replicate 4 true ++ [false] ++ replicate 12 true.
Definition FindUuid (uri : string) : string := if matches uuid_pattern uri then uri else "".

(** ** The server *)
Record SaoHttpFileServer := MkSaoHttpFileServer {
  HttpFileServerAddress : string; TokenPeriod : Z; CacheSize : Z
}.

(** What a request has answered and asked. *)
Inductive http_event :=
| Answered (code : Z) (text : string)
| SentFile (path : string) (content : bytes)
| AskedGroupModel (key : string)
| AskedModel (req : MetadataProposal) (r : LoadResp + error).

Definition secret : bytes := string_bytes "SAO Network".
Definition cache_name : string := "sao-http".

Section Http.
Context `{!CidLib, !ErrorText, !ContextLib, !HamtMap, !InfoJson} {W : Type}.
Context `{!SaoTypes, !CosmosLib W, !KeyringLib W, !FileSys W, !StatFiles W, !OpenFiles W, !DidKeyLib W, !UuidLib W,
          !DidLib W, !ChainSvcApi W, !GatewayChain W, !SaoApi W, !ClientLib W, !Clock W, !HttpLib W}.

(** [Cfg], [NodeCFG.Chain.Remote], [ServerPath] and [KeyringHome]. *)
Context (Cfg : SaoHttpFileServer) (Remote ServerPath KeyringHome : string).

Record hfs := Hfs { hf_w : W; CacheSvc : LruCacheSvc (V := string); hf_log : list http_event }.
Definition on_w {A} (m : GoM W A) : GoM hfs A := zoom hf_w (fun w s => Hfs w (CacheSvc s) (hf_log s)) m.
Definition on_cache {A} (m : GoM LruCacheSvc A) : GoM hfs A :=
  zoom CacheSvc (fun c s => Hfs (hf_w s) c (hf_log s)) m.
Definition log (e : http_event) : GoM hfs unit := modify (fun s => Hfs (hf_w s) (CacheSvc s) (hf_log s ++ [e])).

Definition file_path (name : string) : string := ServerPath +:+ "/" +:+ name.
Definition info_path (name : string) : string := ServerPath +:+ "/" +:+ name +:+ ".info".

(** *** The information files *)

(** The keys of the file are read when it cannot be read, and replaced when it can. *)
Definition updateCacheInfo (dataId key : string) : GoM hfs unit :=
  let infoFile := info_path dataId in
  beside <- gets (fun s => ReadFile_beside infoFile (hf_w s)) ;;
  info <- attempt (on_w (invoke (os_ReadFile infoFile))) ;;
  let keys := match info with
              | inr _ => Info_Unmarshal beside ++ [key]
              | inl _ => [key]
              end in
  ignore (on_w (invoke (os_WriteFile infoFile (Info_Marshal keys)))).

(** A regular file with the length of a data id. *)
Definition is_model_file (file : string * bool) : bool :=
  negb (snd file) && (String.length (fst file) =? 36)%nat.

Definition load_file (file : string * bool) : GoM hfs unit :=
  if negb (is_model_file file) then ret tt else
  info <- attempt (on_w (invoke (os_ReadFile (info_path (fst file))))) ;;
  match info with
  | inl info => for_each (Info_Unmarshal info) (fun key => on_cache (svc_Put cache_name key (Some (fst file))))
  | inr _ => ret tt
  end.

Definition loadCacheFiles : GoM hfs unit :=
  files <- attempt (on_w (invoke (ioutil_ReadDir ServerPath))) ;;
  match files with
  | inr _ => ignore (on_w (invoke (os_MkdirAll ServerPath)))
  | inl files => for_each files load_file
  end.

(** The key of an information file is looked up: does it stand for the file? *)
Definition check_key (name : string) (expired : bool) (key : string) : GoM hfs bool :=
  dataId <- attempt (on_cache (svc_Get cache_name key)) ;;
  match dataId with
  | inl (Some d) => ret (if String.eqb d name then false else expired)
  | _ => ret expired
  end.

Definition clean_file (file : string * bool) : GoM hfs unit :=
  if negb (is_model_file file) then ret tt else
  let infoFile := info_path (fst file) in
  info <- attempt (on_w (invoke (os_ReadFile infoFile))) ;;
  expired <- match info with
             | inl info => fold_m (check_key (fst file)) true (Info_Unmarshal info)
             | inr _ => ret true
             end ;;
  if negb expired then ret tt else
  ignore (on_w (invoke (os_Remove (file_path (fst file))))) ;;
  stat <- attempt (on_w (invoke (os_Stat infoFile))) ;;
  match stat with
  | inl _ => ignore (on_w (invoke (os_Remove infoFile)))
  | inr _ => ret tt
  end.

(** A turn of the loop of the cleaner. *)
Definition CleanCacheFiles : GoM hfs unit :=
  files <- attempt (on_w (invoke (ioutil_ReadDir ServerPath))) ;;
  match files with
  | inr _ => ret tt
  | inl files => for_each files clean_file
  end.

(** The server and its routes are made by [echo]; the cleaner and the server are
    goroutines of their own. *)
Definition StartHttpFileServer : GoM hfs unit :=
  let size := if CacheSize Cfg <=? 0 then 1024 else CacheSize Cfg in
  ignore (on_cache (svc_CreateCache cache_name size)) ;;
  loadCacheFiles.

(** *** Tokens *)

(** [time.Now().Add(TokenPeriod).Unix()] is in seconds. *)
Definition GenerateToken (owner : string) : GoM hfs (string * string) :=
  now <- on_w (invoke_total time_Now) ;;
  match jwt_SignedString owner ((now + TokenPeriod Cfg) / 1000000000) secret with
  | inr _ => ret ("", "")
  | inl tokenStr => ret (HttpFileServerAddress Cfg, tokenStr)
  end.

(** *** Loading a model *)
Definition GetDidManager (keyName : string) : GoM W (KeyManager * string) := Client.GetDidManager "~/.sao" keyName.

(** A method of the chain or of the API: the interfaces of the client may be nil. *)
Definition client_chain {A} (c : SaoClient) (m : call W A) : GoM W A :=
  if sc_ChainSvcApi c then invoke m else panic.
Definition client_api {A} (c : SaoClient) (m : call W A) : GoM W A := if sc_SaoApi c then invoke m else panic.

Definition buildQueryRequest (didManager : KeyManager) (proposal : QueryProposal) (chain : SaoClient)
    (gatewayAddress : string) : GoM W MetadataProposal :=
  lastHeight <- wrapping ErrQueryHeightFailed (client_chain chain chain_GetLastHeight) ;;
  peerInfo <- client_chain chain (chain_GetNodePeer gatewayAddress) ;;
  let proposal := query_at proposal lastHeight peerInfo in
  if String.eqb (qp_Owner proposal) "all" then ret (MkMetadataProposal proposal (MkJwsSignature "" "")) else
  jws <- sign didManager (QueryProposal_Marshal proposal) ;;
  ret (MkMetadataProposal proposal jws).

(** The keyword and the group that a path stands for. *)
Definition path_query (uri : string) : string * string :=
  if negb (String.eqb (FindUuid uri) "") then (FindUuid uri, "") else
  match SplitN uri 2 with [groupId; keyword] => (keyword, groupId) | _ => ("", "") end.

(** The data id of the model of a path with three parts. *)
Definition group_model (c : SaoClient) (uri : string) : GoM hfs string :=
  log (Answered 404 "invalid keyword and group") ;;
  match SplitN uri 3 with
  | [a; b; d] =>
      let key := a +:+ "-" +:+ d +:+ "-" +:+ b in
      log (AskedGroupModel key) ;;
      model <- attempt (on_w (client_chain c (GetModel key))) ;;
      ret (match model with inl data => data | inr _ => "" end)
  | _ => ret ""
  end.

Definition model_query (owner keyword groupId : string) : QueryProposal :=
  MkQueryProposal owner keyword groupId (if IsDataId keyword then 1 else 2) 0 "" "" "".

(** A path that is not cached: the data id that the gateway answers with; [None]
    when the request is answered. *)
Definition load_model (uri : string) : GoM hfs (option string) :=
  def <- on_w DefaultSaoClientConfig ;;
  cfg <- on_w (wrapping ErrDecodeConfigFailed (FromFile "~/.sao-cli" def)) ;;
  c <- on_w (NewSaoClient (MkSaoClientOptions "~/.sao-cli" "http://127.0.0.1:5151/rpc/v0" Remote
                             (scc_KeyName cfg) KeyringHome)) ;;
  let '(keyword, groupId) := path_query uri in
  keyword <- (if String.eqb keyword "" && String.eqb groupId "" then group_model c uri else ret keyword) ;;
  if String.eqb keyword "" then (log (Answered 404 "invalid request") ;; ret None) else
  did <- on_w (GetDidManager (scc_KeyName (sc_Cfg c))) ;;
  let didManager := fst did in
  gatewayAddress <- on_w (client_api c api_GetNodeAddress) ;;
  request <- on_w (buildQueryRequest didManager (model_query (key_Id didManager) keyword groupId) c gatewayAddress) ;;
  resp <- attempt (on_w (client_api c (api_ModelLoad request))) ;;
  log (AskedModel request resp) ;;
  match resp with
  | inr err => if Index_positive (Error err) "NotFound" then (log (Answered 404 "model not found") ;; ret None)
               else fail err
  | inl resp =>
      on_cache (svc_Put cache_name uri (Some (lr_DataId resp))) ;;
      updateCacheInfo (lr_DataId resp) uri ;;
      ret (Some (lr_DataId resp))
  end.

(** The data id of a path in the cache, if its file is there. *)
Definition cached (uri : string) : GoM hfs (option string) :=
  dataId <- attempt (on_cache (svc_Get cache_name uri)) ;;
  match dataId with
  | inl (Some d) =>
      stat <- attempt (on_w (invoke (os_Stat (file_path d)))) ;;
      ret (match stat with inl _ => Some d | inr _ => None end)
  | _ => ret None
  end.

(** [ec.File] *)
Definition send_file (path : string) : GoM hfs unit :=
  content <- on_w (invoke (echo_File path)) ;; log (SentFile path content).

(** A request for a URL. *)
Definition load (url : string) : GoM hfs unit :=
  let uri := Replace1 url "/sao/" "" in
  dataId <- cached uri ;;
  dataId <- match dataId with Some d => ret (Some d) | None => load_model uri end ;;
  match dataId with
  | None => ret tt
  | Some d => send_file (path_Join [ServerPath; d])
  end.
End Http.

(** ** Tokens of the API ([Node.GenerateToken])

    The file server is nil unless it was started. *)
Definition Node_GenerateToken `{!HamtMap} {W : Type} `{!Clock W, !HttpLib W} (hfs : option SaoHttpFileServer)
    (owner : string) : GoM (HttpFiles.hfs (W := W)) (string * string) :=
  cfg <- deref hfs ;;
  r <- GenerateToken cfg owner ;;
  if negb (String.eqb (snd r) "") then ret r
  else fail (Wrapf ErrGenerateTokenFaild "failed to generate http file sever token").
