(* ===== verification/ClientTheorems.v ===== *)
(** * Properties of the client

    [create_trace]: what [createCmd] sends, in which order, and that everything it
    sends is signed and about the content it was given; [requests_valid]: the gateway
    accepts the signatures; [patch_update]: a patch that [patchGenCmd] made leads to
    the identifier and the size that [updateCmd] signs; [blocks_exact] and
    [status_exact]: the arithmetic on durations and heights; [renew_outcome]: how
    the results of a renewal are reported; [config_roundtrip]: a configuration that
    is saved is read by the next client. *)
From stdpp Require Import base list gmap strings.
From Stdlib Require Import ZArith Lia Ascii.
From S2P Require Import Prelude Types ChainApi Stage Chain Gateway.
From S2P Require Import Validator ModelManager NodeApi Upload UploadTheorems Client.

(** ** Durations and heights *)

(** A duration in days is sent as its number of blocks exactly up to 106751 days:
    from 106752 days on, below [2^40], the nanoseconds do not fit in 64 bits, and
    another number is signed. *)
Theorem blocks_exact d : 0 <= d < 2 ^ 40 -> blocks d = 86400 * d <-> d <= 106751.
Proof.
  intros Hd. unfold blocks, Blocktime.
  rewrite (wrap_i64_small (86400 * d)) by (unfold is_i64, two63; lia).
  split.
  - intros E. destruct (Z.le_gt_cases d 106751) as [|Hbig]; [done|exfalso]. revert E.
    set (x := wrap_i64 (86400 * d * 1000000000)).
    assert (is_i64 x) as Hx by apply wrap_i64_range. unfold is_i64, two63 in Hx.
    assert (-9223372037 <= Z.quot x 1000000000 < 9223372037) as Hq.
    { clearbody x. Z.to_euclidean_division_equations. lia. }
    unfold wrap_u64, two64. destruct (Z.le_gt_cases 0 (Z.quot x 1000000000)).
    + rewrite Z.mod_small by lia. lia.
    + rewrite <-(Z.mod_add _ 1) by lia. rewrite Z.mod_small by lia. lia.
  - intros Hle. rewrite wrap_i64_small by (unfold is_i64, two63; lia). rewrite Z.quot_mul by lia.
    unfold wrap_u64, two64. rewrite Z.mod_small by lia. done.
Qed.

(** What is shown of a model at a height after its creation: the status has the
    number of heights that are left, or that have gone by since its end; the list has
    the same number while the model is alive, and a number just below [2^64] once it
    has expired. *)
Theorem status_exact meta height :
  0 <= md_CreatedAt meta <= height -> height < two63 -> 0 <= md_Duration meta ->
  md_CreatedAt meta + md_Duration meta < two64 ->
  let left := md_CreatedAt meta + md_Duration meta - height in
  status_of meta height = (bool_decide (left < 0), Z.abs left) /\
  left_epoch meta height = if bool_decide (left < 0) then two64 - Z.abs left else Z.abs left.
Proof.
  intros Hc Hh Hd Hs left. unfold status_of, left_epoch, two63, two64 in *.
  rewrite (wrap_u64_small height), (wrap_u64_small (height - _)), (wrap_u64_small (_ + _))
    by (unfold is_u64, two64; lia).
  destruct (Z.leb_spec (height - md_CreatedAt meta) (md_Duration meta)).
  - rewrite bool_decide_false by lia. rewrite !wrap_u64_small by (unfold is_u64, two64; lia). split; f_equal; lia.
  - rewrite bool_decide_true by lia. rewrite wrap_u64_small by (unfold is_u64, two64; lia).
    split; [f_equal; lia|]. unfold wrap_u64, two64. rewrite <-(Z.mod_add _ 1) by lia. rewrite Z.mod_small; lia.
Qed.

(** ** Results of a renewal *)

(** How a result is reported. *)
Inductive reported := NewOrder (orderId : Z) | AsRenewed | NoNumber (text : string).
Definition report_of (result : string) : option reported :=
  if Contains result "SUCCESS" then
    text ← Split result "=" !! 1%nat;
    Some match ParseUint text with Some n => NewOrder n | None => NoNumber text end
  else Some AsRenewed.

(** The report of a map of results. *)
Definition report (results : gmap string string) : renewed := MkRenewed
  (omap (fun r => match report_of r with Some (NewOrder n) => Some n | _ => None end) results)
  (omap (fun r => match report_of r with Some AsRenewed => Some r | _ => None end) results)
  (omap (fun r => match report_of r with Some (NoNumber t) => Some (r, t) | _ => None end) results).

Section Renew.
Context `{!GoRange, !GoRangeLaws} {W : Type}.
Abbreviation cl := (Client.cl (W := W)).

(** What is shown when every result has a report. *)
Definition all_reported (results : gmap string string) : Prop :=
  map_Forall (fun _ r => is_Some (report_of r)) results.

Lemma renew_result_step done dataId result (s : cl) :
  done !! dataId = None ->
  renew_result (report done) dataId result s =
    (match report_of result with Some _ => Ret (report (<[dataId := result]> done)) | None => Panic end, s).
Proof.
  intros Hd. unfold renew_result, report, report_of. rewrite !omap_insert.
  assert (forall (A : Type) (f : string -> option A), delete dataId (omap f done) = omap f done) as Hdel.
  { intros A f. apply delete_id. by rewrite lookup_omap, Hd. }
  destruct (Contains result "SUCCESS"); cbn.
  - destruct (Split result "=" !! 1%nat) as [text|]; cbn; [|done].
    destruct (ParseUint text); cbn; by rewrite !Hdel.
  - by rewrite !Hdel.
Qed.

Lemma renew_fold l done (s : cl) :
  NoDup l.*1 -> (forall k, k ∈ l.*1 -> done !! k = None) ->
  fold_m (fun acc e => renew_result acc e.1 e.2) (report done) l s =
    (if decide (all_reported (list_to_map l)) then Ret (report (list_to_map l ∪ done)) else Panic, s).
Proof.
  revert done. induction l as [|[k r] l IH]; intros done Hnd Hnew; cbn [fold_m].
  { rewrite decide_True by apply map_Forall_empty. cbn. by rewrite (left_id_L ∅ (∪)). }
  cbn in Hnd, Hnew. apply NoDup_cons in Hnd as [Hk Hnd].
  assert ((list_to_map l : gmap string string) !! k = None) as Hkl by by apply not_elem_of_list_to_map_1.
  unfold bind. cbn [fst snd]. rewrite renew_result_step by (apply Hnew; left).
  cbn [list_to_map foldr]. destruct (report_of r) eqn:Er.
  - rewrite IH; [|done|].
    + cbn. rewrite <-insert_union_r, insert_union_l by done.
      destruct (decide (all_reported (list_to_map l))) as [Ha|Ha]; destruct (decide _) as [Hb|Hb]; try done.
      * destruct Hb. apply map_Forall_insert; [done|]. by rewrite Er.
      * destruct Ha. unfold all_reported in Hb. rewrite map_Forall_insert in Hb by done. by destruct Hb.
    + intros k' Hk'. rewrite lookup_insert_ne by (intros ->; done). apply Hnew. by right.
  - rewrite decide_False; [done|]. unfold all_reported. rewrite map_Forall_insert by done. intros [Hs _]. cbn in Hs. rewrite Er in Hs. by destruct Hs.
Qed.

(** The results of a renewal are reported as they are, whatever the order of the
    map: a text with ["SUCCESS"] by the number after its first ["="], or as a
    failure when that is no number; any other text - the texts of errors too - as a
    model that was renewed; and a text with ["SUCCESS"] but without ["="] panics. *)
Theorem renew_outcome results (s : cl) :
  renew_results results s =
    (if decide (all_reported results) then Ret (report results) else Panic, s).
Proof.
  unfold renew_results.
  change (MkRenewed ∅ ∅ ∅) with (report ∅).
  rewrite renew_fold.
  - rewrite (right_id_L ∅ (∪)). replace (list_to_map (range results) : gmap string string) with results; [done|].
    rewrite <-(list_to_map_to_list results) at 1. apply list_to_map_proper; [apply NoDup_fst_map_to_list|].
    by rewrite range_perm.
  - rewrite range_perm. apply NoDup_fst_map_to_list.
  - intros k _. apply lookup_empty.
Qed.
End Renew.

(** ** The configuration *)

(** A file that is looked at is found if it is there; a configuration that was
    encoded is decoded to itself; making an identifier leaves the files. *)
Class ConfigLaws (W : Type) `{!FileSys W, !FileLaws W, !StatFiles W, !OpenFiles W, !UuidLib W, !ClientLib W} := {
  Stat_absent p w e w' : os_Stat p w = (inr e, w') -> healthy w -> files w !! p = None;
  toml_roundtrip cfg b def : toml_Encode cfg = inl b -> toml_Decode b def = inl cfg;
  NewV4_files w id w' : uuid_NewV4 w = (id, w') -> files w' = files w /\ (healthy w -> healthy w')
}.

Section Config.
Context `{!ErrorText} {W : Type} `{!FileSys W, !FileLaws W, !StatFiles W, !OpenFiles W, !OpenLaws W, !UuidLib W,
          !ClientLib W, !ConfigLaws W}.

(** The machine works and has the configuration in its file. *)
Definition saved (path : string) (cfg : SaoClientConfig) (w : W) : Prop :=
  healthy w /\ exists b, toml_Encode cfg = inl b /\ files w !! path_Join [path; "config.toml"] = Some b.

Lemma SaveConfig_saved sc cfg path (w : W) :
  homedir_Expand (sc_repo sc) = inl path -> healthy w ->
  wp (SaveConfig sc cfg) w (fun o w' => match o with Ret _ => saved path cfg w' | Fail _ => True | _ => False end).
Proof.
  intros Hx Hl. unfold SaveConfig, write_config, wrapping. apply wp_or_else. rewrite Hx. apply wp_ret.
  set (p := path_Join _). apply wp_bind, wp_or_else, wp_call; [|done].
  intros f w1 [Hh1 (Hf1 & Hn & Ho)]%Create_spec. apply wp_ret, wp_bind, wp_or_else.
  destruct (toml_Encode cfg) as [b|e] eqn:Eb; [|done]. apply wp_ret, wp_ret, wp_bind, wp_or_else, wp_call; [|done].
  intros [] w2 Ew. apply (Write_spec f b w1 []) in Ew as [Hh2 Hf2]; [|by rewrite Hf1, Hn, lookup_insert_eq|done].
  apply wp_ret, wp_or_else, wp_call; [|done]. intros [] w3 [Hf3 Hh3]%Close_spec. apply wp_ret.
  split; [auto|]. exists b. split; [done|]. by rewrite Hf3, Hf2, Hn, lookup_insert_eq.
Qed.

Lemma FromFile_saved path cfg def (w : W) :
  saved path cfg w ->
  wp (FromFile (path_Join [path; "config.toml"]) def) w (fun o _ =>
    match o with Ret c => c = cfg | Fail _ => True | _ => False end).
Proof.
  intros (Hl & b & Eb & Hf). unfold FromFile. apply wp_bind, wp_attempt, wp_call.
  - intros f w1 Eo. apply wp_bind, wp_call; [|done]. intros content w2 Er.
    destruct (ReadAll_spec _ _ _ _ _ _ Eo Er) as (_ & _ & Hc). rewrite Hf in Hc. injection Hc as ->.
    rewrite (toml_roundtrip _ _ def Eb). by apply wp_ret.
  - intros e w1 (_ & _ & Hn)%Open_spec. specialize (Hn Hl). congruence.
Qed.

(** The configuration with the token that is used. *)
Definition with_token (cfg : SaoClientConfig) : SaoClientConfig :=
  MkSaoClientConfig (scc_GroupId cfg) (scc_KeyName cfg) (scc_ChainAddress cfg) (scc_Gateway cfg)
    (if String.eqb (scc_Token cfg) "" then default_token else scc_Token cfg).

(** What a client saves is what the next client works with: after [SaveConfig]
    has returned, a client that is made in the same repository without the flags of
    the gateway and the chain has the saved configuration, with the default token if
    it has none, and is connected to both. *)
Theorem config_roundtrip sc cfg keyName keyringHome path (w : W) :
  homedir_Expand (sc_repo sc) = inl path -> healthy w ->
  wp (SaveConfig sc cfg ;; NewSaoClient (MkSaoClientOptions (sc_repo sc) "" "" keyName keyringHome)) w (fun o w' =>
    match o with
    | Ret c => c = MkSaoClient true true (with_token cfg) (sc_repo sc)
    | Fail _ => True
    | _ => False
    end).
Proof.
  intros Hx Hl. apply wp_bind. eapply wp_mono; [by apply SaveConfig_saved|].
  intros [[]|e| |] w1 Hs; [|done..]. unfold NewSaoClient, wrapping. cbn [sco_Repo sco_Gateway sco_ChainAddr].
  apply wp_or_else. rewrite Hx. apply wp_ret. pose proof Hs as (Hl1 & b & Eb & Hf). apply wp_bind, wp_attempt, wp_call.
  2: { intros e w2 Est. by rewrite (Stat_absent _ _ _ _ Est Hl1) in Hf. }
  intros n w2 (Hf2 & Hh2 & _)%Stat_spec. apply wp_bind, wp_ret, wp_bind. unfold DefaultSaoClientConfig, GenerateGroupId.
  apply wp_bind, wp_call_total. intros id w3 [Hf3 Hh3]%NewV4_files. apply wp_ret, wp_bind, wp_or_else.
  assert (saved path cfg w3) as Hs3.
  { split; [auto|]. exists b. split; [done|]. by rewrite Hf3, Hf2. }
  eapply wp_mono; [by apply FromFile_saved|]. intros [c|e| |] w4 Hc; [subst c|done..].
  apply wp_ret. change (String.eqb "" "none") with false. cbn [negb]. cbv iota zeta. apply wp_bind.
  change (String.eqb "" "") with true. cbv iota. destruct (String.eqb (scc_Gateway cfg) ""); [done|].
  apply wp_bind, wp_or_else, wp_call; [|done]. intros [] w5 _. apply wp_ret, wp_ret, wp_bind, wp_call; [|done].
  intros [] w6 _. by apply wp_ret.
Qed.
End Config.

(** ** What is sent *)
Section Trace.
Context `{!CidLib, !ErrorText, !PatchLib, !ContextLib, !GoRange} {W : Type}.
Context `{!SaoTypes, !CosmosLib W, !KeyringLib W, !FileSys W, !StatFiles W, !OpenFiles W, !DidKeyLib W, !UuidLib W,
          !ClientProposals, !ProposalLib, !DidLib W, !ChainSvcApi W, !GatewayChain W, !ClientChain W, !SaoApi W,
          !ClientLib W}.
Abbreviation cl := (Client.cl (W := W)).
Implicit Types (s : cl) (m : KeyManager).

(** A call that sends nothing, and what it returns. *)
Definition silent s {A} (P : A -> Prop) (o : outcome A) s' : Prop :=
  cl_sent s' = cl_sent s /\ match o with Ret a => P a | _ => True end.

Lemma silent_on_cw {A} (c : GoM W A) s (P : A -> Prop) :
  (forall w, wp c w (fun o _ => match o with Ret a => P a | _ => True end)) -> wp (on_cw c) s (silent s P).
Proof. intros Hc. apply wp_zoom. eapply wp_mono; [apply Hc|]. by intros o w' Ho. Qed.

Lemma silent_any {A} (c : GoM W A) s : wp (on_cw c) s (silent s (fun _ => True)).
Proof. apply silent_on_cw. intros w. unfold wp. by destruct (c w) as [[] ?]. Qed.

Lemma silent_lift {A} (r : A + error) s : wp (lift r) s (silent s (fun a => r = inl a)).
Proof. by destruct r. Qed.

(** A call of the chain or of the gateway, and its result. *)
Lemma silent_chain {A} c (call : call W A) s :
  wp (chain c call) s (silent s (fun a => exists w w', call w = (inl a, w'))).
Proof.
  unfold chain. destruct (sc_ChainSvcApi c); [|done]. apply silent_on_cw. intros w. apply wp_call; [|done]. eauto.
Qed.
Lemma silent_api {A} c (call : call W A) s :
  wp (api c call) s (silent s (fun a => exists w w', call w = (inl a, w'))).
Proof.
  unfold api. destruct (sc_SaoApi c); [|done]. apply silent_on_cw. intros w. apply wp_call; [|done]. eauto.
Qed.

Lemma wp_assoc {A B C} (c : GoM cl A) (f : A -> GoM cl B) (g : B -> GoM cl C) s Q :
  wp (a <- c ;; b <- f a ;; g b) s Q -> wp (b <- (a <- c ;; f a) ;; g b) s Q.
Proof. unfold wp, bind. by destruct (c s) as [[] ?]. Qed.

(** *** Runs with a trace: [R] holds of what was sent, however the run ends *)
Definition sends (base : list sent) {A} (R : outcome A -> list sent -> Prop) (o : outcome A) s' : Prop :=
  exists evs, cl_sent s' = base ++ evs /\ R o evs.

Lemma sends_ret base evs {A} (a : A) s (R : outcome A -> list sent -> Prop) :
  cl_sent s = base ++ evs -> R (Ret a) evs -> wp (ret a) s (sends base R).
Proof. intros Hs HR. apply wp_ret. by exists evs. Qed.

Lemma sends_fail base evs {A} e s (R : outcome A -> list sent -> Prop) :
  cl_sent s = base ++ evs -> (forall o : outcome A, (forall a, o <> Ret a) -> R o evs) -> wp (fail e) s (sends base R).
Proof. intros Hs HR. apply wp_fail. exists evs. split; [done|]. by apply HR. Qed.

(** A step that sends nothing: [evs] is a possible end. *)
Lemma sends_bind base evs {A B} (c : GoM cl A) (k : A -> GoM cl B) s P (R : outcome B -> list sent -> Prop) :
  cl_sent s = base ++ evs -> (forall o : outcome B, (forall a, o <> Ret a) -> R o evs) ->
  wp c s (silent s P) ->
  (forall a s', cl_sent s' = base ++ evs -> P a -> wp (k a) s' (sends base R)) ->
  wp (bind c k) s (sends base R).
Proof.
  intros Hs HR Hc Hk. apply wp_bind. eapply wp_mono; [exact Hc|]. intros o s' [Hs' Ho]. rewrite Hs in Hs'.
  destruct o as [a|e| |]; [by apply Hk|..]; exists evs; (split; [done|]; by apply HR).
Qed.

Lemma sends_emit base evs {B} e (k : unit -> GoM cl B) s (R : outcome B -> list sent -> Prop) :
  cl_sent s = base ++ evs -> (forall s', cl_sent s' = base ++ (evs ++ [e]) -> wp (k tt) s' (sends base R)) ->
  wp (bind (emit e) k) s (sends base R).
Proof. intros Hs Hk. apply wp_bind. unfold emit. apply Hk. cbn. by rewrite Hs, (assoc_L (++)). Qed.

(** *** Signatures *)
Definition signed_by m (proposal : bytes + error) (sig : JwsSignature) : Prop :=
  exists b rest w w', proposal = inl b /\ key_CreateJWS m b w = (inl (sig :: rest), w').

Lemma sign_signed m b s : wp (on_cw (sign m b)) s (silent s (signed_by m b)).
Proof.
  apply silent_on_cw. intros w. unfold sign, wrapping. apply wp_bind, wp_or_else.
  destruct b as [b|e]; [|done]. apply wp_ret, wp_ret, wp_bind, wp_or_else, wp_call; [|done].
  intros [|sig rest] w' E; apply wp_ret; [done|]. apply wp_ret. by exists b, rest, w, w'.
Qed.

(** Nobody signs for ["all"]. *)
Definition order_signed m (p : OrderStoreProposal) : Prop :=
  pr_Owner (osp_Proposal p) = key_Id m /\
  (key_Id m = "all" \/ signed_by m (Proposal_Marshal (osp_Proposal p)) (osp_JwsSignature p)).
Definition query_signed m (req : MetadataProposal) : Prop :=
  qp_Owner (mtp_Proposal req) = key_Id m /\
  (key_Id m = "all" \/ signed_by m (QueryProposal_Marshal (mtp_Proposal req)) (mtp_JwsSignature req)).

Lemma buildClientProposal_signed m proposal s :
  pr_Owner proposal = key_Id m ->
  wp (buildClientProposal m proposal) s (silent s (fun p => osp_Proposal p = proposal /\ order_signed m p)).
Proof.
  intros Ho. unfold buildClientProposal. destruct (String.eqb_spec (pr_Owner proposal) "all") as [E|E].
  - apply wp_ret. split; [done|]. split; [done|]. split; [done|]. left. congruence.
  - apply wp_bind. eapply wp_mono; [apply sign_signed|]. intros [sig|e| |] s' [Hs Hsig]; [|done..].
    apply wp_ret. split; [done|]. split; [done|]. split; [done|]. by right.
Qed.

(** The query that is sent: the given one, at a height that the chain has reported and
    a peer that the chain has for the gateway. *)
Definition query_sent m (proposal : QueryProposal) (gateway : string) (req : MetadataProposal) : Prop :=
  query_signed m req /\ exists h peer, mtp_Proposal req = query_at proposal h peer /\
    (exists w w', chain_GetLastHeight w = (inl h, w')) /\ (exists w w', chain_GetNodePeer gateway w = (inl peer, w')).

Lemma silent_wrapping {A} e (c : GoM cl A) s P : wp c s (silent s P) -> wp (wrapping e c) s (silent s P).
Proof.
  intros Hc. unfold wrapping. apply wp_or_else. eapply wp_mono; [exact Hc|]. by intros [a|err| |] s' Hs.
Qed.

Lemma buildQueryRequest_sent c m proposal gateway s :
  qp_Owner proposal = key_Id m ->
  wp (buildQueryRequest c m proposal gateway) s (silent s (query_sent m proposal gateway)).
Proof.
  intros Ho. unfold buildQueryRequest. apply wp_bind. eapply wp_mono; [apply silent_wrapping, silent_chain|].
  intros [h|e| |] s1 [Hs1 Hh]; [|done..]. apply wp_bind. eapply wp_mono; [apply silent_chain|].
  intros [peer|e| |] s2 [Hs2 Hp]; [|by split; [congruence|]..]. cbn beta zeta. cbn [query_at qp_Owner].
  destruct (String.eqb_spec (qp_Owner proposal) "all") as [E|E].
  - apply wp_ret. split; [congruence|]. split; [split; [done|left; congruence]|]. by exists h, peer.
  - apply wp_bind. eapply wp_mono; [apply sign_signed|]. intros [sig|e| |] s3 [Hs3 Hsig]; [|by split; [congruence|]..].
    apply wp_ret. split; [congruence|]. split; [split; [done|by right]|]. by exists h, peer.
Qed.

(** *** Creating a model *)
Definition is_ret {A} (o : outcome A) : bool := match o with Ret _ => true | _ => false end.

(** The order of a content: signed by its owner, with the identifier and the size of
    the content. *)
Definition order_of (cctx : cli) m (content : bytes) (p : OrderStoreProposal) : Prop :=
  let proposal := osp_Proposal p in
  order_signed m p /\ (exists c, CalculateCid content = inl c /\ pr_Cid proposal = cid_String c) /\
  pr_Size proposal = wrap_u64 (Z.of_nat (length content)) /\ pr_CommitId proposal = pr_DataId proposal /\
  pr_Duration proposal = blocks (fl_Int cctx "duration").

(** What was sent to the chain before the gateway is asked. *)
Definition ordered (publish : bool) (signer : string) (p : OrderStoreProposal) (orderId : Z) : list sent :=
  if publish then [SentStoreOrder signer p (inl orderId)] else [].

Section Create.
Context (cctx : cli).
Let content : bytes := string_bytes (fl_String cctx "content").
Let publish : bool := fl_Bool cctx "client-publish".

(** What [createCmd] sends, when it returns and when it does not. *)
Inductive create_trace : bool -> list sent -> Prop :=
| CtNothing : create_trace false []
| CtRefused m signer p e : order_of cctx m content p -> publish = true ->
    create_trace false [SentStoreOrder signer p (inr e)]
| CtOrdered m signer p orderId : order_of cctx m content p -> (publish = false -> orderId = 0) ->
    create_trace false (ordered publish signer p orderId)
| CtCreated b m signer p orderId req gateway :
    order_of cctx m content p -> (publish = false -> orderId = 0) ->
    query_sent m (MkQueryProposal (key_Id m) (pr_DataId (osp_Proposal p)) "" 0 0 "" "" "") gateway req ->
    (b = true -> fl_Bool cctx "public" = false) ->
    create_trace b (ordered publish signer p orderId ++ [SentCreate req p orderId content])
| CtPublic b m signer p orderId req gateway perm :
    order_of cctx m content p -> (publish = false -> orderId = 0) ->
    query_sent m (MkQueryProposal (key_Id m) (pr_DataId (osp_Proposal p)) "" 0 0 "" "" "") gateway req ->
    fl_Bool cctx "public" = true -> pmf_Owner (sg_Proposal perm) = key_Id m ->
    signed_by m (PermissionFields_Marshal (sg_Proposal perm)) (sg_JwsSignature perm) ->
    create_trace b (ordered publish signer p orderId ++ [SentCreate req p orderId content; SentPermission perm]).

Definition creates {A} (o : outcome A) (evs : list sent) : Prop := create_trace (is_ret o) evs.

Lemma creates_end {A} evs : create_trace false evs -> forall o : outcome A, (forall a, o <> Ret a) -> creates o evs.
Proof. intros Hc [a|e| |] Ho; [|exact Hc..]. by destruct (Ho a). Qed.

(** The permission that follows, if the model is public. *)
Lemma create_permission c m signer p orderId req gateway dataId dids s base {A} (a : A) :
  order_of cctx m content p -> (publish = false -> orderId = 0) ->
  query_sent m (MkQueryProposal (key_Id m) (pr_DataId (osp_Proposal p)) "" 0 0 "" "" "") gateway req ->
  fl_Bool cctx "public" = true ->
  cl_sent s = base ++ (ordered publish signer p orderId ++ [SentCreate req p orderId content]) ->
  wp (send_permission c publish m signer (MkPermissionFields (key_Id m) dataId dids []) ;; ret a) s
    (sends base (@creates A)).
Proof.
  intros Hp Hz Hq Hpub Hs. unfold send_permission.
  assert (forall b, create_trace b (ordered publish signer p orderId ++ [SentCreate req p orderId content]) \/ b = true)
    as Hend by (intros []; [by right|left; by eapply CtCreated]).
  assert (create_trace false (ordered publish signer p orderId ++ [SentCreate req p orderId content])) as Hfalse
    by (by destruct (Hend false)).
  apply wp_bind, wp_bind. eapply wp_mono; [apply sign_signed|].
  intros [sig|e| |] s1 [Hs1 Hsig]; rewrite Hs in Hs1; [|eexists; split; [exact Hs1|exact Hfalse]..].
  apply wp_bind. unfold emit, modify, wp at 1. cbn [fst snd].
  set (perm := MkSigned _ sig).
  assert (forall (o : outcome A), creates o (ordered publish signer p orderId ++ [SentCreate req p orderId content; SentPermission perm]))
    as Hp2 by (intros o; by eapply CtPublic).
  assert (forall s', cl_sent s' = cl_sent s1 ++ [SentPermission perm] ->
    exists evs, cl_sent s' = base ++ evs /\ evs = ordered publish signer p orderId ++ [SentCreate req p orderId content; SentPermission perm]) as Hevs.
  { intros s' Hs'. eexists. split; [|done]. rewrite Hs', Hs1, <-!(assoc_L (++)). done. }
  destruct publish; apply wp_bind; (eapply wp_mono; [first [apply silent_chain|apply silent_api]|]);
    intros [r|e| |] s2 [Hs2 _]; cbn [cl_sent] in Hs2; destruct (Hevs s2 Hs2) as (evs & Hb & ->);
    try (eexists; split; [exact Hb|apply Hp2]).
  all: apply wp_ret; eexists; (split; [exact Hb|apply Hp2]).
Qed.

Lemma silent_client s : wp (getSaoClient cctx) s (silent s (fun _ => True)).
Proof. apply silent_any. Qed.
Lemma silent_manager name s : wp (cliutil_GetDidManager cctx name) s (silent s (fun _ => True)).
Proof. apply silent_any. Qed.

(** The client orders first, if it publishes. *)
Lemma client_order_sends c m signer p s base {A} (k : Z -> GoM cl A) :
  order_of cctx m content p -> cl_sent s = base ++ [] ->
  (forall orderId s', (publish = false -> orderId = 0) ->
     cl_sent s' = base ++ ordered publish signer p orderId -> wp (k orderId) s' (sends base (@creates A))) ->
  wp (bind (client_order c publish signer p) k) s (sends base (@creates A)).
Proof.
  intros Hp Hs Hk. rewrite app_nil_r in Hs. unfold client_order. destruct publish eqn:Epub.
  - apply wp_bind, wp_bind, wp_attempt. eapply wp_mono; [apply silent_chain|].
    intros [[[resp hash] height]|e| |] s1 [Hs1 _]; rewrite Hs in Hs1.
    + apply wp_bind. unfold emit, modify, wp at 1. cbn [fst snd]. apply wp_ret, Hk; [done|]. cbn. by rewrite Hs1.
    + apply wp_bind. unfold emit, modify, wp at 1. cbn [fst snd]. apply wp_fail. eexists. split; [cbn; by rewrite Hs1|].
      by eapply CtRefused.
    + exists []. split; [by rewrite app_nil_r|]. apply CtNothing.
    + exists []. split; [by rewrite app_nil_r|]. apply CtNothing.
  - apply wp_bind, wp_ret, Hk; [done|]. by rewrite app_nil_r.
Qed.

Lemma createCmd_traced s : wp (createCmd cctx) s (sends (cl_sent s) creates).
Proof.
  assert (forall (o : outcome (string * string)), (forall a, o <> Ret a) -> creates o []) as Hend.
  { apply creates_end, CtNothing. }
  remember (cl_sent s) as base eqn:Hbase.
  assert (cl_sent s = base ++ []) as Hs by by rewrite app_nil_r. clear Hbase. unfold createCmd.
  destruct (_ || _); [by eapply sends_fail|]. cbv zeta. fold content. fold publish.
  destruct (1024 <? _); [by eapply sends_fail|].
  eapply sends_bind; [done|done|apply silent_client|]. intros c s1 Hs1 _.
  eapply sends_bind; [done|done|apply silent_lift|]. intros cid s2 Hs2 Hcid.
  eapply sends_bind; [done|done|apply silent_manager|]. intros [m signer] s3 Hs3 _.
  eapply sends_bind; [done|done|apply silent_api|]. intros gateway s4 Hs4 _.
  eapply sends_bind; [done|done|apply silent_any|]. intros dataId s5 Hs5 _.
  eapply sends_bind; [done|done|by apply buildClientProposal_signed|]. intros p s6 Hs6 [Ep Hsig].
  assert (order_of cctx m content p) as Hp.
  { split; [done|]. rewrite Ep. split; [by exists cid|]. done. }
  eapply client_order_sends; [done|done|]. intros orderId s7 Hz Hs7.
  assert (pr_DataId (osp_Proposal p) = dataId) as Edata by by rewrite Ep. clear Ep. subst dataId.
  eapply sends_bind; [done|by eapply creates_end, CtOrdered|by apply buildQueryRequest_sent|].
  intros req s8 Hs8 Hq. eapply sends_emit; [done|]. intros s9 Hs9.
  eapply sends_bind; [done| |apply silent_api|].
  { intros o Ho. apply creates_end; [|done]. by eapply CtCreated. }
  intros resp s10 Hs10 _. destruct (fl_Bool cctx "public") eqn:Epub.
  - apply wp_assoc. eapply sends_bind; [done| |apply silent_chain|].
    { intros o Ho. apply creates_end; [|done]. by eapply CtCreated. }
    intros dids s11 Hs11 _. by eapply create_permission.
  - apply wp_bind, wp_ret. eapply sends_ret; [done|]. by eapply CtCreated.
Qed.

(** C22: what a command that creates a model sends: nothing; or an order to the chain
    that is refused; or, if the client publishes, an order that the chain has taken,
    then the request to the gateway with the number of that order (0 if the client
    does not publish), then, if the model is public, a permission.  The order has the
    identifier and the size of the content of the request, names its data id as its
    commit, and is signed by its owner, and so are the query, which is about that
    data id and valid at a height the chain has reported, and the permission.  A
    command that succeeds has sent the request. *)
Theorem create_sends s : wp (createCmd cctx) s (sends (cl_sent s) (fun o evs => create_trace (is_ret o) evs)).
Proof. apply createCmd_traced. Qed.

(** The requests among what is sent. *)
Lemma create_trace_request b evs req p orderId c :
  create_trace b evs -> SentCreate req p orderId c ∈ evs ->
  exists m keyword gateway, order_signed m p /\
    query_sent m (MkQueryProposal (key_Id m) keyword "" 0 0 "" "" "") gateway req.
Proof.
  intros Ht Hin.
  destruct Ht as [|m signer p' e Hp _|m signer p' oid Hp _|b m signer p' oid req' g Hp _ Hq _|b m signer p' oid req' g perm Hp _ Hq _ _ _].
  all: unfold publish, ordered in *; try destruct (fl_Bool cctx "client-publish"); cbn [app] in Hin;
    rewrite ?elem_of_cons, ?elem_of_nil in Hin; destruct_or?; simplify_eq.
  all: destruct Hp as [Hp _]; eexists m, _, _; split; eassumption.
Qed.
End Create.

(** *** Updating a model *)

(** A patch that was made and checked: the content that it makes of the original is
    the target, up to the way JSON is written, and has the identifier and the size. *)
Definition patch_for `{!JsonTexts} (cctx : cli) (patch : string) (c : Cid) (content : bytes) : Prop :=
  ApplyPatch (string_bytes (fl_String cctx "origin")) (string_bytes patch) = inl content /\
  CalculateCid content = inl c /\
  exists v1 v2 b1 b2, json_Unmarshal_any content = inl v1 /\
    json_Unmarshal_any (string_bytes (fl_String cctx "target")) = inl v2 /\
    json_Marshal_any v1 = inl b1 /\ json_Marshal_any v2 = inl b2 /\ b1 = b2.

Lemma wp_lift {A} (r : A + error) s (Q : outcome A -> cl -> Prop) :
  (forall a, r = inl a -> Q (Ret a) s) -> (forall e, Q (Fail e) s) -> wp (lift r) s Q.
Proof. intros Ha He. destruct r; [by apply Ha|apply He]. Qed.

Lemma patchGenCmd_ok `{!JsonTexts} cctx s :
  wp (patchGenCmd cctx) s (fun o _ => match o with
    | Ret (patch, c, n) => exists content, patch_for cctx patch c content /\ n = length content
    | Fail _ => True
    | _ => False
    end).
Proof.
  unfold patchGenCmd, wrapping. destruct (_ || _); [done|]. cbv zeta.
  apply wp_bind, wp_lift; [|done]. intros patch Epatch. apply wp_bind, wp_lift; [|done]. intros content Ec.
  apply wp_bind, wp_or_else, wp_lift; [|done]. intros v1 Ev1. apply wp_ret.
  apply wp_bind, wp_or_else, wp_lift; [|done]. intros v2 Ev2. apply wp_ret.
  apply wp_bind, wp_or_else, wp_lift; [|done]. intros b1 Eb1. apply wp_ret.
  apply wp_bind, wp_or_else, wp_lift; [|done]. intros b2 Eb2. apply wp_ret.
  destruct (String.eqb_spec (bytes_string b1) (bytes_string b2)) as [Eq|]; [|done]. cbn [negb].
  apply wp_bind, wp_lift; [|done]. intros c Ecid. apply wp_ret. exists content. split; [|done].
  split; [done|]. split; [done|]. exists v1, v2, b1, b2. split_and!; [done..|].
  apply (f_equal string_bytes) in Eq. by rewrite !string_bytes_string in Eq.
Qed.

(** The updates among what is sent. *)
Definition each_update (P : MetadataProposal -> OrderStoreProposal -> Z -> bytes -> Prop) (e : sent) : Prop :=
  match e with SentUpdate req p orderId patch => P req p orderId patch | _ => True end.

Lemma client_order_forall (P : sent -> Prop) c publish signer p s base evs {A} (k : Z -> GoM cl A) :
  (forall r, P (SentStoreOrder signer p r)) -> cl_sent s = base ++ evs -> Forall P evs ->
  (forall orderId s' evs', cl_sent s' = base ++ evs' -> Forall P evs' ->
     wp (k orderId) s' (sends base (fun _ evs => Forall P evs))) ->
  wp (bind (client_order c publish signer p) k) s (sends base (fun _ evs => Forall P evs)).
Proof.
  intros HP Hs He Hk. unfold client_order. destruct publish; [|by eapply wp_bind, wp_ret, Hk].
  apply wp_bind, wp_bind, wp_attempt. eapply wp_mono; [apply silent_chain|].
  intros [[[resp hash] height]|e| |] s1 [Hs1 _]; rewrite Hs in Hs1; [..|by exists evs|by exists evs].
  all: apply wp_bind; unfold emit, modify, wp at 1; cbn [fst snd].
  - apply wp_ret. eapply (Hk _ _ (evs ++ [_])); [cbn; by rewrite Hs1, (assoc_L (++))|].
    apply Forall_app. split; [done|]. by apply Forall_singleton.
  - apply wp_fail. eexists. split; [cbn; by rewrite Hs1, <-(assoc_L (++))|].
    apply Forall_app. split; [done|]. by apply Forall_singleton.
Qed.

(** The order of an update: signed, with the identifier and the size of the flags. *)
Definition update_order (cctx : cli) (newCid : Cid) (p : OrderStoreProposal) : Prop :=
  (exists m, order_signed m p) /\ pr_Cid (osp_Proposal p) = cid_String newCid /\
  pr_Size (osp_Proposal p) = wrap_u64 (fl_Int cctx "size").

Lemma updateCmd_sends cctx s :
  wp (updateCmd cctx) s (sends (cl_sent s) (fun _ evs => Forall (each_update (fun _ p _ patch =>
    0 < fl_Int cctx "size" /\ patch = string_bytes (fl_String cctx "patch") /\
    exists newCid, cid_Decode (fl_String cctx "cid") = inl newCid /\ update_order cctx newCid p)) evs)).
Proof.
  remember (cl_sent s) as base eqn:Hbase.
  assert (cl_sent s = base ++ []) as Hs by by rewrite app_nil_r. clear Hbase. unfold updateCmd.
  destruct (negb _); [by eapply sends_fail|]. cbv zeta.
  destruct (Z.leb_spec (fl_Int cctx "size") 0) as [|Hsize]; [by eapply sends_fail|].
  destruct (cid_Decode (fl_String cctx "cid")) as [newCid|e] eqn:Ecid; [|by eapply sends_fail].
  apply wp_or_else, wp_ret.
  destruct (1024 <? _); [by eapply sends_fail|].
  eapply sends_bind; [done|done|apply silent_any|]. intros c s1 Hs1 _.
  eapply sends_bind; [done|done|apply silent_any|]. intros [m signer] s2 Hs2 _.
  eapply sends_bind; [done|done|apply silent_api|]. intros gateway s3 Hs3 _.
  eapply sends_bind; [done|done|by apply buildQueryRequest_sent|]. intros req s4 Hs4 Hq.
  eapply sends_emit; [done|]. intros s5 Hs5. cbn [app] in Hs5.
  eapply sends_bind; [done|by repeat constructor|apply silent_chain|]. intros res s6 Hs6 _.
  eapply sends_bind; [done|by repeat constructor|apply silent_any|]. intros commit s7 Hs7 _.
  eapply sends_bind; [done|by repeat constructor|by apply buildClientProposal_signed|]. intros p s8 Hs8 [Ep Hsig].
  eapply client_order_forall; [done|done|by repeat constructor|]. intros orderId s9 evs Hs9 Hevs.
  eapply sends_emit; [done|]. intros s10 Hs10.
  assert (forall P e, Forall P evs -> P e -> Forall P (evs ++ [e])) as Happ.
  { intros P e H1' H2'. apply Forall_app. split; [done|]. by apply Forall_singleton. }
  eapply wp_mono; [apply silent_api|]. intros o s11 [Hs11 _]. exists (evs ++ [SentUpdate req p orderId (string_bytes (fl_String cctx "patch"))]).
  split; [by rewrite Hs11|]. apply Happ; [done|]. cbn. split; [done|]. split; [done|]. exists newCid. split; [done|].
  split; [by exists m|]. by rewrite Ep.
Qed.

(** C24: a patch that was generated is the patch that is signed: when [patchGenCmd] has
    shown a patch, an identifier and a size, and [updateCmd] is given these, every
    update it sends has a patch that turns the original content into one whose
    identifier is the signed one - so that the check of the gateway on a model with
    that content accepts it - whose size is the signed one, and which is the target
    up to the way JSON is written. *)
Theorem patch_update `{!JsonTexts} gen upd patch c n s0 s0' s :
  patchGenCmd gen s0 = (Ret (patch, c, n), s0') -> cid_Decode (cid_String c) = inl c ->
  fl_String upd "patch" = patch -> fl_String upd "cid" = cid_String c -> fl_Int upd "size" = Z.of_nat n ->
  wp (updateCmd upd) s (sends (cl_sent s) (fun _ evs => Forall (each_update (fun _ p _ sentPatch =>
    exists content, patch_for gen patch c content /\ sentPatch = string_bytes patch /\
      ApplyPatch (string_bytes (fl_String gen "origin")) sentPatch = inl content /\
      (exists newCid, CalculateCid content = inl newCid /\ cid_String newCid = pr_Cid (osp_Proposal p)) /\
      pr_Size (osp_Proposal p) = wrap_u64 (Z.of_nat (length content)) /\
      exists m, order_signed m p)) evs)).
Proof.
  intros Eg Hdec Hpatch Hcid Hsize. pose proof (patchGenCmd_ok gen s0) as Hg. unfold wp in Hg. rewrite Eg in Hg.
  destruct Hg as (content & Hc & ->). eapply wp_mono; [apply updateCmd_sends|].
  intros o s' (evs & Hs & Hevs). exists evs. split; [done|]. eapply Forall_impl; [exact Hevs|].
  intros e He. destruct e; cbn in *; try done. destruct He as (_ & -> & newCid & Ecid & Hsig & Hpc & Hps).
  rewrite Hcid, Hdec in Ecid. injection Ecid as <-. exists content. rewrite Hpatch.
  split; [done|]. split; [done|]. split; [apply Hc|]. split; [exists c; split; [apply Hc|done]|].
  by rewrite Hps, Hsize.
Qed.

(** *** The gateway takes the requests *)

(** A signature that a manager has made is verified by every manager for its did. *)
Class JwsLaws := {
  created_verifies m b sig rest w1 w1' dm w2 w2' w3 :
    key_CreateJWS m b w1 = (inl (sig :: rest), w1') -> NewDidManagerWithDid (key_Id m) w2 = (inl dm, w2') ->
    exists w3', VerifyJWS dm (base64url_Encode b) sig w3 = (inl tt, w3')
}.

Section Accepted.
Context `{!JsonLib, !RuleLib} {G C X T : Type} `{!SchemaLib X, !ProposalFields W, !GatewaySvcApi G W, !CacheSvcApi C,
          !HasWorld G W, !SignedProposals W, !FishmenChain W, !Timer W, !ShardFetcher G, !Datastore T, !FileInfoLib,
          !NodeDid W, !JwsLaws}.
Abbreviation node := (nd (G := G) (W := W) (C := C) (X := X) (T := T)).
Implicit Types (ns : node).

Lemma wp_world_ret {A} (c : call W A) ns (Q : outcome A -> node -> Prop) a w' :
  c (world_of (mm_gw (nd_mm ns))) = (inl a, w') -> (forall ns', Q (Ret a) ns') -> wp (on_world (invoke c)) ns Q.
Proof. intros E HQ. unfold wp, on_world, on_mm, on_gw, zoom, invoke. rewrite E. apply HQ. Qed.

Lemma valid_signed m proposal sig ns :
  (forall w, exists dm w', NewDidManagerWithDid (key_Id m) w = (inl dm, w')) ->
  key_Id m = "all" \/ signed_by m proposal sig ->
  wp (validSignature proposal (key_Id m) sig) ns (fun o _ => o = Ret tt).
Proof.
  intros Hres Hsig. unfold validSignature. destruct (String.eqb_spec (key_Id m) "all") as [|Hall]; [done|].
  destruct Hsig as [|(b & rest & w1 & w1' & -> & Hs)]; [done|].
  destruct (Hres (world_of (mm_gw (nd_mm ns)))) as (dm & w2' & Hd).
  apply wp_bind, wp_or_else. eapply wp_world_ret; [exact Hd|]. intros ns1. apply wp_ret.
  apply wp_bind, wp_or_else, wp_ret, wp_ret, wp_or_else.
  destruct (created_verifies m b sig rest w1 w1' dm _ w2' (world_of (mm_gw (nd_mm ns1))) Hs Hd) as (w3' & Hv).
  eapply wp_world_ret; [exact Hv|]. intros ns2. by apply wp_ret.
Qed.

(** C23: the gateway takes what its clients sign: a request to create a model that a
    client has sent passes both checks of signatures of [ModelCreate], at every node
    that can resolve the did of the client. *)
Theorem requests_valid cctx s :
  wp (createCmd cctx) s (fun _ s' => exists evs, cl_sent s' = cl_sent s ++ evs /\
    forall req p orderId content, SentCreate req p orderId content ∈ evs ->
      (forall w, exists dm w', NewDidManagerWithDid (pr_Owner (osp_Proposal p)) w = (inl dm, w')) ->
      forall ns, wp (valid_query req) ns (fun o _ => o = Ret tt) /\ wp (valid_order p) ns (fun o _ => o = Ret tt)).
Proof.
  eapply wp_mono; [apply createCmd_traced|]. intros o s' (evs & Hs & Ht). exists evs. split; [done|].
  intros req p orderId content Hin Hres ns.
  destruct (create_trace_request _ _ _ _ _ _ _ Ht Hin) as (m & keyword & gateway & [Ho Hp] & [Hqo Hq] & _).
  rewrite Ho in Hres. unfold valid_query, valid_order. rewrite Hqo, Ho. split; by apply valid_signed.
Qed.
End Accepted.
End Trace.
