(* ===== verification/HttpTheorems.v ===== *)
(** * The HTTP file server: the cleaner, restarts and requests

    [clean_keeps_live]: a turn of the cleaner keeps the files of which the information
    file lists a path that the cache has for them, and removes the other ones.
    [restart_keeps]: after a restart the paths of the information files are cached
    again.  [last_key_only]: an information file has one path only.  [load_events]: what a request answers and asks. *)
From stdpp Require Import base list gmap strings.
From Stdlib Require Import ZArith Lia Ascii.
From S2P Require Import Prelude Types ChainApi LruCache Stage Chain Gateway.
From S2P Require Import ModelManager NodeApi Upload UploadTheorems Client ClientTheorems HttpFiles.

(** ** The cache of the server *)
Section Cache.
Context `{!HamtMap, !HamtLaws}.
Abbreviation svc := (LruCacheSvc (V := string)).
Abbreviation entries := (list (string * option string)).

(** The cache ["sao-http"] has a capacity and these entries. *)
Definition holds (c : svc) (cap : Z) (es : entries) : Prop :=
  exists Cs ac, svc_repr c Cs ac /\ ac !! cache_name = Some (cap, es).

(** What a path stands for. *)
Definition stands_for (es : entries) (k : string) : option string := assoc k es ≫= id.

Lemma assoc_app (k : string) (l1 l2 : entries) :
  assoc k (l1 ++ l2) = match assoc k l1 with Some v => Some v | None => assoc k l2 end.
Proof. induction l1 as [|[k' v] l1 IH]; cbn; [done|]. by destruct (String.eqb k' k). Qed.

Lemma assoc_drop_eq (k : string) (l : entries) : assoc k (drop_key k l) = None.
Proof.
  induction l as [|[k' v] l IH]; cbn; [done|]. destruct (String.eqb k' k) eqn:E; cbn; [done|]. by rewrite E.
Qed.
Lemma assoc_drop_ne (k k' : string) (l : entries) : k <> k' -> assoc k' (drop_key k l) = assoc k' l.
Proof.
  intros Hne. induction l as [|[x v] l IH]; cbn; [done|]. destruct (String.eqb_spec x k) as [->|]; cbn.
  - by rewrite (proj2 (String.eqb_neq k k')).
  - by destruct (String.eqb x k').
Qed.

(** Moving an entry to the end. *)
Lemma assoc_move (k k' : string) (v : option string) (l : entries) :
  assoc k' (drop_key k l ++ [(k, v)]) = if String.eqb k k' then Some v else assoc k' l.
Proof.
  rewrite assoc_app. cbn. destruct (String.eqb_spec k k') as [<-|Hne].
  - by rewrite assoc_drop_eq.
  - rewrite assoc_drop_ne by done. by destruct (assoc k' l).
Qed.

Lemma assoc_lru_get (k k' : string) (l : entries) : assoc k' (lru_get k l).2 = assoc k' l.
Proof.
  unfold lru_get. destruct (assoc k l) as [v|] eqn:E; [|done]. cbn. rewrite assoc_move.
  by destruct (String.eqb_spec k k') as [<-|].
Qed.
Lemma lru_get_value (k : string) (l : entries) : (lru_get k l).1 = stands_for l k.
Proof. unfold lru_get, stands_for. by destruct (assoc k l) as [[]|]. Qed.

Lemma holds_cache c cap es : holds c cap es -> exists l, cs_Caches c !! cache_name = Some l.
Proof.
  intros (Cs & ac & Hr & Ha). pose proof (sr_cache _ _ _ Hr cache_name) as Hn. rewrite Ha in Hn.
  destruct (cs_Caches c !! cache_name); [eauto|]. by destruct (Cs !! cache_name).
Qed.

(** One operation of the cache. *)
Lemma holds_op c cap es o :
  holds c cap es -> op_ok cap o es = true ->
  exists c', in_cache cache_name (run_op o) c = (Ret (lru_op cap o es).1, c') /\ holds c' cap (lru_op cap o es).2.
Proof.
  intros Hh Hok. destruct (holds_cache _ _ _ Hh) as [l El]. destruct Hh as (Cs & ac & Hr & Ha).
  destruct (cache_op_spec c Cs ac cache_name l o Hr El) as (cap' & es' & c' & Cs' & Ha' & Hrun & Hr').
  { intros cap' es' Ha'. congruence. }
  rewrite Ha in Ha'. injection Ha' as <- <-. exists c'. split; [done|]. eexists _, _. split; [done|]. apply lookup_insert_eq.
Qed.

Lemma holds_get c cap es k :
  holds c cap es -> exists c', svc_Get cache_name k c = (Ret (stands_for es k), c') /\ holds c' cap (lru_get k es).2.
Proof.
  intros Hh. destruct (holds_cache _ _ _ Hh) as [l El]. destruct (holds_op c cap es (OGet k) Hh eq_refl) as (c' & Hrun & Hh').
  exists c'. split; [|done]. unfold svc_Get, bind. cbn. rewrite El. cbn in Hrun. by rewrite Hrun, lru_get_value.
Qed.

(** The only entry is not replaced: the code panics later ([evict_only_panics]). *)
Lemma holds_put c cap es k v :
  holds c cap es -> cap <> 1 -> exists c', svc_Put cache_name k v c = (Ret tt, c') /\ holds c' cap (lru_put cap k v es).
Proof.
  intros Hh Hc. destruct (holds_op c cap es (OPut k v) Hh) as (c' & Hrun & Hh').
  { cbn. destruct (assoc k es); [done|]. by rewrite (proj2 (Z.eqb_neq cap 1)). }
  exists c'. split; [|done]. cbn [run_op] in Hrun. rewrite in_cache_then in Hrun. unfold svc_Put, bind in *.
  destruct (in_cache _ _ _) as [[[]|e| |] ?]; try done. by injection Hrun as <-.
Qed.
End Cache.

(** ** What the server relies on

    A machine that is [healthy] lists a directory that has files, finds what is
    there, and writes what it is told to; nothing is read of a file that is not
    there; keys that are texts are read back from an information file. *)
Class HttpLaws (W : Type) `{!FileSys W, !FileLaws W, !StatFiles W, !HttpLib W, !InfoJson} := {
  ReadDir_spec p w r w' : ioutil_ReadDir p w = (r, w') ->
    files w' = files w /\ (healthy w -> healthy w') /\
    match r with
    | inl l => NoDup l.*1 /\ forall name, free_of "/" name = true ->
        ((name, false) ∈ l <-> is_Some (files w !! (p +:+ "/" +:+ name)))
    | inr _ => healthy w -> forall name, free_of "/" name = true -> files w !! (p +:+ "/" +:+ name) = None
    end;
  ReadDir_names p w l w' name : ioutil_ReadDir p w = (inl l, w') -> name ∈ l.*1 -> free_of "/" name = true;
  Stat_file p w r w' : os_Stat p w = (r, w') ->
    files w' = files w /\ (healthy w -> healthy w') /\
    match r with inl _ => True | inr _ => healthy w -> files w !! p = None end;
  WriteFile_spec p b w r w' : os_WriteFile p b w = (r, w') ->
    healthy w -> healthy w' /\ files w' = <[p := b]> (files w);
  ReadFile_nothing p w : healthy w -> files w !! p = None -> ReadFile_beside p w = [];
  info_text : string -> Prop;
  Info_ok keys : Forall info_text keys -> Info_Unmarshal (Info_Marshal keys) = keys;
  Info_empty : Info_Unmarshal [] = []
}.

Lemma str_app_inj_length s s' t t' : String.length s = String.length s' -> s +:+ t = s' +:+ t' -> s = s'.
Proof.
  revert s'. induction s as [|c s IH]; intros [|c' s'] Hl E; try done. rewrite !str_app_cons in E.
  injection E as -> E. f_equal. injection Hl as Hl. by apply IH.
Qed.

(** ** The cleaner *)
Section Clean.
Context `{!HamtMap, !HamtLaws, !InfoJson} {W : Type} `{!FileSys W, !FileLaws W, !StatFiles W, !HttpLib W, !HttpLaws W}.
Context (ServerPath : string).
Abbreviation server := (hfs (W := W)).
Abbreviation entries := (list (string * option string)).
Abbreviation file_path := (file_path ServerPath).
Abbreviation info_path := (info_path ServerPath).

(** The information file of [name] lists the path [k]. *)
Definition has_key (m : gmap string bytes) (name k : string) : Prop :=
  exists info, m !! info_path name = Some info /\ k ∈ Info_Unmarshal info.

(** The information file of [name] lists a path that stands for [name]. *)
Definition live (es : entries) (m : gmap string bytes) (name : string) : bool :=
  match m !! info_path name with
  | Some info => existsb (fun k => bool_decide (stands_for es k = Some name)) (Info_Unmarshal info)
  | None => false
  end.

Lemma live_spec es m name : live es m name = true <-> exists k, has_key m name k /\ stands_for es k = Some name.
Proof.
  unfold live, has_key. destruct (m !! info_path name) as [info|]; [|by split; [|intros (? & (? & [=] & _) & _)]].
  rewrite existsb_exists. split.
  - intros (k & Hk%list_elem_of_In & Hs%bool_decide_eq_true). exists k. split; [by exists info|done].
  - intros (k & (? & [= <-] & Hk) & Hs). exists k. split; [by apply list_elem_of_In|by apply bool_decide_eq_true].
Qed.

(** What the cleaner does to the files. *)
Definition cleaned (es : entries) (m : gmap string bytes) (file : string * bool) : gmap string bytes :=
  if is_model_file file && negb (live es m file.1)
  then delete (info_path file.1) (delete (file_path file.1) m) else m.

(** The server: its machine works, has these files, and its cache has these entries
    (in any order). *)
Record serves (cap : Z) (es : entries) (m : gmap string bytes) (log : list http_event) (s : server) : Prop := {
  sv_healthy : healthy (hf_w s);
  sv_files : files (hf_w s) = m;
  sv_log : hf_log s = log;
  sv_cache : exists es', holds (CacheSvc s) cap es' /\ forall k, assoc k es' = assoc k es
}.

Lemma stands_for_ext (es es' : entries) k : (forall k, assoc k es' = assoc k es) -> stands_for es' k = stands_for es k.
Proof. intros He. unfold stands_for. by rewrite He. Qed.

Lemma serves_world cap es m m' log s w :
  serves cap es m log s -> healthy w -> files w = m' -> serves cap es m' log (Hfs w (CacheSvc s) (hf_log s)).
Proof. intros [Hl Hf Hg Hc] Hw <-. by split. Qed.

(** A call on the machine, with its result. *)
Lemma serves_call {A} (c : call W A) cap es m log s :
  serves cap es m log s ->
  forall r w', c (hf_w s) = (r, w') -> attempt (on_w (invoke c)) s = (Ret r, Hfs w' (CacheSvc s) (hf_log s)).
Proof. intros Hs r w' E. unfold attempt, on_w, zoom, invoke. rewrite E. by destruct r. Qed.

Lemma serves_read p cap es m log s :
  serves cap es m log s -> exists r s', attempt (on_w (invoke (os_ReadFile p))) s = (Ret r, s') /\ serves cap es m log s' /\
    match r with inl b => m !! p = Some b | inr _ => m !! p = None end.
Proof.
  intros Hs. destruct (os_ReadFile p (hf_w s)) as [r w'] eqn:E. eexists _, _. split; [by eapply serves_call|].
  apply ReadFile_spec in E as (Hf & Hh & Hr). pose proof Hs as [Hl <- _ _].
  split; [eapply serves_world; eauto|]. destruct r; auto.
Qed.

Lemma serves_stat p cap es m log s :
  serves cap es m log s -> exists r s', attempt (on_w (invoke (os_Stat p))) s = (Ret r, s') /\ serves cap es m log s' /\
    match r with inl _ => True | inr _ => m !! p = None end.
Proof.
  intros Hs. destruct (os_Stat p (hf_w s)) as [r w'] eqn:E. eexists _, _. split; [by eapply serves_call|].
  apply Stat_file in E as (Hf & Hh & Hr). pose proof Hs as [Hl <- _ _].
  split; [eapply serves_world; eauto|]. destruct r; auto.
Qed.

Lemma serves_remove p cap es m log s :
  serves cap es m log s ->
  exists s', ignore (on_w (invoke (os_Remove p))) s = (Ret tt, s') /\ serves cap es (delete p m) log s'.
Proof.
  intros Hs. destruct (os_Remove p (hf_w s)) as [r w'] eqn:E. unfold ignore, bind.
  rewrite (serves_call _ _ _ _ _ _ Hs _ _ E). eexists. split; [done|].
  apply os_Remove_spec in E as (Hh & Hr). pose proof Hs as [Hl <- _ _]. eapply serves_world; [done|auto|].
  destruct r as [[]|e]; [apply Hr|]. destruct Hr as [-> Hn]. by rewrite delete_id by auto.
Qed.

Lemma serves_get k cap es m log s :
  serves cap es m log s ->
  exists s', attempt (on_cache (svc_Get cache_name k)) s = (Ret (inl (stands_for es k)), s') /\ serves cap es m log s'.
Proof.
  intros [Hl Hf Hg (es' & Hc & He)]. destruct (holds_get _ _ _ k Hc) as (c' & Hrun & Hc').
  eexists. unfold attempt, on_cache, zoom. rewrite Hrun. split; [by rewrite (stands_for_ext es es')|].
  split; [done..|]. eexists. split; [done|]. intros k'. by rewrite assoc_lru_get.
Qed.

Lemma check_keys cap es m log name keys (b : bool) s :
  serves cap es m log s ->
  exists s', fold_m (check_key name) b keys s =
      (Ret (b && negb (existsb (fun k => bool_decide (stands_for es k = Some name)) keys)), s') /\
    serves cap es m log s'.
Proof.
  revert b s. induction keys as [|k keys IH]; intros b s Hs.
  { exists s. by rewrite andb_true_r. }
  cbn [fold_m existsb]. destruct (serves_get k _ _ _ _ _ Hs) as (s1 & Hget & Hs1).
  assert (check_key name b k s = (Ret (b && negb (bool_decide (stands_for es k = Some name))), s1)) as Hk.
  { unfold check_key, bind. rewrite Hget. destruct (stands_for es k) as [d|].
    - destruct (String.eqb_spec d name) as [->|Hne].
      + by rewrite bool_decide_true, andb_false_r.
      + by rewrite bool_decide_false, andb_true_r by congruence.
    - by rewrite bool_decide_false, andb_true_r. }
  unfold bind. rewrite Hk. destruct (IH (b && negb (bool_decide (stands_for es k = Some name))) s1 Hs1)
    as (s2 & -> & Hs2). exists s2. split; [|done]. by rewrite negb_orb, andb_assoc.
Qed.

Lemma clean_file_spec cap es m log file s :
  serves cap es m log s ->
  exists s', clean_file ServerPath file s = (Ret tt, s') /\ serves cap es (cleaned es m file) log s'.
Proof.
  intros Hs. unfold clean_file, cleaned. destruct (is_model_file file); cbn [negb andb]; [|by exists s].
  destruct (serves_read (info_path file.1) _ _ _ _ _ Hs) as (r & s1 & Hr & Hs1 & Hm).
  unfold bind at 1. rewrite Hr.
  assert (exists s2, (match r with inl info => fold_m (check_key file.1) true (Info_Unmarshal info) | inr _ => ret true end) s1
    = (Ret (negb (live es m file.1)), s2) /\ serves cap es m log s2) as (s2 & He & Hs2).
  { unfold live. destruct r as [info|e]; rewrite Hm; [|by exists s1]. by apply (check_keys _ _ _ _ _ _ true). }
  unfold bind at 1. rewrite He. destruct (live es m file.1); cbn [negb]; [by exists s2|].
  destruct (serves_remove (file_path file.1) _ _ _ _ _ Hs2) as (s3 & Hrm & Hs3). unfold bind at 1. rewrite Hrm.
  destruct (serves_stat (info_path file.1) _ _ _ _ _ Hs3) as (r' & s4 & Hst & Hs4 & Hm'). unfold bind at 1. rewrite Hst.
  destruct r' as [n|e]; [by apply serves_remove|]. exists s4. split; [done|]. by rewrite delete_id.
Qed.

Lemma clean_files_spec cap es m log l s :
  serves cap es m log s ->
  exists s', for_each l (clean_file ServerPath) s = (Ret tt, s') /\ serves cap es (foldl (cleaned es) m l) log s'.
Proof.
  revert m s. induction l as [|file l IH]; intros m s Hs; [by exists s|].
  destruct (clean_file_spec _ _ _ _ file _ Hs) as (s1 & Hrun & Hs1). cbn [for_each foldl]. unfold bind. rewrite Hrun.
  by apply IH.
Qed.

(** *** Which paths a turn changes *)
Definition model_name (name : string) : Prop := String.length name = 36%nat /\ free_of "/" name = true.

Lemma is_model_file_length file : is_model_file file = true -> String.length file.1 = 36%nat.
Proof. unfold is_model_file. by intros [_ ?%Nat.eqb_eq]%andb_prop. Qed.

Lemma file_path_inj n n' : file_path n = file_path n' -> n = n'.
Proof. unfold HttpFiles.file_path. intros E%(inj (String.append ServerPath)). by injection E. Qed.

Lemma info_path_inj n n' : info_path n = info_path n' -> n = n'.
Proof.
  unfold HttpFiles.info_path. intros E%(inj (String.append ServerPath)). injection E as E.
  assert (String.length n = String.length n') as Hl.
  { apply (f_equal String.length) in E. rewrite !str_length_app in E. lia. }
  exact (str_app_inj_length _ _ _ _ Hl E).
Qed.

Lemma file_not_info n n' : String.length n = 36%nat -> String.length n' = 36%nat -> file_path n <> info_path n'.
Proof.
  unfold HttpFiles.file_path, HttpFiles.info_path. intros Hn Hn' E%(f_equal String.length).
  rewrite !str_length_app in E. cbn in E. lia.
Qed.

Lemma cleaned_other es m file p :
  (String.length file.1 = 36%nat -> p <> file_path file.1 /\ p <> info_path file.1) -> cleaned es m file !! p = m !! p.
Proof.
  intros Hp. unfold cleaned. destruct (is_model_file file) eqn:E; [|done]. apply is_model_file_length, Hp in E as [Hf Hi].
  destruct (live es m file.1); cbn; [done|]. by rewrite !lookup_delete_ne.
Qed.

Lemma foldl_cleaned_other es l m p :
  (forall file, file ∈ l -> String.length file.1 = 36%nat -> p <> file_path file.1 /\ p <> info_path file.1) ->
  foldl (cleaned es) m l !! p = m !! p.
Proof.
  revert m. induction l as [|file l IH]; intros m Hp; [done|]. cbn. rewrite IH by (intros f Hf; apply Hp; by right).
  apply cleaned_other, Hp. left.
Qed.

(** The two paths of a model in a list of files. *)
Lemma foldl_cleaned_model es l m name :
  NoDup l.*1 -> String.length name = 36%nat ->
  let gone := bool_decide ((name, false) ∈ l) && negb (live es m name) in
  foldl (cleaned es) m l !! file_path name = (if gone then None else m !! file_path name) /\
  foldl (cleaned es) m l !! info_path name = (if gone then None else m !! info_path name).
Proof.
  intros Hnd Hn. revert m. induction l as [|file l IH]; intros m; [done|]. cbn in Hnd. apply NoDup_cons in Hnd as [Hnot Hnd].
  cbn [foldl]. destruct (decide (file.1 = name)) as [E|E].
  - assert (forall p, p = file_path name \/ p = info_path name -> foldl (cleaned es) (cleaned es m file) l !! p = cleaned es m file !! p)
      as Hrest.
    { intros p Hp. apply foldl_cleaned_other. intros f Hf Hlf. assert (f.1 <> name).
      { intros Ef. apply Hnot. rewrite E, <-Ef. by apply list_elem_of_fmap_2. }
      destruct Hp as [->| ->]; (split; [intros Ep|intros Ep]).
      - by apply file_path_inj in Ep.
      - by apply file_not_info in Ep.
      - symmetry in Ep. by apply file_not_info in Ep.
      - by apply info_path_inj in Ep. }
    rewrite !Hrest by auto. unfold cleaned, is_model_file. destruct file as [n d]. cbn [fst snd] in *. subst n.
    rewrite Hn. cbn [Nat.eqb andb]. destruct d; cbn [negb andb].
    + rewrite bool_decide_false; [done|]. intros [Ef|Hin]%elem_of_cons; [done|].
      apply Hnot. by apply (list_elem_of_fmap_2 fst _ (name, false)).
    + rewrite bool_decide_true by left. destruct (live es m name); cbn; [done|].
      rewrite lookup_delete_eq. rewrite lookup_delete_ne by (intros Ep; symmetry in Ep; by apply file_not_info in Ep).
      by rewrite lookup_delete_eq.
  - assert (forall p, p = file_path name \/ p = info_path name -> cleaned es m file !! p = m !! p) as Hfirst.
    { intros p Hp. apply cleaned_other. intros Hlf. destruct Hp as [->| ->]; (split; intros Ep).
      - apply file_path_inj in Ep. congruence.
      - by apply file_not_info in Ep.
      - symmetry in Ep. by apply file_not_info in Ep.
      - by apply info_path_inj in Ep. }
    destruct (IH Hnd (cleaned es m file)) as [-> ->]. rewrite !Hfirst by auto.
    assert (live es (cleaned es m file) name = live es m name) as -> by (unfold live; by rewrite Hfirst by auto).
    rewrite (bool_decide_ext ((name, false) ∈ file :: l) ((name, false) ∈ l)); [done|].
    rewrite elem_of_cons. split; [intros [<-|?]; done|auto].
Qed.

Lemma clean_turn cap es m log s :
  serves cap es m log s ->
  exists s' m', CleanCacheFiles ServerPath s = (Ret tt, s') /\ serves cap es m' log s' /\
    (forall name, model_name name ->
      let gone := bool_decide (is_Some (m !! file_path name)) && negb (live es m name) in
      m' !! file_path name = (if gone then None else m !! file_path name) /\
      m' !! info_path name = (if gone then None else m !! info_path name)) /\
    (forall p, (forall name, model_name name -> p <> file_path name /\ p <> info_path name) -> m' !! p = m !! p).
Proof.
  intros Hs. unfold CleanCacheFiles. destruct (ioutil_ReadDir ServerPath (hf_w s)) as [r w] eqn:E.
  unfold bind at 1. rewrite (serves_call _ _ _ _ _ _ Hs _ _ E). pose proof (ReadDir_spec _ _ _ _ E) as (Hf & Hh & Hr).
  pose proof Hs as [Hl Hm _ _]. assert (serves cap es m log (Hfs w (CacheSvc s) (hf_log s))) as Hs1.
  { eapply serves_world; [done|auto|]. by rewrite Hf. }
  destruct r as [l|e].
  - destruct Hr as [Hnd Hin]. destruct (clean_files_spec _ _ _ _ l _ Hs1) as (s' & Hrun & Hs').
    eexists _, _. split; [exact Hrun|]. split; [exact Hs'|]. split.
    + intros name [Hn Hfree]. rewrite (bool_decide_ext (is_Some _) ((name, false) ∈ l)).
      2: { symmetry. rewrite <-Hm. by apply Hin. }
      by apply foldl_cleaned_model.
    + intros p Hp. apply foldl_cleaned_other. intros f Hfl Hlen. apply Hp. split; [done|].
      eapply ReadDir_names; [exact E|]. by apply list_elem_of_fmap_2.
  - eexists _, m. split; [done|]. split; [exact Hs1|]. split; [|done]. intros name [Hn Hfree].
    specialize (Hr Hl name Hfree). rewrite Hm in Hr. rewrite bool_decide_false; [done|]. unfold HttpFiles.file_path. rewrite Hr. by intros [? ?].
Qed.
(** C33: a turn of the cleaner, on a machine that works, keeps the file of a model
    exactly when its information file lists a path that stands for it in the cache,
    removes every other file that has a name of 36 characters, with its information
    file, and changes no other file; what the cache says of each path stays.  So a
    file that is left has a path in the cache; but a file is removed under the paths
    that the cache still has for it, when the information file lists none of them. *)
Theorem clean_keeps_live cap es m log s :
  serves cap es m log s ->
  exists s' m', CleanCacheFiles ServerPath s = (Ret tt, s') /\ serves cap es m' log s' /\
    (forall name, model_name name ->
      let gone := bool_decide (is_Some (m !! file_path name)) && negb (live es m name) in
      m' !! file_path name = (if gone then None else m !! file_path name) /\
      m' !! info_path name = (if gone then None else m !! info_path name)) /\
    (forall name, model_name name -> is_Some (m !! file_path name) ->
      (is_Some (m' !! file_path name) <-> exists k, has_key m name k /\ stands_for es k = Some name)) /\
    (forall p, (forall name, model_name name -> p <> file_path name /\ p <> info_path name) -> m' !! p = m !! p).
Proof.
  intros Hs. destruct (clean_turn cap es m log s Hs) as (s' & m' & Hrun & Hs' & Hname & Hother).
  exists s', m'. split_and!; [done..| |done]. intros name Hn Hsome. destruct (Hname name Hn) as [-> _].
  rewrite bool_decide_true by done. rewrite <- live_spec. destruct (live es m name); cbn; [done|].
  split; [by intros [? ?]|done].
Qed.

(** *** Information files *)

(** After a file has been served for a path, its information file has this path and
    no other, whatever it had before. *)
Theorem last_key_only cap es m log dataId key s :
  serves cap es m log s ->
  exists s', updateCacheInfo ServerPath dataId key s = (Ret tt, s') /\
    serves cap es (<[info_path dataId := Info_Marshal [key]]> m) log s'.
Proof.
  intros Hs. unfold updateCacheInfo, bind at 1. cbn [gets].
  destruct (serves_read (info_path dataId) _ _ _ _ _ Hs) as (r & s1 & Hr & Hs1 & Hm). unfold bind at 1. rewrite Hr.
  set (keys := match r with inl _ => _ | inr _ => _ end).
  assert (keys = [key]) as ->.
  { subst keys. destruct r as [b|e]; [done|]. pose proof Hs as [Hl Hf _ _].
    by rewrite ReadFile_nothing, Info_empty by (done || by rewrite Hf). }
  pose proof Hs1 as [Hl Hf _ _]. destruct (os_WriteFile (info_path dataId) (Info_Marshal [key]) (hf_w s1)) as [r' w'] eqn:E.
  unfold ignore, bind. rewrite (serves_call _ _ _ _ _ _ Hs1 _ _ E). eexists. split; [done|].
  apply WriteFile_spec in E as [Hh Hw]; [|done]. eapply serves_world; [done..|]. by rewrite Hw, Hf.
Qed.

(** *** Restarts *)

(** The paths of the information file of a listed file. *)
Definition file_keys (m : gmap string bytes) (file : string * bool) : list (string * string) :=
  if is_model_file file then
    match m !! info_path file.1 with Some info => (fun k => (k, file.1)) <$> Info_Unmarshal info | None => [] end
  else [].
Definition put_key (cap : Z) (es : entries) (kd : string * string) : entries := lru_put cap kd.1 (Some kd.2) es.

Lemma assoc_put_key cap es kd k :
  cap <= 0 \/ Z.of_nat (length es) < cap ->
  assoc k (put_key cap es kd) = if String.eqb kd.1 k then Some (Some kd.2) else assoc k es.
Proof.
  intros Hc. unfold put_key, lru_put. destruct (assoc kd.1 es) eqn:E; [apply assoc_move|].
  assert ((0 <? cap) && (cap <=? Z.of_nat (length es)) = false) as ->.
  { destruct (Z.ltb_spec 0 cap), (Z.leb_spec cap (Z.of_nat (length es))); try done. lia. }
  rewrite assoc_app. cbn. destruct (String.eqb_spec kd.1 k) as [<-|]; [by rewrite E|]. by destruct (assoc k es).
Qed.

Lemma length_put_key cap es kd : (length (put_key cap es kd) <= S (length es))%nat.
Proof.
  unfold put_key, lru_put. pose proof (length_drop_key kd.1 es).
  destruct (assoc kd.1 es); [|destruct (_ && _)]; rewrite length_app; cbn; [lia|destruct es; cbn; lia|lia].
Qed.

(** Keys that fit in the cache: each stands for the last file that it was put for. *)
Definition last_put (k : string) (r : option (option string)) (kd : string * string) : option (option string) :=
  if String.eqb kd.1 k then Some (Some kd.2) else r.

Lemma assoc_put_keys cap kds es k :
  Z.of_nat (length es + length kds) <= cap ->
  assoc k (foldl (put_key cap) es kds) = foldl (last_put k) (assoc k es) kds.
Proof.
  revert es. induction kds as [|kd kds IH]; intros es Hc; [done|]. cbn [foldl length] in *.
  pose proof (length_put_key cap es kd). rewrite IH by lia. f_equal. apply assoc_put_key. lia.
Qed.

(** A key that is put for one file only. *)
Lemma last_put_same k name kds r :
  (forall kd, kd ∈ kds -> kd.1 = k -> kd.2 = name) -> (r = Some (Some name) \/ k ∈ kds.*1) ->
  foldl (last_put k) r kds = Some (Some name).
Proof.
  revert r. induction kds as [|kd kds IH]; intros r Hsame Hin; cbn.
  { by destruct Hin as [->|?%elem_of_nil]. }
  apply IH; [intros kd' Hkd'; apply Hsame; by right|]. unfold last_put. destruct (String.eqb_spec kd.1 k) as [E|E].
  - left. by rewrite (Hsame kd) by (left || done).
  - destruct Hin as [->|[Ek|Hin]%elem_of_cons]; [by left|by destruct E|by right].
Qed.

(** A server whose cache has these entries, in this order. *)
Definition exactly cap es m log (s : server) : Prop := serves cap es m log s /\ holds (CacheSvc s) cap es.

Lemma exactly_put cap es m log kd s :
  cap <> 1 -> exactly cap es m log s ->
  exists s', on_cache (svc_Put cache_name kd.1 (Some kd.2)) s = (Ret tt, s') /\ exactly cap (put_key cap es kd) m log s'.
Proof.
  intros Hc [[Hl Hf Hg _] Hes]. destruct (holds_put _ _ _ kd.1 (Some kd.2) Hes Hc) as (c' & Hrun & Hc').
  eexists. unfold on_cache, zoom. rewrite Hrun. split; [done|]. split; [|done]. split; [done..|]. by eexists.
Qed.

Lemma exactly_puts cap es m log name keys s :
  cap <> 1 -> exactly cap es m log s ->
  exists s', for_each keys (fun key => on_cache (svc_Put cache_name key (Some name))) s = (Ret tt, s') /\
    exactly cap (foldl (put_key cap) es ((fun k => (k, name)) <$> keys)) m log s'.
Proof.
  intros Hc. revert es s. induction keys as [|k keys IH]; intros es s Hs; [by exists s|].
  destruct (exactly_put _ _ _ _ (k, name) _ Hc Hs) as (s1 & Hrun & Hs1). cbn [for_each]. unfold bind. cbn [fst snd] in Hrun.
  rewrite Hrun. by apply IH.
Qed.

Lemma load_files_spec cap es m log l s :
  cap <> 1 -> exactly cap es m log s ->
  exists s', for_each l (load_file ServerPath) s = (Ret tt, s') /\
    exactly cap (foldl (put_key cap) es (l ≫= file_keys m)) m log s'.
Proof.
  intros Hc. revert es s. induction l as [|file l IH]; intros es s Hs; [by exists s|].
  assert (exists s1, load_file ServerPath file s = (Ret tt, s1) /\ exactly cap (foldl (put_key cap) es (file_keys m file)) m log s1)
    as (s1 & Hrun & Hs1).
  { unfold load_file, file_keys. destruct (is_model_file file); cbn [negb]; [|by exists s].
    destruct Hs as [Hs Hes]. destruct (serves_read (info_path file.1) _ _ _ _ _ Hs) as (r & s1 & Hr & Hs1 & Hm).
    assert (CacheSvc s1 = CacheSvc s) as Ec.
    { unfold attempt, on_w, zoom in Hr. destruct (invoke _ _) as [[] ?]; by injection Hr as _ <-. }
    unfold bind at 1. rewrite Hr.
    assert (exactly cap es m log s1) as Hs1' by (split; [done|by rewrite Ec]).
    destruct r as [info|e]; rewrite Hm; [by apply exactly_puts|by exists s1]. }
  cbn [for_each]. unfold bind. rewrite Hrun. destruct (IH _ _ Hs1) as (s2 & Hrun2 & Hs2). exists s2. split; [done|].
  cbn [mbind list_bind]. by rewrite foldl_app.
Qed.

(** The information file of [name] lists a path. *)
Definition keyed (m : gmap string bytes) (name : string) : bool :=
  match m !! info_path name with Some info => negb (bool_decide (Info_Unmarshal info = [])) | None => false end.

Lemma file_keys_has m l k name : (k, name) ∈ l ≫= file_keys m -> has_key m name k.
Proof.
  intros (file & Hin & Hl)%list_elem_of_bind. unfold file_keys in Hin.
  destruct (is_model_file file); [|by apply elem_of_nil in Hin].
  destruct (m !! info_path file.1) as [info|] eqn:E; [|by apply elem_of_nil in Hin].
  apply list_elem_of_fmap in Hin as (k' & [= -> ->] & Hk). by exists info.
Qed.

Lemma has_file_keys m l k name :
  String.length name = 36%nat -> (name, false) ∈ l -> has_key m name k -> (k, name) ∈ l ≫= file_keys m.
Proof.
  intros Hn Hl (info & Hi & Hk). apply list_elem_of_bind. exists (name, false). split; [|done].
  unfold file_keys, is_model_file. cbn [fst snd]. rewrite Hn, Hi. cbn. by apply (list_elem_of_fmap_2 (fun k => (k, name))).
Qed.

Lemma live_keyed es m name :
  (forall k, has_key m name k -> stands_for es k = Some name) -> live es m name = keyed m name.
Proof.
  intros Hk. unfold live, keyed, has_key in *. destruct (m !! info_path name) as [info|]; [|done].
  destruct (Info_Unmarshal info) as [|k keys] eqn:E; [done|]. cbn. rewrite bool_decide_true; [done|].
  apply Hk. exists info. split; [done|]. rewrite E. left.
Qed.

Section Restart.
Context (Cfg : SaoHttpFileServer) (w : W) (log : list http_event).
Let size : Z := if CacheSize Cfg <=? 0 then 1024 else CacheSize Cfg.
Let m : gmap string bytes := files w.
Context (Hw : healthy w) (Hsize : CacheSize Cfg <> 1).
Context (Hfit : forall l w', ioutil_ReadDir ServerPath w = (inl l, w') -> Z.of_nat (length (l ≫= file_keys m)) <= size).
Context (Hone : forall n n' k, has_key m n k -> has_key m n' k -> n = n').

(** The server that starts caches every path of the information files. *)
Lemma start_spec :
  exists s' es, StartHttpFileServer Cfg ServerPath (Hfs w NewLruCacheSvc log) = (Ret tt, s') /\ serves size es m log s' /\
    forall name k, model_name name -> is_Some (m !! file_path name) -> has_key m name k -> stands_for es k = Some name.
Proof.
  unfold StartHttpFileServer. fold size.
  assert (size <> 1) as Hs1 by (subst size; destruct (Z.leb_spec (CacheSize Cfg) 0); lia).
  set (c := MkLruCacheSvc (V := string) ∅ 0 {[cache_name := CreateLruCache size]}).
  assert (ignore (on_cache (svc_CreateCache cache_name size)) (Hfs w NewLruCacheSvc log) = (Ret tt, Hfs w c log)) as Hc by done.
  unfold bind at 1. rewrite Hc.
  assert (exactly size [] m log (Hfs w c log)) as Hex.
  { assert (holds c size []) as Hh.
    { eexists _, _. split; [apply (create_spec _ _ _ cache_name size svc_repr_new); done|]. apply lookup_insert_eq. }
    split; [|done]. split; [done..|]. by eexists. }
  unfold loadCacheFiles. destruct (ioutil_ReadDir ServerPath w) as [r w1] eqn:E.
  unfold bind at 1. rewrite (serves_call _ _ _ _ _ _ (proj1 Hex) r w1 E).
  pose proof (ReadDir_spec _ _ _ _ E) as (Hf & Hh & Hr). cbn [CacheSvc hf_log].
  assert (exactly size [] m log (Hfs w1 c log)) as Hex1.
  { destruct Hex as [Hs Hes]. split; [|done]. apply (serves_world _ _ _ m _ _ w1 Hs); [auto|done]. }
  destruct r as [l|e].
  - destruct (load_files_spec _ _ _ _ l _ Hs1 Hex1) as (s' & Hrun & Hs' & _). eexists _, _. split; [exact Hrun|].
    split; [exact Hs'|]. intros name k [Hn Hfree] Hin Hk. unfold stands_for. rewrite assoc_put_keys by (eapply Hfit; done).
    rewrite (last_put_same k name); [done| |].
    + intros [k' n'] Hkd E'. cbn in *. subst k'. symmetry. eapply Hone; [exact Hk|]. by eapply file_keys_has.
    + right. apply (list_elem_of_fmap_2 fst _ (k, name)). apply has_file_keys; [done| |done].
      destruct Hr as [_ Hr]. by apply Hr.
  - destruct (os_MkdirAll ServerPath w1) as [r' w2] eqn:E'. unfold ignore, bind.
    rewrite (serves_call _ _ _ _ _ _ (proj1 Hex1) r' w2 E'). eexists _, _. split; [done|].
    apply MkdirAll_spec in E' as (Hf2 & Hh2 & _). split.
    + destruct Hex1 as [Hs _]. apply (serves_world _ _ _ m _ _ w2 Hs); [auto|]. subst m. congruence.
    + intros name k [_ Hfree] Hin. specialize (Hr Hw name Hfree). unfold m, HttpFiles.file_path in Hin. rewrite Hr in Hin. by destruct Hin.
Qed.

(** When the server starts with at most as many paths in the information files as
    its cache holds, each path in one of them, every path of a model stands for its
    file again, and the first turn of the cleaner removes exactly the models without
    a path. *)
Theorem restart_keeps :
  exists s' es m', (StartHttpFileServer Cfg ServerPath ;; CleanCacheFiles ServerPath) (Hfs w NewLruCacheSvc log) = (Ret tt, s') /\
    serves size es m' log s' /\
    (forall name k, model_name name -> is_Some (m !! file_path name) -> has_key m name k -> stands_for es k = Some name) /\
    (forall name, model_name name ->
      let gone := bool_decide (is_Some (m !! file_path name)) && negb (keyed m name) in
      m' !! file_path name = (if gone then None else m !! file_path name) /\
      m' !! info_path name = (if gone then None else m !! info_path name)).
Proof.
  destruct start_spec as (s1 & es & Hrun & Hs1 & Hk). destruct (clean_turn _ _ _ _ _ Hs1) as (s2 & m' & Hrun2 & Hs2 & Hm' & _).
  exists s2, es, m'. unfold bind. rewrite Hrun, Hrun2. split_and!; [done..|]. intros name Hname.
  specialize (Hm' name Hname). destruct (decide (is_Some (m !! file_path name))) as [Hin|Hin].
  - rewrite (live_keyed es m name) in Hm' by (intros k; by apply Hk). done.
  - rewrite bool_decide_false in Hm' |- * by done. done.
Qed.
End Restart.
End Clean.

(** ** Requests *)
Section Load.
Context `{!CidLib, !ErrorText, !ContextLib, !HamtMap, !HamtLaws, !InfoJson} {W : Type}.
Context `{!SaoTypes, !CosmosLib W, !KeyringLib W, !FileSys W, !FileLaws W, !StatFiles W, !OpenFiles W, !DidKeyLib W,
          !UuidLib W, !DidLib W, !ChainSvcApi W, !GatewayChain W, !SaoApi W, !ClientLib W, !HttpLib W, !HttpLaws W}.
Context (Remote ServerPath KeyringHome : string).
Abbreviation server := (hfs (W := W)).
Abbreviation svc := (LruCacheSvc (V := string)).
Abbreviation entries := (list (string * option string)).

(** *** Paths without a keyword *)
Lemma prefix_slash c s : String.prefix "/" (String c s) = true -> c = "/"%char.
Proof. cbn [String.prefix]. destruct (ascii_dec "/" c); [congruence|done]. Qed.

Lemma cut_spec_empty s : cut s "/" = Some ("", "") -> s = "/".
Proof.
  destruct s as [|c s]; [done|]. cbn [cut]. destruct (String.prefix "/" (String c s)) eqn:E.
  - apply prefix_slash in E as ->. intros [=E']. by destruct s.
  - destruct (cut s "/") as [[]|]; by intros [=].
Qed.

(** The path is never one of three parts when it has no keyword and no group: the
    chain is never asked for a model of a group. *)
Lemma no_group_model uri :
  path_query uri = ("", "") -> (exists a, SplitN uri 3 = [a]) \/ (exists a b, SplitN uri 3 = [a; b]).
Proof.
  unfold path_query. destruct (String.eqb_spec (FindUuid uri) "") as [_|Hne]; cbn [negb].
  - cbn [SplitN]. destruct (cut uri "/") as [[a b]|] eqn:E; [|eauto].
    intros [=-> ->]. apply cut_spec_empty in E as ->. right. by exists "", "".
  - intros [=]. done.
Qed.

(** *** What a request asks and answers *)

(** The request for the model of a path: for the did of the account of the node,
    signed with its key. *)
Definition asks (uri : string) (req : MetadataProposal) : Prop :=
  exists dm addr keyName gateway w w',
    GetDidManager keyName w = (Ret (dm, addr), w') /\ (path_query uri).1 <> "" /\
    query_sent (W := W) dm (model_query (key_Id dm) (path_query uri).1 (path_query uri).2) gateway req.

Inductive resolves (uri : string) : bool -> list http_event -> Prop :=
| RvNothing : resolves uri false []
| RvNoPath b : path_query uri = ("", "") -> resolves uri b
    [Answered 404 "invalid keyword and group"; Answered 404 "invalid request"]
| RvNoKeyword b : (path_query uri).1 = "" -> (path_query uri).2 <> "" -> resolves uri b [Answered 404 "invalid request"]
| RvNotFound b req err : asks uri req -> Index_positive (Error err) "NotFound" = true ->
    resolves uri b [AskedModel req (inr err); Answered 404 "model not found"]
| RvAsked req r : asks uri req -> resolves uri false [AskedModel req r]
| RvSent b req resp content : asks uri req ->
    resolves uri b [AskedModel req (inl resp); SentFile (path_Join [ServerPath; lr_DataId resp]) content].

Definition learned cap (uri : string) (evs : list http_event) (c : svc) : Prop :=
  exists es, holds c cap es /\ forall req resp, AskedModel req (inl resp) ∈ evs -> stands_for es uri = Some (lr_DataId resp).

Lemma assoc_lru_put_same cap k v (es : entries) : assoc k (lru_put cap k v es) = Some v.
Proof.
  unfold lru_put. destruct (assoc k es) as [v'|] eqn:E; [rewrite assoc_move; by rewrite String.eqb_refl|].
  rewrite assoc_app. assert (assoc k (if (0 <? cap) && (cap <=? Z.of_nat (length es)) then tail es else es) = None) as ->.
  { destruct (_ && _); [|done]. destruct es as [|[k' v'] es]; [done|]. cbn in *. by destruct (String.eqb k' k). }
  cbn. by rewrite String.eqb_refl.
Qed.

(** *** Steps *)
Lemma on_w_bind {A B} (c : GoM W A) (k : A -> GoM server B) w cs l P (R : outcome B -> list http_event -> svc -> Prop) :
  (forall o, (forall a, o <> Ret a) -> R o l cs) ->
  wp c w (fun o _ => match o with Ret a => P a | _ => True end) ->
  (forall a w', P a -> wp (k a) (Hfs w' cs l) (fun o s => R o (hf_log s) (CacheSvc s))) ->
  wp (bind (on_w c) k) (Hfs w cs l) (fun o s => R o (hf_log s) (CacheSvc s)).
Proof.
  intros HR Hc Hk. apply wp_bind, wp_zoom. eapply wp_mono; [exact Hc|].
  intros [a|e| |] w' Ha; [by apply Hk|..]; by apply HR.
Qed.

Lemma any_result {A} (c : GoM W A) w : wp c w (fun o _ => match o with Ret _ => True | _ => True end).
Proof. unfold wp. by destruct (c w) as [[] ?]. Qed.

Lemma buildQueryRequest_asks c m proposal gateway w :
  qp_Owner proposal = key_Id m ->
  wp (HttpFiles.buildQueryRequest m proposal c gateway) w (fun o _ =>
    match o with Ret req => query_sent m proposal gateway req | _ => True end).
Proof.
  intros Ho. unfold HttpFiles.buildQueryRequest, client_chain, wrapping. destruct (sc_ChainSvcApi c); [|by apply wp_bind, wp_or_else].
  apply wp_bind, wp_or_else, wp_call; [|done]. intros h w1 Eh. apply wp_ret, wp_bind, wp_call; [|done]. intros peer w2 Ep.
  cbn beta zeta. cbn [query_at qp_Owner].
  assert (forall sig, (key_Id m = "all" \/ signed_by m (QueryProposal_Marshal (query_at proposal h peer)) sig) ->
    query_sent m proposal gateway (MkMetadataProposal (query_at proposal h peer) sig)) as Hq.
  { intros sig Hsig. split; [by split|]. exists h, peer. split; [done|]. split; eauto. }
  destruct (String.eqb_spec (qp_Owner proposal) "all") as [E|E]; [apply wp_ret, Hq; left; congruence|].
  unfold sign, wrapping. apply wp_bind, wp_bind, wp_or_else. destruct (QueryProposal_Marshal _) as [b|e] eqn:Eb; [|done].
  apply wp_ret, wp_ret, wp_bind, wp_or_else, wp_call; [|done]. intros [|sig rest] w3 Es; apply wp_ret; [done|].
  apply wp_ret, wp_ret, Hq. right. by exists b, rest, w2, w3.
Qed.

(** *** A path that is not cached *)
Lemma learned_nothing cap es uri evs c :
  holds c cap es -> (forall req resp, AskedModel req (inl resp) ∉ evs) -> learned cap uri evs c.
Proof. intros Hc Hn. exists es. split; [done|]. intros req resp Hin. by destruct (Hn req resp). Qed.

Lemma updateCacheInfo_quiet dataId key w c l :
  exists w', updateCacheInfo ServerPath dataId key (Hfs w c l) = (Ret tt, Hfs w' c l).
Proof.
  unfold updateCacheInfo, bind at 1. cbn [gets]. unfold bind, attempt, ignore, on_w, zoom, invoke, attempt, bind.
  cbn [hf_w CacheSvc hf_log]. destruct (os_ReadFile _ w) as [[b|e] w1]; cbn;
    destruct (os_WriteFile _ _ w1) as [[[]|e'] w2]; cbn; by eexists.
Qed.

(** What has happened when the data id is known, or the request is over. *)
Definition resolved (base : list http_event) cap uri (o : outcome (option string)) l (c : svc) : Prop :=
  exists evs, l = base ++ evs /\ learned cap uri evs c /\
    match o with
    | Ret (Some d) => exists req resp, evs = [AskedModel req (inl resp)] /\ asks uri req /\ d = lr_DataId resp
    | _ => resolves uri (is_ret o) evs
    end.

Lemma resolved_end base cap es uri evs (o : outcome (option string)) c :
  holds c cap es -> (forall req resp, AskedModel req (inl resp) ∉ evs) -> (forall d, o <> Ret (Some d)) ->
  resolves uri (is_ret o) evs -> resolved base cap uri o (base ++ evs) c.
Proof.
  intros Hc Hn Ho Hr. exists evs. split; [done|]. split; [by eapply learned_nothing|].
  destruct o as [[d|]|e| |]; [by destruct (Ho d)|done..].
Qed.

Lemma resolved_nothing base cap es uri (o : outcome (option string)) c :
  holds c cap es -> (forall a, o <> Ret a) -> resolved base cap uri o base c.
Proof.
  intros Hc Ho. rewrite <-(app_nil_r base) at 2. eapply resolved_end; [done|by intros ? ? ?%elem_of_nil|naive_solver|].
  destruct o as [a|e| |]; [by destruct (Ho a)|constructor..].
Qed.

(** The answer of the gateway. *)
Lemma model_answer base cap es uri req resp w c :
  cap <> 1 -> holds c cap es -> asks uri req ->
  wp (match resp with
      | inr err => if Index_positive (Error err) "NotFound" then (HttpFiles.log (Answered 404 "model not found") ;; ret None)
                   else fail err
      | inl resp => on_cache (svc_Put cache_name uri (Some (lr_DataId resp))) ;;
          updateCacheInfo ServerPath (lr_DataId resp) uri ;; ret (Some (lr_DataId resp))
      end) (Hfs w c (base ++ [AskedModel req resp])) (fun o s => resolved base cap uri o (hf_log s) (CacheSvc s)).
Proof.
  intros Hcap Hc Ha. destruct resp as [resp|err].
  - destruct (holds_put _ _ _ uri (Some (lr_DataId resp)) Hc Hcap) as (c' & Hrun & Hc').
    destruct (updateCacheInfo_quiet (lr_DataId resp) uri w c' (base ++ [AskedModel req (inl resp)])) as [w' Hup].
    unfold wp, bind, on_cache, zoom. cbn [CacheSvc hf_w hf_log]. rewrite Hrun. cbn [fst snd]. rewrite Hup. cbn.
    exists [AskedModel req (inl resp)]. split; [done|]. split; [|by exists req, resp].
    eexists. split; [exact Hc'|]. intros req' resp' [[= -> ->]|?%elem_of_nil]%elem_of_cons; [|done].
    unfold stands_for. by rewrite assoc_lru_put_same.
  - destruct (Index_positive _ _) eqn:Ei; unfold wp, bind; cbn.
    + rewrite <-(assoc_L (++)). eapply resolved_end; [done| |done|by constructor].
      intros req' resp'. rewrite !elem_of_app, !list_elem_of_singleton. by intros [|].
    + eapply resolved_end; [done| |done|by constructor]. intros req' resp'. by rewrite list_elem_of_singleton.
Qed.

Lemma load_model_resolved base cap es uri w c :
  cap <> 1 -> holds c cap es ->
  wp (load_model Remote ServerPath KeyringHome uri) (Hfs w c base) (fun o s => resolved base cap uri o (hf_log s) (CacheSvc s)).
Proof.
  intros Hcap Hc. unfold load_model. pose proof (fun o => resolved_nothing base cap es uri o c Hc) as Hno.
  eapply (on_w_bind _ _ _ _ _ (fun _ => True)); [exact Hno|apply any_result|intros def w1 _].
  eapply (on_w_bind _ _ _ _ _ (fun _ => True)); [exact Hno|apply any_result|intros cfg w2 _].
  eapply (on_w_bind _ _ _ _ _ (fun _ => True)); [exact Hno|apply any_result|intros cl w3 _].
  destruct (path_query uri) as [keyword groupId] eqn:Eq. destruct (String.eqb_spec keyword "") as [->|Hk].
  - destruct (String.eqb_spec groupId "") as [->|Hg]; cbn [andb].
    + assert (wp (group_model cl uri) (Hfs w3 c base) (fun o s => o = Ret "" /\ s = Hfs w3 c (base ++ [Answered 404 "invalid keyword and group"])))
        as Hgm.
      { unfold group_model. by destruct (no_group_model uri Eq) as [(a' & ->)|(a' & b' & ->)]. }
      apply wp_bind. eapply wp_mono; [exact Hgm|]. intros o s [-> ->]. unfold wp, bind. cbn. rewrite <-(assoc_L (++)).
      eapply resolved_end; [done| |done|by constructor].
      intros req' resp'. rewrite !elem_of_app, !list_elem_of_singleton. by intros [|].
    + unfold wp, bind. cbn. eapply resolved_end; [done| |done|constructor; by rewrite Eq].
      intros req' resp'. by rewrite list_elem_of_singleton.
  - cbn [andb]. apply wp_bind, wp_ret. rewrite (proj2 (String.eqb_neq keyword "") Hk).
    eapply (on_w_bind _ _ _ _ _ (fun did => exists w w', GetDidManager (scc_KeyName (sc_Cfg cl)) w = (Ret did, w'))); [exact Hno| |].
    { unfold wp. destruct (GetDidManager _ w3) as [[did|e| |] w'] eqn:E; cbn; eauto. }
    intros [m addr] w4 (wd & wd' & Hdid). cbn [fst].
    eapply (on_w_bind _ _ _ _ _ (fun _ => True)); [exact Hno|apply any_result|]. intros gateway w5 _.
    eapply (on_w_bind _ _ _ _ _ (query_sent m (model_query (key_Id m) keyword groupId) gateway)); [exact Hno|by apply buildQueryRequest_asks|].
    intros req w6 Hreq.
    assert (asks uri req) as Ha.
    { exists m, addr, (scc_KeyName (sc_Cfg cl)), gateway, wd, wd'. rewrite Eq. by split_and!. }
    apply wp_bind, wp_attempt, wp_zoom. unfold client_api. destruct (sc_SaoApi cl); [|by apply Hno].
    apply wp_call; intros r w7 _; apply wp_bind; unfold log, modify, wp at 1; cbn [fst snd hf_w CacheSvc hf_log].
    + exact (model_answer base cap es uri req (inl r) w7 c Hcap Hc Ha).
    + exact (model_answer base cap es uri req (inr r) w7 c Hcap Hc Ha).
Qed.

(** *** Requests *)
Lemma cached_spec cap es m base uri s :
  serves cap es m base s ->
  exists r s', cached ServerPath uri s = (Ret r, s') /\ serves cap es m base s' /\
    match r with
    | Some d => stands_for es uri = Some d
    | None => forall d, stands_for es uri = Some d -> m !! file_path ServerPath d = None
    end.
Proof.
  intros Hs. unfold cached. destruct (serves_get uri _ _ _ _ _ Hs) as (s1 & Hget & Hs1). unfold bind at 1. rewrite Hget.
  destruct (stands_for es uri) as [d|] eqn:E; [|by exists None, s1].
  destruct (serves_stat (file_path ServerPath d) _ _ _ _ _ Hs1) as (r & s2 & Hst & Hs2 & Hr). unfold bind. rewrite Hst.
  destruct r as [n|e]; [by exists (Some d), s2|]. exists None, s2. split; [done|]. split; [done|]. by intros d' [= <-].
Qed.

(** A file is sent, or the answer fails. *)
Lemma send_file_log path s (Q : outcome unit -> server -> Prop) :
  (forall o w evs, evs = [] /\ is_ret o = false \/ (exists content, evs = [SentFile path content] /\ o = Ret tt) ->
     Q o (Hfs w (CacheSvc s) (hf_log s ++ evs))) -> wp (send_file path) s Q.
Proof.
  intros HQ. unfold send_file. apply wp_bind, wp_zoom, wp_call; intros r w _.
  - unfold log, modify, wp. cbn. apply HQ. right. by exists r.
  - specialize (HQ (Fail r) w []). rewrite app_nil_r in HQ. apply HQ. by left.
Qed.

(** C32: a request is answered with the file that its path stands for in the cache,
    asking nobody; or, when that file is not there or the path not cached, with the
    file that the gateway names for the keyword and the group of the path, asked once
    and on behalf of the account of the node, whoever sent the request; the path then
    stands for this file; or it is answered that there is nothing.  The chain is
    never asked for the model of a group. *)
Theorem load_events cap es m base url s :
  cap <> 1 -> serves cap es m base s ->
  let uri := Replace1 url "/sao/" "" in
  wp (load Remote ServerPath KeyringHome url) s (fun o s' => exists evs, hf_log s' = base ++ evs /\
    ((exists d, stands_for es uri = Some d /\
        (evs = [] /\ is_ret o = false \/ exists content, evs = [SentFile (path_Join [ServerPath; d]) content])) \/
     ((forall d, stands_for es uri = Some d -> m !! file_path ServerPath d = None) /\
      resolves uri (is_ret o) evs /\ learned cap uri evs (CacheSvc s')))).
Proof.
  intros Hcap Hs uri. unfold load. fold uri. destruct (cached_spec _ _ _ _ uri _ Hs) as (r & s1 & Hrun & Hs1 & Hr).
  apply wp_bind. unfold wp at 1. rewrite Hrun. cbn [fst snd]. pose proof Hs1 as [_ _ Hlog (es' & Hc & _)].
  destruct r as [d|].
  - apply wp_bind, wp_ret, send_file_log. rewrite Hlog. intros o w evs Hevs. exists evs. split; [done|]. left. exists d.
    split; [done|]. destruct Hevs as [?|(content & -> & ->)]; [by left|right; by exists content].
  - apply wp_bind. destruct s1 as [w1 c1 l1]. cbn in Hlog, Hc. subst l1.
    eapply wp_mono; [by apply (load_model_resolved base cap es')|]. intros o s2 (evs & Hl & Hlearn & Ho).
    assert (forall o' : outcome unit, resolves uri (is_ret o') evs -> exists evs, hf_log s2 = base ++ evs /\
      ((exists d, stands_for es uri = Some d /\
        (evs = [] /\ is_ret o' = false \/ exists content, evs = [SentFile (path_Join [ServerPath; d]) content])) \/
       ((forall d, stands_for es uri = Some d -> m !! file_path ServerPath d = None) /\
        resolves uri (is_ret o') evs /\ learned cap uri evs (CacheSvc s2)))) as Hend.
    { intros o' Hres. exists evs. split; [done|]. right. by split_and!. }
    destruct o as [[d|]|e| |]; [|by apply Hend..]. destruct Ho as (req & resp & -> & Ha & ->).
    apply send_file_log. rewrite Hl. intros o w evs Hevs. rewrite <-(assoc_L (++)). eexists. split; [done|]. right.
    split; [done|]. destruct Hevs as [[-> Ho]|(content & -> & ->)].
    + rewrite app_nil_r, Ho. split; [by constructor|done].
    + split; [by constructor|]. destruct Hlearn as (es2 & Hc2 & Hst). exists es2. split; [done|].
      intros req' resp' [Hin|?%list_elem_of_singleton]%elem_of_app; [by eapply Hst|done].
Qed.
End Load.
