(* ===== verification/IndexerTheorems.v ===== *)
(** * The indexer: what the jobs enter into their tables

    [metadata_index_outcome] and [shard_index_outcome]: which rows a job inserts, and
    when it fails.  [small_index]: a chain with fewer than 100 models is indexed.
    [large_index_fails]: on a larger one the pages overlap, and the statement has a
    row twice.  [turn_outcome], [pending_all_last]: the index service. *)
From stdpp Require Import base list gmap strings.
From Stdlib Require Import ZArith Lia Ascii.
From S2P Require Import Prelude Types StateUtils Cbor Queue ChainApi Stage Chain NodeApi Client Indexer Graphql.

(** ** Inserting rows *)

(** The text of the values of some rows. *)
Definition values {A} (row : A -> string) (l : list A) : string := String.concat ", " (row <$> l).

Section Save.
Context {T A K R : Type} `{Countable K}.
Context (table : T -> gmap K R) (ok : T -> Prop) (key : A -> K) (row_of : A -> R).
Context (row : A -> string) (insert : string) (exec : string -> GoM T unit) (plain : A -> Prop).

(** Rows with keys of their own, that the table does not have. *)
Definition addable (l : list A) (s : T) : Prop := NoDup (key <$> l) /\ Forall (fun x => table s !! key x = None) l.
Definition added (l : list A) (tb : gmap K R) : gmap K R := list_to_map ((fun x => (key x, row_of x)) <$> l) ∪ tb.

(** A statement inserts all its rows or none; it fails when a row cannot be added. *)
Definition inserts : Prop := forall l s, l <> [] -> Forall plain l ->
  wp (exec (insert +:+ values row l)) s (fun o s' => (ok s -> ok s') /\
    match o with
    | Ret _ => addable l s /\ table s' = added l (table s)
    | Fail _ => ok s -> ~ addable l s
    | _ => False
    end).

Context (Hexec : inserts) (Hrow : forall x, row x <> "").

Lemma added_nil tb : added [] tb = tb.
Proof. unfold added. cbn. apply (left_id_L ∅ (∪)). Qed.

Lemma added_lookup l tb k :
  added l tb !! k = match (list_to_map ((fun x => (key x, row_of x)) <$> l) : gmap K R) !! k with Some r => Some r | None => tb !! k end.
Proof. unfold added. rewrite lookup_union. by destruct (_ !! k), (tb !! k). Qed.

Lemma added_None l tb k : added l tb !! k = None <-> k ∉ key <$> l /\ tb !! k = None.
Proof.
  assert (((fun x => (key x, row_of x)) <$> l).*1 = key <$> l) as E by (rewrite <-list_fmap_compose; done).
  rewrite added_lookup, <-E. destruct (_ !! k) as [r|] eqn:Ek.
  - split; [done|]. intros [Hn _]. destruct Hn. apply elem_of_list_to_map_2, (list_elem_of_fmap_2 fst) in Ek. done.
  - apply not_elem_of_list_to_map in Ek. naive_solver.
Qed.

Lemma addable_app l1 l2 s s1 :
  addable l1 s -> table s1 = added l1 (table s) -> (addable (l1 ++ l2) s <-> addable l2 s1).
Proof.
  intros [Hn1 Hf1] E. unfold addable. rewrite fmap_app, NoDup_app, Forall_app, E, !Forall_forall. setoid_rewrite added_None. split.
  - intros [(_ & Hd & Hn2) [_ Hf2]]. split; [done|]. intros x Hx. split; [|auto]. intros Hk.
    apply (Hd (key x) Hk). by apply list_elem_of_fmap_2.
  - intros [Hn2 Hf2]. rewrite Forall_forall in Hf1. split; [|split; [done|naive_solver]]. split; [done|]. split; [|done].
    intros k Hk (x & -> & Hx)%list_elem_of_fmap. by apply (Hf2 x Hx).
Qed.

Lemma added_app l1 l2 tb : NoDup (key <$> (l1 ++ l2)) -> added l2 (added l1 tb) = added (l1 ++ l2) tb.
Proof.
  intros Hn. unfold added. rewrite (assoc_L (∪)). f_equal. rewrite fmap_app, list_to_map_app. apply map_union_comm.
  rewrite fmap_app in Hn. apply NoDup_app in Hn as (_ & Hd & _).
  apply map_disjoint_spec. intros k r1 r2 E1 E2. apply elem_of_list_to_map_2 in E1, E2.
  apply list_elem_of_fmap in E1 as (x1 & [= -> ->] & H1), E2 as (x2 & [= E ->] & H2).
  apply (Hd (key x1)); [rewrite E|]; by apply list_elem_of_fmap_2.
Qed.

Lemma values_cons x l : l <> [] -> values row (x :: l) = row x +:+ ", " +:+ values row l.
Proof. by destruct l. Qed.

Lemma values_nonempty l : l <> [] -> values row l <> "".
Proof.
  destruct l as [|x l]; [done|]. intros _. specialize (Hrow x). destruct l as [|y l]; [done|].
  rewrite values_cons by done. by destruct (row x).
Qed.

Lemma add_row_values b x : add_row row (values row b) x = values row (b ++ [x]).
Proof.
  unfold add_row. destruct (decide (b = [])) as [->|Hb]; [done|].
  rewrite (proj2 (String.eqb_neq _ _)) by (by apply values_nonempty).
  induction b as [|y b IH]; [done|]. destruct (decide (b = [])) as [->|Hb']; [apply str_app_assoc|].
  rewrite <-app_comm_cons, !values_cons by (done || by destruct b). by rewrite <-IH, !str_app_assoc by done.
Qed.

Definition finish (v : string) : GoM T unit := if (0 <? String.length v)%nat then exec (insert +:+ v) else ret tt.

(** The rows of [b] are in the text, those of [l] are to come. *)
Lemma save_rows_spec l index b s :
  Forall plain (b ++ l) ->
  wp (v <- save_rows exec row insert index (values row b) l ;; finish v) s (fun o s' => (ok s -> ok s') /\
    match o with
    | Ret _ => addable (b ++ l) s /\ table s' = added (b ++ l) (table s)
    | Fail _ => ok s -> ~ addable (b ++ l) s
    | _ => False
    end).
Proof.
  revert index b s. induction l as [|x l IH]; intros index b s Hp.
  - rewrite app_nil_r in *. cbn [save_rows]. apply wp_bind, wp_ret. unfold finish.
    destruct (decide (b = [])) as [->|Hb].
    + apply wp_ret. split; [done|]. split; [|by rewrite added_nil]. split; [apply NoDup_nil_2|done].
    + pose proof (values_nonempty b Hb). destruct (values row b) as [|c v] eqn:E; [done|]. cbn [String.length Nat.ltb Nat.leb].
      rewrite <-E. by apply Hexec.
  - cbn [save_rows]. rewrite add_row_values.
    replace (b ++ x :: l) with ((b ++ [x]) ++ l) in * by (by rewrite <-app_assoc).
    destruct (_ && _); [|by apply IH].
    apply wp_bind_assoc, wp_bind. pose proof Hp as [Hp1 Hp2]%Forall_app.
    eapply wp_mono; [apply Hexec; [by destruct b|done]|]. intros [u|e| |] s1 [Hok1 Ho1]; [|split; [done|]|done..].
    + destruct Ho1 as [Ha1 Ht1]. eapply wp_mono; [apply (IH _ [])|].
      { done. }
      cbn [app]. intros o s2 [Hok2 Ho2]. split; [auto|]. pose proof (addable_app _ l _ _ Ha1 Ht1) as Happ.
      destruct o as [v|e| |]; [|naive_solver|done..]. destruct Ho2 as [Ha2 Ht2]. split; [by apply Happ|].
      rewrite Ht2, Ht1. apply added_app. apply Happ in Ha2 as [Hn _]. done.
    + intros Hs [Hn Hf]. apply (Ho1 Hs). rewrite fmap_app in Hn. apply NoDup_app in Hn as [Hn _].
      apply Forall_app in Hf as [Hf _]. by split.
Qed.

(** Saving rows that are no texts with quotes. *)
Lemma save_all_spec l s :
  Forall plain l ->
  wp (save exec row insert l) s (fun o s' => (ok s -> ok s') /\
    match o with
    | Ret _ => addable l s /\ table s' = added l (table s)
    | Fail _ => ok s -> ~ addable l s
    | _ => False
    end).
Proof.
  intros Hp. unfold save. destruct l as [|x l]; [|by apply (save_rows_spec (x :: l) 0 [])].
  apply wp_ret. split; [done|]. split; [|by rewrite added_nil]. split; [apply NoDup_nil_2|done].
Qed.
End Save.

(** ** Reading the pages *)
Section Scan.
Context {T A : Type} (page : Z -> Z -> GoM T (list A * Z)) (known : A -> GoM T Z) (wanted : A -> bool).
Context (all : list A) (has : A -> bool) (inv : T -> Prop) (ok : Prop).

Definition lists : Prop := forall offset limit s, inv s ->
  wp (page offset limit) s (fun o s' => inv s' /\
    match o with
    | Ret r => r = (take (Z.to_nat limit) (drop (Z.to_nat offset) all), Z.of_nat (length all))
    | Fail _ => ~ ok
    | _ => False
    end).
Definition counts : Prop := forall x s, inv s ->
  wp (known x) s (fun o s' => inv s' /\
    match o with Ret n => (0 <? n) = has x | Fail _ => ~ ok | _ => False end).

Context (Hpage : lists) (Hknown : counts).

Definition picked (l : list A) : list A := List.filter (fun x => negb (has x) && wanted x) l.

Lemma collect_spec l found s :
  inv s -> wp (fold_m (collect known wanted) found l) s (fun o s' => inv s' /\
    match o with Ret r => r = found ++ picked l | Fail _ => ~ ok | _ => False end).
Proof.
  revert found s. induction l as [|x l IH]; intros found s Hs; cbn [fold_m].
  - apply wp_ret. by rewrite app_nil_r.
  - apply wp_bind. unfold collect at 1. apply wp_bind. eapply wp_mono; [by apply Hknown|].
    intros [n|e| |] s1 [Hs1 Hn]; [|done..]. apply wp_ret. rewrite Hn.
    eapply wp_mono; [by apply IH|]. intros o s2 [Hs2 Ho]. split; [done|]. destruct o as [r|e| |]; [|done..].
    subst r. unfold picked. cbn [List.filter]. destruct (has x); [done|]. destruct (wanted x); [|done]. by rewrite <-app_assoc.
Qed.

(** The pages that are read: they start one element after the other, not one page. *)
Definition pages_from (limit : nat) (i : nat) : list A :=
  concat ((fun j => take limit (drop j all)) <$> seq i (S (length all / limit) - i)).

Lemma scan_spec fuel limit i found s :
  (0 < limit)%nat -> Z.of_nat (length all) + Z.of_nat limit < two64 ->
  (i <= S (length all / limit))%nat -> (S (length all / limit) - i < fuel)%nat -> inv s ->
  wp (scan page known wanted fuel (Z.of_nat i) (Z.of_nat limit) found) s (fun o s' => inv s' /\
    match o with Ret r => r = found ++ picked (pages_from limit i) | Fail _ => ~ ok | _ => False end).
Proof.
  revert i found s. induction fuel as [|fuel IH]; intros i found s Hl Hb Hi Hf Hs; [lia|].
  pose proof (Nat.div_mod_eq (length all) limit). pose proof (Nat.mod_upper_bound (length all) limit).
  assert (i * limit <= length all + limit)%nat as Hil by nia.
  cbn [scan]. apply wp_bind. eapply wp_mono; [by apply Hpage|]. intros [r|e| |] s1 [Hs1 Hr]; [|done..]. subst r. cbn [fst snd].
  rewrite wrap_u64_small by (unfold is_u64; nia). rewrite !Nat2Z.id.
  destruct (Z.leb_spec (Z.of_nat i * Z.of_nat limit) (Z.of_nat (length all))) as [Hle|Hgt].
  - assert (i <= length all / limit)%nat as Hile by (apply Nat.div_le_lower_bound; nia).
    apply wp_bind. eapply wp_mono; [by apply collect_spec|]. intros [found'|e| |] s2 [Hs2 Hr]; [|done..]. subst found'.
    rewrite wrap_u64_small by (unfold is_u64; nia).
    replace (Z.of_nat i + 1) with (Z.of_nat (S i)) by lia.
    eapply wp_mono; [apply IH; (done || lia)|]. intros o s3 [Hs3 Ho]. split; [done|]. destruct o as [r|e| |]; [|done..]. subst r.
    unfold pages_from. replace (S (length all / limit) - i)%nat with (S (S (length all / limit) - S i)) by lia.
    cbn [seq fmap list_fmap concat]. unfold picked. by rewrite List.filter_app, app_assoc.
  - apply wp_ret. split; [done|]. assert (length all / limit < i)%nat by (apply Nat.div_lt_upper_bound; nia).
    unfold pages_from. replace (S (length all / limit) - i)%nat with 0%nat by lia. cbn. by rewrite app_nil_r.
Qed.
End Scan.

(** ** A job: the rows that it collects, and what it does with them *)
Section Job.
Context {T A K R : Type} `{Countable K}.
Context (table : T -> gmap K R) (ok : T -> Prop) (key : A -> K) (row_of : A -> R) (plain : A -> Prop).
Context (row : A -> string) (insert : string) (exec : string -> GoM T unit).
Context (page : Z -> Z -> GoM T (list A * Z)) (known : A -> GoM T Z) (wanted has : A -> bool) (all : list A).
Context (tb : gmap K R) (fine : Prop) (inv : T -> Prop).
Context (Hexec : inserts table ok key row_of row insert exec plain) (Hrow : forall x, row x <> "").
Context (Hpage : lists page all inv fine) (Hknown : counts known has inv fine).
Context (Htable : forall s, inv s -> table s = tb) (Hok : forall s, inv s -> fine -> ok s).

(** Every key once, and none in the table. *)
Definition enterable (l : list A) : Prop := NoDup (key <$> l) /\ Forall (fun x => tb !! key x = None) l.

(** The rows that the job collects. *)
Definition job_rows : list A := picked wanted has (pages_from all 100 0).

Lemma picked_Forall (P : A -> Prop) l : Forall P l -> Forall P (picked wanted has l).
Proof. rewrite !Forall_forall. intros HP x [Hx _]%list_elem_of_In%List.filter_In. by apply HP, list_elem_of_In. Qed.

Lemma pages_from_Forall (P : A -> Prop) limit i : Forall P all -> Forall P (pages_from all limit i).
Proof.
  intros HP. unfold pages_from. apply Forall_concat, Forall_fmap, Forall_forall. intros j _. cbn. by apply Forall_take, Forall_drop.
Qed.

Lemma job_spec fuel s :
  Forall plain all -> Z.of_nat (length all) + 100 < two64 -> (S (length all / 100) < fuel)%nat -> inv s ->
  wp (l <- scan page known wanted fuel 0 100 [] ;; save exec row insert l) s (fun o s' => (fine -> ok s') /\
    match o with
    | Ret _ => enterable job_rows /\ table s' = added key row_of job_rows tb
    | Fail _ => fine -> ~ enterable job_rows
    | _ => False
    end).
Proof.
  intros Hp Hb Hf Hs. apply wp_bind. eapply wp_mono; [apply (scan_spec page known wanted all has inv fine Hpage Hknown fuel 100 0 []); (done || lia)|].
  intros [l|e| |] s1 [Hs1 Hl]; [|split; [auto|done]|done..]. cbn [app] in Hl. fold job_rows in Hl. subst l.
  eapply wp_mono; [eapply (save_all_spec table ok key row_of row insert exec plain Hexec Hrow)|].
  { by apply picked_Forall, pages_from_Forall. }
  intros o s2 [Hk Ho]. split; [auto|]. unfold addable in Ho. rewrite (Htable s1 Hs1) in Ho.
  destruct o as [u|e| |]; [|intros Hfine; apply Ho, (Hok s1 Hs1 Hfine)|done..]. done.
Qed.
End Job.

(** Fewer elements than a page has: they are read once. *)
Lemma pages_small {A} (all : list A) : (length all < 100)%nat -> pages_from all 100 0 = all.
Proof.
  intros Hl. unfold pages_from. rewrite Nat.div_small by done. change (1 - 0)%nat with 1%nat. cbn [seq fmap list_fmap concat]. rewrite app_nil_r, drop_0. apply take_ge. lia.
Qed.

(** At least as many as a page has: those after the first, up to the hundredth, are
    read twice. *)
Lemma picked_twice {A K} (key : A -> K) wanted has (all : list A) i x :
  (100 <= length all)%nat -> (1 <= i < 100)%nat -> all !! i = Some x -> has x = false -> wanted x = true ->
  ~ NoDup (key <$> picked wanted has (pages_from all 100 0)).
Proof.
  intros Hl Hi Hx Hh Hw Hn. unfold pages_from in Hn.
  assert (exists n, S (length all / 100) - 0 = S (S n))%nat as [n En].
  { assert (1 <= length all / 100)%nat by (apply Nat.div_le_lower_bound; lia). exists (length all / 100 - 1)%nat. lia. }
  rewrite En in Hn. cbn [seq fmap list_fmap concat] in Hn. unfold picked in Hn. rewrite !List.filter_app, !fmap_app in Hn.
  assert (forall l, x ∈ l -> key x ∈ key <$> List.filter (fun x => negb (has x) && wanted x) l) as Hin.
  { intros l Hxl. apply list_elem_of_fmap_2, list_elem_of_In, List.filter_In. split; [by apply list_elem_of_In|]. by rewrite Hh, Hw. }
  apply NoDup_app in Hn as (_ & Hd & _). eapply (Hd (key x)).
  - apply Hin, (list_elem_of_lookup_2 _ i). rewrite drop_0, lookup_take_lt by lia. exact Hx.
  - rewrite elem_of_app. left. apply Hin, (list_elem_of_lookup_2 _ (i - 1)).
    rewrite lookup_take_lt, lookup_drop by lia. by replace (1 + (i - 1))%nat with i by lia.
Qed.

(** What a job enters, as a map: the wanted elements that the table does not have. *)
Section Entered.
Context {A K R : Type} `{Countable K} (key : A -> K) (row_of : A -> R) (wanted has : A -> bool) (tb : gmap K R).
Context (Hhas : forall x, has x = bool_decide (is_Some (tb !! key x))).

Definition entries_of (l : list A) : gmap K R := list_to_map ((fun x => (key x, row_of x)) <$> l).

Lemma picked_lookup l k :
  tb !! k = None -> entries_of (picked wanted has l) !! k = entries_of (List.filter wanted l) !! k.
Proof.
  intros Hk. unfold picked, entries_of. induction l as [|x l IH]; [done|]. cbn [List.filter].
  destruct (wanted x); rewrite ?andb_true_r, ?andb_false_r; [|done].
  destruct (has x) eqn:E; cbn [negb andb fmap list_fmap list_to_map foldr].
  - rewrite IH. rewrite lookup_insert_ne; [done|]. intros <-. rewrite Hhas in E. apply bool_decide_eq_true in E.
    cbn in Hk. rewrite Hk in E. by destruct E.
  - cbn. destruct (decide (key x = k)) as [->|Hne]; [by rewrite !lookup_insert_eq|by rewrite !lookup_insert_ne].
Qed.

Lemma picked_fresh l : Forall (fun x => tb !! key x = None) (picked wanted has l).
Proof.
  apply Forall_forall. intros x [_ Hx]%list_elem_of_In%List.filter_In. apply andb_prop in Hx as [Hx _].
  rewrite Hhas in Hx. apply eq_None_not_Some. by case_bool_decide.
Qed.

Lemma added_picked l : added key row_of (picked wanted has l) tb = tb ∪ entries_of (List.filter wanted l).
Proof.
  apply map_eq. intros k. unfold added. fold (entries_of (picked wanted has l)). rewrite !lookup_union.
  destruct (tb !! k) as [r|] eqn:E.
  - assert (entries_of (picked wanted has l) !! k = None) as ->; [|by destruct (entries_of (List.filter wanted l) !! k)].
    apply not_elem_of_list_to_map. intros Hin. rewrite <-list_fmap_compose in Hin. apply list_elem_of_fmap in Hin as (x & -> & Hx).
    pose proof (picked_fresh l) as Hfr. rewrite Forall_forall in Hfr. specialize (Hfr x Hx). cbn in E. congruence.
  - rewrite picked_lookup by done. by destruct (_ !! k).
Qed.

Lemma picked_NoDup l : NoDup (key <$> l) -> NoDup (key <$> picked wanted has l).
Proof.
  unfold picked. induction l as [|x l IH]; [done|]. cbn [fmap list_fmap List.filter]. intros [Hx Hn]%NoDup_cons.
  destruct (_ && _); cbn; [|by apply IH]. apply NoDup_cons. split; [|by apply IH].
  intros (y & Ey & [Hy _]%list_elem_of_In%List.filter_In)%list_elem_of_fmap. apply Hx. rewrite Ey.
  apply list_elem_of_fmap_2. by apply list_elem_of_In.
Qed.
End Entered.

(** ** The tables and the lists of the chain *)
(** A row of the table METADATA: the values of its columns. *)
Definition MetaRow : Type := list SqlValue.
Record ShardRow := MkShardRow { sr_ORDERID : Z; sr_SP : string; sr_CID : string }.


(** *** The texts of statements *)
Definition sql_text (v : SqlValue) : string :=
  match v with VNull => "NULL" | VText s => quoted s | VInt n => format_d n end.
Definition row_text (vs : list SqlValue) : string := "(" +:+ String.concat ", " (sql_text <$> vs) +:+ ")".
Definition insert_stmt (table : string) (cols : list string) : string :=
  "INSERT INTO " +:+ table +:+ " (" +:+ String.concat ", " cols +:+ ") VALUES ".
Definition select_stmt (table : string) (cols : list string) : string :=
  "SELECT " +:+ String.concat ", " cols +:+ " FROM " +:+ table +:+ " ".

(** The value that a statement gives to a column; one that it does not name is null. *)
Fixpoint value_at (cols : list string) (vs : list SqlValue) (c : string) : SqlValue :=
  match cols, vs with
  | col :: cols, v :: vs => if String.eqb col c then v else value_at cols vs c
  | _, _ => VNull
  end.

(** The columns of METADATA, the row that a statement enters, and its primary key. *)
Definition METADATA_columns : list string :=
  ["COMMITID"; "DID"; "CID"; "DATAID"; "ALIAS"; "PLAT"; "VER"; "SIZE"; "EXPIRATION"; "READER"; "WRITER"].
Definition row_of_values (cols : list string) (vs : list SqlValue) : MetaRow := value_at cols vs <$> METADATA_columns.
Definition row_key (cols : list string) (vs : list SqlValue) : string :=
  match value_at cols vs "COMMITID" with VText s => s | _ => "" end.

(** The columns and the values of the statement of the job. *)
Definition metadata_cols : list string :=
  ["DID"; "DATAID"; "ALIAS"; "PLAT"; "COMMITID"; "VER"; "SIZE"; "EXPIRATION"; "READER"; "WRITER"].
Definition metadata_vals `{!IndexTexts} (m : Metadata) : list SqlValue :=
  [VText (md_Owner m); VText (md_DataId m); VText (md_Alias m); VText (md_GroupId m); VText (md_Commit m);
   VText ("v" +:+ format_d (Z.of_nat (length (md_Commits m)))); VInt (Metadata_Size m);
   VInt (wrap_u64 (md_CreatedAt m + md_Duration m)); VText (Sprint_strings (md_ReadonlyDids m));
   VText (Sprint_strings (md_ReadwriteDids m))].
Definition meta_row `{!IndexTexts} (m : Metadata) : MetaRow := row_of_values metadata_cols (metadata_vals m).

Lemma insert_metadata_text : insert_metadata = insert_stmt "METADATA" metadata_cols.
Proof. reflexivity. Qed.
Lemma metadata_row_text `{!IndexTexts} m : metadata_row m = row_text (metadata_vals m).
Proof.
  unfold metadata_row, row_text, metadata_vals. cbn [fmap list_fmap sql_text String.concat].
  repeat rewrite ?str_app_assoc, ?str_app_cons, ?str_app_nil. reflexivity.
Qed.
Lemma metadata_values_text `{!IndexTexts} l : values metadata_row l = values row_text (metadata_vals <$> l).
Proof.
  unfold values. f_equal. rewrite <-list_fmap_compose. apply list_fmap_ext. intros i m _. apply metadata_row_text.
Qed.

Definition table_row (shard : Shard) : ShardRow := MkShardRow (sh_OrderId shard) (sh_Sp shard) (sh_Cid shard).

(** Texts that do not end the quotes they are put into. *)
Definition unquoted (s : string) : Prop := free_of "034" s = true.
Definition meta_plain `{!IndexTexts} (m : Metadata) : Prop :=
  Forall unquoted [md_Owner m; md_DataId m; md_Alias m; md_GroupId m; md_Commit m;
                   Sprint_strings (md_ReadonlyDids m); Sprint_strings (md_ReadwriteDids m)].
Definition shard_plain (shard : Shard) : Prop :=
  unquoted (sh_Sp shard) /\ unquoted (sh_Cid shard) /\ is_u64 (sh_Id shard) /\ is_u64 (sh_OrderId shard).

(** A value whose text is the value. *)
Definition sql_plain (v : SqlValue) : Prop :=
  match v with VNull => True | VText s => unquoted s | VInt n => is_u64 n end.
(** The values of a row that a statement can enter: one for each column, and a key. *)
Definition row_plain (cols : list string) (vs : list SqlValue) : Prop :=
  length vs = length cols /\ Forall sql_plain vs /\ exists k, value_at cols vs "COMMITID" = VText k.

(** The database: a statement that inserts rows enters all of them or none, and
    refuses those whose primary key is there or comes twice; columns that it does not
    name are null; a database that is [db_ok] has no other errors.  Counts see the
    table.  The encoding of a model has a size. *)
Class SqlLaws (D : Type) `{!IndexTexts, !SqlDb D} := {
  db_ok : D -> Prop;
  meta_table : D -> gmap string MetaRow;
  shard_table : D -> gmap Z ShardRow;
  Size_u64 m : is_u64 (Metadata_Size m);
  Exec_metadata cols rows d r d' : rows <> [] -> cols ⊆ METADATA_columns -> Forall (row_plain cols) rows ->
    db_Exec (insert_stmt "METADATA" cols +:+ values row_text rows) d = (r, d') -> (db_ok d -> db_ok d') /\
    match r with
    | inl _ => addable meta_table (row_key cols) rows d /\
        meta_table d' = added (row_key cols) (row_of_values cols) rows (meta_table d)
    | inr _ => db_ok d -> ~ addable meta_table (row_key cols) rows d
    end;
  Exec_shards l d r d' : l <> [] -> Forall shard_plain l ->
    db_Exec (insert_shard +:+ values shard_row l) d = (r, d') -> (db_ok d -> db_ok d') /\
    match r with
    | inl _ => addable shard_table sh_Id l d /\ shard_table d' = added sh_Id table_row l (shard_table d)
    | inr _ => db_ok d -> ~ addable shard_table sh_Id l d
    end;
  Count_metadata c d r d' :
    db_QueryCount "SELECT COUNT(*) FROM METADATA WHERE COMMITID=?" [ArgText c] d = (r, d') ->
    meta_table d' = meta_table d /\ (db_ok d -> db_ok d') /\
    match r with inl n => (0 <? n) = bool_decide (is_Some (meta_table d !! c)) | inr _ => ~ db_ok d end;
  Count_shards o i d r d' :
    db_QueryCount "SELECT COUNT(*) FROM SP_SHARD WHERE ORDERID=? AND SHARDID=?" [ArgInt o; ArgInt i] d = (r, d') ->
    shard_table d' = shard_table d /\ (db_ok d -> db_ok d') /\
    match r with
    | inl n => (0 <? n) = match shard_table d !! i with Some row => sr_ORDERID row =? o | None => false end
    | inr _ => ~ db_ok d
    end
}.

(** What the statement of the job does. *)
Lemma addable_models `{!IndexTexts} {T} (table : T -> gmap string MetaRow) l s :
  addable table (row_key metadata_cols) (metadata_vals <$> l) s <-> addable table md_Commit l s.
Proof. unfold addable. by rewrite <-list_fmap_compose, Forall_fmap. Qed.
Lemma added_models `{!IndexTexts} l tb :
  added (row_key metadata_cols) (row_of_values metadata_cols) (metadata_vals <$> l) tb = added md_Commit meta_row l tb.
Proof. unfold added. by rewrite <-list_fmap_compose. Qed.

Lemma row_plain_model `{!IndexTexts, !SqlDb D, !SqlLaws D} m : meta_plain m -> row_plain metadata_cols (metadata_vals m).
Proof.
  unfold meta_plain. rewrite !Forall_cons. intros (? & ? & ? & ? & ? & ? & ? & _). split; [done|]. split; [|by eexists].
  unfold metadata_vals. rewrite !Forall_cons. cbn [sql_plain]. split_and!; try done.
  - unfold unquoted. rewrite str_app_cons. unfold free_of. cbn [all_chars]. rewrite str_app_nil.
    apply (free_of_format_d "034"); [lia|done].
  - apply Size_u64.
  - apply wrap_u64_range.
Qed.

Lemma Exec_models `{!IndexTexts, !SqlDb D, !SqlLaws D} l (d : D) r d' :
  l <> [] -> Forall meta_plain l -> db_Exec (insert_metadata +:+ values metadata_row l) d = (r, d') ->
  (db_ok d -> db_ok d') /\
  match r with
  | inl _ => addable meta_table md_Commit l d /\ meta_table d' = added md_Commit meta_row l (meta_table d)
  | inr _ => db_ok d -> ~ addable meta_table md_Commit l d
  end.
Proof.
  intros Hl Hp E. rewrite insert_metadata_text, metadata_values_text in E. apply Exec_metadata in E as [Hok Hr].
  - split; [done|]. destruct r; rewrite addable_models in Hr; [by rewrite <-added_models|done].
  - by destruct l.
  - apply (bool_decide_unpack _). vm_compute. exact I.
  - apply Forall_fmap. eapply Forall_impl; [exact Hp|]. intros m. apply row_plain_model.
Qed.

(** The chain: the part of a list that a query asks for, with the length of the list;
    a chain that is up answers. *)
Class ListLaws (C : Type) `{!SaoTypes, !CosmosLib C} := {
  chain_up : C -> Prop;
  listed_meta : C -> list Metadata;
  listed_shards : C -> list Shard;
  MetadataAll_list offset limit c r c' : q_MetadataAll offset limit c = (r, c') ->
    listed_meta c' = listed_meta c /\ (chain_up c -> chain_up c') /\
    match r with
    | inl p => p = (take (Z.to_nat limit) (drop (Z.to_nat offset) (listed_meta c)), Z.of_nat (length (listed_meta c)))
    | inr _ => ~ chain_up c
    end;
  ShardAll_list offset limit c r c' : q_ShardAll offset limit c = (r, c') ->
    listed_shards c' = listed_shards c /\ (chain_up c -> chain_up c') /\
    match r with
    | inl p => p = (take (Z.to_nat limit) (drop (Z.to_nat offset) (listed_shards c)), Z.of_nat (length (listed_shards c)))
    | inr _ => ~ chain_up c
    end
}.

(** ** The two jobs *)
Section Index.
Context `{!ErrorText, !IndexTexts} {C D : Type} `{!SaoTypes, !CosmosLib C, !ListLaws C, !SqlDb D, !SqlLaws D}.
Abbreviation state := (ch (C := C) * D)%type.
Implicit Types (s : state).

Definition works s : Prop := chain_up (ch_c s.1) /\ db_ok s.2.

(** Nothing that matters to a job changes while it reads. *)
Definition reading {L R} (list_of : C -> list L) (table : D -> R) s0 s : Prop :=
  list_of (ch_c s.1) = list_of (ch_c s0.1) /\ table s.2 = table s0.2 /\ (works s0 -> works s).

Lemma on_db_wp {A} (m : call D A) s (Q : outcome A -> state -> Prop) :
  (forall r d, m s.2 = (r, d) -> Q (match r with inl a => Ret a | inr e => Fail e end) (s.1, d)) -> wp (on_db m) s Q.
Proof. intros HQ. unfold on_db. apply wp_zoom, wp_call; intros r d E; by apply (HQ _ d) in E. Qed.

Lemma on_chain_wp {A} (e : regerr) (m : call C A) s (Q : outcome A -> state -> Prop) :
  (forall r c, m (ch_c s.1) = (r, c) ->
     Q (match r with inl a => Ret a | inr err => Fail (Wrap e (Some err)) end) (Ch c (ch_ap s.1) (ch_chans s.1), s.2)) ->
  wp (on_chain (wrapping e (on_c (invoke m)))) s Q.
Proof.
  intros HQ. unfold on_chain, wrapping, on_c. apply wp_zoom, wp_or_else, wp_zoom, wp_call; intros r c E; apply (HQ _ c) in E; exact E.
Qed.

(** *** Models *)
Section Metadata.
Context (platFormIds : string) (c : ch (C := C)) (d : D).
Let all : list Metadata := listed_meta (ch_c c).
Let has (m : Metadata) : bool := bool_decide (is_Some (meta_table d !! md_Commit m)).
Let wanted (m : Metadata) : bool := Contains platFormIds (md_GroupId m).

(** The models that the job collects. *)
Definition collected_meta : list Metadata := picked wanted has (pages_from all 100 0).

(** The job over the models, whatever their number: the rows that it collects are
    entered, all of them, when each has a commit of its own; else it fails; and it
    fails in no other case when the chain and the database work. *)
Lemma metadata_index_outcome fuel :
  Forall meta_plain all -> Z.of_nat (length all) + 100 < two64 -> (S (length all / 100) < fuel)%nat ->
  wp (metadata_index fuel platFormIds) (c, d) (fun o s' => (works (c, d) -> db_ok s'.2) /\
    match o with
    | Ret _ => enterable md_Commit (meta_table d) collected_meta /\
        meta_table s'.2 = added md_Commit meta_row collected_meta (meta_table d)
    | Fail _ => works (c, d) -> ~ enterable md_Commit (meta_table d) collected_meta
    | _ => False
    end).
Proof.
  intros Hp Hb Hf.
  apply (job_spec (fun s => meta_table s.2) (fun s => db_ok s.2) md_Commit meta_row meta_plain metadata_row insert_metadata
    (fun stmt => on_db (db_Exec stmt)) (fun offset limit => on_chain (ListMeta offset limit)) metadata_known wanted has all
    (meta_table d) (works (c, d)) (reading listed_meta meta_table (c, d))); try done.
  - intros l s Hl Hpl. apply on_db_wp. intros r d' E. destruct (Exec_models _ _ _ _ Hl Hpl E) as [Hok Hr].
    split; [done|]. by destruct r.
  - intros offset limit s (Hl & Ht & Hw). unfold ListMeta. apply on_chain_wp. intros r c' E.
    destruct (MetadataAll_list _ _ _ _ _ E) as (Hl' & Hup & Hr). split.
    + split; [by rewrite <-Hl|]. split; [done|]. intros [? ?]%Hw. split; [by apply Hup|done].
    + unfold all. cbn in Hl. rewrite <-Hl. destruct r as [p|e]; [done|]. by intros [? _]%Hw.
  - intros m s (Hl & Ht & Hw). unfold metadata_known. apply on_db_wp. intros r d' E.
    destruct (Count_metadata _ _ _ _ E) as (Ht' & Hok & Hr). split.
    + split; [done|]. split; [by rewrite <-Ht|]. intros [? ?]%Hw. split; [done|by apply Hok].
    + cbn in Ht. unfold has. rewrite <-Ht. destruct r as [n|e]; [done|]. by intros [_ ?]%Hw.
  - by intros s (_ & Ht & _).
  - by intros s (_ & _ & Hw) [_ Hok]%Hw.
Qed.

(** C34: a chain with fewer than 100 models, no two with the same commit: the job
    returns, and the table has gained exactly the models of the platforms that it did
    not have, with their rows. *)
Theorem small_index fuel :
  Forall meta_plain all -> (length all < 100)%nat -> NoDup (md_Commit <$> all) -> works (c, d) -> (1 < fuel)%nat ->
  exists s', metadata_index fuel platFormIds (c, d) = (Ret tt, s') /\
    meta_table s'.2 = meta_table d ∪ entries_of md_Commit meta_row (List.filter wanted all).
Proof.
  intros Hp Hl Hn Hw Hf.
  assert (enterable md_Commit (meta_table d) collected_meta) as He.
  { unfold collected_meta. rewrite pages_small by done. split; [by apply picked_NoDup|by apply picked_fresh]. }
  pose proof (metadata_index_outcome fuel Hp) as Ho. rewrite (Nat.div_small (length all) 100) in Ho by done.
  specialize (Ho ltac:(unfold two64; lia) ltac:(lia)). destruct Ho as [_ Ho].
  destruct (metadata_index fuel platFormIds (c, d)) as [[[]|e| |] s']; cbn [fst snd] in Ho; [|by destruct (Ho Hw)|done..].
  exists s'. split; [done|]. destruct Ho as [_ ->]. unfold collected_meta. rewrite pages_small by done. by apply added_picked.
Qed.

(** On a chain with 100 models or more the pages overlap: if one of the models
    after the first, up to the hundredth, is wanted and not yet in the table, the job
    fails, however often it is tried. *)
Theorem large_index_fails fuel i m :
  Forall meta_plain all -> Z.of_nat (length all) + 100 < two64 -> (S (length all / 100) < fuel)%nat ->
  (100 <= length all)%nat -> (1 <= i < 100)%nat -> all !! i = Some m ->
  meta_table d !! md_Commit m = None -> wanted m = true ->
  exists e s', metadata_index fuel platFormIds (c, d) = (Fail e, s').
Proof.
  intros Hp Hb Hf Hl Hi Hm Hnone Hwm. pose proof (metadata_index_outcome fuel Hp Hb Hf) as [_ Ho].
  destruct (metadata_index fuel platFormIds (c, d)) as [[[]|e| |] s']; cbn [fst snd] in Ho; [|by eexists _, _|done..].
  destruct Ho as [[Hn _] _]. exfalso. eapply (picked_twice md_Commit wanted has all i m); [done..| |done|exact Hn].
  unfold has. by rewrite Hnone, bool_decide_false by (by intros [? ?]).
Qed.
End Metadata.

(** *** Shards *)
Section Shards.
Context (providers : string) (c : ch (C := C)) (d : D).
Let all : list Shard := listed_shards (ch_c c).
Let has (x : Shard) : bool :=
  match shard_table d !! sh_Id x with Some row => sr_ORDERID row =? sh_OrderId x | None => false end.
Let wanted (x : Shard) : bool := Contains providers (sh_Sp x).

Lemma sp_shard_index_outcome fuel :
  Forall shard_plain all -> Z.of_nat (length all) + 100 < two64 -> (S (length all / 100) < fuel)%nat ->
  let rows := picked wanted has (pages_from all 100 0) in
  wp (sp_shard_index fuel providers) (c, d) (fun o s' => (works (c, d) -> db_ok s'.2) /\
    match o with
    | Ret _ => enterable sh_Id (shard_table d) rows /\ shard_table s'.2 = added sh_Id table_row rows (shard_table d)
    | Fail _ => works (c, d) -> ~ enterable sh_Id (shard_table d) rows
    | _ => False
    end).
Proof.
  intros Hp Hb Hf rows.
  apply (job_spec (fun s => shard_table s.2) (fun s => db_ok s.2) sh_Id table_row shard_plain shard_row insert_shard
    (fun stmt => on_db (db_Exec stmt)) (fun offset limit => on_chain (ListShards offset limit)) shard_known wanted has all
    (shard_table d) (works (c, d)) (reading listed_shards shard_table (c, d))); try done.
  - intros l s Hl Hpl. apply on_db_wp. intros r d' E. destruct (Exec_shards _ _ _ _ Hl Hpl E) as [Hok Hr].
    split; [done|]. by destruct r.
  - intros offset limit s (Hl & Ht & Hw). unfold ListShards. apply on_chain_wp. intros r c' E.
    destruct (ShardAll_list _ _ _ _ _ E) as (Hl' & Hup & Hr). split.
    + split; [by rewrite <-Hl|]. split; [done|]. intros [? ?]%Hw. split; [by apply Hup|done].
    + unfold all. cbn in Hl. rewrite <-Hl. destruct r as [p|e]; [done|]. by intros [? _]%Hw.
  - intros m s (Hl & Ht & Hw). unfold shard_known. apply on_db_wp. intros r d' E.
    destruct (Count_shards _ _ _ _ _ E) as (Ht' & Hok & Hr). split.
    + split; [done|]. split; [by rewrite <-Ht|]. intros [? ?]%Hw. split; [done|by apply Hok].
    + cbn in Ht. unfold has. rewrite <-Ht. destruct r as [n|e]; [done|]. by intros [_ ?]%Hw.
  - by intros s (_ & Ht & _).
  - by intros s (_ & _ & Hw) [_ Hok]%Hw.
Qed.

(** The same for shards, when the shards of the chain that the table has are
    there with their orders: fewer than 100 shards are indexed exactly, and on a larger
    chain a wanted shard among the first makes the job fail. *)
Theorem shards_indexed fuel :
  Forall shard_plain all -> Z.of_nat (length all) + 100 < two64 -> (S (length all / 100) < fuel)%nat ->
  NoDup (sh_Id <$> all) -> works (c, d) ->
  (forall x row, x ∈ all -> shard_table d !! sh_Id x = Some row -> sr_ORDERID row = sh_OrderId x) ->
  ((length all < 100)%nat -> exists s', sp_shard_index fuel providers (c, d) = (Ret tt, s') /\
     shard_table s'.2 = shard_table d ∪ entries_of sh_Id table_row (List.filter wanted all) /\ db_ok s'.2) /\
  ((100 <= length all)%nat -> forall i x, (1 <= i < 100)%nat -> all !! i = Some x ->
     shard_table d !! sh_Id x = None -> wanted x = true ->
     exists e s', sp_shard_index fuel providers (c, d) = (Fail e, s')).
Proof.
  intros Hp Hb Hf Hn Hw Hagree. pose proof (sp_shard_index_outcome fuel Hp Hb Hf) as [Hok Ho].
  set (there := fun x => bool_decide (is_Some (shard_table d !! sh_Id x))).
  assert (forall l, (forall x, x ∈ l -> x ∈ all) -> picked wanted has l = picked wanted there l) as Hpick.
  { intros l Hl. unfold picked. apply List.filter_ext_in. intros x Hx%list_elem_of_In%Hl. f_equal. f_equal.
    unfold has, there. destruct (shard_table d !! sh_Id x) as [row|] eqn:E; [|by rewrite bool_decide_false by (by intros [? ?])].
    rewrite (Hagree x row Hx E), Z.eqb_refl, bool_decide_true; [done|eauto]. }
  split.
  - intros Hl. rewrite pages_small in Ho by done. rewrite (Hpick all) in Ho by done.
    assert (enterable sh_Id (shard_table d) (picked wanted there all)) as He
      by (split; [by apply picked_NoDup|by apply picked_fresh]).
    destruct (sp_shard_index fuel providers (c, d)) as [[[]|e| |] s']; cbn [fst snd] in Ho; [|by destruct (Ho Hw)|done..].
    exists s'. split; [done|]. split; [|by apply Hok]. destruct Ho as [_ ->]. by apply added_picked.
  - intros Hl i x Hi Hx Hnone Hwx.
    destruct (sp_shard_index fuel providers (c, d)) as [[[]|e| |] s']; cbn [fst snd] in Ho; [|by eexists _, _|done..].
    destruct Ho as [[Hnd _] _]. exfalso. eapply (picked_twice sh_Id wanted has all i x); [done..| |done|exact Hnd].
    unfold has. by rewrite Hnone.
Qed.
End Shards.
End Index.

(** ** The index service *)
Section Service.
Context `{!ErrorText, !IndexTexts} {C D T : Type} `{!SaoTypes, !CosmosLib C, !SqlDb D, !Datastore T, !PendingJson}.
Abbreviation service := (ixs (C := C) (D := D) (T := T)).
Implicit Types (s : service).

Lemma job_at_run a j s : is_jobs s !! a = Some j -> job_at (Some a) s = (Ret (a, j), s).
Proof. intros Hj. unfold job_at, bind. cbn. by rewrite Hj. Qed.

(** The state after the function of the job [a] has run. *)
Definition after_job s cd (a : nat) (j : Job) (q : list request_ptr) : service :=
  Ixs cd (<[a := j]> (is_jobs s)) (is_fresh s) (JobsMap s) q (is_var s) (is_jobDs s).

(** A turn of a worker on a job: its function runs once; a job whose function returns
    is done and leaves the queue, with the error of an earlier try; a job whose
    function fails goes to the end of the queue and is pending again, with the
    error.  A function that panics ends the process. *)
Theorem turn_outcome fuel s p q r a j f :
  is_queue s = p :: q -> (p = Own r \/ p = LoopVar /\ is_var s = r) ->
  wr_Job r = Some a -> is_jobs s !! a = Some j -> jb_ID j <> "" -> jb_ExecFunc j = Some f ->
  run_sched fuel s =
    match run_func fuel f (is_cd s) with
    | (Ret _, cd) => (Ret tt, after_job s cd a (with_status JobStatusSuccessed (jb_Error j) j) q)
    | (Fail e, cd) => (Ret tt, after_job s cd a (with_status JobStatusPending (Some e) j) (q ++ [p]))
    | (Panic, cd) => (Panic, after_job s cd a (with_status JobStatusRuning (jb_Error j) j) q)
    | (OutOfFuel, cd) => (OutOfFuel, after_job s cd a (with_status JobStatusRuning (jb_Error j) j) q)
    end.
Proof.
  intros Hq Hp Ha Hj Hid Hf. unfold run_sched, bind at 1, on_sched, zoom. rewrite Hq. cbn [PopFront].
  set (s1 := Ixs _ _ _ _ q _ _).
  assert (request_of p s1 = (Ret r, s1)) as Hreq by (destruct Hp as [->|[-> <-]]; done).
  unfold bind at 1. rewrite Hreq. unfold bind at 1. rewrite Ha, (job_at_run a j s1) by done. cbn [fst snd].
  rewrite (proj2 (String.eqb_neq _ _) Hid). unfold bind at 1, excute. unfold bind at 1. cbn [set_jobs modify].
  unfold bind at 1. rewrite Hf. cbn [deref]. unfold bind at 1, attempt, on_cd, zoom. cbn [is_cd s1].
  destruct (run_func fuel f (is_cd s)) as [[[]|e| |] cd] eqn:Er;
    unfold bind, after_job, set_jobs, on_sched, zoom, modify, Push, ret; subst s1;
    cbn [fst snd is_cd is_jobs is_fresh JobsMap is_queue is_var is_jobDs];
    rewrite Er; cbn [fst snd is_cd is_jobs is_fresh JobsMap is_queue is_var is_jobDs]; do 2 f_equal;
    (apply map_eq; intros b; destruct (decide (b = a)) as [->|Hne];
     [rewrite ?lookup_alter_eq; cbn [is_jobs]; by rewrite ?lookup_alter_eq, lookup_insert_eq, Hj
     |rewrite ?lookup_alter_ne by done; cbn [is_jobs]; by rewrite ?lookup_alter_ne, lookup_insert_ne by done]).
Qed.

(** *** Pending jobs *)
Lemma push_loop_vars (l : list WorkRequest) s :
  exists s', for_each l (fun job => set_var job ;; on_sched (Push LoopVar)) s = (Ret tt, s') /\
    is_queue s' = is_queue s ++ replicate (length l) LoopVar /\ is_jobs s' = is_jobs s /\ is_var s' = foldl (fun _ r => r) (is_var s) l.
Proof.
  revert s. induction l as [|r l IH]; intros s.
  - exists s. split; [done|]. by rewrite app_nil_r.
  - cbn [for_each]. unfold bind at 1. unfold bind at 1. cbn [set_var modify on_sched zoom Push].
    destruct (IH (Ixs (is_cd s) (is_jobs s) (is_fresh s) (JobsMap s) (is_queue s ++ [LoopVar]) r (is_jobDs s)))
      as (s' & Hrun & Hq & Hj & Hv).
    exists s'. split; [exact Hrun|]. cbn in Hq, Hj, Hv. split; [by rewrite Hq, <-app_assoc|]. split; [done|].
    exact Hv.
Qed.

(** A decoded request, with the job that its pointer leads to. *)
Definition stored (jobs : gmap nat Job) (d : OrderInfo * ShardInfo * option Job) (r : WorkRequest) : Prop :=
  wr_Order r = d.1.1 /\ wr_Shard r = d.1.2 /\ match d.2, wr_Job r with
    | Some j, Some a => jobs !! a = Some j
    | None, None => True
    | _, _ => False
    end.
Definition fresh_jobs s : Prop := forall a, (is_fresh s <= a)%nat -> is_jobs s !! a = None.

Lemma decode_requests l done s :
  fresh_jobs s ->
  exists rs s', fold_m (fun l r => x <- decoded_request r ;; ret (l ++ [x])) done l s = (Ret (done ++ rs), s') /\
    is_queue s' = is_queue s /\ is_jobs s ⊆ is_jobs s' /\ Forall2 (stored (is_jobs s')) l rs.
Proof.
  revert done s. induction l as [|d l IH]; intros done s Hfresh.
  { exists [], s. split; [by rewrite app_nil_r|]. split; [done|]. split; [done|constructor]. }
  assert (exists r s1, decoded_request d s = (Ret r, s1) /\ fresh_jobs s1 /\ is_queue s1 = is_queue s /\ is_jobs s ⊆ is_jobs s1 /\
    stored (is_jobs s1) d r) as (r & s1 & Hrun & Hfr1 & Hq1 & Hsub1 & Hst).
  { unfold decoded_request, bind. destruct d as [[o sh] [j|]]; cbn.
    - eexists _, _. split; [done|]. cbn. split; [|split; [done|split]].
      + intros a Ha. cbn in *. rewrite lookup_insert_ne by lia. apply Hfresh. lia.
      + apply insert_subseteq, Hfresh. lia.
      + split; [done|]. split; [done|]. cbn. apply lookup_insert_eq.
    - eexists _, _. split; [done|]. by split_and!. }
  cbn [fold_m]. unfold bind at 1. unfold bind at 1. rewrite Hrun. cbn [ret].
  destruct (IH (done ++ [r]) s1 Hfr1) as (rs & s2 & Hrun2 & Hq2 & Hsub2 & Hall).
  exists (r :: rs), s2. split; [rewrite Hrun2; by rewrite <-app_assoc|]. split; [congruence|].
  split; [by etrans|]. constructor; [|done]. destruct Hst as (Ho & Hsh & Hj). split; [done|]. split; [done|].
  destruct (d.2), (wr_Job r); try done. by eapply lookup_weaken.
Qed.

(** The pending jobs that are read when the service starts: as many requests as there
    were are queued, but all of them are the variable of the loop, so each of them is
    the last job. *)
Theorem pending_all_last s value o sh j l ds :
  fresh_jobs s -> ds_Get (NewKey "pending_jobs") (is_jobDs s) = (Ret value, ds) ->
  Pending_Unmarshal value = inl (l ++ [(o, sh, Some j)]) ->
  exists s' r a, processPendingJobs s = (Ret tt, s') /\
    is_queue s' = is_queue s ++ replicate (S (length l)) LoopVar /\
    request_of LoopVar s' = (Ret r, s') /\ wr_Job r = Some a /\ is_jobs s' !! a = Some j.
Proof.
  intros Hfresh Hget Hdec. unfold processPendingJobs, bind at 1, attempt, on_jobDs, zoom. rewrite Hget. rewrite Hdec.
  set (s1 := Ixs _ _ _ _ _ _ ds). destruct (decode_requests (l ++ [(o, sh, Some j)]) [] s1) as (rs & s2 & Hrun & Hq & _ & Hall);
    [done|]. unfold bind at 1. rewrite Hrun. cbn [app].
  destruct (push_loop_vars rs s2) as (s' & Hrun' & Hq' & Hj' & Hv').
  apply Forall2_app_inv_l in Hall as (rs1 & rs2 & Hall1 & Hall2 & ->). inversion Hall2 as [|? r ? rs3 Hst Hnil]; subst.
  inversion Hnil; subst. destruct Hst as (_ & _ & Hst). cbn in Hst. destruct (wr_Job r) as [a|] eqn:Ea; [|done].
  exists s', r, a. split; [exact Hrun'|]. split; [|split; [|split; [done|by rewrite Hj']]].
  - rewrite Hq', Hq, length_app. cbn. apply Forall2_length in Hall1. by rewrite <-Hall1, Nat.add_1_r.
  - cbn. unfold gets. by rewrite Hv', foldl_app.
Qed.
End Service.
