(* ===== verification/GraphqlTheorems.v ===== *)
(** * The GraphQL server: what the indexer has entered is served

    [shards_served]: from the chain to the answer of a query.  [models_not_listed]: after
    the job, the models cannot be read as soon as there is one. *)
From stdpp Require Import base list gmap strings.
From Stdlib Require Import ZArith Lia Ascii.
From S2P Require Import Prelude Types StateUtils Cbor Queue ChainApi Stage Chain NodeApi Upload Client Indexer IndexerTheorems Graphql.

Definition shard_values (r : Z * ShardRow) : list SqlValue :=
  [VInt r.1; VInt (sr_ORDERID r.2); VText (sr_SP r.2); VText (sr_CID r.2)].

(** A query without a condition returns the columns that it names of the rows of its
    table. *)
Class QueryLaws (D : Type) `{!IndexTexts, !SqlDb D, !SqlQuery D, !SqlLaws D} := {
  Query_metadatas cols d r d' : cols <> [] -> cols ⊆ METADATA_columns -> db_Query (select_stmt "METADATA" cols) d = (r, d') -> db_ok d ->
    exists rows, r = inl (rows, None) /\
      rows ≡ₚ (fun row => value_at METADATA_columns row.2 <$> cols) <$> map_to_list (meta_table d);
  Query_shards d r d' : db_Query shards_query d = (r, d') -> db_ok d ->
    exists rows, r = inl (rows, None) /\ rows ≡ₚ shard_values <$> map_to_list (shard_table d)
}.

Section GraphqlTheorems.
Context `{!ErrorText, !IndexTexts, !GoRange, !UuidText, !Float64Lib} {C D T : Type}.
Context `{!SaoTypes, !CosmosLib C, !ListLaws C, !UuidLib C, !SqlDb D, !SqlLaws D, !SqlQuery D, !QueryLaws D, !Datastore T, !PendingJson}.
Abbreviation service := (ixs (C := C) (D := D) (T := T)).
Implicit Types (s : service).

Definition no_query : NullString := MkNullString None false.

(** Scanning rows that have a result each. *)
Lemma fold_scan {A B} (scan : B -> GoM service A) (f : B -> A) rows found s :
  (forall row s, row ∈ rows -> scan row s = (Ret (f row), s)) ->
  fold_m (fun l row => x <- scan row ;; ret (l ++ [x])) found rows s = (Ret (found ++ (f <$> rows)), s).
Proof.
  revert found. induction rows as [|row rows IH]; intros found Hf; cbn [fold_m]; [by rewrite app_nil_r|].
  unfold bind at 1. unfold bind at 1. rewrite Hf by left. cbn [ret]. unfold ret at 1. rewrite IH by (intros; apply Hf; by right).
  by rewrite <-app_assoc.
Qed.

Definition gshard_of (row : list SqlValue) : gshard :=
  match row with
  | [VInt i; VInt o; VText sp; VText cid] => MkGshard i o sp cid
  | _ => MkGshard 0 0 "" ""
  end.
Definition entry_of (s : gshard) : Z * ShardRow := (gs_ShardId s, MkShardRow (gs_OrderId s) (gs_Sp s) (gs_Cid s)).

Lemma as_uint64_int n : is_u64 n -> as_uint64 (VInt n) = Some n.
Proof. intros Hn. unfold as_uint64. cbn. by apply ParseUint_format_d. Qed.

Lemma scan_shard_row r s :
  is_u64 r.1 -> is_u64 (sr_ORDERID r.2) -> scan_shard (shard_values r) s = (Ret (gshard_of (shard_values r)), s).
Proof. intros Hi Ho. unfold scan_shard, shard_values, column. rewrite !as_uint64_int by done. reflexivity. Qed.

(** The numbers of a table are unsigned. *)
Definition unsigned_table (tb : gmap Z ShardRow) : Prop := forall i row, tb !! i = Some row -> is_u64 i /\ is_u64 (sr_ORDERID row).

Lemma Shards_listed s :
  db_ok (is_cd s).2 -> unsigned_table (shard_table (is_cd s).2) ->
  exists l s', Shards no_query s = (Ret (all_of l), s') /\ entry_of <$> l ≡ₚ map_to_list (shard_table (is_cd s).2).
Proof.
  intros Hok Hu. unfold Shards, rows_of, given, no_query. cbn [ns_Set]. rewrite str_app_nil_r.
  unfold in_db, on_cd, on_db, zoom, invoke. unfold bind at 1. destruct (db_Query shards_query (is_cd s).2) as [r d] eqn:E.
  destruct (Query_shards _ _ _ E Hok) as (rows & -> & Hrows). cbn [fst snd]. unfold bind at 1.
  rewrite (fold_scan scan_shard gshard_of).
  - cbn [app]. eexists _, _. split; [reflexivity|]. rewrite Hrows, <-!list_fmap_compose.
    rewrite (list_fmap_ext _ id); [by rewrite list_fmap_id|]. intros i [k []] _. done.
  - intros row s' Hrow. rewrite Hrows in Hrow. apply list_elem_of_fmap in Hrow as ([i x] & -> & Hx%elem_of_map_to_list).
    apply Hu in Hx as [Hi Ho]. by apply scan_shard_row.
Qed.


(** The query of the resolver names all columns. *)
Lemma metadatas_query_text : metadatas_query = select_stmt "METADATA" METADATA_columns.
Proof. reflexivity. Qed.

(** A table whose rows were entered by the job. *)
Definition of_models (tb : gmap string MetaRow) : Prop := forall k row, tb !! k = Some row -> exists m, row = meta_row m.

(** The third column of such a row is null, since the statement of the job does not
    name it. *)
Lemma scan_model_row m s :
  (scan_metadata (value_at METADATA_columns (meta_row m) <$> METADATA_columns) s).1 = Fail (Scan_error 2 VNull).
Proof. reflexivity. Qed.

Lemma Metadatas_outcome s :
  db_ok (is_cd s).2 -> of_models (meta_table (is_cd s).2) ->
  (Metadatas no_query s).1 = if decide (meta_table (is_cd s).2 = ∅) then Ret (all_of []) else Fail (Scan_error 2 VNull).
Proof.
  intros Hok Hm. unfold Metadatas, rows_of, given, no_query. cbn [ns_Set]. rewrite str_app_nil_r, metadatas_query_text.
  unfold in_db, on_cd, on_db, zoom, invoke. unfold bind at 1.
  destruct (db_Query (select_stmt "METADATA" METADATA_columns) (is_cd s).2) as [r d] eqn:E.
  destruct (Query_metadatas METADATA_columns _ _ _ ltac:(discriminate) (reflexivity _) E Hok) as (rows & -> & Hrows). cbn [fst snd]. destruct (decide _) as [He|He].
  - rewrite He, map_to_list_empty in Hrows. apply Permutation_nil_r in Hrows as ->. done.
  - destruct rows as [|row rows].
    { apply Permutation_nil_l in Hrows. destruct He. apply map_to_list_empty_iff. by destruct (map_to_list _). }
    assert (row ∈ row :: rows) as Hin by left. rewrite Hrows in Hin.
    apply list_elem_of_fmap in Hin as ([k x] & -> & Hx%elem_of_map_to_list). apply Hm in Hx as [m ->].
    cbn [fold_m snd]. unfold bind at 1. unfold bind at 1. unfold bind at 1.
    pose proof (scan_model_row m) as Hscan.
    match goal with |- context [scan_metadata ?row ?s'] => specialize (Hscan s') end.
    destruct (scan_metadata _ _) as [o s2]. cbn in Hscan. by rewrite Hscan.
Qed.

(** C36: after the job for the models of some platforms has run on a chain with fewer
    than 100 models, with distinct commits, the query for the models fails as soon as
    there is a model in the table: the statement of the job names no column CID, so
    the column is null in each row, and the resolver reads it into a string.  Only
    an empty table is listed, as the empty list. *)
Theorem models_not_listed platFormIds fuel s :
  let all := listed_meta (ch_c (is_cd s).1) in
  let table := meta_table (is_cd s).2 in
  works (is_cd s) -> (length all < 100)%nat -> (1 < fuel)%nat -> Forall meta_plain all -> NoDup (md_Commit <$> all) ->
  of_models table ->
  ((on_cd (metadata_index fuel platFormIds) ;; Metadatas no_query) s).1 =
    if decide (table = ∅ /\ List.filter (fun m => Contains platFormIds (md_GroupId m)) all = [])
    then Ret (all_of []) else Fail (Scan_error 2 VNull).
Proof.
  intros all table Hw Hl Hf Hp Hn Hm. destruct s as [[c d] jobs fresh map queue var ds]. cbn [is_cd fst snd] in *.
  destruct (small_index platFormIds c d fuel Hp Hl Hn Hw Hf) as (s' & Hrun & Htable).
  assert (S (length all / 100) < fuel)%nat as Hfuel by (rewrite Nat.div_small; lia).
  pose proof (metadata_index_outcome platFormIds c d fuel Hp) as [Hok _]; [fold all; unfold two64; lia|done|].
  rewrite Hrun in Hok. specialize (Hok Hw). cbn [snd] in Hok. fold all table in Htable.
  unfold bind at 1. unfold on_cd at 1. unfold zoom at 1. cbn [is_cd]. rewrite Hrun.
  rewrite Metadatas_outcome; cbn [is_cd]; [|done|].
  - rewrite Htable. apply decide_ext. split.
    + intros Hu. pose proof (map_positive_l _ _ Hu) as Ht. split; [done|]. rewrite Ht, (left_id_L ∅ (∪)) in Hu.
      destruct (List.filter _ all) as [|m l]; [done|]. unfold entries_of in Hu.
      cbn [fmap list_fmap list_to_map foldr] in Hu. by apply insert_non_empty in Hu.
    + intros [-> ->]. done.
  - rewrite Htable. intros k row [Hk|[_ Hk]]%lookup_union_Some_raw; [by apply (Hm k)|].
    unfold entries_of in Hk. apply elem_of_list_to_map_2, list_elem_of_fmap in Hk as (m & [= -> ->] & _). by exists m.
Qed.
End GraphqlTheorems.
