(* ===== verification/RepoTheorems.v ===== *)
(** * The repository of a node: what is written is what is read

    [config_written]: the text of a configuration, with its comments and without its
    default lines, decodes to the configuration.  [init_readable]: what a repository
    holds after its initialization. *)
From stdpp Require Import base list gmap strings.
From Stdlib Require Import ZArith Lia Ascii.
From S2P Require Import Prelude Types StateUtils ChainApi Stage Chain NodeApi Upload UploadTheorems Config Repo.

(** ** Texts *)
Lemma Split_no_sep s sep : Forall (fun p => free_of sep p = true) (Split s sep).
Proof.
  induction s as [|c s IH]; [by repeat constructor|]. cbn [Split]. destruct (Ascii.eqb c sep) eqn:E; [by constructor|].
  destruct (Split s sep) as [|p ps]; inversion IH; subst; constructor; [|done|..]; try done; unfold free_of in *; cbn; by rewrite E.
Qed.

(** Joining lines and splitting them again. *)
Lemma Split_concat l :
  l <> [] -> Forall (fun p => free_of newline p = true) l -> Split (String.concat nl l) newline = l.
Proof.
  induction l as [|x [|y l] IH]; intros Hne Hf; [done| |]; inversion Hf as [|? ? Hx Hl]; subst.
  - by apply Split_free.
  - change (String.concat nl (x :: y :: l)) with (x +:+ String newline (String.concat nl (y :: l))).
    rewrite Split_app_sep, Split_free, IH by done. done.
Qed.

Lemma trim_left_suffix k s : exists pre, s = pre +:+ trim_left k s.
Proof.
  revert k. induction s as [|c s IH]; intros k; cbn [trim_left]; [by exists ""|].
  destruct k as [|k]; [destruct (space_len (String c s)) as [|k]; [by exists ""|]|];
    destruct (IH k) as [pre E]; exists (String c pre); rewrite str_app_cons; by f_equal.
Qed.

Lemma TrimLeft_space s : TrimLeft (String " " s) = TrimLeft s.
Proof. reflexivity. Qed.
Lemma TrimLeft_spaces n s : TrimLeft (spaces n +:+ s) = TrimLeft s.
Proof. induction n as [|n IH]; [by rewrite str_app_nil|]. cbn [spaces]. by rewrite str_app_cons, TrimLeft_space. Qed.

(** A character that starts no space. *)
Definition solid (c : ascii) : bool :=
  negb (space1 c || is_byte 194 c || is_byte 225 c || is_byte 226 c || is_byte 227 c).
Lemma TrimLeft_solid c s : solid c = true -> TrimLeft (String c s) = String c s.
Proof.
  unfold solid, TrimLeft. rewrite negb_true_iff, !orb_false_iff. intros [[[[H1 H2] H3] H4] H5].
  assert (space_len (String c s) = 0%nat) as E.
  { cbn [space_len]. rewrite H1. destruct s as [|d [|e s]]; [done|..]; unfold space2, space3; by rewrite H2, ?H3, ?H4, ?H5. }
  cbn [trim_left]. by rewrite E.
Qed.
Lemma TrimRight_solid c s : solid c = true -> exists t, TrimRight (String c s) = String c t.
Proof. intros Hc. cbn [TrimRight]. rewrite TrimLeft_solid by done. by eexists. Qed.

(** The comments that are written. *)
Definition comment (n : nat) (text : string) : string := spaces n +:+ "#" +:+ text.
Lemma TrimSpace_comment n text : starts_with "#" (TrimSpace (comment n text)) = true.
Proof.
  unfold TrimSpace, comment. rewrite TrimLeft_spaces, str_app_cons, TrimLeft_solid by done.
  destruct (TrimRight_solid "#" ("" +:+ text) eq_refl) as [t ->]. done.
Qed.

(** ** The lines of a configuration *)

(** A line that sets a value. *)
Definition key_text (t : string) : bool := negb (String.eqb t "") && negb (starts_with "#" t) && negb (starts_with "[" t).
Definition key_line (l : string) : bool := key_text (TrimSpace l).
Definition header_line (l : string) : bool := starts_with "[" (TrimSpace l).

(** The lines that set values, with their sections. *)
Fixpoint read_lines (section : string) (l : list string) : list (string * string) :=
  match l with
  | [] => []
  | line :: l =>
      if header_line line then read_lines (default section (section_name (TrimSpace line))) l
      else if key_line line then (section, TrimSpace line) :: read_lines section l
      else read_lines section l
  end.

Definition printable (s : string) : bool := all_chars (fun c => (32 <=? nat_of_ascii c)%nat && negb (is_byte 127 c)) s.

(** A text in which comments and empty lines are inserted and lines that set values
    are removed. *)
Inductive edited : list string -> list string -> Prop :=
| ed_nil : edited [] []
| ed_keep l a b : edited a b -> edited (l :: a) (l :: b)
| ed_drop l a b : key_line l = true -> edited a b -> edited (l :: a) b
| ed_blank a b : edited a b -> edited a ("" :: b)
| ed_comment n text a b : printable text = true -> edited a b -> edited a (comment n text :: b).
Create HintDb edits.
#[export] Hint Constructors edited : edits.

Lemma comment_not_key n text : key_line (comment n text) = false /\ header_line (comment n text) = false.
Proof.
  pose proof (TrimSpace_comment n text) as H. unfold key_line, key_text, header_line.
  destruct (TrimSpace (comment n text)) as [|c s]; [done|]. cbn in *. apply Ascii.eqb_eq in H as ->. done.
Qed.

Lemma read_lines_app_plain section a b :
  Forall (fun l => key_line l = false /\ header_line l = false) a -> read_lines section (a ++ b) = read_lines section b.
Proof. induction 1 as [|l a [Hk Hh] _ IH]; [done|]. cbn. by rewrite Hk, Hh. Qed.

Lemma edited_app_comments a b c :
  Forall (fun l => exists n text, l = comment n text /\ printable text = true) c -> edited a b -> edited a (c ++ b).
Proof. induction 1 as [|l c (n & text & -> & Hp) _ IH]; intros Hab; [done|]. cbn. constructor; auto. Qed.

Lemma default_lines_read section t :
  default_lines t = (read_lines section (Split t newline)).*2.
Proof.
  unfold default_lines. generalize (Split t newline). intros l. revert section.
  induction l as [|x l IH]; intros section; [done|]. cbn. unfold header_line, key_line, key_text.
  destruct (starts_with "[" (TrimSpace x)) eqn:E1; rewrite ?andb_false_r; [apply IH|].
  rewrite !andb_true_r. destruct (negb _ && negb _); cbn; [f_equal|]; apply IH.
Qed.

(** *** The documentation *)
Definition all_docs : list DocField := Doc ≫= snd.
Lemma doc_of_all name f : f ∈ doc_of name -> f ∈ all_docs.
Proof.
  unfold doc_of. destruct (List.find _ Doc) as [e|] eqn:E; [|by intros ?%elem_of_nil]. apply List.find_some in E as [E _].
  intros Hf. unfold all_docs. apply list_elem_of_bind. exists e. split; [done|]. by apply list_elem_of_In.
Qed.
Lemma doc_step_all docs e : (forall f, f ∈ docs -> f ∈ all_docs) -> forall f, f ∈ doc_step docs e -> f ∈ all_docs.
Proof. unfold doc_step. destruct (List.find _ docs); [|done]. intros _ f. apply doc_of_all. Qed.
Lemma findDoc_all section name f : findDoc section name = Some f -> f ∈ all_docs.
Proof.
  assert (forall root, findDocSect root section name = Some f -> f ∈ all_docs) as H.
  { intros root. unfold findDocSect. intros [Hf%list_elem_of_In _]%List.find_some. revert Hf.
    generalize (Split section "."). intros path. assert (forall f, f ∈ doc_of root -> f ∈ all_docs) as H0 by apply doc_of_all.
    revert H0. generalize (doc_of root). induction path as [|e path IH]; intros docs Hd Hf; [by apply Hd|].
    apply (IH (doc_step docs e)); [by apply doc_step_all|exact Hf]. }
  unfold findDoc. destruct (findDocSect "Node" section name) eqn:E; [intros [= ->]|]; eauto.
Qed.

Definition doc_printable (f : DocField) : bool :=
  forallb (fun l => printable (" " +:+ l)) (Split (df_Comment f) newline) && printable (" type: " +:+ df_Type f).
Lemma docs_printable : forallb doc_printable all_docs = true.
Proof. vm_compute. reflexivity. Qed.

Lemma doc_lines_comments section line :
  Forall (fun l => exists n text, l = comment n text /\ printable text = true) (doc_lines section line).
Proof.
  unfold doc_lines. destruct (Fields line) as [|name [|? ?]]; [constructor..|].
  destruct (findDoc section name) as [doc|] eqn:E; [|constructor]. apply findDoc_all in E.
  pose proof docs_printable as Hp. rewrite List.forallb_forall in Hp. apply list_elem_of_In in E. apply Hp, andb_prop in E as [Hc Ht].
  rewrite List.forallb_forall in Hc. apply Forall_app. split.
  - destruct (0 <? _)%nat; [|constructor]. apply Forall_app. split.
    + apply Forall_fmap, Forall_forall. intros d Hd%list_elem_of_In%Hc. by exists (String.length line - String.length (TrimLeft line))%nat, (" " +:+ d).
    + repeat constructor. by exists (String.length line - String.length (TrimLeft line))%nat, "".
  - repeat constructor. by exists (String.length line - String.length (TrimLeft line))%nat, (" type: " +:+ df_Type doc).
Qed.

(** ** Commenting out *)
Definition named_headers (l : list string) : Prop :=
  Forall (fun line => header_line line = true -> is_Some (section_name (TrimSpace line))) l.

Lemma printable_app s t : printable (s +:+ t) = printable s && printable t.
Proof. apply all_chars_app. Qed.
Lemma printable_newline s : printable s = true -> free_of newline s = true.
Proof.
  unfold printable, free_of. induction s as [|c s IH]; [done|]. cbn. intros [Hc Hs]%andb_prop. rewrite IH, andb_true_r by done.
  apply negb_true_iff, Ascii.eqb_neq. intros ->. done.
Qed.
Lemma printable_spaces n : printable (spaces n) = true.
Proof. induction n as [|n IH]; [done|]. exact IH. Qed.
Lemma printable_comment n text : printable text = true -> printable (comment n text) = true.
Proof. intros H. unfold comment. rewrite !printable_app, printable_spaces, H. done. Qed.
Lemma printable_TrimLeft s : printable s = true -> printable (TrimLeft s) = true.
Proof. destruct (trim_left_suffix 0 s) as [pre E]. unfold TrimLeft. intros H. rewrite E, printable_app in H. by apply andb_prop in H as [_ ?]. Qed.

Lemma edited_printable a b :
  edited a b -> Forall (fun l => printable l = true) a -> Forall (fun l => printable l = true) b.
Proof.
  induction 1; intros Ha; [constructor|inversion_clear Ha; auto..|constructor; auto|].
  constructor; [by apply printable_comment|auto].
Qed.

(** What the output says of a line. *)
Lemma out_lines_spec defs section line a b :
  (forall l, l ∈ defs -> key_text l = true) -> header_line line = false -> printable line = true -> edited a b ->
  edited (line :: a) (out_lines (Some defs) section line ++ b) /\
  read_lines section (out_lines (Some defs) section line ++ b) =
    (if key_line line && bool_decide (TrimSpace line ∉ defs) then [(section, TrimSpace line)] else []) ++ read_lines section b.
Proof.
  intros Hdefs Hh Hp Hab. unfold out_lines. rewrite <-!app_assoc. pose proof (doc_lines_comments section line) as Hdoc.
  rewrite read_lines_app_plain.
  2: { eapply Forall_impl; [exact Hdoc|]. intros ? (n & text & -> & _). apply comment_not_key. }
  assert (forall p : bool, edited a ((if p then [""] else []) ++ b)) as Hblank by (intros []; cbn; auto with edits).
  assert (forall p : bool, read_lines section ((if p then [""] else []) ++ b) = read_lines section b) as Hskip by by intros [].
  destruct (decide (TrimSpace line ∈ defs)) as [Hin|Hin].
  - rewrite (bool_decide_true (TrimSpace line ∈ defs)), (bool_decide_false (TrimSpace line ∉ defs)) by auto.
    assert (key_line line = true) as Hk by by apply Hdefs. rewrite andb_false_r.
    assert ((0 <? String.length line)%nat = true) as -> by by destruct line.
    change (pad_of line +:+ "#" +:+ TrimLeft line) with (comment (String.length line - String.length (TrimLeft line)) (TrimLeft line)).
    set (out := comment _ _). destruct (comment_not_key (String.length line - String.length (TrimLeft line)) (TrimLeft line)) as [Hck Hch].
    fold out in Hck, Hch. split.
    + apply edited_app_comments; [done|]. cbn [app andb]. apply ed_drop; [done|]. apply ed_comment; [by apply printable_TrimLeft|]. apply Hblank.
    + cbn [app andb read_lines]. rewrite Hck, Hch. apply Hskip.
  - rewrite (bool_decide_false (TrimSpace line ∈ defs)), (bool_decide_true (TrimSpace line ∉ defs)) by auto.
    rewrite andb_true_r. cbn [andb]. split.
    + apply edited_app_comments; [done|]. cbn [app]. apply ed_keep, Hblank.
    + cbn [app read_lines]. rewrite Hh, Hskip. by destruct (key_line line).
Qed.

(** The lines are commented out that the default has; nothing else changes. *)
Lemma comment_lines_spec defs i section lines :
  (forall l, l ∈ defs -> key_text l = true) -> named_headers lines -> Forall (fun l => printable l = true) lines ->
  exists out, comment_lines (Some defs) i section lines = inl out /\ edited lines out /\
    read_lines section out = List.filter (fun e => bool_decide (e.2 ∉ defs)) (read_lines section lines).
Proof.
  intros Hdefs. revert i section. induction lines as [|line lines IH]; intros i section Hn Hp.
  { exists []. split; [done|]. split; [constructor|done]. }
  inversion_clear Hn as [|? ? Hh Hn']. inversion_clear Hp as [|? ? Hpl Hp']. cbn [comment_lines].
  change (starts_with "[" (TrimSpace line)) with (header_line line). destruct (header_line line) eqn:E.
  - destruct (Hh eq_refl) as [name Hname]. destruct (IH (S i) name Hn' Hp') as (out & Hrun & He & Hr).
    exists (line :: out). rewrite Hname, Hrun. split; [done|]. split; [by constructor|]. cbn [read_lines]. by rewrite E, Hname.
  - destruct (IH (S i) section Hn' Hp') as (out & Hrun & He & Hr).
    destruct (out_lines_spec defs section line lines out) as [He' Hr']; [done..|].
    exists (out_lines (Some defs) section line ++ out). rewrite Hrun. split; [done|]. split; [done|].
    rewrite Hr', Hr. cbn [read_lines]. rewrite E. destruct (key_line line); [|done]. cbn. by destruct (bool_decide _).
Qed.

(** ** TOML

    The texts of the values, by their types; [utf8] texts can be written and read. *)
Class TomlTexts := {
  t_string : string -> string; t_int : Z -> string; t_bool : bool -> string; t_strings : list string -> string;
  t_duration : Z -> string; utf8 : string -> Prop
}.

(** The values of a configuration, with their sections and names.  A configuration
    with connections of IPFS has tables besides these; [Ipfs] is then not a value. *)
Definition fields `{!TomlTexts} (c : Config) : list (string * string * string) :=
  let 'MkConfig chain libp2p module transport cache http api storage ipfs indexer := c in
  [("Chain", "Remote", t_string (Remote chain)); ("Chain", "WsEndpoint", t_string (WsEndpoint chain));
   ("Chain", "TxPoolSize", t_int (TxPoolSize chain));
   ("Libp2p", "ListenAddress", t_strings (l2p_ListenAddress libp2p));
   ("Libp2p", "AnnounceAddresses", t_strings (AnnounceAddresses libp2p));
   ("Module", "GatewayEnable", t_bool (GatewayEnable module)); ("Module", "StorageEnable", t_bool (StorageEnable module));
   ("Module", "IndexerEnable", t_bool (IndexerEnable module));
   ("Transport", "TransportListenAddress", t_strings (TransportListenAddress transport));
   ("Transport", "StagingSapceSize", t_int (StagingSapceSize transport));
   ("Cache", "EnableCache", t_bool (EnableCache cache)); ("Cache", "CacheCapacity", t_int (CacheCapacity cache));
   ("Cache", "ContentLimit", t_int (ContentLimit cache)); ("Cache", "RedisConn", t_string (RedisConn cache));
   ("Cache", "RedisPassword", t_string (RedisPassword cache)); ("Cache", "RedisPoolSize", t_int (RedisPoolSize cache));
   ("Cache", "MemcachedConn", t_string (MemcachedConn cache));
   ("SaoHttpFileServer", "Enable", t_bool (http_Enable http));
   ("SaoHttpFileServer", "HttpFileServerAddress", t_string (http_Address http));
   ("SaoHttpFileServer", "EnableHttpFileServerLog", t_bool (EnableHttpFileServerLog http));
   ("SaoHttpFileServer", "HttpFileServerPath", t_string (HttpFileServerPath http));
   ("SaoHttpFileServer", "TokenPeriod", t_duration (http_TokenPeriod http));
   ("SaoHttpFileServer", "CacheSize", t_int (http_CacheSize http));
   ("Api", "ListenAddress", t_string (api_ListenAddress api)); ("Api", "Timeout", t_duration (api_Timeout api));
   ("Api", "EnablePermission", t_bool (EnablePermission api));
   ("Storage", "AcceptOrder", t_bool (AcceptOrder storage)); ("Storage", "Ipfs", "[]");
   ("SaoIpfs", "Enable", t_bool ipfs);
   ("Indexer", "DbPath", t_string (DbPath indexer)); ("Indexer", "ListenAddress", t_string (ix_ListenAddress indexer))].

Definition field_text (f : string * string * string) : string := f.1.2 +:+ " = " +:+ f.2.
Definition line_of (f : string * string * string) : string * string := (f.1.1, field_text f).

Definition texts_of (c : Config) : list string :=
  [Remote (cf_Chain c); WsEndpoint (cf_Chain c)] ++ l2p_ListenAddress (cf_Libp2p c) ++ AnnounceAddresses (cf_Libp2p c) ++
  TransportListenAddress (cf_Transport c) ++
  [RedisConn (cf_Cache c); RedisPassword (cf_Cache c); MemcachedConn (cf_Cache c); http_Address (cf_Http c);
   HttpFileServerPath (cf_Http c); api_ListenAddress (cf_Api c); DbPath (cf_Indexer c); ix_ListenAddress (cf_Indexer c)].
Definition writable `{!TomlTexts} (c : Config) : Prop := Ipfs (cf_Storage c) = [] /\ Forall utf8 (texts_of c).

(** An encoding sets each value
    in a line of its own, in the section of the value.  Comments and empty lines
    mean nothing to the decoder, and a value that no line sets is left as it was. *)
Class TomlLaws `{!ConfigToml, !TomlTexts} := {
  utf8_printable s : Forall (fun c => (nat_of_ascii c < 127)%nat) (String.list_ascii_of_string s) -> printable s = true -> utf8 s;
  t_string_inj s t : utf8 s -> utf8 t -> t_string s = t_string t -> s = t;
  t_int_inj m n : t_int m = t_int n -> m = n;
  t_bool_inj a b : t_bool a = t_bool b -> a = b;
  t_strings_inj k l : Forall utf8 k -> Forall utf8 l -> t_strings k = t_strings l -> k = l;
  t_duration_inj m n : t_duration m = t_duration n -> m = n;
  Encode_spec c : writable c -> exists t, Toml_Encode c = inl t /\
    Forall (fun l => printable l = true) (Split t newline) /\ named_headers (Split t newline) /\
    read_lines "" (Split t newline) = line_of <$> fields c;
  Decode_edited c def t t' : writable c -> writable def -> Toml_Encode c = inl t ->
    edited (Split t newline) (Split t' newline) ->
    exists d, Toml_Decode t' def = inl d /\ writable d /\
      fields d = zip_with (fun f g => if bool_decide (line_of f ∈ read_lines "" (Split t' newline)) then f else g)
                   (fields c) (fields def)
}.

Section ConfigTheorems.
Context `{!ErrorText, !ConfigToml, !TomlTexts, !TomlLaws} {W : Type} `{!EnvConfig W}.

Lemma fields_inj c d : writable c -> writable d -> fields c = fields d -> c = d.
Proof.
  intros [Hic Htc] [Hid Htd] E. destruct c as [[] [] [] [] [] [] [] [] ? []], d as [[] [] [] [] [] [] [] [] ? []]. cbn in *. subst.
  unfold texts_of in Htc, Htd. cbn in Htc, Htd. rewrite ?Forall_cons, ?Forall_app, ?Forall_cons in Htc, Htd. destruct_and?.
  injection E as E. repeat match goal with
    | H : t_string _ = t_string _ |- _ => apply t_string_inj in H; [|done..]
    | H : t_int _ = t_int _ |- _ => apply t_int_inj in H
    | H : t_bool _ = t_bool _ |- _ => apply t_bool_inj in H
    | H : t_strings _ = t_strings _ |- _ => apply t_strings_inj in H; [|done..]
    | H : t_duration _ = t_duration _ |- _ => apply t_duration_inj in H
    end.
  congruence.
Qed.

(** No value that differs from the default has the line of a default of another
    value. *)
Definition no_clash (cur def : Config) : Prop :=
  forall i f g, fields cur !! i = Some f -> fields def !! i = Some g -> field_text f ∈ field_text <$> fields def -> f = g.

Lemma fields_length c : length (fields c) = 31%nat.
Proof. by destruct c. Qed.

(** The values that are read back: those of the default where the line is one of the
    default. *)
Lemma decoded_fields cur def t t' d :
  Toml_Encode def = inl t -> writable def ->
  read_lines "" (Split t' newline) = List.filter (fun e => bool_decide (e.2 ∉ default_lines t)) (line_of <$> fields cur) ->
  fields d = zip_with (fun f g => if bool_decide (line_of f ∈ read_lines "" (Split t' newline)) then f else g) (fields cur) (fields def) ->
  fields d = fields cur <-> no_clash cur def.
Proof.
  intros Et Hdef Hr Hd. destruct (Encode_spec def Hdef) as (t0 & E0 & _ & _ & Hlines). rewrite Et in E0. injection E0 as <-.
  assert (forall f, f ∈ fields cur -> line_of f ∈ read_lines "" (Split t' newline) <-> field_text f ∉ field_text <$> fields def) as Hkept.
  { intros f Hf. rewrite Hr, list_elem_of_In, filter_In, <-list_elem_of_In, bool_decide_eq_true.
    rewrite (default_lines_read "" t), Hlines, <-list_fmap_compose. split; [by intros [_ ?]|]. intros Hn. split; [|exact Hn].
    by apply list_elem_of_fmap_2. }
  assert (forall i f g, fields cur !! i = Some f -> fields def !! i = Some g ->
    fields d !! i = Some (if bool_decide (line_of f ∈ read_lines "" (Split t' newline)) then f else g)) as Hi.
  { intros i f g Hf Hg. rewrite Hd, lookup_zip_with, Hf. cbn. by rewrite Hg. }
  split.
  - intros E i f g Hf Hg Hin. specialize (Hi i f g Hf Hg). rewrite E, Hf in Hi. injection Hi as Hi.
    rewrite bool_decide_false in Hi; [done|]. intros Hk%Hkept; [done|]. by eapply list_elem_of_lookup_2.
  - intros Hnc. apply list_eq. intros i. destruct (fields cur !! i) as [f|] eqn:Hf.
    + destruct (lookup_lt_is_Some_2 (fields def) i) as [g Hg].
      { apply lookup_lt_Some in Hf. by rewrite fields_length in *. }
      rewrite (Hi i f g Hf Hg). destruct (bool_decide _) eqn:E; [done|]. apply bool_decide_eq_false in E. f_equal. symmetry.
      apply (Hnc i f g Hf Hg). apply dec_stable. intros Hn. apply E, Hkept; [|done]. by eapply list_elem_of_lookup_2.
    + apply lookup_ge_None in Hf. apply lookup_ge_None. rewrite Hd, length_zip_with, !fields_length. rewrite fields_length in Hf. lia.
Qed.

Lemma key_text_lines section l e : e ∈ read_lines section l -> key_text e.2 = true.
Proof.
  revert section. induction l as [|x l IH]; intros section; cbn; [by intros ?%elem_of_nil|]. destruct (header_line x); [apply IH|].
  destruct (key_line x) eqn:E; [|apply IH]. intros [->|He]%elem_of_cons; [done|by eapply IH].
Qed.

(** The lines of the text that the lines are joined to. *)
Lemma joined_lines lines out :
  edited lines out -> Forall (fun l => free_of newline l = true) out ->
  edited lines (Split (String.concat nl out) newline) /\
  forall section, read_lines section (Split (String.concat nl out) newline) = read_lines section out.
Proof.
  intros He Hf. destruct out as [|x out]; [|by rewrite Split_concat]. split; [by apply ed_blank|done].
Qed.

(** Variables of the environment that would override a value. *)
Definition no_overrides (w : W) : Prop := exists w', forall c, env_Process "SAO" c w = (inl c, w').

(** C29: the text of a configuration says the configuration: with the lines of the
    default commented out and with its comments it decodes, over the default, to
    the configuration that was written - or writing it fails, when a value that
    differs from its default has the line of the default of another value. *)
Theorem config_written cur def w :
  writable cur -> writable def -> no_overrides w ->
  wp (ConfigUpdate cur (Some def) true) w (fun o _ =>
    match o with
    | Ret t => Toml_Decode t def = inl cur /\ no_clash cur def
    | Fail _ => ~ no_clash cur def
    | _ => False
    end).
Proof.
  intros Hcur Hdef (w' & Henv). unfold ConfigUpdate, encoded, wrapping.
  destruct (Encode_spec def Hdef) as (td & Etd & _ & _ & _), (Encode_spec cur Hcur) as (tc & Etc & Hp & Hn & Hlines).
  rewrite Etd, Etc. apply wp_bind, wp_or_else, wp_ret, wp_ret, wp_bind, wp_or_else, wp_ret, wp_ret, wp_bind, wp_bind.
  destruct (comment_lines_spec (default_lines td) 0 "" (Split tc newline)) as (out & Hout & He & Hr); [|done..|].
  { intros l Hl. rewrite (default_lines_read "") in Hl. apply list_elem_of_fmap_1 in Hl as (e & -> & He). by eapply key_text_lines. }
  rewrite Hout. apply wp_ret, wp_ret, wp_bind, wp_bind, wp_or_else. destruct (joined_lines (Split tc newline) out) as [He' Hr'];
    [done|eapply Forall_impl; [by eapply edited_printable|]; apply printable_newline|].
  set (t' := String.concat nl out) in *. specialize (Hr' ""); rewrite Hr, Hlines in Hr'.
  destruct (Decode_edited cur def tc t' Hcur Hdef Etc He') as (d & Hd & Hwd & Hfields).
  assert (fields d = fields cur <-> no_clash cur def) as Hiff by by eapply (decoded_fields cur def td t').
  unfold FromReader. rewrite Hd. apply wp_bind, wp_ret, wp_or_else. unfold wp, invoke. rewrite Henv. cbn.
  destruct (decide (cur = d)) as [->|Hne].
  - rewrite bool_decide_true by done. cbn. split; [done|]. by apply Hiff.
  - rewrite bool_decide_false by done. cbn. intros Hf%Hiff. by apply Hne, fields_inj.
Qed.
End ConfigTheorems.

(** ** Initialization *)

(** Directories, beside the files of [FileLaws].  A [healthy] machine has entropy and
    no variable that overrides a value of the configuration. *)
Class RepoLaws (W : Type) `{!FileSys W, !FileLaws W, !StatFiles W, !OpenFiles W, !RepoLib W, !EnvConfig W} := {
  dirs : W -> gset string;
  Stat_dirs p w r w' : os_Stat p w = (r, w') -> dirs w' = dirs w /\
    (healthy w -> match r with
                  | inl _ => is_Some (files w !! p) \/ p ∈ dirs w
                  | inr e => os_IsNotExist e = true /\ files w !! p = None /\ p ∉ dirs w
                  end);
  Create_dirs p w r w' : os_Create p w = (r, w') -> dirs w' = dirs w;
  Write_dirs f b w r w' : file_Write f b w = (r, w') -> dirs w' = dirs w;
  Close_dirs f w r w' : file_Close f w = (r, w') -> dirs w' = dirs w /\ (healthy w -> r = inl tt);
  Open_dirs p w r w' : os_Open p w = (r, w') -> dirs w' = dirs w;
  ReadAll_dirs f w r w' : io_ReadAll f w = (r, w') -> dirs w' = dirs w;
  (* the directories on the way *)
  MkdirAll_dirs p w r w' : os_MkdirAll p w = (r, w') -> dirs w ⊆ dirs w' /\
    (forall q, q ∈ dirs w' -> q ∈ dirs w \/ HasPrefix p q = true);
  Mkdir_spec p w r w' : os_Mkdir p w = (r, w') -> files w' = files w /\ (healthy w -> healthy w') /\
    match r with
    | inl _ => dirs w' = {[p]} ∪ dirs w
    | inr _ => dirs w' = dirs w /\ (healthy w -> p ∈ dirs w \/ is_Some (files w !! p))
    end;
  WriteFile_spec p b w r w' : os_WriteFile p b w = (r, w') -> dirs w' = dirs w /\ (healthy w -> healthy w') /\
    match r with inl _ => files w' = <[p := b]> (files w) | inr _ => ~ healthy w end;
  GenerateKey_spec w r w' : GenerateEd25519Key w = (r, w') -> files w' = files w /\ dirs w' = dirs w /\
    (healthy w -> healthy w') /\ match r with inl _ => True | inr _ => ~ healthy w end;
  PrivateKey_roundtrip k : exists b, MarshalPrivateKey k = inl b /\ UnmarshalPrivateKey b = inl k;
  quiet w : healthy w -> no_overrides w;
  env_kept p c w r w' : env_Process p c w = (r, w') -> files w' = files w /\ dirs w' = dirs w /\ (healthy w -> healthy w') /\
    forall f, offset w' f = offset w f
}.

Section InitTheorems.
Context `{!ErrorText, !GoRange, !ConfigToml, !TomlTexts, !TomlLaws} {W : Type}.
Context `{!FileSys W, !FileLaws W, !StatFiles W, !OpenFiles W, !OpenLaws W, !RepoLib W, !EnvConfig W, !RepoLaws W}.

Lemma ascii_utf8 s : forallb (fun c => (nat_of_ascii c <? 127)%nat) (String.list_ascii_of_string s) && printable s = true -> utf8 s.
Proof.
  intros [Ha Hp]%andb_prop. apply utf8_printable; [|done]. rewrite List.forallb_forall in Ha. apply Forall_forall.
  intros c Hc%list_elem_of_In%Ha. by apply Nat.ltb_lt.
Qed.

Lemma with_chain_writable addr size : utf8 addr -> writable (with_chain addr size DefaultSaoNode).
Proof.
  intros Ha. split; [done|]. unfold texts_of. cbn. repeat (apply Forall_cons; split; [|]); try (by apply ascii_utf8); [|constructor].
  destruct (String.eqb addr ""); [by apply ascii_utf8|done].
Qed.
Lemma default_writable : writable DefaultSaoNode.
Proof. apply (with_chain_writable "" 0). by apply ascii_utf8. Qed.

(** The chain's values have names of their own. *)
Lemma with_chain_no_clash addr size : no_clash (with_chain addr size DefaultSaoNode) DefaultSaoNode.
Proof.
  intros i f g Hf Hg Hin. apply list_elem_of_fmap_1 in Hin as (f' & E & Hin). cbn in Hin.
  assert (i = 0%nat \/ i = 2%nat \/ f = g) as [->|[->|Hi]]; [|injection Hf as <-; injection Hg as <-..|done].
  { destruct i as [|[|[|i]]]; [tauto| |tauto|]; right; right.
    - change (fields DefaultSaoNode !! 1%nat = Some f) in Hf. congruence.
    - change (fields DefaultSaoNode !! S (S (S i)) = Some f) in Hf. congruence. }
  all: repeat (apply elem_of_cons in Hin as [->|Hin]; [unfold field_text in E; cbn in E;
    first [discriminate E|injection E as E; cbn; by f_equal]|]); by apply elem_of_nil in Hin.
Qed.

(** The first two steps as one. *)
Lemma wp_bind_group {T A B C} (c : GoM T A) (f : A -> GoM T B) (g : B -> GoM T C) s Q :
  wp (b <- (a <- c ;; f a) ;; g b) s Q -> wp (a <- c ;; b <- f a ;; g b) s Q.
Proof. unfold wp, bind. by destruct (c s) as [[] ?]. Qed.

(** A working machine with these files and directories. *)
Definition machine (fs : gmap string bytes) (ds : gset string) (w : W) : Prop := healthy w /\ files w = fs /\ dirs w = ds.

Lemma path_exists_spec p fs ds w :
  machine fs ds w ->
  wp (path_exists p) w (fun o w' => machine fs ds w' /\ o = Ret (bool_decide (is_Some (fs !! p) \/ p ∈ ds))).
Proof.
  intros (Hh & Hf & Hd). unfold path_exists. apply wp_bind, wp_attempt, wp_call.
  - intros n w' E. destruct (Stat_spec _ _ _ _ E) as (Hf' & Hh' & _), (Stat_dirs _ _ _ _ E) as [Hd' Hr]. apply wp_ret.
    split; [split_and!; [by apply Hh'|congruence..]|]. rewrite bool_decide_true; [done|]. subst. by apply Hr.
  - intros e w' E. destruct (Stat_spec _ _ _ _ E) as (Hf' & Hh' & _), (Stat_dirs _ _ _ _ E) as [Hd' Hr].
    destruct (Hr Hh) as (-> & Hn & Hn'). apply wp_ret. split; [split_and!; [by apply Hh'|congruence..]|].
    rewrite bool_decide_false; [done|]. subst. intros [[? ?]|?]; [congruence|done].
Qed.

Lemma Exists_wp r fs ds w :
  machine fs ds w ->
  wp (Exists r) w (fun o w' => machine fs ds w' /\ o = Ret (bool_decide (is_Some (fs !! keystore_path r) \/ keystore_path r ∈ ds))).
Proof.
  intros Hm. unfold Exists, wrapping. apply wp_or_else. eapply wp_mono; [by apply path_exists_spec|]. by intros o w' [Hm' ->].
Qed.

Lemma ConfigUpdate_kept cur def fs ds w :
  machine fs ds w -> wp (ConfigUpdate cur (Some def) true) w (fun _ w' => machine fs ds w' /\ forall f, offset w' f = offset w f).
Proof.
  intros (Hh & Hf & Hd). unfold ConfigUpdate, encoded, wrapping, FromReader.
  assert (machine fs ds w) as Hm by done.
  destruct (Toml_Encode def) as [td|], (Toml_Encode cur) as [tc|]; [|done..].
  apply wp_bind, wp_or_else, wp_ret, wp_ret, wp_bind, wp_or_else, wp_ret, wp_ret, wp_bind, wp_bind.
  destruct (comment_lines _ _ _ _) as [out|]; [|done]. apply wp_ret, wp_ret, wp_bind, wp_bind, wp_or_else.
  destruct (Toml_Decode _ def) as [d|]; [|done]. apply wp_bind, wp_ret, wp_or_else, wp_call.
  - intros c w' (Hf' & Hd' & Hh' & Ho)%env_kept. apply wp_ret. cbn. case_bool_decide; (split; [split_and!; [auto|cbn; congruence..]|done]).
  - intros e w' (Hf' & Hd' & Hh' & Ho)%env_kept. split; [split_and!; [auto|cbn; congruence..]|done].
Qed.

(** The configuration is in its file. *)
Definition has_config (path : string) (c : Config) (fs : gmap string bytes) : Prop :=
  exists t, fs !! path = Some (string_bytes t) /\ Toml_Decode t DefaultSaoNode = inl c.

Lemma initConfig_spec r addr size fs ds w :
  utf8 addr -> machine fs ds w -> fs !! rp_configPath r = None -> rp_configPath r ∉ ds ->
  wp (initConfig r addr size) w (fun o w' => o = Ret tt /\ exists b,
    machine (<[rp_configPath r := b]> fs) ds w' /\
    has_config (rp_configPath r) (with_chain addr size DefaultSaoNode) (<[rp_configPath r := b]> fs)).
Proof.
  intros Ha Hm Hn Hn'. unfold initConfig. apply wp_bind. eapply wp_mono; [by apply path_exists_spec|].
  intros o w1 [(Hh & Hf & Hd) ->]. rewrite bool_decide_false by (intros [[? ?]|?]; [congruence|done]). apply wp_bind, wp_call.
  2: { intros e w2 [_ [? _]]%Create_spec. done. }
  intros f w2 Ec. pose proof (Create_dirs _ _ _ _ Ec) as Hd2. apply Create_spec in Ec as [Hh2 (Hf2 & Hname & Hoff)].
  assert (machine (<[rp_configPath r := []]> fs) ds w2) as Hm2 by (split_and!; [auto|congruence..]).
  apply wp_or_else. eapply wp_mono; [apply wp_both; [by apply ConfigUpdate_kept|]|].
  { by apply config_written; [apply with_chain_writable|apply default_writable|apply quiet; auto]. }
  intros o w3 [[(Hh3 & Hf3 & Hd3) Hoff3] Ho]. destruct o as [t|e| |]; [|by destruct Ho; apply with_chain_no_clash|done..]. destruct Ho as [Ht _].
  apply wp_or_else, wp_call; intros x w4 Ew; pose proof (Write_dirs _ _ _ _ _ Ew) as Hd4;
    (apply (Write_spec f (string_bytes t) w3 []) in Ew as [Hh4 Hf4]; [|by rewrite Hf3, Hname, lookup_insert_eq|by rewrite Hoff3]); [|by destruct Hf4].
  apply wp_or_else, wp_call; intros y w5 Ec; destruct (Close_dirs _ _ _ _ Ec) as [Hd5 Hok]; apply Close_spec in Ec as [Hf5 Hh5];
    [|by specialize (Hok (Hh4 Hh3))].
  apply wp_ret. split; [done|]. exists (string_bytes t). split; [split_and!; [auto| |congruence]|].
  - rewrite Hf5, Hf4, Hf3, Hname. apply insert_insert_eq.
  - exists t. split; [apply lookup_insert_eq|done].
Qed.

(** The paths of a repository differ from each other, and are not above its directory
    (which is the case in a directory whose path is clean). *)
Definition good_paths (r : Repo) : Prop :=
  HasPrefix (rp_Path r) (rp_configPath r) = false /\ HasPrefix (rp_Path r) (keystore_path r) = false /\
  rp_configPath r <> keystore_path r /\ rp_configPath r <> key_path r /\ keystore_path r <> key_path r.

(** There is no repository yet. *)
Definition no_repo (r : Repo) (w : W) : Prop :=
  healthy w /\ files w !! rp_configPath r = None /\ rp_configPath r ∉ dirs w /\
  files w !! keystore_path r = None /\ keystore_path r ∉ dirs w.

(** A repository with a configuration and a key. *)
Definition repo_of (r : Repo) (c : Config) (key : PrivKey) (w : W) : Prop :=
  healthy w /\ has_config (rp_configPath r) c (files w) /\ keystore_path r ∈ dirs w /\
  exists b, files w !! key_path r = Some b /\ UnmarshalPrivateKey b = inl key.

Lemma initKeystore_spec r fs ds w :
  machine fs ds w -> fs !! keystore_path r = None -> keystore_path r ∉ ds ->
  wp (initKeystore r) w (fun o w' => o = Ret tt /\ machine fs ({[keystore_path r]} ∪ ds) w').
Proof.
  intros Hm Hn Hn'. unfold initKeystore. apply wp_bind. eapply wp_mono; [by apply path_exists_spec|].
  intros o w1 [(Hh & Hf & Hd) ->]. rewrite bool_decide_false by (intros [[? ?]|?]; [congruence|done]). apply wp_call.
  - intros [] w2 (Hf2 & Hh2 & Hd2)%Mkdir_spec. split; [done|]. split_and!; [auto|congruence..].
  - intros e w2 (_ & _ & _ & Hno)%Mkdir_spec. exfalso. subst. destruct (Hno Hh) as [?|[? ?]]; [done|congruence].
Qed.

Lemma GeneratePeerId_spec r fs ds w :
  machine fs ds w ->
  wp (GeneratePeerId r) w (fun o w' => exists key b, o = Ret key /\ UnmarshalPrivateKey b = inl key /\
    machine (<[key_path r := b]> fs) ds w').
Proof.
  intros (Hh & Hf & Hd). unfold GeneratePeerId, setPeerId. apply wp_bind, wp_call.
  2: { intros e w1 (_ & _ & _ & Hno)%GenerateKey_spec. done. }
  intros key w1 (Hf1 & Hd1 & Hh1 & _)%GenerateKey_spec. destruct (PrivateKey_roundtrip key) as (b & Hb & Hb').
  rewrite Hb. apply wp_bind, wp_ret, wp_bind, wp_call.
  - intros [] w2 (Hd2 & Hh2 & Hf2)%WriteFile_spec. apply wp_ret. exists key, b. split; [done|]. split; [done|].
    split_and!; [auto|congruence..].
  - intros e w2 (_ & _ & Hno)%WriteFile_spec. destruct Hno. auto.
Qed.

Lemma MkdirAll_machine p w :
  healthy w ->
  wp (made <- attempt (invoke (os_MkdirAll p)) ;;
      match made with
      | inr err => if os_IsExist err then ret tt else fail (Wrap ErrOpenFileFailed (Some err))
      | inl _ => ret tt
      end) w (fun o w' => o = Ret tt /\ exists ds, machine (files w) ds w' /\
        forall q, q ∈ ds -> q ∈ dirs w \/ HasPrefix p q = true).
Proof.
  intros Hh. apply wp_bind, wp_attempt, wp_call; intros x w' E;
    destruct (MkdirAll_spec _ _ _ _ E) as (Hf & Hh' & Hr), (MkdirAll_dirs _ _ _ _ E) as [_ Hd].
  - apply wp_ret. split; [done|]. exists (dirs w'). split; [split_and!; auto|done].
  - rewrite Hr by done. apply wp_ret. split; [done|]. exists (dirs w'). split; [split_and!; auto|done].
Qed.

Lemma Init_spec r addr size w :
  utf8 addr -> good_paths r -> no_repo r w ->
  wp (Init r addr size) w (fun o w' => o = Ret tt /\ exists key, repo_of r (with_chain addr size DefaultSaoNode) key w').
Proof.
  intros Ha (Hp1 & Hp2 & Hne1 & Hne2 & Hne3) (Hh & Hc & Hcd & Hk & Hkd). unfold Init, wrapping. apply wp_bind, wp_or_else.
  eapply wp_mono; [by apply (Exists_wp r (files w) (dirs w))|]. intros o w1 [(Hh1 & Hf1 & Hd1) ->].
  rewrite bool_decide_false by (intros [[? ?]|?]; [congruence|done]). apply wp_ret, wp_bind_group.
  apply wp_bind. eapply wp_mono; [by apply MkdirAll_machine|]. intros o w2 [-> (ds & Hm2 & Hds)].
  assert (forall q, q ∉ dirs w -> HasPrefix (rp_Path r) q = false -> q ∉ ds) as Hno.
  { intros q Hq Hpre [?|?]%Hds; congruence. }
  apply wp_or_else. eapply wp_mono; [apply (initConfig_spec r addr size _ _ _ Ha Hm2); [congruence|auto]|].
  intros o w3 [-> (b & Hm3 & Hcfg)]. apply wp_bind, wp_or_else.
  eapply wp_mono; [apply (initKeystore_spec r _ _ _ Hm3); [rewrite lookup_insert_ne by done; congruence|auto]|].
  intros o w4 [-> Hm4]. apply wp_ret, wp_bind, wp_or_else. eapply wp_mono; [by apply GeneratePeerId_spec|].
  intros o w5 (key & kb & -> & Hkey & Hh5 & Hf5 & Hd5). apply wp_ret, wp_ret. split; [done|]. exists key. split; [done|].
  rewrite Hf5, Hd5. split_and!.
  - destruct Hcfg as (t & Ht & Hdec). exists t. split; [|done]. by rewrite lookup_insert_ne.
  - set_solver.
  - exists kb. split; [apply lookup_insert_eq|done].
Qed.

Lemma repo_of_kept r c key w w' :
  repo_of r c key w -> files w' = files w -> dirs w' = dirs w -> (healthy w -> healthy w') -> repo_of r c key w'.
Proof. intros (Hh & Hc & Hd & Hk) Ef Ed Eh. unfold repo_of. rewrite Ef, Ed. auto. Qed.

(** A repository that is there is left as it is. *)
Lemma Init_again r c key addr size w :
  repo_of r c key w -> wp (Init r addr size) w (fun o w' => o = Ret tt /\ repo_of r c key w').
Proof.
  intros Hr. pose proof Hr as (Hh & _ & Hd & _). unfold Init, wrapping. apply wp_bind, wp_or_else.
  eapply wp_mono; [by apply (Exists_wp r (files w) (dirs w))|]. intros o w1 [(Hh1 & Hf1 & Hd1) ->].
  rewrite bool_decide_true by auto. apply wp_ret, wp_ret. split; [done|]. by eapply repo_of_kept.
Qed.

Lemma repo_Config_spec r c key w :
  repo_of r c key w -> wp (repo_Config r) w (fun o w' => o = Ret c /\ repo_of r c key w').
Proof.
  intros Hr. pose proof Hr as (Hh & (t & Ht & Hdec) & _ & _). unfold repo_Config, node_FromFile, node_FromReader.
  apply wp_bind, wp_attempt, wp_call.
  - intros f w1 Eo. pose proof (Open_dirs _ _ _ _ Eo) as Hd1. destruct (Open_spec _ _ _ _ Eo) as (Hf1 & Hh1 & _).
    apply wp_bind, wp_call.
    + intros b w2 Er. pose proof (ReadAll_dirs _ _ _ _ Er) as Hd2. destruct (ReadAll_spec _ _ _ _ _ _ Eo Er) as (Hf2 & Hh2 & Hb).
      rewrite Ht in Hb. injection Hb as <-. rewrite bytes_string_bytes, Hdec. apply wp_ret. split; [done|].
      eapply repo_of_kept; [done|congruence..|auto].
    + intros e w2 Er. destruct (ReadAll_spec _ _ _ _ _ _ Eo Er) as (_ & _ & Hb). rewrite Hb in Ht; [done|auto].
  - intros e w1 (_ & _ & Hn)%Open_spec. by rewrite Hn in Ht.
Qed.

Lemma PeerId_spec r c key w : repo_of r c key w -> wp (PeerId r) w (fun o _ => o = Ret key).
Proof.
  intros (Hh & _ & _ & b & Hb & Hkey). unfold PeerId, wrapping. apply wp_bind, wp_or_else, wp_call.
  - intros b' w' (_ & _ & Hb')%ReadFile_spec. rewrite Hb in Hb'. injection Hb' as <-. apply wp_ret. by rewrite Hkey.
  - intros e w' (_ & _ & Hn)%ReadFile_spec. by rewrite Hn in Hb.
Qed.

(** C30: on a working machine a repository is initialized, and what is read from it is
    what it was initialized with: the default configuration with the address of the
    chain and the size of the pool, and the generated key.  Initializing it again,
    with whatever values, changes nothing. *)
Theorem init_readable r addr size addr' size' w :
  utf8 addr -> good_paths r -> no_repo r w ->
  wp (Init r addr size ;; Init r addr' size' ;; c <- repo_Config r ;; key <- PeerId r ;; ret (c, key)) w
    (fun o _ => exists key, o = Ret (with_chain addr size DefaultSaoNode, key)).
Proof.
  intros Ha Hp Hn. apply wp_bind. eapply wp_mono; [by apply Init_spec|]. intros o w1 [-> (key & Hr)].
  apply wp_bind. eapply wp_mono; [by apply Init_again|]. intros o w2 [-> Hr2].
  apply wp_bind. eapply wp_mono; [by apply repo_Config_spec|]. intros o w3 [-> Hr3].
  apply wp_bind. eapply wp_mono; [by eapply PeerId_spec|]. intros o w4 ->. apply wp_ret. by exists key.
Qed.
End InitTheorems.
