(* ===== verification/NodeCmdTheorems.v ===== *)
(** * The commands of a node: what they pay, and what they declare

    [init_pays], [pool_pays]: the account is asked for the funds before they are
    spent, and no more is spent.  [init_refused]: a repository is initialized once.
    [declared_own]: the faults that a node declares are its own. *)
From stdpp Require Import base list gmap strings.
From Stdlib Require Import ZArith Lia Ascii.
From S2P Require Import Prelude Types StateUtils ChainApi Stage Chain NodeApi Upload UploadTheorems Client Config Repo ChainInfo NodeCmds.
From S2P Require Import RepoTheorems.

(** ** Address pools *)
Section Pool.
Context `{!ErrorText, !GoRange, !GoRangeLaws} {W : Type} `{!SaoTypes, !CosmosLib W, !KeyringLib W, !RandLib W, !FileSys W}.

Lemma load_addresses_size home l pool (s : W) :
  yields (load_addresses home l pool) s (fun p => (size (ap_Addresses p) <= size (ap_Addresses pool) + length l)%nat).
Proof.
  revert pool s. induction l as [|i l IH]; intros pool s; cbn [load_addresses]; [apply yields_ret; lia|]. apply yields_skip. intros [a|e] s1.
  - eapply yields_impl; [apply IH|]. intros p. cbn [ap_Addresses ap_set length]. rewrite map_size_insert. destruct (ap_Addresses pool !! a); cbn; lia.
  - eapply yields_impl; [apply IH|]. cbn. lia.
Qed.

(** A pool has at most as many addresses as it was asked for. *)
Lemma LoadAddressPool_size home n (s : W) :
  0 < n -> yields (LoadAddressPool home n) s (fun p => match p with Some ap => Z.of_nat (size (ap_Addresses ap)) <= n | None => True end).
Proof.
  intros Hn. unfold LoadAddressPool. destruct (n =? 0); [by apply yields_ret|]. skip.
  eapply yields_bind; [apply load_addresses_size|]. intros p s1 Hp. apply yields_ret. cbn in Hp.
  rewrite map_size_insert, lookup_empty, map_size_empty in Hp. unfold pool_indices in Hp. rewrite length_seqZ in Hp. lia.
Qed.

Lemma pool_addresses_NoDup ap : NoDup (pool_addresses ap) /\ length (pool_addresses ap) = size (ap_Addresses ap).
Proof.
  unfold pool_addresses. pose proof (range_perm (ap_Addresses ap)) as Hp. split.
  - rewrite Hp. apply NoDup_fst_map_to_list.
  - rewrite length_fmap, Hp. by rewrite length_map_to_list.
Qed.
End Pool.

Section Cmds.
Context `{!ErrorText, !CidLib, !GoRange, !GoRangeLaws, !ConfigToml, !JwtLib, !MultiaddrLib} {W : Type}.
Context `{!SaoTypes, !CosmosLib W, !KeyringLib W, !RandLib W, !FileSys W, !StatFiles W, !OpenFiles W, !RepoLib W,
          !RepoStores W, !EnvConfig W, !ChainStart W, !Console W, !NodeRpc W, !DescriptionLib, !UuidLib W, !ClientLib W}.
Abbreviation state := (nc (W := W)).

(** The chain has said that an account has an amount; a payment was made; a node was
    created. *)
Definition funded (creator : string) (amount : Z) : Prop :=
  exists (s1 s2 : state) coins, on_ch (GetBalance creator) s1 = (Ret coins, s2) /\ amount <= AmountOf DENOM coins.
Definition paid (creator address : string) (amount : Z) : Prop :=
  exists (s1 s2 : state) tx, on_ch (Send creator address amount) s1 = (Ret tx, s2).
Definition created (creator tx : string) : Prop := exists s1 s2 : state, on_ch (Create creator) s1 = (Ret tx, s2).

Lemma confirm_funds_spec fuel creator amount (s : state) : yields (confirm_funds fuel creator amount) s (fun _ => funded creator amount).
Proof.
  revert s. induction fuel as [|fuel IH]; intros s; [done|]. cbn [confirm_funds]. skip. destruct (negb _); [apply IH|].
  unfold yields, bind, attempt. match goal with |- context [on_ch (GetBalance creator) ?s] => destruct (on_ch (GetBalance creator) s) as [[coins|e| |] s2] eqn:E end;
    [|apply IH|done..].
  destruct (Z.ltb_spec (AmountOf DENOM coins) amount); [apply IH|]. cbn. by eexists _, _, coins.
Qed.

Lemma for_each_paid creator amount l (s : state) :
  yields (for_each l (fun address => _tx <- on_ch (Send creator address amount) ;; ret tt)) s
    (fun _ => Forall (fun a => paid creator a amount) l).
Proof.
  revert s. induction l as [|a l IH]; intros s; cbn [for_each]; [by apply yields_ret; constructor|].
  apply (yields_bind _ _ _ (fun _ => paid creator a amount)).
  - eapply yields_bind; [apply yields_run|]. intros tx s1 [s2 E]. apply yields_ret. by exists s, s2, tx.
  - intros ? s1 Ha. eapply yields_impl; [apply IH|]. by constructor.
Qed.

(** The payments to the addresses of a pool: at most [size] of them, each to another
    address. *)
Definition pays (creator : string) (size amount : Z) : Prop :=
  exists addresses, NoDup addresses /\ Z.of_nat (length addresses) <= size /\ Forall (fun a => paid creator a amount) addresses.

Lemma fund_made_pool cctx creator n amount (s : state) :
  0 < n -> yields (ap <- make_pool cctx n ;; fund_pool creator ap amount) s (fun _ => pays creator n amount).
Proof.
  intros Hn. apply (yields_bind _ _ _ (fun ap => Z.of_nat (size (ap_Addresses ap)) <= n)).
  - unfold make_pool. skip. eapply yields_bind; [apply yields_zoom; by apply LoadAddressPool_size|].
    intros [ap|] s1 Hap; [by apply yields_ret|done].
  - intros ap s1 Hap. unfold fund_pool. eapply yields_impl; [apply for_each_paid|]. cbn. intros Hp.
    destruct (pool_addresses_NoDup ap) as [Hnd Hl]. exists (pool_addresses ap). rewrite Hl. done.
Qed.

Lemma int64_of_small n : 0 <= n < two63 -> int64_of n = n.
Proof. intros Hn. unfold int64_of. rewrite wrap_u64_small, wrap_i64_small; unfold is_i64, is_u64, two64, two63 in *; lia. Qed.

(** [init] spends what it asked for: when it returns, the account has been seen to
    have 1100, the node was created, and what was sent to the addresses of the pool, to
    each the same, is 1000 at most. *)
Theorem init_pays fuel cctx (s : state) :
  let creator := nf_String cctx "creator" in
  let size := nf_Uint cctx "tx-pool-size" in
  yields (initCmd fuel cctx) s (fun tx =>
    funded creator 1100 /\ created creator tx /\
    (0 < size -> pays creator size (1000 / size) /\ size * (1000 / size) <= 1000)).
Proof.
  intros creator size. unfold initCmd. destruct (String.eqb _ ""); [done|]. do 4 skip.
  eapply yields_bind; [apply confirm_funds_spec|]. intros ? s5 Hf. fold creator in Hf |- *. fold size.
  apply (yields_bind _ _ _ (created creator)).
  { eapply yields_impl; [apply yields_run|]. intros tx [s6 E]. by exists s5, s6. }
  intros tx s6 Hc. destruct (Z.ltb_spec 0 size) as [Hs|Hs].
  - eapply yields_bind; [by apply fund_made_pool|]. intros ? s7 Hp. apply yields_ret. split; [done|]. split; [done|]. intros _.
    rewrite int64_of_small in Hp by (split; [apply Z.div_pos; lia|]; pose proof (Z.div_le_upper_bound 1000 size 1000); unfold two63; nia).
    split; [done|]. apply Z.mul_div_le. lia.
  - skip. apply yields_ret. split; [done|]. split; [done|]. lia.
Qed.

(** The same of the command that makes a pool later, with the amount of the command
    line: it asks for 1000 more than it spends - unless that is too large for a signed
    number, in which case it asks for a negative balance. *)
Lemma pool_pays fuel cctx (s : state) :
  let creator := nf_String cctx "creator" in
  let size := nf_Uint cctx "tx-pool-size" in
  let amount := nf_Uint cctx "pool-token-amount" in
  0 <= amount < two63 - 1000 ->
  yields (initTxAddressPoolCmd fuel cctx) s (fun _ =>
    0 < size /\ funded creator (amount + 1000) /\ (0 < amount -> pays creator size (amount / size) /\ size * (amount / size) <= amount)).
Proof.
  intros creator size amount Ha. unfold initTxAddressPoolCmd. do 2 skip. fold creator size amount. destruct (Z.leb_spec size 0) as [?|Hs]; [done|].
  eapply yields_bind; [apply confirm_funds_spec|]. intros ? s3 Hf. rewrite int64_of_small in Hf by lia.
  destruct (Z.ltb_spec 0 amount) as [Hp|Hp].
  - eapply yields_impl; [by apply fund_made_pool|]. intros ? Hpay. split; [done|]. split; [done|]. intros _.
    rewrite int64_of_small in Hpay by (split; [apply Z.div_pos; lia|]; pose proof (Z.div_le_upper_bound amount size amount); nia).
    split; [done|]. apply Z.mul_div_le. lia.
  - skip. apply yields_ret. split; [done|]. split; [done|]. lia.
Qed.

(** ** Faults *)

(** A fault of a shard of the chain, with its order; the node is the provider, and the
    one that reports it. *)
Definition own_fault (creator : string) (shardId : Z) (f : Fault) : Prop :=
  exists (s1 s2 s3 s4 : state) shard order,
    on_ch (GetShard shardId) s1 = (Ret shard, s2) /\ on_ch (GetOrder (sh_OrderId shard)) s3 = (Ret order, s4) /\
    f = MkFault (fo_DataId order) (fo_Id order) shardId (hd "" (Split (fo_Commit order) commit_sep)) creator creator.

Lemma declared_faults creator shardIds found (s : state) :
  yields (fold_m (fun l shardId => f <- declared_fault creator shardId ;; ret (l ++ [f])) found shardIds) s
    (fun faults => exists l, faults = found ++ l /\ Forall2 (own_fault creator) shardIds l).
Proof.
  revert found s. induction shardIds as [|i l IH]; intros found s; cbn [fold_m].
  - apply yields_ret. exists []. by rewrite app_nil_r.
  - apply (yields_bind _ _ _ (fun l => exists f, l = found ++ [f] /\ own_fault creator i f)).
    + unfold declared_fault. eapply yields_bind; [|intros f s1 Hf; apply yields_ret; exists f; split; [done|exact Hf]].
      eapply yields_bind; [apply yields_run|]. intros shard s1 [s1' E1].
      eapply yields_bind; [apply yields_run|]. intros order s2 [s2' E2]. apply yields_ret.
      by exists s, s1', s1, s2', shard, order.
    + intros ? s1 (f & -> & Hf). eapply yields_impl; [apply IH|]. intros faults (k & -> & Hk). exists (f :: k).
      split; [by rewrite <-app_assoc|by constructor].
Qed.

(** What is declared as recovered: a fault for each shard, in their order, of the chain's
    order of the shard. *)
Lemma declared_own cctx (s : state) :
  yields (declareFaultsRecoverCmd cctx) s (fun ids => exists creator faults,
    Forall2 (own_fault creator) (nf_Uint64Slice cctx "shard-ids") faults /\
    exists s1 s2 : state, on_ch (RecoverFaults creator creator faults) s1 = (Ret ids, s2)).
Proof.
  unfold declareFaultsRecoverCmd. apply yields_skip; intros creator s1. destruct (Nat.eqb _ _); [done|]. skip.
  eapply yields_bind; [apply declared_faults|]. intros faults s3 (l & -> & Hl). cbn [app].
  eapply yields_impl; [apply yields_run|]. intros ids [s4 E]. exists creator, l. split; [done|]. by exists s3, s4.
Qed.

(** ** A repository is initialized once *)
Context `{!FileLaws W, !OpenLaws W, !RepoLaws W}.

(** When there is a repository, also one of an initialization that has failed after
    making it, the command ends before anything is sent or changed. *)
Lemma init_refused fuel cctx r c key (s : state) :
  nf_ChainAddress cctx <> "" -> NewRepo (nf_String cctx FlagStorageRepo) (ch_c (nc_ch s)) = (Ret r, ch_c (nc_ch s)) ->
  repo_of r c key (ch_c (nc_ch s)) ->
  wp (initCmd fuel cctx) s (fun o s' =>
    o = Fail (Wrapf ErrInitRepoFailed ("repo at '" +:+ nf_String cctx FlagStorageRepo +:+ "' is already initialized")) /\
    repo_of r c key (ch_c (nc_ch s')) /\ nc_ds s' = nc_ds s).
Proof.
  intros Ha Hr Hrepo. pose proof Hrepo as (Hh & _ & Hd & _). unfold initCmd. rewrite (proj2 (String.eqb_neq _ _)) by done.
  apply wp_bind. unfold initRepo. apply wp_bind. unfold on_w at 1. apply wp_zoom. unfold wp at 1. rewrite Hr. cbn [fst snd].
  apply wp_bind. unfold wrapping. apply wp_or_else. unfold on_w at 1. apply wp_zoom.
  eapply wp_mono; [by apply (Exists_wp r (files (ch_c (nc_ch s))) (dirs (ch_c (nc_ch s))))|].
  intros o w1 [(Hh1 & Hf1 & Hd1) ->]. rewrite bool_decide_true by auto. apply wp_ret, wp_fail. split; [done|]. split; [|done].
  by eapply repo_of_kept.
Qed.
End Cmds.
