(* ===== verification/NodeSpending.v ===== *)
(** * What [init] spends

    The transfers that were executed are listed in [transfers], with who paid, who was
    paid and how much.  [init_spends]: whatever happens, [init] only pays addresses of
    the pool that it has loaded, each at most once and in their order, at most 1000 in
    all, of the account of the node, and only after it has seen that the account has
    1100 and the node was created; when it returns, each address of the pool was paid
    its share. *)
From stdpp Require Import base list gmap strings.
From Stdlib Require Import ZArith Lia Ascii.
From S2P Require Import Prelude Types StateUtils ChainApi Stage Chain NodeApi Upload UploadTheorems Client Config Repo ChainInfo NodeCmds.
From S2P Require Import RepoTheorems NodeCmdTheorems.

(** A transfer: who pays, who is paid, and how much. *)
Definition transfer_of : Type := string * string * Z.

(** A call that transfers nothing. *)
Definition frugal {W A} (transfers : W -> list transfer_of) (c : call W A) : Prop :=
  forall w, transfers (c w).2 = transfers w.

(** [transfers w] are the transfers that were executed.  A transaction that was made for
    an account transfers, once broadcast, from the account to the one it names - it
    may not be executed when it fails, and is executed when its code is zero; nothing
    else transfers. *)
Class BankLaws (W : Type) `{!SaoTypes, !CosmosLib W, !KeyringLib W, !FileSys W, !StatFiles W, !OpenFiles W, !RepoLib W,
    !RepoStores W, !EnvConfig W, !ChainStart W, !Console W} := {
  transfers : W -> list transfer_of;
  account_of : CosmosAccount -> string;
  transfer : bytes -> transfer_of;
  Account_spec a w x w' : cosmos_Account a w = (inl x, w') -> account_of x = a;
  BankSend_spec x to denom n w tx w' : BankSendTx x to denom n w = (inl tx, w') -> transfer tx = (account_of x, to, n);
  Broadcast_spec tx w :
    transfers (tx_Broadcast tx w).2 = transfers w \/ transfers (tx_Broadcast tx w).2 = transfers w ++ [transfer tx];
  Broadcast_done tx w r w' : tx_Broadcast tx w = (inl r, w') -> tx_Code r = 0 ->
    transfers w' = transfers w ++ [transfer tx];
  Account_frugal a : frugal transfers (cosmos_Account a);
  Msg_frugal x m : frugal transfers (BroadcastTx x m);
  BankSend_frugal x to denom n : frugal transfers (BankSendTx x to denom n);
  cosmos_New_frugal a k : frugal transfers (cosmos_New a k);
  NetVersion_frugal : frugal transfers q_NetVersion;
  http_New_frugal a e : frugal transfers (http_New a e);
  Balances_frugal a : frugal transfers (BankBalances a);
  registry_New_frugal h : frugal transfers (registry_New h);
  GetByName_frugal r n : frugal transfers (GetByName r n);
  NewEntropy_frugal n : frugal transfers (NewEntropy n);
  NewAccount_frugal r n m h a : frugal transfers (NewAccount r n m h a);
  MkdirAll_frugal p : frugal transfers (os_MkdirAll p);
  Create_frugal p : frugal transfers (os_Create p);
  Write_frugal f b : frugal transfers (file_Write f b);
  Close_frugal f : frugal transfers (file_Close f);
  Stat_frugal p : frugal transfers (os_Stat p);
  WriteFile_frugal p b : frugal transfers (os_WriteFile p b);
  Open_frugal p : frugal transfers (os_Open p);
  ReadAll_frugal b : frugal transfers (io_ReadAll b);
  Mkdir_frugal p : frugal transfers (os_Mkdir p);
  GenerateKey_frugal : frugal transfers GenerateEd25519Key;
  Env_frugal p c : frugal transfers (env_Process p c);
  store_Open_frugal c p r : frugal transfers (store_Open c p r);
  store_Put_frugal d k b : frugal transfers (store_Put d k b);
  ReadLine_frugal : frugal transfers ReadLine
}.

Section Spending.
Context `{!ErrorText, !CidLib, !GoRange, !GoRangeLaws, !ConfigToml, !JwtLib, !MultiaddrLib} {W : Type}.
Context `{!SaoTypes, !CosmosLib W, !KeyringLib W, !RandLib W, !FileSys W, !StatFiles W, !OpenFiles W, !RepoLib W,
          !RepoStores W, !EnvConfig W, !ChainStart W, !Console W, !NodeRpc W, !DescriptionLib, !UuidLib W, !ClientLib W, !BankLaws W}.
Abbreviation state := (nc (W := W)).

(** ** Computations that transfer nothing *)
Definition same (w w' : W) : Prop := transfers w' = transfers w.
#[local] Instance same_preorder : PreOrder same.
Proof. split; [by intros w|]. unfold same. intros w1 w2 w3. congruence. Qed.
Definition world (s : state) : W := ch_c (nc_ch s).
Definition same_s (s s' : state) : Prop := same (world s) (world s').
#[local] Instance same_s_preorder : PreOrder same_s.
Proof. split; [by intros s|]. intros s1 s2 s3. unfold same_s. apply transitivity. Qed.
Definition same_c (s s' : ch (C := W)) : Prop := same (ch_c s) (ch_c s').
#[local] Instance same_c_preorder : PreOrder same_c.
Proof. split; [by intros s|]. intros s1 s2 s3. unfold same_c. apply transitivity. Qed.
Definition same_r (s s' : rs (W := W)) : Prop := same (rs_w s) (rs_w s').
#[local] Instance same_r_preorder : PreOrder same_r.
Proof. split; [by intros s|]. intros s1 s2 s3. unfold same_r. apply transitivity. Qed.

Lemma frugal_invoke {A} (c : call W A) : frugal transfers c -> steps same (invoke c).
Proof. intros Hc w. unfold invoke. specialize (Hc w). by destruct (c w) as [[]]. Qed.
#[local] Hint Extern 2 (steps same (invoke _)) => apply frugal_invoke : go.
#[local] Hint Resolve Account_frugal Msg_frugal BankSend_frugal cosmos_New_frugal NetVersion_frugal http_New_frugal Balances_frugal
  registry_New_frugal GetByName_frugal NewEntropy_frugal NewAccount_frugal MkdirAll_frugal Create_frugal Write_frugal Close_frugal
  Stat_frugal WriteFile_frugal Open_frugal ReadAll_frugal Mkdir_frugal GenerateKey_frugal Env_frugal store_Open_frugal
  store_Put_frugal ReadLine_frugal : go.

Lemma on_w_same {A} (m : GoM W A) : steps same m -> steps same_s (on_w m).
Proof. intros Hm. apply steps_zoom. intros s. apply Hm. Qed.
Lemma on_ch_same {A} (m : GoM (ch (C := W)) A) : steps same_c m -> steps same_s (on_ch m).
Proof. intros Hm. apply steps_zoom. intros s. apply Hm. Qed.
Lemma on_rs_same {A} (m : GoM (rs (W := W)) A) : steps same_r m -> steps same_s (on_rs m).
Proof. intros Hm. apply steps_zoom. intros s. cbn. apply (Hm (Rs (ch_c (nc_ch s)) (nc_ds s))). Qed.
Lemma on_c_same {A} (m : GoM W A) : steps same m -> steps same_c (on_c m).
Proof. intros Hm. apply steps_zoom. intros s. apply Hm. Qed.
Lemma on_disk_same {A} (m : GoM W A) : steps same m -> steps same_r (on_disk m).
Proof. intros Hm. apply steps_zoom. intros s. apply Hm. Qed.
Lemma wrapping_steps {S A} (R : S -> S -> Prop) `{!PreOrder R} e (m : GoM S A) : steps R m -> steps R (wrapping e m).
Proof. intros Hm. unfold wrapping. go_steps. Qed.

(** Takes a computation apart, through the liftings. *)
Ltac frugally :=
  repeat (intros; cbv beta; lazymatch goal with
    | |- steps _ (wrapping _ _) => apply wrapping_steps; [typeclasses eauto|]
    | |- steps _ (on_w _) => apply on_w_same
    | |- steps _ (on_ch _) => apply on_ch_same
    | |- steps _ (on_rs _) => apply on_rs_same
    | |- steps _ (on_c _) => apply on_c_same
    | |- steps _ (on_disk _) => apply on_disk_same
    | |- steps _ (attempt _) => apply steps_attempt
    | |- steps _ (or_else _ _ _) => apply steps_or_else; [typeclasses eauto| |intros ?|intros ?]
    | |- steps _ (bind _ _) => apply steps_bind; [typeclasses eauto| |intros ?]
    | |- steps _ (for_each _ _) => apply steps_for_each; [typeclasses eauto|intros ? _]
    | |- steps _ (match ?x with _ => _ end) => destruct x
    | |- steps _ (let '_ := ?x in _) => destruct x
    | |- steps _ (if ?b then _ else _) => destruct b
    | |- _ => solve [eauto with go]
    end).

Lemma registry_same h : steps same (newAccountRegistry h).
Proof. unfold newAccountRegistry. frugally. Qed.
#[local] Hint Resolve registry_same : go.
Lemma GetAddress_same h n : steps same (GetAddress h n).
Proof. unfold GetAddress. frugally. Qed.
#[local] Hint Resolve GetAddress_same : go.
Lemma ensure_address_same h i : steps same (ensure_address h i).
Proof. unfold ensure_address, generateAddressFromMnemonic, GenerateAccount, GenerateMnemonic. frugally. Qed.
#[local] Hint Resolve ensure_address_same : go.
Lemma load_addresses_same h l p : steps same (load_addresses h l p).
Proof. revert p. induction l as [|i l IH]; intros p; cbn [load_addresses]; frugally. Qed.
#[local] Hint Resolve load_addresses_same : go.
Lemma LoadAddressPool_same h n : steps same (LoadAddressPool h n).
Proof. unfold LoadAddressPool. frugally. Qed.
#[local] Hint Resolve LoadAddressPool_same : go.
Lemma make_pool_same cctx n : steps same_s (make_pool cctx n).
Proof. unfold make_pool, CreateAddressPool. frugally. Qed.

Lemma path_exists_same p : steps same (path_exists p).
Proof. unfold path_exists. frugally. Qed.
#[local] Hint Resolve path_exists_same : go.
Lemma ConfigUpdate_same c d b : steps same (ConfigUpdate c d b).
Proof. unfold ConfigUpdate, FromReader, encoded. frugally. Qed.
#[local] Hint Resolve ConfigUpdate_same : go.
Lemma Init_same r a n : steps same (Init r a n).
Proof. unfold Init, initConfig, initKeystore, GeneratePeerId, setPeerId, Exists. frugally. Qed.
#[local] Hint Resolve Init_same : go.
Lemma initRepo_same p a n : steps same_s (initRepo p a n).
Proof. unfold initRepo, NewRepo, Exists. frugally. Qed.
Lemma read_config_same r : steps same_s (read_config r).
Proof. unfold read_config, repo_Config, node_FromFile, node_FromReader. frugally. Qed.
Lemma open_one_same r b out e : steps same (open_one r b out e).
Proof. unfold open_one. frugally. Qed.
Lemma openDatastores_same r b : steps same (openDatastores r b).
Proof.
  unfold openDatastores. frugally. generalize (range fsDatastores) (∅ : gmap string string). intros l.
  induction l as [|e l IH]; intros out; cbn [fold_m]; [frugally|]. apply steps_bind; [typeclasses eauto|apply open_one_same|auto].
Qed.
#[local] Hint Resolve openDatastores_same : go.
Lemma put_address_same r c : steps same_s (put_address r c).
Proof. unfold put_address, Datastore_. frugally. apply steps_modify. by intros ?. Qed.
Lemma start_chain_same cctx a : steps same_s (start_chain cctx a).
Proof. unfold start_chain, NewChainSvc. frugally. apply steps_modify. by intros ?. Qed.
Lemma confirm_funds_same fuel c n : steps same_s (confirm_funds fuel c n).
Proof. induction fuel as [|fuel IH]; cbn [confirm_funds]; [frugally|]. unfold GetBalance. frugally. Qed.
Lemma Create_same c : steps same_s (on_ch (Create c)).
Proof. unfold Create, tx_hash, checked, broadcast, run_job, find_account, send_tx. frugally. apply steps_modify. by intros ?. Qed.

(** ** The payments *)

(** [creator] pays each of the addresses [n]. *)
Definition shares (creator : string) (n : Z) (l : list string) : list transfer_of := (fun a => (creator, a, n)) <$> l.
(** Between two worlds it paid a first part of the addresses, or all. *)
Definition paid_by creator n (all : bool) (l : list string) (w w' : W) : Prop :=
  exists paid, paid `prefix_of` l /\ (all = true -> paid = l) /\ transfers w' = transfers w ++ shares creator n paid.

Definition returned {A} (o : outcome A) : bool := match o with Ret _ => true | _ => false end.

Lemma paid_nothing creator n l w w' : same w w' -> paid_by creator n false l w w'.
Proof. intros K. exists []. split_and!; [apply prefix_nil|done|by rewrite app_nil_r]. Qed.

Lemma Send_paid creator to n (s : state) :
  wp (on_ch (Send creator to n)) s (fun o s' => paid_by creator n (returned o) [to] (world s) (world s')).
Proof.
  unfold on_ch, world. apply wp_zoom. unfold Send, tx_hash, checked, wrapping.
  apply wp_bind, wp_or_else. unfold on_c at 1. apply wp_zoom, wp_call; intros x w1 E1;
    pose proof (Account_frugal creator (ch_c (nc_ch s))) as K1; rewrite E1 in K1; cbn [snd] in K1;
    [apply wp_ret|by apply wp_fail, paid_nothing].
  apply wp_bind, wp_or_else. unfold on_c at 1. apply wp_zoom, wp_call; cbn [ch_c]; intros tx w2 E2;
    pose proof (BankSend_frugal x to DENOM n w1) as K2; rewrite E2 in K2; cbn [snd] in K2;
    (assert (transfers w2 = transfers (ch_c (nc_ch s))) as K12 by congruence);
    [apply wp_ret|by apply wp_fail, paid_nothing].
  assert (transfer tx = (creator, to, n)) as Ht.
  { rewrite (BankSend_spec _ _ _ _ _ _ _ E2). by rewrite (Account_spec _ _ _ _ E1). }
  apply wp_bind, wp_bind, wp_or_else. unfold on_c at 1. apply wp_zoom, wp_call; cbn [ch_c]; intros r w3 E3;
    pose proof (Broadcast_spec tx w2) as K3; rewrite E3, Ht, K12 in K3; cbn [snd] in K3;
    (assert (paid_by creator n false [to] (ch_c (nc_ch s)) w3) as K
      by (destruct K3 as [K3|K3]; [by apply paid_nothing|by exists [to]]));
    [apply wp_ret|apply wp_fail; exact K].
  destruct (Z.eqb_spec (tx_Code r) 0) as [Hr|Hr]; cbn [negb]; [|apply wp_fail; exact K].
  apply wp_ret, wp_ret. cbn [nc_ch ch_c]. pose proof (Broadcast_done _ _ _ _ E3 Hr) as Hd. rewrite Ht, K12 in Hd.
  by exists [to].
Qed.

Lemma payments creator n l (s : state) :
  wp (for_each l (fun address => _tx <- on_ch (Send creator address n) ;; ret tt)) s (fun o s' =>
    paid_by creator n (returned o) l (world s) (world s')).
Proof.
  revert s. induction l as [|a l IH]; intros s; cbn [for_each].
  - apply wp_ret. exists []. by rewrite app_nil_r.
  - apply wp_bind, wp_bind. eapply wp_mono; [by apply Send_paid|].
    intros o s1 (paid & Hp & Hall & E).
    destruct o as [tx|e| |]; [|by (exists paid; split_and!; [apply (prefix_app_r _ [a] l)| |])..].
    apply wp_ret. eapply wp_mono; [apply IH|]. rewrite (Hall eq_refl) in E. intros o s2 (paid2 & Hp2 & Hall2 & E2).
    exists (a :: paid2). split_and!; [by apply prefix_cons|by intros ->%Hall2|]. by rewrite E2, E, <- app_assoc.
Qed.

(** A pool that was made has at least one address, and at most as many as it was asked
    for. *)
Lemma load_addresses_some home l pool (w : W) :
  ap_Addresses pool <> ∅ -> yields (load_addresses home l pool) w (fun p => ap_Addresses p <> ∅).
Proof.
  revert pool w. induction l as [|i l IH]; intros pool w Hp; cbn [load_addresses]; [by apply yields_ret|]. apply yields_skip. intros [a|e] s1.
  - apply IH. apply insert_non_empty.
  - by apply IH.
Qed.
Lemma LoadAddressPool_some home n (w : W) :
  yields (LoadAddressPool home n) w (fun p => match p with Some ap => ap_Addresses ap <> ∅ | None => True end).
Proof.
  unfold LoadAddressPool. destruct (n =? 0); [by apply yields_ret|]. skip.
  eapply yields_bind; [apply load_addresses_some, insert_non_empty|]. intros p s1 Hp. by apply yields_ret.
Qed.
Lemma make_pool_size cctx n (s : state) :
  0 < n -> yields (make_pool cctx n) s (fun ap => 0 < Z.of_nat (size (ap_Addresses ap)) <= n).
Proof.
  intros Hn. unfold make_pool. skip.
  eapply (yields_bind _ _ _ (fun p => match p with Some ap => 0 < Z.of_nat (size (ap_Addresses ap)) <= n | None => True end)).
  - apply yields_zoom. match goal with |- yields ?m ?w _ => pose proof (LoadAddressPool_size (nf_KeyringHome cctx) n w Hn) as Ka;
      pose proof (LoadAddressPool_some (nf_KeyringHome cctx) n w) as Kb end.
    unfold yields in *. destruct (LoadAddressPool _ _ _).1 as [[ap|]| | |]; [|done..]. apply map_size_non_empty_iff in Kb. lia.
  - intros [ap|] s1 Ka; [by apply yields_ret|done].
Qed.

(** ** The command *)
Section Init.
Context (cctx : ncli) (s0 : state).
Let creator : string := nf_String cctx "creator".
Let pool : Z := nf_Uint cctx "tx-pool-size".

(** The addresses of the pool that [init] has loaded, in the state in which its payments
    began that ended in [s']; there is none when none is asked for. *)
Definition of_pool (addresses : list string) (s' : state) : Prop :=
  if 0 <? pool then exists ap s1 s2, make_pool cctx pool s1 = (Ret ap, s2) /\
    (fund_pool creator ap (int64_of (1000 / pool)) s2).2 = s' /\ addresses = pool_addresses ap /\ addresses <> []
  else addresses = [].

(** How the command may end: the payments, and what was seen before there is any. *)
Definition spends (o : outcome string) (s' : state) : Prop :=
  exists addresses paid,
    NoDup addresses /\ paid `prefix_of` addresses /\ Z.of_nat (length addresses) <= Z.max 0 pool /\
    transfers (world s') = transfers (world s0) ++ shares creator (1000 / pool) paid /\
    Z.of_nat (length paid) * (1000 / pool) <= 1000 /\
    (paid <> [] -> of_pool addresses s' /\ funded creator 1100 /\ exists tx, created creator tx) /\
    match o with
    | Ret tx => funded creator 1100 /\ created creator tx /\ of_pool addresses s' /\ paid = addresses
    | _ => True
    end.

Lemma nothing_spent o s' : same_s s0 s' -> (forall tx, o <> Ret tx) -> spends o s'.
Proof.
  intros Ks Ko. exists [], []. split_and!; [constructor|done|cbn; lia|by rewrite app_nil_r|cbn; lia|done|].
  destruct o; [by destruct (Ko a)|done..].
Qed.

(** A step that transfers nothing. *)
Lemma calm_bind {A} (m : GoM state A) (k : A -> GoM state string) s :
  same_s s0 s -> steps same_s m -> (forall a s', same_s s0 s' -> m s = (Ret a, s') -> wp (k a) s' spends) ->
  wp (bind m k) s spends.
Proof.
  intros Ks Km Kk. apply wp_bind, (wp_steps _ _ _ _ Km). intros o s' E Kstep.
  assert (same_s s0 s') as Ks' by (etrans; [exact Ks|exact Kstep]). destruct o; [by apply Kk|by apply nothing_spent..].
Qed.

Lemma funding_spends tx s : 0 < pool -> same_s s0 s -> funded creator 1100 -> created creator tx ->
  wp (ap <- make_pool cctx pool ;; fund_pool creator ap (int64_of (1000 / pool))) s (fun o s' =>
    spends (match o with Ret _ => Ret tx | Fail e => Fail e | Panic => Panic | OutOfFuel => OutOfFuel end) s').
Proof.
  intros Kp Ks Kf Kc. pose proof (make_pool_size cctx pool s Kp) as Kn. apply wp_bind, (wp_steps _ _ _ _ (make_pool_same cctx pool)).
  intros o s1 E Kstep. assert (same_s s0 s1) as Ks1 by (etrans; [exact Ks|exact Kstep]). unfold yields in Kn. rewrite E in Kn. cbn [fst] in Kn.
  destruct o as [ap|e| |]; try by apply nothing_spent. 
  assert (0 <= 1000 / pool <= 1000) as Kd by (split; [apply Z.div_pos; lia|apply Z.div_le_upper_bound; nia]).
  unfold wp. destruct (fund_pool _ _ _ s1) as [o s2] eqn:Efund.
  pose proof (payments creator (int64_of (1000 / pool)) (pool_addresses ap) s1) as Kpay.
  unfold fund_pool in Efund. unfold wp in Kpay. rewrite Efund in Kpay.
  destruct Kpay as (paid & Hpre & Hall & Et). rewrite int64_of_small in Et by (unfold two63; lia). destruct (pool_addresses_NoDup ap) as [Knd Kl].
  assert (of_pool (pool_addresses ap) s2) as Kof.
  { unfold of_pool. rewrite (proj2 (Z.ltb_lt _ _) Kp). exists ap, s, s1.
    split_and!; [done|unfold fund_pool; by rewrite Efund|done|]. intros Eap. rewrite Eap in Kl. cbn in Kl. lia. }
  exists (pool_addresses ap), paid. split_and!; [done..|lia|by rewrite Et, Ks1| |eauto|].
  - apply prefix_length in Hpre. pose proof (Z.mul_div_le 1000 pool Kp). nia.
  - destruct o; try done. split_and!; [done..|by apply Hall].
Qed.

(** C37: what [init] spends.  Whatever happens, the only transfers are from the account
    of the node to addresses of the pool that it has loaded, the share 1000/size to
    each, no address twice and at most 1000 in all; anything is paid only after the
    account was seen to have 1100 and the node was created.  When the command
    returns, every address of the pool was paid its share; the pool is not empty and
    has not more addresses than were asked for. *)
Theorem init_spends fuel : wp (initCmd fuel cctx) s0 spends.
Proof.
  unfold initCmd. destruct (String.eqb _ ""); [apply wp_fail, nothing_spent; done|]. fold creator pool.
  apply calm_bind; [done|apply initRepo_same|]. intros r s1 K1 _.
  apply calm_bind; [done|apply read_config_same|]. intros c s2 K2 _.
  apply calm_bind; [done|apply put_address_same|]. intros u1 s3 K3 _.
  apply calm_bind; [done|apply start_chain_same|]. intros u2 s4 K4 _.
  apply calm_bind; [done|apply confirm_funds_same|]. intros u3 s5 K5 E5.
  pose proof (confirm_funds_spec fuel creator 1100 s4) as Kf. unfold yields in Kf. rewrite E5 in Kf. cbn [fst] in Kf.
  apply calm_bind; [done|apply Create_same|]. intros tx s6 K6 E6.
  assert (created creator tx) as Kc by (by exists s5, s6). apply wp_bind. destruct (Z.ltb_spec 0 pool) as [Kp|Kp].
  - eapply wp_mono; [by apply (funding_spends tx)|]. cbv beta. intros [u|e| |] s7 Ks; [by apply wp_ret|exact Ks..].
  - apply wp_ret, wp_ret. exists [], []. unfold of_pool. rewrite (proj2 (Z.ltb_ge _ _) Kp).
    split_and!; [constructor|done|cbn; lia|by rewrite app_nil_r|cbn; lia|done..].
Qed.
End Init.
End Spending.
