(* ===== verification/NodeStartTheorems.v ===== *)
(** * Starting a node: what it announces, and who may call it

    [newRpcServer_open]: permissions are not asked for, or the server panics.
    [node_started]: a node that has started.  [update_agrees]: the status that the
    command [update] announces.  [tokens_verify]: tokens of the node. *)
From stdpp Require Import base list gmap strings.
From Stdlib Require Import ZArith Lia Ascii.
From S2P Require Import Prelude Types StateUtils Cbor CborTypes Instances StoreManager.
From S2P Require Import ChainApi Stage Chain NodeApi Upload UploadTheorems Client Config Repo ChainInfo NodeCmds Ipfs.
From S2P Require Import NodeStart RepoTheorems.

(** A method without a permission cannot be proxied. *)
Class AuthLaws `{!AuthLib} := {
  Proxy_needs_tags valid defaults tags m : (m, "") ∈ tags -> PermissionedProxy valid defaults tags = None
}.
(** A token says, with the key that it was signed with, what was signed. *)
Class JwtLaws `{!JwtLib} := {
  Jwt_roundtrip perms key : exists token, jwt_Sign perms key = inl token /\ jwt_Verify token key = inl perms
}.

(** The status of a node with a configuration. *)
Definition node_status (cfg : Config) : Z :=
  let status := NODE_STATUS_ONLINE in
  let status := if StorageEnable (cf_Module cfg) then
                  let status := Z.lor status NODE_STATUS_SERVE_STORAGE in
                  if AcceptOrder (cf_Storage cfg) then Z.lor status NODE_STATUS_ACCEPT_ORDER else status
                else status in
  let status := if GatewayEnable (cf_Module cfg) then Z.lor status NODE_STATUS_SERVE_GATEWAY else status in
  if IndexerEnable (cf_Module cfg) then Z.lor status NODE_STATUS_SERVE_INDEXER else status.

(** The command that updates a node announces the status of the node, as its
    configuration has it, exactly when the node has no indexer and, if it stores,
    accepts orders as the command says - the bit of the indexer is never set, and a
    command that does not refuse orders accepts them. *)
Theorem update_agrees accept cfg :
  update_status accept cfg = node_status cfg <->
  IndexerEnable (cf_Module cfg) = false /\
  (StorageEnable (cf_Module cfg) = true -> accept = true -> AcceptOrder (cf_Storage cfg) = true).
Proof.
  unfold update_status, node_status. destruct (IndexerEnable _), (StorageEnable _), (GatewayEnable _), accept, (AcceptOrder _); cbn; intuition (discriminate || congruence).
Qed.

(** The functions that stop a node. *)
Definition stops_of (cfg : Config) : list StopFunc :=
  (if cf_SaoIpfs cfg then [StopIpfs] else []) ++ (if StorageEnable (cf_Module cfg) then [StopStorage] else []) ++
  (if GatewayEnable (cf_Module cfg) then if http_Enable (cf_Http cfg) then [StopModels; StopHttpFiles] else [StopModels] else []) ++
  (if IndexerEnable (cf_Module cfg) then [StopIndexer; StopGraphql] else []) ++ [StopRpc; StopChain; CloseNotify].

Section Start.
Context `{!ErrorText, !CidLib, !GoRange, !ConfigToml, !JwtLib, !MultiaddrLib, !AuthLib, !AuthLaws} {W : Type}.
Context `{!SaoTypes, !CosmosLib W, !KeyringLib W, !RandLib W, !FileSys W, !StatFiles W, !OpenFiles W, !RepoLib W,
          !RepoStores W, !EnvConfig W, !ChainStart W, !Console W, !HostLib W, !Services W, !IpfsClient W, !Kubo W}.

(** ** The API *)
Lemma no_proxy : PermissionedSaoNodeAPI = None.
Proof.
  unfold PermissionedSaoNodeAPI. apply (Proxy_needs_tags _ _ _ "FaultsCheck"). apply list_elem_of_In. cbn. tauto.
Qed.

(** Everybody may do everything. *)
Definition open (verify : string -> GoM W (list string)) : Prop := forall token w, verify token w = (Ret AllPermissions, w).

(** The permissions of the API are never enforced: with [EnablePermission] the server
    panics when it is made, because methods have no permission; without it, every
    request may do everything, whatever its token. *)
Lemma newRpcServer_open r cfg w :
  wp (newRpcServer r cfg) w (fun o _ =>
    if EnablePermission cfg then o = Panic
    else match o with Ret verify => open verify | Fail _ => True | _ => False end).
Proof.
  unfold newRpcServer, GatewayRpcHandler. destruct (EnablePermission cfg).
  - rewrite no_proxy. apply wp_or_else. by apply wp_bind.
  - apply wp_or_else, wp_ret, wp_or_else. destruct (NewMultiaddr _); [apply wp_ret|by apply wp_fail].
    apply wp_or_else, wp_call; intros ? ? _; [by apply wp_ret|by apply wp_fail].
Qed.

(** ** A node that has started *)
Lemma start_ipfs_stops r cfg s :
  yields (start_ipfs r cfg) s (fun x => x.1 = if cf_SaoIpfs cfg then [StopIpfs] else []).
Proof. unfold start_ipfs. destruct (cf_SaoIpfs cfg); [do 3 skip|]; by apply yields_ret. Qed.

Lemma start_storage_stops cfg addr path m status s :
  yields (start_storage cfg addr path m status) s (fun x => x = if StorageEnable (cf_Module cfg) then
        ([StopStorage], let status := Z.lor status NODE_STATUS_SERVE_STORAGE in
                        if AcceptOrder (cf_Storage cfg) then Z.lor status NODE_STATUS_ACCEPT_ORDER else status)
        else ([], status)).
Proof. unfold start_storage. destruct (StorageEnable _); [do 2 skip|]; by apply yields_ret. Qed.

Lemma start_gateway_stops r cfg addr status s :
  yields (start_gateway r cfg addr status) s (fun x => x = if GatewayEnable (cf_Module cfg) then
        (if http_Enable (cf_Http cfg) then [StopModels; StopHttpFiles] else [StopModels], Z.lor status NODE_STATUS_SERVE_GATEWAY)
        else ([], status)).
Proof.
  unfold start_gateway. destruct (GatewayEnable _); [|by apply yields_ret]. skip.
  apply (yields_bind _ _ _ (fun l => l = if http_Enable (cf_Http cfg) then [StopModels; StopHttpFiles] else [StopModels])).
  - destruct (http_Enable _); [skip|]; by apply yields_ret.
  - intros l s2 ->. by apply yields_ret.
Qed.

Lemma start_indexer_stops r cfg status s :
  yields (start_indexer r cfg status) s (fun x => x = if IndexerEnable (cf_Module cfg) then ([StopIndexer; StopGraphql], Z.lor status NODE_STATUS_SERVE_INDEXER)
                   else ([], status)).
Proof. unfold start_indexer. destruct (IndexerEnable _); [do 4 skip|]; by apply yields_ret. Qed.

(** The chain has said that the node has a pledge. *)
Definition pledged (nodeAddr : string) : Prop :=
  exists (s1 s2 : nc (W := W)) amount, on_ch (GetPledgeInfo nodeAddr) s1 = (Ret amount, s2) /\ 0 < amount.

Lemma has_pledged_true addr s :
  yields (has_pledged addr) s (fun b => b = true -> pledged addr).
Proof.
  unfold has_pledged, yields, bind, attempt. destruct (on_ch (GetPledgeInfo addr) s) as [[amount|err| |] s1] eqn:E; cbn; [| |done..].
  - intros Ha%Z.ltb_lt. exists s, s1, amount. by split.
  - by destruct (Contains _ _).
Qed.

Lemma confirm_pledge_spec fuel cfg addr s :
  yields (confirm_pledge fuel cfg addr) s (fun _ => StorageEnable (cf_Module cfg) || AcceptOrder (cf_Storage cfg) = true -> pledged addr).
Proof.
  revert s. induction fuel as [|fuel IH]; intros s; [done|]. cbn [confirm_pledge].
  destruct (StorageEnable _), (AcceptOrder _); cbn [negb andb orb] in *; [| | |by apply yields_ret]; skip; (destruct (negb _); [apply IH|]);
    (eapply yields_bind; [apply has_pledged_true|]; intros [] s2 Hb; [apply yields_ret; auto|apply IH]).
Qed.

(** The functions that stop the services were all called, and none failed. *)
Inductive stopped : list StopFunc -> W -> W -> Prop :=
| stopped_none w : stopped [] w w
| stopped_one f fs w u w1 w2 :
    stop_service f w = (inl u, w1) -> stopped fs w1 w2 -> stopped (f :: fs) w w2.

(** What it is to stop a node: its functions are called in the order in which the
    services were started, and an error leaves those after it uncalled. *)
Definition stops_in_order (fs : list StopFunc) (m : GoM W unit) : Prop := forall w,
  match m w with
  | (Ret _, w') => stopped fs w w'
  | (Fail e, w') => exists pre f post w1, fs = pre ++ f :: post /\ stopped pre w w1 /\ stop_service f w1 = (inr e, w')
  | _ => False
  end.

Lemma for_each_stops fs : stops_in_order fs (for_each fs (fun f => invoke (stop_service f))).
Proof.
  induction fs as [|f fs IH]; intros w; [constructor|]. cbn [for_each]. unfold bind, invoke.
  destruct (stop_service f w) as [[u|e] w1] eqn:E; [|by exists [], f, fs, w; split_and!; [|constructor|]].
  specialize (IH w1). destruct (for_each _ _ w1) as [[v|e| |] w2]; [by econstructor| |done..].
  destruct IH as (pre & f' & post & w3 & -> & Hpre & Hf'). exists (f :: pre), f', post, w3.
  split_and!; [done|by econstructor|done].
Qed.

(** What is announced: [peers], as it was read from the datastore of the transport,
    with the commas that may be at its end; without them it is a list of addresses
    that can be dialled.  The last thing that the start does is to announce it. *)
Definition announcement (n : Node) (s' : sns) : Prop :=
  exists (s1 : nc (W := W)) peers addresses tx,
    (exists (w w' : W), store_Get (n_tds n) (store_NewKey PEER_INFO_PREFIX) w = (inl peers, w')) /\
    Forall (fun p => exists a, NewMultiaddr p = inl a)
      (Split (if HasSuffix (bytes_string peers) "," then trim_commas (bytes_string peers) else bytes_string peers) ",") /\
    (TxPoolSize (cf_Chain (n_cfg n)) <= 0 -> addresses = []) /\
    on_ch (Reset (n_address n) (bytes_string peers) (node_status (n_cfg n)) addresses None) s1 = (Ret tx, st_nc s').

(** What a node is that has started, in the state [s'] of the run that started it. *)
Definition started (n : Node) (s' : sns) : Prop :=
  n_stopFuncs n = stops_of (n_cfg n) /\ stops_in_order (stops_of (n_cfg n)) (Node_Stop n) /\
  (StorageEnable (cf_Module (n_cfg n)) || AcceptOrder (cf_Storage (n_cfg n)) = true -> pledged (n_address n)) /\
  EnablePermission (cf_Api (n_cfg n)) = false /\ open (n_verify n) /\
  announcement n s'.

(** What a value that is returned is like, and the state it is returned in. *)
Definition returns {S A} (m : GoM S A) (s : S) (Q : A -> S -> Prop) : Prop :=
  match m s with (Ret a, s') => Q a s' | _ => True end.
Lemma returns_bind {S A B} (m : GoM S A) (k : A -> GoM S B) s (P : A -> Prop) Q :
  yields m s P -> (forall a t, P a -> returns (k a) t Q) -> returns (bind m k) s Q.
Proof. unfold yields, returns, bind. intros Hm Hk. destruct (m s) as [[a|e| |] s1]; [by apply Hk|done..]. Qed.
Lemma returns_skip {S A B} (m : GoM S A) (k : A -> GoM S B) s Q :
  (forall a t, returns (k a) t Q) -> returns (bind m k) s Q.
Proof. unfold returns, bind. intros Hk. destruct (m s) as [[a|e| |] s1]; [by apply Hk|done..]. Qed.
Ltac pass := apply returns_skip; intros ? ?.

Lemma valid_peers_spec wrap peers (s : W) :
  yields (valid_peers wrap peers) s (fun _ => Forall (fun p => exists a, NewMultiaddr p = inl a) (Split peers ",")).
Proof.
  unfold valid_peers. generalize (Split peers ","). intros l. revert s. induction l as [|p l IH]; intros s; cbn [for_each].
  - apply yields_ret. constructor.
  - apply (yields_bind _ _ _ (fun _ => exists a, NewMultiaddr p = inl a)).
    + unfold or_else, yields, bind, attempt. destruct (NewMultiaddr p); cbn; eauto.
    + intros _ s1 Hp. eapply yields_impl; [apply IH|]. by constructor.
Qed.

(** The text of the addresses that is kept. *)
Lemma kept_peers tds s :
  yields (wrapping ErrGetFailed (on_nc (on_w (invoke (store_Get tds (store_NewKey PEER_INFO_PREFIX)))))) s
    (fun b => exists (w w' : W), store_Get tds (store_NewKey PEER_INFO_PREFIX) w = (inl b, w')).
Proof.
  unfold wrapping, yields, or_else, bind, attempt, on_nc, on_w, zoom, invoke. cbn.
  destruct (store_Get _ _ _) as [[b|e] w] eqn:E; cbn; [by eauto|done].
Qed.

(** C31: the last thing a node does when it starts is to announce itself on the chain,
    with exactly the status of the modules it has, without addresses of a pool when it
    has none, and with the text of its addresses that it keeps in the datastore of the
    transport: each of them can be dialled once the commas at the end of the text are
    taken off, but the text is announced with them.  A node that has started has a
    pledge, unless it neither stores nor accepts orders; it serves its API to
    everybody; it has the functions that stop its modules, each once; and to stop it
    calls them in the order in which the modules were started, up to the first that
    fails, which leaves the modules after it running. *)
Theorem node_started fuel r keyringHome s n s' :
  NewNode fuel r keyringHome s = (Ret n, s') -> started n s'.
Proof.
  enough (returns (NewNode fuel r keyringHome) s started) as Hs by (intros E; unfold returns in Hs; by rewrite E in Hs).
  unfold NewNode. apply returns_skip; intros cfg s1. pass. apply returns_skip; intros abytes s2. set (addr := bytes_string abytes).
  pass. apply returns_skip; intros host s3. do 2 pass.
  apply (returns_bind _ _ _ (fun addresses => TxPoolSize (cf_Chain cfg) <= 0 -> addresses = [])).
  { destruct (Z.ltb_spec 0 (TxPoolSize (cf_Chain cfg))); [do 3 skip; apply yields_ret; lia|by apply yields_ret]. }
  intros addresses s4 Haddr. apply returns_skip; intros tds s5. do 3 pass.
  apply (returns_bind _ _ _ (fun b => exists (w w' : W), store_Get tds (store_NewKey PEER_INFO_PREFIX) w = (inl b, w'))).
  { apply kept_peers. }
  intros peersBytes s6 Hkept. set (peers := bytes_string peersBytes).
  apply (returns_bind _ _ _ (fun p => p = if HasSuffix peers "," then trim_commas peers else peers)).
  { destruct (HasSuffix _ _); [skip|]; by apply yields_ret. }
  intros ? s7 ->. eapply returns_bind; [apply yields_zoom, yields_zoom, valid_peers_spec|]. intros u1 s8 Hpeers.
  eapply returns_bind; [apply start_ipfs_stops|]. intros ipfs s9 Eipfs.
  eapply returns_bind; [apply start_storage_stops|]. intros storage s10 Estorage.
  eapply returns_bind; [apply start_gateway_stops|]. intros gateway s11 Egateway.
  eapply returns_bind; [apply start_indexer_stops|]. intros indexer s12 Eindexer. cbv beta in *.
  apply (returns_bind _ _ _ (fun verify => EnablePermission (cf_Api cfg) = false /\ open verify)).
  { apply yields_zoom, yields_zoom. match goal with |- yields _ ?w _ => pose proof (newRpcServer_open r (cf_Api cfg) w) as Ho end.
    unfold wp, yields in *. destruct (newRpcServer _ _ _) as [[v|e| |] w']; [|done..]. by destruct (EnablePermission _). }
  intros verify s13 [Hperm Hopen]. do 3 pass.
  eapply returns_bind; [apply yields_zoom, has_pledged_true|]. intros b s14 Hb.
  apply (returns_bind _ _ _ (fun _ => StorageEnable (cf_Module cfg) || AcceptOrder (cf_Storage cfg) = true -> pledged addr)).
  { destruct b; [apply yields_ret; auto|]. apply yields_zoom, confirm_pledge_spec. }
  intros u2 s15 Hpledge. assert (indexer.2 = node_status cfg) as ->.
  { subst indexer gateway storage. unfold node_status. by destruct (StorageEnable _), (GatewayEnable _), (IndexerEnable _). }
  assert (ipfs.1 ++ storage.1 ++ gateway.1 ++ indexer.1 ++ [StopRpc; StopChain; CloseNotify] = stops_of cfg) as ->.
  { subst indexer gateway storage. rewrite Eipfs. unfold stops_of. by destruct (StorageEnable _), (GatewayEnable _), (IndexerEnable _). }
  unfold returns, bind, on_nc, zoom. destruct (on_ch _ (st_nc s15)) as [[tx|e| |] n2] eqn:E; cbn; [|done..].
  unfold started. cbn [n_stopFuncs n_cfg n_address n_verify]. split_and!; [done|apply for_each_stops|done..|].
  by exists (st_nc s15), peersBytes, addresses, tx.
Qed.

(** ** Tokens *)
Context `{!FileLaws W, !OpenLaws W, !RepoLaws W, !JwtLaws}.

(** A token of the node says, to the node, the permissions it was made with. *)
Lemma tokens_verify r c key perms w :
  repo_of r c key w -> wp (token <- AuthNew r perms ;; AuthVerify r token) w (fun o _ => o = Ret perms).
Proof.
  intros (Hh & _ & _ & b & Hb & _).
  assert (forall w0, healthy w0 -> files w0 !! key_path r = Some b -> wp (wrapping ErrDecodeConfigFailed (GetKeyBytes r)) w0
    (fun o w1 => o = Ret b /\ healthy w1 /\ files w1 !! key_path r = Some b)) as Hread.
  { intros w0 Hh0 Hb0. unfold GetKeyBytes, wrapping. apply wp_or_else, wp_or_else, wp_call.
    - intros b' w1 (Hf & Hh1 & Hb')%ReadFile_spec. apply wp_ret. rewrite Hb0 in Hb'. injection Hb' as <-.
      split; [done|]. split; [auto|cbn; by rewrite Hf].
    - intros e w1 (_ & _ & Hn)%ReadFile_spec. by rewrite Hn in Hb0. }
  destruct (Jwt_roundtrip perms b) as (token & Hsign & Hverify). unfold AuthNew, AuthVerify.
  apply wp_bind, wp_bind. eapply wp_mono; [by apply Hread|]. intros o w1 (-> & Hh1 & Hb1). rewrite Hsign. apply wp_ret.
  apply wp_bind. eapply wp_mono; [by apply Hread|]. intros o w2 (-> & _). rewrite Hverify. by apply wp_ret.
Qed.
End Start.
