(* ===== verification/ChainNode.v ===== *)
(** * The node on its chain service

    [ChainSvc] implements what the storage and gateway services ask of the chain:
    instances of [ChainSvcApi], [GatewayChain] and
    [FishmenChain] over the state [ch].  The other
    interfaces of the services belong to the world of the client and are carried
    over to [ch].  [gateway_keeps_pool]: what a gateway does for its clients leaves
    the address pool as it was. *)
From stdpp Require Import base list gmap strings.
From Stdlib Require Import ZArith Lia.
From S2P Require Import Prelude Types StateUtils Cbor CborTypes Persistence Queue StoreManager.
From S2P Require Import ChainApi Stage Chain ChainTheorems Gateway NodeApi.

(** A computation that has no panic is a call. *)
Definition as_call {S A} (m : GoM S A) : call S A := fun s =>
  match m s with
  | (Ret a, s') => (inl a, s')
  | (Fail e, s') => (inr e, s')
  | (_, s') => (inr (EText "no result"), s')
  end.

Lemma as_call_invoke {S A} (m : GoM S A) s : safe m -> invoke (as_call m) s = m s.
Proof. intros Hm. specialize (Hm s). unfold invoke, as_call. by destruct (m s) as [[] ?]. Qed.

Lemma as_call_steps {S A} (R : S -> S -> Prop) (m : GoM S A) : steps R m -> steps R (invoke (as_call m)).
Proof. intros Hm s. specialize (Hm s). unfold invoke, as_call. by destruct (m s) as [[] ?]. Qed.

Section ChainNode.
Context `{!ErrorText, !CidLib} {C : Type} `{!SaoTypes, !CosmosLib C, !KeyringLib C, !RandLib C,
          !FileSys C, !GoRange, !GoRangeLaws}.
(** The bound on the questions of [GetTx]: [GetTx_returns] says what it does with any
    number of them. *)
Context (polls : string -> Z -> nat).

Definition lift_call {A} (c : call C A) : call ch A := fun s =>
  let '(r, w) := c (ch_c s) in (r, Ch w (ch_ap s) (ch_chans s)).
Definition lift_total {A} (c : total_call C A) : total_call ch A := fun s =>
  let '(r, w) := c (ch_c s) in (r, Ch w (ch_ap s) (ch_chans s)).

(** *** The chain *)
#[export] Instance chain_svc : ChainSvcApi ch := {
  Account := AuthAccount;
  VerifySignature := Auth_VerifySignature;
  chain_GetLastHeight := as_call GetLastHeight;
  chain_GetAccount a := as_call (GetAccount a);
  chain_GetFishmen := as_call GetFishmen;
  chain_GetNodePeer a := as_call (GetNodePeer a);
  chain_GetTx hash height := as_call (GetTx (polls hash height) hash height);
  chain_GetOrder i := as_call (GetOrder i);
  chain_GetMeta d := as_call (r <- GetMeta d ;; ret r.1);
  chain_ListShards offset limit := as_call (ListShards offset limit);
  chain_CompleteOrder creator orderId cid size := as_call (CompleteOrder creator orderId cid size);
  chain_MigrateOrder creator dataIds s :=
    match MigrateOrder creator dataIds s with
    | (Ret (hash, results, height), s') => ((hash, results, height, None), s')
    | (Fail e, s') => (("", ∅, -1, Some e), s')
    | (_, s') => (("", ∅, -1, Some (EText "no result")), s')
    end
}.

#[export] Instance chain_gateway : GatewayChain ch := {
  OrderTerminateProposal := Signed TerminateProposal;
  OrderRenewProposal := Signed RenewProposal;
  PermissionProposal := Signed SaoPermissionProposal;
  chain_QueryMetadata req height := as_call (QueryMetadata req height);
  chain_StoreOrder signer p := as_call (StoreOrder signer p);
  chain_OrderReady provider orderId := as_call (OrderReady provider orderId);
  chain_TerminateOrder creator p := as_call (Chain.TerminateOrder creator p);
  chain_RenewOrder creator p := as_call (Chain.RenewOrder creator p);
  chain_UpdatePermission signer p := as_call (UpdatePermission signer p);
  SignByAddress home address payload := as_call (on_c (SignByAddress_ home address payload))
}.

#[export] Instance chain_fishmen : FishmenChain ch := {
  chain_GetMetaShards dataId := as_call (GetMeta dataId);
  chain_GetFault i := as_call (GetFault i);
  chain_GetShard i := as_call (GetShard i);
  chain_ReportFaults creator provider faults := as_call (ReportFaults creator provider faults);
  chain_RecoverFaults creator provider faults := as_call (RecoverFaults creator provider faults)
}.

(** *** The rest of the world *)
#[export] Instance chain_timer `{!Timer C} : Timer ch := { time_After d := lift_total (time_After d) }.

#[export] Instance chain_files : FileSys ch := {
  File := File;
  homedir_Expand := homedir_Expand;
  os_IsExist := os_IsExist;
  os_MkdirAll p := lift_call (os_MkdirAll p);
  os_Create p := lift_call (os_Create p);
  file_Write f b := lift_call (file_Write f b);
  file_Close f := lift_call (file_Close f);
  os_ReadFile p := lift_call (os_ReadFile p);
  os_Remove p := lift_call (os_Remove p)
}.

#[export] Instance chain_clock `{!Clock C} : Clock ch := { time_Now := lift_total time_Now }.

#[export] Instance chain_protocol `{!GatewayProtocol C} : GatewayProtocol ch := {
  RequestShardAssign p req peer := lift_total (RequestShardAssign p req peer);
  RequestShardLoad p req peer b := lift_total (RequestShardLoad p req peer b);
  GetPeers p := lift_total (GetPeers p)
}.

#[export] Instance chain_backend {B} `{!StoreBackend C B} : StoreBackend ch B := {
  back_Id := back_Id;
  back_Open b := on_c (back_Open b);
  back_Close b := on_c (back_Close b);
  back_Store b r := on_c (back_Store b r);
  back_Remove b c := on_c (back_Remove b c);
  back_Get b c := on_c (back_Get b c);
  back_IsExist b c := on_c (back_IsExist b c)
}.

(** *** The pool over a run *)

(** The pool has the marks it had, but for the address of the node, which may have
    come into use. *)
Definition pool_kept (provider : string) (s s' : ch (C := C)) : Prop :=
  match ch_ap s with
  | None => ch_ap s' = None
  | Some p => proper_pool p -> exists p', ch_ap s' = Some p' /\
      forall a, ap_Addresses p' !! a = ap_Addresses p !! a \/
        (a = provider /\ ap_Addresses p !! a = Some Available /\ ap_Addresses p' !! a = Some InUse)
  end.

#[export] Instance pool_kept_preorder provider : PreOrder (pool_kept provider).
Proof.
  split.
  - intros s. unfold pool_kept. destruct (ch_ap s) as [p|]; [|done]. eauto.
  - intros s1 s2 s3. unfold pool_kept. destruct (ch_ap s1) as [p1|]; [|by intros ->].
    intros H12 H23 Hp. destruct (H12 Hp) as (p2 & E2 & Hs2). rewrite E2 in H23.
    assert (proper_pool p2) as Hp2.
    { unfold proper_pool in *. destruct (Hs2 "") as [->|(_ & E & _)]; [done|]. by rewrite Hp in E. }
    destruct (H23 Hp2) as (p3 & E3 & Hs3). exists p3. split; [done|]. intros a.
    destruct (Hs3 a) as [->|(-> & Ea & Eu)]; [apply Hs2|]. right. split; [done|].
    destruct (Hs2 provider) as [<-|(_ & _ & E)]; [done|]. rewrite Ea in E. discriminate E.
Qed.

Lemma balanced_kept provider s s' : balanced provider s s' -> pool_kept provider s s'.
Proof.
  unfold balanced, pool_kept. destruct (ch_ap s) as [p|]; [|done]. intros Hb Hp.
  destruct (Hb Hp) as [E|[Ha E]]; eexists; (split; [exact E|]); [by left|]. intros a. cbn.
  destruct (decide (a = provider)) as [->|Hne].
  - right. by rewrite lookup_insert_eq.
  - left. by rewrite lookup_insert_ne.
Qed.

Lemma same_kept provider s s' : same ch_ap s s' -> pool_kept provider s s'.
Proof. unfold same, pool_kept. intros ->. destruct (ch_ap s); eauto. Qed.

Lemma steps_impl {S A} (R R' : S -> S -> Prop) (m : GoM S A) :
  (forall s s', R s s' -> R' s s') -> steps R m -> steps R' m.
Proof. intros HR Hm s. apply HR, Hm. Qed.

Lemma pooled_kept {A} (always : bool) provider (send : string -> GoM ch A) :
  (forall a, steps (same ch_ap) (send a)) -> steps (pool_kept provider) (pooled always provider send).
Proof. intros Hs. eapply steps_impl; [apply balanced_kept|by apply pooled_balanced]. Qed.

Lemma on_c_kept {A} provider (m : GoM C A) : steps (pool_kept provider) (on_c m).
Proof. intros s. apply same_kept. unfold on_c, zoom, same. by destruct (m (ch_c s)). Qed.

Lemma wrapping_kept {A} provider e (m : GoM ch A) :
  steps (pool_kept provider) m -> steps (pool_kept provider) (wrapping e m).
Proof. intros Hm. unfold wrapping. go_steps. Qed.

Lemma lift_call_kept {A} provider (c : call C A) : steps (pool_kept provider) (invoke (lift_call c)).
Proof. intros s. apply same_kept. unfold invoke, lift_call, same. by destruct (c (ch_c s)) as [[] ?]. Qed.
Lemma lift_total_kept {A} provider (c : total_call C A) :
  steps (pool_kept provider) (invoke_total (lift_total c)).
Proof. intros s. apply same_kept. unfold invoke_total, lift_total, same. by destruct (c (ch_c s)). Qed.

Hint Resolve on_c_kept wrapping_kept lift_call_kept lift_total_kept broadcast_same checked_same
  decoded_same : go.

Lemma chain_kept provider :
  (forall p, steps (pool_kept provider) (invoke (chain_StoreOrder provider p))) /\
  (forall i, steps (pool_kept provider) (invoke (chain_OrderReady provider i))) /\
  (forall p, steps (pool_kept provider) (invoke (chain_TerminateOrder provider p))) /\
  (forall p, steps (pool_kept provider) (invoke (chain_RenewOrder provider p))) /\
  (forall p, steps (pool_kept provider) (invoke (chain_UpdatePermission provider p))) /\
  (forall i, steps (pool_kept provider) (invoke (chain_GetOrder i))).
Proof.
  split_and!; intros; apply as_call_steps; try (apply pooled_kept; intros; go_steps).
  unfold GetOrder. go_steps.
Qed.
End ChainNode.

(** ** The gateway over the chain service *)
Section GatewayPool.
Context `{!CborLib, !CborLaws, !CidLib, !ErrorText, !FmtLib} {D C B : Type}.
Context `{!Datastore D, !SaoTypes, !CosmosLib C, !KeyringLib C, !RandLib C, !FileSys C, !GoRange,
          !GoRangeLaws, !GoRangeId, !StoreBackend C B, !ChainConsts, !TxLib, !CompleteTx, !ProposalLib,
          !GatewayProtocol C, !Clock C}.
Context (polls : string -> Z -> nat) (nodeAddress stagingPath : string).

#[local] Instance node_chain : ChainSvcApi (ch (C := C)) := chain_svc polls.

Definition gw_pool_kept (s s' : gw (D := D) (W := ch (C := C))) : Prop :=
  pool_kept nodeAddress (gw_w s) (gw_w s').

#[local] Instance gw_pool_preorder : PreOrder gw_pool_kept.
Proof.
  unfold gw_pool_kept. split; [intros s; reflexivity|intros s1 s2 s3; apply transitivity].
Qed.

Lemma on_w_kept {A} (m : GoM (ch (C := C)) A) :
  steps (pool_kept nodeAddress) m -> steps gw_pool_kept (on_w (D := D) m).
Proof. intros Hm. apply steps_zoom. intros s. apply Hm. Qed.
Lemma on_ds_kept {A} (m : GoM D A) : steps gw_pool_kept (on_ds m).
Proof. apply steps_zoom. intros s. unfold gw_pool_kept. reflexivity. Qed.
Lemma on_queue_kept {A} (m : GoM RequestQueue A) : steps gw_pool_kept (on_queue m).
Proof. apply steps_zoom. intros s. unfold gw_pool_kept. reflexivity. Qed.
Lemma on_timeout_kept f : steps gw_pool_kept (on_timeout f).
Proof. apply steps_modify. intros s. unfold gw_pool_kept. reflexivity. Qed.

Hint Resolve on_w_kept on_ds_kept on_queue_kept on_timeout_kept : go.
(** The operations of the instances are lifted calls. *)
Hint Extern 2 (steps (pool_kept _) (invoke _)) => apply lift_call_kept : go.

Lemma StageShard_kept basedir p content :
  steps (pool_kept nodeAddress) (StageShard (W := ch (C := C)) basedir p content).
Proof. unfold StageShard. go_steps. Qed.

Lemma send_order_kept orderId p sig : steps gw_pool_kept (send_order nodeAddress orderId p sig).
Proof.
  destruct (chain_kept polls nodeAddress) as (Hstore & Hready & _). unfold send_order. go_steps.
Qed.

Lemma submit_order_kept o p sig : steps gw_pool_kept (submit_order nodeAddress o p sig).
Proof.
  pose proof send_order_kept. destruct (chain_kept polls nodeAddress) as (_ & _ & _ & _ & _ & Hget).
  unfold submit_order. go_steps.
Qed.

(** A gateway that runs on the chain service and its address pool has, after
    every request of a client (a commit, a termination, a renewal, a change of
    permissions), however it ends, the pool it had before; only the address of the
    node itself may have come into use. *)
Theorem gateway_keeps_pool :
  (forall p orderId content s, gw_pool_kept s (CommitModel nodeAddress stagingPath p orderId content s).2) /\
  (forall p s, gw_pool_kept s (TerminateOrder nodeAddress p s).2) /\
  (forall p s, gw_pool_kept s (RenewOrder nodeAddress p s).2) /\
  (forall p s, gw_pool_kept s (UpdateModelPermission nodeAddress p s).2).
Proof.
  destruct (chain_kept polls nodeAddress) as (_ & _ & Hterm & Hrenew & Hperm & _).
  pose proof StageShard_kept. pose proof submit_order_kept. split_and!; intros.
  - enough (steps gw_pool_kept (CommitModel nodeAddress stagingPath p orderId content)) as E by apply E.
    unfold CommitModel. go_steps.
  - enough (steps gw_pool_kept (TerminateOrder nodeAddress p)) as E by apply E.
    unfold TerminateOrder. go_steps.
  - enough (steps gw_pool_kept (RenewOrder nodeAddress p)) as E by apply E. unfold RenewOrder. go_steps.
  - enough (steps gw_pool_kept (UpdateModelPermission nodeAddress p)) as E by apply E.
    unfold UpdateModelPermission. go_steps.
Qed.
End GatewayPool.
