(* ===== verification/NodeSample.v ===== *)
(** * A node to serve requests and to fish on

    The API on the sample model manager and on the chain service of [ChainSample]:
    the world of the node is the state of that service. *)
From stdpp Require Import base list gmap strings.
From Stdlib Require Import ZArith Lia Ascii.
From S2P Require Import Prelude Types StateUtils Cbor CborTypes Instances Persistence StoreManager.
From S2P Require Import ChainApi SampleWorld LruCache Stage Gateway GatewaySample.
From S2P Require Import Chain ChainTheorems ChainSample Validator ModelManager ModelTheorems ModelNode ModelSample.
From S2P Require Import NodeApi NodeTheorems ChainNode.

Module FishingNode.
Import ModelLibs ModelWorld ChainWorld Rfc8949 MemDs TextCid LruSample.

Abbreviation chain := (ch (C := cw)).
Definition no_polls (_ : string) (_ : Z) : nat := 0%nat.
#[export] Instance FChain : ChainSvcApi chain := chain_svc no_polls.

#[export] Instance FFields : ProposalFields chain := {
  otp_Owner r := jws_Protected (sg_JwsSignature r); otp_DataId r := sg_Proposal r;
  orp_Owner r := jws_Protected (sg_JwsSignature r);
  pmp_Owner r := jws_Protected (sg_JwsSignature r); pmp_DataId r := sg_Proposal r
}.
#[export] Instance FSigned : SignedProposals chain := {
  otp_Marshal r := inl (string_bytes (sg_Proposal r)); otp_Signature r := sg_JwsSignature r;
  orp_Marshal r := inl (string_bytes (sg_Proposal r)); orp_Signature r := sg_JwsSignature r;
  pmp_Marshal r := inl (string_bytes (sg_Proposal r)); pmp_Signature r := sg_JwsSignature r
}.

(** A signature is good when it says so. *)
#[export] Instance FDid : DidLib chain := {
  DidManager := string;
  NewDidManagerWithDid d w := (inl d, w);
  QueryProposal_Marshal p := inl (string_bytes (qp_Keyword p));
  base64url_Encode b := bytes_string b;
  VerifyJWS _ _ s w := if String.eqb (jws_Signature s) "signed" then (inl tt, w)
                       else (inr (EText "bad signature"), w)
}.

Definition lift_sgw {A} (m : GoM sgw A) : GoM (sgw * chain) A := zoom fst (fun g s => (g, s.2)) m.
#[export] Instance FGateway : GatewaySvcApi (sgw * chain) chain := {|
  api_QueryMeta req h := lift_sgw (api_QueryMeta (W := gworld) req h);
  api_FetchContent req meta := lift_sgw (api_FetchContent (W := gworld) req meta);
  api_CommitModel p id b := lift_sgw (api_CommitModel (W := gworld) p id b);
  api_TerminateOrder r := ret tt;
  api_RenewOrder r := ret ∅;
  api_UpdateModelPermission r := ret tt
|}.
#[export] Instance FWorld : HasWorld (sgw * chain) chain := { world_of := snd; set_world w g := (g.1, w) }.

(** One provider gives the content, the others refuse. *)
#[export] Instance FFetch : ShardFetcher (sgw * chain) := {
  api_FetchShard provider cidStr peer dataId orderId :=
    ret (MkShardLoadResp (if String.eqb provider "sao1good" then 0 else 1) "" 7 (MkCid "Qok")
           (string_bytes "ok") 0 0)
}.
#[export] Instance FTimer : Timer cw := { time_After _ w := (false, w) }.
#[export] Instance FInfo : FileInfoLib := { FileInfo_Unmarshal b := inl None }.
#[export] Instance FOpen : OpenFiles chain := { os_Open _ w := (inl [], w); io_ReadAll b w := (inl b, w) }.
#[export] Instance FNodeDid : NodeDid chain := {
  getDidManager _ _ w := (inl "did:key:node", w); os_Getenv k w := (k, w);
  CreateJWS _ _ w := (inl (MkJwsSignature "" "signed"), w)
}.

Abbreviation node := (nd (G := sgw * chain) (W := chain) (C := cache) (X := unit) (T := gmap string bytes)).
Definition serving : node :=
  Nd (Mm (script [true], node0) NewLruCacheSvc ∅ 0 (VState tt NewRuleEngineSvc) []) ∅.

Definition request (sig : string) : api_request (W := chain) :=
  ApiLoad (MkMetadataProposal (mtp_Proposal latest) (MkJwsSignature "" sig)).

Definition signed_load : outcome unit * node := handle_api true 10 1000 (request "signed") serving.
Definition forged_load : outcome unit * node := handle_api true 10 1000 (request "forged") serving.

(** A load that is signed is served, one that is not touches nothing. *)
Lemma requests_authorized_witness :
  signed_load.1 = Ret tt /\ request_authorized (request "signed") /\
  (request_authorized (request "forged") \/ untouched serving forged_load.2).
Proof.
  split; [vm_compute; reflexivity|]. split.
  - destruct (requests_authorized true 10 1000 (request "signed") serving) as [Hr|[Hno _]]; [exact Hr|].
    destruct (Hno tt). vm_compute. reflexivity.
  - destruct (requests_authorized true 10 1000 (request "forged") serving) as [Hr|[_ Hu]];
      [left; exact Hr|right; exact Hu].
Defined.

(** The chain with the history of what a fisherman asks. *)
Abbreviation seen := (chain * list fish_event)%type.
Definition aside {A} (c : call chain A) : call seen A := fun w => let r := c w.1 in (r.1, (r.2, w.2)).
Definition noted {A} (ev : A + error -> fish_event) (c : call chain A) : call seen A :=
  fun w => let r := c w.1 in (r.1, (r.2, w.2 ++ [ev r.1])).

#[export] Instance LChain : ChainSvcApi seen := {
  Account := Account (W := chain);
  VerifySignature := VerifySignature;
  chain_GetLastHeight := aside chain_GetLastHeight;
  chain_GetAccount a := aside (chain_GetAccount a);
  chain_GetFishmen := noted EvFishmen chain_GetFishmen;
  chain_GetNodePeer a := aside (chain_GetNodePeer a);
  chain_GetTx hash height := aside (chain_GetTx hash height);
  chain_GetOrder i := aside (chain_GetOrder i);
  chain_GetMeta d := aside (chain_GetMeta d);
  chain_ListShards offset limit := aside (chain_ListShards offset limit);
  chain_CompleteOrder creator orderId cid size := aside (chain_CompleteOrder creator orderId cid size);
  chain_MigrateOrder creator dataIds w := let r := chain_MigrateOrder creator dataIds w.1 in (r.1, (r.2, w.2))
}.
#[export] Instance LGateway : GatewayChain seen := {
  OrderTerminateProposal := OrderTerminateProposal (W := chain);
  OrderRenewProposal := OrderRenewProposal (W := chain);
  PermissionProposal := PermissionProposal (W := chain);
  chain_QueryMetadata req height := aside (chain_QueryMetadata req height);
  chain_StoreOrder signer p := aside (chain_StoreOrder signer p);
  chain_OrderReady provider orderId := aside (chain_OrderReady provider orderId);
  chain_TerminateOrder creator p := aside (chain_TerminateOrder creator p);
  chain_RenewOrder creator p := aside (chain_RenewOrder creator p);
  chain_UpdatePermission signer p := aside (chain_UpdatePermission signer p);
  SignByAddress home address payload := aside (SignByAddress home address payload)
}.
#[export] Instance LFishmen : FishmenChain seen := {
  chain_GetMetaShards d := noted (EvMetaShards d) (chain_GetMetaShards d);
  chain_GetFault i := noted (EvGetFault i) (chain_GetFault i);
  chain_GetShard i := noted (EvGetShard i) (chain_GetShard i);
  chain_ReportFaults a p l := noted (EvReportFaults a p l) (chain_ReportFaults a p l);
  chain_RecoverFaults a p l := noted (EvRecoverFaults a p l) (chain_RecoverFaults a p l)
}.
#[export] Instance LTimer : Timer seen := {
  time_After d w := let r := time_After d w.1 in (r.1, (r.2, w.2 ++ [EvTimer r.1]))
}.
#[export] Instance LWorld : HasWorld (sgw * seen) seen := { world_of := snd; set_world w g := (g.1, w) }.

(** One provider gives the content, the others refuse. *)
#[export] Instance LFetch : ShardFetcher (sgw * seen) := {
  api_FetchShard provider cidStr peer dataId orderId g :=
    let resp := MkShardLoadResp (if String.eqb provider "sao1good" then 0 else 1) "" 7 (MkCid "Qok")
                  (string_bytes "ok") 0 0 in
    (Ret resp, (g.1, (g.2.1, g.2.2 ++ [EvFetchShard provider cidStr peer dataId orderId resp])))
}.
#[export] Instance LLog : FishLog (sgw * seen) seen.
Proof. refine {| fish_log := snd |}; reflexivity. Defined.

Abbreviation fisher := (nd (G := sgw * seen) (W := seen) (C := cache) (X := unit) (T := gmap string bytes)).
Definition fishing : fisher :=
  Nd (Mm (script [true], (node0, [])) NewLruCacheSvc ∅ 0 (VState tt NewRuleEngineSvc) []) ∅.

(** The provider that refuses is reported, the other one is not. *)
Definition fished : outcome Faults * fisher := FaultsCheck "sao1fish" ["data"] fishing.
Definition caught : Fault := MkFault "data" 7 12 (commit_text "c0" 1) "sao1bad" "sao1fish".

Lemma faults_justified_witness :
  fished.1 = Ret {["sao1bad" := [caught]]} /\ length (events fished.2) = 7%nat /\
  exists l, events fished.2 = l /\ reports_allowed "sao1fish" ["data"] l /\
    accepted "sao1fish" l "sao1bad" [caught].
Proof.
  assert (fished.1 = Ret {["sao1bad" := [caught]]}) as E by (vm_compute; reflexivity).
  split; [exact E|]. split; [vm_compute; reflexivity|].
  destruct (faults_justified "sao1fish" ["data"] fishing) as (l & He & Hok & Hres).
  change (FaultsCheck "sao1fish" ["data"] fishing) with fished in He, Hres. rewrite E in Hres.
  exists l. split; [exact He|]. split; [exact Hok|]. apply (proj1 (proj2 Hres _ _)). reflexivity.
Defined.

(** A node that is no fisherman asks nothing else. *)
Definition poaching : outcome Faults * fisher := FaultsCheck "sao1other" ["data"] fishing.
Example poaching_asks_nothing : events poaching.2 = [EvFishmen (inl "sao1fish")].
Proof. vm_compute. reflexivity. Qed.

Definition taken_back : outcome (list Fault) * fisher := RecoverCheck "sao1fish" "sao1good" ["fault"] fishing.
Definition restored : Fault := MkFault "fault" 7 13 "c0" "sao1good" "sao1fish".
Lemma recoveries_justified_witness :
  taken_back.1 = Ret [restored] /\ exists l answer,
    events taken_back.2 = l ++ [EvRecoverFaults "sao1fish" "sao1good" [restored] answer] /\
    Forall (recovered "sao1fish" "sao1good" ["fault"] l) [restored].
Proof.
  assert (taken_back.1 = Ret [restored]) as E by (vm_compute; reflexivity). split; [exact E|].
  destruct (recoveries_justified "sao1fish" "sao1good" ["fault"] fishing) as (l & _ & Hor).
  change (RecoverCheck "sao1fish" "sao1good" ["fault"] fishing) with taken_back in Hor. rewrite E in Hor.
  destruct Hor as [[_ Hno]|(faults & answer & He & _ & _ & Hall & Ho)]; [destruct (Hno _ eq_refl)|].
  destruct answer as [ids|e]; [|discriminate Ho]. injection Ho as <-. exists l, (inl ids). split; [exact He|exact Hall].
Defined.

(** A gateway on the chain service and its pool. *)
#[export] Instance FBackend : StoreBackend cw Empty_set := {
  back_Id b := ""; back_Open b := ret tt; back_Close b := ret tt;
  back_Store b r := ret ([], None); back_Remove b c := ret tt;
  back_Get b c := fail (EText "not found"); back_IsExist b c := ret false
}.
#[export] Instance FProtocol : GatewayProtocol cw := {
  RequestShardAssign p r peer w := (MkShardAssignResp 0 "", w);
  RequestShardLoad p r peer b w := (MkShardLoadResp 1 "" 0 (slr_Cid r) [] 0 0, w);
  GetPeers _ w := ("", w)
}.
#[export] Instance FClock : Clock cw := { time_Now w := (1700000000000000000, w) }.

Abbreviation pooled_gw := (gw (D := gmap string bytes) (W := chain)).
Definition gateway0 : pooled_gw := Gw node0 ∅ [] ∅ ∅ [].
#[local] Instance FGatewayChain : GatewayChain chain := chain_gateway.
Definition renewal : OrderRenewProposal (W := chain) :=
  MkSigned (P := RenewProposal) "{}" (MkJwsSignature "" "signed").
Definition renewed : outcome (gmap string string) * pooled_gw :=
  Gateway.RenewOrder provider renewal gateway0.

Lemma gateway_keeps_pool_witness :
  (exists m, renewed.1 = Ret m) /\ pool_kept provider (gw_w gateway0) (gw_w renewed.2).
Proof.
  split; [eexists; vm_compute; reflexivity|].
  exact (proj1 (proj2 (proj2 (gateway_keeps_pool no_polls provider "/staging")))
           renewal gateway0).
Defined.
End FishingNode.
