(* ===== verification/UploadSample.v ===== *)
(** * An upload to run

    A node with its files in memory, a client, and a connection between them that
    loses nothing; identifiers are written out contents.  Texts on the wire are made
    by the countability of the records.  The witnesses of the theorems on uploads. *)
From stdpp Require Import base list gmap strings countable.
From Stdlib Require Import ZArith Lia Ascii.
From S2P Require Import Prelude Types StateUtils Cbor CborTypes Instances Persistence Queue.
From S2P Require Import StoreManager ChainApi SampleWorld LruCache Stage Chain Gateway GatewaySample.
From S2P Require Import Validator ModelManager ModelNode ModelSample NodeApi NodeTheorems.
From S2P Require Import Upload UploadTheorems UploadSession.

(** ** Texts of records *)
Fixpoint pos_bytes (p : positive) : bytes :=
  match p with
  | xH => [Byte.x01]
  | xO p => Byte.x00 :: pos_bytes p
  | xI p => Byte.x02 :: pos_bytes p
  end.
Fixpoint bytes_pos (b : bytes) : option positive :=
  match b with
  | [Byte.x01] => Some xH
  | Byte.x00 :: b' => xO <$> bytes_pos b'
  | Byte.x02 :: b' => xI <$> bytes_pos b'
  | _ => None
  end.
Lemma bytes_pos_bytes p : bytes_pos (pos_bytes p) = Some p.
Proof. induction p as [p IH|p IH|]; cbn; [by rewrite IH..|done]. Qed.

Definition to_wire {A} `{Countable A} (x : A) : bytes := pos_bytes (encode x).
Definition of_wire {A} `{Countable A} (b : bytes) : A + error :=
  match bytes_pos b with
  | Some p => match decode p with Some x => inl x | None => inr (EText "not a record") end
  | None => inr (EText "not a text")
  end.
Lemma of_to_wire {A} `{Countable A} (x : A) : of_wire (to_wire x) = inl x.
Proof. unfold of_wire, to_wire. by rewrite bytes_pos_bytes, decode_encode. Qed.

#[local] Instance bytes_eq_dec : EqDecision bytes := List.list_eq_dec Byte.byte_eq_dec.
#[local] Instance bytes_countable : Countable bytes := inj_countable' bytes_string string_bytes string_bytes_string.

#[local] Instance FileInfo_eq_dec : EqDecision ReceivedFileInfo.
Proof. solve_decision. Defined.
#[local] Instance FileInfo_countable : Countable ReceivedFileInfo.
Proof.
  refine (inj_countable' (fun r => (rfi_Cid r, rfi_TotalLength r, rfi_TotalChunks r, rfi_ReceivedLength r, rfi_Path r,
      rfi_ChunkCids r)) (fun '(a, b, c, d, e, f) => MkReceivedFileInfo a b c d e f) _).
  by intros [].
Defined.
#[local] Instance FileChunkReq_eq_dec : EqDecision FileChunkReq.
Proof. solve_decision. Defined.
#[local] Instance FileChunkReq_countable : Countable FileChunkReq.
Proof.
  refine (inj_countable' (fun r => (fcr_ChunkId r, fcr_TotalLength r, fcr_TotalChunks r, fcr_ChunkCid r, fcr_Cid r,
      fcr_Content r)) (fun '(a, b, c, d, e, f) => MkFileChunkReq a b c d e f) _).
  by intros [].
Defined.
#[local] Instance RpcReq_eq_dec : EqDecision RpcReq.
Proof. solve_decision. Defined.
#[local] Instance RpcReq_countable : Countable RpcReq.
Proof.
  refine (inj_countable' (fun r => (rpr_Method r, rpr_Params r)) (fun '(a, b) => MkRpcReq a b) _). by intros [].
Defined.
#[local] Instance RpcResp_eq_dec : EqDecision RpcResp.
Proof. solve_decision. Defined.
#[local] Instance RpcResp_countable : Countable RpcResp.
Proof.
  refine (inj_countable' (fun r => (rps_Data r, rps_Error r)) (fun '(a, b) => MkRpcResp a b) _). by intros [].
Defined.

Module UploadNode.
Import ModelLibs ModelWorld LruSample MemDs.

(** An identifier is a letter and the content, a letter for each bit. *)
Fixpoint pos_letters (p : positive) : string :=
  match p with
  | xH => ""
  | xO p => String "a" (pos_letters p)
  | xI p => String "b" (pos_letters p)
  end.
#[export] Instance UCid : CidLib := {
  cid_Decode s := inl (MkCid s); cid_Parse s := inl (MkCid s);
  cid_String c := cid_str c;
  cid_Sum b := inl (MkCid (String "Q" (pos_letters (encode b))))
}.
#[export] Instance UCidTexts : CidTexts.
Proof.
  split.
  - intros b. by eexists.
  - intros b c [= <-]. cbn. split_and!; [done..|].
    assert (forall p, free_of "/" (pos_letters p) = true) as Hp by (by induction p).
    exact (Hp (encode b)).
  - by intros b c [= <-].
Qed.

#[export] Instance UInfo : FileInfoLib := {
  FileInfo_Unmarshal b := match of_wire b with inl fi => inl (Some fi) | inr e => inr e end
}.
#[export] Instance UJson : RpcJson := {
  FileInfo_Marshal fi := inl (to_wire fi);
  FileChunkReq_Marshal r := inl (to_wire r); FileChunkReq_Unmarshal := of_wire;
  RpcReq_Marshal r := inl (to_wire r); RpcReq_Unmarshal := of_wire;
  RpcResp_Marshal r := inl (to_wire r); RpcResp_Unmarshal := of_wire;
  MetadataProposal_Unmarshal _ := inr (EText "no query");
  OrderStoreProposal_Unmarshal _ := inr (EText "no order");
  CreateResp_Marshal r := inl (string_bytes (crr_Cid r));
  LoadResp_Marshal r := inl (lr_Content r);
  UpdateResp_Marshal r := inl (string_bytes (ur_Cid r))
}.
#[export] Instance UJsonLaws : JsonLaws.
Proof.
  refine {| json_text _ := True |}; try done.
  - intros fi _ _ _. eexists. split; [done|]. cbn. by rewrite of_to_wire.
  - intros r _ _. eexists. split; [done|]. split; [|done]. apply of_to_wire.
  - intros r _ _. eexists. split; [done|]. apply of_to_wire.
  - intros r. eexists _, r. split; [done|]. split; [|done]. apply of_to_wire.
  - by eexists.
Defined.

(** Files in memory; a directory cannot be opened. *)
#[export] Instance UOpen : OpenFiles gworld := {
  os_Open p w := match g_files w !! p with Some b => (inl b, w) | None => (inr (EText "no such file"), w) end;
  io_ReadAll b w := (inl b, w)
}.
#[export] Instance UStat : StatFiles gworld := {
  os_Stat _ w := (inl 0, w); os_IsNotExist _ := true;
  os_WriteFile p b w := (inl tt, set_files (<[p := b]> (g_files w)) w)
}.
#[export] Instance UOpenLaws : OpenLaws gworld.
Proof.
  split.
  - by intros p w r w' [= <- <-].
  - intros p w r w' E. cbn in *. destruct (g_files w !! p) eqn:Ep; by injection E as <- <-.
  - intros p w f w1 r w2 E [= <- <-]. cbn in *. destruct (g_files w !! p) eqn:Ep; [|done]. by injection E as <- _.
Qed.

#[export] Instance UWorld : HasWorld (sgw * gworld) gworld := { world_of := snd; set_world w g := (g.1, w) }.
#[export] Instance UWorldLaws : WorldLaws (sgw * gworld) gworld.
Proof. by split. Qed.

Definition lift_sgw {A} (m : GoM sgw A) : GoM (sgw * gworld) A := zoom fst (fun g s => (g, s.2)) m.
#[export] Instance UGateway : GatewaySvcApi (sgw * gworld) gworld := {|
  api_QueryMeta req h := lift_sgw (api_QueryMeta (W := gworld) req h);
  api_FetchContent req meta := lift_sgw (api_FetchContent (W := gworld) req meta);
  api_CommitModel p id b := lift_sgw (api_CommitModel (W := gworld) p id b);
  api_TerminateOrder r := ret tt;
  api_RenewOrder r := ret ∅;
  api_UpdateModelPermission r := ret tt
|}.
#[export] Instance USigned : SignedProposals gworld := {
  otp_Marshal r := inl (string_bytes r); otp_Signature r := MkJwsSignature "" "signed";
  orp_Marshal r := inl (string_bytes r); orp_Signature r := MkJwsSignature "" "signed";
  pmp_Marshal r := inl (string_bytes r); pmp_Signature r := MkJwsSignature "" "signed"
}.
#[export] Instance UDid : DidLib gworld := {
  DidManager := string;
  NewDidManagerWithDid d w := (inl d, w);
  QueryProposal_Marshal p := inl (string_bytes (qp_Keyword p));
  base64url_Encode b := bytes_string b;
  VerifyJWS _ _ s w := if String.eqb (jws_Signature s) "signed" then (inl tt, w)
                       else (inr (EText "bad signature"), w)
}.

Abbreviation unode := (nd (G := sgw * gworld) (W := gworld) (C := cache) (X := unit) (T := gmap string bytes)).
Definition u_handle : string -> bytes -> GoM unode (option bytes) :=
  HandleStream true 10 1000 "/staging" 1000000000.

(** A connection of the peer that loses nothing. *)
#[export] Instance UTransport : TransportLib gworld unode := {
  Multiaddr := string; PeerID := string; PrivKey := string; WebTransport := unit;
  NewMultiaddr a := inl a; peer_Decode p := inl p;
  GenerateEd25519Key w := (inl "key", w);
  MarshalPrivateKey k := inl (string_bytes k); UnmarshalPrivateKey b := inl (bytes_string b);
  webtransport_New _ w := (inl tt, w); tr_Dial _ _ _ w := (inl tt, w);
  AddrInfo := string; Host := unit;
  AddrInfoFromP2pAddr a := inl a; libp2p_New _ w := (inl tt, w); host_Connect _ _ w := (inl tt, w);
  exchange b s := match u_handle "peer" b s with
                  | (Ret o, s') => (inl (default [] o), s')
                  | (_, s') => (inr (EText "stream reset"), s')
                  end
}.

Lemma u_serves : serves (K := gworld) (X := unit) true 10 1000 "/staging" 1000000000 "peer".
Proof.
  intros b s out s' E. cbn in E. unfold u_handle in E.
  destruct (HandleStream _ _ _ _ _ _ _ _) as [[o| | |] s1]; try done. injection E as <- <-. by exists o.
Qed.
Lemma u_lossless : lossless (K := gworld) (X := unit) true 10 1000 "/staging" 1000000000 "peer".
Proof. intros b s o s' E. cbn. unfold u_handle. by rewrite E. Qed.

Definition text : bytes := string_bytes "ab".
Definition text_cid : Cid := MkCid (String "Q" (pos_letters (encode text))).
Definition receiver : unode :=
  Nd (Mm (SGw [] ∅ [], GatewayNode.start []) NewLruCacheSvc ∅ 0 (VState tt NewRuleEngineSvc) []) ∅.
Definition client : gworld := set_files {["/home/text" := text]} (GatewayNode.start []).

Definition sent : outcome Cid * (gworld * unode) := DoTransport "/home" "/ip4/1.2.3.4" "peer" "/home/text" (client, receiver).
Definition upload_path : string := path_Join ["/staging/peer"; cid_String text_cid].

Lemma text_start : upload_start (X := unit) "/staging" "peer" text text_cid upload_path receiver.
Proof.
  split; [vm_compute; reflexivity..| |exact I|reflexivity|left; vm_compute; reflexivity|vm_compute; reflexivity].
  intros j k Hj Hk _. assert (nchunks text = 1%nat) as E by (vm_compute; reflexivity). rewrite E in Hj, Hk.
  by replace j with 0%nat by lia; replace k with 0%nat by lia.
Qed.

(** The file that is uploaded is staged. *)
Lemma upload_staged_witness :
  sent.1 = Ret text_cid /\ staged text text_cid upload_path upload_path (get_rs sent.2.2).
Proof.
  assert (sent.1 = Ret text_cid) as E by (vm_compute; reflexivity). split; [exact E|].
  pose proof (upload_staged true 10 1000 "/staging" 1000000000 "/home" "/ip4/1.2.3.4" "peer" "/home/text" "peer" client receiver u_serves)
    as Hs. change (exists c, sent.1 = Ret c /\ (c = Undef \/ exists content, client_read "/home/text" client content /\
      CalculateCid content = inl c /\ forall base, upload_start (X := unit) "/staging" "peer" content c base receiver ->
        Z.of_nat (length content) mod CHUNK_SIZE <> 0 /\
        staged content c (path_Join [peer_dir "/staging" "peer"; cid_String c]) base (get_rs sent.2.2))) in Hs.
  destruct Hs as (c & Ec & Hc). rewrite E in Ec. injection Ec as <-.
  destruct Hc as [Hc|(content & (f & k1 & k2 & k3 & Hopen & Hread) & _ & Hst)]; [discriminate Hc|].
  vm_compute in Hopen. injection Hopen as <- <-. injection Hread as <- <-.
  exact (proj2 (Hst upload_path text_start)).
Defined.

Lemma upload_succeeds_witness :
  exists s', send_file text (client, receiver) = (Ret text_cid, (client, s')) /\
    staged text text_cid upload_path upload_path (get_rs s').
Proof.
  apply (upload_succeeds true 10 1000 "/staging" 1000000000 "peer" text text_cid upload_path text client client receiver
    u_serves u_lossless).
  - exists "/staging". split; [reflexivity|]. intros w len _ Hlen. exists 0. split; [reflexivity|].
    pose proof CHUNK_SIZE_range. rewrite wrap_i64_small; [lia|unfold is_i64, two63; lia].
  - split; exact I.
  - exact text_start.
  - vm_compute. discriminate.
  - reflexivity.
Defined.

(** An order for the uploaded file. *)
Definition text_order : OrderStoreProposal :=
  MkOrderStoreProposal (MkProposal "all" "d" (cid_String text_cid) "" "" "d" [] "" "" 2 "" 0 0 0 0) (MkJwsSignature "" "").
Definition text_query : MetadataProposal :=
  MkMetadataProposal (MkQueryProposal "all" "new" "" 0 0 "" "" "") (MkJwsSignature "" "").
Definition made : outcome CreateResp * unode := ModelCreateFile true 10 1000 text_query text_order 0 sent.2.2.

Lemma text_staged : staged text text_cid upload_path upload_path (get_rs sent.2.2).
Proof.
  split; [vm_compute; reflexivity|]. eexists. split; [eexists; split; vm_compute; reflexivity|reflexivity].
Qed.

Lemma uploaded_file_created_witness :
  match made.1 with Ret r => crr_Cid r = cid_String text_cid | _ => False end /\
  ((exists e, made.1 = Fail e /\ reading sent.2.2 made.2 /\ ~ live (get_rs sent.2.2)) \/
   exists s1, reading sent.2.2 s1 /\
     ModelCreate true 10 1000 text_query text_order 0 text s1 = (made.1, made.2)).
Proof.
  split; [vm_compute; reflexivity|].
  exact (uploaded_file_created true 10 1000 text text_cid upload_path upload_path text_query text_order 0 sent.2.2
    text_staged eq_refl eq_refl).
Defined.
End UploadNode.
