(* ===== verification/StreamSample.v ===== *)
(** * Requests to run

    A storage node that asks the gateway of [GatewaySample] over streams: what is
    written is kept in a file of the world until the answer is read.  The witnesses of
    the theorems on requests between nodes. *)
From stdpp Require Import base list gmap strings.
From Stdlib Require Import ZArith Lia Ascii.
From S2P Require Import Prelude Types StateUtils Cbor CborTypes Instances Persistence Queue.
From S2P Require Import StoreManager ChainApi Storage StorageSafety SampleWorld Stage Gateway GatewaySample.
From S2P Require Import Streams StreamTheorems.

Module StreamNode.
Import Rfc8949 MemDs TextCid GatewayNode.

(** JSON is not used on streams. *)
#[export] Instance NoJson A : JsonWire A := {
  json_Marshal_of _ := inr (EText "no json"); json_Unmarshal_to _ := inr (EText "no json")
}.

#[export] Instance GTyped : TypedWorld gworld.
Proof.
  split.
  - intros a o c n w h ht w' [= <- <- <-]. unfold is_i64, two63. lia.
  - intros w now w' [= <- <-]. unfold is_i64, two63. lia.
Defined.

(** What the gateway answers, on a stream to any peer. *)
Definition serve (protocol : string) (b : bytes) (s : @gw (gmap string bytes) gworld) :
    outcome (option bytes) * @gw (gmap string bytes) gworld :=
  handleShardStoreStream staging b s.

#[export] Instance GNetwork : Network gworld := {
  net_Multiaddr := string; net_AddrInfo := string; net_Stream := string * string;
  ma_NewMultiaddr s := inl s; ma_String s := s;
  peer_AddrInfoFromP2pAddr s := inl s; addr_ID s := s;
  Peerstore_Peers w := (["12D3gateway"], w);
  net_Connect _ w := (inl tt, w);
  host_NewStream p protocol w := (inl (p, protocol), w);
  stream_Write st b w := (inl tt, set_files (<["stream" := b]> (g_files w)) w);
  stream_CloseWrite _ w := (inl tt, w);
  stream_Read st w :=
    (match g_files w !! "stream" with
     | Some b => match (serve st.2 b (idle w ∅)).1 with Ret (Some out) => out | _ => [] end
     | None => []
     end, w);
  net_Sleep _ w := (tt, w)
}.

#[export] Instance GStreams : StreamLaws gworld (@gw (gmap string bytes) gworld).
Proof.
  refine {| peer_state _ w := idle w ∅; runs _ protocol h := forall b s, h b s = serve protocol b s; leads_to st := st |}.
  - by intros p protocol w st w' [= <- <-].
  - intros st h b w w1 r w2 out w3 Hh [= <-] [= <- <-] E. cbn in E. rewrite lookup_insert_eq in E. rewrite Hh.
    destruct (serve st.2 b _) as [o s'] eqn:Es. cbn [fst] in E.
    destruct o as [[out'|]|e| |]; injection E as <- _; auto. right. by exists s'.
Defined.

(** A content that is staged. *)
Definition load_req : ShardLoadReq :=
  MkShardLoadReq "did:sid:1" "data" 7 (MkCid "Qshard") MetadataProposalCbor_zero 3 RelayProposalCbor_zero.
Definition content : bytes := string_bytes "shard".
Definition staged : gworld :=
  set_files {[stage_path staging ("did:sid:1", "Qshard", "data") := content]} (start []).
Definition sgw : @gw (gmap string bytes) gworld := idle staged ∅.

Lemma load_req_wf : ShardLoadReq_wf load_req.
Proof. Sample.sample; vm_compute; discriminate. Qed.

Definition gateway_addr : string := "/ip4/10.0.0.1/tcp/5153/p2p/12D3gateway".
(** The whole address is the peer of this network. *)
Lemma store_over_stream_witness :
  exists resp, (stream_RequestShardStore load_req gateway_addr staged).1 = Ret resp /\
    slp_Code resp = 0 /\
    exists w_read, rtc net_step staged w_read /\
      staged_file staging (gw_w (peer_state (R := @gw (gmap string bytes) gworld) gateway_addr w_read)) load_req =
        Some (slp_Content resp).
Proof.
  pose proof (store_over_stream (D := gmap string bytes) (W := gworld) staging staging) as Hthm.
  destruct (Hthm eq_refl (fun w => conj eq_refl (fun h => h)) _ ltac:(by eexists) load_req
    gateway_addr staged load_req_wf) as (resp & E & Hok).
  assert (slp_Code resp = 0) as Hcode.
  { assert (exists r, (stream_RequestShardStore load_req gateway_addr staged).1 = Ret r /\
      slp_Code r = 0) as (r & Er & Hr) by (vm_compute; eauto).
    rewrite E in Er. by injection Er as ->. }
  exists resp. split; [exact E|]. split; [done|].
  destruct (Hok Hcode) as (p & b & out & w_read & Hp & _ & (st & w0 & w1 & r & H0 & _ & H1 & H2 & _) & _ & Hs).
  exists w_read. split.
  - eapply rtc_r; [eapply rtc_r; [exact H0|by eapply net_write]|by eapply net_close].
  - vm_compute in Hp. subst p. by destruct (Hs (fun b s => eq_refl)) as (_ & _ & _ & Hs' & _).
Defined.

Lemma content_bound_witness :
  exists b, v_write ShardLoadReq_codec load_req = inl b /\
    exists out resp, (handleShardStoreStream staging b sgw).1 = Ret (Some out) /\
      Unmarshal ShardLoadResp_codec FormatCbor out = inl resp /\ slp_Content resp = content.
Proof.
  pose proof (content_bound (D := gmap string bytes) (W := gworld) staging staging) as Hthm.
  destruct (Hthm eq_refl (fun w => conj eq_refl (fun h => h)) load_req content sgw load_req_wf
    ltac:(vm_compute; reflexivity) I) as (b & Eb & Ho).
  exists b. split; [exact Eb|]. unfold wp in Ho.
  destruct (handleShardStoreStream staging b sgw).1 as [[out|]| | |]; [|vm_compute in Ho; discriminate|done..].
  destruct Ho as (_ & resp & Eu & _ & Ec). by exists out, resp.
Defined.

Lemma local_store_agrees_witness :
  exists r1 r2, (local_RequestShardStore staging load_req staged).1 = Ret r1 /\
    (HandleShardStore staging load_req sgw).1 = Ret r2 /\ slp_Content r1 = slp_Content r2.
Proof.
  pose proof (local_store_agrees (D := gmap string bytes) (W := gworld) staging staging) as Hthm.
  destruct (Hthm eq_refl (fun w => conj eq_refl (fun h => h)) load_req sgw I)
    as (r1 & r2 & E1 & E2 & _ & Ec & _).
  by exists r1, r2.
Defined.

(** A backend with the content, and a request that nobody has signed. *)
#[local] Instance OneBackend : StoreBackend gworld unit := {
  back_Id b := ""; back_Open b := ret tt; back_Close b := ret tt;
  back_Store b r := ret ([], None); back_Remove b c := ret tt;
  back_Get b c := ret (inl content); back_IsExist b c := ret true
}.
Definition unsigned_req : ShardLoadReq :=
  MkShardLoadReq "" "" 0 (MkCid "Qshard") MetadataProposalCbor_zero 0
    (MkRelayProposalCbor (MkRelayProposal "" "" "" "/p2p/12D3node") []).

Lemma load_unchecked_witness :
  exists b out resp, v_write ShardLoadReq_codec unsigned_req = inl b /\
    (handleRelayStream "12D3node" (MkStoreManager [tt]) b sgw).1 = Ret (Some out) /\
    Unmarshal ShardLoadResp_codec FormatCbor out = inl resp /\ slp_Content resp = content.
Proof.
  destruct (load_unchecked "12D3node" (MkStoreManager [tt]) unsigned_req content sgw staged
    ltac:(Sample.sample; vm_compute; discriminate) ltac:(vm_compute; reflexivity)
    ltac:(vm_compute; reflexivity) ltac:(vm_compute; discriminate))
    as (_ & b & Eb & out & resp & E & Eu & _ & Ec).
  by exists b, out, resp.
Defined.

(** An assignment that has lost the value of its last field. *)
Definition cut_assign : bytes :=
  match v_write ShardAssignReq_codec SampleNode.assign_req with
  | inl b => take (length b - 3) b
  | inr _ => []
  end.
Definition refusal : error :=
  match Unmarshal ShardAssignReq_codec FormatCbor cut_assign with inr e => e | inl _ => EText "" end.
Definition idle_storage := SampleNode.fresh (SampleNode.serving SampleNode.shard_content).

Lemma refused_assign_handled_witness :
  exists a, (handleShardAssign SampleNode.node cut_assign idle_storage).1 = Ret (Some a) /\
    Unmarshal ShardAssignResp_codec FormatCbor a =
      inl (MkShardAssignResp ErrorCodeInvalidRequest (unmarshal_error refusal)) /\
    length (sv_queue (handleShardAssign SampleNode.node cut_assign idle_storage).2) = 1%nat.
Proof.
  destruct (refused_assign_handled SampleNode.node cut_assign refusal (MkShardAssignResp 0 "") idle_storage
    (HandleShardAssign SampleNode.node (ShardAssignReq_partial cut_assign) idle_storage).2)
    as (a & E & Eu).
  - vm_compute. reflexivity.
  - Sample.sample.
  - vm_compute. reflexivity.
  - exists a. rewrite E. split; [reflexivity|]. split; [exact Eu|]. vm_compute. reflexivity.
Defined.
End StreamNode.
