(* ===== verification/ClientSample.v ===== *)
(** * A client to run

    A client on the machine and the gateway of [GatewaySample] and [UploadSample], with
    one account in its keyring.  The witnesses of the theorems on the client. *)
From stdpp Require Import base list gmap strings countable.
From Stdlib Require Import ZArith Lia Ascii.
From S2P Require Import Prelude Types StateUtils Cbor CborTypes Instances Persistence Queue.
From S2P Require Import StoreManager ChainApi SampleWorld LruCache Stage Chain Gateway GatewaySample.
From S2P Require Import ChainSample Validator ModelManager ModelNode ModelSample NodeApi.
From S2P Require Import Upload UploadTheorems UploadSample Client ClientTheorems.

#[local] Instance Config_eq_dec : EqDecision SaoClientConfig.
Proof. solve_decision. Defined.
#[local] Instance Config_countable : Countable SaoClientConfig.
Proof.
  refine (inj_countable' (fun c => (scc_GroupId c, scc_KeyName c, scc_ChainAddress c, scc_Gateway c, scc_Token c))
    (fun '(a, b, c, d, e) => MkSaoClientConfig a b c d e) _). by intros [].
Defined.

Module ClientNode.
Import ModelLibs ModelWorld ChainWorld TextCid LruSample UploadNode.

(** The keyring of [ChainSample], with the account ["me"]. *)
Definition keyring : cw := Cw 100 {[("~/.sao", "me") := "sao1me"]} [] [].
Definition lift_cw {A} (c : call cw A) : call gworld A := fun w => ((c keyring).1, w).
Definition lift_cw_total {A} (c : total_call cw A) : total_call gworld A := fun w => ((c keyring).1, w).

#[export] Instance KCosmos : CosmosLib gworld := let c := Cosmos in {|
  CosmosAccount := @CosmosAccount _ _ c; AuthAccount := @AuthAccount _ _ c;
  Auth_VerifySignature := @Auth_VerifySignature _ _ c;
  cosmos_Account a := lift_cw (@cosmos_Account _ _ c a); BroadcastTx a m := lift_cw (@BroadcastTx _ _ c a m);
  BankSendTx a f t n := lift_cw (@BankSendTx _ _ c a f t n); tx_Broadcast b := lift_cw (@tx_Broadcast _ _ c b);
  LatestBlockHeight := lift_cw (@LatestBlockHeight _ _ c); rpc_Tx b := lift_cw (@rpc_Tx _ _ c b);
  AccAddress := @AccAddress _ _ c; AccAddressFromBech32 := @AccAddressFromBech32 _ _ c;
  retriever_GetAccount a := lift_cw (@retriever_GetAccount _ _ c a);
  Decode_OrderResponse := @Decode_OrderResponse _ _ c; Decode_Results := @Decode_Results _ _ c;
  Decode_FaultIds := @Decode_FaultIds _ _ c;
  q_Fishmen := lift_cw (@q_Fishmen _ _ c); q_Order i := lift_cw (@q_Order _ _ c i);
  q_Shard i := lift_cw (@q_Shard _ _ c i); q_ShardAll o l := lift_cw (@q_ShardAll _ _ c o l);
  q_MetadataAll o l := lift_cw (@q_MetadataAll _ _ c o l); q_Metadata d := lift_cw (@q_Metadata _ _ c d);
  q_SaoMetadata h q s := lift_cw (@q_SaoMetadata _ _ c h q s); q_Node a := lift_cw (@q_Node _ _ c a);
  q_NodeAll := lift_cw (@q_NodeAll _ _ c); q_Fault i := lift_cw (@q_Fault _ _ c i);
  q_AllFaults p := lift_cw (@q_AllFaults _ _ c p); q_Pledge a := lift_cw (@q_Pledge _ _ c a);
  q_DidParams := lift_cw (@q_DidParams _ _ c); q_SidDocument v := lift_cw (@q_SidDocument _ _ c v);
  q_PaymentAddress d := lift_cw (@q_PaymentAddress _ _ c d);
  hex_DecodeString := @hex_DecodeString _ _ c; time_Sleep d := lift_cw_total (@time_Sleep _ _ c d)
|}.

#[export] Instance KKeyring : KeyringLib gworld := let k := Keyring in {|
  Registry := @Registry _ _ _ k; KeyRecord := @KeyRecord _ _ _ k; KeyAccount := @KeyAccount _ _ _ k;
  SigningAlgo := @SigningAlgo _ _ _ k;
  registry_New h := lift_cw (@registry_New _ _ _ k h); GetByName r n := lift_cw (@GetByName _ _ _ k r n);
  registry_Create r n := lift_cw (@registry_Create _ _ _ k r n);
  registry_Import r n s p := lift_cw (@registry_Import _ _ _ k r n s p);
  registry_Export r n p := lift_cw (@registry_Export _ _ _ k r n p);
  account_Name := @account_Name _ _ _ k; account_Address := @account_Address _ _ _ k;
  mk_KeyAccount := @mk_KeyAccount _ _ _ k; keyring_Sign r n b := lift_cw (@keyring_Sign _ _ _ k r n b);
  keyring_SignByAddress r a b := lift_cw (@keyring_SignByAddress _ _ _ k r a b); hdPath := @hdPath _ _ _ k;
  SigningAlgoFromString := @SigningAlgoFromString _ _ _ k;
  NewAccount r n m h a := lift_cw (@NewAccount _ _ _ k r n m h a);
  NewEntropy n := lift_cw (@NewEntropy _ _ _ k n); NewMnemonic := @NewMnemonic _ _ _ k
|}.

(** The did of a secret is the secret. *)
#[export] Instance KDid : DidKeyLib gworld := {
  KeyProvider := bytes; KeyManager := string;
  NewSecp256k1Provider b := inl b; key_NewDidManager b := "did:key:" +:+ bytes_string b;
  key_Authenticate m w := (inl m, w); key_Id m := m;
  key_CreateJWS m b w := (inl [MkJwsSignature "" "signed"], w)
}.
#[export] Instance KUuid : UuidLib gworld := {
  uuid_NewV1 w := ("11111111-1111-1111-1111-111111111111", w);
  uuid_NewV4 w := ("44444444-4444-4444-4444-444444444444", w);
  uuid_NewV5 ns seed := "55555555-5555-5555-5555-555555555555"
}.
#[export] Instance KProposals : ClientProposals := {
  PermissionFields_Marshal p := inl (string_bytes (pmf_DataId p));
  RenewFields_Marshal p := inl (string_bytes (rnf_Owner p));
  TerminateFields_Marshal p := inl (string_bytes (tmf_DataId p))
}.
#[export] Instance KOrders : ProposalLib := {
  Proposal_Marshal p := inl (string_bytes (pr_DataId p)); Proposal_Unmarshal _ := inr (EText "no proposal");
  JwsSignature_Marshal s := inl (string_bytes (jws_Signature s));
  JwsSignature_Unmarshal b := inl (MkJwsSignature "" (bytes_string b))
}.
#[export] Instance KChain : ClientChain gworld := {
  cc_UpdatePermission _ _ w := (inl "hash", w); cc_RenewOrder _ _ w := (inl ("hash", ∅), w);
  cc_TerminateOrder _ _ w := (inl "hash", w); cc_QueryDidParams w := (inl "did:a,did:b", w);
  cc_ListMetaByDid _ w := (inl [], w); cc_GetBlockTime _ w := (inl "now", w);
  cc_GetBalance _ w := (inl 1000, w); cc_UpdateDidBinding _ _ _ w := (inl "hash", w);
  cc_QueryPaymentAddress _ w := (inl "sao1me", w)
}.
#[export] Instance KApi : SaoApi gworld := {
  api_ModelCreate _ p _ _ w := (inl (MkCreateResp (pr_DataId (osp_Proposal p)) "notes" "" ""), w);
  api_ModelCreateFile _ p _ w := (inl (MkCreateResp (pr_DataId (osp_Proposal p)) "notes" "" ""), w);
  api_ModelLoad _ w := (inl (MkLoadResp "data" "notes" "c0" "v0" "Qshard" []), w);
  api_ModelDelete _ _ w := (inl (MkDeleteResp "" ""), w);
  api_ModelShowCommits _ w := (inl (MkShowCommitsResp "data" "notes" []), w);
  api_ModelUpdate _ p _ _ w := (inl (MkUpdateResp (pr_DataId (osp_Proposal p)) "c1" "notes" "" ""), w);
  api_ModelRenewOrder _ _ w := (inl ∅, w); api_ModelUpdatePermission _ _ w := (inl "data", w);
  api_FaultsCheck _ w := (inl ∅, w); api_RecoverCheck _ _ w := (inl [], w);
  api_GenerateToken _ w := (inl ("server", "token"), w);
  api_GetHttpUrl _ w := (inl "http", w); api_GetIpfsUrl _ w := (inl "ipfs", w);
  api_GetNodeAddress w := (inl "sao1gateway", w)
}.
#[export] Instance KLib : ClientLib gworld := {
  toml_Decode b _ := of_wire b; toml_Encode c := inl (to_wire c);
  NewNodeApi _ _ w := (inl tt, w); NewChainSvc _ w := (inl tt, w); stdin_ReadLine w := (inl [], w)
}.
#[export] Instance KConfig : ConfigLaws gworld.
Proof.
  split.
  - by intros p w e w' [=].
  - intros cfg b def [= <-]. apply of_to_wire.
  - by intros w id w' [= <- <-].
Qed.
#[export] Instance KJws : JwsLaws (W := gworld).
Proof. split. intros m b sig rest w1 w1' dm w2 w2' w3 [= <- <- <-] [= <- <-]. by exists w3. Qed.

(** ** A command line *)
Definition flags (l : list (string * string)) (b : list string) (n : Z) : cli :=
  MkCli (fun k => bool_decide (k ∈ (l.*1))) (fun k => default "" (list_to_map (M := gmap string string) l !! k))
    (fun k => if String.eqb k "duration" then 365 else n) (fun _ => 0) (fun k => bool_decide (k ∈ b)) (fun _ => [])
    "http://gateway" "http://chain" "~/.sao".

(** The configuration of the client is there. *)
Definition config : SaoClientConfig := MkSaoClientConfig "group" "me" "http://chain" "http://gateway" "token".
Definition machine : @cl gworld :=
  Cl (set_files {["/home/.sao-cli/config.toml" := to_wire config]} (GatewayNode.start [])) [].
Definition create_flags : cli := flags [("repo", "/home/.sao-cli"); ("content", "ab")] ["client-publish"; "public"] 1.

(** The client orders, asks the gateway, and makes the model public. *)
Lemma create_sends_witness :
  sends (cl_sent machine) (fun o evs => create_trace create_flags (is_ret o) evs)
    (createCmd create_flags machine).1 (createCmd create_flags machine).2 /\
  length (cl_sent (createCmd create_flags machine).2) = 3%nat.
Proof. split; [exact (create_sends create_flags machine)|vm_compute; reflexivity]. Defined.

Abbreviation unode := (nd (G := sgw * gworld) (W := gworld) (C := cache) (X := unit) (T := gmap string bytes)).
Definition gateway_node : unode :=
  Nd (Mm (SGw [] ∅ [], GatewayNode.start []) NewLruCacheSvc ∅ 0 (VState tt NewRuleEngineSvc) []) ∅.

Lemma requests_valid_witness :
  exists req p orderId content, SentCreate req p orderId content ∈ cl_sent (createCmd create_flags machine).2 /\
    (valid_query (T := gmap string bytes) (C := cache) (X := unit) req gateway_node).1 = Ret tt /\
    (valid_order (T := gmap string bytes) (C := cache) (X := unit) p gateway_node).1 = Ret tt.
Proof.
  destruct (requests_valid (G := sgw * gworld) (C := cache) (X := unit) (T := gmap string bytes) create_flags machine)
    as (evs & Hs & Hv). cbn [app cl_sent machine] in Hs.
  assert (exists req p orderId content, cl_sent (createCmd create_flags machine).2 !! 1%nat =
    Some (SentCreate req p orderId content)) as (req & p & orderId & content & E) by (vm_compute; eauto 6).
  apply list_elem_of_lookup_2 in E. exists req, p, orderId, content. split; [exact E|].
  rewrite Hs in E. destruct (Hv req p orderId content E) with (ns := gateway_node) as [Hq Hp];
    [intros w; by eexists _, w|]. split; [exact Hq|exact Hp].
Defined.

(** ** A patch *)
#[local] Instance KJson : JsonTexts := {
  JsonValue := bytes; json_Unmarshal_any b := inl b; json_Marshal_any b := inl b
}.
Definition gen_flags : cli := flags [("origin", "{}"); ("target", "{}[{4},{2},{1},{3}]")] [] 0.
Definition made_patch : string * Cid * nat :=
  match (patchGenCmd gen_flags machine).1 with Ret r => r | _ => ("", Undef, 0%nat) end.
Definition update_flags : cli :=
  flags [("repo", "/home/.sao-cli"); ("keyword", "data"); ("patch", made_patch.1.1);
         ("cid", cid_String made_patch.1.2); ("commit-id", "c0")] [] (Z.of_nat made_patch.2).

Lemma patch_update_witness :
  exists req p orderId patch content, SentUpdate req p orderId patch ∈ cl_sent (updateCmd update_flags machine).2 /\
    ApplyPatch (string_bytes "{}") patch = inl content /\
    pr_Size (osp_Proposal p) = wrap_u64 (Z.of_nat (length content)).
Proof.
  destruct (patch_update gen_flags update_flags made_patch.1.1 made_patch.1.2 made_patch.2 machine
    (patchGenCmd gen_flags machine).2 machine) as (evs & Hs & Hv); [vm_compute; reflexivity..|].
  cbn [app cl_sent machine] in Hs.
  assert (exists req p orderId patch, cl_sent (updateCmd update_flags machine).2 !! 1%nat =
    Some (SentUpdate req p orderId patch)) as (req & p & orderId & patch & E) by (vm_compute; eauto 6).
  apply list_elem_of_lookup_2 in E. rewrite Hs in E. rewrite List.Forall_forall in Hv.
  destruct (Hv _ (proj1 (list_elem_of_In _ _) E)) as (content & _ & _ & Ha & _ & Hsz & _).
  exists req, p, orderId, patch, content. rewrite Hs. split; [exact E|]. split; [exact Ha|exact Hsz].
Defined.

(** ** Numbers and results *)
Lemma blocks_exact_witness : blocks 365 = 31536000 /\ blocks 106752 <> 86400 * 106752.
Proof.
  split.
  - apply (proj2 (blocks_exact 365 ltac:(lia))). lia.
  - intros E. apply (proj1 (blocks_exact 106752 ltac:(lia))) in E. lia.
Defined.

Definition old_model : Metadata := MkMetadata "d" "" "" "" 7 [] "" [] "" 4 [] 100 50 "c0" [] [].
Lemma status_exact_witness :
  status_of old_model 120 = (false, 30) /\ status_of old_model 160 = (true, 10) /\
  left_epoch old_model 160 = two64 - 10.
Proof.
  destruct (status_exact old_model 120) as [H1 _]; [cbn; unfold two63, two64; lia..|].
  destruct (status_exact old_model 160) as [H2 H3]; [cbn; unfold two63, two64; lia..|].
  split; [exact H1|]. split; [exact H2|exact H3].
Defined.

Definition renewals : gmap string string := {["a" := "SUCCESS=12"; "b" := "order not found"]}.
Lemma renew_outcome_witness :
  renew_results renewals machine = (Ret (MkRenewed {["a" := 12]} {["b" := "order not found"]} ∅), machine) /\
  (renew_results {["a" := "SUCCESS"]} machine).1 = Panic.
Proof.
  split.
  - rewrite (renew_outcome renewals machine). vm_compute. reflexivity.
  - rewrite (renew_outcome {["a" := "SUCCESS"]} machine). vm_compute. reflexivity.
Defined.

(** ** A configuration *)
Definition saver : SaoClient := MkSaoClient true true config "/home/.sao-cli".
Definition saved_and_made : outcome SaoClient * gworld :=
  (SaveConfig saver config ;; NewSaoClient (MkSaoClientOptions "/home/.sao-cli" "" "" "" "~/.sao"))
    (GatewayNode.start []).
Definition made_client : SaoClient := match saved_and_made.1 with Ret c => c | _ => saver end.

Lemma config_roundtrip_witness :
  saved_and_made.1 = Ret made_client /\ made_client = MkSaoClient true true (with_token config) "/home/.sao-cli".
Proof.
  pose proof (config_roundtrip (W := gworld) saver config "" "~/.sao" "/home/.sao-cli" (GatewayNode.start [])
    eq_refl I) as Hc.
  assert (saved_and_made.1 = Ret made_client) as E by (vm_compute; reflexivity). split; [exact E|].
  change (match saved_and_made.1 with
    | Ret c => c = MkSaoClient true true (with_token config) "/home/.sao-cli"
    | Fail _ => True
    | _ => False
    end) in Hc. rewrite E in Hc. exact Hc.
Defined.
End ClientNode.
