(* ===== verification/HttpSample.v ===== *)
(** * A file server to run

    The HTTP file server on the machine of [ClientSample].  The witnesses of the
    theorems of [HttpTheorems]. *)
From stdpp Require Import base list gmap strings countable.
From Stdlib Require Import ZArith Lia Ascii.
From S2P Require Import Prelude Types StateUtils Cbor CborTypes Instances Persistence Queue.
From S2P Require Import StoreManager ChainApi SampleWorld LruCache Stage Chain Gateway GatewaySample.
From S2P Require Import ChainSample Validator ModelManager ModelNode ModelSample NodeApi.
From S2P Require Import Upload UploadTheorems UploadSample Client ClientTheorems ClientSample.
From S2P Require Import HttpFiles HttpTheorems.

(** The rest of a text after a prefix. *)
Fixpoint strip (pre s : string) : option string :=
  match pre, s with
  | "", _ => Some s
  | String c pre, String d s => if Ascii.eqb c d then strip pre s else None
  | _, _ => None
  end.
Lemma strip_spec pre s r : strip pre s = Some r <-> s = pre +:+ r.
Proof.
  revert s. induction pre as [|c pre IH]; intros s; cbn [strip].
  - split; [by intros [= ->]|by intros ->].
  - destruct s as [|d s]; [done|]. rewrite str_app_cons. destruct (Ascii.eqb_spec c d) as [->|Hne].
    + rewrite IH. split; [by intros ->|by intros [= ->]].
    + split; [done|]. intros [= <- _]. done.
Qed.

(** The name of a file of a directory. *)
Definition name_in (dir path : string) : option string :=
  name ← strip (dir +:+ "/") path; if free_of "/" name then Some name else None.
Lemma name_in_spec dir path name : name_in dir path = Some name <-> path = dir +:+ "/" +:+ name /\ free_of "/" name = true.
Proof.
  unfold name_in. rewrite <-str_app_assoc, <-strip_spec. destruct (strip (dir +:+ "/") path) as [r|]; cbn.
  - destruct (free_of "/" r) eqn:E; split.
    + by intros [= <-].
    + by intros [[= <-] _].
    + done.
    + intros [[= <-] E']. congruence.
  - split; [done|]. by intros [? _].
Qed.

Lemma NoDup_omap {A B} (f : A -> option B) l :
  (forall x y b, f x = Some b -> f y = Some b -> x = y) -> NoDup l -> NoDup (omap f l).
Proof.
  intros Hinj. induction 1 as [|x l Hx _ IH]; cbn; [constructor|]. destruct (f x) as [b|] eqn:E; [|done].
  constructor; [|done]. intros (y & Hy & Ey)%list_elem_of_omap. by rewrite (Hinj x y b E Ey) in Hx.
Qed.

Definition dir_names (dir : string) (m : gmap string bytes) : list string := omap (name_in dir) (map_to_list m).*1.

Lemma dir_names_spec dir m name :
  name ∈ dir_names dir m <-> free_of "/" name = true /\ is_Some (m !! (dir +:+ "/" +:+ name)).
Proof.
  unfold dir_names. rewrite list_elem_of_omap. split.
  - intros (path & Hin & [-> Hf]%name_in_spec). split; [done|].
    apply list_elem_of_fmap in Hin as ([p b] & -> & Hin%elem_of_map_to_list). by exists b.
  - intros [Hf [b Hb]]. exists (dir +:+ "/" +:+ name). split; [|by apply name_in_spec].
    apply list_elem_of_fmap. exists (dir +:+ "/" +:+ name, b). split; [done|]. by apply elem_of_map_to_list.
Qed.

Module HttpNode.
Import ModelLibs ModelWorld ChainWorld TextCid LruSample UploadNode ClientNode.

#[export] Instance HLib : HttpLib gworld := {
  ioutil_ReadDir p w := (inl ((fun name => (name, false)) <$> dir_names p (g_files w)), w);
  ReadFile_beside _ _ := [];
  echo_File p w := match g_files w !! p with Some b => (inl b, w) | None => (inr (EText "Not Found"), w) end;
  jwt_SignedString k t key := inl ("token of " +:+ k);
  GetModel _ w := (inr (EText "no model"), w)
}.
#[export] Instance HJson : InfoJson := {
  Info_Unmarshal b := match b with [] => [] | _ :: b => match of_wire b with inl keys => keys | inr _ => [] end end;
  Info_Marshal keys := Byte.x00 :: to_wire keys
}.
#[export] Instance HLaws : HttpLaws gworld.
Proof.
  refine {| info_text _ := True |}.
  - intros p w r w' [= <- <-]. split; [done|]. split; [done|]. split.
    + rewrite <-list_fmap_compose. rewrite (list_fmap_ext _ id) by done. rewrite list_fmap_id.
      apply NoDup_omap; [|apply NoDup_fst_map_to_list]. intros x y b [-> _]%name_in_spec [-> _]%name_in_spec. done.
    + intros name Hf. rewrite list_elem_of_fmap. split.
      * intros (n & [= <-] & [_ Hn]%dir_names_spec). done.
      * intros Hn. exists name. split; [done|]. by apply dir_names_spec.
  - intros p w l w' name [= <- _] Hin. rewrite <-list_fmap_compose in Hin. apply list_elem_of_fmap in Hin as (n & -> & [Hf _]%dir_names_spec).
    done.
  - by intros p w r w' [= <- <-].
  - by intros p b w r w' [= _ <-] _.
  - done.
  - intros keys _. cbn. by rewrite of_to_wire.
  - done.
Defined.

(** ** A directory with two models, one of them with a path *)
Definition id1 : string := "11111111-2222-3333-4444-555555555555".
Definition id2 : string := "66666666-7777-8888-9999-000000000000".
Definition served : gworld :=
  set_files {["/srv/11111111-2222-3333-4444-555555555555" := string_bytes "one";
              "/srv/11111111-2222-3333-4444-555555555555.info" := Info_Marshal ["notes/a"; "notes/b"];
              "/srv/66666666-7777-8888-9999-000000000000" := string_bytes "two"]} (GatewayNode.start []).
Definition http_cfg : SaoHttpFileServer := MkSaoHttpFileServer "localhost:5152" 86400000000000 0.

Lemma bytes_of_app s t : string_bytes (s +:+ t) = string_bytes s ++ string_bytes t.
Proof. induction s as [|c s IH]; [done|]. rewrite str_app_cons. cbn. by f_equal. Qed.
Lemma info_path_last dir name : list.last (string_bytes (info_path dir name)) = Some Byte.x6f.
Proof. unfold info_path. rewrite !bytes_of_app, !last_app. done. Qed.

(** Only the first model has paths. *)
Lemma served_keys name k : has_key "/srv" (files served) name k -> name = id1 /\ k ∈ ["notes/a"; "notes/b"].
Proof.
  intros (info & Hi & Hk). pose proof (info_path_last "/srv" name) as Hlast.
  change (g_files served !! info_path "/srv" name = Some info) in Hi. unfold served, set_files in Hi. cbn [g_files] in Hi.
  apply lookup_insert_Some in Hi as [[E _]|[_ Hi]]; [by rewrite <-E in Hlast|].
  apply lookup_insert_Some in Hi as [[E <-]|[_ Hi]].
  - split; [symmetry; exact (info_path_inj "/srv" id1 name E)|]. by vm_compute in Hk.
  - apply lookup_singleton_Some in Hi as [E _]. by rewrite <-E in Hlast.
Qed.

Definition listing : list (string * bool) :=
  match (ioutil_ReadDir "/srv" served).1 with inl l => l | inr _ => [] end.
Lemma served_fits l w' : ioutil_ReadDir "/srv" served = (inl l, w') ->
  Z.of_nat (length (l ≫= file_keys "/srv" (files served))) <= 1024.
Proof.
  intros E. assert (l = listing) as -> by (unfold listing; by rewrite E). vm_compute. congruence.
Qed.
Lemma served_once n n' k : has_key "/srv" (files served) n k -> has_key "/srv" (files served) n' k -> n = n'.
Proof. intros [-> _]%served_keys [-> _]%served_keys. done. Qed.

Lemma id1_name : model_name id1.
Proof. split; reflexivity. Qed.
Lemma id2_name : model_name id2.
Proof. split; reflexivity. Qed.
Lemma served_healthy : healthy served.
Proof. exact I. Qed.

(** The file without a path goes, the other stays. *)
Lemma restart_keeps_witness :
  exists s' es m', (StartHttpFileServer http_cfg "/srv" ;; CleanCacheFiles "/srv") (Hfs served NewLruCacheSvc []) = (Ret tt, s') /\
    serves 1024 es m' [] s' /\ stands_for es "notes/b" = Some id1 /\
    m' !! file_path "/srv" id1 = Some (string_bytes "one") /\ m' !! file_path "/srv" id2 = None.
Proof.
  destruct (restart_keeps "/srv" http_cfg served [] served_healthy ltac:(discriminate) served_fits served_once)
    as (s' & es & m' & Hrun & Hs & Hk & Hm). exists s', es, m'.
  split; [exact Hrun|]. split; [exact Hs|]. split.
  - apply Hk; [exact id1_name|eexists; vm_compute; reflexivity|]. eexists. split; [vm_compute; reflexivity|]. vm_compute. right. left.
  - split; [exact (proj1 (Hm id1 id1_name))|exact (proj1 (Hm id2 id2_name))].
Defined.

(** The server that has started. *)
Definition running : hfs (W := gworld) := (StartHttpFileServer http_cfg "/srv" (Hfs served NewLruCacheSvc [])).2.
Lemma running_serves :
  exists es, serves 1024 es (files served) [] running /\ forall k, has_key "/srv" (files served) id1 k -> stands_for es k = Some id1.
Proof.
  destruct (start_spec "/srv" http_cfg served [] served_healthy ltac:(discriminate) served_fits served_once) as (s' & es & Hrun & Hs & Hk).
  exists es. unfold running. rewrite Hrun. split; [exact Hs|]. intros k. apply Hk; [exact id1_name|]. eexists. vm_compute. reflexivity.
Qed.

Lemma clean_keeps_live_witness :
  exists es s' m', CleanCacheFiles "/srv" running = (Ret tt, s') /\ serves 1024 es m' [] s' /\
    m' !! file_path "/srv" id1 = Some (string_bytes "one") /\ m' !! file_path "/srv" id2 = None.
Proof.
  destruct running_serves as (es & Hs & Hk).
  destruct (clean_keeps_live "/srv" _ _ _ _ _ Hs) as (s' & m' & Hrun & Hs' & Hm & _). exists es, s', m'.
  split; [exact Hrun|]. split; [exact Hs'|]. split.
  - destruct (Hm id1 id1_name) as [E _]. rewrite (live_keyed "/srv" es _ id1 Hk) in E. exact E.
  - destruct (Hm id2 id2_name) as [E _]. exact E.
Defined.

(** A file whose information file has lost a path that is still cached is removed. *)
Definition forgotten : hfs (W := gworld) := (updateCacheInfo "/srv" id1 "notes/c" running).2.
Example cached_file_removed :
  (svc_Get cache_name "notes/b" (CacheSvc forgotten)).1 = Ret (Some id1) /\
  files (hf_w (CleanCacheFiles "/srv" forgotten).2) !! file_path "/srv" id1 = None.
Proof. split; vm_compute; reflexivity. Qed.

(** The second path of a model takes the place of the first. *)
Lemma last_key_only_witness :
  exists s', updateCacheInfo "/srv" id1 "notes/c" running = (Ret tt, s') /\
    files (hf_w s') !! info_path "/srv" id1 = Some (Info_Marshal ["notes/c"]).
Proof.
  destruct running_serves as (es & Hs & _).
  destruct (last_key_only "/srv" _ _ _ _ id1 "notes/c" _ Hs) as (s' & Hrun & [_ Hf _ _]). exists s'. split; [exact Hrun|].
  rewrite Hf. reflexivity.
Defined.

(** A path in the cache is answered with its file; nobody is asked. *)
Lemma load_events_witness :
  let s' := (load "http://chain" "/srv" "~/.sao" "/sao/notes/b" running).2 in
  hf_log s' = [SentFile "/srv/11111111-2222-3333-4444-555555555555" (string_bytes "one")] /\
  exists d evs, evs = hf_log s' /\ (evs = [] \/ exists content, evs = [SentFile (path_Join ["/srv"; d]) content]).
Proof.
  split; [vm_compute; reflexivity|]. destruct running_serves as (es & Hs & Hk).
  pose proof (load_events "http://chain" "/srv" "~/.sao" 1024 es _ _ "/sao/notes/b" _ ltac:(discriminate) Hs) as (evs & Hl & [Hc|Hc]).
  - destruct Hc as (d & _ & [[Hn _]|He]); exists d, evs; (split; [symmetry; exact Hl|]); [left; exact Hn|right; exact He].
  - destruct Hc as [Hnone _]. specialize (Hnone id1). exfalso.
    enough (files served !! file_path "/srv" id1 = None) by done. apply Hnone, Hk. eexists.
    split; [vm_compute; reflexivity|]. vm_compute. right. left.
Defined.
End HttpNode.
