(* ===== verification/IndexerSample.v ===== *)
(** * A database to run

    The two tables in memory: a statement is parsed, row by row.  The witnesses of
    the theorems of [IndexerTheorems]. *)
From stdpp Require Import base list gmap strings.
From Stdlib Require Import ZArith Lia Ascii.
From S2P Require Import Prelude Types StateUtils Cbor CborTypes Instances Persistence Queue ChainApi Stage Chain.
From S2P Require Import ChainSample NodeApi Client Indexer Graphql IndexerTheorems GraphqlTheorems.

(** ** Parsing the rows of a statement *)
Fixpoint after (pre s : string) : option string :=
  match pre, s with
  | "", _ => Some s
  | String c pre, String d s => if Ascii.eqb c d then after pre s else None
  | _, _ => None
  end.
Lemma after_app pre s : after pre (pre +:+ s) = Some s.
Proof. induction pre as [|c pre IH]; [by destruct s|]. rewrite str_app_cons. cbn [after]. by rewrite Ascii.eqb_refl. Qed.

(** The text up to a separator, and what comes after it. *)
Fixpoint upto (sep s : string) : option (string * string) :=
  match after sep s with
  | Some rest => Some ("", rest)
  | None =>
      match s with
      | "" => None
      | String c s => match upto sep s with Some (a, b) => Some (String c a, b) | None => None end
      end
  end.

Lemma upto_free c sep a rest :
  free_of c a = true -> upto (String c sep) (a +:+ String c (sep +:+ rest)) = Some (a, rest).
Proof.
  unfold free_of. induction a as [|x a IH]; intros Ha.
  - rewrite str_app_nil. cbn [upto after]. by rewrite Ascii.eqb_refl, after_app.
  - cbn in Ha. apply andb_prop in Ha as [Hx Ha]. apply negb_true_iff in Hx. rewrite str_app_cons. cbn [upto after].
    rewrite (Ascii.eqb_sym c x), Hx. by rewrite IH.
Qed.

Definition q : ascii := "034".
Definition between : string := String q (", " +:+ String q "").

(** The text up to a comma, a parenthesis or a blank. *)
Definition stops (c : ascii) : bool := Ascii.eqb c "," || Ascii.eqb c ")" || Ascii.eqb c " ".
Fixpoint word (s : string) : string * string :=
  match s with
  | "" => ("", "")
  | String c s' => if stops c then ("", s) else let r := word s' in (String c r.1, r.2)
  end.
Definition ends (s : string) : bool := match s with String c _ => stops c | "" => false end.
Lemma word_app a rest : all_chars (fun c => negb (stops c)) a = true -> ends rest = true -> word (a +:+ rest) = (a, rest).
Proof.
  intros Ha Hr. induction a as [|c a IH].
  - rewrite str_app_nil. destruct rest as [|c rest]; [done|]. cbn in *. by rewrite Hr.
  - cbn [all_chars] in Ha. apply andb_prop in Ha as [Hc Ha]. apply negb_true_iff in Hc.
    rewrite str_app_cons. cbn [word]. by rewrite Hc, IH.
Qed.

(** Some elements with commas between them, and what comes after them. *)
Section Lists.
Context {B : Type} (item : string -> option (B * string)) (text : B -> string) (close : string).
Fixpoint parse_list (fuel : nat) (s : string) : option (list B * string) :=
  match fuel with
  | O => None
  | S fuel =>
      '(x, s) ← item s;
      match after ", " s with
      | Some s => '(l, s) ← parse_list fuel s; Some (x :: l, s)
      | None => s ← after close s; Some ([x], s)
      end
  end.

Context (Hend : ends close = true) (Hclose : forall t, after ", " (close +:+ t) = None).
Lemma parse_list_text l fuel t :
  l <> [] -> (length l <= fuel)%nat ->
  Forall (fun x => forall rest, ends rest = true -> item (text x +:+ rest) = Some (x, rest)) l ->
  parse_list fuel (values text l +:+ close +:+ t) = Some (l, t).
Proof.
  revert fuel. induction l as [|x l IH]; intros fuel Hne Hf Hall; [done|]. apply Forall_cons in Hall as [Hx Hall].
  destruct fuel as [|fuel]; [cbn in Hf; lia|]. cbn [parse_list]. destruct l as [|y l].
  - unfold values. cbn [fmap list_fmap String.concat]. rewrite Hx by (by destruct close). cbn [mbind option_bind].
    by rewrite Hclose, after_app.
  - rewrite values_cons, !str_app_assoc, Hx by done. cbn [mbind option_bind].
    rewrite after_app. cbn [mbind option_bind]. rewrite IH; [done|done|cbn in *; lia|done].
Qed.
End Lists.

Definition parse_value (s : string) : option (SqlValue * string) :=
  match after (String q "") s with
  | Some s => '(t, s) ← upto (String q "") s; Some (VText t, s)
  | None => let r := word s in
            if String.eqb r.1 "NULL" then Some (VNull, r.2) else n ← ParseUint r.1; Some (VInt n, r.2)
  end.
Definition parse_row (s : string) : option (list SqlValue * string) :=
  s ← after "(" s; parse_list parse_value ")" (S (String.length s)) s.
Definition parse_col (s : string) : option (string * string) := Some (word s).

Definition parse_shard (s : string) : option ((Z * ShardRow) * string) :=
  s ← after "(" s;
  '(id, s) ← upto ", " s; id ← ParseUint id;
  '(order, s) ← upto (", " +:+ String q "") s; order ← ParseUint order;
  '(sp, s) ← upto between s; '(cid, s) ← upto (String q ")") s;
  Some ((id, MkShardRow order sp cid), s).

Section Rows.
Context {A B : Type} (parse : string -> option (B * string)) (row : A -> string) (parsed : A -> B) (plain : A -> Prop).
Context (Hparse : forall x t, plain x -> parse (row x +:+ t) = Some (parsed x, t)).

Fixpoint parse_rows (fuel : nat) (s : string) : option (list B) :=
  match fuel with
  | O => None
  | S fuel =>
      '(x, s) ← parse s;
      if String.eqb s "" then Some [x] else s ← after ", " s; l ← parse_rows fuel s; Some (x :: l)
  end.

Lemma str_app_empty s : s +:+ "" = s.
Proof. induction s as [|c s IH]; [done|]. by rewrite str_app_cons, IH. Qed.

Lemma parse_values l fuel :
  l <> [] -> Forall plain l -> (length l <= fuel)%nat -> parse_rows fuel (values row l) = Some (parsed <$> l).
Proof.
  revert fuel. induction l as [|x l IH]; intros fuel Hne Hp Hf; [done|]. apply Forall_cons in Hp as [Hx Hp].
  destruct fuel as [|fuel]; [cbn in Hf; lia|]. cbn [parse_rows]. destruct l as [|y l].
  - rewrite <-(str_app_empty (values row [x])). unfold values. cbn [fmap list_fmap String.concat]. by rewrite Hparse.
  - rewrite values_cons by done. rewrite Hparse by done. cbn [mbind option_bind].
    destruct (String.eqb_spec (", " +:+ values row (y :: l)) "") as [E|_]; [done|].
    rewrite after_app. cbn [mbind option_bind]. rewrite IH; [done|done|done|cbn in *; lia].
Qed.
End Rows.

Lemma values_length_of {A} (row : A -> string) l :
  Forall (fun x => row x <> "") l -> (length l <= String.length (values row l))%nat.
Proof.
  assert (forall x, row x <> "" -> 1 <= String.length (row x))%nat as Hone.
  { intros x Hx. destruct (row x); [done|cbn; lia]. }
  induction l as [|x [|y l] IH]; intros Hl; [cbn; lia|apply Forall_cons in Hl as [Hx _]; exact (Hone x Hx)|].
  apply Forall_cons in Hl as [Hx Hl]. specialize (IH Hl).
  rewrite values_cons, !str_length_app by done. cbn [length] in *. specialize (Hone x Hx). lia.
Qed.
Lemma values_length {A} (row : A -> string) l :
  (forall x, row x <> "") -> (length l <= String.length (values row l))%nat.
Proof. intros Hrow. apply values_length_of, Forall_forall. auto. Qed.

(** ** The tables in memory *)
Module IndexNode.
Import ChainWorld MemDs.

#[export] Instance Texts : IndexTexts := { Metadata_Size _ := 40; Sprint_strings l := "[" +:+ String.concat " " l +:+ "]" }.

Lemma free_version n : free_of q ("v" +:+ format_d (Z.of_nat n)) = true.
Proof. rewrite str_app_cons. unfold free_of. cbn [all_chars]. rewrite str_app_nil. apply (free_of_format_d q); [lia|done]. Qed.

Lemma upto_sep sep a rest :
  match sep with String c _ => free_of c a = true | "" => False end -> upto sep (a +:+ sep +:+ rest) = Some (a, rest).
Proof. destruct sep as [|c sep]; [done|]. intros Ha. rewrite str_app_cons. by apply upto_free. Qed.

Lemma format_free c n : is_u64 n -> digit_value c = None -> free_of c (format_d n) = true.
Proof. intros [Hn _] Hc. by apply free_of_format_d. Qed.

Lemma all_stops a : free_of "," a = true -> free_of ")" a = true -> free_of " " a = true ->
  all_chars (fun c => negb (stops c)) a = true.
Proof.
  unfold free_of. induction a as [|c a IH]; [done|]. cbn [all_chars].
  intros [H1 H2]%andb_prop [H3 H4]%andb_prop [H5 H6]%andb_prop. apply andb_true_intro. split; [|by apply IH].
  unfold stops. by rewrite !negb_orb, H1, H3, H5.
Qed.

Lemma format_d_nonempty n : format_d n <> "".
Proof.
  assert (forall fuel n acc, acc <> "" -> format_go fuel n acc <> "") as Hgo.
  { induction fuel as [|fuel IH]; intros m acc Ha; [done|]. cbn. destruct (m <? 10); [done|]. by apply IH. }
  unfold format_d. destruct (n <? 0); [done|]. cbn [format_go]. destruct (n <? 10); [done|]. by apply Hgo.
Qed.
Lemma format_not_null n : is_u64 n -> format_d n <> "NULL".
Proof. intros Hn E. pose proof (format_free "N" n Hn eq_refl) as Hf. by rewrite E in Hf. Qed.
Lemma sql_text_nonempty v : sql_text v <> "".
Proof. destruct v; cbn [sql_text]; [done|done|apply format_d_nonempty]. Qed.

Lemma after_quote_format n s : 0 <= n -> after (String q "") (format_d n +:+ s) = None.
Proof.
  intros Hn. pose proof (free_of_format_d q n Hn eq_refl) as Hf. pose proof (format_d_nonempty n) as Hne.
  destruct (format_d n) as [|c a]; [done|]. rewrite str_app_cons. unfold free_of in Hf. cbn [all_chars] in Hf.
  apply andb_prop in Hf as [Hc _]. apply negb_true_iff in Hc. cbn [after]. by rewrite (Ascii.eqb_sym q c), Hc.
Qed.

Lemma parse_value_text v : sql_plain v -> forall rest, ends rest = true -> parse_value (sql_text v +:+ rest) = Some (v, rest).
Proof.
  intros Hv rest Hr. unfold parse_value. destruct v as [|s|n]; cbn [sql_text].
  - rewrite str_app_cons. cbn [after]. change (Ascii.eqb q "N") with false. cbv iota.
    rewrite <-str_app_cons, word_app by done. reflexivity.
  - replace (quoted s +:+ rest) with (String q "" +:+ s +:+ String q "" +:+ rest)
      by (unfold quoted; by rewrite ?str_app_cons, ?str_app_assoc, ?str_app_cons).
    rewrite after_app, upto_sep by exact Hv. reflexivity.
  - destruct Hv as [Hn Hn']. rewrite after_quote_format by done.
    rewrite word_app; [|apply all_stops; by apply format_free|done]. cbn [fst snd].
    rewrite (proj2 (String.eqb_neq _ _) (format_not_null n (conj Hn Hn'))). by rewrite ParseUint_format_d.
Qed.

Lemma parse_row_text cols vs t : cols <> [] -> row_plain cols vs -> parse_row (row_text vs +:+ t) = Some (vs, t).
Proof.
  intros Hcols (Hl & Hv & _). unfold parse_row, row_text. rewrite !str_app_assoc, after_app. cbn [mbind option_bind].
  apply (parse_list_text parse_value sql_text ")"); [done|done|by destruct vs, cols| |].
  - apply Nat.le_le_succ_r. etrans; [apply (values_length sql_text), sql_text_nonempty|].
    rewrite str_length_app. unfold values. lia.
  - eapply Forall_impl; [exact Hv|]. intros v. apply parse_value_text.
Qed.

Lemma shard_row_shape x t :
  shard_row x +:+ t = "(" +:+ format_d (sh_Id x) +:+ ", " +:+ format_d (sh_OrderId x) +:+ (", " +:+ String q "") +:+
    sh_Sp x +:+ between +:+ sh_Cid x +:+ String q ")" +:+ t.
Proof. unfold shard_row, quoted, between. repeat rewrite ?str_app_assoc, ?str_app_cons, ?str_app_nil. reflexivity. Qed.

Lemma parse_shard_row x t : shard_plain x -> parse_shard (shard_row x +:+ t) = Some ((sh_Id x, table_row x), t).
Proof.
  intros (Hsp & Hcid & Hi & Ho). unfold unquoted in *. rewrite shard_row_shape. unfold parse_shard. rewrite after_app.
  cbn [mbind option_bind]. do 2 (rewrite upto_sep by (by apply format_free); cbn [mbind option_bind];
    rewrite ParseUint_format_d by done; cbn [mbind option_bind]).
  do 2 (rewrite upto_sep by done; cbn [mbind option_bind]). done.
Qed.

(** Rows are entered if their keys are new. *)
Definition enter {K R} `{Countable K} (rows : list (K * R)) (tb : gmap K R) : option (gmap K R) :=
  if decide (NoDup rows.*1 /\ Forall (fun kr => tb !! kr.1 = None) rows) then Some (list_to_map rows ∪ tb) else None.

Definition tables : Type := gmap string MetaRow * gmap Z ShardRow.
Definition refused : error := EText "constraint failed".

Definition into_metadata : string := "INSERT INTO METADATA (".
Definition exec_stmt (text : string) (d : tables) : (unit + error) * tables :=
  match after into_metadata text with
  | Some s =>
      match parse_list parse_col ") VALUES " (S (String.length s)) s with
      | Some (cols, s) =>
          match parse_rows parse_row (S (String.length s)) s with
          | Some rows => match enter ((fun vs => (row_key cols vs, row_of_values cols vs)) <$> rows) d.1 with
                         | Some tb => (inl tt, (tb, d.2))
                         | None => (inr refused, d)
                         end
          | None => (inr refused, d)
          end
      | None => (inr refused, d)
      end
  | None =>
      match after insert_shard text with
      | Some s =>
          match parse_rows parse_shard (S (String.length s)) s with
          | Some rows => match enter rows d.2 with Some tb => (inl tt, (d.1, tb)) | None => (inr refused, d) end
          | None => (inr refused, d)
          end
      | None => (inl tt, d)
      end
  end.

#[export] Instance Db : SqlDb tables := {
  db_Exec := exec_stmt;
  db_QueryCount query args d :=
    (inl (match args with
          | [ArgText c] => if decide (is_Some (d.1 !! c)) then 1 else 0
          | [ArgInt o; ArgInt i] => match d.2 !! i with Some row => if sr_ORDERID row =? o then 1 else 0 | None => 0 end
          | _ => 0
          end), d)
}.

Lemma enter_spec {A K R} `{Countable K} (key : A -> K) (row_of : A -> R) l tb :
  enter ((fun x => (key x, row_of x)) <$> l) tb =
    if decide (NoDup (key <$> l) /\ Forall (fun x => tb !! key x = None) l) then Some (added key row_of l tb) else None.
Proof.
  unfold enter. rewrite <-list_fmap_compose. destruct (decide _) as [[Hn Hf]|Hn]; destruct (decide _) as [Hy|Hy]; try done.
  - destruct Hy. split; [done|]. by rewrite Forall_fmap in Hf.
  - destruct Hn, Hy. split; [done|]. by rewrite Forall_fmap.
Qed.

(** The names of columns. *)
Lemma column_word c : c ∈ METADATA_columns -> all_chars (fun c => negb (stops c)) c = true /\ c <> "".
Proof.
  intros Hc. assert (Forall (fun c => all_chars (fun c => negb (stops c)) c = true /\ c <> "") METADATA_columns) as Hall
    by (repeat constructor; done).
  rewrite Forall_forall in Hall. by apply Hall.
Qed.
Lemma parse_names close cols t :
  ends close = true -> (forall t, after ", " (close +:+ t) = None) -> cols <> [] -> cols ⊆ METADATA_columns ->
  let s := String.concat ", " cols +:+ close +:+ t in
  parse_list parse_col close (S (String.length s)) s = Some (cols, t).
Proof.
  intros He Hclose Hne Hc s. subst s.
  assert (String.concat ", " cols = values id cols) as -> by (unfold values; by rewrite list_fmap_id).
  apply (parse_list_text parse_col id close); [done..| |].
  - apply Nat.le_le_succ_r. rewrite str_length_app. etrans; [apply (values_length_of id)|lia].
    apply Forall_forall. intros c [_ Hn]%Hc%column_word. exact Hn.
  - apply Forall_forall. intros c [Hw _]%Hc%column_word rest Hr. unfold parse_col, id. by rewrite word_app.
Qed.

#[export] Instance DbLaws : SqlLaws tables.
Proof.
  refine {| db_ok _ := True; meta_table d := d.1; shard_table d := d.2 |}.
  - intros m. unfold is_u64, two64. cbn. lia.
  - intros cols rows d r d' Hl Hc Hp E. split; [done|]. cbn [db_Exec Db] in E. unfold exec_stmt in E.
    assert (cols <> []) as Hcols.
    { intros ->. destruct rows as [|vs rows]; [done|]. apply Forall_cons in Hp as [(_ & _ & k & [=]) _]. }
    assert (insert_stmt "METADATA" cols +:+ values row_text rows
      = into_metadata +:+ String.concat ", " cols +:+ ") VALUES " +:+ values row_text rows) as Et.
    { unfold insert_stmt, into_metadata. repeat rewrite ?str_app_assoc, ?str_app_cons, ?str_app_nil. reflexivity. }
    rewrite Et, after_app, parse_names in E by done.
    rewrite (parse_values parse_row row_text id (row_plain cols) (fun vs t => parse_row_text cols vs t Hcols) rows) in E;
      [|done|done|apply Nat.le_le_succ_r, values_length; done].
    rewrite list_fmap_id, enter_spec in E. destruct (decide _) as [Ha|Ha]; injection E as <- <-; [by split|]. intros _ Ha'. by apply Ha.
  - intros l d r d' Hl Hp E. split; [done|]. cbn in E. unfold exec_stmt in E.
    assert (after into_metadata (insert_shard +:+ values shard_row l) = None) as En by done. rewrite En in E.
    rewrite after_app in E.
    rewrite (parse_values parse_shard shard_row _ shard_plain parse_shard_row l) in E;
      [|done|done|apply Nat.le_le_succ_r, values_length; done].
    rewrite enter_spec in E. destruct (decide _) as [Ha|Ha]; injection E as <- <-; [by split|]. intros _ Ha'. by apply Ha.
  - intros c d r d' [= <- <-]. split; [done|]. split; [done|]. destruct (decide _) as [Hs|Hs];
      [by rewrite bool_decide_true|by rewrite bool_decide_false].
  - intros o i d r d' [= <- <-]. split; [done|]. split; [done|]. cbn. destruct (d.2 !! i) as [row|]; [|done].
    by destruct (sr_ORDERID row =? o).
Defined.

#[export] Instance Listed : ListLaws cw.
Proof.
  refine {| chain_up _ := True; listed_meta := cw_metas; listed_shards _ := all_shards |}.
  - by intros offset limit c r c' [= <- <-].
  - by intros offset limit c r c' [= <- <-].
Defined.

(** ** Chains with few and with many models *)
Definition model (i : nat) : Metadata :=
  MkMetadata ("v" +:+ format_d (Z.of_nat i)) "did:sid:1" "notes" "platform" 7 [] "" [] "" 0 [7] 90 1000
    ("v" +:+ format_d (Z.of_nat i)) [] [].
Definition chain_of (n : nat) : ch (C := cw) := Ch (Cw 100 ∅ (model <$> seq 0 n) []) None ∅.
Definition no_rows : tables := (∅, ∅).

Lemma model_plain i : meta_plain (model i).
Proof.
  unfold meta_plain, unquoted. repeat (apply Forall_cons; split; [first [reflexivity|apply free_version]|]). apply Forall_nil_2.
Qed.
Lemma models_plain n : Forall meta_plain (model <$> seq 0 n).
Proof. apply Forall_fmap, Forall_forall. intros i _. apply model_plain. Qed.

(** Three models are entered. *)
Lemma small_index_witness :
  exists s', metadata_index 2 "platform" (chain_of 3, no_rows) = (Ret tt, s') /\
    meta_table s'.2 !! "v2" = Some (meta_row (model 2)).
Proof.
  destruct (small_index "platform" (chain_of 3) no_rows 2) as (s' & Hrun & Ht).
  - exact (models_plain 3).
  - vm_compute. lia.
  - apply (bool_decide_unpack _). vm_compute. exact I.
  - split; exact I.
  - lia.
  - exists s'. split; [exact Hrun|]. rewrite Ht. vm_compute. reflexivity.
Defined.

(** On a chain with 120 models nothing is ever entered. *)
Lemma large_index_fails_witness :
  exists e s', metadata_index 3 "platform" (chain_of 120, no_rows) = (Fail e, s').
Proof.
  apply (large_index_fails "platform" (chain_of 120) no_rows 3 5 (model 5)).
  - exact (models_plain 120).
  - vm_compute. reflexivity.
  - apply Nat.ltb_lt. vm_compute. reflexivity.
  - apply Nat.leb_le. vm_compute. reflexivity.
  - lia.
  - vm_compute. reflexivity.
  - reflexivity.
  - vm_compute. reflexivity.
Defined.

Lemma all_shards_plain : Forall shard_plain all_shards.
Proof. repeat (apply Forall_cons; split; [by vm_compute|]). apply Forall_nil_2. Qed.

Lemma shards_indexed_witness :
  exists s', sp_shard_index 2 "sao1sp" (chain_of 0, no_rows) = (Ret tt, s') /\
    shard_table s'.2 = {[12 := MkShardRow 7 "sao1sp" "Qa"]}.
Proof.
  destruct (shards_indexed "sao1sp" (chain_of 0) no_rows 2) as [Hsmall _].
  - exact all_shards_plain.
  - vm_compute. reflexivity.
  - vm_compute. lia.
  - apply (bool_decide_unpack _). vm_compute. exact I.
  - split; exact I.
  - intros x row _ Hx. discriminate Hx.
  - destruct Hsmall as (s' & Hrun & Ht & _); [vm_compute; lia|]. exists s'. split; [exact Hrun|]. rewrite Ht. vm_compute. reflexivity.
Defined.

(** ** The index service *)
#[export] Instance Pending : PendingJson := {
  Pending_Unmarshal _ := inl [(OrderInfo_zero, ShardInfo_zero, Some (MkJob "1" "first" JobStatusPending None None));
                              (OrderInfo_zero, ShardInfo_zero, Some (MkJob "2" "second" JobStatusPending None None))]
}.
Definition many : Job := MkJob "id" "many models" JobStatusPending (Some (MetadataIndex "platform")) None.
Definition pending_ds : gmap string bytes := {[NewKey (D := gmap string bytes) "pending_jobs" := string_bytes "[]"]}.
Definition service : ixs (C := cw) (D := tables) (T := gmap string bytes) :=
  Ixs (chain_of 120, no_rows) {[0%nat := many]} 1 {["id" := 0%nat]}
    [Own (MkWorkRequest OrderInfo_zero ShardInfo_zero (Some 0%nat))]
    (MkWorkRequest OrderInfo_zero ShardInfo_zero None) pending_ds.

(** The job on the large chain fails and is pending again, in the queue. *)
Lemma turn_outcome_witness :
  exists e s', run_sched 3 service = (Ret tt, s') /\ is_queue s' = is_queue service /\
    is_jobs s' !! 0%nat = Some (with_status JobStatusPending (Some e) many).
Proof.
  pose proof (turn_outcome 3 service _ [] _ 0%nat many (MetadataIndex "platform") eq_refl (or_introl eq_refl) eq_refl eq_refl
    ltac:(discriminate) eq_refl) as Hrun.
  destruct (run_func 3 (MetadataIndex "platform") (is_cd service)) as [o cd] eqn:E.
  assert (exists e, o = Fail e) as [e ->].
  { assert (fst (run_func 3 (MetadataIndex "platform") (is_cd service)) = o) as <- by (rewrite E; reflexivity).
    vm_compute. eexists. reflexivity. }
  exists e. eexists. split; [exact Hrun|]. split; [reflexivity|]. cbn. apply lookup_insert_eq.
Defined.

Lemma pending_all_last_witness :
  exists s' r a, processPendingJobs service = (Ret tt, s') /\ is_queue s' = is_queue service ++ [LoopVar; LoopVar] /\
    request_of LoopVar s' = (Ret r, s') /\ wr_Job r = Some a /\
    is_jobs s' !! a = Some (MkJob "2" "second" JobStatusPending None None).
Proof.
  eapply (pending_all_last service _ OrderInfo_zero ShardInfo_zero _
    [(OrderInfo_zero, ShardInfo_zero, Some (MkJob "1" "first" JobStatusPending None None))]).
  - intros a Ha. cbn in *. apply lookup_singleton_ne. lia.
  - vm_compute. reflexivity.
  - reflexivity.
Defined.

(** ** Queries *)
Definition select_from (q : string) : option (list string) :=
  s ← after "SELECT " q; '(cols, rest) ← parse_list parse_col " FROM METADATA " (S (String.length s)) s;
  if String.eqb rest "" then Some cols else None.
#[export] Instance Query : SqlQuery tables := {
  db_Query q d :=
    match select_from q with
    | Some cols => (inl ((fun row => value_at METADATA_columns row.2 <$> cols) <$> map_to_list d.1, None), d)
    | None => if String.eqb q shards_query then (inl (shard_values <$> map_to_list d.2, None), d)
              else (inr (EText "syntax error"), d)
    end;
  db_QueryRow q d := (inr (EText "syntax error"), d);
  Scan_error i v := EText "sql: Scan error on column";
  Scan_count n m := EText "sql: wrong number of columns"
}.
Lemma select_from_text cols : cols <> [] -> cols ⊆ METADATA_columns -> select_from (select_stmt "METADATA" cols) = Some cols.
Proof.
  intros Hne Hc. unfold select_from.
  replace (select_stmt "METADATA" cols) with ("SELECT " +:+ String.concat ", " cols +:+ " FROM METADATA " +:+ "") by reflexivity.
  rewrite after_app. cbn [mbind option_bind]. by rewrite parse_names.
Qed.
#[export] Instance Queried : QueryLaws tables.
Proof.
  split.
  - intros cols d r d' Hne Hc E _. cbn [db_Query Query] in E. rewrite select_from_text in E by done.
    injection E as <- <-. by eexists.
  - intros d r d' [= <- <-] _. by eexists.
Qed.
#[local] Instance Uuids : UuidText := { uuid_UnmarshalText s := inl s }.

(** The shards of one node, after the job. *)
Definition empty_service : ixs (C := cw) (D := tables) (T := gmap string bytes) :=
  Ixs (chain_of 0, no_rows) ∅ 0 ∅ [] (MkWorkRequest OrderInfo_zero ShardInfo_zero None) ∅.

(** Three models are on the chain: once they are in the table they cannot be listed. *)
Definition model_service : ixs (C := cw) (D := tables) (T := gmap string bytes) :=
  Ixs (chain_of 3, no_rows) ∅ 0 ∅ [] (MkWorkRequest OrderInfo_zero ShardInfo_zero None) ∅.
Lemma models_not_listed_witness :
  ((on_cd (metadata_index 2 "platform") ;; Metadatas no_query) model_service).1 = Fail (Scan_error 2 VNull) /\
  (Metadatas no_query model_service).1 = Ret (all_of []).
Proof.
  split; [|vm_compute; reflexivity]. rewrite (models_not_listed "platform" 2 model_service).
  - vm_compute. reflexivity.
  - split; exact I.
  - vm_compute. lia.
  - lia.
  - exact (models_plain 3).
  - apply (bool_decide_unpack _). vm_compute. exact I.
  - intros k row Hk. discriminate Hk.
Defined.
End IndexNode.
