(* ===== verification/RepoSample.v ===== *)
(** * A repository to run

    A line-based codec for the configuration, a machine with files and directories,
    and the witnesses of the theorems of [RepoTheorems]. *)
From stdpp Require Import base list gmap strings countable.
From Stdlib Require Import ZArith Lia Ascii.
From S2P Require Import Prelude Types ChainApi SampleWorld Stage Chain NodeApi Upload UploadTheorems Client.
From S2P Require Import Config Repo RepoTheorems.

(** ** Texts of values: letters between quotes *)
Fixpoint letters (p : positive) : string :=
  match p with xH => "" | xO p => String "a" (letters p) | xI p => String "b" (letters p) end.
Fixpoint unletters (s : string) : positive :=
  match s with "" => xH | String c s => if Ascii.eqb c "a" then xO (unletters s) else xI (unletters s) end.
Definition unquoted (s : string) : string := String.substring 1 (String.length s - 2) s.
Definition text_of {A} `{Countable A} (x : A) : string := String "'" (letters (encode x) +:+ "'").
Arguments text_of : simpl never.
Definition value_of {A} `{Countable A} (s : string) : option A := decode (unletters (unquoted s)).

Lemma substring_all s t : String.substring 0 (String.length s) (s +:+ t) = s.
Proof. induction s as [|c s IH]; [by destruct t|]. rewrite str_app_cons. cbn. by rewrite IH. Qed.
Lemma unletters_letters p : unletters (letters p) = p.
Proof. induction p as [p IH|p IH|]; cbn; congruence. Qed.
Lemma length_str_app s t : String.length (s +:+ t) = (String.length s + String.length t)%nat.
Proof. induction s as [|c s IH]; [done|]. rewrite str_app_cons. cbn. by rewrite IH. Qed.
Lemma value_text {A} `{Countable A} (x : A) : value_of (text_of x) = Some x.
Proof.
  unfold value_of, text_of, unquoted. cbn [String.length String.substring]. rewrite length_str_app. cbn [String.length].
  replace (S (String.length (letters (encode x)) + 1) - 2)%nat with (String.length (letters (encode x))) by lia.
  by rewrite substring_all, unletters_letters, decode_encode.
Qed.
Lemma text_inj {A} `{Countable A} (x y : A) : text_of x = text_of y -> x = y.
Proof. intros E. apply (f_equal (value_of (A := A))) in E. rewrite !value_text in E. by injection E. Qed.

(** *** Plain texts: no space but the blank *)
Definition plain (s : string) : bool := all_chars (byte_in 32 126) s.
Lemma plain_both s t : plain (s +:+ t) = plain s && plain t.
Proof. apply all_chars_app. Qed.
Lemma plain_printable s : plain s = true -> printable s = true.
Proof.
  unfold plain, printable. induction s as [|c s IH]; [done|]. cbn [all_chars]. intros [Hc Hs]%andb_prop. rewrite (IH Hs), andb_true_r.
  unfold byte_in, is_byte in *. apply andb_prop in Hc as [H1 H2]. rewrite H1. cbn. apply Nat.leb_le in H2.
  apply negb_true_iff, Nat.eqb_neq. lia.
Qed.
Lemma plain_letters p : plain (letters p) = true.
Proof. by induction p. Qed.

Lemma TrimLeft_plain c s :
  byte_in 32 126 c = true -> TrimLeft (String c s) = if is_byte 32 c then TrimLeft s else String c s.
Proof.
  intros Hc. destruct (is_byte 32 c) eqn:E.
  - unfold TrimLeft. cbn [trim_left]. unfold space_len, space1. by rewrite E, orb_true_r.
  - apply TrimLeft_solid. unfold solid, space1. rewrite E. unfold byte_in, is_byte in *. apply andb_prop in Hc as [H1 H2].
    apply Nat.leb_le in H1, H2. rewrite (proj2 (Nat.leb_gt _ 13)) by lia. rewrite andb_false_r. cbn.
    by rewrite !(proj2 (Nat.eqb_neq _ _)) by lia.
Qed.
Lemma TrimLeft_last s z : plain s = true -> byte_in 33 126 z = true -> exists t, TrimLeft (s +:+ String z "") = t +:+ String z "".
Proof.
  intros Hs Hz. assert (byte_in 32 126 z = true /\ is_byte 32 z = false) as [Hz1 Hz2].
  { unfold byte_in, is_byte in *. apply andb_prop in Hz as [H1%Nat.leb_le H2%Nat.leb_le].
    rewrite !(proj2 (Nat.leb_le _ _)) by lia. split; [done|]. apply Nat.eqb_neq. lia. }
  induction s as [|c s IH].
  - exists "". rewrite str_app_nil, TrimLeft_plain by done. by rewrite Hz2.
  - cbn in Hs. apply andb_prop in Hs as [Hc Hs]. rewrite str_app_cons, TrimLeft_plain by done.
    destruct (is_byte 32 c); [by apply IH|]. exists (String c s). by rewrite str_app_cons.
Qed.
Lemma TrimRight_last s z : plain s = true -> byte_in 33 126 z = true -> TrimRight (s +:+ String z "") = s +:+ String z "".
Proof.
  intros Hs Hz. induction s as [|c s IH].
  - rewrite str_app_nil. cbn [TrimRight]. destruct (TrimLeft_last "" z) as [t Ht]; [done..|]. rewrite str_app_nil in Ht. rewrite Ht.
    destruct t; [|rewrite str_app_cons]; done.
  - rewrite str_app_cons. cbn [TrimRight]. destruct (TrimLeft_last (String c s) z) as [t Ht]; [done..|].
    rewrite str_app_cons in Ht. rewrite Ht. cbn in Hs. apply andb_prop in Hs as [_ Hs]. rewrite IH by done.
    destruct t; [rewrite str_app_nil|rewrite str_app_cons]; done.
Qed.

(** ** Lines *)
Definition header (section : string) : string := "[" +:+ section +:+ "]".
Definition field_line (f : string * string * string) : string := "  " +:+ field_text f.
Fixpoint enc_lines (prev : string) (fs : list (string * string * string)) : list string :=
  match fs with
  | [] => []
  | f :: fs => (if String.eqb f.1.1 prev then [] else [header f.1.1]) ++ field_line f :: enc_lines f.1.1 fs
  end.

Definition good_section (section : string) : bool :=
  plain section && String.eqb (TrimSpace (header section)) (header section) &&
  match section_name (header section) with Some s => String.eqb s section | None => false end.
Definition good_name (name : string) : bool :=
  plain name && free_of " " name && match name with String c _ => byte_in 33 126 c && negb (Ascii.eqb c "#") && negb (Ascii.eqb c "[") | "" => false end.
Definition good_text (text : string) : Prop := exists u z, text = u +:+ String z "" /\ plain u = true /\ byte_in 33 126 z = true.
Definition good_field (f : string * string * string) : Prop :=
  good_section f.1.1 = true /\ good_name f.1.2 = true /\ good_text f.2.

Lemma good_text_of {A} `{Countable A} (x : A) : good_text (text_of x).
Proof. exists (String "'" (letters (encode x))), "'"%char. split; [done|]. split; [|done]. cbn. apply plain_letters. Qed.

Lemma good_field_text f :
  good_field f -> TrimSpace (field_line f) = field_text f /\ key_text (field_text f) = true /\ plain (field_text f) = true.
Proof.
  intros (_ & Hn & u & z & Et & Hu & Hz). unfold field_line, field_text, good_name in *. rewrite Et.
  destruct f.1.2 as [|c name]; [by rewrite andb_false_r in Hn|]. apply andb_prop in Hn as [[Hp _]%andb_prop [[Hc Hc1]%andb_prop Hc2]%andb_prop].
  assert (plain (String c name +:+ " = " +:+ u) = true) as Hpl by by rewrite !plain_both, Hp, Hu.
  rewrite <-!str_app_assoc. rewrite !str_app_assoc. rewrite <-(str_app_assoc " = "), <-(str_app_assoc (String c name)).
  assert (byte_in 32 126 z = true /\ byte_in 32 126 c = true /\ is_byte 32 c = false) as (Hz' & Hc' & Hb).
  { unfold byte_in, is_byte in *. apply andb_prop in Hz as [H1%Nat.leb_le H2%Nat.leb_le], Hc as [H3%Nat.leb_le H4%Nat.leb_le].
    rewrite !(proj2 (Nat.leb_le _ _)) by lia. split_and!; [done..|]. apply Nat.eqb_neq. lia. }
  split_and!.
  - unfold TrimSpace. rewrite <-(str_app_assoc "  "). change "  " with (spaces 2). rewrite (str_app_assoc (spaces 2)), TrimLeft_spaces.
    rewrite !str_app_cons. rewrite TrimLeft_plain, Hb by done. rewrite <-!str_app_cons. by apply TrimRight_last.
  - unfold key_text. rewrite !str_app_cons. cbn. by rewrite Hc1, Hc2.
  - rewrite plain_both, Hpl. cbn. by rewrite Hz'.
Qed.

Lemma key_not_header l : key_text (TrimSpace l) = true -> header_line l = false.
Proof. unfold key_text, header_line. intros [_ H]%andb_prop. by apply negb_true_iff in H. Qed.

Lemma read_header prev section l :
  good_section section = true -> read_lines prev (header section :: l) = read_lines section l.
Proof.
  unfold good_section. intros [[_ Hh%String.eqb_eq]%andb_prop Hs]%andb_prop. cbn [read_lines]. unfold header_line. rewrite Hh.
  destruct (section_name _) as [s|]; [|done]. by apply String.eqb_eq in Hs as ->.
Qed.

Lemma read_enc_lines prev fs : Forall good_field fs -> read_lines prev (enc_lines prev fs) = line_of <$> fs.
Proof.
  intros Hf. revert prev. induction Hf as [|f fs Hf _ IH]; intros prev; [done|]. cbn [enc_lines].
  destruct (good_field_text f Hf) as (Ht & Hk & _), Hf as (Hs & _ & _).
  assert (forall sec, read_lines sec (field_line f :: enc_lines f.1.1 fs) = (sec, field_text f) :: read_lines sec (enc_lines f.1.1 fs)) as Hline.
  { intros sec. cbn [read_lines]. rewrite key_not_header by by rewrite Ht. unfold key_line. by rewrite Ht, Hk. }
  cbn [fmap list_fmap]. unfold line_of at 1. destruct (String.eqb_spec f.1.1 prev) as [E|_].
  - cbn [app]. rewrite Hline, <-E, IH. done.
  - cbn [app]. rewrite read_header, Hline, IH by done. done.
Qed.

Lemma enc_lines_good prev fs :
  Forall good_field fs -> Forall (fun l => plain l = true) (enc_lines prev fs) /\ named_headers (enc_lines prev fs).
Proof.
  intros Hf. revert prev. induction Hf as [|f fs Hf _ IH]; intros prev; [by split; constructor|]. cbn [enc_lines].
  destruct (good_field_text f Hf) as (Ht & Hk & Hp), Hf as (Hs & _ & _), (IH f.1.1) as [IH1 IH2].
  unfold good_section in Hs. apply andb_prop in Hs as [[Hps Hh%String.eqb_eq]%andb_prop Hs]. split.
  - apply Forall_app. split; [|by constructor; [unfold field_line; rewrite plain_both, Hp|]]. destruct (String.eqb _ _); constructor; [|constructor].
    unfold header. by rewrite !plain_both, Hps.
  - apply Forall_app. split; [|constructor; [|done]].
    + destruct (String.eqb _ _); constructor; [|constructor]. intros _. rewrite Hh. by destruct (section_name _).
    + rewrite key_not_header by by rewrite Ht. done.
Qed.

(** ** The codec *)
Lemma cut_prefix s sep :
  String.prefix sep s = true -> cut s sep = Some ("", String.substring (String.length sep) (String.length s - String.length sep) s).
Proof. destruct s; cbn [cut]; by intros ->. Qed.
Lemma cut_free name rest : free_of " " name = true -> cut (name +:+ " = " +:+ rest) " = " = Some (name, rest).
Proof.
  unfold free_of. induction name as [|c name IH]; intros Hn.
  - rewrite str_app_nil, cut_prefix by apply prefix_app. f_equal. f_equal. rewrite length_str_app.
    change (String.length " = ") with 3%nat. rewrite Nat.add_comm, Nat.add_sub. rewrite !str_app_cons, str_app_nil. cbn.
    rewrite <-(str_app_nil_r rest) at 2. apply substring_all.
  - cbn in Hn. apply andb_prop in Hn as [Hc Hn]. rewrite str_app_cons. cbn [cut String.prefix].
    destruct (ascii_dec " " c) as [<-|_]; [done|]. by rewrite IH.
Qed.
Definition line_is (f : string * string * string) (e : string * string) : bool :=
  String.eqb e.1 f.1.1 && match cut e.2 " = " with Some (name, _) => String.eqb name f.1.2 | None => false end.
Definition line_value (l : string) : string := match cut l " = " with Some (_, v) => v | None => "" end.
Definition read_field (ls : list (string * string)) (g : string * string * string) : string :=
  match List.find (line_is g) ls with Some e => line_value e.2 | None => g.2 end.

#[export] Instance RTexts : TomlTexts := {
  t_string := text_of; t_int := text_of; t_bool := text_of; t_strings := text_of; t_duration := text_of; utf8 _ := True
}.

Definition of_texts (l : list string) : option Config :=
  match l with
  | [a1; a2; a3; b1; b2; c1; c2; c3; d1; d2; e1; e2; e3; e4; e5; e6; e7; f1; f2; f3; f4; f5; f6; g1; g2; g3; h1; _; i1; j1; j2] =>
      a1 ← value_of a1; a2 ← value_of a2; a3 ← value_of a3; b1 ← value_of b1; b2 ← value_of b2;
      c1 ← value_of c1; c2 ← value_of c2; c3 ← value_of c3; d1 ← value_of d1; d2 ← value_of d2;
      e1 ← value_of e1; e2 ← value_of e2; e3 ← value_of e3; e4 ← value_of e4; e5 ← value_of e5; e6 ← value_of e6; e7 ← value_of e7;
      f1 ← value_of f1; f2 ← value_of f2; f3 ← value_of f3; f4 ← value_of f4; f5 ← value_of f5; f6 ← value_of f6;
      g1 ← value_of g1; g2 ← value_of g2; g3 ← value_of g3; h1 ← value_of h1; i1 ← value_of i1; j1 ← value_of j1; j2 ← value_of j2;
      Some (MkConfig (MkChainConf a1 a2 a3) (MkLibp2pConf b1 b2) (MkModuleConf c1 c2 c3) (MkTransportConf d1 d2)
              (MkCacheConf e1 e2 e3 e4 e5 e6 e7) (MkHttpConf f1 f2 f3 f4 f5 f6) (MkApiConf g1 g2 g3) (MkStorageConf h1 []) i1
              (MkIndexerConf j1 j2))
  | _ => None
  end.

#[export] Instance RToml : ConfigToml := {
  Toml_Encode c := if bool_decide (Ipfs (cf_Storage c) = []) then inl (String.concat nl (enc_lines "" (fields c)))
                   else inr (EText "tables of connections are not written here");
  Toml_Decode t def := match of_texts (read_field (read_lines "" (Split t newline)) <$> fields def) with
                       | Some c => inl c
                       | None => inr (EText "not a configuration")
                       end
}.

Lemma fields_good c : Forall good_field (fields c).
Proof.
  destruct c as [[] [] [] [] [] [] [] [] ? []]. unfold fields.
  do 31 (constructor; [split; [reflexivity|split; [reflexivity|]];
    cbn [fst snd t_string t_int t_bool t_strings t_duration RTexts]; first [apply good_text_of|by exists "[", "]"%char]|]).
  constructor.
Qed.
Lemma of_texts_fields c : Ipfs (cf_Storage c) = [] -> of_texts (fields c).*2 = Some c.
Proof.
  destruct c as [[] [] [] [] [] [] [] [h1 h2] ? []]. cbn [cf_Storage Ipfs]. intros ->. unfold fields.
  cbn [fmap list_fmap fst snd t_string t_int t_bool t_strings t_duration RTexts]. unfold of_texts. rewrite !value_text. reflexivity.
Qed.

Lemma edited_sublist section a b : edited a b -> read_lines section b `sublist_of` read_lines section a.
Proof.
  intros He. revert section. induction He as [|l a b _ IH|l a b Hk _ IH|a b _ IH|n text a b Hp _ IH]; intros section; cbn [read_lines].
  - done.
  - destruct (header_line l), (key_line l); try apply IH. by apply sublist_skip.
  - rewrite key_not_header by done. rewrite Hk. by apply sublist_cons.
  - apply IH.
  - destruct (comment_not_key n text) as [-> ->]. apply IH.
Qed.

(** The names of the values, each one its own. *)
Definition keys : list (string * string) := (fields DefaultSaoNode).*1.
Lemma fields_keys c : (fields c).*1 = keys.
Proof. by destruct c. Qed.
Lemma keys_NoDup : NoDup keys.
Proof. apply (bool_decide_unpack _). vm_compute. exact I. Qed.
Lemma fields_key c i f : fields c !! i = Some f -> keys !! i = Some f.1.
Proof. intros Hf. by rewrite <-(fields_keys c), list_lookup_fmap, Hf. Qed.

Lemma line_is_line g f : good_field f -> line_is g (line_of f) = bool_decide (f.1 = g.1).
Proof.
  intros (_ & Hn & _). unfold good_name in Hn. apply andb_prop in Hn as [[_ Hn]%andb_prop _]. unfold line_is, line_of, field_text. cbn [fst snd].
  rewrite cut_free by done. destruct f as [[sec name] v], g as [[sec' name'] v']. cbn. apply eq_bool_prop_intro. split.
  - intros [->%String.eqb_eq ->%String.eqb_eq]%Is_true_true%andb_prop. by rewrite bool_decide_true.
  - intros [= -> ->]%bool_decide_unpack. by rewrite !String.eqb_refl.
Qed.
Lemma line_value_line f : good_field f -> line_value (line_of f).2 = f.2.
Proof.
  intros (_ & Hn & _). unfold good_name in Hn. apply andb_prop in Hn as [[_ Hn]%andb_prop _]. unfold line_value, line_of, field_text. cbn [fst snd].
  by rewrite cut_free.
Qed.

Lemma read_field_spec c ls i f g :
  ls `sublist_of` (line_of <$> fields c) -> fields c !! i = Some f -> f.1 = g.1 ->
  read_field ls g = if bool_decide (line_of f ∈ ls) then f.2 else g.2.
Proof.
  intros Hls Hf Hg. assert (forall f', f' ∈ fields c -> good_field f') as Hgood.
  { intros f' Hf'. pose proof (fields_good c) as H. rewrite List.Forall_forall in H. by apply H, list_elem_of_In. }
  assert (forall e, e ∈ ls -> exists f', e = line_of f' /\ good_field f' /\ (f'.1 = g.1 -> f' = f)) as Hin.
  { intros e He. apply (elem_of_submseteq _ (line_of <$> fields c)) in He; [|by apply sublist_submseteq].
    apply list_elem_of_fmap_1 in He as (f' & -> & Hf'). exists f'. split; [reflexivity|]. split; [by apply Hgood|]. intros E.
    apply list_elem_of_lookup_1 in Hf' as [j Hj]. assert (j = i) as ->; [|congruence].
    eapply NoDup_lookup; [apply keys_NoDup|by eapply fields_key|]. rewrite E, <-Hg. by eapply fields_key. }
  unfold read_field. destruct (List.find _ ls) as [e|] eqn:E.
  - apply List.find_some in E as [He%list_elem_of_In Hl]. destruct (Hin e He) as (f' & -> & Hgf & Heq). rewrite line_is_line in Hl by done.
    apply bool_decide_eq_true in Hl. rewrite (Heq Hl) in *. rewrite bool_decide_true by done. by apply line_value_line.
  - rewrite bool_decide_false; [done|]. intros He%list_elem_of_In. apply (List.find_none _ _ E) in He. rewrite line_is_line in He.
    + apply bool_decide_eq_false in He. done.
    + apply Hgood. by eapply list_elem_of_lookup_2.
Qed.

(** A value of the one or of the other, as [p] says. *)
Definition mix (p : nat -> bool) (c d : Config) : Config :=
  let 'MkConfig (MkChainConf a1 a2 a3) (MkLibp2pConf b1 b2) (MkModuleConf c1 c2 c3) (MkTransportConf d1 d2)
        (MkCacheConf e1 e2 e3 e4 e5 e6 e7) (MkHttpConf f1 f2 f3 f4 f5 f6) (MkApiConf g1 g2 g3) (MkStorageConf h1 h2) i1
        (MkIndexerConf j1 j2) := c in
  let 'MkConfig (MkChainConf a1' a2' a3') (MkLibp2pConf b1' b2') (MkModuleConf c1' c2' c3') (MkTransportConf d1' d2')
        (MkCacheConf e1' e2' e3' e4' e5' e6' e7') (MkHttpConf f1' f2' f3' f4' f5' f6') (MkApiConf g1' g2' g3') (MkStorageConf h1' h2') i1'
        (MkIndexerConf j1' j2') := d in
  let m {A} i (x y : A) := if p i then x else y in
  MkConfig (MkChainConf (m 0 a1 a1') (m 1 a2 a2') (m 2 a3 a3'))%nat (MkLibp2pConf (m 3 b1 b1') (m 4 b2 b2'))%nat
    (MkModuleConf (m 5 c1 c1') (m 6 c2 c2') (m 7 c3 c3'))%nat (MkTransportConf (m 8 d1 d1') (m 9 d2 d2'))%nat
    (MkCacheConf (m 10 e1 e1') (m 11 e2 e2') (m 12 e3 e3') (m 13 e4 e4') (m 14 e5 e5') (m 15 e6 e6') (m 16 e7 e7'))%nat
    (MkHttpConf (m 17 f1 f1') (m 18 f2 f2') (m 19 f3 f3') (m 20 f4 f4') (m 21 f5 f5') (m 22 f6 f6'))%nat
    (MkApiConf (m 23 g1 g1') (m 24 g2 g2') (m 25 g3 g3'))%nat (MkStorageConf (m 26 h1 h1')%nat []) (m 28 i1 i1')%nat
    (MkIndexerConf (m 29 j1 j1') (m 30 j2 j2'))%nat.
Lemma mix_fields p c d :
  fields (mix p c d) = imap (fun i fg => if p i then fg.1 else fg.2) (zip (fields c) (fields d)).
Proof.
  destruct c as [[] [] [] [] [] [] [] [] ? []], d as [[] [] [] [] [] [] [] [] ? []]. unfold mix, fields, imap, compose. cbn.
  repeat (apply (f_equal2 cons); [first [by destruct (p _)|done]|]). done.
Qed.

Lemma mix_writable p c d : writable (mix p c d).
Proof.
  split; [by destruct c as [[] [] [] [] [] [] [] [] ? []], d as [[] [] [] [] [] [] [] [] ? []]|].
  generalize (texts_of (mix p c d)). intros l. induction l; constructor; [exact I|done].
Qed.
Lemma enc_split c : Split (String.concat nl (enc_lines "" (fields c))) newline = enc_lines "" (fields c).
Proof.
  apply Split_concat; [by destruct c|]. destruct (enc_lines_good "" (fields c) (fields_good c)) as [Hp _].
  eapply List.Forall_impl; [|exact Hp]. intros l Hl. by apply printable_newline, plain_printable.
Qed.

#[export] Instance RTomlLaws : TomlLaws.
Proof.
  split; try (intros ? ?; apply text_inj); try (intros ? ? _ _; apply text_inj); [intros; exact I| |].
  - intros c [Hc _]. eexists. cbn [Toml_Encode RToml]. rewrite bool_decide_true by done. split; [reflexivity|].
    destruct (enc_lines_good "" (fields c) (fields_good c)) as [Hp Hn]. rewrite enc_split. split_and!; [|done|].
    + eapply List.Forall_impl; [|exact Hp]. apply plain_printable.
    + by apply read_enc_lines, fields_good.
  - intros c def t t' [Hc _] [Hd _] Et He. cbn [Toml_Encode RToml] in Et. rewrite bool_decide_true in Et by done. injection Et as <-.
    rewrite enc_split in He. apply (edited_sublist "") in He. rewrite read_enc_lines in He by apply fields_good.
    set (ls := read_lines "" (Split t' newline)) in *. cbn [Toml_Decode RToml]. fold ls.
    pose (p i := match fields c !! i with Some f => bool_decide (line_of f ∈ ls) | None => false end).
    assert (fields (mix p c def) = zip_with (fun f g => if bool_decide (line_of f ∈ ls) then f else g) (fields c) (fields def)) as Hmix.
    { rewrite mix_fields. apply list_eq. intros i. rewrite list_lookup_imap, !lookup_zip_with.
      destruct (fields c !! i) as [f|] eqn:Hf; [|done]. destruct (fields def !! i) as [g|]; [|done]. cbn. unfold p. by rewrite Hf. }
    assert (read_field ls <$> fields def = (fields (mix p c def)).*2) as Hread.
    { rewrite Hmix. apply list_eq. intros i. rewrite !list_lookup_fmap, lookup_zip_with. destruct (fields c !! i) as [f|] eqn:Hf.
      + destruct (fields def !! i) as [g|] eqn:Hg; [|done]. cbn. rewrite (read_field_spec c ls i f g); [by case_bool_decide|done..|].
        apply fields_key in Hf, Hg. congruence.
      + apply lookup_ge_None in Hf. rewrite lookup_ge_None_2; [done|]. by rewrite fields_length in *. }
    exists (mix p c def). split_and!; [|by apply mix_writable|exact Hmix]. rewrite Hread, of_texts_fields; [done|by apply mix_writable].
Qed.

(** ** A machine *)
Module RepoNode.
Record machine := Machine { m_files : gmap string bytes; m_dirs : gset string }.
Definition absent : error := EText "no such file or directory".

#[export] Instance RFiles : FileSys machine := {
  File := string;
  homedir_Expand p := inl p;
  os_IsExist _ := false;
  os_MkdirAll p w := (inl tt, Machine (m_files w) ({[p]} ∪ m_dirs w));
  os_Create p w := (inl p, Machine (<[p := []]> (m_files w)) (m_dirs w));
  file_Write f b w := match m_files w !! f with
                      | Some old => (inl tt, Machine (<[f := old ++ b]> (m_files w)) (m_dirs w))
                      | None => (inr absent, w)
                      end;
  file_Close _ w := (inl tt, w);
  os_ReadFile p w := match m_files w !! p with Some b => (inl b, w) | None => (inr absent, w) end;
  os_Remove p w := match m_files w !! p with
                   | Some _ => (inl tt, Machine (delete p (m_files w)) (m_dirs w))
                   | None => (inr absent, w)
                   end
}.
#[export] Instance RFileLaws : FileLaws machine.
Proof.
  refine {| files := m_files; healthy _ := True; file_name f := f;
            offset w f := match m_files w !! f with Some b => length b | None => O end |}; cbn.
  - by intros p w r w' [= <- <-].
  - intros p w r w' [= <- <-]. cbn. by rewrite lookup_insert_eq.
  - intros f b w old r w' E Hf _. rewrite Hf in E. by injection E as <- <-.
  - by intros f w r w' [= <- <-].
  - intros p w r w' E. destruct (m_files w !! p) eqn:Ep; by injection E as <- <-.
  - intros p w r w' E. destruct (m_files w !! p) eqn:Ep; injection E as <- <-; eauto.
Defined.

#[export] Instance RStat : StatFiles machine := {
  os_Stat p w := if bool_decide (is_Some (m_files w !! p) \/ p ∈ m_dirs w) then (inl 0, w) else (inr absent, w);
  os_IsNotExist e := true;
  os_WriteFile p b w := (inl tt, Machine (<[p := b]> (m_files w)) (m_dirs w))
}.
#[export] Instance ROpen : OpenFiles machine := {
  os_Open p w := match m_files w !! p with Some b => (inl b, w) | None => (inr absent, w) end;
  io_ReadAll b w := (inl b, w)
}.
#[export] Instance ROpenLaws : OpenLaws machine.
Proof.
  split; cbn.
  - intros p w r w' E. case_bool_decide; by injection E as <- <-.
  - intros p w r w' E. destruct (m_files w !! p) eqn:Ep; by injection E as <- <-.
  - intros p w f w1 r w2 E [= <- <-]. destruct (m_files w !! p) eqn:Ep; [|done]. by injection E as <- _.
Qed.

#[export] Instance RLib : RepoLib machine := {
  os_Mkdir p w := if bool_decide (p ∈ m_dirs w \/ is_Some (m_files w !! p)) then (inr (EText "file exists"), w)
                  else (inl tt, Machine (m_files w) ({[p]} ∪ m_dirs w));
  PrivKey := string;
  GenerateEd25519Key w := (inl "a key", w);
  MarshalPrivateKey k := inl (string_bytes k);
  UnmarshalPrivateKey b := inl (bytes_string b)
}.
#[export] Instance REnv : EnvConfig machine := { env_Process _ c w := (inl c, w) }.
#[export] Instance RLaws : RepoLaws machine.
Proof.
  refine {| dirs := m_dirs |}; cbn.
  - intros p w r w' E. case_bool_decide as H; injection E as <- <-; [done|]. split; [done|]. intros _.
    split; [done|]. split; [|tauto]. destruct (m_files w !! p); [|done]. destruct H. by left.
  - by intros p w r w' [= <- <-].
  - intros f b w r w' E. destruct (m_files w !! f); by injection E as <- <-.
  - by intros f w r w' [= <- <-].
  - intros p w r w' E. destruct (m_files w !! p); by injection E as <- <-.
  - by intros f w r w' [= <- <-].
  - intros p w r w' [= <- <-]. cbn. split; [set_solver|]. intros q [->%elem_of_singleton|?]%elem_of_union; [|by left]. right.
    unfold HasPrefix. induction p as [|c p IH]; [done|]. cbn. by destruct (ascii_dec c c).
  - intros p w r w' E. case_bool_decide; by injection E as <- <-.
  - by intros p b w r w' [= <- <-].
  - by intros w r w' [= <- <-].
  - intros k. eexists. split; [done|]. by rewrite bytes_string_bytes.
  - intros w _. by exists w.
  - by intros p c w r w' [= <- <-].
Defined.

Definition repo : Repo := MkRepo "/home/sao/.sao-node" "/home/sao/.sao-node/config.toml" false.
Definition fresh : machine := Machine ∅ ∅.

Lemma init_readable_witness :
  no_repo repo fresh /\ exists key, ((Init repo "http://chain:26657" 7 ;; Init repo "" 0 ;;
      c <- repo_Config repo ;; key <- PeerId repo ;; ret (c, key)) fresh).1 =
    Ret (with_chain "http://chain:26657" 7 DefaultSaoNode, key).
Proof.
  assert (no_repo repo fresh) as Hn by (split_and!; [exact I|reflexivity|apply not_elem_of_empty|reflexivity|apply not_elem_of_empty]).
  split; [exact Hn|]. apply (init_readable repo "http://chain:26657" 7 "" 0 fresh); [exact I| |exact Hn].
  split_and!; [reflexivity..|discriminate|discriminate|discriminate].
Defined.

Lemma wp_returns {S A} (m : GoM S A) s (P : A -> Prop) (Q : Prop) :
  wp m s (fun o _ => match o with Ret t => P t | Fail _ => Q | _ => False end) -> ~ Q -> exists t, (m s).1 = Ret t /\ P t.
Proof. unfold wp. destruct (m s) as [[t|e| |] s']; intros H HQ; [by exists t|by destruct HQ|done..]. Qed.

(** A node with another address of the chain, and no pool. *)
Definition written : Config := with_chain "http://chain:26657" 0 DefaultSaoNode.
Lemma config_written_witness :
  no_clash written DefaultSaoNode /\
  exists t, (ConfigUpdate written (Some DefaultSaoNode) true fresh).1 = Ret t /\ Toml_Decode t DefaultSaoNode = inl written.
Proof.
  assert (no_clash written DefaultSaoNode) as Hc by apply with_chain_no_clash. split; [exact Hc|].
  assert (writable written) as Hw by (apply with_chain_writable; exact I).
  assert (no_overrides fresh) as He by (exists fresh; reflexivity).
  pose proof (config_written written DefaultSaoNode fresh Hw default_writable He) as H.
  destruct (wp_returns _ _ _ _ H) as (t & Et & Ht & _); [|exists t; split; [exact Et|exact Ht]]. intros Hn. exact (Hn Hc).
Defined.
End RepoNode.
