(* ===== verification/StartSample.v ===== *)
(** * A node to initialize and to start

    A machine with files, a chain and a terminal: the machine of [RepoSample] and the
    chain of [ChainSample], side by side, with datastores and the lines that are still
    to be typed.  On it a node is initialized and started, for the theorems of
    [NodeSpending] and [NodeStartTheorems]. *)
From stdpp Require Import base list gmap strings.
From Stdlib Require Import ZArith Lia Ascii.
From S2P Require Import Prelude Types StateUtils Cbor CborTypes Instances StoreManager SampleWorld.
From S2P Require Import ChainApi Stage Chain ChainSample NodeApi Upload Client Config Repo ChainInfo NodeCmds Ipfs NodeStart.
From S2P Require Import RepoTheorems NodeCmdTheorems NodeSpending NodeStartTheorems RepoSample.

Module StartNode.
Import ChainWorld RepoNode TextCid.

Record site := Site { s_m : machine; s_c : cw; s_ds : gmap (string * string) bytes; s_in : list string; s_paid : list transfer_of }.
Definition on_m {A} (c : call machine A) : call site A :=
  fun w => let '(r, m) := c (s_m w) in (r, Site m (s_c w) (s_ds w) (s_in w) (s_paid w)).
Definition on_k {A} (c : call cw A) : call site A :=
  fun w => let '(r, k) := c (s_c w) in (r, Site (s_m w) k (s_ds w) (s_in w) (s_paid w)).
Definition on_k_total {A} (c : total_call cw A) : total_call site A :=
  fun w => let '(r, k) := c (s_c w) in (r, Site (s_m w) k (s_ds w) (s_in w) (s_paid w)).
Definition done {A} (a : A) : call site A := fun w => (inl a, w).
Definition seen {A} (a : A) : total_call site A := fun w => (a, w).

(** ** The machine *)
#[export] Instance SFiles : FileSys site := let f := RFiles in {|
  File := @File _ f; homedir_Expand := @homedir_Expand _ f; os_IsExist := @os_IsExist _ f;
  os_MkdirAll p := on_m (@os_MkdirAll _ f p); os_Create p := on_m (@os_Create _ f p);
  file_Write h b := on_m (@file_Write _ f h b); file_Close h := on_m (@file_Close _ f h);
  os_ReadFile p := on_m (@os_ReadFile _ f p); os_Remove p := on_m (@os_Remove _ f p)
|}.
#[export] Instance SStat : StatFiles site := let f := RStat in {|
  os_Stat p := on_m (@os_Stat _ f p); os_IsNotExist := @os_IsNotExist _ f; os_WriteFile p b := on_m (@os_WriteFile _ f p b)
|}.
#[export] Instance SOpen : OpenFiles site := {
  os_Open p := on_m (os_Open (OpenFiles := ROpen) p); io_ReadAll b := on_m (io_ReadAll (OpenFiles := ROpen) b)
}.
#[export] Instance SRepo : RepoLib site := let l := RLib in {|
  os_Mkdir p := on_m (@os_Mkdir _ l p); PrivKey := @PrivKey _ l; GenerateEd25519Key := on_m (@GenerateEd25519Key _ l);
  MarshalPrivateKey := @MarshalPrivateKey _ l; UnmarshalPrivateKey := @UnmarshalPrivateKey _ l
|}.
#[export] Instance SEnv : EnvConfig site := { env_Process _ c := done c }.
#[export] Instance SStores : RepoStores site := {
  store_NewKey k := String "/" k;
  store_Open _ _ _ := done tt;
  store_Get d k w := match s_ds w !! (d, k) with Some b => (inl b, w) | None => (inr (EText "datastore: key not found"), w) end;
  store_Put d k b w := (inl tt, Site (s_m w) (s_c w) (<[(d, k) := b]> (s_ds w)) (s_in w) (s_paid w));
  store_Delete d k w := (inl tt, Site (s_m w) (s_c w) (delete (d, k) (s_ds w)) (s_in w) (s_paid w))
}.
(** A line is read once. *)
#[export] Instance STerminal : Console site := {
  ReadLine w := match s_in w with
                | [] => (inr (EText "EOF"), w)
                | l :: rest => (inl (l +:+ nl), Site (s_m w) (s_c w) (s_ds w) rest (s_paid w))
                end;
  ReadPassword := done "secret"
}.

(** ** The chain *)
(** A transfer is a text that says who pays whom how much, and is executed when it is
    broadcast. *)
Definition order_of (tx : bytes) : transfer_of := default ("", "", 0) (value_of (bytes_string tx)).
#[export] Instance SCosmos : CosmosLib site := let c := Cosmos in {|
  CosmosAccount := @CosmosAccount _ _ c; AuthAccount := @AuthAccount _ _ c;
  Auth_VerifySignature := @Auth_VerifySignature _ _ c;
  cosmos_Account a := on_k (@cosmos_Account _ _ c a); BroadcastTx a m := on_k (@BroadcastTx _ _ c a m);
  BankSendTx a to _ n := done (string_bytes (text_of (a, to, n)));
  tx_Broadcast b w := on_k (@tx_Broadcast _ _ c b) (Site (s_m w) (s_c w) (s_ds w) (s_in w) (s_paid w ++ [order_of b]));
  LatestBlockHeight := on_k (@LatestBlockHeight _ _ c); rpc_Tx b := on_k (@rpc_Tx _ _ c b);
  AccAddress := @AccAddress _ _ c; AccAddressFromBech32 := @AccAddressFromBech32 _ _ c;
  retriever_GetAccount a := on_k (@retriever_GetAccount _ _ c a);
  Decode_OrderResponse := @Decode_OrderResponse _ _ c; Decode_Results := @Decode_Results _ _ c;
  Decode_FaultIds := @Decode_FaultIds _ _ c;
  q_Fishmen := on_k (@q_Fishmen _ _ c); q_Order i := on_k (@q_Order _ _ c i);
  q_Shard i := on_k (@q_Shard _ _ c i); q_ShardAll o l := on_k (@q_ShardAll _ _ c o l);
  q_MetadataAll o l := on_k (@q_MetadataAll _ _ c o l); q_Metadata d := on_k (@q_Metadata _ _ c d);
  q_SaoMetadata h q s := on_k (@q_SaoMetadata _ _ c h q s); q_Node a := on_k (@q_Node _ _ c a);
  q_NodeAll := on_k (@q_NodeAll _ _ c); q_Fault i := on_k (@q_Fault _ _ c i);
  q_AllFaults p := on_k (@q_AllFaults _ _ c p); q_Pledge a := on_k (@q_Pledge _ _ c a);
  q_DidParams := on_k (@q_DidParams _ _ c); q_SidDocument v := on_k (@q_SidDocument _ _ c v);
  q_PaymentAddress d := on_k (@q_PaymentAddress _ _ c d);
  hex_DecodeString := @hex_DecodeString _ _ c; time_Sleep d := on_k_total (@time_Sleep _ _ c d)
|}.
#[export] Instance SKeyring : KeyringLib site := let k := Keyring in {|
  Registry := @Registry _ _ _ k; KeyRecord := @KeyRecord _ _ _ k; KeyAccount := @KeyAccount _ _ _ k;
  SigningAlgo := @SigningAlgo _ _ _ k;
  registry_New h := on_k (@registry_New _ _ _ k h); GetByName r n := on_k (@GetByName _ _ _ k r n);
  registry_Create r n := on_k (@registry_Create _ _ _ k r n);
  registry_Import r n s p := on_k (@registry_Import _ _ _ k r n s p);
  registry_Export r n p := on_k (@registry_Export _ _ _ k r n p);
  account_Name := @account_Name _ _ _ k; account_Address := @account_Address _ _ _ k;
  mk_KeyAccount := @mk_KeyAccount _ _ _ k; keyring_Sign r n b := on_k (@keyring_Sign _ _ _ k r n b);
  keyring_SignByAddress r a b := on_k (@keyring_SignByAddress _ _ _ k r a b); hdPath := @hdPath _ _ _ k;
  SigningAlgoFromString := @SigningAlgoFromString _ _ _ k;
  NewAccount r n m h a := on_k (@NewAccount _ _ _ k r n m h a);
  NewEntropy n := on_k (@NewEntropy _ _ _ k n); NewMnemonic := @NewMnemonic _ _ _ k
|}.
#[export] Instance SRand : RandLib site := { rand_Intn _ := seen 0 }.
(** Every account has 1500. *)
#[export] Instance SStart : ChainStart site := {
  cosmos_New _ _ := done tt; q_NetVersion := done CURRENT_NET_VERSION; http_New _ _ := done tt;
  BankBalances _ := done [("stake", 5); (DENOM, 1500)]; q_Balance _ _ := done 1500;
  rpc_Block _ := done ""; q_Model _ := done ""; registry_List _ := done []
}.

(** ** Programs that are not called, and programs that answer *)
#[export] Instance SRpc : NodeRpc site := {
  rpc_New _ _ := done tt; rpc_GetNodeAddress _ := done "sao1node"; rpc_GetNetPeers _ := done [];
  rpc_ModelMigrate _ _ := done ("hash", ∅); rpc_OrderList _ := done []; rpc_OrderStatus _ _ := fun w => (inr (EText "no order"), w);
  rpc_ShardStatus _ _ _ := fun w => (inr (EText "no shard"), w); rpc_ShardList _ := done []; rpc_MigrateJobList _ := done []
}.
#[export] Instance SDescription : DescriptionLib := { mk_Description details _ _ _ _ := details }.
#[export] Instance SUuid : UuidLib site := { uuid_NewV1 := seen "1"; uuid_NewV4 := seen "4"; uuid_NewV5 _ _ := "5" }.
#[export] Instance SClient : ClientLib site := {
  toml_Decode _ c := inl c; toml_Encode _ := inl []; NewNodeApi _ _ := done tt; NewChainSvc _ := done tt; stdin_ReadLine := done []
}.
#[export] Instance SAddresses : MultiaddrLib := {
  NewMultiaddr s := if HasPrefix s "/" then inl s else inr (EText "must begin with /"); DialArgs s := inl s
}.
(** A token is the key and the permissions. *)
#[export] Instance SJwt : JwtLib := {
  jwt_Sign perms key := inl (bytes_string key +:+ "." +:+ NodeStart.join perms);
  jwt_Verify token key := if HasPrefix token (bytes_string key) then
      inl (if HasSuffix token "admin" then AllPermissions else [PermNone]) else inr (EText "bad signature")
}.
(** A proxy is made when all methods have a permission. *)
#[export] Instance SAuth : AuthLib := {
  Proxy := unit; PermissionedProxy _ _ tags := if forallb (fun t => negb (String.eqb t.2 "")) tags then Some tt else None
}.
#[export] Instance SAuthLaws : AuthLaws.
Proof.
  split. intros valid defaults tags m Hm. cbn. destruct (forallb _ tags) eqn:E; [|reflexivity].
  rewrite List.forallb_forall in E. apply list_elem_of_In, E in Hm. discriminate.
Qed.
#[export] Instance SHost : HostLib site := {
  Host := list string; host_New listen _ := done listen; host_ID _ := "12D3KooWnode"; host_Addrs h := h;
  Encapsulate a b := a +:+ b; host_Peers _ := seen ["peer1"]; host_PeerAddrs _ _ := seen []; host_Conns _ := seen ["peer1"];
  peer_ShortString p := p; AddrInfo := string; AddrInfoFromP2pAddr a := inl a; host_Connect _ _ := done tt;
  NodeStart.Transport := unit; webtransport_New _ := done tt; host_NewOn _ _ := done ["/ip4/127.0.0.1/udp/5154"; "/ip4/10.0.0.7/udp/5154"];
  host_Listen _ _ := done tt; host_SetStreamHandler _ := seen tt; manet_Listen _ := done tt
}.
#[export] Instance SServices : Services site := {
  NewStoreService _ _ := done tt; NewGatewaySvc _ _ := seen tt; NodeStart.StartHttpFileServer _ := done tt;
  NewIndexSvc _ := seen tt; StartGraphqlServer _ := done tt; stop_service _ := done tt
}.
#[export] Instance SIpfs : IpfsClient site := {
  CoreAPI := unit; httpapi_NewApi _ := inl tt;
  block_Put _ r w := ((inl (bytes_string r), []), w); block_Stat _ _ := done (inl tt);
  block_Get _ _ := done (inr (EText "not found")); pin_Rm _ _ := done tt
}.
#[export] Instance SKubo : Kubo site := {
  IpfsNode := unit; IpfsConfig := unit; plugins_New _ := done tt; plugins_Initialize := done tt; plugins_Inject := done tt;
  ipfs_config_Init := done tt; fsrepo_Init _ _ := done tt; fsrepo_Open _ := done tt; core_NewNode _ := done tt;
  coreapi_New _ := done tt
}.

(** ** A node *)
Definition flags : ncli := {|
  nf_IsSet _ := false;
  nf_String name := if String.eqb name "repo" then "/home/sao/.sao-node" else if String.eqb name "creator" then "sao1node" else "";
  nf_Bool _ := false; nf_Uint _ := 3; nf_Uint64 _ := 0; nf_Int64 _ := 0; nf_StringSlice _ := []; nf_Uint64Slice _ := [];
  nf_Args := []; app_Name := "saonode"; nf_ChainAddress := "http://chain:26657"; nf_KeyringHome := "/home/sao/.sao";
  nf_NodeApi := ""; nf_ApiToken := ""
|}.
(** The terminal has an answer that is not yes. *)
Definition empty_site : nc (W := site) :=
  Nc (Ch (Site (Machine ∅ ∅) (Cw 100 ∅ [] []) ∅ ["what?"; "Yes"] []) None ∅) None.

(** [init] with a pool of three addresses: 333 for each. *)
Definition init_run : (outcome string * nc (W := site))%type := initCmd 2 flags empty_site.
Lemma init_returns : fst init_run = Ret "hash".
Proof. vm_compute. reflexivity. Qed.
(** Transfers are executed by broadcast transactions only. *)
Lemma on_m_frugal {A} (c : call machine A) : frugal s_paid (on_m c).
Proof. intros w. unfold on_m. by destruct (c (s_m w)). Qed.
Lemma on_k_frugal {A} (c : call cw A) : frugal s_paid (on_k c).
Proof. intros w. unfold on_k. by destruct (c (s_c w)). Qed.
Lemma broadcast_paid tx (w : site) : s_paid (tx_Broadcast tx w).2 = s_paid w ++ [order_of tx].
Proof. cbn [tx_Broadcast SCosmos]. by rewrite on_k_frugal. Qed.
#[export] Instance SBank : BankLaws site.
Proof.
  refine {| transfers := s_paid; account_of := fun a => a; transfer := order_of |};
    try (intros; apply on_m_frugal); try (intros; apply on_k_frugal); try done.
  - intros a w x w'. cbn. unfold on_k. cbn. by destruct (String.eqb a "nobody"); intros [= ->].
  - intros x to denom n w tx w' [= <- _]. unfold order_of. by rewrite bytes_string_bytes, value_text.
  - intros tx w. right. apply broadcast_paid.
  - intros tx w r w' E _. by rewrite <- broadcast_paid, E.
  - intros w. cbn. by destruct (s_in w).
Defined.

(** Each of the three addresses has got 333. *)
Lemma init_spends_witness :
  (initCmd 2 flags empty_site).1 = Ret "hash" /\
  length (s_paid (ch_c (nc_ch (initCmd 2 flags empty_site).2))) = 3%nat /\
  Forall (fun p => p.1.1 = "sao1node" /\ p.1.2 <> "sao1node" /\ p.2 = 333)
    (s_paid (ch_c (nc_ch (initCmd 2 flags empty_site).2))) /\
  spends (W := site) flags empty_site (initCmd 2 flags empty_site).1 (initCmd 2 flags empty_site).2.
Proof.
  split; [exact init_returns|]. split; [vm_compute; reflexivity|]. split.
  - vm_compute. repeat constructor; discriminate.
  - exact (init_spends flags empty_site 2).
Defined.

(** The node, on what [init] has left: it stores, and has an IPFS node. *)
Definition site_run : (outcome Node * sns (W := site))%type :=
  NewNode 1 repo "/home/sao/.sao" (Sns (Nc (nc_ch init_run.2) None) ∅ 0 false).
Lemma node_returns : match site_run.1 with
  | Ret n => (n_address n, n_stopFuncs n) = ("sao1node", [StopIpfs; StopStorage; StopRpc; StopChain; CloseNotify])
  | _ => False
  end.
Proof. vm_compute. reflexivity. Qed.
Lemma node_started_witness : exists n, site_run.1 = Ret n /\ n_address n = "sao1node" /\ started n site_run.2.
Proof.
  pose proof node_returns as Hr. destruct site_run as [[n|e| |] s'] eqn:E; cbn [fst] in Hr; [|destruct Hr..].
  exists n. split; [reflexivity|]. split; [congruence|].
  exact (node_started 1 repo "/home/sao/.sao" (Sns (Nc (nc_ch init_run.2) None) ∅ 0 false) n s' E).
Defined.
End StartNode.
